(* ===== verification/_CoqProject ===== *)
-Q . S2P
Prelude.v
NgxString.v
StatusLine.v
CheckTypes.v
CheckProto.v
FastCgi.v
CheckCore.v
Hysteresis.v
CheckSafety.v
CheckWorker.v
CheckOwner.v
Inet.v
FastCgiRequest.v
CheckConf.v
AddPeer.v
CheckShm.v
Boot.v
RoundRobin.v
RoundRobinInit.v
RbTree.v
RbInsert.v
RbDelete.v
EventTimer.v
CheckTimers.v
NgxQueue.v
Keepalive.v
Slab.v
SlabRing.v
SlabPages.v
SlabRuns.v
SlabFree.v
SlabChunk.v
SlabBits.v
SlabMark.v
SlabSmall.v
SlabNew.v
SlabHeap.v
SlabAlloc.v
SlabTake.v
SlabRelease.v
SlabFreeChunk.v
SlabFreeSpec.v
SlabInit.v
SlabSafe.v
SlabClaims.v
SlabGrow.v
CheckZone.v
HttpArgs.v
StatusPage.v
PrintText.v
StatusBounds.v
StatusText.v
StatusHandler.v
Json.v
StatusJson.v
Shmtx.v
RwLock.v
Ownership.v
LeastConn.v
Crc32.v
HashPeer.v
ConsistentHash.v
RandomPeer.v
ParseTime.v
InetParse.v
Url.v
UpstreamConf.v
UpstreamTyped.v
Traffic.v
