(* ===== verification/Prelude.v ===== *)
(** * Verification of the nginx upstream health checker

    The program is the active health checker of a tengine (nginx) build: two
    modules, [ngx_stream_upstream_check_module.c] and
    [ngx_http_upstream_check_module.c] under
    [tengine-master/ngx_healthcheck_module], that check the servers of
    upstream blocks at intervals (by connecting, or by an HTTP, FastCGI, SSL,
    MySQL or AJP exchange), keep an up/down state per server in shared memory,
    and let the load balancers of [src/http] and [src/stream] skip the servers
    that are down.  Around them: directives that configure the checks, the
    registration of servers, and the life of the shared memory across reloads.

    ** Files

    - [Prelude]: record update, return codes, machine integers, byte strings,
      tactics and hint databases.
    - [NgxString]: the string routines of [src/core/ngx_string.c] and
      [ngx_parse.c] that the modules use, among them [ngx_atoi] and the
      [ngx_vslprintf] family (all conversions but [%f]).
    - [StatusLine]: [ngx_upstream_check_http_parse_status_line] of
      [ngx_healthcheck_common.c], the incremental parser of a response head, as
      a state machine over bytes.
    - [CheckTypes]: the structures of [common.h.in] and the check type tables.
      Function pointers of the tables are constructors.  A worker's part of a
      peer and its shared part are two records.  The receive buffer carries the
      number of its block, so that a pointer into an abandoned block is seen.
    - [CheckProto]: [.._init], [.._parse] and [.._reinit] of the protocols; a
      parse function returns [None] where the C code has no defined meaning.
    - [FastCgi]: theorems about the FastCGI response parser.
    - [CheckCore]: the handlers of one peer ([status_update], [clean_event],
      send, receive, peek, discard, connect, timeout, begin) and of a worker
      process (timers, exit, the functions the balancers call).  A handler
      takes the answers of the operating system as an argument of type [io]
      (results of [recv], [send], [connect], allocations) and acts on a [cell],
      the pair of local and shared part.  What the two modules share is
      defined once; modules [StreamCheck] and [HttpCheck] carry the source
      names.
    - [Hysteresis]: the specification of the up/down decision.
    - [CheckSafety], [CheckWorker], [CheckOwner]: an invariant of peers and
      workers, followed through every handler and every sequence of events;
      the class [CheckModule] is what differs between the modules and
      [CheckModuleOk] what a module promises to the event loop.
    - [Inet], [FastCgiRequest], [CheckConf], [AddPeer]: addresses as text, the
      FastCGI request, the directives, the registration of servers.
    - [CheckShm]: zones, generations and the inheritance of state; the class
      [ShmModule] is what differs between the modules, [ShmModuleOk] its laws.
    - [Boot]: a configuration from its directives to a running worker.
    - [RoundRobin], [RoundRobinInit]: the weighted round robin of
      [ngx_http_upstream_round_robin.c] and its stream copy.
    - [RbTree], [RbInsert], [RbDelete]: the red-black tree of [ngx_rbtree.c] in
      memory, pointer by pointer; [EventTimer]: the timers of a worker kept in
      it ([ngx_event_timer.c]); [CheckTimers]: that the timers of [CheckCore],
      a key in each event, are those of the tree.
    - [NgxQueue]: the queues of [ngx_queue.h] in memory; [Keepalive]: the idle
      connections of an upstream ([ngx_http_upstream_keepalive_module.c]).
    - [Slab]: the allocator of shared memory, [ngx_slab.c], on descriptors and
      words of memory.  [SlabRing], [SlabPages], [SlabRuns], [SlabFree]: the
      rings and runs of pages, with the list of segments that describes a pool;
      [SlabBits], [SlabChunk], [SlabMark], [SlabSmall], [SlabNew]: pages of
      chunks and their bitmaps; [SlabHeap], [SlabAlloc], [SlabTake],
      [SlabRelease], [SlabFreeChunk], [SlabFreeSpec], [SlabInit]: the blocks of
      a pool and what each function does to them; [SlabSafe], [SlabClaims]: the
      abstract heap and the theorems.  [SlabGrow], [CheckZone]: the allocations
      of [init_shm_zone] in a zone of the configured size.
    - [HttpArgs]: [ngx_http_arg], the parameters of a query string.
    - [StatusPage]: the two status pages, [ngx_healthcheck_status.c] and the
      status handler of the http module; a format function gives the list of
      its [ngx_snprintf] calls and [print] performs them on a bounded buffer.
      [StatusText] specifies the pages as text, without the format strings and
      tests of the code; [PrintText], [StatusBounds], [StatusHandler] hold
      theorems about them, [Json] a reader of JSON as a second specification,
      [StatusJson] what it reads from the JSON pages.
    - [Shmtx], [RwLock]: the mutex and the read-write lock of shared memory
      ([ngx_shmtx.c], [ngx_rwlock.c]) as step relations, one access to shared
      memory a step, for any number of processes.
    - [Ownership]: how workers agree which of them checks a peer, at the same
      grain; the mutex there is the abstract one [Shmtx] implements.
    - [LeastConn], [HashPeer], [ConsistentHash], [RandomPeer]: the balancers
      [least_conn], [hash], [ip_hash], [hash .. consistent] and [random] of
      [src/http/modules] and [src/stream]; [Crc32]: [ngx_crc32.c], on which the
      hashes are built.
    - [ParseTime], [InetParse], [Url]: durations ([ngx_parse.c]), addresses
      and [ngx_parse_url] ([ngx_inet.c]).
    - [UpstreamConf], [UpstreamTyped]: [upstream] blocks, the [server]
      directive and the balancers' directives ([ngx_http_upstream.c],
      [ngx_stream_upstream.c]), and what they promise to the balancers.
    - [Traffic]: the balancers behind one interface, from an accepted block
      through [init_upstream] to any sequence of requests.

    ** What the theorems show

    - Safety: from any accepted configuration without FastCGI checks, and
      without a check port for servers on unix sockets, the load succeeds and a
      worker handles every event in every order, with any answers of the
      operating system, as long as responses to HTTP checks fit the receive
      buffer ([accepted_configuration_safe], [worker_never_crashes]); under the
      same conditions a check ends with exactly one verdict, and only the
      discard handler of an idle connection releases a peer without one
      ([worker_one_verdict]); the receive loop terminates and loses nothing
      ([recv_loop_collects]).
    - The decision: [status_update] implements "down after [fall] failures in
      a row, up after [rise] successes in a row" ([status_update_hysteresis]);
      an unreachable server goes down in the http module and is never looked
      at again by that worker in the stream module
      ([http_unreachable_goes_down], [stream_unreachable_stuck]).
    - The verdicts of HTTP and FastCGI checks on responses as servers write
      them, decided by the hundreds of the status code, and of HTTP responses
      however they are cut into reads ([http_parse_verdict],
      [http_parse_body_verdict], [fastcgi_parse_verdict],
      [parse_status_line_accepts], [parse_status_line_incremental],
      [parse_status_line_safe]).
    - Configuration: the directives read what is written, within bounds; the
      FastCGI request decodes to its parameters if their names are short; the check address differs
      only in its port; the indices given to the balancer are right
      ([check_directive_reads], [check_directive_bounds],
      [expect_alive_selects], [fastcgi_request_decodes],
      [check_address_port], [add_peers_indices]).
    - Reload: state is inherited ([reload_inherits]), except after a failed
      load ([failed_reload_forgets]) and, in the http module, across upstreams
      ([http_reload_mixes_upstreams]).
    - Balancing: a request gets a usable server if there is one
      ([request_gets_usable_server]); requests are distributed exactly by
      weight over the healthy servers ([round_robin_fair]); weights stay
      consistent ([round_robin_weights]); balancer and checker agree on the
      servers ([init_round_robin_links]).
    - The other balancers: [least_conn] takes the server with the least
      connections for its weight ([least_conn_chooses_least]); the consistent
      hash moves no key but those of a removed server, collisions of their
      hashes apart ([chash_consistent]), and walks the ring to the first usable server ([chash_request_walks]); the
      CRC tables compute the CRC of the polynomial ([crc32_reference]).
    - Composition: an accepted upstream block becomes servers with the values
      the balancers divide and index by ([configured_upstreams_typed],
      [server_directive_reads], [upstream_found_by_name],
      [address_text_roundtrip]), and without a zone every request to it is
      answered, whatever the balancer and the traffic before
      ([configured_requests_served]).
    - Timers: the tree is the list of pending events in the order of their
      times, across the overflow of the clock, and as low as a red-black tree
      is ([timers_refine_queue]); expiry ends and calls the handlers of the
      events that are due, in order, which a log of the calls shows
      ([expire_runs_due]); the checker's view of
      its timers is right ([check_timers_refined]).
    - Idle connections: the queues of the keepalive module are a bounded list
      of the latest connections, no connection is used twice or after it was
      closed ([keepalive_refines_lru], [keepalive_reuse]); the sort of queues
      is stable ([queue_sort_stable]), a split queue joins again
      ([queue_split_add]).
    - Shared memory: the allocator implements an abstract heap for any calls
      and writes of its users ([slab_refines_heap]), fails only without room
      ([slab_out_of_memory]), joins what was released ([slab_no_leak]) and
      refuses wrong releases ([slab_free_refused]) but for two
      ([slab_free_end_unchecked], [slab_free_bitmap_accepted]); the zone of the
      checker is large enough for 2000 servers ([check_zone_fits]).
    - Concurrency: the mutex refines the abstract one and loses no wakeup
      ([shmtx_refines_mutex], [shmtx_no_lost_wakeup]); writers are alone under
      the read-write lock ([rwlock_exclusive]); one worker at a time checks a
      peer ([one_checker]), unless a connection found idle is discarded
      ([discard_two_checkers]).
    - The status page: a request is answered with the page it asks for, byte
      for byte the specified text ([status_request_answered]), in the buffer
      allocated for it if names are not too long (160 bytes for an upstream and
      a server), and the JSON page reads back as the peers
      ([status_json_valid]).
    - Where the code does not do what it means to, a theorem states what it
      does instead ([hash_lock_leaked], [random_ignores_health],
      [http_json_trailing_comma], [discard_releases_other_owner],
      [http_enlarged_buffer_undefined], [fastcgi_null_name],
      [fastcgi_split_header_rejected], [fastcgi_long_name_overruns],
      [add_peer_unix_left_behind]).

    ** Conventions, bounds and fuel

    Integers are [Z]; [u64], [u32], [u16] and [u8] write the wrap-around where
    the code can reach it, except that the current and effective weights of the
    balancers and their sum are unbounded (they differ from [ngx_int_t] only for
    weights that sum past 2^63).  In [Slab] an access to a page descriptor that
    does not exist is [None]; the words of pages are a total memory.  Result [None] of a handler is behaviour C does not
    define (a null pointer, a pointer into another block, an overrun buffer)
    or fuel that ran out; [NGX_ERROR] and its like are values.  The loops with
    fuel are the receive and send loops (one round per byte and result still
    to come, [recv_fuel]), [num_loop] (the 20 digits of a 64-bit number), the
    format loop (every round consumes a byte of the format), the FastCGI
    parser loops (every round consumes input), the output loop of
    [ngx_inet6_ntop] (8 groups), the retries of the hash and random balancers
    (21 rounds, the code gives up after 20), the walk of the consistent hash
    (the same), [ngx_parse_time] (one round per character), the binary
    searches (the interval shrinks in every round), the loops of the
    red-black tree and of queues (one round per node or link in memory), the
    expiry of timers (one round per timer), the search of [Slab] for a run (one
    round per descriptor) and its loops over bitmaps (one round per word or
    bit); the theorems show that the fuel is enough.  The locks have no fuel: they are step relations, and
    their theorems hold in every reachable state.

    ** What is not modelled

    The event loop, sockets, PCRE, [getaddrinfo], [qsort] and [ngx_random] are
    parameters, the last three with their documented behaviour where it is
    used.  Allocations fail where a handler has an answer to it and succeed in
    the configuration.  Logging is left out.  The handlers of [CheckCore] are
    one step each: the interleavings of workers are the subject of [Shmtx],
    [RwLock] and [Ownership].  Of the locks, [ngx_shmtx_force_unlock] and the
    creation of the semaphore are left out; of addresses, CIDR masks and
    [ngx_parse_addr]; of the allocator, the functions that only take its mutex
    around the modelled ones.  Not modelled: the copy of an upstream into its
    zone, upstreams resolved at run time.  The proxying of requests, the Go
    controller and the rest of tengine are outside. *)

From Stdlib Require Export ZArith Lia ZifyBool.
From stdpp Require Export strings prelude.
From Stdlib Require Ascii.
Export Ascii.AsciiSyntax.

Open Scope Z_scope.

(** ** Functional record update

    [r <| f := v |>] is the record [r] with field [f] replaced.  A record
    type opts in with one [Eta] instance, its eta-expansion; the setter of a
    field is computed from it when the notation is elaborated. *)

Class Eta (R : Type) := eta_rec : R -> R.

Class Upd {R T : Type} (f : R -> T) := upd : T -> R -> R.

Ltac solve_upd :=
  match goal with
  | |- @Upd ?R ?T ?f =>
    let v := fresh "v" in
    let r := fresh "r" in
    intros v r;
    let e := constr:(eta_rec r) in
    let t := eval hnf in e in
    let g := eval pattern (f r) in t in
    match g with ?h _ => let u := eval cbv beta in (h v) in exact u end
  end.

#[export] Hint Extern 0 (Upd _) => solve_upd : typeclass_instances.

Arguments upd {R T} f {_} _ _ /.

Declare Scope ngx_scope.

Notation "r <| f := v |>" := (upd f v r)
  (at level 1, left associativity, f at level 0, v at level 200,
   format "r  <| f  :=  v |>") : ngx_scope.

Open Scope ngx_scope.

(** ** Return codes ([src/core/ngx_core.h]) *)

Inductive ngx_rc : Set :=
| NGX_OK | NGX_ERROR | NGX_AGAIN | NGX_BUSY | NGX_DONE | NGX_DECLINED | NGX_ABORT.

#[export] Instance ngx_rc_eq_dec : EqDecision ngx_rc.
Proof. solve_decision. Defined.

(** The integer value of a return code. *)
Definition rc_val (r : ngx_rc) : Z :=
  match r with
  | NGX_OK => 0 | NGX_ERROR => -1 | NGX_AGAIN => -2 | NGX_BUSY => -3
  | NGX_DONE => -4 | NGX_DECLINED => -5 | NGX_ABORT => -6
  end.

(** ** Machine integers of the 64-bit build *)

Definition u8 (x : Z) : Z := x mod 2 ^ 8.
Definition u16 (x : Z) : Z := x mod 2 ^ 16.
Definition u32 (x : Z) : Z := x mod 2 ^ 32.
Definition u64 (x : Z) : Z := x mod 2 ^ 64.

(** Reading a 64-bit pattern as a signed number ([ngx_int_t], [ngx_msec_int_t]). *)
Definition i64 (x : Z) : Z := (x + 2 ^ 63) mod 2 ^ 64 - 2 ^ 63.

Definition in_u64 (x : Z) : Prop := 0 <= x < 2 ^ 64.

Definition NGX_MAX_INT_T_VALUE : Z := 9223372036854775807.

Lemma u64_small x : in_u64 x -> u64 x = x.
Proof. unfold in_u64, u64. intros H. by apply Z.mod_small. Qed.

Lemma u64_range x : in_u64 (u64 x).
Proof. unfold in_u64, u64. by apply Z.mod_pos_bound. Qed.

Lemma u64_u64 x : u64 (u64 x) = u64 x.
Proof. apply u64_small, u64_range. Qed.

Lemma u64_add_l x y : u64 (u64 x + y) = u64 (x + y).
Proof. unfold u64. by rewrite Zplus_mod_idemp_l. Qed.

Lemma u64_add_r x y : u64 (x + u64 y) = u64 (x + y).
Proof. unfold u64. by rewrite Zplus_mod_idemp_r. Qed.

Lemma u64_sub_l x y : u64 (u64 x - y) = u64 (x - y).
Proof. unfold u64. by rewrite Zminus_mod_idemp_l. Qed.

Lemma u32_range x : 0 <= u32 x < 2 ^ 32.
Proof. unfold u32. by apply Z.mod_pos_bound. Qed.

Lemma i64_small x : - 2 ^ 63 <= x < 2 ^ 63 -> i64 x = x.
Proof. unfold i64. intros H. rewrite Z.mod_small; lia. Qed.

Lemma i64_u64 x : i64 (u64 x) = i64 x.
Proof. unfold i64, u64. by rewrite Zplus_mod_idemp_l. Qed.

(** Bytes are put together with shifts and bitwise or. *)
Lemma lor_shiftl_add a b n : 0 <= n -> 0 <= b < 2 ^ n -> Z.lor (Z.shiftl a n) b = a * 2 ^ n + b.
Proof.
  intros Hn Hb. rewrite <- Z.shiftl_mul_pow2 by done. rewrite <- Z.add_lor_land.
  replace (Z.land (Z.shiftl a n) b) with 0; [lia|]. symmetry.
  apply Z.bits_inj'. intros i Hi. rewrite Z.land_spec, Z.bits_0.
  destruct (Z.lt_ge_cases i n) as [Hlt|Hge].
  - by rewrite Z.shiftl_spec_low.
  - rewrite <- (Z.mod_small b (2 ^ n)) by done. rewrite Z.mod_pow2_bits_high by lia. apply andb_false_r.
Qed.

Lemma land_ff x : Z.land x 0xff = x mod 2 ^ 8.
Proof. change 0xff with (Z.ones 8). by rewrite Z.land_ones. Qed.

(** Running an option computation that succeeds. *)
Lemma bind_some {A B} (o : option A) (f : A -> option B) x : o = Some x -> o ≫= f = f x.
Proof. by intros ->. Qed.

Create HintDb ngx.

#[export] Hint Resolve u64_range u32_range : ngx.
Create Rewrite HintDb ngx.

#[export] Hint Rewrite u64_u64 u64_add_l u64_add_r u64_sub_l : ngx.

(** ** Byte strings

    A [u_char] is a [Z] in [0, 255]; a byte string is a list of them. *)

Abbreviation bytes := (list Z).

Definition is_byte (c : Z) : Prop := 0 <= c < 256.

(** The bytes of a C string literal (without the terminating NUL). *)
Fixpoint s2b (s : string) : bytes :=
  match s with
  | EmptyString => []
  | String a s' => Z.of_N (Ascii.N_of_ascii a) :: s2b s'
  end.

(** The byte value of a character constant. *)
Definition ch (a : Ascii.ascii) : Z := Z.of_N (Ascii.N_of_ascii a).
Arguments ch a%_char_scope.

Definition blen (b : bytes) : Z := Z.of_nat (length b).

Lemma blen_app a b : blen (a ++ b) = blen a + blen b.
Proof. unfold blen. rewrite length_app. lia. Qed.

Lemma blen_nonneg a : 0 <= blen a.
Proof. unfold blen. lia. Qed.

Lemma blen_cons c b : blen (c :: b) = 1 + blen b.
Proof. unfold blen. cbn. lia. Qed.

Lemma blen_nil : blen [] = 0.
Proof. done. Qed.

#[export] Hint Resolve blen_nonneg : ngx.
Create Rewrite HintDb blen.
#[export] Hint Rewrite blen_app blen_cons blen_nil : blen.

Definition CR : Z := 13.
Definition LF : Z := 10.
Definition SP : Z := 32.

Definition bytes_eqb (a b : bytes) : bool := bool_decide (a = b).

Lemma bytes_eqb_eq a b : bytes_eqb a b = true <-> a = b.
Proof. unfold bytes_eqb. by rewrite bool_decide_eq_true. Qed.

(** ** Automation *)

(** Split on the integer and boolean comparisons of the goal and context. *)
Ltac zcase1 :=
  match goal with
  | |- context [Z.eqb ?a ?b] => destruct (Z.eqb_spec a b)
  | |- context [Z.ltb ?a ?b] => destruct (Z.ltb_spec a b)
  | |- context [Z.leb ?a ?b] => destruct (Z.leb_spec a b)
  | H : context [Z.eqb ?a ?b] |- _ => destruct (Z.eqb_spec a b)
  | H : context [Z.ltb ?a ?b] |- _ => destruct (Z.ltb_spec a b)
  | H : context [Z.leb ?a ?b] |- _ => destruct (Z.leb_spec a b)
  end.

Ltac zcase := repeat (zcase1; simpl in *; try lia).

(** [lia] with the defining equations of [Z.div] and [Z.modulo]. *)
Ltac dlia := Z.div_mod_to_equations; lia.

(** Destruct the scrutinees of the matches and conditionals in the goal. *)
Ltac mcase1 :=
  match goal with
  | |- context [match ?x with _ => _ end] =>
    lazymatch x with context [match _ with _ => _ end] => fail | _ => idtac end;
    destruct x eqn:?
  end.

Ltac mcase := repeat (mcase1; simplify_eq/=; try done).
