(* ===== verification/NgxString.v ===== *)
(** * Strings and numbers ([src/core/ngx_string.c], [ngx_string.h], [ngx_parse.c])

    The string routines the health checker calls.  A NUL-terminated C string
    is the list of its bytes before the NUL: reading one past the end of the
    list reads the NUL.  An output buffer is the number of bytes left in it
    ([room], i.e. [last - buf]) and the list of bytes written to it. *)

From S2P Require Import Prelude.

(** ** Comparison *)

(** [c1 = (c1 >= 'A' && c1 <= 'Z') ? (c1 | 0x20) : c1] *)
Definition to_low (c : Z) : Z :=
  if (ch "A" <=? c) && (c <=? ch "Z") then Z.lor c 32 else c.

(** [strncmp] of the C library, on NUL-terminated operands. *)
Fixpoint ngx_strncmp (s1 s2 : bytes) (n : nat) : Z :=
  match n with
  | O => 0
  | S n' =>
    let c1 := hd 0 s1 in
    let c2 := hd 0 s2 in
    if c1 =? c2 then if c1 =? 0 then 0 else ngx_strncmp (tl s1) (tl s2) n'
    else c1 - c2
  end.

(** [strcmp] of the C library. *)
Definition ngx_strcmp (s1 s2 : bytes) : Z := ngx_strncmp s1 s2 (S (length s1)).

Fixpoint ngx_strcasecmp (s1 s2 : bytes) : Z :=
  let c1 := to_low (hd 0 s1) in
  let c2 := to_low (hd 0 s2) in
  if c1 =? c2 then
    if c1 =? 0 then 0
    else match s1 with
         | [] => 0
         | _ :: s1' => ngx_strcasecmp s1' (tl s2)
         end
  else c1 - c2.

Fixpoint ngx_strncasecmp (s1 s2 : bytes) (n : nat) : Z :=
  match n with
  | O => 0
  | S n' =>
    let c1 := to_low (hd 0 s1) in
    let c2 := to_low (hd 0 s2) in
    if c1 =? c2 then if c1 =? 0 then 0 else ngx_strncasecmp (tl s1) (tl s2) n'
    else c1 - c2
  end.

(** ** Searching *)

(** [ngx_strlchr p last c] over the bytes from [p] to [last]: the offset of
    the first [c], [None] for [NULL]. *)
Fixpoint ngx_strlchr (l : bytes) (c : Z) : option nat :=
  match l with
  | [] => None
  | x :: l' => if x =? c then Some 0%nat else S <$> ngx_strlchr l' c
  end.

(** [strstr] of the C library: the offset of the first occurrence. *)
Fixpoint ngx_strstr (l needle : bytes) : option nat :=
  if bool_decide (take (length needle) l = needle) then Some 0%nat
  else match l with
       | [] => None
       | _ :: l' => S <$> ngx_strstr l' needle
       end.

(** ** Numbers *)

(** The loop of [ngx_atoi] and [ngx_atosz]: [n] is the [size_t] count of bytes
    still to read; the byte after the end of the list is the NUL. *)
Fixpoint ato_loop (max : Z) (line : bytes) (n value : Z) : Z :=
  if n =? 0 then value
  else match line with
       | [] => -1
       | c :: line' =>
         if (c <? ch "0") || (ch "9" <? c) then -1
         else if (max / 10 <=? value)
                 && ((max / 10 <? value) || (max mod 10 <? c - ch "0")) then -1
         else ato_loop max line' (n - 1) (value * 10 + (c - ch "0"))
       end.

Definition ngx_atoi (line : bytes) (n : Z) : Z :=
  if n =? 0 then rc_val NGX_ERROR else ato_loop NGX_MAX_INT_T_VALUE line n 0.

Definition NGX_MAX_SIZE_T_VALUE : Z := 9223372036854775807.

Definition ngx_atosz (line : bytes) (n : Z) : Z :=
  if n =? 0 then rc_val NGX_ERROR else ato_loop NGX_MAX_SIZE_T_VALUE line n 0.

(** [ngx_parse_size]: a number with an optional K or M suffix. *)
Definition ngx_parse_size (line : bytes) : Z :=
  let len := blen line in
  if len =? 0 then rc_val NGX_ERROR
  else
    let unit := nth (length line - 1) line 0 in
    let '(len, max, scale) :=
      if (unit =? ch "K") || (unit =? ch "k") then
        (len - 1, NGX_MAX_SIZE_T_VALUE / 1024, 1024)
      else if (unit =? ch "M") || (unit =? ch "m") then
        (len - 1, NGX_MAX_SIZE_T_VALUE / (1024 * 1024), 1024 * 1024)
      else (len, NGX_MAX_SIZE_T_VALUE, 1) in
    let size := ngx_atosz line len in
    if (size =? rc_val NGX_ERROR) || (max <? size) then rc_val NGX_ERROR
    else size * scale.

(** ** Formatted output *)

Definition hex_digit (upper : bool) (d : Z) : Z :=
  if d <? 10 then d + ch "0" else d - 10 + (if upper then ch "A" else ch "a").

(** [do { *--p = digit(x % base) } while (x /= base)], writing backwards into
    [temp]; [fuel] is the size of [temp]. *)
Fixpoint num_loop (fuel : nat) (base : Z) (digit : Z -> Z) (x : Z) (p : bytes) : bytes :=
  match fuel with
  | O => p
  | S fuel' =>
    let p' := digit (x mod base) :: p in
    if x / base =? 0 then p' else num_loop fuel' base digit (x / base) p'
  end.

Definition NGX_INT64_LEN : nat := 20.

Definition num_text (ui64 hexadecimal : Z) : bytes :=
  if hexadecimal =? 0 then num_loop NGX_INT64_LEN 10 (fun d => d + ch "0") ui64 []
  else if hexadecimal =? 1 then num_loop NGX_INT64_LEN 16 (hex_digit false) ui64 []
  else num_loop NGX_INT64_LEN 16 (hex_digit true) ui64 [].

Definition ngx_sprintf_num (room : nat) (ui64 zero hexadecimal : Z) (width : nat) : bytes :=
  let p := num_text ui64 hexadecimal in
  let pad := replicate (Nat.min (width - length p) room) zero in
  let room' := (room - length pad)%nat in
  pad ++ take (Nat.min (length p) room') p.

(** The arguments of a [ngx_vslprintf] call. *)
Inductive fmt_arg : Set :=
| AInt (z : Z)        (** any integer type *)
| AStr (s : bytes)    (** [ngx_str_t *] *)
| ACstr (s : bytes).  (** [u_char *], NUL-terminated *)

(** The flags between [%] and the conversion character. *)
Record fmt_spec := mk_spec {
  fs_zero : Z; fs_width : nat; fs_sign : bool; fs_hex : Z;
  fs_max_width : bool; fs_slen : option Z
}.

#[export] Instance eta_fmt_spec : Eta fmt_spec := fun r =>
  mk_spec (fs_zero r) (fs_width r) (fs_sign r) (fs_hex r) (fs_max_width r) (fs_slen r).

(** [while ( *fmt >= '0' && *fmt <= '9')] *)
Fixpoint fmt_width (fmt : bytes) (w : nat) : nat * bytes :=
  match fmt with
  | c :: fmt' =>
    if (ch "0" <=? c) && (c <=? ch "9")
    then fmt_width fmt' (w * 10 + Z.to_nat (c - ch "0"))
    else (w, fmt)
  | [] => (w, [])
  end.

(** The [for ( ;; ) switch ( *fmt)] over the flags.  A precision [.n] only
    matters to [%f]; its digits are skipped. *)
Fixpoint fmt_flags (fmt : bytes) (args : list fmt_arg) (s : fmt_spec)
  : option (fmt_spec * bytes * list fmt_arg) :=
  match fmt with
  | c :: fmt' =>
    if c =? ch "u" then fmt_flags fmt' args (s <| fs_sign := false |>)
    else if c =? ch "m" then fmt_flags fmt' args (s <| fs_max_width := true |>)
    else if c =? ch "X" then
      fmt_flags fmt' args (s <| fs_hex := 2 |> <| fs_sign := false |>)
    else if c =? ch "x" then
      fmt_flags fmt' args (s <| fs_hex := 1 |> <| fs_sign := false |>)
    else if c =? ch "." then Some (s, (fmt_width fmt' 0).2, args)
    else if c =? ch "*" then
      match args with
      | AInt n :: args' => fmt_flags fmt' args' (s <| fs_slen := Some (u64 n) |>)
      | _ => None
      end
    else Some (s, fmt, args)
  | [] => Some (s, [], args)
  end.

Definition NGX_INT_T_LEN : nat := 20.
Definition NGX_ATOMIC_T_LEN : nat := 20.

(** The value an integer conversion prints: [i64] with its sign, or [ui64]. *)
Inductive fmt_num : Set := Signed (i : Z) | Unsigned (u : Z).

(** [switch ( *fmt)] for the integer conversions; [None] for the others. *)
Definition fmt_int_conv (c : Z) (s : fmt_spec) (z : Z) : option (fmt_num * fmt_spec) :=
  let by_sign (si : Z -> Z) (un : Z -> Z) :=
    if fs_sign s then Signed (si z) else Unsigned (un z) in
  let i32 := (fun z => (z + 2 ^ 31) mod 2 ^ 32 - 2 ^ 31) in
  (* these only set [i64]: without the sign [ui64], still 0, is printed *)
  if (c =? ch "O") || (c =? ch "T") || (c =? ch "r") then Some (by_sign i64 (fun _ => 0), s)
  else if c =? ch "P" then Some (by_sign i32 (fun _ => 0), s)
  else if c =? ch "M" then
    if i64 z =? -1 then Some (Signed (-1), s) else Some (Unsigned (u64 z), s)
  else if (c =? ch "z") || (c =? ch "l") || (c =? ch "L")
  then Some (by_sign i64 u64, s)
  else if c =? ch "i" then
    Some (by_sign i64 u64,
          if fs_max_width s then s <| fs_width := NGX_INT_T_LEN |> else s)
  else if c =? ch "A" then
    Some (by_sign i64 u64,
          if fs_max_width s then s <| fs_width := NGX_ATOMIC_T_LEN |> else s)
  else if (c =? ch "d") || (c =? ch "D") then Some (by_sign i32 u32, s)
  else if c =? ch "p" then
    Some (Unsigned (u64 z),
          s <| fs_hex := 2 |> <| fs_zero := ch "0" |> <| fs_width := 16%nat |>)
  else None.

(** [if (sign) { if (i64 < 0) *buf++ = '-'; ... } buf = ngx_sprintf_num(...)];
    there is room for at least one byte. *)
Definition fmt_put_num (room : nat) (v : fmt_num) (s : fmt_spec) : bytes :=
  match v with
  | Signed i =>
    if i <? 0
    then ch "-" :: ngx_sprintf_num (room - 1) (u64 (- i)) (fs_zero s) (fs_hex s) (fs_width s)
    else ngx_sprintf_num room i (fs_zero s) (fs_hex s) (fs_width s)
  | Unsigned u => ngx_sprintf_num room u (fs_zero s) (fs_hex s) (fs_width s)
  end.

(** One conversion: what is written, and the remaining arguments.  [None] is
    an argument of the wrong kind (undefined in C), the end of the format after
    [%], and [%f], whose operand is a [double]. *)
Definition fmt_conv (room : nat) (c : Z) (s : fmt_spec) (args : list fmt_arg)
  : option (bytes * list fmt_arg) :=
  if (c =? ch "V") || (c =? ch "v") then
    match args with
    | AStr v :: args' => Some (take (Nat.min room (length v)) v, args')
    | _ => None
    end
  else if c =? ch "s" then
    match args, fs_slen s with
    | ACstr p :: args', None => Some (take room p, args')
    | ACstr p :: args', Some n =>
      if n <=? blen p then Some (take (Nat.min room (Z.to_nat n)) p, args') else None
    | _, _ => None
    end
  else if c =? ch "c" then
    match args with
    | AInt d :: args' => Some ([Z.land d 255], args')
    | _ => None
    end
  else if c =? ch "Z" then Some ([0], args)
  else if c =? ch "N" then Some ([LF], args)
  else if c =? ch "f" then None
  else match fmt_int_conv c s 0 with
       | None => Some ([c], args)
       | Some _ =>
         match args with
         | AInt z :: args' =>
           match fmt_int_conv c s z with
           | Some (v, s') => Some (fmt_put_num room v s', args')
           | None => None
           end
         | _ => None
         end
       end.

(** The [while ( *fmt && buf < last)] loop; every round consumes at least one
    byte of the format, so [length fmt] rounds are enough. *)
Fixpoint vslprintf_loop (fuel room : nat) (fmt : bytes) (args : list fmt_arg)
  : option bytes :=
  match fmt, room with
  | [], _ => Some []
  | _, O => Some []
  | c :: fmt1, _ =>
    match fuel with
    | O => None
    | S fuel' =>
      if c =? ch "%" then
        let zero := if hd 0 fmt1 =? ch "0" then ch "0" else ch " " in
        let '(width, fmt2) := fmt_width fmt1 0 in
        match fmt_flags fmt2 args (mk_spec zero width true 0 false None) with
        | Some (s, k :: fmt3, args2) =>
          match fmt_conv room k s args2 with
          | Some (out, args3) =>
            app out <$> vslprintf_loop fuel' (room - length out) fmt3 args3
          | None => None
          end
        | _ => None
        end
      else cons c <$> vslprintf_loop fuel' (room - 1) fmt1 args
    end
  end.

Definition ngx_vslprintf (room : nat) (fmt : bytes) (args : list fmt_arg) : option bytes :=
  vslprintf_loop (length fmt) room fmt args.

(** [ngx_snprintf(buf, max, fmt, ...)]: the bytes written, at most [max]. *)
Definition ngx_snprintf (max : nat) (fmt : bytes) (args : list fmt_arg) : option bytes :=
  ngx_vslprintf max fmt args.

Example snprintf_ex :
  ngx_snprintf 100 (s2b "%s#%ui %05d|%V %%") [ACstr (s2b "ab"); AInt 3; AInt (-7); AStr (s2b "xyz")]
  = Some (s2b "ab#3 -00007|xyz %").
Proof. reflexivity. Qed.

Example snprintf_cut_ex :
  ngx_snprintf 4 (s2b "%s#%ui") [ACstr (s2b "ab"); AInt 345] = Some (s2b "ab#3").
Proof. reflexivity. Qed.

(** ** Specifications *)

Definition is_digit (c : Z) : Prop := ch "0" <= c <= ch "9".

#[export] Instance is_digit_dec c : Decision (is_digit c).
Proof. unfold is_digit. apply _. Defined.

(** The number a string of decimal digits denotes, read after [v]. *)
Definition dec_from (v : Z) (l : bytes) : Z :=
  fold_left (fun v c => v * 10 + (c - ch "0")) l v.

Definition dec_value (l : bytes) : Z := dec_from 0 l.

Definition nul_free (s : bytes) : Prop := Forall (fun c => 0 < c < 256) s.

Lemma dec_from_app v l1 l2 : dec_from v (l1 ++ l2) = dec_from (dec_from v l1) l2.
Proof. apply fold_left_app. Qed.

Lemma dec_from_ge v l : 0 <= v -> Forall is_digit l -> v <= dec_from v l.
Proof.
  revert v; induction l as [|c l IH]; intros v Hv Hl; [done|].
  apply Forall_cons in Hl as [Hc Hl]. change (48 <= c <= 57) in Hc.
  change (v <= dec_from (v * 10 + (c - 48)) l).
  etrans; [|apply IH; [lia|done]]. lia.
Qed.

Lemma ato_loop_cons max c l n v :
  ato_loop max (c :: l) n v =
  if n =? 0 then v
  else if (c <? 48) || (57 <? c) then -1
  else if (max / 10 <=? v) && ((max / 10 <? v) || (max mod 10 <? c - 48)) then -1
  else ato_loop max l (n - 1) (v * 10 + (c - 48)).
Proof. reflexivity. Qed.

Lemma ato_loop_digits max l v :
  0 <= v <= max -> Forall is_digit l ->
  ato_loop max l (blen l) v = if dec_from v l <=? max then dec_from v l else -1.
Proof.
  revert v; induction l as [|c l IH]; intros v Hv Hl.
  { cbn. case (Z.leb_spec v max); [done|lia]. }
  apply Forall_cons in Hl as [Hc Hl].
  pose proof (dec_from_ge (v * 10 + (c - 48)) l) as Hge.
  change (48 <= c <= 57) in Hc.
  change (dec_from v (c :: l)) with (dec_from (v * 10 + (c - 48)) l).
  replace (blen (c :: l)) with (blen l + 1) by (unfold blen; cbn; lia).
  pose proof (blen_nonneg l). rewrite ato_loop_cons.
  destruct (Z.eqb_spec (blen l + 1) 0); [lia|].
  rewrite (proj2 (Z.ltb_ge c 48)), (proj2 (Z.ltb_ge 57 c)) by lia. cbn [orb].
  destruct ((max / 10 <=? v) && _)%bool eqn:E.
  - assert (max < v * 10 + (c - 48)) by dlia.
    destruct (Z.leb_spec (dec_from (v * 10 + (c - 48)) l) max); [|done].
    specialize (Hge ltac:(lia) Hl). lia.
  - replace (blen l + 1 - 1) with (blen l) by lia. apply IH; [dlia|done].
Qed.

Lemma ato_loop_nondigit max l v :
  ~ Forall is_digit l -> ato_loop max l (blen l) v = -1.
Proof.
  revert v; induction l as [|c l IH]; intros v Hl; [by destruct Hl|].
  replace (blen (c :: l)) with (blen l + 1) by (unfold blen; cbn; lia).
  pose proof (blen_nonneg l). rewrite ato_loop_cons.
  destruct (Z.eqb_spec (blen l + 1) 0); [lia|].
  destruct ((c <? 48) || (57 <? c))%bool eqn:E; [done|].
  destruct ((max / 10 <=? v) && _)%bool; [done|].
  replace (blen l + 1 - 1) with (blen l) by lia. apply IH.
  intros Hf. apply Hl. constructor; [change (48 <= c <= 57); lia|done].
Qed.

(** Only the first [n] bytes matter. *)
Lemma ato_loop_app max l x v : ato_loop max (l ++ x) (blen l) v = ato_loop max l (blen l) v.
Proof.
  revert v; induction l as [|c l IH]; intros v; [by destruct x|].
  rewrite <- app_comm_cons, !ato_loop_cons, blen_cons. pose proof (blen_nonneg l).
  destruct (Z.eqb_spec (1 + blen l) 0); [lia|].
  replace (1 + blen l - 1) with (blen l) by lia. by rewrite IH.
Qed.

(** A digit string that fits an [ngx_int_t] is read as the number it denotes,
    whatever follows it. *)
Lemma ngx_atoi_digits ds x :
  ds <> [] -> Forall is_digit ds -> dec_value ds <= NGX_MAX_INT_T_VALUE ->
  ngx_atoi (ds ++ x) (blen ds) = dec_value ds.
Proof.
  intros Hne Hds Hle. unfold ngx_atoi.
  destruct (Z.eqb_spec (blen ds) 0) as [E|_]; [destruct ds; [done|rewrite blen_cons in E;
    pose proof (blen_nonneg ds); lia]|].
  rewrite ato_loop_app, ato_loop_digits by (done || (unfold NGX_MAX_INT_T_VALUE; lia)).
  unfold dec_value in *. by destruct (Z.leb_spec (dec_from 0 ds) NGX_MAX_INT_T_VALUE); [|lia].
Qed.

(** [strlchr] finds the first occurrence. *)
Lemma ngx_strlchr_app a c b : c ∉ a -> ngx_strlchr (a ++ c :: b) c = Some (length a).
Proof.
  induction a as [|x a IH]; cbn; intros Hin.
  { by rewrite Z.eqb_refl. }
  destruct (Z.eqb_spec x c); [set_solver|]. rewrite IH by set_solver. done.
Qed.

(** [strstr] is not affected by what follows the first occurrence. *)
Lemma ngx_strstr_app pre needle post :
  ngx_strstr (pre ++ needle) needle = Some (length pre) ->
  ngx_strstr (pre ++ needle ++ post) needle = Some (length pre).
Proof.
  induction pre as [|c pre IH].
  - intros _. cbn [app length]. destruct needle as [|a needle]; [by destruct post|].
    cbn [ngx_strstr app]. rewrite bool_decide_eq_true_2; [done|].
    rewrite app_comm_cons. by rewrite take_app_length.
  - cbn [app]. cbn [ngx_strstr length].
    assert (E : take (length needle) (c :: pre ++ needle ++ post) = take (length needle) (c :: pre ++ needle)).
    { rewrite app_assoc, app_comm_cons, take_app_le; [done|]. cbn. rewrite length_app. lia. }
    rewrite E. case_bool_decide as Hb; [done|].
    destruct (ngx_strstr (pre ++ needle) needle) as [k|]; [|done]. cbn. intros [= ->].
    by rewrite IH.
Qed.

(** The digits [num_loop] produces, in base 10, denote the number. *)
Lemma num_loop_dec fuel x p :
  0 <= x < 10 ^ Z.of_nat fuel -> fuel <> 0%nat ->
  exists ds, num_loop fuel 10 (fun d => d + ch "0") x p = ds ++ p
    /\ ds <> [] /\ Forall is_digit ds /\ dec_value ds = x.
Proof.
  revert x p; induction fuel as [|fuel IH]; intros x p Hx Hf; [done|].
  cbn [num_loop]. pose proof (Z.mod_pos_bound x 10 ltac:(lia)).
  assert (Hd : is_digit (x mod 10 + ch "0")) by (change (48 <= x mod 10 + 48 <= 57); lia).
  destruct (Z.eqb_spec (x / 10) 0) as [E|E].
  - exists [x mod 10 + ch "0"]. split_and!; [done|done|by constructor|].
    cbn. pose proof (Z.div_mod x 10). lia.
  - destruct fuel as [|fuel]; [cbn in Hx; pose proof (Z.div_small x 10); lia|].
    rewrite Nat2Z.inj_succ, Z.pow_succ_r in Hx by lia.
    destruct (IH (x / 10) ((x mod 10 + ch "0") :: p)) as (ds & -> & Hne & Hds & Hv);
      [split; [apply Z.div_pos; lia|apply Z.div_lt_upper_bound; lia]|done|].
    exists (ds ++ [x mod 10 + ch "0"]). rewrite <- app_assoc. split_and!; [done| |by apply Forall_app; split; [|constructor]|].
    { by destruct ds. }
    unfold dec_value in *. rewrite dec_from_app, Hv. cbn.
    pose proof (Z.div_mod x 10). lia.
Qed.

Lemma num_text_dec n : in_u64 n ->
  exists ds, num_text n 0 = ds /\ ds <> [] /\ Forall is_digit ds /\ dec_value ds = n.
Proof.
  intros Hn. unfold in_u64 in Hn. unfold num_text. cbn [Z.eqb].
  destruct (num_loop_dec NGX_INT64_LEN n []) as (ds & E & ?); [unfold NGX_INT64_LEN; lia|done|].
  exists ds. by rewrite E, app_nil_r.
Qed.

(** Equality up to ASCII case. *)
Lemma to_low_zero c : 0 < c < 256 -> to_low c <> 0.
Proof.
  intros Hc. unfold to_low. destruct (_ && _)%bool eqn:E; [|lia].
  intros Hz. apply Z.lor_eq_0_iff in Hz. lia.
Qed.

Lemma strcasecmp_zero s1 s2 :
  nul_free s1 -> nul_free s2 ->
  ngx_strcasecmp s1 s2 = 0 <-> to_low <$> s1 = to_low <$> s2.
Proof.
  revert s2; induction s1 as [|c1 s1 IH]; intros s2 H1 H2.
  - destruct s2 as [|c2 s2]; cbn; [done|].
    apply Forall_cons in H2 as [Hc2 _]. pose proof (to_low_zero c2 Hc2).
    replace (to_low 0) with 0 by done. destruct (Z.eqb_spec 0 (to_low c2)); [lia|].
    split; [lia|done].
  - apply Forall_cons in H1 as [Hc1 H1]. pose proof (to_low_zero c1 Hc1).
    destruct s2 as [|c2 s2]; cbn.
    + replace (to_low 0) with 0 by done. destruct (Z.eqb_spec (to_low c1) 0); [lia|].
      split; [lia|done].
    + apply Forall_cons in H2 as [Hc2 H2].
      destruct (Z.eqb_spec (to_low c1) (to_low c2)) as [E|E]; [|split; [lia|intros [=]; done]].
      destruct (Z.eqb_spec (to_low c1) 0); [done|].
      rewrite IH by done. split; [by intros ->; rewrite E|by intros [=]].
Qed.

(** ** Truncation

    What the formatting routines write into a buffer with room for [r] bytes
    is the first [r] bytes of what they write into a larger one. *)

Lemma sprintf_num_take room u zero hex width :
  ngx_sprintf_num room u zero hex width =
  take room (replicate (width - length (num_text u hex)) zero ++ num_text u hex).
Proof.
  unfold ngx_sprintf_num. rewrite length_replicate, take_app, take_replicate, length_replicate.
  set (p := num_text u hex). set (w := (width - length p)%nat).
  rewrite (Nat.min_comm room w). f_equal.
  destruct (Nat.min_spec w room) as [[? ->]|[? ->]].
  - rewrite Nat.min_comm. destruct (Nat.min_spec (room - w) (length p)) as [[? ->]|[? ->]]; [done|].
    rewrite !take_ge by lia. done.
  - rewrite (proj2 (Nat.sub_0_le room w)), Nat.sub_diag, Nat.min_0_r by lia. done.
Qed.

Lemma sprintf_num_mono r R u zero hex width :
  (r <= R)%nat ->
  ngx_sprintf_num r u zero hex width = take r (ngx_sprintf_num R u zero hex width).
Proof. intros H. rewrite !sprintf_num_take, take_take. by rewrite Nat.min_l. Qed.

Lemma put_num_mono r R v s :
  (0 < r <= R)%nat -> fmt_put_num r v s = take r (fmt_put_num R v s).
Proof.
  intros H. destruct v as [i|u]; cbn [fmt_put_num]; [|by apply sprintf_num_mono; lia].
  destruct (i <? 0); [|by apply sprintf_num_mono; lia].
  destruct r as [|r]; [lia|]. cbn [take]. f_equal.
  replace (S r - 1)%nat with r by lia. apply sprintf_num_mono. lia.
Qed.

Lemma take_min_mono {A} r R n (v : list A) :
  (r <= R)%nat -> take (Nat.min r n) v = take r (take (Nat.min R n) v).
Proof. intros H. rewrite take_take. f_equal. lia. Qed.

Lemma fmt_conv_mono r R c s args o a :
  (0 < r <= R)%nat -> fmt_conv R c s args = Some (o, a) ->
  fmt_conv r c s args = Some (take r o, a).
Proof.
  intros Hr. assert (Hone : forall x : Z, take r [x] = [x]) by (intros x; destruct r; [lia|]; cbn; by rewrite take_nil).
  unfold fmt_conv. repeat case_match; intros; simplify_eq; rewrite ?Hone; try done.
  - by rewrite (take_min_mono r R) by lia.
  - by rewrite (take_min_mono r R) by lia.
  - by rewrite take_take, Nat.min_l by lia.
  - by rewrite (put_num_mono r R) by lia.
Qed.

Lemma vslprintf_mono fuel r R fmt args out :
  (r <= R)%nat -> vslprintf_loop fuel R fmt args = Some out ->
  vslprintf_loop fuel r fmt args = Some (take r out).
Proof.
  revert r R fmt args out; induction fuel as [|fuel IH]; intros r R fmt args out Hr H.
  { destruct fmt as [|c fmt], r, R; simplify_eq/=; try done; lia. }
  destruct fmt as [|c fmt]; [destruct r, R; simplify_eq/=; by rewrite ?take_nil|].
  destruct r as [|r]; [done|]. destruct R as [|R]; [lia|].
  cbn [vslprintf_loop] in *. destruct (c =? ch "%").
  - destruct (fmt_width fmt 0) as [width fmt2].
    destruct (fmt_flags fmt2 args _) as [[[s [|k fmt3]] args2]|]; [done| |done].
    destruct (fmt_conv (S R) k s args2) as [[o args3]|] eqn:E; [|done].
    rewrite (fmt_conv_mono (S r) (S R) _ _ _ o args3) by (done || lia).
    apply fmap_Some in H as (rest & Hrest & ->).
    rewrite (IH (S r - length (take (S r) o))%nat (S R - length o)%nat _ _ rest); [|rewrite length_take; lia|done].
    cbn [fmap option_fmap option_map]. f_equal. rewrite take_app, length_take. f_equal. f_equal. lia.
  - apply fmap_Some in H as (rest & Hrest & ->).
    rewrite (IH (S r - 1)%nat (S R - 1)%nat _ _ rest) by (done || lia).
    cbn [fmap option_fmap option_map take]. do 2 f_equal. f_equal. lia.
Qed.

Lemma length_num_loop fuel base digit x p :
  (length (num_loop fuel base digit x p) <= fuel + length p)%nat.
Proof.
  revert x p; induction fuel as [|fuel IH]; intros x p; cbn [num_loop]; [lia|].
  destruct (x / base =? 0); [cbn; lia|]. etrans; [apply IH|cbn; lia].
Qed.

Lemma length_num_text_dec x : (length (num_text x 0) <= 20)%nat.
Proof.
  pose proof (length_num_loop 20 10 (fun d => d + ch "0") x []) as H.
  rewrite Nat.add_0_r in H. exact H.
Qed.

Lemma snprintf_ui room n :
  (20 <= room)%nat -> ngx_snprintf room (s2b "%ui") [AInt n] = Some (num_text (u64 n) 0).
Proof.
  intros Hr. destruct room as [|room]; [lia|].
  change (ngx_snprintf (S room) (s2b "%ui") [AInt n])
    with (app (ngx_sprintf_num (S room) (u64 n) 32 0 0)
            <$> vslprintf_loop 2 (S room - length (ngx_sprintf_num (S room) (u64 n) 32 0 0)) [] []).
  rewrite sprintf_num_take.
  rewrite Nat.sub_0_l. cbn [replicate app].
  pose proof (length_num_text_dec (u64 n)). rewrite take_ge by lia.
  cbn [fmap option_fmap option_map vslprintf_loop]. by rewrite app_nil_r.
Qed.

(** [ngx_atoi] returns the number a non-empty string of decimal digits
    denotes when it fits an [ngx_int_t], and [NGX_ERROR] (-1) on the empty
    string, on any other byte and on overflow. *)
Theorem ngx_atoi_spec line :
  ngx_atoi line (blen line) =
  if bool_decide (line <> [] /\ Forall is_digit line /\ dec_value line <= NGX_MAX_INT_T_VALUE)
  then dec_value line else -1.
Proof.
  unfold ngx_atoi. destruct line as [|c line]; [done|].
  destruct (Z.eqb_spec (blen (c :: line)) 0) as [E|_]; [unfold blen in E; cbn in E; lia|].
  destruct (decide (Forall is_digit (c :: line))) as [Hd|Hd].
  - rewrite ato_loop_digits by (done || (cbn; lia)). fold (dec_value (c :: line)).
    destruct (Z.leb_spec (dec_value (c :: line)) NGX_MAX_INT_T_VALUE).
    + by rewrite bool_decide_eq_true_2.
    + rewrite bool_decide_eq_false_2; [done|]. intros (_ & _ & ?). lia.
  - rewrite ato_loop_nondigit by done. rewrite bool_decide_eq_false_2; [done|]. naive_solver.
Qed.

(** printing an integer with [%ui] and reading it back with [ngx_atoi]
    gives the integer, for every value an [ngx_int_t] holds. *)
Theorem ngx_snprintf_atoi_roundtrip n :
  0 <= n <= NGX_MAX_INT_T_VALUE ->
  exists out, ngx_snprintf 20 (s2b "%ui") [AInt n] = Some out /\ ngx_atoi out (blen out) = n.
Proof.
  intros Hn. unfold NGX_MAX_INT_T_VALUE in Hn. exists (num_text n 0).
  rewrite snprintf_ui, u64_small by (lia || (unfold in_u64; lia)). split; [done|].
  destruct (num_text_dec n) as (ds & -> & ? & ? & Hv); [unfold in_u64; lia|].
  unfold ngx_atoi. destruct (Z.eqb_spec (blen ds) 0) as [E|_]; [unfold blen in E; by destruct ds|].
  rewrite ato_loop_digits by (done || (cbn; lia)). fold (dec_value ds). rewrite Hv.
  destruct (Z.leb_spec n NGX_MAX_INT_T_VALUE); [done|]. unfold NGX_MAX_INT_T_VALUE in *. lia.
Qed.

Lemma ngx_snprintf_atoi_roundtrip_witness :
  0 <= 30000 <= NGX_MAX_INT_T_VALUE /\
  exists out, ngx_snprintf 20 (s2b "%ui") [AInt 30000] = Some out /\ ngx_atoi out (blen out) = 30000.
Proof.
  assert (H : 0 <= 30000 <= NGX_MAX_INT_T_VALUE) by (vm_compute; split; discriminate).
  split; [exact H|]. exact (ngx_snprintf_atoi_roundtrip 30000 H).
Defined.

(** what [ngx_snprintf] writes into a buffer of [r] bytes is the first [r]
    bytes of what it writes into any larger buffer, and never more than [r]. *)
Theorem ngx_snprintf_truncates r R fmt args out :
  (r <= R)%nat -> ngx_snprintf R fmt args = Some out ->
  ngx_snprintf r fmt args = Some (take r out) /\ (length (take r out) <= r)%nat.
Proof.
  intros Hr H. split; [by apply (vslprintf_mono _ r R)|]. rewrite length_take. lia.
Qed.

Lemma ngx_snprintf_truncates_witness :
  ngx_snprintf 3 (s2b "%V:%ui") [AStr (s2b "ab"); AInt 80] = Some (s2b "ab:") /\
  (length (take 3 (s2b "ab:80")) <= 3)%nat.
Proof.
  exact (ngx_snprintf_truncates 3 10 (s2b "%V:%ui") [AStr (s2b "ab"); AInt 80] (s2b "ab:80")
           ltac:(lia) eq_refl).
Defined.
