(* ===== verification/StatusLine.v ===== *)
(** * The HTTP status-line parser ([ngx_healthcheck_common.c])

    [ngx_upstream_check_http_parse_status_line] is an incremental parser: it
    is called again, with the saved [*pstate] and [*status], when more bytes
    have been received.  A pointer into a receive buffer is the number of the
    block it points into and an offset; the parser only computes pointers
    into the block it is scanning. *)

From S2P Require Import Prelude NgxString.

(** ** Data *)

Definition ptr : Type := nat * Z.

(** [ngx_http_status_t] ([src/http/ngx_http.h]); the health checker never
    touches [http_version]. *)
Record ngx_http_status_t := mk_status {
  code : Z;
  count : Z;
  st_start : option ptr;
  st_end : option ptr
}.

#[export] Instance eta_status : Eta ngx_http_status_t := fun r =>
  mk_status (code r) (count r) (st_start r) (st_end r).

(** [ngx_memzero(&ctx->status, sizeof(ngx_http_status_t))] *)
Definition status_zero : ngx_http_status_t := mk_status 0 0 None None.

(** The parser states, in the order of the C enumeration. *)
Inductive sw : Set :=
| sw_start | sw_H | sw_HT | sw_HTT | sw_HTTP
| sw_first_major_digit | sw_major_digit | sw_first_minor_digit | sw_minor_digit
| sw_status | sw_space_after_status | sw_status_text | sw_lf | sw_cr
| sw_almost_done | receive_body.

#[export] Instance sw_eq_dec : EqDecision sw.
Proof. solve_decision. Defined.

(** What the [switch (state)] does with one byte. *)
Inductive sw_step : Type :=
| Next (s : sw) (st : ngx_http_status_t)     (** [break]: on to the next byte *)
| Reject (st : ngx_http_status_t)              (** [return NGX_ERROR] *)
| Done (st : ngx_http_status_t)              (** [goto done] *)
| InBody (st : ngx_http_status_t).           (** [case receive_body: return NGX_OK] *)

Definition not_digit (c : Z) : bool := (c <? ch "0") || (ch "9" <? c).

Definition parse_char (blk : nat) (p : Z) (s : sw) (st : ngx_http_status_t) (c : Z) : sw_step :=
  match s with
  | sw_start => if c =? ch "H" then Next sw_H st else Reject st
  | sw_H => if c =? ch "T" then Next sw_HT st else Reject st
  | sw_HT => if c =? ch "T" then Next sw_HTT st else Reject st
  | sw_HTT => if c =? ch "P" then Next sw_HTTP st else Reject st
  | sw_HTTP => if c =? ch "/" then Next sw_first_major_digit st else Reject st
  | sw_first_major_digit =>
    if (c <? ch "1") || (ch "9" <? c) then Reject st else Next sw_major_digit st
  | sw_major_digit =>
    if c =? ch "." then Next sw_first_minor_digit st
    else if not_digit c then Reject st else Next sw_major_digit st
  | sw_first_minor_digit => if not_digit c then Reject st else Next sw_minor_digit st
  | sw_minor_digit =>
    if c =? ch " " then Next sw_status st
    else if not_digit c then Reject st else Next sw_minor_digit st
  | sw_status =>
    if c =? ch " " then Next sw_status st
    else if not_digit c then Reject st
    else
      let st := st <| code := u64 (code st * 10 + c - ch "0") |> in
      let st := st <| count := u64 (count st + 1) |> in
      if count st =? 3
      then Next sw_space_after_status (st <| st_start := Some (blk, p - 2) |>)
      else Next sw_status st
  | sw_space_after_status =>
    if c =? ch " " then Next sw_status_text st
    else if c =? ch "." then Next sw_status_text st
    else if c =? CR then Next sw_almost_done st
    else if c =? LF then Done st
    else Reject st
  | sw_status_text =>
    if c =? CR then Next sw_lf st
    else if c =? LF then Done st
    else Next sw_status_text st
  | sw_lf => if c =? LF then Next sw_cr st else Reject st
  | sw_cr => if c =? CR then Next sw_almost_done st else Next sw_status_text st
  | sw_almost_done =>
    if c =? LF then Done (st <| st_end := Some (blk, p - 1) |>) else Reject st
  | receive_body => InBody st
  end.

(** The outcome of a call: return code, [*pstate], [b->pos], [*status]. *)
Record parse_result := mk_pres {
  pr_rc : ngx_rc; pr_state : sw; pr_pos : Z; pr_status : ngx_http_status_t
}.

(** The [done:] label. *)
Definition parse_done (blk : nat) (p : Z) (st : ngx_http_status_t) : parse_result :=
  let st := match st_end st with
            | None => st <| st_end := Some (blk, p) |>
            | Some _ => st
            end in
  mk_pres NGX_OK receive_body (p + 1) st.

(** [for (p = b->pos; p < b->last; p++)] over the bytes from [p] to
    [b->last].  An error return leaves [b->pos] and [*pstate] as they were at
    the call ([pos0], [s0]); [*status] keeps what was written to it. *)
Fixpoint parse_loop (blk : nat) (pos0 : Z) (s0 : sw)
    (l : bytes) (p : Z) (s : sw) (st : ngx_http_status_t) : parse_result :=
  match l with
  | [] => mk_pres NGX_AGAIN s p st
  | c :: l' =>
    match parse_char blk p s st c with
    | Next s' st' => parse_loop blk pos0 s0 l' (p + 1) s' st'
    | Reject st' => mk_pres NGX_ERROR s0 pos0 st'
    | Done st' => parse_done blk p st'
    | InBody st' => mk_pres NGX_OK s0 pos0 st'
    end
  end.

(** [l] are the bytes of block [blk] from [b->pos = pos] to [b->last]. *)
Definition ngx_upstream_check_http_parse_status_line
    (blk : nat) (l : bytes) (pos : Z) (pstate : sw) (st : ngx_http_status_t) : parse_result :=
  match pstate with
  | receive_body => mk_pres NGX_OK receive_body pos st
  | _ => parse_loop blk pos pstate l pos pstate st
  end.

Example parse_ex :
  ngx_upstream_check_http_parse_status_line 0
    (s2b "HTTP/1.1 404 Not Found" ++ [CR; LF] ++ s2b "A: b" ++ [CR; LF; CR; LF] ++ s2b "body")
    0 sw_start status_zero
  = mk_pres NGX_OK receive_body 32 (mk_status 404 3 (Some (0%nat, 9)) (Some (0%nat, 30))).
Proof. reflexivity. Qed.

(** ** Incremental parsing *)

Section Loop.
Context (blk : nat).

Lemma parse_char_not_body p s st c s' st' :
  s <> receive_body -> parse_char blk p s st c = Next s' st' -> s' <> receive_body.
Proof.
  intros Hs. destruct s; unfold parse_char; repeat case_match; intros; by simplify_eq.
Qed.

(** A loop that stops for lack of input resumes where it stopped. *)
Lemma parse_loop_app pos0 s0 l1 l2 p s st s1 p1 st1 :
  parse_loop blk pos0 s0 l1 p s st = mk_pres NGX_AGAIN s1 p1 st1 ->
  parse_loop blk pos0 s0 (l1 ++ l2) p s st = parse_loop blk pos0 s0 l2 p1 s1 st1.
Proof.
  revert p s st; induction l1 as [|c l1 IH]; intros p s st; cbn; [by intros [= -> -> ->]|].
  destruct (parse_char blk p s st c); [apply IH|done|unfold parse_done; by case_match|done].
Qed.

(** A loop that returned keeps its result when more input follows. *)
Lemma parse_loop_stop pos0 s0 l1 l2 p s st :
  pr_rc (parse_loop blk pos0 s0 l1 p s st) <> NGX_AGAIN ->
  parse_loop blk pos0 s0 (l1 ++ l2) p s st = parse_loop blk pos0 s0 l1 p s st.
Proof.
  revert p s st; induction l1 as [|c l1 IH]; intros p s st; cbn; [done|].
  destruct (parse_char blk p s st c); auto.
Qed.

(** The position and state at the call only show in an error return. *)
Lemma parse_loop_frame pos0 s0 pos1 s1 l p s st :
  let r0 := parse_loop blk pos0 s0 l p s st in
  let r1 := parse_loop blk pos1 s1 l p s st in
  s <> receive_body ->
  pr_rc r0 = pr_rc r1 /\ pr_status r0 = pr_status r1 /\ (pr_rc r0 <> NGX_ERROR -> r0 = r1).
Proof.
  revert p s st; induction l as [|c l IH]; intros p s st; cbn; [done|]. intros Hs.
  destruct (parse_char blk p s st c) eqn:E; [|done|done|].
  - apply IH. by eapply parse_char_not_body.
  - exfalso. revert E. destruct s; unfold parse_char; repeat case_match; done.
Qed.

Lemma parse_loop_again_pos pos0 s0 l p s st s1 p1 st1 :
  parse_loop blk pos0 s0 l p s st = mk_pres NGX_AGAIN s1 p1 st1 ->
  p1 = p + blen l /\ (s <> receive_body -> s1 <> receive_body).
Proof.
  revert p s st; induction l as [|c l IH]; intros p s st; cbn.
  { intros [= <- <- <-]. unfold blen. cbn. split; [lia|done]. }
  destruct (parse_char blk p s st c) eqn:E; [|done|unfold parse_done; by case_match|done].
  intros H. apply IH in H as [-> H]. split; [unfold blen; cbn; lia|].
  intros Hs. apply H. by eapply parse_char_not_body.
Qed.

End Loop.

(** Two successive calls against one call on all the bytes. *)
Lemma parse_two_calls blk l1 l2 pos s st :
  let parse := ngx_upstream_check_http_parse_status_line blk in
  let r1 := parse l1 pos s st in
  let r2 := parse l2 (pr_pos r1) (pr_state r1) (pr_status r1) in
  let r := parse (l1 ++ l2) pos s st in
  if decide (pr_rc r1 = NGX_AGAIN)
  then pr_rc r = pr_rc r2 /\ pr_status r = pr_status r2 /\ (pr_rc r <> NGX_ERROR -> r = r2)
  else r = r1.
Proof.
  intros parse r1 r2 r.
  destruct (decide (s = receive_body)) as [->|Hs]; [done|].
  assert (Hp : forall l p s, s <> receive_body ->
    parse l p s = parse_loop blk p s l p s) by (intros l p []; done).
  assert (E1 : r1 = parse_loop blk pos s l1 pos s st) by (unfold r1; by rewrite Hp).
  assert (E : r = parse_loop blk pos s (l1 ++ l2) pos s st) by (unfold r; by rewrite Hp).
  destruct (decide (pr_rc r1 = NGX_AGAIN)) as [Hrc|Hrc].
  - destruct r1 as [rc1 s1 p1 st1] eqn:Er1. cbn in Hrc. subst rc1. symmetry in E1.
    destruct (parse_loop_again_pos _ _ _ _ _ _ _ _ _ _ E1) as [_ Hs1].
    specialize (Hs1 Hs). rewrite (parse_loop_app _ _ _ _ l2 _ _ _ _ _ _ E1) in E.
    unfold r2. cbn [pr_pos pr_state pr_status]. rewrite Hp by done. rewrite E.
    by apply parse_loop_frame.
  - rewrite E, parse_loop_stop; [done|]. by rewrite <- E1.
Qed.

(** The calls of the receive handler: one per chunk, as long as the parser
    asks for more. *)
Fixpoint parse_calls (blk : nat) (chunks : list bytes) (pos : Z) (s : sw) (st : ngx_http_status_t)
    : parse_result :=
  match chunks with
  | [] => mk_pres NGX_AGAIN s pos st
  | l :: chunks' =>
    let r := ngx_upstream_check_http_parse_status_line blk l pos s st in
    match pr_rc r with
    | NGX_AGAIN => parse_calls blk chunks' (pr_pos r) (pr_state r) (pr_status r)
    | _ => r
    end
  end.

Lemma parse_calls_cons blk l chunks pos s st :
  let r := ngx_upstream_check_http_parse_status_line blk l pos s st in
  parse_calls blk (l :: chunks) pos s st
  = match pr_rc r with
    | NGX_AGAIN => parse_calls blk chunks (pr_pos r) (pr_state r) (pr_status r)
    | _ => r
    end.
Proof. done. Qed.

Lemma parse_calls_one blk l chunks pos s st :
  let r := ngx_upstream_check_http_parse_status_line blk (concat (l :: chunks)) pos s st in
  let r' := parse_calls blk (l :: chunks) pos s st in
  pr_rc r' = pr_rc r /\ pr_status r' = pr_status r /\ (pr_rc r <> NGX_ERROR -> r' = r).
Proof.
  cbn zeta. revert l pos s st.
  induction chunks as [|l2 chunks IH]; intros l pos s st.
  { cbn [concat parse_calls]. rewrite app_nil_r.
    destruct (ngx_upstream_check_http_parse_status_line blk l pos s st) as [[]]; done. }
  rewrite concat_cons, parse_calls_cons. cbn zeta.
  pose proof (parse_two_calls blk l (concat (l2 :: chunks)) pos s st) as H. cbn zeta in H.
  set (r1 := ngx_upstream_check_http_parse_status_line blk l pos s st) in *.
  destruct (decide _) as [E|E]; [rewrite E|rewrite H; clearbody r1; by case_match].
  destruct H as (H1 & H2 & H3).
  destruct (IH l2 (pr_pos r1) (pr_state r1) (pr_status r1)) as (I1 & I2 & I3).
  rewrite H1, H2. split; [done|]. split; [done|].
  intros Hne. rewrite H3 by (by rewrite H1). by apply I3.
Qed.

(** C33: the status-line parser is insensitive to how a response is cut into
    reads: any two ways of chunking the same bytes give the same return code
    and the same status, and, unless that is an error, the same saved state
    and buffer position. *)
Theorem parse_status_line_incremental blk l1 c1 l2 c2 pos s st :
  concat (l1 :: c1) = concat (l2 :: c2) ->
  let r1 := parse_calls blk (l1 :: c1) pos s st in
  let r2 := parse_calls blk (l2 :: c2) pos s st in
  pr_rc r1 = pr_rc r2 /\ pr_status r1 = pr_status r2 /\ (pr_rc r1 <> NGX_ERROR -> r1 = r2).
Proof.
  intros Hc r1 r2.
  destruct (parse_calls_one blk l1 c1 pos s st) as (A1 & A2 & A3).
  destruct (parse_calls_one blk l2 c2 pos s st) as (B1 & B2 & B3).
  rewrite Hc in A1, A2, A3. fold r1 in A1, A2, A3. fold r2 in B1, B2, B3.
  rewrite A1, A2, B1, B2. split; [done|]. split; [done|].
  intros Hne. rewrite A3, B3; congruence.
Qed.

Lemma parse_status_line_incremental_witness :
  pr_rc (parse_calls 0 [s2b "HTT"; s2b "P/1.1 20"; s2b "0 "; [CR; LF; CR]; [LF]] 0 sw_start status_zero) = NGX_OK
  /\ parse_calls 0 [s2b "HTT"; s2b "P/1.1 20"; s2b "0 "; [CR; LF; CR]; [LF]] 0 sw_start status_zero
    = parse_calls 0 [s2b "HTTP/1.1 200 " ++ [CR; LF; CR; LF]] 0 sw_start status_zero.
Proof.
  split; [reflexivity|].
  apply (parse_status_line_incremental 0 (s2b "HTT") [s2b "P/1.1 20"; s2b "0 "; [CR; LF; CR]; [LF]]
    (s2b "HTTP/1.1 200 " ++ [CR; LF; CR; LF]) [] 0 sw_start status_zero); [reflexivity|discriminate].
Defined.

(** ** Well-formedness of the saved parser state *)

(** How many bytes at least have been consumed in a state before the code. *)
Definition sw_depth (s : sw) : Z :=
  match s with
  | sw_start => 0 | sw_H => 1 | sw_HT => 2 | sw_HTT => 3 | sw_HTTP => 4
  | sw_first_major_digit => 5 | sw_major_digit => 6 | sw_first_minor_digit => 7
  | sw_minor_digit => 8 | _ => 9
  end.

(** [parser_inv blk lo p s st]: the parser has consumed the bytes of block
    [blk] from [lo] to [p], is in state [s] and has written [st]. *)
Definition parser_inv (blk : nat) (lo p : Z) (s : sw) (st : ngx_http_status_t) : Prop :=
  match s with
  | sw_status =>
    0 <= count st < 3 /\ 0 <= code st < 10 ^ count st
    /\ st_start st = None /\ st_end st = None /\ lo + 9 + count st <= p
  | sw_space_after_status =>
    count st = 3 /\ 0 <= code st < 1000 /\ st_end st = None
    /\ exists o, st_start st = Some (blk, o) /\ lo <= o /\ o + 3 <= p
  | sw_status_text | sw_lf | sw_cr | sw_almost_done =>
    count st = 3 /\ 0 <= code st < 1000 /\ st_end st = None
    /\ exists o, st_start st = Some (blk, o) /\ lo <= o /\ o + 4 <= p
  | receive_body =>
    count st = 3 /\ 0 <= code st < 1000
    /\ exists o e, st_start st = Some (blk, o) /\ st_end st = Some (blk, e)
                   /\ lo <= o /\ o + 3 <= e < p
  | _ => st = status_zero /\ lo + sw_depth s <= p
  end.

Lemma parser_inv_start blk lo : parser_inv blk lo lo sw_start status_zero.
Proof. cbn. split; [done|lia]. Qed.

(** One digit of the code: the accumulator stays below the next power of ten. *)
Lemma code_digit (k n c : Z) :
  0 <= n < 3 -> 0 <= k < 10 ^ n -> ch "0" <= c <= ch "9" ->
  u64 (k * 10 + c - ch "0") = k * 10 + (c - ch "0")
  /\ 0 <= k * 10 + (c - ch "0") < 10 ^ (n + 1) /\ u64 (n + 1) = n + 1.
Proof.
  intros Hn Hk Hc. change (ch "0") with 48 in *. change (ch "9") with 57 in *.
  rewrite Z.pow_add_r by lia. change (10 ^ 1) with 10.
  assert (10 ^ n <= 10 ^ 2) by (apply Z.pow_le_mono_r; lia). change (10 ^ 2) with 100 in *.
  split_and!; try lia; [|rewrite u64_small; unfold in_u64; lia].
  rewrite u64_small; unfold in_u64; lia.
Qed.

Lemma parse_char_inv blk lo p s st c :
  parser_inv blk lo p s st -> s <> receive_body ->
  match parse_char blk p s st c with
  | Next s' st' => parser_inv blk lo (p + 1) s' st'
  | Done st' => parser_inv blk lo (p + 1) receive_body (pr_status (parse_done blk p st'))
  | Reject _ | InBody _ => True
  end.
Proof.
  intros H Hs. destruct s; try done; unfold parse_char; cbn in H.
  (* before the code nothing has been written *)
  1-9: destruct H as [-> H]; repeat case_match; simplify_eq; try done; cbn; split_and?; try done; lia.
  { destruct H as (Hn & Hk & H1 & H2 & H3).
    destruct (c =? ch " "); [cbn; split_and!; done || lia|].
    destruct (not_digit c) eqn:Hd; [done|]. unfold not_digit in Hd.
    destruct (code_digit (code st) (count st) c) as (E & Hk' & En); [done|done|lia|].
    cbn [upd eta_rec eta_status code count]. rewrite E, En.
    destruct (Z.eqb_spec (count st + 1) 3) as [E3|E3]; cbn; rewrite ?E, ?En.
    + rewrite E3 in Hk'. change (10 ^ 3) with 1000 in Hk'.
      split_and!; try done || lia. eexists; split_and!; [done|lia..].
    + split_and!; try done || lia. }
  all: destruct H as (? & ? & He & o & Ho & ?).
  all: repeat case_match; simplify_eq; try done; cbn; rewrite ?He; cbn.
  all: split_and?; try done || lia.
  all: first [ eexists; split_and!; [done|lia..] | do 2 eexists; split_and!; [done|done|lia..] ].
Qed.

Lemma parse_loop_inv blk lo pos0 s0 l p s st :
  parser_inv blk lo p s st -> s <> receive_body ->
  let r := parse_loop blk pos0 s0 l p s st in
  pr_rc r <> NGX_ERROR ->
  parser_inv blk lo (pr_pos r) (pr_state r) (pr_status r)
  /\ pr_pos r <= p + blen l
  /\ (pr_rc r = NGX_OK <-> pr_state r = receive_body).
Proof.
  revert p s st; induction l as [|c l IH]; intros p s st H Hs; cbn.
  { unfold blen. cbn. intros _. split; [done|]. split; [lia|]. by split. }
  pose proof (parse_char_inv blk lo p s st c H Hs) as Hc.
  unfold blen in *. cbn [length].
  destruct (parse_char blk p s st c) as [s' st'|st'|st'|st'] eqn:E; cbn; intros Hrc.
  - assert (s' <> receive_body) by (by eapply parse_char_not_body).
    destruct (IH (p + 1) s' st') as (? & ? & ?); [done..|]. split; [done|]. split; [lia|done].
  - done.
  - split; [done|]. split; [lia|done].
  - exfalso. revert E. destruct s; unfold parse_char; repeat case_match; done.
Qed.

Lemma parse_loop_ok_body blk pos0 s0 l p s st :
  s <> receive_body ->
  pr_rc (parse_loop blk pos0 s0 l p s st) = NGX_OK ->
  pr_state (parse_loop blk pos0 s0 l p s st) = receive_body.
Proof.
  revert p s st; induction l as [|c l IH]; intros p s st Hs; cbn; [done|].
  destruct (parse_char blk p s st c) eqn:E; cbn; [|done|done|].
  - apply IH. by eapply parse_char_not_body.
  - exfalso. revert E. destruct s; unfold parse_char; repeat case_match; done.
Qed.

Lemma parse_ok_body blk l pos s st :
  pr_rc (ngx_upstream_check_http_parse_status_line blk l pos s st) = NGX_OK ->
  pr_state (ngx_upstream_check_http_parse_status_line blk l pos s st) = receive_body.
Proof. destruct s; try done; by apply parse_loop_ok_body. Qed.

Lemma parser_inv_bounds blk lo p s st :
  parser_inv blk lo p s st -> 0 <= code st < 1000 /\ 0 <= count st <= 3.
Proof.
  destruct s; cbn; try (intros [-> _]; cbn; lia); try lia.
  intros (Hn & Hk & _). assert (10 ^ count st <= 10 ^ 2) by (apply Z.pow_le_mono_r; lia). lia.
Qed.

Lemma parser_inv_pos blk lo p s st : parser_inv blk lo p s st -> lo <= p.
Proof. destruct s; cbn; intros; repeat match goal with
  | H : _ /\ _ |- _ => destruct H | H : exists _, _ |- _ => destruct H end; lia. Qed.

(** One call preserves the invariant. *)
Lemma parse_status_line_inv blk lo l pos s st :
  parser_inv blk lo pos s st ->
  let r := ngx_upstream_check_http_parse_status_line blk l pos s st in
  (pr_rc r = NGX_OK \/ pr_rc r = NGX_AGAIN \/ pr_rc r = NGX_ERROR)
  /\ (pr_rc r <> NGX_ERROR -> parser_inv blk lo (pr_pos r) (pr_state r) (pr_status r))
  /\ pr_pos r <= pos + blen l
  /\ (pr_rc r = NGX_OK ->
      exists o e, st_start (pr_status r) = Some (blk, o) /\ st_end (pr_status r) = Some (blk, e)
        /\ lo <= o /\ o + 3 <= e < pr_pos r /\ 0 <= code (pr_status r) < 1000).
Proof.
  intros H r.
  destruct (decide (s = receive_body)) as [->|Hs].
  { subst r. cbn in *. unfold blen. destruct H as (? & ? & o & e & ?).
    split_and!; [by left|by eauto 10|lia|]. intros _. exists o, e. naive_solver. }
  assert (Hr : r = parse_loop blk pos s l pos s st) by (subst r; by destruct s).
  clearbody r. subst r.
  assert (Hrc : forall pos0 s0 p s' st', s' <> receive_body ->
     let r := parse_loop blk pos0 s0 l p s' st' in
     pr_rc r = NGX_OK \/ pr_rc r = NGX_AGAIN \/ (pr_rc r = NGX_ERROR /\ pr_pos r = pos0)).
  { clear. intros pos0 s0. induction l as [|c l IH]; intros p s' st' Hs; cbn; [by eauto|].
    destruct (parse_char blk p s' st' c) eqn:E; cbn; eauto.
    apply IH. by eapply parse_char_not_body. }
  pose proof (parse_loop_inv blk lo pos s l pos s st H Hs) as Hl.
  pose proof (blen_nonneg l).
  destruct (Hrc pos s pos s st Hs) as [E|[E|[E Ep]]]; cbn zeta in *; rewrite E in *.
  - destruct Hl as (Hi & ? & Hb); [done|]. split; [by left|]. split; [done|]. split; [done|].
    intros _. rewrite (proj1 Hb eq_refl) in Hi. cbn in Hi. naive_solver.
  - destruct Hl as (Hi & ? & Hb); [done|]. split; [by right; left|]. by split.
  - rewrite Ep. split; [by right; right|]. split; [done|]. split; [lia|done].
Qed.

(** C34: safety of the status-line parser.  Started on a fresh status at
    offset [lo] of a block and called on any sequence of chunks, the parser
    never leaves the received bytes ([b->pos] stays within them), the code it
    accumulates stays below 1000 and [count] at most 3 (no wrap-around), and
    [NGX_OK] means that [status.start] and [status.end] point into the block,
    with the three digits of the code before [end] and [end] before
    [b->pos]: the pointers the body scan then dereferences. *)
Theorem parse_status_line_safe blk lo chunks :
  let r := parse_calls blk chunks lo sw_start status_zero in
  pr_rc r ∈ [NGX_OK; NGX_AGAIN; NGX_ERROR]
  /\ pr_pos r <= lo + blen (concat chunks)
  /\ (pr_rc r <> NGX_ERROR -> 0 <= code (pr_status r) < 1000 /\ 0 <= count (pr_status r) <= 3)
  /\ (pr_rc r = NGX_OK ->
      exists o e, st_start (pr_status r) = Some (blk, o) /\ st_end (pr_status r) = Some (blk, e)
        /\ lo <= o /\ o + 3 <= e < pr_pos r).
Proof.
  assert (Hgen : forall pos s st, parser_inv blk lo pos s st ->
    let r := parse_calls blk chunks pos s st in
    pr_rc r ∈ [NGX_OK; NGX_AGAIN; NGX_ERROR]
    /\ pr_pos r <= pos + blen (concat chunks)
    /\ (pr_rc r <> NGX_ERROR -> parser_inv blk lo (pr_pos r) (pr_state r) (pr_status r))
    /\ (pr_rc r = NGX_OK -> pr_state r = receive_body)).
  { induction chunks as [|l chunks' IH]; intros pos s st H; cbn.
    { unfold blen. cbn. split; [set_solver|]. split; [lia|done]. }
    destruct (parse_status_line_inv blk lo l pos s st H) as (Hrc & Hi & Hp & Hok).
    pose proof (blen_nonneg (concat chunks')). rewrite blen_app.
    destruct Hrc as [E|[E|E]]; rewrite E.
    - rewrite E in *. split; [set_solver|]. split; [lia|]. split; [by intros _; apply Hi|].
      intros _. by apply parse_ok_body.
    - destruct (IH _ _ _ (Hi ltac:(by rewrite E))) as (I1 & I2 & I3).
      split; [done|]. split; [lia|done].
    - rewrite E. split; [set_solver|]. split; [lia|done]. }
  destruct (Hgen lo sw_start status_zero (parser_inv_start blk lo)) as (H1 & H2 & H3 & H4).
  split; [done|]. split; [done|]. split.
  - intros Hne. by apply (parser_inv_bounds blk lo _ _ _ (H3 Hne)).
  - intros E. specialize (H3 ltac:(by rewrite E)). rewrite (H4 E) in H3.
    destruct H3 as (_ & _ & o & e & ?). exists o, e. tauto.
Qed.

(** ** A well-formed response head is accepted *)

Definition is_eol (c : Z) : bool := (c =? CR) || (c =? LF).

(** The head of an HTTP response. *)
Record resp_head := mk_head {
  rh_major : bytes; rh_minor : bytes;    (** version digits *)
  rh_d1 : Z; rh_d2 : Z; rh_d3 : Z;       (** digits of the status code, as numbers *)
  rh_text : bytes;                       (** reason phrase *)
  rh_headers : list (Z * bytes)          (** header lines: first byte and rest *)
}.

Definition head_ok (h : resp_head) : bool :=
  match rh_major h with
  | c :: l => (ch "1" <=? c) && (c <=? ch "9") && forallb (fun c => negb (not_digit c)) l
  | [] => false
  end
  && negb (bool_decide (rh_minor h = [])) && forallb (fun c => negb (not_digit c)) (rh_minor h)
  && forallb (fun d => (0 <=? d) && (d <=? 9)) [rh_d1 h; rh_d2 h; rh_d3 h]
  && forallb (fun c => negb (is_eol c)) (rh_text h)
  && forallb (fun l => negb (fst l =? CR) && forallb (fun c => negb (is_eol c)) (snd l)) (rh_headers h).

Definition render_headers (hs : list (Z * bytes)) : bytes :=
  flat_map (fun h => fst h :: snd h ++ [CR; LF]) hs.

Definition render_head (h : resp_head) : bytes :=
  s2b "HTTP/" ++ rh_major h ++ s2b "." ++ rh_minor h ++ s2b " "
  ++ [ch "0" + rh_d1 h; ch "0" + rh_d2 h; ch "0" + rh_d3 h] ++ s2b " " ++ rh_text h ++ [CR; LF]
  ++ render_headers (rh_headers h) ++ [CR; LF].

(** Where the code starts in [render_head h]. *)
Definition code_offset (h : resp_head) : Z := 7 + blen (rh_major h) + blen (rh_minor h).

Section Render.
Context (blk : nat) (pos0 : Z) (s0 : sw).
Abbreviation loop := (parse_loop blk pos0 s0).

Lemma parse_loop_next c l p s st s' st' :
  parse_char blk p s st c = Next s' st' -> loop (c :: l) p s st = loop l (p + 1) s' st'.
Proof. intros E. cbn. by rewrite E. Qed.

(** A state that skips digits skips a run of them. *)
Lemma parse_digits s ds l p st :
  s = sw_major_digit \/ s = sw_minor_digit ->
  forallb (fun c => negb (not_digit c)) ds = true ->
  loop (ds ++ l) p s st = loop l (p + blen ds) s st.
Proof.
  intros Hs. revert p; induction ds as [|c ds IH]; intros p; cbn [forallb app].
  { unfold blen. by rewrite Z.add_0_r. }
  intros [Hc Hd]%andb_true_iff. unfold blen in *. cbn [length parse_loop].
  assert (E : parse_char blk p s st c = Next s st).
  { unfold not_digit in Hc. unfold parse_char, not_digit.
    change (ch "0") with 48 in *. change (ch "9") with 57 in *.
    change (ch ".") with 46. change (ch " ") with 32.
    destruct Hs as [-> | ->]; zcase; done. }
  rewrite E, IH by done. f_equal. lia.
Qed.

Lemma parse_text t l p st :
  forallb (fun c => negb (is_eol c)) t = true ->
  loop (t ++ l) p sw_status_text st = loop l (p + blen t) sw_status_text st.
Proof.
  revert p; induction t as [|c t IH]; intros p; cbn [forallb app].
  { unfold blen. by rewrite Z.add_0_r. }
  intros [Hc Ht]%andb_true_iff. unfold blen in *. cbn [length parse_loop].
  assert (E : parse_char blk p sw_status_text st c = Next sw_status_text st).
  { unfold is_eol in Hc. unfold parse_char. by destruct (c =? CR), (c =? LF). }
  rewrite E, IH by done. f_equal. lia.
Qed.

Lemma parse_headers hs l p st :
  forallb (fun l => negb (fst l =? CR) && forallb (fun c => negb (is_eol c)) (snd l)) hs = true ->
  loop (render_headers hs ++ l) p sw_cr st = loop l (p + blen (render_headers hs)) sw_cr st.
Proof.
  revert p; induction hs as [|[c t] hs IH]; intros p; cbn [forallb render_headers flat_map].
  { unfold blen. by rewrite Z.add_0_r. }
  intros [[Hc Ht]%andb_true_iff Hs]%andb_true_iff. cbn [fst snd] in *.
  rewrite <- !app_assoc, <- app_comm_cons. cbn [parse_loop].
  unfold parse_char at 1. destruct (c =? CR); [done|].
  rewrite <- app_assoc, parse_text by done. cbn [app parse_loop].
  change (parse_char _ _ sw_status_text st CR) with (Next sw_lf st). cbn [parse_loop].
  change (parse_char _ _ sw_lf st LF) with (Next sw_cr st). cbn match.
  fold (render_headers hs). rewrite IH by done. f_equal.
  unfold blen. cbn [length app]. rewrite !length_app. cbn [length]. lia.
Qed.

(** The three digits of the code. *)
Lemma parse_code d1 d2 d3 l p st :
  st = status_zero -> 0 <= d1 <= 9 -> 0 <= d2 <= 9 -> 0 <= d3 <= 9 ->
  loop (ch "0" + d1 :: ch "0" + d2 :: ch "0" + d3 :: ch " " :: l) p sw_status st
  = loop l (p + 4) sw_status_text (mk_status (100 * d1 + 10 * d2 + d3) 3 (Some (blk, p)) None).
Proof.
  intros -> H1 H2 H3. cbn [parse_loop].
  unfold parse_char, not_digit. change (ch "0") with 48. change (ch "9") with 57. change (ch " ") with 32.
  assert (Hd : forall d, 0 <= d <= 9 ->
    (48 + d =? 32) = false /\ (48 + d <? 48) || (57 <? 48 + d) = false) by lia.
  destruct (Hd d1 H1) as [-> ->]. cbn [upd eta_rec eta_status code count st_start st_end status_zero].
  change (u64 (0 + 1) =? 3) with false. cbv iota. cbn [count code st_start st_end].
  destruct (Hd d2 H2) as [-> ->]. change (u64 (u64 (0 + 1) + 1) =? 3) with false. cbv iota.
  cbn [count code st_start st_end].
  destruct (Hd d3 H3) as [-> ->]. change (u64 (u64 (u64 (0 + 1) + 1) + 1)) with 3. cbv iota.
  cbn [count code st_start st_end]. change (32 =? 32) with true. cbv iota.
  f_equal; [lia|]. f_equal; [|f_equal; f_equal; lia].
  rewrite (u64_small (0 * 10 + _ - _)) by (unfold in_u64; lia).
  rewrite (u64_small (_ * 10 + (48 + d2) - _)) by (unfold in_u64; lia).
  rewrite u64_small by (unfold in_u64; lia). lia.
Qed.

End Render.

(** One call on a rendered head. *)
Lemma parse_accepts blk h body pos :
  head_ok h = true ->
  ngx_upstream_check_http_parse_status_line blk (render_head h ++ body) pos sw_start status_zero
  = mk_pres NGX_OK receive_body (pos + blen (render_head h))
      (mk_status (100 * rh_d1 h + 10 * rh_d2 h + rh_d3 h) 3
         (Some (blk, pos + code_offset h)) (Some (blk, pos + blen (render_head h) - 2))).
Proof.
  destruct h as [maj mnr d1 d2 d3 txt hs]. unfold head_ok, code_offset, render_head.
  cbn [rh_major rh_minor rh_d1 rh_d2 rh_d3 rh_text rh_headers].
  destruct maj as [|m maj]; [done|]. destruct mnr as [|n mnr]; [by rewrite ?andb_false_r|].
  intros [[[[[[Hm Hmaj]%andb_true_iff _]%andb_true_iff Hmnr]%andb_true_iff
    Hd]%andb_true_iff Ht]%andb_true_iff Hh]%andb_true_iff.
  cbn [forallb] in Hd, Hmnr. apply andb_true_iff in Hmnr as [Hn Hmnr].
  change (s2b ".") with [ch "."]. change (s2b " ") with [ch " "].
  rewrite <- !app_assoc. cbn [app s2b].
  unfold ngx_upstream_check_http_parse_status_line.
  do 5 (erewrite parse_loop_next by reflexivity).
  erewrite parse_loop_next; [|unfold parse_char;
    replace ((m <? ch "1") || (ch "9" <? m)) with false by lia; reflexivity].
  rewrite parse_digits by auto. erewrite parse_loop_next by reflexivity.
  erewrite parse_loop_next;
    [|unfold parse_char; rewrite (proj1 (negb_true_iff _) Hn); reflexivity].
  rewrite parse_digits by auto. erewrite parse_loop_next by reflexivity.
  rewrite parse_code by done || lia.
  rewrite parse_text by done. do 2 erewrite parse_loop_next by reflexivity.
  rewrite parse_headers by done. erewrite parse_loop_next by reflexivity.
  cbn [parse_loop parse_char]. change (LF =? LF) with true. cbn iota beta.
  unfold parse_done. cbn [upd eta_rec eta_status code count st_start st_end].
  autorewrite with blen. f_equal; [lia|]. f_equal; f_equal; f_equal; lia.
Qed.

(** C32: a rendered response head is accepted, however it is cut into reads.
    For every version, three-digit code, reason phrase and list of header
    lines (none starting with CR or containing a line break), the calls on
    any chunks of the head followed by anything return [NGX_OK] with the
    code, [status.start] at its first digit, [status.end] at the CR of the
    empty line, and [b->pos] at the first byte of the body. *)
Theorem parse_status_line_accepts blk h body pos l chunks :
  head_ok h = true -> concat (l :: chunks) = render_head h ++ body ->
  parse_calls blk (l :: chunks) pos sw_start status_zero
  = mk_pres NGX_OK receive_body (pos + blen (render_head h))
      (mk_status (100 * rh_d1 h + 10 * rh_d2 h + rh_d3 h) 3
         (Some (blk, pos + code_offset h)) (Some (blk, pos + blen (render_head h) - 2))).
Proof.
  intros Hh Hc. pose proof (parse_calls_one blk l chunks pos sw_start status_zero) as H.
  cbn zeta in H. rewrite Hc, parse_accepts in H by done. by apply H.
Qed.

Lemma parse_status_line_accepts_witness :
  let h := mk_head (s2b "1") (s2b "1") 2 0 4 (s2b "No Content")
             [(ch "S", s2b "erver: nginx"); (ch "X", s2b ": 1")] in
  head_ok h = true
  /\ pr_status (parse_calls 1 [s2b "HTTP/1.1 2"; drop 10 (render_head h) ++ s2b "x"] 100 sw_start status_zero)
    = mk_status 204 3 (Some (1%nat, 109)) (Some (1%nat, 146)).
Proof.
  intros h. split; [reflexivity|]. unfold h.
  rewrite (parse_status_line_accepts 1 h (s2b "x")) by reflexivity. reflexivity.
Defined.
