(* ===== verification/CheckTypes.v ===== *)
(** * Data of the health checker

    The types of [common.h.in] and the tables of check types of the two
    modules [ngx_stream_upstream_check_module.c] and
    [ngx_http_upstream_check_module.c].  Function pointers of the tables are
    constructors; the functions they stand for are in [CheckProto] and
    [CheckCore]. *)

From S2P Require Import Prelude NgxString StatusLine.

(** ** Constants *)

(** Progress of a check ([peer->state]). *)
Definition NGX_HTTP_CHECK_CONNECT_DONE : Z := 1.
Definition NGX_HTTP_CHECK_SEND_DONE : Z := 2.
Definition NGX_HTTP_CHECK_RECV_DONE : Z := 4.
Definition NGX_HTTP_CHECK_ALL_DONE : Z := 8.

Definition NGX_CHECK_HTTP_2XX : Z := 0x0002.
Definition NGX_CHECK_HTTP_3XX : Z := 0x0004.
Definition NGX_CHECK_HTTP_4XX : Z := 0x0008.
Definition NGX_CHECK_HTTP_5XX : Z := 0x0010.
Definition NGX_CHECK_HTTP_ERR : Z := 0x8000.

Definition NGX_CONF_BITMASK_SET : Z := 1.

Definition NGX_INVALID_PID : Z := -1.

(** [(ngx_uint_t) NGX_ERROR] and [NGX_CONF_UNSET_UINT]/[NGX_CONF_UNSET_MSEC]:
    all bits set. *)
Definition NGX_UINT_ERROR : Z := u64 (-1).
Definition NGX_CONF_UNSET_UINT : Z := u64 (-1).

(** ** Pointers that may be unset

    A configuration pointer is [NGX_CONF_UNSET_PTR], [NULL] or an address. *)
Inductive cptr (A : Type) : Type := Unset | Null | Ptr (a : A).
Arguments Unset {A}.
Arguments Null {A}.
Arguments Ptr {A} a.

Definition is_unset {A} (p : cptr A) : bool := match p with Unset => true | _ => false end.

(** ** Check types *)

(** Event handlers a connection event can be given. *)
Inductive ev_handler : Set :=
| send_handler | recv_handler | peek_handler | dummy_handler | discard_handler.

#[export] Instance ev_handler_eq_dec : EqDecision ev_handler.
Proof. solve_decision. Defined.

(** [ngx_upstream_check_packet_init_pt], [.._parse_pt] and [.._clean_pt]. *)
Inductive packet_init : Set := http_init | ssl_hello_init | mysql_init | ajp_init.
Inductive packet_parse : Set :=
| http_parse | fastcgi_parse | ssl_hello_parse | mysql_parse | ajp_parse.
Inductive packet_clean : Set := http_reinit | ssl_hello_reinit | mysql_reinit | ajp_reinit.

Record ngx_check_conf_t := mk_check_conf {
  type : Z;
  name : bytes;
  default_send : option bytes;          (** [None]: a null string *)
  default_status_alive : Z;
  cc_send_handler : option ev_handler;
  cc_recv_handler : option ev_handler;
  cc_init : option packet_init;
  cc_parse : option packet_parse;
  cc_reinit : option packet_clean;
  need_pool : bool;
  need_keepalive : bool
}.

Definition check_conf_end : ngx_check_conf_t :=
  mk_check_conf 0 [] None 0 None None None None None false false.

Definition default_http_send : bytes := s2b "GET / HTTP/1.0" ++ [CR; LF; CR; LF].

Definition default_http_alive : Z :=
  Z.lor (Z.lor NGX_CONF_BITMASK_SET NGX_CHECK_HTTP_2XX) NGX_CHECK_HTTP_3XX.

(** [ngx_http_get_check_type_conf]: search the table up to its terminator. *)
Fixpoint get_check_type_conf (types : list ngx_check_conf_t) (str : bytes) : option ngx_check_conf_t :=
  match types with
  | [] => None
  | t :: types' =>
    if type t =? 0 then None
    else if negb (blen str =? blen (name t)) then get_check_type_conf types' str
    else if ngx_strncmp str (name t) (length str) =? 0 then Some t
    else get_check_type_conf types' str
  end.

Module Stream.

Definition NGX_CHECK_TYPE_TCP : Z := 1.
Definition NGX_CHECK_TYPE_HTTP : Z := 2.
Definition NGX_CHECK_TYPE_UDP : Z := 4.

Definition ngx_check_types : list ngx_check_conf_t :=
  [ mk_check_conf NGX_CHECK_TYPE_TCP (s2b "tcp") None 0
      (Some peek_handler) (Some peek_handler) None None None false false;
    mk_check_conf NGX_CHECK_TYPE_UDP (s2b "udp") (Some (s2b "NGX_UDP_CHECKER")) 0
      (Some send_handler) (Some peek_handler) (Some http_init) None (Some http_reinit) true false;
    mk_check_conf NGX_CHECK_TYPE_HTTP (s2b "http") (Some default_http_send) default_http_alive
      (Some send_handler) (Some recv_handler) (Some http_init) (Some http_parse) (Some http_reinit)
      true true;
    check_conf_end ].

Definition ngx_http_get_check_type_conf : bytes -> option ngx_check_conf_t :=
  get_check_type_conf ngx_check_types.

End Stream.

Module Http.

Definition NGX_HTTP_CHECK_TCP : Z := 0x0001.
Definition NGX_HTTP_CHECK_HTTP : Z := 0x0002.
Definition NGX_HTTP_CHECK_SSL_HELLO : Z := 0x0004.
Definition NGX_HTTP_CHECK_MYSQL : Z := 0x0008.
Definition NGX_HTTP_CHECK_AJP : Z := 0x0010.

Definition NGX_SSL_RANDOM : bytes := s2b "NGX_HTTP_CHECK_SSL_HELLO" ++ [10; 10; 10; 10].

(** The characters of [sslv3_client_hello_pkt]; [ngx_string] drops the NUL
    that ends the literal. *)
Definition sslv3_client_hello_pkt : bytes :=
  [0x16] ++ [0x03; 0x01] ++ [0x00; 0x6f] ++ [0x01] ++ [0x00; 0x00; 0x6b] ++ [0x03; 0x03]
  ++ [0x00; 0x00; 0x00; 0x00] ++ NGX_SSL_RANDOM ++ [0x00] ++ [0x00; 0x1a]
  ++ [0xc0; 0x2b; 0xc0; 0x2f; 0xcc; 0xa9; 0xcc; 0xa8; 0xc0; 0x0a; 0xc0; 0x09; 0xc0; 0x13; 0xc0; 0x14;
      0x00; 0x33; 0x00; 0x39; 0x00; 0x2f; 0x00; 0x35; 0x00; 0x0a]
  ++ [0x01] ++ [0x00] ++ [0x00; 0x28] ++ [0x00; 0x0a] ++ [0x00; 0x08] ++ [0x00; 0x06]
  ++ [0x00; 0x17; 0x00; 0x18; 0x00; 0x19] ++ [0x00; 0x0d] ++ [0x00; 0x18] ++ [0x00; 0x16]
  ++ [0x04; 0x01; 0x05; 0x01; 0x06; 0x01; 0x02; 0x01; 0x04; 0x03; 0x05; 0x03; 0x06; 0x03; 0x02; 0x03;
      0x05; 0x02; 0x04; 0x02; 0x02; 0x02].

Definition NGX_SSL_HANDSHAKE : Z := 0x16.
Definition NGX_SSL_SERVER_HELLO : Z := 0x02.
Definition NGX_AJP_CPING : Z := 0x0a.
Definition NGX_AJP_CPONG : Z := 0x09.

Definition ngx_ajp_cping_packet : bytes := [0x12; 0x34; 0x00; 0x01; NGX_AJP_CPING; 0x00].
Definition ngx_ajp_cpong_packet : bytes := [0x41; 0x42; 0x00; 0x01; NGX_AJP_CPONG].

Definition ngx_check_types : list ngx_check_conf_t :=
  [ mk_check_conf NGX_HTTP_CHECK_TCP (s2b "tcp") None 0
      (Some peek_handler) (Some peek_handler) None None None false true;
    mk_check_conf NGX_HTTP_CHECK_HTTP (s2b "http") (Some default_http_send) default_http_alive
      (Some send_handler) (Some recv_handler) (Some http_init) (Some http_parse) (Some http_reinit)
      true true;
    mk_check_conf NGX_HTTP_CHECK_HTTP (s2b "fastcgi") None 0
      (Some send_handler) (Some recv_handler) (Some http_init) (Some fastcgi_parse) (Some http_reinit)
      true false;
    mk_check_conf NGX_HTTP_CHECK_SSL_HELLO (s2b "ssl_hello") (Some sslv3_client_hello_pkt) 0
      (Some send_handler) (Some recv_handler) (Some ssl_hello_init) (Some ssl_hello_parse)
      (Some ssl_hello_reinit) true false;
    mk_check_conf NGX_HTTP_CHECK_MYSQL (s2b "mysql") None 0
      (Some send_handler) (Some recv_handler) (Some mysql_init) (Some mysql_parse)
      (Some mysql_reinit) true false;
    (* [ngx_string] of a character array: its size less one *)
    mk_check_conf NGX_HTTP_CHECK_AJP (s2b "ajp") (Some (take 5 ngx_ajp_cping_packet)) 0
      (Some send_handler) (Some recv_handler) (Some ajp_init) (Some ajp_parse)
      (Some ajp_reinit) true false;
    check_conf_end ].

Definition ngx_http_get_check_type_conf : bytes -> option ngx_check_conf_t :=
  get_check_type_conf ngx_check_types.

End Http.

(** ** Configuration of an upstream *)

(** A compiled regular expression: the pattern and whether it was compiled
    with [NGX_REGEX_CASELESS]; what it matches is PCRE's business. *)
Record ngx_regex_t := mk_regex { rx_pattern : bytes; rx_caseless : bool }.

(** [ngx_upstream_check_srv_conf_t].  [fastcgi_params] is the array of
    directive arguments, two per parameter. *)
Record ngx_upstream_check_srv_conf_t := mk_srv_conf {
  port : Z;
  cf_fall_count : Z;
  cf_rise_count : Z;
  check_interval : Z;
  check_timeout : Z;
  check_keepalive_requests : Z;
  check_type_conf : cptr ngx_check_conf_t;
  send : option bytes;
  status_alive : Z;
  expect_body_regex : cptr ngx_regex_t;
  fastcgi_params : cptr (list bytes);
  default_down : Z
}.

#[export] Instance eta_srv_conf : Eta ngx_upstream_check_srv_conf_t := fun r =>
  mk_srv_conf (port r) (cf_fall_count r) (cf_rise_count r) (check_interval r) (check_timeout r)
    (check_keepalive_requests r) (check_type_conf r) (send r) (status_alive r)
    (expect_body_regex r) (fastcgi_params r) (default_down r).

(** ** Shared and local state of a checked peer *)

(** [ngx_upstream_check_peer_shm_t]: the part in shared memory. *)
Record ngx_upstream_check_peer_shm_t := mk_peer_shm {
  owner : Z;
  access_time : Z;
  fall_count : Z;
  rise_count : Z;
  busyness : Z;
  access_count : Z;
  sh_sockaddr : bytes;
  sh_socklen : Z;
  down : Z;
  sh_upstream_name : bytes
}.

#[export] Instance eta_peer_shm : Eta ngx_upstream_check_peer_shm_t := fun r =>
  mk_peer_shm (owner r) (access_time r) (fall_count r) (rise_count r) (busyness r)
    (access_count r) (sh_sockaddr r) (sh_socklen r) (down r) (sh_upstream_name r).

(** [ngx_memzero] of a shared peer. *)
Definition peer_shm_zero : ngx_upstream_check_peer_shm_t := mk_peer_shm 0 0 0 0 0 0 [] 0 0 [].

(** [ngx_upstream_check_peers_shm_t] *)
Record ngx_upstream_check_peers_shm_t := mk_peers_shm {
  sh_generation : Z;
  sh_checksum : Z;
  sh_number : Z;
  sh_peers : list ngx_upstream_check_peer_shm_t
}.

#[export] Instance eta_peers_shm : Eta ngx_upstream_check_peers_shm_t := fun r =>
  mk_peers_shm (sh_generation r) (sh_checksum r) (sh_number r) (sh_peers r).

(** [ngx_addr_t] *)
Record ngx_addr_t := mk_addr { sockaddr : bytes; socklen : Z; addr_name : bytes }.

(** The timer part of an [ngx_event_t]. *)
Record ngx_event_t := mk_event { timer_set : bool; timer_key : Z }.

#[export] Instance eta_event : Eta ngx_event_t := fun r => mk_event (timer_set r) (timer_key r).

(** What the checker uses of an [ngx_connection_t]; [c_pool] says whether
    [c->pool] is set. *)
Record ngx_connection_t := mk_conn {
  c_error : bool;
  c_requests : Z;
  c_pool : bool;
  c_write : option ev_handler;
  c_read : option ev_handler
}.

#[export] Instance eta_conn : Eta ngx_connection_t := fun r =>
  mk_conn (c_error r) (c_requests r) (c_pool r) (c_write r) (c_read r).

(** The receive buffer.  [rb_blk] is the number of the allocated block (none
    before the first allocation), [rb_data] what has been stored in it from
    its start; positions are offsets in the block.  Blocks are numbered in
    allocation order, so a pointer into an abandoned block is recognised. *)
Record recv_buf := mk_recv {
  rb_blk : option nat;
  rb_data : bytes;
  rb_pos : Z;
  rb_last : Z;
  rb_end : Z
}.

#[export] Instance eta_recv : Eta recv_buf := fun r =>
  mk_recv (rb_blk r) (rb_data r) (rb_pos r) (rb_last r) (rb_end r).

(** [ngx_http_upstream_check_ctx_t] and [ngx_stream_upstream_check_ctx_t]
    ([peer->check_data]): [send.start] is the configured request, the other
    send pointers are offsets in it. *)
Record check_ctx_t := mk_ctx {
  send_data : bytes;
  send_pos : Z;
  send_last : Z;
  send_end : Z;
  recv : recv_buf;
  ctx_state : Z;
  status : ngx_http_status_t;
  padding : Z;
  ctx_length : Z;
  next_blk : nat                      (** blocks allocated so far *)
}.

#[export] Instance eta_ctx : Eta check_ctx_t := fun r =>
  mk_ctx (send_data r) (send_pos r) (send_last r) (send_end r) (recv r) (ctx_state r)
    (status r) (padding r) (ctx_length r) (next_blk r).

Definition recv_null : recv_buf := mk_recv None [] 0 0 0.

(** [ngx_pcalloc(peer->pool, sizeof(...check_ctx_t))] *)
Definition ctx_zero : check_ctx_t := mk_ctx [] 0 0 0 recv_null 0 status_zero 0 0 0.

(** [peer->pc.type]; [pc_unset] is the zero of [ngx_memzero]. *)
Inductive sock_type : Set := pc_unset | SOCK_STREAM | SOCK_DGRAM.

#[export] Instance sock_type_eq_dec : EqDecision sock_type.
Proof. solve_decision. Defined.

(** [ngx_upstream_check_peer_t]: the part in the worker process.  [shm] is
    the index of the shared peer it points to. *)
Record ngx_upstream_check_peer_t := mk_peer {
  state : Z;
  pool : bool;
  index : Z;
  upstream_name : bytes;
  check_peer_addr : ngx_addr_t;
  peer_addr : ngx_addr_t;
  check_ev : ngx_event_t;
  check_timeout_ev : ngx_event_t;
  pc_type : sock_type;
  connection : option ngx_connection_t;
  check_data : option check_ctx_t;
  p_send_handler : option ev_handler;
  p_recv_handler : option ev_handler;
  p_init : option packet_init;
  p_parse : option packet_parse;
  p_reinit : option packet_clean;
  shm : option nat;
  conf : ngx_upstream_check_srv_conf_t
}.

#[export] Instance eta_peer : Eta ngx_upstream_check_peer_t := fun r =>
  mk_peer (state r) (pool r) (index r) (upstream_name r) (check_peer_addr r) (peer_addr r)
    (check_ev r) (check_timeout_ev r) (pc_type r) (connection r) (check_data r)
    (p_send_handler r) (p_recv_handler r) (p_init r) (p_parse r) (p_reinit r) (shm r) (conf r).

(** [ngx_upstream_check_peers_t] *)
Record ngx_upstream_check_peers_t := mk_peers {
  check_shm_name : bytes;
  checksum : Z;
  peers : list ngx_upstream_check_peer_t;
  peers_shm : option ngx_upstream_check_peers_shm_t
}.

#[export] Instance eta_peers : Eta ngx_upstream_check_peers_t := fun r =>
  mk_peers (check_shm_name r) (checksum r) (peers r) (peers_shm r).

(** The check type of a configured upstream ([ucscf->check_type_conf->...]). *)
Definition check_type (cf : ngx_upstream_check_srv_conf_t) : option ngx_check_conf_t :=
  match check_type_conf cf with Ptr t => Some t | _ => None end.

(** [ngx_memzero(peer, sizeof(ngx_upstream_check_peer_t))] followed by the
    assignments of [conf] and the addresses, which are never null. *)
Definition peer_zero (cf : ngx_upstream_check_srv_conf_t) (host : bytes) (addr : ngx_addr_t)
    : ngx_upstream_check_peer_t :=
  mk_peer 0 false 0 host addr addr (mk_event false 0) (mk_event false 0) pc_unset None None
    None None None None None None cf.
