(* ===== verification/CheckProto.v ===== *)
(** * The check protocols

    [init], [parse] and [reinit] of the check types: HTTP (both modules),
    FastCGI, SSL hello, MySQL and AJP ([ngx_http_upstream_check_module.c]).

    A [parse] function gets [peer->check_data] and returns its return code,
    the changed context and whether it set [peer->pc.connection->error].  It
    is [None] when the C code would dereference a null pointer or run off an
    object (undefined behaviour). *)

From S2P Require Import Prelude NgxString StatusLine CheckTypes.

(** ** Buffers *)

(** The bytes from offset [a] to offset [b] of a block. *)
Definition slice (d : bytes) (a b : Z) : bytes := take (Z.to_nat (b - a)) (drop (Z.to_nat a) d).

(** Store [l] at offset [off]. *)
Definition store (d : bytes) (off : Z) (l : bytes) : bytes :=
  take (Z.to_nat off) d ++ l ++ drop (Z.to_nat off + length l) d.

(** The bytes received and not yet consumed: [recv.pos] to [recv.last]. *)
Definition recv_bytes (b : recv_buf) : bytes := slice (rb_data b) (rb_pos b) (rb_last b).

(** The NUL-terminated string at offset [off]: [None] when the block has no
    NUL after it. *)
Fixpoint cstr (l : bytes) : option bytes :=
  match l with
  | [] => None
  | c :: l' => if c =? 0 then Some [] else cons c <$> cstr l'
  end.

(** ** Outcome of a parser *)

Record parse_out := mk_out { po_rc : ngx_rc; po_ctx : check_ctx_t; po_error : bool }.

Definition parse_ret (rc : ngx_rc) (ctx : check_ctx_t) : option parse_out :=
  Some (mk_out rc ctx false).

(** ** HTTP *)

Definition ngx_http_upstream_check_http_init (cf : ngx_upstream_check_srv_conf_t)
    (ctx : check_ctx_t) : ngx_rc * check_ctx_t :=
  let data := default [] (send cf) in
  (NGX_OK, ctx <| send_data := data |> <| send_pos := 0 |> <| send_last := blen data |>
             <| send_end := blen data |> <| recv := recv_null |>
             <| ctx_state := 0 |> <| status := status_zero |>).

Definition ngx_http_upstream_check_http_reinit (ctx : check_ctx_t) : check_ctx_t :=
  ctx <| send_pos := 0 |> <| send_last := send_end ctx |>
      <| recv := (recv ctx) <| rb_pos := 0 |> <| rb_last := 0 |> |>
      <| ctx_state := 0 |> <| status := status_zero |>.

(** The parser state a number stands for ([enum] values). *)
Definition all_sw : list sw :=
  [sw_start; sw_H; sw_HT; sw_HTT; sw_HTTP; sw_first_major_digit; sw_major_digit;
   sw_first_minor_digit; sw_minor_digit; sw_status; sw_space_after_status; sw_status_text;
   sw_lf; sw_cr; sw_almost_done; receive_body].

Definition sw_of_Z (z : Z) : option sw := if z <? 0 then None else nth_error all_sw (Z.to_nat z).

Definition sw_val (s : sw) : Z :=
  match s with
  | sw_start => 0 | sw_H => 1 | sw_HT => 2 | sw_HTT => 3 | sw_HTTP => 4
  | sw_first_major_digit => 5 | sw_major_digit => 6 | sw_first_minor_digit => 7
  | sw_minor_digit => 8 | sw_status => 9 | sw_space_after_status => 10 | sw_status_text => 11
  | sw_lf => 12 | sw_cr => 13 | sw_almost_done => 14 | receive_body => 15
  end.

Lemma sw_of_val s : sw_of_Z (sw_val s) = Some s.
Proof. by destruct s. Qed.

(** The class of a status code and whether it marks the connection bad. *)
Definition code_class (code : Z) : Z * bool :=
  if (200 <=? code) && (code <? 300) then (NGX_CHECK_HTTP_2XX, false)
  else if (300 <=? code) && (code <? 400) then (NGX_CHECK_HTTP_3XX, false)
  else if (400 <=? code) && (code <? 500) then (NGX_CHECK_HTTP_4XX, true)
  else if (500 <=? code) && (code <? 600) then (NGX_CHECK_HTTP_5XX, true)
  else (NGX_CHECK_HTTP_ERR, true).

Definition content_length_hdr : bytes := s2b "Content-Length:".

(** [sizeof("Content-Length: ") - 1] *)
Definition content_length_skip : Z := 16.

(** The search for the body length: [found_body_len] and [body_len].
    [garbage] is the value of [found_body_len] when it is not assigned.
    [d] is the block holding both pointers, with the NUL stored at [e]. *)
Definition find_body_len (garbage : Z) (d : bytes) (s e : Z) : option (Z * Z) :=
  str ← cstr (drop (Z.to_nat s) d);
  match ngx_strstr str content_length_hdr with
  | None => Some (garbage, 0)
  | Some k =>
    let cl_start := s + Z.of_nat k in
    match ngx_strlchr (slice d cl_start e) CR with
    | None => Some (garbage, 0)
    | Some len =>
      let line := slice d (cl_start + content_length_skip) e in
      Some (1, u64 (ngx_atoi line (u64 (Z.of_nat len - content_length_skip))))
    end
  end.

Definition NGX_REGEX_NO_MATCHED : Z := -1.

Section HttpParse.
(** [ngx_regex_exec] (PCRE) and the value an unassigned local has. *)
Context (regex_exec : ngx_regex_t -> bytes -> Z) (garbage : Z).

(** The decision on a response whose head has been parsed. *)
Definition http_decide (cf : ngx_upstream_check_srv_conf_t) (code_n : Z)
    (found_body_len body_len : Z) (response_body : bytes) : option ngx_rc :=
  if Z.land code_n (status_alive cf) =? 0 then Some NGX_ERROR
  else match expect_body_regex cf with
       | Unset => Some NGX_OK
       | Null => None
       | Ptr re =>
         if (found_body_len =? 1) && (blen response_body <? body_len) then Some NGX_AGAIN
         else if regex_exec re response_body =? NGX_REGEX_NO_MATCHED then
           if found_body_len =? 1 then Some NGX_ERROR else Some NGX_AGAIN
         else Some NGX_OK
       end.

(** [ngx_http_upstream_check_http_parse]: [None] also when
    [status.start] and [status.end] point into different blocks, which are
    then scanned and compared as if they were one. *)
Definition ngx_http_upstream_check_http_parse (cf : ngx_upstream_check_srv_conf_t)
    (ctx : check_ctx_t) : option parse_out :=
  let b := recv ctx in
  if 0 <? rb_last b - rb_pos b then
    blk ← rb_blk b;
    s ← sw_of_Z (ctx_state ctx);
    let r := ngx_upstream_check_http_parse_status_line blk (recv_bytes b) (rb_pos b) s (status ctx) in
    let ctx := ctx <| recv := b <| rb_pos := pr_pos r |> |>
                   <| ctx_state := sw_val (pr_state r) |> <| status := pr_status r |> in
    match pr_rc r with
    | NGX_AGAIN => parse_ret NGX_AGAIN ctx
    | NGX_ERROR => parse_ret NGX_ERROR ctx
    | _ =>
      let '(code_n, error) := code_class (code (status ctx)) in
      '(b1, s) ← st_start (status ctx);
      '(b2, e) ← st_end (status ctx);
      if negb (Nat.eqb b1 b2 && Nat.eqb b2 blk) then None
      else
        let d := store (rb_data b) e [0] in
        let ctx := ctx <| recv := (recv ctx) <| rb_data := d |> |> in
        '(found_body_len, body_len) ← find_body_len garbage d s e;
        rc ← http_decide cf code_n found_body_len body_len (recv_bytes (recv ctx));
        Some (mk_out rc ctx error)
    end
  else parse_ret NGX_AGAIN ctx.

End HttpParse.

(** ** SSL hello, MySQL and AJP *)

(** The three init functions have one body, which leaves [state] and
    [status] alone. *)
Definition packet_init_body (cf : ngx_upstream_check_srv_conf_t) (ctx : check_ctx_t)
    : ngx_rc * check_ctx_t :=
  let data := default [] (send cf) in
  (NGX_OK, ctx <| send_data := data |> <| send_pos := 0 |> <| send_last := blen data |>
             <| send_end := blen data |> <| recv := recv_null |>).

Definition ngx_http_upstream_check_ssl_hello_init := packet_init_body.
Definition ngx_http_upstream_check_mysql_init := packet_init_body.
Definition ngx_http_upstream_check_ajp_init := packet_init_body.

Definition packet_reinit_body (ctx : check_ctx_t) : check_ctx_t :=
  ctx <| send_pos := 0 |> <| send_last := send_end ctx |>
      <| recv := (recv ctx) <| rb_pos := 0 |> <| rb_last := 0 |> |>.

Definition ngx_http_upstream_check_ssl_hello_reinit := packet_reinit_body.
Definition ngx_http_upstream_check_mysql_reinit := packet_reinit_body.
Definition ngx_http_upstream_check_ajp_reinit := packet_reinit_body.

(** Packed [ngx_ssl_server_hello_t]: 1 + 2 + 2 + 1 + 3 + 2 bytes, an 8-byte
    [time_t] and 28 random bytes. *)
Definition sizeof_ssl_server_hello : Z := 47.

Definition ngx_http_upstream_check_ssl_hello_parse (ctx : check_ctx_t) : option parse_out :=
  let resp := recv_bytes (recv ctx) in
  if blen resp <? sizeof_ssl_server_hello then parse_ret NGX_AGAIN ctx
  else if negb (nth 0 resp 0 =? Http.NGX_SSL_HANDSHAKE) then parse_ret NGX_ERROR ctx
  else if negb (nth 5 resp 0 =? Http.NGX_SSL_SERVER_HELLO) then parse_ret NGX_ERROR ctx
  else parse_ret NGX_OK ctx.

Definition sizeof_mysql_handshake_init : Z := 5.

Definition ngx_http_upstream_check_mysql_parse (ctx : check_ctx_t) : option parse_out :=
  let handshake := recv_bytes (recv ctx) in
  if blen handshake <? sizeof_mysql_handshake_init then parse_ret NGX_AGAIN ctx
  else if negb (nth 3 handshake 0 =? 0) then parse_ret NGX_ERROR ctx
  else parse_ret NGX_OK ctx.

Definition ngx_http_upstream_check_ajp_parse (ctx : check_ctx_t) : option parse_out :=
  let p := recv_bytes (recv ctx) in
  if blen p <? blen Http.ngx_ajp_cpong_packet then parse_ret NGX_AGAIN ctx
  else if bytes_eqb (take (length Http.ngx_ajp_cpong_packet) p) Http.ngx_ajp_cpong_packet
       then parse_ret NGX_OK ctx
       else parse_ret NGX_ERROR ctx.

(** ** FastCGI *)

Definition NGX_HTTP_FASTCGI_END_REQUEST : Z := 3.
Definition NGX_HTTP_FASTCGI_STDOUT : Z := 6.
Definition NGX_HTTP_FASTCGI_STDERR : Z := 7.

(** [ngx_http_fastcgi_state_e] *)
Definition fastcgi_st_version : Z := 0.
Definition fastcgi_st_type : Z := 1.
Definition fastcgi_st_request_id_hi : Z := 2.
Definition fastcgi_st_request_id_lo : Z := 3.
Definition fastcgi_st_content_length_hi : Z := 4.
Definition fastcgi_st_content_length_lo : Z := 5.
Definition fastcgi_st_padding_length : Z := 6.
Definition fastcgi_st_reserved : Z := 7.
Definition fastcgi_st_data : Z := 8.
Definition fastcgi_st_padding : Z := 9.

(** One byte of the record header.  [inl]: on to the next byte with the new
    state; [inr]: return. *)
Definition fastcgi_record_char (ctx : check_ctx_t) (state p c : Z)
    : (Z * check_ctx_t) + (ngx_rc * check_ctx_t) :=
  if state =? fastcgi_st_version then
    if negb (c =? 1) then inr (NGX_ERROR, ctx) else inl (fastcgi_st_type, ctx)
  else if state =? fastcgi_st_type then
    if (c =? NGX_HTTP_FASTCGI_STDOUT) || (c =? NGX_HTTP_FASTCGI_STDERR)
       || (c =? NGX_HTTP_FASTCGI_END_REQUEST)
    then inl (fastcgi_st_request_id_hi, ctx <| status := (status ctx) <| code := c |> |>)
    else inr (NGX_ERROR, ctx)
  else if state =? fastcgi_st_request_id_hi then
    if negb (c =? 0) then inr (NGX_ERROR, ctx) else inl (fastcgi_st_request_id_lo, ctx)
  else if state =? fastcgi_st_request_id_lo then
    if negb (c =? 1) then inr (NGX_ERROR, ctx) else inl (fastcgi_st_content_length_hi, ctx)
  else if state =? fastcgi_st_content_length_hi then
    inl (fastcgi_st_content_length_lo, ctx <| ctx_length := Z.shiftl c 8 |>)
  else if state =? fastcgi_st_content_length_lo then
    inl (fastcgi_st_padding_length, ctx <| ctx_length := Z.lor (ctx_length ctx) c |>)
  else if state =? fastcgi_st_padding_length then
    inl (fastcgi_st_reserved, ctx <| padding := c |>)
  else if state =? fastcgi_st_reserved then
    inr (NGX_OK, ctx <| recv := (recv ctx) <| rb_pos := p + 1 |> |> <| ctx_state := fastcgi_st_data |>)
  else inl (state, ctx).

(** Running out of bytes saves the state but leaves [b->pos] where it was. *)
Fixpoint fastcgi_record_loop (ctx : check_ctx_t) (l : bytes) (p state : Z) : ngx_rc * check_ctx_t :=
  match l with
  | [] => (NGX_AGAIN, ctx <| ctx_state := state |>)
  | c :: l' =>
    match fastcgi_record_char ctx state p c with
    | inl (state', ctx') => fastcgi_record_loop ctx' l' (p + 1) state'
    | inr r => r
    end
  end.

Definition ngx_http_upstream_check_fastcgi_process_record (ctx : check_ctx_t) : ngx_rc * check_ctx_t :=
  fastcgi_record_loop ctx (recv_bytes (recv ctx)) (rb_pos (recv ctx)) (ctx_state ctx).

(** States of the header parser. *)
Inductive fsw : Set :=
| fsw_start | fsw_name | fsw_space_before_value | fsw_value | fsw_space_after_value
| fsw_ignore_line | fsw_almost_done | fsw_header_almost_done.

Definition fsw_val (s : fsw) : Z :=
  match s with
  | fsw_start => 0 | fsw_name => 1 | fsw_space_before_value => 2 | fsw_value => 3
  | fsw_space_after_value => 4 | fsw_ignore_line => 5 | fsw_almost_done => 6
  | fsw_header_almost_done => 7
  end.

(** [lowcase[ch] != 0]: dash, digits and letters. *)
Definition lowcase_nz (c : Z) : bool :=
  (c =? ch "-") || ((ch "0" <=? c) && (c <=? ch "9"))
  || ((ch "A" <=? c) && (c <=? ch "Z")) || ((ch "a" <=? c) && (c <=? ch "z")).

(** The locals of the header parser. *)
Record fvars := mk_fvars { f_name_s : option Z; f_find : bool; f_status : ngx_http_status_t }.

#[export] Instance eta_fvars : Eta fvars := fun r => mk_fvars (f_name_s r) (f_find r) (f_status r).

Inductive fstep : Type :=
| FNext (s : fsw) (v : fvars)
| FReturn (rc : ngx_rc) (v : fvars)     (** [return NGX_ERROR] or [NGX_DONE] *)
| FDone (v : fvars)                     (** [goto done] / [goto header_done] *)
| FCrash.                               (** [ngx_strncasecmp(NULL, ...)] *)

(** [status->code * 10 + ch - '0'] *)
Definition add_digit (st : ngx_http_status_t) (c : Z) : ngx_http_status_t :=
  st <| code := u64 (code st * 10 + c - ch "0") |>.

Definition parse_fastcgi_char (d : bytes) (p : Z) (s : fsw) (v : fvars) (c : Z) : fstep :=
  match s with
  | fsw_start =>
    if c =? CR then FNext fsw_header_almost_done v
    else if c =? LF then FDone v
    else if lowcase_nz c then FNext fsw_name (v <| f_name_s := Some p |>)
    else if c =? 0 then FReturn NGX_ERROR v
    else FNext fsw_name v
  | fsw_name =>
    if lowcase_nz c then FNext fsw_name v
    else if c =? ch ":" then
      match f_name_s v with
      | None => FCrash
      | Some ns =>
        if ngx_strncasecmp (slice d ns p) (s2b "status") (Z.to_nat (p - ns)) =? 0
        then FNext fsw_space_before_value (v <| f_find := true |>)
        else FNext fsw_space_before_value v
      end
    else if c =? CR then FNext fsw_almost_done v
    else if c =? LF then FDone v
    else if c =? 0 then FReturn NGX_ERROR v
    else FNext fsw_name v
  | fsw_space_before_value =>
    if c =? ch " " then FNext fsw_space_before_value v
    else if c =? CR then FNext fsw_almost_done v
    else if c =? LF then FDone v
    else if c =? 0 then FReturn NGX_ERROR v
    else if f_find v then
      if (c <? ch "1") || (ch "9" <? c) then FReturn NGX_ERROR v
      else
        let st := add_digit (f_status v) c in
        let v' := v <| f_status := st <| count := u64 (count st + 1) |> |> in
        if negb (count st =? 0) then FReturn NGX_ERROR v' else FNext fsw_value v'
    else FNext fsw_value v
  | fsw_value =>
    let value_char v :=
      if c =? ch " " then FNext fsw_space_after_value v
      else if c =? CR then FNext fsw_almost_done v
      else if c =? LF then FDone v
      else if c =? 0 then FReturn NGX_ERROR v
      else FNext fsw_value v in
    if f_find v then
      if not_digit c then FReturn NGX_ERROR v
      else
        let st := add_digit (f_status v) c in
        let st := st <| count := u64 (count st + 1) |> in
        let v := v <| f_status := st |> in
        if count st =? 3 then FReturn NGX_DONE v else value_char v
    else value_char v
  | fsw_space_after_value =>
    if c =? ch " " then FNext fsw_space_after_value v
    else if c =? CR then FNext fsw_almost_done v
    else if c =? LF then FNext fsw_start v
    else if c =? 0 then FReturn NGX_ERROR v
    else FNext fsw_value v
  | fsw_ignore_line => if c =? LF then FNext fsw_start v else FNext fsw_ignore_line v
  | fsw_almost_done =>
    if c =? LF then FDone v
    else if c =? CR then FNext fsw_almost_done v
    else FReturn NGX_ERROR v
  | fsw_header_almost_done => if c =? LF then FDone v else FReturn NGX_ERROR v
  end.

Fixpoint parse_fastcgi_loop (ctx : check_ctx_t) (l : bytes) (p : Z) (s : fsw) (v : fvars)
    : option (ngx_rc * check_ctx_t) :=
  match l with
  | [] => Some (NGX_AGAIN, ctx <| status := f_status v |> <| recv := (recv ctx) <| rb_pos := p |> |>
                               <| ctx_state := fsw_val s |>)
  | c :: l' =>
    match parse_fastcgi_char (rb_data (recv ctx)) p s v c with
    | FNext s' v' => parse_fastcgi_loop ctx l' (p + 1) s' v'
    | FReturn rc v' => Some (rc, ctx <| status := f_status v' |>)
    | FDone v' => Some (NGX_OK, ctx <| status := f_status v' |>
                                    <| recv := (recv ctx) <| rb_pos := p + 1 |> |>
                                    <| ctx_state := fsw_val fsw_start |>)
    | FCrash => None
    end
  end.

(** Locals start afresh at every call; [count] and [code] are reset. *)
Definition ngx_http_upstream_check_parse_fastcgi_status (ctx : check_ctx_t)
    : option (ngx_rc * check_ctx_t) :=
  let st := (status ctx) <| count := 0 |> <| code := 0 |> in
  parse_fastcgi_loop ctx (recv_bytes (recv ctx)) (rb_pos (recv ctx)) fsw_start (mk_fvars None false st).

(** The inner [for (;;)]: header lines until something else than [NGX_OK].
    [fuel] bounds the number of lines. *)
Fixpoint fastcgi_lines (fuel : nat) (ctx : check_ctx_t) : option (ngx_rc * check_ctx_t) :=
  match fuel with
  | O => None
  | S fuel' =>
    '(rc, ctx) ← ngx_http_upstream_check_parse_fastcgi_status ctx;
    match rc with
    | NGX_OK => fastcgi_lines fuel' ctx
    | _ => Some (rc, ctx)
    end
  end.

(** After the inner loop: [done] is set by [NGX_DONE] only. *)
Definition fastcgi_decide (cf : ngx_upstream_check_srv_conf_t) (rc : ngx_rc) (ctx : check_ctx_t) : ngx_rc :=
  if bool_decide (rc = NGX_ERROR) then NGX_ERROR
  else if (status_alive cf =? 0) || negb (bool_decide (rc = NGX_DONE)) then NGX_OK
  else if Z.land (fst (code_class (code (status ctx)))) (status_alive cf) =? 0 then NGX_ERROR
  else NGX_OK.

(** The part of the outer loop for the content of a record. *)
Definition fastcgi_content (cf : ngx_upstream_check_srv_conf_t) (ctx : check_ctx_t) : option parse_out :=
  let b := recv ctx in
  if code (status ctx) =? NGX_HTTP_FASTCGI_STDERR then parse_ret NGX_ERROR ctx
  else if rb_pos b + ctx_length ctx <? rb_last b then
    let ctx := ctx <| recv := b <| rb_last := rb_pos b + ctx_length ctx |> |>
                   <| status := (status ctx) <| code := 0 |> |> in
    '(rc, ctx) ← fastcgi_lines (S (length (recv_bytes (recv ctx)))) ctx;
    parse_ret (fastcgi_decide cf rc ctx) ctx
  else parse_ret NGX_ERROR ctx.

(** The outer [for (;;)].  Only the padding state, which nothing sets,
    continues it. *)
Fixpoint fastcgi_loop (fuel : nat) (cf : ngx_upstream_check_srv_conf_t) (ctx : check_ctx_t)
    : option parse_out :=
  match fuel with
  | O => None
  | S fuel' =>
    let content ctx :=
      if ctx_state ctx =? fastcgi_st_padding then
        let b := recv ctx in
        if rb_pos b + padding ctx <? rb_last b then
          fastcgi_loop fuel' cf
            (ctx <| status := (status ctx) <| code := fastcgi_st_version |> |>
                 <| recv := b <| rb_pos := rb_pos b + padding ctx |> |>)
        else if rb_pos b + padding ctx =? rb_last b then
          parse_ret NGX_AGAIN
            (ctx <| status := (status ctx) <| code := fastcgi_st_version |> |>
                 <| recv := b <| rb_pos := rb_last b |> |>)
        else
          parse_ret NGX_AGAIN
            (ctx <| padding := u64 (padding ctx - (rb_last b - rb_pos b)) |>
                 <| recv := b <| rb_pos := rb_last b |> |>)
      else fastcgi_content cf ctx in
    if ctx_state ctx <? fastcgi_st_data then
      let '(rc, ctx) := ngx_http_upstream_check_fastcgi_process_record ctx in
      let type := code (status ctx) in
      match rc with
      | NGX_AGAIN => parse_ret NGX_AGAIN ctx
      | NGX_ERROR => parse_ret NGX_ERROR ctx
      | _ =>
        if negb (type =? NGX_HTTP_FASTCGI_STDOUT) && negb (type =? NGX_HTTP_FASTCGI_STDERR)
        then parse_ret NGX_ERROR ctx
        else if (type =? NGX_HTTP_FASTCGI_STDOUT) && (ctx_length ctx =? 0)
        then parse_ret NGX_ERROR ctx
        else content ctx
      end
    else content ctx
  end.

Definition ngx_http_upstream_check_fastcgi_parse (cf : ngx_upstream_check_srv_conf_t)
    (ctx : check_ctx_t) : option parse_out :=
  if rb_last (recv ctx) - rb_pos (recv ctx) <=? 0 then parse_ret NGX_AGAIN ctx
  else fastcgi_loop (S (length (recv_bytes (recv ctx)))) cf ctx.

(** ** The function pointers of the check type tables *)

Definition run_init (i : packet_init) : ngx_upstream_check_srv_conf_t -> check_ctx_t -> ngx_rc * check_ctx_t :=
  match i with
  | http_init => ngx_http_upstream_check_http_init
  | ssl_hello_init => ngx_http_upstream_check_ssl_hello_init
  | mysql_init => ngx_http_upstream_check_mysql_init
  | ajp_init => ngx_http_upstream_check_ajp_init
  end.

Definition run_reinit (i : packet_clean) : check_ctx_t -> check_ctx_t :=
  match i with
  | http_reinit => ngx_http_upstream_check_http_reinit
  | ssl_hello_reinit => ngx_http_upstream_check_ssl_hello_reinit
  | mysql_reinit => ngx_http_upstream_check_mysql_reinit
  | ajp_reinit => ngx_http_upstream_check_ajp_reinit
  end.

Definition run_parse (regex_exec : ngx_regex_t -> bytes -> Z) (garbage : Z) (i : packet_parse)
    (cf : ngx_upstream_check_srv_conf_t) (ctx : check_ctx_t) : option parse_out :=
  match i with
  | http_parse => ngx_http_upstream_check_http_parse regex_exec garbage cf ctx
  | fastcgi_parse => ngx_http_upstream_check_fastcgi_parse cf ctx
  | ssl_hello_parse => ngx_http_upstream_check_ssl_hello_parse ctx
  | mysql_parse => ngx_http_upstream_check_mysql_parse ctx
  | ajp_parse => ngx_http_upstream_check_ajp_parse ctx
  end.

(** The stream module's copies of the HTTP functions. *)
Definition ngx_stream_upstream_check_http_init := ngx_http_upstream_check_http_init.
Definition ngx_stream_upstream_check_http_reinit := ngx_http_upstream_check_http_reinit.
Definition ngx_stream_upstream_check_http_parse := ngx_http_upstream_check_http_parse.

(** ** Facts about buffers *)

Lemma length_store d off l :
  0 <= off -> off + blen l <= blen d -> length (store d off l) = length d.
Proof.
  unfold store, blen. intros. rewrite !length_app, length_take, length_drop. lia.
Qed.

Lemma length_slice d a b : 0 <= a <= b -> b <= blen d -> blen (slice d a b) = b - a.
Proof. unfold slice, blen. intros. rewrite length_take, length_drop. lia. Qed.

Lemma cstr_some l : In 0 l -> exists s, cstr l = Some s.
Proof.
  induction l as [|c l IH]; [done|]. cbn. intros Hin.
  destruct (Z.eqb_spec c 0); [by eauto|].
  destruct Hin as [?|Hin]; [done|]. destruct (IH Hin) as [s ->]. by eexists.
Qed.

Lemma store_in_drop d s e :
  0 <= s <= e -> e < blen d -> In 0 (drop (Z.to_nat s) (store d e [0])).
Proof.
  intros. unfold store, blen in *. rewrite drop_app, length_take. apply in_or_app. right.
  replace (Z.to_nat s - Z.to_nat e `min` length d)%nat with 0%nat by lia. by left.
Qed.

(** ** No undefined behaviour in the HTTP parser *)

(** The buffer pointers are ordered and inside what has been stored. *)
Definition recv_ok (b : recv_buf) : Prop :=
  0 <= rb_pos b <= rb_last b /\ rb_last b <= blen (rb_data b).

(** The context between two calls of the parser, as long as the receive
    buffer has not been replaced: the saved state belongs to the block. *)
Definition http_ctx_ok (ctx : check_ctx_t) : Prop :=
  recv_ok (recv ctx) /\
  exists blk s, rb_blk (recv ctx) = Some blk /\ sw_of_Z (ctx_state ctx) = Some s
    /\ parser_inv blk 0 (rb_pos (recv ctx)) s (status ctx).

Lemma find_body_len_some garbage d s e :
  0 <= s <= e -> e < blen d -> exists r, find_body_len garbage (store d e [0]) s e = Some r.
Proof.
  intros Hs He. unfold find_body_len.
  destruct (cstr_some _ (store_in_drop d s e Hs He)) as [str ->]. cbn.
  repeat case_match; by eexists.
Qed.

Lemma http_decide_some regex_exec cf code_n f b r :
  expect_body_regex cf <> Null -> exists rc, http_decide regex_exec cf code_n f b r = Some rc
    /\ rc ∈ [NGX_OK; NGX_AGAIN; NGX_ERROR].
Proof.
  intros Hn. unfold http_decide. repeat case_match; try done; eexists; split; try done;
    rewrite !elem_of_cons; auto.
Qed.

Section HttpSafe.
Context (regex_exec : ngx_regex_t -> bytes -> Z) (garbage : Z).
Abbreviation parse := (ngx_http_upstream_check_http_parse regex_exec garbage).

(** The HTTP response parser is memory safe while the receive buffer is
    not replaced: on a context it left behind ([http_ctx_ok]) it returns (no
    null pointer, no scan past the block), and a context that waits for more
    is again well formed. *)
Lemma http_parse_ok cf ctx :
  http_ctx_ok ctx -> expect_body_regex cf <> Null ->
  exists out, parse cf ctx = Some out
    /\ po_rc out ∈ [NGX_OK; NGX_AGAIN; NGX_ERROR]
    /\ (po_rc out = NGX_AGAIN -> http_ctx_ok (po_ctx out)).
Proof.
  intros [[Hpos Hlast] (blk & s & Eb & Es & Hinv)] Hre.
  unfold ngx_http_upstream_check_http_parse.
  destruct (Z.ltb_spec 0 (rb_last (recv ctx) - rb_pos (recv ctx))) as [Hlt|Hlt]; cycle 1.
  { eexists; split; [done|]. cbn. split; [set_solver|].
    intros _. split; [done|]. by exists blk, s. }
  rewrite Eb. cbn [mbind option_bind]. rewrite Es. cbn [mbind option_bind].
  destruct (parse_status_line_inv blk 0 (recv_bytes (recv ctx)) (rb_pos (recv ctx)) s
    (status ctx) Hinv) as (Hrc & Hi & Hp & Hok).
  unfold recv_bytes in Hp. rewrite length_slice in Hp by lia.
  fold (recv_bytes (recv ctx)) in Hp.
  set (r := ngx_upstream_check_http_parse_status_line _ _ _ _ _) in *. clearbody r.
  assert (Hpos' : pr_rc r <> NGX_ERROR -> 0 <= pr_pos r)
    by (intros Hne; apply Hi, parser_inv_pos in Hne; lia).
  destruct Hrc as [E|[E|E]]; rewrite E in *; cbn -[recv_bytes store].
  - destruct Hok as (o & e & -> & -> & Ho & He & Hc); [done|]. cbn -[recv_bytes store].
    rewrite !Nat.eqb_refl. cbn -[recv_bytes store].
    destruct (code_class (code (pr_status r))) as [code_n err] eqn:Ecc. cbn -[recv_bytes store].
    destruct (find_body_len_some garbage (rb_data (recv ctx)) o e) as [[f bl] ->]; [lia..|].
    cbn -[recv_bytes store].
    set (body := recv_bytes _).
    destruct (http_decide_some regex_exec cf code_n f bl body Hre) as (rc & Ed & Hin).
    rewrite Ed. eexists; split; [done|]. cbn -[store]. split; [set_solver|].
    intros ->. split.
    + unfold recv_ok. cbn -[store]. unfold blen. rewrite length_store; unfold blen in *; cbn; lia.
    + exists blk, (pr_state r). split; [done|]. split; [apply sw_of_val|]. by apply Hi.
  - eexists; split; [done|]. cbn. split; [set_solver|]. intros _.
    split; [unfold recv_ok; cbn; specialize (Hpos' ltac:(done)); lia|].
    exists blk, (pr_state r). split; [done|]. split; [apply sw_of_val|]. by apply Hi.
  - eexists; split; [done|]. cbn. split; [set_solver|]. done.
Qed.

(** What the parser leaves alone. *)
Lemma http_parse_frame cf ctx out :
  parse cf ctx = Some out ->
  let ctx' := po_ctx out in
  send_pos ctx' = send_pos ctx /\ send_last ctx' = send_last ctx /\ send_end ctx' = send_end ctx
  /\ rb_blk (recv ctx') = rb_blk (recv ctx) /\ rb_end (recv ctx') = rb_end (recv ctx)
  /\ rb_last (recv ctx') = rb_last (recv ctx).
Proof.
  unfold ngx_http_upstream_check_http_parse, parse_ret.
  destruct (0 <? _); [|by intros [= <-]].
  destruct (rb_blk (recv ctx)) as [blk|] eqn:Eb; [|done]. cbn [mbind option_bind].
  destruct (sw_of_Z (ctx_state ctx)) as [s|]; [|done]. cbn [mbind option_bind].
  set (r := ngx_upstream_check_http_parse_status_line _ _ _ _ _). clearbody r. cbn -[recv_bytes store].
  destruct (code_class (code (pr_status r))) as [code_n err].
  destruct (pr_rc r); try (intros [= <-]; cbn; rewrite Eb; done).
  all: destruct (st_start (pr_status r)) as [[b1 o]|]; [|done]; cbn -[recv_bytes store].
  all: destruct (st_end (pr_status r)) as [[b2 e]|]; [|done]; cbn -[recv_bytes store].
  all: destruct (negb _); [done|].
  all: destruct (find_body_len _ _ _ _) as [[f bl]|]; [|done]; cbn -[recv_bytes store].
  all: destruct (http_decide _ _ _ _ _ _); [|done]; cbn -[recv_bytes store].
  all: intros [= <-]; cbn -[store]; rewrite Eb; done.
Qed.

End HttpSafe.

(** ** What the HTTP check decides on a whole response *)

(** A context right after [http_init], the first allocation and the receipt
    of [d]. *)
Definition received (cf : ngx_upstream_check_srv_conf_t) (d : bytes) (cap : Z) : check_ctx_t :=
  (snd (ngx_http_upstream_check_http_init cf ctx_zero))
    <| recv := mk_recv (Some 0%nat) d 0 (blen d) cap |>.

Lemma cstr_app a b : nul_free a -> cstr (a ++ 0 :: b) = Some a.
Proof.
  induction a as [|c a IH]; intros Ha; [done|].
  apply Forall_cons in Ha as [Hc Ha]. cbn [app cstr].
  destruct (Z.eqb_spec c 0); [lia|]. by rewrite IH.
Qed.

Lemma slice_app_r a b x : slice (a ++ b) (blen a) x = take (Z.to_nat (x - blen a)) b.
Proof. unfold slice, blen. rewrite Nat2Z.id, drop_app_length. done. Qed.

Lemma slice_mid a b c : slice (a ++ b ++ c) (blen a) (blen a + blen b) = b.
Proof.
  rewrite slice_app_r. unfold blen.
  replace (Z.to_nat (Z.of_nat (length a) + Z.of_nat (length b) - Z.of_nat (length a)))
    with (length b) by lia. apply take_app_length.
Qed.

Lemma store_mid a c b x : store (a ++ c :: b) (blen a) [x] = a ++ x :: b.
Proof.
  unfold store, blen. rewrite Nat2Z.id, take_app_length. cbn [app length].
  rewrite Nat.add_1_r. replace (S (length a)) with (length (a ++ [c])) by (rewrite length_app; cbn; lia).
  replace (a ++ c :: b) with ((a ++ [c]) ++ b) by (by rewrite <- app_assoc).
  by rewrite drop_app_length.
Qed.

Lemma recv_bytes_all blk d cap : recv_bytes (mk_recv blk d 0 (blen d) cap) = d.
Proof. unfold recv_bytes, slice, blen. cbn. apply take_ge. lia. Qed.

Lemma u64_small_blen l : blen l < 2 ^ 64 -> u64 (blen l) = blen l.
Proof. intros. apply u64_small. unfold in_u64. pose proof (blen_nonneg l). lia. Qed.

Lemma find_body_len_total garbage a str b :
  nul_free str ->
  exists r, find_body_len garbage (a ++ str ++ 0 :: b) (blen a) (blen a + blen str) = Some r.
Proof.
  intros Hnul. unfold find_body_len.
  replace (drop (Z.to_nat (blen a)) (a ++ str ++ 0 :: b)) with (str ++ 0 :: b)
    by (unfold blen; rewrite Nat2Z.id, drop_app_length; done).
  rewrite cstr_app by done. cbn. repeat case_match; by eexists.
Qed.

(** The scan finds the value of a Content-Length header that is the first
    mention of the name in the head. *)
Lemma find_body_len_header garbage a pre ds post b :
  nul_free (pre ++ content_length_hdr ++ s2b " " ++ ds ++ [CR] ++ post) ->
  ngx_strstr (pre ++ content_length_hdr) content_length_hdr = Some (length pre) ->
  ds <> [] -> Forall is_digit ds -> dec_value ds <= NGX_MAX_INT_T_VALUE -> blen ds < 2 ^ 63 ->
  let str := pre ++ content_length_hdr ++ s2b " " ++ ds ++ [CR] ++ post in
  find_body_len garbage (a ++ str ++ 0 :: b) (blen a) (blen a + blen str) = Some (1, dec_value ds).
Proof.
  intros Hnul Hfirst Hne Hds Hmax Hlen str. unfold find_body_len.
  replace (drop (Z.to_nat (blen a)) (a ++ str ++ 0 :: b)) with (str ++ 0 :: b)
    by (unfold blen; rewrite Nat2Z.id, drop_app_length; done).
  rewrite cstr_app by done. cbn [mbind option_bind].
  unfold str at 1. rewrite ngx_strstr_app by done.
  set (rest := s2b " " ++ ds ++ [CR] ++ post) in *.
  replace (blen a + Z.of_nat (length pre)) with (blen (a ++ pre)) by (rewrite blen_app; done).
  replace (a ++ str ++ 0 :: b) with ((a ++ pre) ++ (content_length_hdr ++ rest) ++ 0 :: b)
    by (unfold str; by rewrite <- !app_assoc).
  replace (blen a + blen str) with (blen (a ++ pre) + blen (content_length_hdr ++ rest))
    by (unfold str; rewrite !blen_app; lia).
  rewrite slice_mid. unfold rest at 1.
  replace (content_length_hdr ++ s2b " " ++ ds ++ [CR] ++ post)
    with ((content_length_hdr ++ s2b " " ++ ds) ++ CR :: post) by (by rewrite <- !app_assoc).
  rewrite ngx_strlchr_app; cycle 1.
  { rewrite !not_elem_of_app. split_and!; [by compute_done|by compute_done|].
    intros Hin. rewrite Forall_forall in Hds. specialize (Hds _ Hin). by destruct Hds. }
  replace (Z.of_nat (length (content_length_hdr ++ s2b " " ++ ds)) - content_length_skip)
    with (blen ds) by (rewrite !length_app; unfold content_length_skip, blen;
        change (length content_length_hdr) with 15%nat; change (length (s2b " ")) with 1%nat; lia).
  rewrite u64_small_blen by lia.
  replace (slice ((a ++ pre) ++ (content_length_hdr ++ rest) ++ 0 :: b)
    (blen (a ++ pre) + content_length_skip) (blen (a ++ pre) + blen (content_length_hdr ++ rest)))
    with (ds ++ CR :: post); cycle 1.
  { replace ((a ++ pre) ++ (content_length_hdr ++ rest) ++ 0 :: b)
      with ((a ++ pre ++ content_length_hdr ++ s2b " ") ++ (ds ++ CR :: post) ++ 0 :: b)
      by (unfold rest; by rewrite <- !app_assoc).
    replace (blen (a ++ pre) + content_length_skip) with (blen (a ++ pre ++ content_length_hdr ++ s2b " "))
      by (rewrite !blen_app; unfold content_length_skip; change (blen content_length_hdr) with 15;
          change (blen (s2b " ")) with 1; lia).
    replace (blen (a ++ pre) + blen (content_length_hdr ++ rest))
      with (blen (a ++ pre ++ content_length_hdr ++ s2b " ") + blen (ds ++ CR :: post))
      by (unfold rest; rewrite !blen_app, !blen_cons, blen_nil; lia).
    by rewrite slice_mid. }
  rewrite ngx_atoi_digits by done. f_equal. f_equal. apply u64_small. unfold in_u64.
  pose proof (dec_from_ge 0 ds ltac:(lia) Hds). unfold dec_value in *.
  unfold NGX_MAX_INT_T_VALUE in Hmax. lia.
Qed.

(** The head up to the code, and from the code to the empty line. *)
Definition head_pre (h : resp_head) : bytes :=
  s2b "HTTP/" ++ rh_major h ++ s2b "." ++ rh_minor h ++ s2b " ".

Definition head_str (h : resp_head) : bytes :=
  [ch "0" + rh_d1 h; ch "0" + rh_d2 h; ch "0" + rh_d3 h] ++ s2b " " ++ rh_text h ++ [CR; LF]
  ++ render_headers (rh_headers h).

Definition head_code (h : resp_head) : Z := 100 * rh_d1 h + 10 * rh_d2 h + rh_d3 h.

Lemma render_head_split h : render_head h = head_pre h ++ head_str h ++ [CR; LF].
Proof. unfold render_head, head_pre, head_str. by rewrite <- !app_assoc. Qed.

Lemma blen_head_pre h : blen (head_pre h) = code_offset h.
Proof.
  unfold head_pre, code_offset. rewrite !blen_app. change (blen (s2b "HTTP/")) with 5.
  change (blen (s2b ".")) with 1. change (blen (s2b " ")) with 1. lia.
Qed.

(** Is a status code expected?  Bit [k - 1] of the mask stands for the codes
    [kxx], for [k] from 2 to 5, and bit 15 for all others. *)
Definition expected_code (alive code : Z) : bool :=
  Z.testbit alive (if (2 <=? code / 100) && (code / 100 <=? 5) then code / 100 - 1 else 15).

Lemma land_bit n a : 0 <= n -> (Z.land (2 ^ n) a =? 0) = negb (Z.testbit a n).
Proof.
  intros Hn. destruct (Z.testbit a n) eqn:E; cbn [negb].
  - apply Z.eqb_neq. intros H. apply (f_equal (fun x => Z.testbit x n)) in H.
    rewrite Z.land_spec, Z.pow2_bits_true, E, Z.bits_0 in H by done. discriminate.
  - apply Z.eqb_eq, Z.bits_inj'. intros i Hi. rewrite Z.land_spec, Z.bits_0, Z.pow2_bits_eqb by done.
    destruct (Z.eqb_spec n i) as [->|]; [by rewrite E|done].
Qed.

(** The table of the code is this test. *)
Lemma code_class_expected alive code :
  (Z.land (fst (code_class code)) alive =? 0) = negb (expected_code alive code).
Proof.
  assert (Hd : forall k, code / 100 = k <-> 100 * k <= code < 100 * k + 100).
  { intros k. pose proof (Z.div_mod code 100 ltac:(lia)). pose proof (Z.mod_pos_bound code 100 ltac:(lia)). lia. }
  unfold expected_code, code_class.
  destruct ((200 <=? code) && (code <? 300)) eqn:E2; [rewrite (proj2 (Hd 2)) by lia; by apply (land_bit 1)|].
  destruct ((300 <=? code) && (code <? 400)) eqn:E3; [rewrite (proj2 (Hd 3)) by lia; by apply (land_bit 2)|].
  destruct ((400 <=? code) && (code <? 500)) eqn:E4; [rewrite (proj2 (Hd 4)) by lia; by apply (land_bit 3)|].
  destruct ((500 <=? code) && (code <? 600)) eqn:E5; [rewrite (proj2 (Hd 5)) by lia; by apply (land_bit 4)|].
  destruct ((2 <=? code / 100) && (code / 100 <=? 5)) eqn:E; [|by apply (land_bit 15)].
  pose proof (proj1 (Hd _) eq_refl). lia.
Qed.

Section HttpVerdict.
Context (regex_exec : ngx_regex_t -> bytes -> Z) (garbage : Z).

(** Parsing a received response is [find_body_len] and [http_decide] on its
    parts. *)
Lemma http_parse_received cf h body cap :
  head_ok h = true ->
  let d := head_pre h ++ head_str h ++ 0 :: LF :: body in
  let '(code_n, error) := code_class (head_code h) in
  exists ctx,
    ngx_http_upstream_check_http_parse regex_exec garbage cf (received cf (render_head h ++ body) cap)
    = ('(f, bl) ← find_body_len garbage d (blen (head_pre h)) (blen (head_pre h) + blen (head_str h));
       rc ← http_decide regex_exec cf code_n f bl body;
       Some (mk_out rc ctx error))
    /\ recv_bytes (recv ctx) = body /\ code (status ctx) = head_code h.
Proof.
  intros Hh d. destruct (code_class (head_code h)) as [code_n error] eqn:Ecc.
  assert (E0 : recv (received cf (render_head h ++ body) cap)
    = mk_recv (Some 0%nat) (render_head h ++ body) 0 (blen (render_head h ++ body)) cap) by done.
  assert (E1 : ctx_state (received cf (render_head h ++ body) cap) = 0) by done.
  assert (E2 : status (received cf (render_head h ++ body) cap) = status_zero) by done.
  generalize dependent (received cf (render_head h ++ body) cap). intros ctx0 E0 E1 E2.
  unfold ngx_http_upstream_check_http_parse. rewrite E0, E1, E2. cbn [rb_last rb_pos rb_blk mbind option_bind].
  assert (Hlen : 0 < blen (render_head h ++ body)).
  { rewrite render_head_split, !blen_app. pose proof (blen_nonneg (head_pre h)).
    pose proof (blen_nonneg (head_str h)). pose proof (blen_nonneg body).
    change (blen [CR; LF]) with 2. lia. }
  rewrite (proj2 (Z.ltb_lt 0 _)) by lia. change (sw_of_Z 0) with (Some sw_start). cbn [mbind option_bind].
  rewrite recv_bytes_all, parse_accepts by done. fold (head_code h).
  cbn [pr_rc pr_status pr_state pr_pos upd eta_rec eta_ctx eta_recv status code st_start st_end recv rb_data
       mbind option_bind].
  rewrite Ecc. cbn [mbind option_bind Nat.eqb andb negb].
  replace (0 + blen (render_head h) - 2) with (blen (head_pre h) + blen (head_str h))
    by (rewrite render_head_split, !blen_app; change (blen [CR; LF]) with 2; lia).
  replace (0 + code_offset h) with (blen (head_pre h)) by (rewrite blen_head_pre; lia).
  assert (Hd : store (render_head h ++ body) (blen (head_pre h) + blen (head_str h)) [0] = d).
  { rewrite render_head_split, <- blen_app, <- !app_assoc.
    change (head_str h ++ [CR; LF] ++ body) with (head_str h ++ CR :: LF :: body).
    rewrite app_assoc, store_mid. unfold d. by rewrite <- app_assoc. }
  rewrite Hd.
  assert (Hbody : slice d (0 + blen (render_head h)) (blen (render_head h ++ body)) = body).
  { unfold d. replace (head_pre h ++ head_str h ++ 0 :: LF :: body)
      with ((head_pre h ++ head_str h ++ [0; LF]) ++ body ++ []) by (rewrite app_nil_r, <- !app_assoc; done).
    rewrite blen_app. replace (blen (render_head h)) with (blen (head_pre h ++ head_str h ++ [0; LF]))
      by (rewrite render_head_split, !blen_app; done).
    apply slice_mid. }
  eexists. split; [|split].
  - unfold recv_bytes at 1. cbn [rb_data rb_pos rb_last]. rewrite Hbody. reflexivity.
  - unfold recv_bytes. cbn [recv rb_data rb_pos rb_last]. exact Hbody.
  - reflexivity.
Qed.

(** C30: verdict of an HTTP check without a body condition: on any
    well-formed response, without a NUL byte in its head, the parser answers at
    once, [NGX_OK] when the hundreds
    of the status code are among the expected ones ([expected_code]: the classes
    2xx to 5xx are bits 1 to 4 of the configured mask, all other codes are bit
    15) and [NGX_ERROR] otherwise, and it asks for the connection to be closed
    exactly when the code is not 2xx or 3xx. *)
Theorem http_parse_verdict cf h body cap :
  head_ok h = true -> expect_body_regex cf = Unset ->
  nul_free (head_str h) ->
  exists ctx,
    ngx_http_upstream_check_http_parse regex_exec garbage cf (received cf (render_head h ++ body) cap)
    = Some (mk_out (if expected_code (status_alive cf) (head_code h) then NGX_OK else NGX_ERROR)
                   ctx (negb ((200 <=? head_code h) && (head_code h <? 400)))).
Proof.
  intros Hh Hre Hnul. pose proof (http_parse_received cf h body cap Hh) as H. cbn zeta in H.
  pose proof (code_class_expected (status_alive cf) (head_code h)) as Hx.
  destruct (code_class (head_code h)) as [code_n error] eqn:Ecc. destruct H as (ctx & -> & _).
  destruct (find_body_len_total garbage (head_pre h) (head_str h) (LF :: body) Hnul) as [[f bl] ->].
  cbn [mbind option_bind]. unfold http_decide. rewrite Hre. exists ctx. cbn [fst] in Hx. rewrite Hx.
  replace (negb ((200 <=? _) && _)) with error; [by destruct (expected_code _ _)|].
  revert Ecc. unfold code_class. repeat case_match; intros [= <- <-]; lia.
Qed.

(** verdict of an HTTP check with [check_http_expect_body].  When the
    head carries a Content-Length that is the first mention of that name and
    its class is expected, the parser waits while the body is shorter than
    announced, then returns [NGX_OK] exactly when the expression matches. *)
Theorem http_parse_body_verdict cf re h body cap pre ds post :
  head_ok h = true -> expect_body_regex cf = Ptr re ->
  nul_free (head_str h) ->
  head_str h = pre ++ content_length_hdr ++ s2b " " ++ ds ++ [CR] ++ post ->
  ngx_strstr (pre ++ content_length_hdr) content_length_hdr = Some (length pre) ->
  ds <> [] -> Forall is_digit ds -> dec_value ds <= NGX_MAX_INT_T_VALUE -> blen ds < 2 ^ 63 ->
  Z.land (fst (code_class (head_code h))) (status_alive cf) <> 0 ->
  exists out,
    ngx_http_upstream_check_http_parse regex_exec garbage cf (received cf (render_head h ++ body) cap)
    = Some out
    /\ po_rc out = (if blen body <? dec_value ds then NGX_AGAIN
                    else if regex_exec re body =? NGX_REGEX_NO_MATCHED then NGX_ERROR else NGX_OK).
Proof.
  intros Hh Hre Hnul Hstr Hfirst Hne Hds Hmax Hlen Hcls.
  pose proof (http_parse_received cf h body cap Hh) as H. cbn zeta in H.
  destruct (code_class (head_code h)) as [code_n error] eqn:Ecc. destruct H as (ctx & -> & _).
  rewrite Hstr in Hnul.
  pose proof (find_body_len_header garbage (head_pre h) pre ds post (LF :: body)
    Hnul Hfirst Hne Hds Hmax Hlen) as E. cbn zeta in E. rewrite <- Hstr in E. rewrite E.
  cbn [mbind option_bind]. unfold http_decide. rewrite Hre. cbn in Hcls.
  destruct (Z.eqb_spec (Z.land code_n (status_alive cf)) 0); [done|].
  rewrite Z.eqb_refl. cbn [andb]. destruct (blen body <? dec_value ds); [by eexists|].
  destruct (regex_exec re body =? NGX_REGEX_NO_MATCHED); by eexists.
Qed.

End HttpVerdict.

(** A configuration and a response to evaluate the parser on. *)
Definition ex_cf : ngx_upstream_check_srv_conf_t :=
  mk_srv_conf 0 5 2 30000 1000 1 Unset (Some default_http_send) default_http_alive Unset Unset 1.

Definition ex_head (d1 : Z) : resp_head :=
  mk_head (s2b "1") (s2b "1") d1 0 0 (s2b "OK") [(ch "C", s2b "ontent-Length: 4")].

(** A matcher for the pattern given literally. *)
Definition ex_regex (r : ngx_regex_t) (s : bytes) : Z :=
  match ngx_strstr s (rx_pattern r) with Some _ => 1 | None => NGX_REGEX_NO_MATCHED end.

Lemma http_parse_verdict_witness :
  exists ctx, ngx_http_upstream_check_http_parse ex_regex 7 ex_cf
                (received ex_cf (render_head (ex_head 5) ++ s2b "pong") 2048)
              = Some (mk_out NGX_ERROR ctx true).
Proof.
  apply (http_parse_verdict ex_regex 7 ex_cf (ex_head 5) (s2b "pong") 2048);
    [reflexivity|reflexivity|apply (bool_decide_unpack _); vm_compute; exact I].
Defined.

Lemma http_parse_body_verdict_witness :
  let cf := ex_cf <| expect_body_regex := Ptr (mk_regex (s2b "pong") false) |> in
  let h := ex_head 2 in
  let answer b := po_rc <$> ngx_http_upstream_check_http_parse ex_regex 7 cf
                              (received cf (render_head h ++ b) 2048) in
  answer (s2b "pon") = Some NGX_AGAIN /\ answer (s2b "pong") = Some NGX_OK
  /\ answer (s2b "ping") = Some NGX_ERROR.
Proof.
  intros cf h answer.
  assert (H : forall b, answer b = Some (if blen b <? 4 then NGX_AGAIN
    else if ex_regex (mk_regex (s2b "pong") false) b =? NGX_REGEX_NO_MATCHED then NGX_ERROR else NGX_OK)).
  { intros b. unfold answer.
    edestruct (http_parse_body_verdict ex_regex 7 cf (mk_regex (s2b "pong") false) h b 2048
      (s2b "200 OK" ++ [CR; LF]) (s2b "4") [LF]) as (out & -> & E).
    1,2,4,5: reflexivity.
    1,3: apply (bool_decide_unpack _); vm_compute; exact I.
    1-4: vm_compute; discriminate || reflexivity.
    cbn. by rewrite E. }
  split_and!; rewrite H; reflexivity.
Defined.
