(* ===== verification/FastCgi.v ===== *)
(** * The FastCGI check

    What [ngx_http_upstream_check_fastcgi_parse] decides on a response record
    that has been received whole, and three inputs it handles badly. *)

From S2P Require Import Prelude NgxString StatusLine CheckTypes CheckProto.

(** ** Response records *)

(** A header line: name and value. *)
Definition fc_header : Type := bytes * bytes.

Definition value_char (c : Z) : bool := negb ((c =? CR) || (c =? LF) || (c =? 0)).

(** A header that is not taken for the status: its name does not match
    "status" up to its own length. *)
Definition fc_header_ok (h : fc_header) : bool :=
  negb (bool_decide (fst h = [])) && forallb lowcase_nz (fst h) && forallb value_char (snd h)
  && negb (ngx_strncasecmp (fst h) (s2b "status") (length (fst h)) =? 0).

Definition fc_line (h : fc_header) : bytes := fst h ++ [ch ":"] ++ snd h ++ [CR; LF].

Definition fc_lines (hs : list fc_header) : bytes := flat_map fc_line hs.

Definition fc_status (d1 d2 d3 : Z) : bytes :=
  s2b "Status: " ++ [ch "0" + d1; ch "0" + d2; ch "0" + d3].

(** The header of a STDOUT record of request 1. *)
Definition fc_record_header (len pad : Z) : bytes := [1; 6; 0; 1; len / 256; len mod 256; pad; 0].

Lemma fc_line_app h l : fc_line h ++ l = fst h ++ ch ":" :: snd h ++ CR :: LF :: l.
Proof. unfold fc_line. rewrite <- app_assoc. cbn [app]. by rewrite <- app_assoc. Qed.

Lemma blen_fc_line h : blen (fc_line h) = blen (fst h) + blen (snd h) + 3.
Proof.
  unfold fc_line. rewrite !blen_app. change (blen [CR; LF]) with 2. change (blen [ch ":"]) with 1. lia.
Qed.

Lemma length_fc_lines hs : (length hs <= length (fc_lines hs))%nat.
Proof.
  induction hs as [|h hs IH]; [done|]. cbn [fc_lines flat_map]. fold (fc_lines hs).
  rewrite length_app. pose proof (blen_fc_line h). unfold blen in *. cbn [length]. lia.
Qed.

Section Lines.
Context (ctx : check_ctx_t).
Abbreviation loop := (parse_fastcgi_loop ctx).

Lemma fc_next c l p s v s' v' :
  parse_fastcgi_char (rb_data (recv ctx)) p s v c = FNext s' v' -> loop (c :: l) p s v = loop l (p + 1) s' v'.
Proof. intros E. cbn. by rewrite E. Qed.

Lemma fc_name ns l p v :
  forallb lowcase_nz ns = true -> loop (ns ++ l) p fsw_name v = loop l (p + blen ns) fsw_name v.
Proof.
  revert p. induction ns as [|c ns IH]; intros p; cbn [forallb app].
  { rewrite blen_nil. by rewrite Z.add_0_r. }
  intros [Hc Hn]%andb_true_iff. rewrite blen_cons.
  erewrite fc_next; [|unfold parse_fastcgi_char; rewrite Hc; reflexivity].
  rewrite IH by done. f_equal. lia.
Qed.

(** The states a value is read in when it is not the status. *)
Definition in_value (s : fsw) : bool :=
  match s with fsw_space_before_value | fsw_value | fsw_space_after_value => true | _ => false end.

Lemma fc_value val l p s v :
  in_value s = true -> f_find v = false -> forallb value_char val = true ->
  loop (val ++ CR :: LF :: l) p s v
  = Some (NGX_OK, ctx <| status := f_status v |>
                      <| recv := (recv ctx) <| rb_pos := p + blen val + 2 |> |>
                      <| ctx_state := fsw_val fsw_start |>).
Proof.
  intros Hs Hf. revert p s Hs. induction val as [|c val IH]; intros p s Hs; cbn [forallb app].
  - intros _. rewrite blen_nil.
    assert (E : parse_fastcgi_char (rb_data (recv ctx)) p s v CR = FNext fsw_almost_done v)
      by (destruct s; try done; cbn; by rewrite Hf).
    rewrite (fc_next _ _ _ _ _ _ _ E). cbn [parse_fastcgi_loop parse_fastcgi_char].
    change (LF =? LF) with true. cbn iota. by replace (p + 1 + 1) with (p + 0 + 2) by lia.
  - intros [Hc Hv]%andb_true_iff. rewrite blen_cons.
    assert (E : exists s', parse_fastcgi_char (rb_data (recv ctx)) p s v c = FNext s' v /\ in_value s' = true).
    { unfold value_char in Hc. apply negb_true_iff in Hc.
      apply orb_false_iff in Hc as [[H1 H2]%orb_false_iff H3].
      destruct s; try done; cbn [parse_fastcgi_char]; rewrite ?Hf, ?H1, ?H2, ?H3;
        destruct (c =? ch " "); by eexists. }
    destruct E as (s' & E & Hs'). rewrite (fc_next _ _ _ _ _ _ _ E), IH by done.
    by replace (p + 1 + blen val + 2) with (p + (1 + blen val) + 2) by lia.
Qed.

(** The first byte of a name. *)
Lemma fc_start c l p st :
  lowcase_nz c = true ->
  loop (c :: l) p fsw_start (mk_fvars None false st)
  = loop l (p + 1) fsw_name (mk_fvars (Some p) false st).
Proof.
  intros Hc. apply fc_next. cbn [parse_fastcgi_char]. rewrite Hc.
  assert (c <> CR /\ c <> LF) as [H1 H2].
  { split; intros ->; by vm_compute in Hc. }
  by rewrite (proj2 (Z.eqb_neq _ _) H1), (proj2 (Z.eqb_neq _ _) H2).
Qed.

Lemma fc_colon ns l p st :
  lowcase_nz (ch ":") = false /\
  loop (ch ":" :: l) p fsw_name (mk_fvars (Some ns) false st)
  = loop l (p + 1) fsw_space_before_value
      (mk_fvars (Some ns)
         (ngx_strncasecmp (slice (rb_data (recv ctx)) ns p) (s2b "status") (Z.to_nat (p - ns)) =? 0) st).
Proof.
  split; [done|]. cbn [parse_fastcgi_loop parse_fastcgi_char].
  change (lowcase_nz (ch ":")) with false. change (ch ":" =? ch ":") with true. cbn iota.
  cbn [f_name_s]. by destruct (_ =? 0).
Qed.

(** One ordinary header line. *)
Lemma fc_line_ok pre h rest tail st :
  fc_header_ok h = true -> rb_data (recv ctx) = pre ++ fc_line h ++ rest ++ tail ->
  loop (fc_line h ++ rest) (blen pre) fsw_start (mk_fvars None false st)
  = Some (NGX_OK, ctx <| status := st |>
                      <| recv := (recv ctx) <| rb_pos := blen (pre ++ fc_line h) |> |>
                      <| ctx_state := 0 |>).
Proof.
  destruct h as [[|c name] val]; [done|]. unfold fc_header_ok. cbn [fst snd].
  intros [[[_ Hn]%andb_true_iff Hv]%andb_true_iff Hst]%andb_true_iff Hd.
  cbn [forallb] in Hn. apply andb_true_iff in Hn as [Hc Hn].
  rewrite fc_line_app in Hd |- *. cbn [fst snd app] in *.
  rewrite fc_start, fc_name by done. rewrite (proj2 (fc_colon _ _ _ _)).
  assert (Hsl : slice (rb_data (recv ctx)) (blen pre) (blen pre + 1 + blen name) = c :: name).
  { rewrite Hd. replace (blen pre + 1 + blen name) with (blen pre + blen (c :: name)) by (rewrite blen_cons; lia).
    rewrite app_comm_cons. apply slice_mid. }
  rewrite Hsl. replace (Z.to_nat (blen pre + 1 + blen name - blen pre)) with (length (c :: name))
    by (unfold blen; cbn [length]; lia).
  apply negb_true_iff in Hst. rewrite Hst, fc_value by done. cbn [f_status].
  rewrite blen_app, blen_fc_line. cbn [fst snd]. rewrite blen_cons.
  by replace (blen pre + 1 + blen name + 1 + blen val + 2)
    with (blen pre + (1 + blen name + blen val + 3)) by lia.
Qed.

(** Evaluate one byte. *)
#[local] Ltac fc_cbn :=
  cbn [parse_fastcgi_loop parse_fastcgi_char upd eta_rec eta_fvars eta_status f_name_s f_status f_find code
       count st_start st_end]; unfold not_digit, add_digit;
  change (ch "0") with 48; change (ch "1") with 49; change (ch "9") with 57; change (ch " ") with 32.

(** The status line ends the parsing with the code. *)
Lemma fc_status_done pre d1 d2 d3 rest tail st :
  1 <= d1 <= 9 -> 0 <= d2 <= 9 -> 0 <= d3 <= 9 -> count st = 0 -> code st = 0 ->
  rb_data (recv ctx) = pre ++ fc_status d1 d2 d3 ++ rest ++ tail ->
  loop (fc_status d1 d2 d3 ++ rest) (blen pre) fsw_start (mk_fvars None false st)
  = Some (NGX_DONE, ctx <| status := st <| code := 100 * d1 + 10 * d2 + d3 |> <| count := 3 |> |>).
Proof.
  intros H1 H2 H3 Hcn Hcd Hd. unfold fc_status in *.
  assert (Es : forall l, (s2b "Status: " ++ [ch "0" + d1; ch "0" + d2; ch "0" + d3]) ++ l
    = ch "S" :: s2b "tatus" ++ ch ":" :: ch " " :: ch "0" + d1 :: ch "0" + d2 :: ch "0" + d3 :: l) by done.
  rewrite Es in Hd |- *. rewrite fc_start, fc_name by done. rewrite (proj2 (fc_colon _ _ _ _)).
  assert (Hsl : slice (rb_data (recv ctx)) (blen pre) (blen pre + 1 + blen (s2b "tatus")) = s2b "Status").
  { rewrite Hd. replace (blen pre + 1 + blen (s2b "tatus")) with (blen pre + blen (s2b "Status"))
      by (change (blen (s2b "tatus")) with 5; change (blen (s2b "Status")) with 6; lia).
    exact (slice_mid pre (s2b "Status") _). }
  rewrite Hsl. replace (Z.to_nat (blen pre + 1 + blen (s2b "tatus") - blen pre)) with 6%nat
    by (change (blen (s2b "tatus")) with 5; lia).
  change (ngx_strncasecmp (s2b "Status") (s2b "status") 6 =? 0) with true.
  rewrite (fc_next (ch " ") _ _ fsw_space_before_value _ fsw_space_before_value _ eq_refl).
  fc_cbn. change (32 =? 32) with true. fc_cbn.
  assert (Hd9 : forall d, 0 <= d <= 9 -> (48 + d <? 48) || (57 <? 48 + d) = false
    /\ (48 + d =? 32) = false /\ (48 + d =? CR) = false /\ (48 + d =? LF) = false /\ (48 + d =? 0) = false)
    by (unfold CR, LF; lia).
  destruct (Hd9 d1) as (_ & -> & -> & -> & ->); [lia|].
  replace ((48 + d1 <? 49) || (57 <? 48 + d1)) with false by lia.
  fc_cbn.
  rewrite Hcn, Hcd. change (negb (0 =? 0)) with false. cbn iota.
  fc_cbn.
  destruct (Hd9 d2) as (-> & -> & -> & -> & ->); [lia|]. fc_cbn.
  change (u64 (u64 (0 + 1) + 1) =? 3) with false. cbn iota.
  fc_cbn.
  destruct (Hd9 d3) as (-> & _); [lia|]. fc_cbn.
  change (u64 (u64 (u64 (0 + 1) + 1) + 1)) with 3. cbn iota.
  rewrite (u64_small (0 * 10 + _ - _)) by (unfold in_u64; lia).
  rewrite (u64_small (_ * 10 + (48 + d2) - _)) by (unfold in_u64; lia).
  rewrite u64_small by (unfold in_u64; lia).
  by replace (((0 * 10 + (48 + d1) - 48) * 10 + (48 + d2) - 48) * 10 + (48 + d3) - 48)
    with (100 * d1 + 10 * d2 + d3) by lia.
Qed.

End Lines.

(** Several header lines, then the status. *)
Lemma fastcgi_lines_done fuel hs pre d1 d2 d3 more tail ctx :
  forallb fc_header_ok hs = true -> (length hs < fuel)%nat ->
  1 <= d1 <= 9 -> 0 <= d2 <= 9 -> 0 <= d3 <= 9 ->
  let content := fc_lines hs ++ fc_status d1 d2 d3 ++ more in
  rb_data (recv ctx) = pre ++ content ++ tail -> rb_pos (recv ctx) = blen pre ->
  rb_last (recv ctx) = blen pre + blen content ->
  exists ctx', fastcgi_lines fuel ctx = Some (NGX_DONE, ctx')
    /\ code (status ctx') = 100 * d1 + 10 * d2 + d3.
Proof.
  revert fuel pre ctx. induction hs as [|h hs IH]; intros fuel pre ctx Hok Hf H1 H2 H3 content Hd Hp Hl;
    (destruct fuel as [|fuel]; [cbn in Hf; lia|]); cbn [fastcgi_lines].
  all: assert (Hrb : recv_bytes (recv ctx) = content)
    by (unfold recv_bytes; rewrite Hd, Hp, Hl; apply slice_mid).
  all: unfold ngx_http_upstream_check_parse_fastcgi_status; rewrite Hrb, Hp; unfold content in *.
  - cbn [fc_lines flat_map app] in *. rewrite <- app_assoc in Hd.
    rewrite (fc_status_done ctx pre d1 d2 d3 more tail) by done.
    cbn [mbind option_bind]. by eexists.
  - cbn [forallb] in Hok. apply andb_true_iff in Hok as [Hh Hok].
    cbn [fc_lines flat_map] in *. fold (fc_lines hs) in *.
    set (rest := fc_lines hs ++ fc_status d1 d2 d3 ++ more) in *.
    rewrite <- (app_assoc (fc_line h)) in Hd, Hl |- *. fold rest in Hd, Hl |- *.
    rewrite (fc_line_ok ctx pre h rest tail) by (done || by rewrite Hd, <- app_assoc).
    cbn [mbind option_bind]. cbn in Hf.
    apply (IH fuel (pre ++ fc_line h)); [done|lia|done..| | |]; cbn; fold rest.
    + by rewrite Hd, <- !app_assoc.
    + done.
    + rewrite Hl, !blen_app. lia.
Qed.

(** The record header gives the length of the content. *)
Lemma fastcgi_record_header ctx len pad rest :
  0 < len < 65536 -> ctx_state ctx = 0 ->
  recv_bytes (recv ctx) = fc_record_header len pad ++ rest ->
  ngx_http_upstream_check_fastcgi_process_record ctx
  = (NGX_OK, ctx <| status := (status ctx) <| code := NGX_HTTP_FASTCGI_STDOUT |> |>
                 <| ctx_length := len |> <| padding := pad |>
                 <| recv := (recv ctx) <| rb_pos := rb_pos (recv ctx) + 8 |> |>
                 <| ctx_state := fastcgi_st_data |>).
Proof.
  intros Hlen Hs Hr. unfold ngx_http_upstream_check_fastcgi_process_record. rewrite Hr, Hs.
  assert (El : Z.lor (Z.shiftl (len / 256) 8) (len mod 256) = len).
  { rewrite lor_shiftl_add by (lia || (change (2 ^ 8) with 256; apply Z.mod_pos_bound; lia)).
    change (2 ^ 8) with 256. rewrite Z.mul_comm. symmetry. apply Z.div_mod. lia. }
  cbn -[Z.lor Z.shiftl Z.div Z.modulo]. rewrite El.
  by replace (rb_pos (recv ctx) + 1 + 1 + 1 + 1 + 1 + 1 + 1 + 1) with (rb_pos (recv ctx) + 8) by lia.
Qed.

(** A STDOUT record with content goes on to its content. *)
Lemma fastcgi_loop_stdout n cf ctx ctx1 :
  ctx_state ctx = 0 -> ngx_http_upstream_check_fastcgi_process_record ctx = (NGX_OK, ctx1) ->
  code (status ctx1) = NGX_HTTP_FASTCGI_STDOUT -> ctx_length ctx1 <> 0 -> ctx_state ctx1 = fastcgi_st_data ->
  fastcgi_loop (S n) cf ctx = fastcgi_content cf ctx1.
Proof.
  intros Hs Hr Hc Hl Hs1. cbn [fastcgi_loop]. rewrite Hs, Hr, Hc, Hs1.
  change (0 <? fastcgi_st_data) with true. cbn iota.
  rewrite Z.eqb_refl. cbn [negb andb].
  by rewrite (proj2 (Z.eqb_neq _ _) Hl).
Qed.

Lemma fastcgi_content_verdict cf hs pre d1 d2 d3 more tail ctx :
  forallb fc_header_ok hs = true -> 1 <= d1 <= 9 -> 0 <= d2 <= 9 -> 0 <= d3 <= 9 ->
  let content := fc_lines hs ++ fc_status d1 d2 d3 ++ more in
  code (status ctx) = NGX_HTTP_FASTCGI_STDOUT -> ctx_length ctx = blen content ->
  rb_data (recv ctx) = pre ++ content ++ tail -> rb_pos (recv ctx) = blen pre ->
  rb_last (recv ctx) = blen (rb_data (recv ctx)) ->
  exists ctx', fastcgi_content cf ctx
    = Some (mk_out (if bool_decide (tail = []) then NGX_ERROR
                    else if (status_alive cf =? 0) || expected_code (status_alive cf) (100 * d1 + 10 * d2 + d3)
                    then NGX_OK else NGX_ERROR) ctx' false).
Proof.
  intros Hok H1 H2 H3 content Hc Hl Hd Hp Hla. unfold fastcgi_content.
  rewrite Hc, Hl, Hp, Hla, Hd, !blen_app. change (NGX_HTTP_FASTCGI_STDOUT =? NGX_HTTP_FASTCGI_STDERR) with false.
  destruct tail as [|c tail].
  { rewrite (proj2 (Z.ltb_ge _ _)) by (rewrite blen_nil; lia). by eexists. }
  rewrite (bool_decide_eq_false_2 (_ = [])) by done. assert (Ht : 0 < blen (c :: tail)) by (rewrite blen_cons; pose proof (blen_nonneg tail); lia).
  set (tl := c :: tail) in *. clearbody tl.
  rewrite (proj2 (Z.ltb_lt _ _)) by lia. cbn iota.
  set (ctx2 := _ <| status := _ |>).
  assert (G : rb_data (recv ctx2) = pre ++ content ++ tl /\ rb_pos (recv ctx2) = blen pre
    /\ rb_last (recv ctx2) = blen pre + blen content) by done.
  clearbody ctx2. destruct G as (G1 & G2 & G3).
  assert (Hrb : recv_bytes (recv ctx2) = content)
    by (unfold recv_bytes; rewrite G1, G2, G3; apply slice_mid).
  destruct (fastcgi_lines_done (S (length (recv_bytes (recv ctx2)))) hs pre d1 d2 d3 more tl ctx2)
    as (ctx3 & -> & Ec); [done| |done..|].
  { rewrite Hrb. unfold content. rewrite length_app. pose proof (length_fc_lines hs). lia. }
  cbn [mbind option_bind]. exists ctx3. unfold parse_ret, fastcgi_decide.
  rewrite bool_decide_eq_false_2, bool_decide_eq_true_2, Ec by done. cbn [negb].
  rewrite orb_false_r, code_class_expected. destruct (status_alive cf =? 0); [done|]. cbn [orb].
  by destruct (expected_code _ _).
Qed.

(** C31: verdict of a FastCGI check.  On a STDOUT record received whole that has
    well-formed header lines, with names that are no beginning of "status"
    ([fc_header_ok]), and then a [Status:] line with a code of three digits, the
    check passes when the upstream
    expects no particular code or expects the code ([expected_code]) and fails
    otherwise; but a record with nothing after it in the buffer always fails,
    whatever its status. *)
Theorem fastcgi_parse_verdict cf hs d1 d2 d3 more tail pad cap :
  forallb fc_header_ok hs = true -> 1 <= d1 <= 9 -> 0 <= d2 <= 9 -> 0 <= d3 <= 9 ->
  let content := fc_lines hs ++ fc_status d1 d2 d3 ++ more in
  blen content < 65536 ->
  let ctx := received cf (fc_record_header (blen content) pad ++ content ++ tail) cap in
  exists ctx', ngx_http_upstream_check_fastcgi_parse cf ctx
    = Some (mk_out (if bool_decide (tail = []) then NGX_ERROR
                    else if (status_alive cf =? 0) || expected_code (status_alive cf) (100 * d1 + 10 * d2 + d3)
                    then NGX_OK else NGX_ERROR) ctx' false).
Proof.
  intros Hok H1 H2 H3 content Hlen ctx.
  assert (Hpos : 0 < blen content).
  { unfold content, fc_status. rewrite !blen_app. change (blen (s2b "Status: ")) with 8.
    pose proof (blen_nonneg (fc_lines hs)). pose proof (blen_nonneg more).
    rewrite !blen_cons, blen_nil. lia. }
  pose proof (blen_nonneg tail) as Htl.
  set (hd := fc_record_header (blen content) pad) in *. assert (Hhd : blen hd = 8) by done.
  set (d := hd ++ content ++ tail) in *.
  assert (E0 : recv ctx = mk_recv (Some 0%nat) d 0 (blen d) cap) by done.
  assert (E1 : ctx_state ctx = 0) by done. clearbody ctx.
  assert (Hrb : recv_bytes (recv ctx) = d) by (rewrite E0; apply recv_bytes_all).
  unfold ngx_http_upstream_check_fastcgi_parse. rewrite Hrb, E0. cbn [rb_last rb_pos].
  rewrite (proj2 (Z.leb_gt _ _)) by (unfold d; rewrite !blen_app; lia).
  pose proof (fastcgi_record_header ctx (blen content) pad (content ++ tail) ltac:(lia) E1 Hrb) as Hrec.
  rewrite E0 in Hrec. cbn [rb_pos] in Hrec.
  match type of Hrec with _ = (_, ?c) => set (ctx1 := c) in * end.
  assert (F : code (status ctx1) = NGX_HTTP_FASTCGI_STDOUT /\ ctx_length ctx1 = blen content
    /\ ctx_state ctx1 = fastcgi_st_data
    /\ recv ctx1 = mk_recv (Some 0%nat) d 8 (blen d) cap) by done.
  clearbody ctx1. destruct F as (F1 & F2 & F3 & F4).
  rewrite (fastcgi_loop_stdout _ cf ctx ctx1) by (done || lia).
  apply (fastcgi_content_verdict cf hs hd d1 d2 d3 more tail ctx1); rewrite ?F4; done.
Qed.

(** An answer of a PHP application that moved. *)
Lemma fastcgi_parse_verdict_witness :
  let cf := ex_cf in
  let hs := [(s2b "X-Powered-By", s2b " PHP/7.4")] in
  let content := fc_lines hs ++ fc_status 3 0 2 ++ (s2b " Found" ++ [CR; LF; CR; LF]) in
  exists ctx', ngx_http_upstream_check_fastcgi_parse cf
      (received cf (fc_record_header (blen content) 0 ++ content ++ [1; 3; 0; 1]) 2048)
    = Some (mk_out NGX_OK ctx' false).
Proof.
  intros cf hs content.
  apply (fastcgi_parse_verdict cf hs 3 0 2 (s2b " Found" ++ [CR; LF; CR; LF]) [1; 3; 0; 1] 0 2048);
    [reflexivity|lia|lia|lia|reflexivity].
Defined.

(** ** Inputs the parser does not survive or misreads *)

Definition fc_received (l : bytes) : check_ctx_t := received ex_cf l 2048.

(** A response without a [Status:] line: after the empty line the body is
    parsed as header lines, and its first line starts with a byte that is not
    a name character, so that [name_s] is still [NULL] at the colon. *)
Definition fc_json_response : bytes :=
  let content := s2b "Content-type: application/json" ++ [CR; LF; CR; LF] ++ s2b "{ok: true}" in
  fc_record_header (blen content) 0 ++ content ++ [1; 3; 0; 1; 0; 8; 0; 0].

(** a FastCGI response without a [Status:] header and with a body such as
    [{ok: true}] makes the parser call [ngx_strncasecmp] with a null pointer. *)
Theorem fastcgi_null_name :
  ngx_http_upstream_check_fastcgi_parse ex_cf (fc_received fc_json_response) = None.
Proof. vm_compute. reflexivity. Qed.

Definition fc_good_response : bytes :=
  let content := fc_lines [(s2b "X", s2b " 1")] ++ fc_status 2 0 0 ++ [CR; LF; CR; LF] in
  fc_record_header (blen content) 0 ++ content ++ [1; 3; 0; 1; 0; 8; 0; 0].

(** What the receive handler does with two reads: the second call finds all
    the bytes in the buffer and the context of the first call. *)
Definition fc_two_reads (l1 l2 : bytes) : option ngx_rc :=
  out ← ngx_http_upstream_check_fastcgi_parse ex_cf (fc_received l1);
  let ctx := po_ctx out in
  match po_rc out with
  | NGX_AGAIN =>
    po_rc <$> ngx_http_upstream_check_fastcgi_parse ex_cf
      (ctx <| recv := (recv ctx) <| rb_data := l1 ++ l2 |> <| rb_last := blen (l1 ++ l2) |> |>)
  | rc => Some rc
  end.

(** the FastCGI parser is not incremental.  A response it accepts in one
    read is rejected when the first read ends inside the record header: the
    state is saved but [b->pos] is not advanced, so the bytes already consumed
    are consumed again. *)
Theorem fastcgi_split_header_rejected :
  po_rc <$> ngx_http_upstream_check_fastcgi_parse ex_cf (fc_received fc_good_response) = Some NGX_OK
  /\ fc_two_reads (take 4 fc_good_response) (drop 4 fc_good_response) = Some NGX_ERROR.
Proof. vm_compute. by split. Qed.
