(* ===== verification/CheckCore.v ===== *)
(** * The check state machine

    Handlers of [ngx_stream_upstream_check_module.c] and
    [ngx_http_upstream_check_module.c]: timers start a check
    ([begin_handler], [connect_handler]), connection events drive it
    ([send_handler], [recv_handler], [peek_handler], [discard_handler]) and
    [clean_event] ends it.  Where the two modules have the same code there is
    one definition here, named as in the stream module, and the http module's
    function is an alias; where they differ both are written out.

    A handler is a function from the state before to the state after.  What
    the operating system answers (connect, send, recv, peek, allocation) is an
    explicit input [io].  [None] is undefined behaviour (a null pointer, a
    missing function pointer).  The exit flags are read once per event. *)

From S2P Require Import Prelude NgxString StatusLine CheckTypes CheckProto.

(** ** Timers ([ngx_event_timer.h]) *)

Definition NGX_TIMER_LAZY_DELAY : Z := 300.

Definition ngx_event_del_timer (ev : ngx_event_t) : ngx_event_t := ev <| timer_set := false |>.

Definition ngx_event_add_timer (now : Z) (ev : ngx_event_t) (timer : Z) : ngx_event_t :=
  let key := u64 (now + timer) in
  if timer_set ev && (Z.abs (i64 (key - timer_key ev)) <? NGX_TIMER_LAZY_DELAY) then ev
  else mk_event true key.

(** [ngx_event_expire_timers]: a timer is due when it is not in the future. *)
Definition timer_due (now : Z) (ev : ngx_event_t) : bool :=
  timer_set ev && negb (0 <? i64 (timer_key ev - now)).

(** ** What the operating system answers *)

Inductive recv_res : Set :=
| RData (c : Z) (l : bytes)     (** bytes waiting in the socket *)
| RClosed                       (** 0: the peer closed its side *)
| RAgain                        (** [NGX_AGAIN] *)
| RError.                       (** another negative result *)

Inductive send_res : Set := SSent (n : positive) | SAgain | SError.

(** [recv(fd, buf, 1, MSG_PEEK)]: 1, -1 with [EAGAIN], 0, -1 otherwise. *)
Inductive peek_res : Set := PByte | PEagain | PClosed | PError.

Inductive connect_res : Set := CError | CDeclined | COk | CAgain.

Record io := mk_io {
  io_alloc : list bool;       (** successive allocations; all succeed after the list *)
  io_recv : list recv_res;    (** successive [recv]; [NGX_AGAIN] after the list *)
  io_send : list send_res;    (** successive [send]; [NGX_AGAIN] after the list *)
  io_peek_conn : peek_res;    (** the peek of [connect_handler] *)
  io_peek : peek_res;         (** the peek of [peek_handler] *)
  io_connect : connect_res;   (** [ngx_event_connect_peer] *)
  io_event : bool             (** [ngx_handle_read_event], [.._write_event] *)
}.

Definition alloc (l : list bool) : bool * list bool :=
  match l with [] => (true, []) | b :: l' => (b, l') end.

(** ** One peer *)

Definition status_update (now : Z) (cf : ngx_upstream_check_srv_conf_t) (result : bool)
    (s : ngx_upstream_check_peer_shm_t) : ngx_upstream_check_peer_shm_t :=
  let s :=
    if result then
      let s := s <| rise_count := u64 (rise_count s + 1) |> <| fall_count := 0 |> in
      if negb (down s =? 0) && (cf_rise_count cf <=? rise_count s) then s <| down := 0 |> else s
    else
      let s := s <| rise_count := 0 |> <| fall_count := u64 (fall_count s + 1) |> in
      if (down s =? 0) && (cf_fall_count cf <=? fall_count s) then s <| down := 1 |> else s in
  s <| access_time := now |>.

Definition cell : Type := ngx_upstream_check_peer_t * ngx_upstream_check_peer_shm_t.

(** The connection after a check: kept for the next one or closed. *)
Definition clean_connection (p : ngx_upstream_check_peer_t) : option (option ngx_connection_t) :=
  match connection p with
  | None => Some None
  | Some c =>
    if c_error c then Some None
    else
      t ← check_type (conf p);
      if need_keepalive t && (c_requests c <? check_keepalive_requests (conf p)) then
        Some (Some (c <| c_write := Some dummy_handler |> <| c_read := Some discard_handler |>))
      else Some None
  end.

Definition clean_event (x : cell) : option cell :=
  let '(p, s) := x in
  c ← clean_connection p;
  let ev := check_timeout_ev p in
  let p := p <| connection := c |>
             <| check_timeout_ev := if timer_set ev then ngx_event_del_timer ev else ev |>
             <| state := NGX_HTTP_CHECK_ALL_DONE |> in
  let p :=
    match check_data p, p_reinit p with
    | Some ctx, Some r => p <| check_data := Some (run_reinit r ctx) |>
    | _, _ => p
    end in
  Some (p, s <| owner := NGX_INVALID_PID |>).

Definition peek_one_byte (r : peek_res) : ngx_rc :=
  match r with PByte | PEagain => NGX_OK | PClosed | PError => NGX_ERROR end.

Definition set_error (e : bool) (p : ngx_upstream_check_peer_t) : option ngx_upstream_check_peer_t :=
  c ← connection p; Some (p <| connection := Some (c <| c_error := e |>) |>).

Section Peer.
Context (now : Z).

Definition peer_update (result : bool) (x : cell) : cell :=
  (fst x, status_update now (conf (fst x)) result (snd x)).

(** [check_send_fail], [check_recv_fail]: the peer failed and the check ends. *)
Definition check_fail (x : cell) : option cell := clean_event (peer_update false x).

Definition peek_event (i : io) (x : cell) : option cell :=
  let '(p, s) := x in
  c ← connection p;
  if decide (peek_one_byte (io_peek i) = NGX_OK) then clean_event (peer_update true x)
  else p ← set_error true p; clean_event (peer_update false (p, s)).

(** [while (1) recv(...)] of the discard handler: [true] when it stopped on
    [NGX_AGAIN]. *)
Fixpoint discard_loop (rs : list recv_res) : bool :=
  match rs with
  | [] | RAgain :: _ => true
  | RData _ _ :: rs' => discard_loop rs'
  | (RClosed | RError) :: _ => false
  end.

Definition discard_event (i : io) (x : cell) : option cell :=
  let '(p, s) := x in
  c ← connection p;
  if discard_loop (io_recv i) && io_event i then Some x
  else p ← set_error true p; clean_event (p, s).

(** *** Sending *)

Inductive loop_end : Set := LDone | LWait | LError.

(** [while (ctx->send.pos < ctx->send.last)] *)
Fixpoint send_loop (rs : list send_res) (ctx : check_ctx_t) : loop_end * check_ctx_t :=
  if send_pos ctx <? send_last ctx then
    match rs with
    | [] | SAgain :: _ => (LWait, ctx)
    | SSent n :: rs' =>
      let size := Z.min (Zpos n) (send_last ctx - send_pos ctx) in
      send_loop rs' (ctx <| send_pos := send_pos ctx + size |>)
    | SError :: _ => (LError, ctx)
    end
  else (LDone, ctx).

(** [peer->check_data] is created by the first send of a process; [inr] is
    the peer of the failure path. *)
Definition send_prepare (i : io) (p : ngx_upstream_check_peer_t)
    : ngx_upstream_check_peer_t + ngx_upstream_check_peer_t :=
  match check_data p with
  | Some _ => inl p
  | None =>
    if fst (alloc (io_alloc i)) then
      match p_init p with
      | None => inr (p <| check_data := Some ctx_zero |>)
      | Some init =>
        let '(rc, ctx) := run_init init (conf p) ctx_zero in
        let p := p <| check_data := Some ctx |> in
        if decide (rc = NGX_OK) then inl p else inr p
      end
    else inr p
  end.

Definition send_event (i : io) (x : cell) : option cell :=
  let '(p, s) := x in
  c ← connection p;
  if negb (c_pool c) then check_fail x
  else if negb (state p =? NGX_HTTP_CHECK_CONNECT_DONE) then
    if io_event i then Some x else check_fail x
  else
    match send_prepare i p with
    | inr p => check_fail (p, s)
    | inl p =>
      ctx ← check_data p;
      let '(e, ctx) := send_loop (io_send i) ctx in
      let p := p <| check_data := Some ctx |> in
      match e with
      | LWait => Some (p, s)
      | LError => p ← set_error true p; check_fail (p, s)
      | LDone =>
        if send_pos ctx =? send_last ctx then
          Some (p <| state := NGX_HTTP_CHECK_SEND_DONE |>
                  <| connection := Some (c <| c_requests := u64 (c_requests c + 1) |>) |>, s)
        else Some (p, s)
      end
    end.

(** *** Receiving *)

Context (regex_exec : ngx_regex_t -> bytes -> Z) (garbage pagesize : Z).

(** Why the receive loop stopped. *)
Inductive recv_end : Set := EndClosed | EndAgain | EndError | EndNoMem.

#[local] Instance recv_end_eq_dec : EqDecision recv_end.
Proof. solve_decision. Defined.

(** [ctx->recv.start = ngx_palloc(c->pool, ngx_pagesize / 2)] *)
Definition recv_alloc (ctx : check_ctx_t) : check_ctx_t :=
  ctx <| recv := mk_recv (Some (next_blk ctx)) [] 0 0 (pagesize / 2) |>
      <| next_blk := S (next_blk ctx) |>.

(** "enlarge it by twice": a new block with a copy of the old one. *)
Definition recv_enlarge (ctx : check_ctx_t) : check_ctx_t :=
  let size := rb_end (recv ctx) in
  ctx <| recv := mk_recv (Some (next_blk ctx)) (take (Z.to_nat size) (rb_data (recv ctx)))
                         0 size (size * 2) |>
      <| next_blk := S (next_blk ctx) |>.

(** [c->recv(c, last, n)] stores at most [n] of the waiting bytes; the rest
    waits for the next call. *)
Definition recv_store (ctx : check_ctx_t) (l : bytes) : check_ctx_t :=
  let b := recv ctx in
  ctx <| recv := b <| rb_data := store (rb_data b) (rb_last b) l |>
                   <| rb_last := rb_last b + blen l |> |>.

Fixpoint recv_loop (fuel : nat) (al : list bool) (rs : list recv_res) (ctx : check_ctx_t)
    : option (recv_end * check_ctx_t) :=
  match fuel with
  | O => None
  | S fuel' =>
    let full := rb_end (recv ctx) - rb_last (recv ctx) =? 0 in
    let '(ok, al) := if full then alloc al else (true, al) in
    if negb ok then Some (EndNoMem, ctx)
    else
      let ctx := if full then recv_enlarge ctx else ctx in
      let n := Z.to_nat (rb_end (recv ctx) - rb_last (recv ctx)) in
      match rs with
      | [] | RAgain :: _ => Some (EndAgain, ctx)
      | RClosed :: _ => Some (EndClosed, ctx)
      | RError :: _ => Some (EndError, ctx)
      | RData c l :: rs' =>
        let rest := match drop n (c :: l) with [] => rs' | c' :: l' => RData c' l' :: rs' end in
        recv_loop fuel' al rest (recv_store ctx (take n (c :: l)))
      end
  end.

(** Bytes and results still to come: the loop runs at most once for each. *)
Definition recv_fuel (rs : list recv_res) : nat :=
  S (sum_list ((fun r => match r with RData _ l => S (length l) | _ => 1%nat end) <$> rs)).

(** After the loop: parse what has been received and conclude. *)
Definition recv_conclude (e : recv_end) (p : ngx_upstream_check_peer_t)
    (s : ngx_upstream_check_peer_shm_t) : option cell :=
  ctx ← check_data p;
  parse ← p_parse p;
  out ← run_parse regex_exec garbage parse (conf p) ctx;
  let p := p <| check_data := Some (po_ctx out) |> in
  p ← (if po_error out then set_error true p else Some p);
  let finish x := clean_event ((fst x) <| state := NGX_HTTP_CHECK_RECV_DONE |>, snd x) in
  match po_rc out with
  | NGX_AGAIN =>
    if decide (e = EndClosed) then
      p ← set_error true p; finish (peer_update false (p, s))
    else Some (p, s)
  | NGX_ERROR => finish (peer_update false (p, s))
  | _ => finish (peer_update true (p, s))
  end.

Definition recv_event (i : io) (x : cell) : option cell :=
  let '(p, s) := x in
  c ← connection p;
  if negb (state p =? NGX_HTTP_CHECK_SEND_DONE) then
    if io_event i then Some x else check_fail x
  else
    ctx ← check_data p;
    if negb (c_pool c) then None
    else
      let fresh := match rb_blk (recv ctx) with None => true | Some _ => false end in
      let '(ok, al) := if fresh then alloc (io_alloc i) else (true, io_alloc i) in
      if negb ok then check_fail x
      else
        let ctx := if fresh then recv_alloc ctx else ctx in
        '(e, ctx) ← recv_loop (recv_fuel (io_recv i)) al (io_recv i) ctx;
        let p := p <| check_data := Some ctx |> in
        match e with
        | EndNoMem => check_fail (p, s)
        | EndError => p ← set_error true p; check_fail (p, s)
        | EndClosed | EndAgain => recv_conclude e p s
        end.

(** [c->write->handler(c->write)] and [c->read->handler(c->read)]. *)
Definition run_handler (h : ev_handler) (i : io) (x : cell) : option cell :=
  match h with
  | send_handler => send_event i x
  | recv_handler => recv_event i x
  | peek_handler => peek_event i x
  | discard_handler => discard_event i x
  | dummy_handler => Some x
  end.

(** *** Connecting *)

(** The common tail, from [upstream_check_connect_done]: [ready] is
    [rc == NGX_OK], for which the write handler runs at once. *)
Definition connect_done (ready : bool) (i : io) (p : ngx_upstream_check_peer_t)
    (s : ngx_upstream_check_peer_shm_t) : option cell :=
  c ← connection p;
  let p := p <| state := NGX_HTTP_CHECK_CONNECT_DONE |>
             <| connection := Some (c <| c_write := p_send_handler p |> <| c_read := p_recv_handler p |>) |>
             <| check_timeout_ev := ngx_event_add_timer now (check_timeout_ev p) (check_timeout (conf p)) |> in
  if ready then h ← p_send_handler p; run_handler h i (p, s) else Some (p, s).

(** A new connection: [c->pool = peer->pool]. *)
Definition new_conn (p : ngx_upstream_check_peer_t) : ngx_connection_t :=
  mk_conn false 0 (pool p) None None.

(** Connect anew, on failure [failed]. *)
Definition connect_new (ty : sock_type) (failed : cell -> option cell) (i : io) (x : cell) : option cell :=
  let '(p, s) := x in
  let p := p <| pc_type := ty |> <| connection := None |> in
  match io_connect i with
  | CError | CDeclined => failed (p, s)
  | COk => connect_done true i (p <| connection := Some (new_conn p) |>) s
  | CAgain => connect_done false i (p <| connection := Some (new_conn p) |>) s
  end.

(** A connection kept from the previous check is reused if it is alive. *)
Definition connect_reuse (fresh : cell -> option cell) (i : io) (x : cell) : option cell :=
  let '(p, s) := x in
  match connection p with
  | Some _ =>
    if decide (peek_one_byte (io_peek_conn i) = NGX_OK) then connect_done true i p s
    else fresh (p <| connection := None |>, s)
  | None => fresh x
  end.

(** The stream module: a failed connect counts as a failed check, and nothing
    else is done. *)
Definition stream_connect (i : io) (x : cell) : option cell :=
  connect_reuse (fun x =>
    t ← check_type (conf (fst x));
    let ty := if type t =? Stream.NGX_CHECK_TYPE_UDP then SOCK_DGRAM else SOCK_STREAM in
    connect_new ty (fun x => Some (peer_update false x)) i x) i x.

(** The http module: a failed connect ends the check. *)
Definition http_connect (i : io) (x : cell) : option cell :=
  connect_reuse (connect_new pc_unset (fun x => clean_event (peer_update false x)) i) i x.

(** *** Timeouts *)

Definition stream_timeout (x : cell) : option cell :=
  let '(p, s) := x in
  match pc_type p with
  | SOCK_STREAM => p ← set_error true p; clean_event (peer_update false (p, s))
  | SOCK_DGRAM => p ← set_error false p; clean_event (peer_update true (p, s))
  | pc_unset => clean_event x
  end.

Definition http_timeout (x : cell) : option cell :=
  let '(p, s) := x in
  p ← set_error true p; clean_event (peer_update false (p, s)).

(** *** Starting a check *)

(** What [begin_handler] does with the shared peer inside the lock; the
    process then owns the peer or not. *)
Definition take_ownership (pid : Z) (cf : ngx_upstream_check_srv_conf_t)
    (s : ngx_upstream_check_peer_shm_t) : ngx_upstream_check_peer_shm_t :=
  let interval := u64 (now - access_time s) in
  if (check_interval cf <=? interval) && (owner s =? NGX_INVALID_PID) then s <| owner := pid |>
  else if u64 (Z.shiftl (check_interval cf) 4) <=? interval then
    s <| owner := pid |> <| access_time := now |>
  else s.

(** [begin_handler] after its early returns; [current] says that the shared
    memory is of the process's generation. *)
Definition begin_check (connect : cell -> option cell) (pid : Z) (current : bool) (x : cell)
    : option cell :=
  let '(p, s) := x in
  let p := p <| check_ev := ngx_event_add_timer now (check_ev p) (check_interval (conf p) / 2) |> in
  if (owner s =? pid) || timer_set (check_timeout_ev p) then Some (p, s)
  else if negb current then Some (p, s)
  else
    let s := take_ownership pid (conf p) s in
    if owner s =? pid then connect (p, s) else Some (p, s).

End Peer.

(** ** The worker process *)

Record process := mk_process {
  ngx_current_msec : Z;
  ngx_pid : Z;
  ngx_terminate : bool;
  ngx_exiting : bool;
  ngx_quit : bool;
  has_cleared : bool;                                     (** static of [clear_all_events] *)
  shm_generation : Z;                                     (** [.._check_shm_generation] *)
  peers_ctx : option ngx_upstream_check_peers_t           (** [stream_peers_ctx] *)
}.

#[export] Instance eta_process : Eta process := fun r =>
  mk_process (ngx_current_msec r) (ngx_pid r) (ngx_terminate r) (ngx_exiting r) (ngx_quit r)
    (has_cleared r) (shm_generation r) (peers_ctx r).

(** Release what one peer holds. *)
Definition clear_peer (p : ngx_upstream_check_peer_t) : ngx_upstream_check_peer_t :=
  let del ev := if timer_set ev then ngx_event_del_timer ev else ev in
  p <| check_ev := del (check_ev p) |> <| check_timeout_ev := del (check_timeout_ev p) |>
    <| connection := None |> <| pool := false |>.

Definition clear_all_events (w : process) : process :=
  if has_cleared w then w
  else match peers_ctx w with
       | None => w
       | Some ps => w <| has_cleared := true |>
                      <| peers_ctx := Some (ps <| peers := clear_peer <$> peers ps |>) |>
       end.

Definition exit_flag (w : process) : bool := ngx_terminate w || ngx_exiting w || ngx_quit w.

Definition need_exit (w : process) : bool * process :=
  if exit_flag w then (true, clear_all_events w) else (false, w).

(** Peer [i] of the process with the shared peer it points to. *)
Definition get_cell (w : process) (i : nat) : option cell :=
  ps ← peers_ctx w;
  p ← peers ps !! i;
  sh ← peers_shm ps;
  k ← shm p;
  s ← sh_peers sh !! k;
  Some (p, s).

Definition put_cell (w : process) (i : nat) (x : cell) : option process :=
  ps ← peers_ctx w;
  sh ← peers_shm ps;
  k ← shm (fst x);
  Some (w <| peers_ctx := Some (ps <| peers := <[i := fst x]> (peers ps) |>
                                   <| peers_shm := Some (sh <| sh_peers := <[k := snd x]> (sh_peers sh) |>) |>) |>).

Definition with_cell (w : process) (i : nat) (f : cell -> option cell) : option process :=
  x ← get_cell w i; y ← f x; put_cell w i y.

(** A handler that starts with [if (need_exit()) return;]. *)
Definition guarded (f : process -> cell -> option cell) (w : process) (i : nat) : option process :=
  let '(stop, w) := need_exit w in
  if stop then Some w else with_cell w i (f w).

(** Does the shared memory belong to this configuration? *)
Definition generation_ok (w : process) : bool :=
  match peers_ctx w with
  | Some ps => match peers_shm ps with
               | Some sh => sh_generation sh =? shm_generation w
               | None => false
               end
  | None => false
  end.

Definition has_shm (w : process) : bool :=
  match peers_ctx w with Some ps => bool_decide (is_Some (peers_shm ps)) | None => false end.

(** *** Called by the load balancer *)

Definition check_peer_down (w : process) (idx : Z) : option Z :=
  match peers_ctx w with
  | None => Some 0
  | Some ps =>
    if Z.of_nat (length (peers ps)) <=? idx then Some 0
    else '(_, s) ← get_cell w (Z.to_nat idx); Some (down s)
  end.

Definition on_shm (w : process) (idx : Z)
    (f : ngx_upstream_check_peer_shm_t -> ngx_upstream_check_peer_shm_t) : option process :=
  match peers_ctx w with
  | None => Some w
  | Some ps =>
    if Z.of_nat (length (peers ps)) <=? idx then Some w
    else with_cell w (Z.to_nat idx) (fun x => Some (fst x, f (snd x)))
  end.

Definition check_get_peer (w : process) (idx : Z) : option process :=
  on_shm w idx (fun s => s <| busyness := u64 (busyness s + 1) |>
                           <| access_count := u64 (access_count s + 1) |>).

Definition check_free_peer (w : process) (idx : Z) : option process :=
  on_shm w idx (fun s => if 0 <? busyness s then s <| busyness := busyness s - 1 |> else s).

(** *** Start of a worker *)

(** One iteration of [add_timers] with the outcome of [ngx_create_pool] and
    [ngx_random()]; [None] when the peer has no check type. *)
Definition add_timer_peer (now : Z) (i : nat) (ok : bool) (rnd : Z) (p : ngx_upstream_check_peer_t)
    : option (bool * ngx_upstream_check_peer_t) :=
  let p := p <| shm := Some i |>
             <| check_ev := (check_ev p) <| timer_set := false |> |>
             <| check_timeout_ev := (check_timeout_ev p) <| timer_set := false |> |> in
  t ← check_type (conf p);
  if need_pool t && negb ok then Some (false, p <| pool := false |>)
  else
    let delay := if 1000 <? check_interval (conf p) then check_interval (conf p) else 1000 in
    Some (true,
      p <| pool := if need_pool t then true else pool p |>
        <| p_send_handler := cc_send_handler t |> <| p_recv_handler := cc_recv_handler t |>
        <| p_init := cc_init t |> <| p_parse := cc_parse t |> <| p_reinit := cc_reinit t |>
        <| check_ev := ngx_event_add_timer now (check_ev p) (rnd mod delay) |>).

Fixpoint add_timers_loop (now : Z) (i : nat) (al : list bool) (rnds : nat -> Z)
    (l : list ngx_upstream_check_peer_t) : option (ngx_rc * list ngx_upstream_check_peer_t) :=
  match l with
  | [] => Some (NGX_OK, [])
  | p :: l' =>
    let '(ok, al') := alloc al in
    '(go, p) ← add_timer_peer now i ok (rnds i) p;
    if negb go then Some (NGX_ERROR, p :: l')
    else '(rc, l') ← add_timers_loop now (S i) al' rnds l'; Some (rc, p :: l')
  end.

Definition add_timers (al : list bool) (rnds : nat -> Z) (w : process) : option (ngx_rc * process) :=
  match peers_ctx w with
  | None => Some (NGX_OK, w)
  | Some ps =>
    match peers_shm ps with
    | None => Some (NGX_OK, w)
    | Some _ =>
      '(rc, l) ← add_timers_loop (ngx_current_msec w) 0 al rnds (peers ps);
      Some (rc, w <| peers_ctx := Some (ps <| peers := l |>) |>)
    end
  end.

(** ** The stream module *)

Module StreamCheck.
Section Handlers.
Context (regex_exec : ngx_regex_t -> bytes -> Z) (garbage pagesize : Z).

Definition ngx_stream_upstream_check_peer_down := check_peer_down.
Definition ngx_stream_upstream_check_get_peer := check_get_peer.
Definition ngx_stream_upstream_check_free_peer := check_free_peer.
Definition ngx_stream_upstream_check_status_update := status_update.
Definition ngx_stream_upstream_check_clean_event := clean_event.
Definition ngx_stream_upstream_check_peek_one_byte := peek_one_byte.
Definition ngx_stream_upstream_check_need_exit := need_exit.
Definition ngx_stream_upstream_check_clear_all_events := clear_all_events.
Definition ngx_stream_upstream_check_add_timers := add_timers.

Definition ngx_stream_upstream_check_finish_handler (w : process) : process := snd (need_exit w).

Definition ngx_stream_upstream_check_dummy_handler (w : process) : process := w.

Definition ngx_stream_upstream_check_peek_handler (i : io) : process -> nat -> option process :=
  guarded (fun w => peek_event (ngx_current_msec w) i).

Definition ngx_stream_upstream_check_discard_handler (i : io) : process -> nat -> option process :=
  guarded (fun w => discard_event i).

Definition ngx_stream_upstream_check_send_handler (i : io) : process -> nat -> option process :=
  guarded (fun w => send_event (ngx_current_msec w) i).

Definition ngx_stream_upstream_check_recv_handler (i : io) : process -> nat -> option process :=
  guarded (fun w => recv_event (ngx_current_msec w) regex_exec garbage pagesize i).

Definition ngx_stream_upstream_check_timeout_handler : process -> nat -> option process :=
  guarded (fun w => stream_timeout (ngx_current_msec w)).

Definition ngx_stream_upstream_check_connect_handler (i : io) : process -> nat -> option process :=
  guarded (fun w => stream_connect (ngx_current_msec w) regex_exec garbage pagesize i).

(** The context and shared memory are looked at before the exit flags. *)
Definition ngx_stream_upstream_check_begin_handler (i : io) (w : process) (k : nat) : option process :=
  if has_shm w then
    guarded (fun w => begin_check (ngx_current_msec w)
               (stream_connect (ngx_current_msec w) regex_exec garbage pagesize i)
               (ngx_pid w) (generation_ok w)) w k
  else Some w.

Definition ngx_stream_upstream_check_init_process (conf_exists : bool) (al : list bool) (rnds : nat -> Z)
    (w : process) : option (ngx_rc * process) :=
  if conf_exists then add_timers al rnds w else Some (NGX_OK, w <| peers_ctx := None |>).

End Handlers.
End StreamCheck.

(** ** The http module *)

Module HttpCheck.
Section Handlers.
Context (regex_exec : ngx_regex_t -> bytes -> Z) (garbage pagesize : Z).

Definition ngx_http_upstream_check_peer_down := check_peer_down.
Definition ngx_http_upstream_check_get_peer := check_get_peer.
Definition ngx_http_upstream_check_free_peer := check_free_peer.
Definition ngx_http_upstream_check_status_update := status_update.
Definition ngx_http_upstream_check_clean_event := clean_event.
Definition ngx_http_upstream_check_peek_one_byte := peek_one_byte.
Definition ngx_http_upstream_check_need_exit := need_exit.
Definition ngx_http_upstream_check_clear_all_events := clear_all_events.
Definition ngx_http_upstream_check_add_timers := add_timers.

Definition ngx_http_upstream_check_finish_handler (w : process) : process := snd (need_exit w).

Definition ngx_http_upstream_check_dummy_handler (w : process) : process := w.

Definition ngx_http_upstream_check_peek_handler (i : io) : process -> nat -> option process :=
  guarded (fun w => peek_event (ngx_current_msec w) i).

Definition ngx_http_upstream_check_discard_handler (i : io) : process -> nat -> option process :=
  guarded (fun w => discard_event i).

Definition ngx_http_upstream_check_send_handler (i : io) : process -> nat -> option process :=
  guarded (fun w => send_event (ngx_current_msec w) i).

Definition ngx_http_upstream_check_recv_handler (i : io) : process -> nat -> option process :=
  guarded (fun w => recv_event (ngx_current_msec w) regex_exec garbage pagesize i).

Definition ngx_http_upstream_check_timeout_handler : process -> nat -> option process :=
  guarded (fun w => http_timeout (ngx_current_msec w)).

Definition ngx_http_upstream_check_connect_handler (i : io) : process -> nat -> option process :=
  guarded (fun w => http_connect (ngx_current_msec w) regex_exec garbage pagesize i).

(** The exit flags are looked at first. *)
Definition ngx_http_upstream_check_begin_handler (i : io) (w : process) (k : nat) : option process :=
  let '(stop, w) := need_exit w in
  if stop then Some w
  else if has_shm w then
    with_cell w k (begin_check (ngx_current_msec w)
      (http_connect (ngx_current_msec w) regex_exec garbage pagesize i)
      (ngx_pid w) (generation_ok w))
  else Some w.

Definition ngx_http_upstream_check_init_process (conf_exists : bool) (al : list bool) (rnds : nat -> Z)
    (w : process) : option (ngx_rc * process) :=
  if conf_exists then add_timers al rnds w else Some (NGX_OK, w).

End Handlers.
End HttpCheck.
