(* ===== verification/Hysteresis.v ===== *)
(** * What [status_update] promises

    The two counters and the [down] flag of a shared peer implement a
    threshold with hysteresis: a peer changes sides after [rise] successes or
    [fall] failures in a row.  The specification does not mention counters: it
    looks for runs of equal verdicts in the history. *)

From S2P Require Import Prelude NgxString StatusLine CheckTypes CheckProto CheckCore.

(** ** Specification *)

Definition has_run (b : bool) (n : nat) (h : list bool) : Prop :=
  exists a c, h = a ++ replicate n b ++ c.

(** Up after history [h] (oldest verdict first): up at the start and never
    [fall] failures in a row, or [rise] successes in a row that were not
    followed by [fall] failures in a row. *)
Definition up_spec (rise fall : nat) (up0 : bool) (h : list bool) : Prop :=
  (up0 = true /\ ~ has_run false fall h)
  \/ exists h1 h2, h = h1 ++ replicate rise true ++ h2 /\ ~ has_run false fall h2.

(** ** Trailing runs *)

Definition trail (b : bool) (h : list bool) : nat :=
  fold_left (fun n x => if Bool.eqb x b then S n else 0%nat) h 0%nat.

Lemma trail_snoc b h x : trail b (h ++ [x]) = if Bool.eqb x b then S (trail b h) else 0%nat.
Proof. unfold trail. by rewrite fold_left_app. Qed.

Lemma trail_le b h : (trail b h <= length h)%nat.
Proof.
  induction h as [|x h IH] using rev_ind; [done|].
  rewrite trail_snoc, length_app. cbn. case_match; lia.
Qed.

Lemma replicate_snoc {A} n (x : A) : replicate (S n) x = replicate n x ++ [x].
Proof. by rewrite <- replicate_cons_app. Qed.

(** The trailing run has at least [n] elements iff [n] of them end the history. *)
Lemma trail_ge b n h : (n <= trail b h)%nat <-> exists h1, h = h1 ++ replicate n b.
Proof.
  revert n; induction h as [|x h IH] using rev_ind; intros n.
  - cbn. split; [intros ?; exists []; by replace n with 0%nat by lia|].
    intros [h1 E]. destruct n; [lia|]. by destruct h1.
  - rewrite trail_snoc. destruct n as [|n].
    { split; [intros _; exists (h ++ [x]); by rewrite app_nil_r|lia]. }
    destruct (Bool.eqb x b) eqn:E.
    + apply eqb_prop in E as ->. rewrite <- Nat.succ_le_mono, IH. split; intros [h1 H].
      * exists h1. by rewrite replicate_snoc, app_assoc, H.
      * exists h1. rewrite replicate_snoc, app_assoc in H. by apply app_inj_tail in H as [-> _].
    + split; [lia|]. intros [h1 H]. exfalso. rewrite replicate_snoc, app_assoc in H.
      apply app_inj_tail in H as [_ ->]. by rewrite eqb_reflx in E.
Qed.

(** ** Runs and one more verdict *)

Lemma has_run_app_l b n h c : has_run b n h -> has_run b n (h ++ c).
Proof. intros (a & d & ->). exists a, (d ++ c). by rewrite <- !app_assoc. Qed.

Lemma has_run_app_r b n h a : has_run b n h -> has_run b n (a ++ h).
Proof. intros (a' & d & ->). exists (a ++ a'), d. by rewrite <- !app_assoc. Qed.

(** A run in [h ++ [x]] is in [h] or at the end. *)
Lemma has_run_snoc b n h x :
  has_run b n (h ++ [x]) -> has_run b n h \/ (n <= trail b (h ++ [x]))%nat.
Proof.
  intros (a & c & E). destruct c as [|y c _] using rev_ind.
  - right. apply trail_ge. exists a. by rewrite app_nil_r in E.
  - left. rewrite !app_assoc in E. apply app_inj_tail in E as [-> _].
    exists a, c. by rewrite app_assoc.
Qed.

Lemma has_run_snoc_other b n h x :
  (0 < n)%nat -> x <> b -> has_run b n (h ++ [x]) -> has_run b n h.
Proof.
  intros Hn Hx [?|Ht]%has_run_snoc; [done|]. rewrite trail_snoc in Ht.
  destruct (Bool.eqb x b) eqn:E; [by apply eqb_prop in E|lia].
Qed.

(** The failures that end a history come after any run of successes. *)
Lemma trail_after_run rise h1 h2 :
  (0 < rise)%nat -> trail false (h1 ++ replicate rise true ++ h2) = trail false h2.
Proof.
  intros Hr. induction h2 as [|x h2 IH] using rev_ind.
  - rewrite app_nil_r. destruct rise as [|rise]; [lia|].
    by rewrite replicate_snoc, app_assoc, trail_snoc.
  - rewrite !app_assoc, !trail_snoc, <- app_assoc, IH. done.
Qed.

Section Thresholds.
Context (rise fall : nat) (Hrise : (0 < rise)%nat) (Hfall : (0 < fall)%nat) (up0 : bool).
Abbreviation up := (up_spec rise fall up0).

Lemma up_success h : up (h ++ [true]) <-> up h \/ (rise <= trail true (h ++ [true]))%nat.
Proof.
  split.
  - intros [[-> Hn]|(h1 & h2 & E & Hn)].
    + left. left. split; [done|]. intros ?. by apply Hn, has_run_app_l.
    + destruct h2 as [|x h2 _] using rev_ind.
      * right. apply trail_ge. exists h1. by rewrite app_nil_r in E.
      * left. right. exists h1, h2. rewrite !app_assoc in E. apply app_inj_tail in E as [-> _].
        rewrite app_assoc. split; [done|]. intros ?. by apply Hn, has_run_app_l.
  - intros [[[-> Hn]|(h1 & h2 & -> & Hn)]|Ht].
    + left. split; [done|]. intros ?%has_run_snoc_other; by auto.
    + right. exists h1, (h2 ++ [true]). rewrite <- !app_assoc. split; [done|].
      intros ?%has_run_snoc_other; by auto.
    + apply trail_ge in Ht as [h1 ->]. right. exists h1, []. rewrite app_nil_r. split; [done|].
      intros (a & c & E). destruct fall; [lia|]. by destruct a.
Qed.

Lemma up_failure h : up (h ++ [false]) <-> up h /\ (trail false (h ++ [false]) < fall)%nat.
Proof.
  split.
  - intros [[-> Hn]|(h1 & h2 & E & Hn)].
    + split; [left; split; [done|]; intros ?; by apply Hn, has_run_app_l|].
      apply Nat.lt_nge. intros [h1 E]%trail_ge. apply Hn. exists h1, []. by rewrite app_nil_r.
    + split.
      * destruct h2 as [|x h2 _] using rev_ind.
        { exfalso. rewrite app_nil_r in E. destruct rise; [lia|].
          rewrite replicate_snoc, app_assoc in E. by apply app_inj_tail in E as [_ ?]. }
        right. exists h1, h2. rewrite !app_assoc in E. apply app_inj_tail in E as [-> _].
        rewrite app_assoc. split; [done|]. intros ?. by apply Hn, has_run_app_l.
      * apply Nat.lt_nge. rewrite E, trail_after_run by done. intros [h3 ->]%trail_ge.
        apply Hn. exists h3, []. by rewrite app_nil_r.
  - intros [[[-> Hn]|(h1 & h2 & -> & Hn)] Ht].
    + left. split; [done|]. intros [?|?]%has_run_snoc; [done|lia].
    + right. exists h1, (h2 ++ [false]). rewrite <- !app_assoc. split; [done|].
      rewrite <- app_assoc, <- app_assoc, trail_after_run in Ht by done.
      intros [?|?]%has_run_snoc; [done|lia].
Qed.

Lemma up_start : up [] <-> up0 = true.
Proof.
  split.
  - intros [[-> _]|(h1 & h2 & E & _)]; [done|]. destruct rise; [lia|]. by destruct h1.
  - intros ->. left. split; [done|]. intros (a & c & E). destruct fall; [lia|]. by destruct a.
Qed.

End Thresholds.

(** ** The implementation *)

(** The verdicts of successive checks, each at its time. *)
Definition updates (cf : ngx_upstream_check_srv_conf_t) (h : list (Z * bool))
    (s : ngx_upstream_check_peer_shm_t) : ngx_upstream_check_peer_shm_t :=
  fold_left (fun s v => status_update (fst v) cf (snd v) s) h s.

Lemma updates_snoc cf h v s : updates cf (h ++ [v]) s = status_update (fst v) cf (snd v) (updates cf h s).
Proof. unfold updates. by rewrite fold_left_app. Qed.

(** The counters hold the lengths of the trailing runs. *)
Lemma updates_counts cf h s :
  rise_count s = 0 -> fall_count s = 0 -> Z.of_nat (length h) < 2 ^ 64 ->
  rise_count (updates cf h s) = Z.of_nat (trail true (snd <$> h))
  /\ fall_count (updates cf h s) = Z.of_nat (trail false (snd <$> h)).
Proof.
  intros Hr Hf. induction h as [|[t b] h IH] using rev_ind; intros Hlen; [done|].
  rewrite length_app in Hlen. cbn in Hlen. destruct IH as [I1 I2]; [lia|].
  rewrite updates_snoc, fmap_app. cbn [fmap list_fmap snd fst]. rewrite !trail_snoc.
  pose proof (trail_le true (snd <$> h)). pose proof (trail_le false (snd <$> h)).
  rewrite length_fmap in *.
  unfold status_update. destruct b; cbn [Bool.eqb].
  - destruct (_ && _); cbn; rewrite I1; (split; [rewrite u64_small; unfold in_u64; lia|done]).
  - destruct (_ && _); cbn; rewrite I2; (split; [done|rewrite u64_small; unfold in_u64; lia]).
Qed.

(** The flag follows the specification. *)
Lemma updates_up cf h s :
  rise_count s = 0 -> fall_count s = 0 ->
  0 < cf_rise_count cf -> 0 < cf_fall_count cf -> Z.of_nat (length h) < 2 ^ 64 ->
  down (updates cf h s) = 0
  <-> up_spec (Z.to_nat (cf_rise_count cf)) (Z.to_nat (cf_fall_count cf)) (down s =? 0) (snd <$> h).
Proof.
  intros Hr Hf Hrise Hfall. induction h as [|[t b] h IH] using rev_ind; intros Hlen.
  { rewrite up_start by lia. cbn. lia. }
  pose proof Hlen as Hlen'. rewrite length_app in Hlen'. cbn in Hlen'.
  specialize (IH ltac:(lia)).
  pose proof (updates_counts cf (h ++ [(t, b)]) s Hr Hf Hlen) as [C1 C2].
  rewrite updates_snoc in *. rewrite fmap_app in *. cbn [fmap list_fmap snd fst] in *.
  unfold status_update in *. destruct b.
  - rewrite up_success by lia. rewrite <- IH. set (s' := updates cf h s) in *. cbn zeta in *.
    assert (C : u64 (rise_count s' + 1) = Z.of_nat (trail true ((snd <$> h) ++ [true])))
      by (rewrite <- C1; by destruct (_ && _)).
    cbn in C |- *. rewrite C. clear -Hrise Hfall.
    destruct (Z.eqb_spec (down s') 0) as [E|E]; cbn; [tauto|].
    destruct (Z.leb_spec (cf_rise_count cf) (Z.of_nat (trail true ((snd <$> h) ++ [true])))); cbn; lia.
  - rewrite up_failure by lia. rewrite <- IH. set (s' := updates cf h s) in *. cbn zeta in *.
    assert (C : u64 (fall_count s' + 1) = Z.of_nat (trail false ((snd <$> h) ++ [false])))
      by (rewrite <- C2; by destruct (_ && _)).
    cbn in C |- *. rewrite C. clear -Hrise Hfall.
    destruct (Z.eqb_spec (down s') 0) as [E|E]; cbn; [|tauto].
    destruct (Z.leb_spec (cf_fall_count cf) (Z.of_nat (trail false ((snd <$> h) ++ [false])))); cbn; lia.
Qed.

(** Enough failures in a row take any peer down. *)
Lemma updates_all_failed cf (ts : list Z) s :
  rise_count s = 0 -> fall_count s = 0 -> 0 < cf_rise_count cf -> 0 < cf_fall_count cf ->
  Z.of_nat (length ts) < 2 ^ 64 -> cf_fall_count cf <= Z.of_nat (length ts) ->
  down (updates cf ((fun t => (t, false)) <$> ts) s) <> 0.
Proof.
  intros Hr Hf Hrise Hfall Hlen Hge Hup.
  apply updates_up in Hup; [|done..|by rewrite length_fmap].
  rewrite <- list_fmap_compose in Hup.
  assert (Hall : (snd ∘ (fun t : Z => (t, false))) <$> ts = replicate (length ts) false).
  { clear. induction ts as [|t ts IH]; [done|]. cbn. by rewrite <- IH. }
  rewrite Hall in Hup. destruct Hup as [[_ Hn]|(h1 & h2 & E & _)].
  - apply Hn. exists [], (replicate (length ts - Z.to_nat (cf_fall_count cf)) false).
    cbn. rewrite <- replicate_add. f_equal. lia.
  - assert (Hin : true ∈ replicate (length ts) false).
    { rewrite E. apply elem_of_app. right. apply elem_of_app. left. apply elem_of_replicate. split; [done|lia]. }
    by apply elem_of_replicate in Hin as [? _].
Qed.

(** C2: [status_update] implements the threshold specification.  From a peer
    whose counters are zero, after any history of verdicts at any times, the
    peer is up exactly when it was up at the start and never failed [fall]
    times in a row, or has succeeded [rise] times in a row without [fall]
    failures in a row since. *)
Theorem status_update_hysteresis cf h s :
  rise_count s = 0 -> fall_count s = 0 ->
  0 < cf_rise_count cf -> 0 < cf_fall_count cf -> Z.of_nat (length h) < 2 ^ 64 ->
  down (updates cf h s) = 0
  <-> up_spec (Z.to_nat (cf_rise_count cf)) (Z.to_nat (cf_fall_count cf)) (down s =? 0) (snd <$> h).
Proof. apply updates_up. Qed.

Lemma status_update_hysteresis_witness :
  let cf := ex_cf in
  let h := [(10, false); (20, false); (30, true); (40, false); (50, true); (60, true)] in
  down (updates cf h peer_shm_zero) = 0
  /\ up_spec 2 5 true (snd <$> h).
Proof.
  intros cf h. split; [reflexivity|].
  apply (status_update_hysteresis ex_cf
    [(10, false); (20, false); (30, true); (40, false); (50, true); (60, true)] peer_shm_zero);
    reflexivity.
Defined.
