(* ===== verification/CheckSafety.v ===== *)
(** * Safety of the handlers

    An invariant of a checked peer that every handler of both modules keeps,
    and under which no handler dereferences a null pointer or loops for ever:
    the receive loop terminates and stores exactly the delivered bytes, the
    timeout handler finds a connection, the receive handler finds the check
    data.  The invariant is then followed through the events of a worker. *)

From S2P Require Import Prelude NgxString StatusLine CheckTypes CheckProto CheckCore.

(** ** The receive loop *)

(** The buffer is allocated and its pointers are in order. *)
Definition recv_wf (b : recv_buf) : Prop :=
  is_Some (rb_blk b) /\ 0 <= rb_pos b <= rb_last b /\ rb_last b <= rb_end b
  /\ rb_last b <= blen (rb_data b) /\ 0 < rb_end b.

(** What has been received into the current block. *)
Definition content (b : recv_buf) : bytes := take (Z.to_nat (rb_last b)) (rb_data b).

(** The bytes [recv] hands over before it stops returning data. *)
Fixpoint delivered (rs : list recv_res) : bytes :=
  match rs with RData c l :: rs' => (c :: l) ++ delivered rs' | _ => [] end.

(** How [recv] stops. *)
Fixpoint final_recv (rs : list recv_res) : recv_end :=
  match rs with
  | RData _ _ :: rs' => final_recv rs'
  | [] | RAgain :: _ => EndAgain
  | RClosed :: _ => EndClosed
  | RError :: _ => EndError
  end.

Lemma content_store b l :
  0 <= rb_last b -> rb_last b <= blen (rb_data b) ->
  content (b <| rb_data := store (rb_data b) (rb_last b) l |> <| rb_last := rb_last b + blen l |>)
  = content b ++ l.
Proof.
  intros H0 H. unfold content, store, blen in *. cbn.
  rewrite app_assoc, take_app_le by (rewrite length_app, length_take; lia).
  rewrite take_ge by (rewrite length_app, length_take; lia). done.
Qed.

(** [recv_store] and [recv_enlarge] keep the buffer in order. *)
Lemma recv_store_wf ctx l :
  recv_wf (recv ctx) -> rb_last (recv ctx) + blen l <= rb_end (recv ctx) ->
  recv_wf (recv (recv_store ctx l)) /\ content (recv (recv_store ctx l)) = content (recv ctx) ++ l.
Proof.
  intros (Hb & Hp & Hl & Hd & He) Hn. pose proof (blen_nonneg l). split.
  - unfold recv_wf. cbn. split; [done|]. split; [lia|]. split; [lia|]. split; [|done].
    unfold store, blen in *. rewrite !length_app, length_take, length_drop. lia.
  - apply content_store; lia.
Qed.

Lemma recv_enlarge_wf ctx :
  recv_wf (recv ctx) -> rb_last (recv ctx) = rb_end (recv ctx) ->
  recv_wf (recv (recv_enlarge ctx)) /\ content (recv (recv_enlarge ctx)) = content (recv ctx).
Proof.
  intros (Hb & Hp & Hl & Hd & He) E. split.
  - unfold recv_wf. cbn. split; [done|]. split; [lia|]. split; [lia|]. split; [|lia].
    unfold blen in *. rewrite length_take. lia.
  - unfold content. cbn. rewrite take_take, E. f_equal. lia.
Qed.

(** The fields the loop leaves alone. *)
Definition same_but_recv (c c' : check_ctx_t) : Prop :=
  send_data c' = send_data c /\ send_pos c' = send_pos c /\ send_last c' = send_last c
  /\ send_end c' = send_end c /\ ctx_state c' = ctx_state c /\ status c' = status c.

Lemma same_but_recv_trans a b c : same_but_recv a b -> same_but_recv b c -> same_but_recv a c.
Proof. unfold same_but_recv. naive_solver congruence. Qed.

Lemma final_recv_mem rs : final_recv rs <> EndNoMem.
Proof. by induction rs as [|[]]. Qed.

(** The rest of a chunk is left for the next [recv]. *)
Definition after_recv (n : nat) (c : Z) (l : bytes) (rs : list recv_res) : list recv_res :=
  match drop n (c :: l) with [] => rs | c' :: l' => RData c' l' :: rs end.

Lemma after_recv_spec n c l rs :
  (0 < n)%nat ->
  (recv_fuel (after_recv n c l rs) < recv_fuel (RData c l :: rs))%nat
  /\ delivered (after_recv n c l rs) = drop n (c :: l) ++ delivered rs
  /\ final_recv (after_recv n c l rs) = final_recv rs.
Proof.
  intros Hn. unfold after_recv. destruct n as [|n]; [lia|]. rewrite skipn_cons.
  pose proof (length_drop l n) as Hl. unfold recv_fuel.
  destruct (drop n l) as [|c' l'] eqn:E; cbn in *; (split; [lia|done]).
Qed.

(** What the loop leaves, for the data and the end of [rs]. *)
Definition loop_post (rs : list recv_res) (ctx : check_ctx_t) (e : recv_end) (ctx' : check_ctx_t) : Prop :=
  recv_wf (recv ctx') /\ same_but_recv ctx ctx'
  /\ (e = EndNoMem \/ (e = final_recv rs /\ content (recv ctx') = content (recv ctx) ++ delivered rs))
  /\ (rb_last (recv ctx) + blen (delivered rs) < rb_end (recv ctx) ->
      e <> EndNoMem /\ rb_blk (recv ctx') = rb_blk (recv ctx) /\ rb_pos (recv ctx') = rb_pos (recv ctx)
      /\ rb_end (recv ctx') = rb_end (recv ctx)
      /\ rb_last (recv ctx') = rb_last (recv ctx) + blen (delivered rs)).

(** The start of a round: there is room afterwards. *)
Definition with_room (ctx : check_ctx_t) : check_ctx_t :=
  if rb_end (recv ctx) - rb_last (recv ctx) =? 0 then recv_enlarge ctx else ctx.

Lemma with_room_spec ctx :
  recv_wf (recv ctx) ->
  recv_wf (recv (with_room ctx)) /\ content (recv (with_room ctx)) = content (recv ctx)
  /\ same_but_recv ctx (with_room ctx) /\ 0 < rb_end (recv (with_room ctx)) - rb_last (recv (with_room ctx))
  /\ (rb_last (recv ctx) < rb_end (recv ctx) -> with_room ctx = ctx).
Proof.
  intros Hwf. unfold with_room. destruct (Z.eqb_spec (rb_end (recv ctx) - rb_last (recv ctx)) 0).
  - destruct (recv_enlarge_wf ctx Hwf) as [W C]; [lia|].
    split; [done|]. split; [done|]. split; [done|]. split; [|lia].
    destruct Hwf as (_ & _ & _ & _ & He). cbn. lia.
  - split; [done|]. split; [done|]. split; [done|]. split; [|done].
    destruct Hwf as (_ & _ & ? & _ & ?). lia.
Qed.

(** A round that ends the loop. *)
Lemma loop_post_stop rs ctx :
  recv_wf (recv ctx) -> delivered rs = [] -> loop_post rs ctx (final_recv rs) (with_room ctx).
Proof.
  intros Hwf Hd. destruct (with_room_spec ctx Hwf) as (W1 & C1 & S1 & _ & F1).
  unfold loop_post. rewrite Hd, app_nil_r, blen_nil. split; [done|]. split; [done|]. split; [by right|].
  intros Hlt. rewrite F1 by lia. split; [apply final_recv_mem|]. split_and!; done || lia.
Qed.

(** A round that stores [take n (c :: l)]. *)
Lemma loop_post_data n c l rs ctx e ctx' :
  recv_wf (recv ctx) -> n = Z.to_nat (rb_end (recv (with_room ctx)) - rb_last (recv (with_room ctx))) ->
  loop_post (after_recv n c l rs) (recv_store (with_room ctx) (take n (c :: l))) e ctx' ->
  loop_post (RData c l :: rs) ctx e ctx'.
Proof.
  intros Hwf Hn (W & S & R & N). destruct (with_room_spec ctx Hwf) as (W1 & C1 & S1 & N1 & F1).
  destruct (after_recv_spec n c l rs) as (_ & A2 & A3); [lia|].
  set (chunk := take n (c :: l)) in *.
  assert (Hc : blen chunk <= rb_end (recv (with_room ctx)) - rb_last (recv (with_room ctx)))
    by (unfold chunk, blen; rewrite length_take; lia).
  destruct (recv_store_wf (with_room ctx) chunk W1) as [W2 C2]; [lia|].
  split; [done|]. split; [eapply same_but_recv_trans; [exact S1|done]|].
  cbn [delivered final_recv]. rewrite A2, A3 in *. split.
  - destruct R as [->|[-> R]]; [by left|]. right. split; [done|]. rewrite R, C2, C1, <- !app_assoc. f_equal.
    rewrite !app_assoc. f_equal. unfold chunk. by rewrite take_drop.
  - intros Hlt. rewrite blen_app in Hlt |- *. pose proof (blen_nonneg (c :: l)). pose proof (blen_nonneg (delivered rs)).
    rewrite F1 in * by lia. rewrite blen_app in N.
    assert (Hb : blen chunk + blen (drop n (c :: l)) = blen (c :: l)).
    { rewrite <- blen_app. unfold chunk. by rewrite take_drop. }
    cbn [recv_store recv rb_last rb_end rb_blk rb_pos upd eta_rec eta_recv eta_ctx] in N.
    destruct N as (? & ? & ? & ? & ?); [lia|]. split_and!; done || lia.
Qed.

Lemma recv_loop_spec fuel al rs ctx :
  recv_wf (recv ctx) -> (recv_fuel rs <= fuel)%nat ->
  exists e ctx', recv_loop fuel al rs ctx = Some (e, ctx') /\ loop_post rs ctx e ctx'.
Proof.
  revert al rs ctx. induction fuel as [|fuel IH]; intros al rs ctx Hwf Hf; [by unfold recv_fuel in Hf; lia|].
  cbn [recv_loop].
  destruct (if rb_end (recv ctx) - rb_last (recv ctx) =? 0 then alloc al else (true, al)) as [ok al'] eqn:Ea.
  destruct ok; cycle 1.
  { exists EndNoMem, ctx. destruct (Z.eqb_spec (rb_end (recv ctx) - rb_last (recv ctx)) 0); [|by simplify_eq].
    split; [done|]. split; [done|]. split; [done|]. split; [by left|].
    pose proof (blen_nonneg (delivered rs)). lia. }
  cbn [negb]. fold (with_room ctx).
  pose proof (loop_post_stop rs ctx Hwf) as Hstop.
  destruct rs as [|[c l| | |] rs]; try (eexists _, _; split; [reflexivity|]; exact (Hstop eq_refl)).
  clear Hstop.
  set (n := Z.to_nat (rb_end (recv (with_room ctx)) - rb_last (recv (with_room ctx)))).
  destruct (with_room_spec ctx Hwf) as (W1 & _ & _ & N1 & _).
  destruct (after_recv_spec n c l rs) as (A1 & _); [lia|]. fold (after_recv n c l rs).
  destruct (recv_store_wf (with_room ctx) (take n (c :: l)) W1) as [W2 _].
  { unfold blen. rewrite length_take. lia. }
  destruct (IH al' (after_recv n c l rs) (recv_store (with_room ctx) (take n (c :: l))) W2) as (e & ctx' & -> & H); [lia|].
  exists e, ctx'. split; [done|]. by apply (loop_post_data n).
Qed.

(** ** The invariant of a peer *)

(** What every entry of the check type tables satisfies: a type that sends
    has a pool and an init function, a type that receives also parses. *)
Definition type_ok (t : ngx_check_conf_t) : bool :=
  match cc_send_handler t with
  | Some send_handler => need_pool t && bool_decide (is_Some (cc_init t))
  | Some peek_handler => true
  | _ => false
  end
  && match cc_recv_handler t with
     | Some recv_handler =>
       bool_decide (cc_send_handler t = Some send_handler) && bool_decide (is_Some (cc_parse t))
     | Some peek_handler => true
     | _ => false
     end
  && match cc_parse t, cc_init t, cc_reinit t with
     | Some http_parse, Some http_init, Some http_reinit => true
     | Some http_parse, _, _ => false
     | _, _, Some _ => true
     | _, _, None => bool_decide (cc_send_handler t <> Some send_handler)
     end.

Lemma stream_types_ok : Forall (fun t => type t <> 0 -> type_ok t = true) Stream.ngx_check_types.
Proof. unfold Stream.ngx_check_types, Http.ngx_check_types. rewrite !Forall_cons. by split_and!. Qed.

Lemma http_types_ok : Forall (fun t => type t <> 0 -> type_ok t = true) Http.ngx_check_types.
Proof. unfold Stream.ngx_check_types, Http.ngx_check_types. rewrite !Forall_cons. by split_and!. Qed.

(** The send pointers of the check data are in order. *)
Definition send_wf (ctx : check_ctx_t) : Prop :=
  0 <= send_pos ctx <= send_last ctx /\ send_last ctx = send_end ctx.

(** No buffer yet, or a buffer of positive size. *)
Definition buf_wf (b : recv_buf) : Prop :=
  match rb_blk b with None => True | Some _ => 0 < rb_end b end.

(** The saved state of the HTTP parser belongs to the current buffer. *)
Definition http_state_ok (ctx : check_ctx_t) : Prop :=
  exists s, sw_of_Z (ctx_state ctx) = Some s /\
  match rb_blk (recv ctx) with
  | None => s = sw_start /\ status ctx = status_zero
  | Some blk => parser_inv blk 0 (rb_pos (recv ctx)) s (status ctx)
  end.

(** The check data between two events; in the middle of a handler only
    [ctx_pre] holds. *)
Definition ctx_pre (ctx : check_ctx_t) : Prop := 0 <= send_end ctx /\ buf_wf (recv ctx).

Definition ctx_inv (t : ngx_check_conf_t) (ctx : check_ctx_t) : Prop :=
  send_wf ctx
  /\ (match rb_blk (recv ctx) with None => True | Some _ => recv_wf (recv ctx) end)
  /\ (cc_parse t = Some http_parse -> http_state_ok ctx).

(** The peer carries the functions of its check type. *)
Definition typed (t : ngx_check_conf_t) (p : ngx_upstream_check_peer_t) : Prop :=
  check_type (conf p) = Some t /\ type_ok t = true /\ cc_parse t <> Some fastcgi_parse
  /\ p_send_handler p = cc_send_handler t /\ p_recv_handler p = cc_recv_handler t
  /\ p_init p = cc_init t /\ p_parse p = cc_parse t /\ p_reinit p = cc_reinit t
  /\ (need_pool t = true -> pool p = true)
  /\ expect_body_regex (conf p) <> Null.

Definition conn_inv (t : ngx_check_conf_t) (p : ngx_upstream_check_peer_t) (c : ngx_connection_t) : Prop :=
  c_pool c = pool p
  /\ (c_write c = cc_send_handler t \/ c_write c = Some dummy_handler)
  /\ (c_read c = cc_recv_handler t \/ c_read c = Some discard_handler).

Definition peer_pre (t : ngx_check_conf_t) (p : ngx_upstream_check_peer_t) : Prop :=
  typed t p
  /\ (forall c, connection p = Some c -> conn_inv t p c)
  /\ (forall ctx, check_data p = Some ctx -> cc_send_handler t = Some send_handler /\ ctx_pre ctx).

Definition peer_inv (t : ngx_check_conf_t) (p : ngx_upstream_check_peer_t) : Prop :=
  typed t p
  /\ (forall c, connection p = Some c -> conn_inv t p c)
  /\ (forall ctx, check_data p = Some ctx -> cc_send_handler t = Some send_handler /\ ctx_inv t ctx)
  /\ (timer_set (check_timeout_ev p) = true -> connection p <> None)
  /\ (state p = NGX_HTTP_CHECK_SEND_DONE -> check_data p <> None).

Lemma ctx_inv_pre t ctx : ctx_inv t ctx -> ctx_pre ctx.
Proof.
  intros ([Ha Hb] & H & _). split; [lia|]. unfold buf_wf. destruct (rb_blk _); [|done].
  by destruct H as (_ & _ & _ & _ & ?).
Qed.

Lemma peer_inv_pre t p : peer_inv t p -> peer_pre t p.
Proof.
  intros (H1 & H2 & H3 & _). split; [done|]. split; [done|].
  intros ctx E. destruct (H3 ctx E). split; [done|]. by eapply ctx_inv_pre.
Qed.

Lemma type_ok_reinit t :
  type_ok t = true -> cc_send_handler t = Some send_handler -> is_Some (cc_reinit t).
Proof.
  unfold type_ok. intros H E. rewrite E in H.
  destruct (cc_reinit t); [done|]. exfalso. rewrite (bool_decide_eq_false_2 (Some send_handler <> Some send_handler)) in H by (intros Hn; by apply Hn).
  destruct (cc_parse t) as [[]|], (cc_init t) as [[]|]; by rewrite ?andb_false_r in H.
Qed.

(** Reinitialising puts the context back in order. *)
Lemma run_reinit_inv t r ctx :
  type_ok t = true -> cc_reinit t = Some r -> ctx_pre ctx -> ctx_inv t (run_reinit r ctx).
Proof.
  intros Ht Hr [Hs Hb]. unfold ctx_inv, send_wf, http_state_ok, recv_wf, buf_wf in *.
  assert (Hp : cc_parse t = Some http_parse -> r = http_reinit).
  { intros E. unfold type_ok in Ht. rewrite E, Hr in Ht.
    destruct (cc_init t) as [[]|], r; rewrite ?andb_false_r in Ht; done. }
  pose proof (blen_nonneg (rb_data (recv ctx))).
  destruct r; cbn in *; (split; [lia|]); (split; [destruct (rb_blk (recv ctx)); [|done];
    split; [done|lia]|]); intros E; specialize (Hp E); try done.
  exists sw_start. split; [done|]. destruct (rb_blk (recv ctx)); [|done]. apply parser_inv_start.
Qed.

(** What identifies a peer and is never changed by a handler. *)
Definition same_peer (p p' : ngx_upstream_check_peer_t) : Prop :=
  conf p' = conf p /\ shm p' = shm p /\ index p' = index p /\ peer_addr p' = peer_addr p
  /\ check_peer_addr p' = check_peer_addr p /\ upstream_name p' = upstream_name p
  /\ pool p' = pool p /\ p_send_handler p' = p_send_handler p /\ p_recv_handler p' = p_recv_handler p
  /\ p_init p' = p_init p /\ p_parse p' = p_parse p /\ p_reinit p' = p_reinit p.

Lemma same_peer_refl p : same_peer p p.
Proof. by repeat split. Qed.

Lemma same_peer_trans p q r : same_peer p q -> same_peer q r -> same_peer p r.
Proof. unfold same_peer. intros. destruct_and!. split_and!; congruence. Qed.

Lemma typed_same t p p' : same_peer p p' -> typed t p -> typed t p'.
Proof.
  unfold same_peer, typed. intros (-> & _ & _ & _ & _ & _ & -> & -> & -> & -> & -> & ->). done.
Qed.

Lemma conn_inv_same t p p' c : pool p' = pool p -> conn_inv t p c -> conn_inv t p' c.
Proof. unfold conn_inv. by intros ->. Qed.

#[export] Hint Resolve same_peer_refl : ngx.

(** A check has ended: nothing pending, and the check can start again. *)
Definition at_rest (p : ngx_upstream_check_peer_t) : Prop :=
  state p = NGX_HTTP_CHECK_ALL_DONE /\ timer_set (check_timeout_ev p) = false.

Lemma clean_connection_spec t p :
  peer_pre t p -> exists c, clean_connection p = Some c /\ forall c', c = Some c' -> conn_inv t p c'.
Proof.
  intros ((Ht & _) & Hc & _). unfold clean_connection.
  destruct (connection p) as [c|] eqn:E; [|by eexists].
  destruct (c_error c); [by eexists|]. rewrite Ht. cbn.
  destruct (_ && _); [|by eexists]. eexists. split; [done|]. intros c' [= <-].
  destruct (Hc c eq_refl) as (? & _ & _). split; [done|]. by split; right.
Qed.

(** Solve [same_peer p (p <| .. |>)]. *)
Ltac same_peer_tac := unfold same_peer; cbn; split_and!; congruence.

Lemma clean_event_spec t p s :
  peer_pre t p ->
  exists p', clean_event (p, s) = Some (p', s <| owner := NGX_INVALID_PID |>)
    /\ peer_inv t p' /\ same_peer p p' /\ at_rest p' /\ check_ev p' = check_ev p.
Proof.
  intros Hpre. destruct (clean_connection_spec t p Hpre) as (c & Ec & Hc).
  destruct Hpre as (Hty & _ & Hctx).
  assert (Hev : forall ev, timer_set (if timer_set ev then ngx_event_del_timer ev else ev) = false)
    by (intros ev; by destruct (timer_set ev) eqn:?).
  unfold clean_event. rewrite Ec. cbn [mbind option_bind].
  pose proof Hty as (_ & Htok & _ & _ & _ & _ & _ & Hre & _ & _).
  destruct (check_data p) as [ctx|] eqn:Ed.
  - destruct (Hctx ctx eq_refl) as [Hsend Hcp].
    destruct (type_ok_reinit t Htok Hsend) as [r Hr].
    eexists. split; [cbn; rewrite Ed, Hre, Hr; reflexivity|].
    split; [|split; [same_peer_tac|split; [split; [done|apply Hev]|done]]].
    split; [by eapply typed_same; [|exact Hty]; same_peer_tac|]. cbn.
    split; [intros c' E; eapply conn_inv_same; [|by apply Hc]; done|].
    split; [|by rewrite Hev]. intros ctx' [= <-]. split; [done|]. by apply run_reinit_inv.
  - eexists. split; [cbn; rewrite Ed; reflexivity|].
    split; [|split; [same_peer_tac|split; [split; [done|apply Hev]|done]]].
    split; [by eapply typed_same; [|exact Hty]; same_peer_tac|]. cbn.
    split; [intros c' E; eapply conn_inv_same; [|by apply Hc]; done|].
    split; [|by rewrite Hev]. done.
Qed.

(** ** What one event does *)

(** The shared peer after an event: untouched, or one verdict was recorded
    and the peer released. *)
Definition verdict (now : Z) (cf : ngx_upstream_check_srv_conf_t) (b : bool)
    (s : ngx_upstream_check_peer_shm_t) : ngx_upstream_check_peer_shm_t :=
  (status_update now cf b s) <| owner := NGX_INVALID_PID |>.

(** The event was handled: the invariant holds again, and either the check is
    still going on or it has ended with exactly one verdict. *)
Definition handled (t : ngx_check_conf_t) (now : Z) (x : cell) (r : option cell) : Prop :=
  exists p' s', r = Some (p', s') /\ peer_inv t p' /\ same_peer (fst x) p'
    /\ check_ev p' = check_ev (fst x)
    /\ (s' = snd x \/ exists b, s' = verdict now (conf (fst x)) b (snd x) /\ at_rest p').

Section Events.
Context (t : ngx_check_conf_t) (now : Z).

Lemma handled_verdict p q s b :
  peer_pre t q -> same_peer p q -> check_ev q = check_ev p ->
  handled t now (p, s) (clean_event (peer_update now b (q, s))).
Proof.
  intros Hpre Hsame Hev.
  destruct (clean_event_spec t q (status_update now (conf q) b s) Hpre) as (p' & E & Hi & Hs & Hr & He).
  exists p', (verdict now (conf p) b s). unfold peer_update. cbn [fst snd]. rewrite E.
  split; [unfold verdict; by destruct Hsame as (-> & _)|]. split; [done|].
  split; [by eapply same_peer_trans|]. split; [cbn; congruence|]. right. by exists b.
Qed.

Lemma handled_pending p q s :
  peer_inv t q -> same_peer p q -> check_ev q = check_ev p -> handled t now (p, s) (Some (q, s)).
Proof. intros. exists q, s. by eauto 6. Qed.

Lemma set_error_spec e p c :
  peer_pre t p -> connection p = Some c ->
  exists q, set_error e p = Some q /\ peer_pre t q /\ same_peer p q /\ check_ev q = check_ev p.
Proof.
  intros (Hty & Hc & Hd) E. unfold set_error. rewrite E. cbn [mbind option_bind].
  eexists. split; [done|]. split; [|split; [same_peer_tac|done]].
  split; [by eapply typed_same; [|exact Hty]; same_peer_tac|]. split; [|done].
  cbn. intros c' [= <-]. apply (Hc c E).
Qed.

Lemma peek_handled i p s c :
  peer_inv t p -> connection p = Some c -> handled t now (p, s) (peek_event now i (p, s)).
Proof.
  intros Hi Ec. pose proof (peer_inv_pre _ _ Hi) as Hpre. unfold peek_event. rewrite Ec.
  cbn [mbind option_bind]. case_decide.
  - by apply handled_verdict; auto with ngx.
  - destruct (set_error_spec true p c Hpre Ec) as (q & -> & Hq & Hs & He). by apply handled_verdict.
Qed.

(** The discard handler records no verdict, but may release the peer. *)
Lemma discard_safe i p s c :
  peer_inv t p -> connection p = Some c ->
  exists p' s', discard_event i (p, s) = Some (p', s') /\ peer_inv t p' /\ same_peer p p'
    /\ check_ev p' = check_ev p
    /\ ((p', s') = (p, s) \/ (s' = s <| owner := NGX_INVALID_PID |> /\ at_rest p')).
Proof.
  intros Hi Ec. pose proof (peer_inv_pre _ _ Hi) as Hpre. unfold discard_event. rewrite Ec.
  cbn [mbind option_bind]. destruct (_ && _).
  { exists p, s. split_and!; auto with ngx. }
  destruct (set_error_spec true p c Hpre Ec) as (q & -> & Hq & Hs & He). cbn [mbind option_bind].
  destruct (clean_event_spec t q s Hq) as (p' & -> & Hp' & Hs' & Hr & He').
  exists p', (s <| owner := NGX_INVALID_PID |>).
  split; [done|]. split; [done|]. split; [by eapply same_peer_trans|]. split; [congruence|]. by right.
Qed.

(** *** Sending *)

Lemma send_loop_spec rs ctx :
  send_wf ctx ->
  let '(e, ctx') := send_loop rs ctx in
  send_wf ctx' /\ recv ctx' = recv ctx /\ ctx_state ctx' = ctx_state ctx /\ status ctx' = status ctx
  /\ send_data ctx' = send_data ctx /\ send_pos ctx <= send_pos ctx'
  /\ (e = LDone <-> send_pos ctx' = send_last ctx').
Proof.
  assert (Hstop : forall e c, send_wf c -> (e = LDone <-> send_pos c = send_last c) ->
    send_wf c /\ recv c = recv c /\ ctx_state c = ctx_state c /\ status c = status c
    /\ send_data c = send_data c /\ send_pos c <= send_pos c
    /\ (e = LDone <-> send_pos c = send_last c)) by (intros; split_and!; done || lia).
  revert ctx. induction rs as [|r rs IH]; intros ctx Hwf; pose proof Hwf as [[H0 H1] H2]; cbn [send_loop].
  { destruct (Z.ltb_spec (send_pos ctx) (send_last ctx)); apply Hstop; try done.
    - split; [done|intros; exfalso; lia].
    - split; [intros; lia|done]. }
  destruct (Z.ltb_spec (send_pos ctx) (send_last ctx)); cycle 1.
  { apply Hstop; [done|]. split; [intros; lia|done]. }
  destruct r as [n| |].
  - set (ctx1 := ctx <| send_pos := send_pos ctx + Z.min (Zpos n) (send_last ctx - send_pos ctx) |>).
    specialize (IH ctx1). destruct (send_loop rs ctx1) as [e ctx'].
    destruct IH as (A & B & C & D & E & F & G).
    { subst ctx1. unfold send_wf. cbn. lia. }
    subst ctx1. cbn in *. split; [done|]. split; [done|]. split; [done|]. split; [done|].
    split; [done|]. split; [lia|done].
  - apply Hstop; [done|]. split; [done|intros; exfalso; lia].
  - apply Hstop; [done|]. split; [done|intros; exfalso; lia].
Qed.

Lemma send_loop_inv rs ctx : ctx_inv t ctx -> ctx_inv t (send_loop rs ctx).2.
Proof.
  intros (H1 & H2 & H3). pose proof (send_loop_spec rs ctx H1) as H.
  destruct (send_loop rs ctx) as [e ctx']. destruct H as (A & B & C & D & _). cbn.
  split; [done|]. unfold http_state_ok in *. by rewrite B, C, D.
Qed.

(** The check data the first send creates. *)
Lemma run_init_inv init cf :
  type_ok t = true -> cc_init t = Some init ->
  (run_init init cf ctx_zero).1 = NGX_OK /\ ctx_inv t (run_init init cf ctx_zero).2.
Proof.
  intros Ht Hi. pose proof (blen_nonneg (default [] (send cf))).
  assert (Hp : cc_parse t = Some http_parse -> init = http_init).
  { intros E. unfold type_ok in Ht. rewrite E, Hi in Ht.
    destruct init, (cc_reinit t) as [[]|]; rewrite ?andb_false_r in Ht; done. }
  destruct init; cbn; (split; [done|]); unfold ctx_inv, send_wf; cbn; (split; [lia|]);
    (split; [done|]); intros E; specialize (Hp E); try done.
  by exists sw_start.
Qed.

(** Replacing the check data and the connection counters of a peer. *)
Lemma peer_inv_data p ctx :
  peer_inv t p -> cc_send_handler t = Some send_handler -> ctx_inv t ctx ->
  peer_inv t (p <| check_data := Some ctx |>).
Proof.
  intros (Hty & Hc & Hd & Hti & Hst) Hs Hx.
  split; [by eapply typed_same; [|exact Hty]; same_peer_tac|]. cbn.
  split; [done|]. split; [by intros ctx' [= <-]|]. by split.
Qed.

Lemma peer_pre_data p ctx :
  peer_pre t p -> cc_send_handler t = Some send_handler -> ctx_pre ctx ->
  peer_pre t (p <| check_data := Some ctx |>).
Proof.
  intros (Hty & Hc & Hd) Hs Hx.
  split; [by eapply typed_same; [|exact Hty]; same_peer_tac|]. cbn.
  split; [done|]. by intros ctx' [= <-].
Qed.

Lemma send_prepare_spec i p :
  peer_inv t p -> cc_send_handler t = Some send_handler ->
  (exists q ctx, send_prepare i p = inl q /\ check_data q = Some ctx /\ peer_inv t q
     /\ same_peer p q /\ check_ev q = check_ev p /\ connection q = connection p)
  \/ send_prepare i p = inr p.
Proof.
  intros Hi Hs. pose proof Hi as (Hty & _ & _ & _ & _).
  destruct Hty as (_ & Htok & _ & _ & _ & Hin & _).
  unfold send_prepare. destruct (check_data p) as [ctx|] eqn:Ed.
  { left. exists p, ctx. split_and!; auto with ngx. }
  destruct (fst (alloc (io_alloc i))); [left|by right].
  assert (Hinit : is_Some (cc_init t)).
  { unfold type_ok in Htok. rewrite Hs in Htok. apply andb_true_iff in Htok as [Htok _].
    apply andb_true_iff in Htok as [Htok _]. apply andb_true_iff in Htok as [_ Htok].
    by apply bool_decide_eq_true in Htok. }
  destruct Hinit as [init Hinit]. rewrite Hin, Hinit.
  destruct (run_init_inv init (conf p) Htok Hinit) as [E1 E2].
  destruct (run_init init (conf p) ctx_zero) as [rc ctx]. cbn in E1, E2. subst rc.
  rewrite decide_True by done. eexists _, ctx. split; [done|]. split; [done|].
  split; [by apply peer_inv_data|]. split; [same_peer_tac|done].
Qed.

Lemma send_handled i p s c :
  peer_inv t p -> connection p = Some c -> cc_send_handler t = Some send_handler ->
  handled t now (p, s) (send_event now i (p, s)).
Proof.
  intros Hi Ec Hs. pose proof (peer_inv_pre _ _ Hi) as Hpre.
  unfold send_event. rewrite Ec. cbn [mbind option_bind].
  destruct (c_pool c) eqn:Ep; cbn [negb]; cycle 1.
  { apply handled_verdict; auto with ngx. }
  destruct (state p =? NGX_HTTP_CHECK_CONNECT_DONE) eqn:Est; cbn [negb]; cycle 1.
  { destruct (io_event i); [by apply handled_pending; auto with ngx|].
    apply handled_verdict; auto with ngx. }
  destruct (send_prepare_spec i p Hi Hs) as [(q & ctx & -> & Ed & Hq & Hsame & Hev & Hcq)| ->]; cycle 1.
  { apply handled_verdict; auto with ngx. }
  rewrite Ed. cbn [mbind option_bind].
  pose proof Hq as (_ & Hqc & Hqd & _). destruct (Hqd ctx Ed) as [_ Hctx].
  pose proof (send_loop_inv (io_send i) ctx Hctx) as Hctx'.
  destruct (send_loop (io_send i) ctx) as [e ctx']. cbn in Hctx'.
  assert (Hq' : peer_inv t (q <| check_data := Some ctx' |>)) by (by apply peer_inv_data).
  assert (Hsame' : same_peer p (q <| check_data := Some ctx' |>))
    by (eapply same_peer_trans; [exact Hsame|same_peer_tac]).
  destruct e.
  - destruct (send_pos ctx' =? send_last ctx'); [|by apply handled_pending].
    apply handled_pending; [|by eapply same_peer_trans; [exact Hsame'|same_peer_tac]|done].
    destruct Hq' as (Hty & Hc' & Hd' & Hti & Hst).
    split; [by eapply typed_same; [|exact Hty]; same_peer_tac|]. cbn.
    split; [intros c' [= <-]; apply (Hqc c); congruence|]. split; [done|]. by split.
  - by apply handled_pending.
  - destruct (set_error_spec true _ c (peer_inv_pre _ _ Hq')) as (q2 & -> & Hq2 & Hs2 & He2); [cbn; congruence|].
    apply handled_verdict; [done|by eapply same_peer_trans|by rewrite He2].
Qed.

End Events.

(** *** Receiving *)

(** The answer does not overflow the receive buffer. *)
Definition response_fits (pagesize : Z) (rs : list recv_res) (p : ngx_upstream_check_peer_t) : Prop :=
  match check_data p with
  | None => True
  | Some ctx =>
    match rb_blk (recv ctx) with
    | None => blen (delivered rs) < pagesize / 2
    | Some _ => rb_last (recv ctx) + blen (delivered rs) < rb_end (recv ctx)
    end
  end.

Section Receive.
Context (t : ngx_check_conf_t) (now : Z).
Context (regex_exec : ngx_regex_t -> bytes -> Z) (garbage pagesize : Z).

Lemma run_parse_ok pr cf ctx :
  ctx_inv t ctx -> is_Some (rb_blk (recv ctx)) -> cc_parse t = Some pr -> pr <> fastcgi_parse ->
  expect_body_regex cf <> Null ->
  exists out, run_parse regex_exec garbage pr cf ctx = Some out
    /\ po_rc out ∈ [NGX_OK; NGX_AGAIN; NGX_ERROR] /\ ctx_pre (po_ctx out)
    /\ (po_rc out = NGX_AGAIN -> ctx_inv t (po_ctx out)).
Proof.
  intros Hx [blk Eb] Hpr Hf Hre.
  assert (Hsimple : forall rc, rc ∈ [NGX_OK; NGX_AGAIN; NGX_ERROR] ->
    exists out, parse_ret rc ctx = Some out
    /\ po_rc out ∈ [NGX_OK; NGX_AGAIN; NGX_ERROR] /\ ctx_pre (po_ctx out)
    /\ (po_rc out = NGX_AGAIN -> ctx_inv t (po_ctx out))).
  { intros rc Hin. eexists. split; [done|]. split; [done|]. split; [by eapply ctx_inv_pre|done]. }
  destruct pr; cbn [run_parse]; [|done|..]; cycle 1.
  { unfold ngx_http_upstream_check_ssl_hello_parse. repeat case_match; apply Hsimple; set_solver. }
  { unfold ngx_http_upstream_check_mysql_parse. repeat case_match; apply Hsimple; set_solver. }
  { unfold ngx_http_upstream_check_ajp_parse. repeat case_match; apply Hsimple; set_solver. }
  destruct Hx as (Hsend & Hrecv & Hhttp). destruct (Hhttp Hpr) as (s & Es & Hinv).
  rewrite Eb in Hrecv, Hinv. pose proof Hrecv as (Hb & Hpos & Hend & Hdat & He).
  destruct (http_parse_ok regex_exec garbage cf ctx) as (out & E & Hin & Hag); [|done|].
  { split; [by split|]. by exists blk, s. }
  destruct (http_parse_frame regex_exec garbage cf ctx out E) as (F1 & F2 & F3 & F4 & F5 & F6).
  exists out. split; [done|]. split; [done|]. split.
  { split; [rewrite F3; destruct Hsend; lia|]. unfold buf_wf. by rewrite F4, Eb, F5. }
  intros EA. destruct (Hag EA) as [[G1 G2] (blk' & s' & G3 & G4 & G5)].
  split; [unfold send_wf; by rewrite F1, F2, F3|]. rewrite G3. split.
  - split; [done|]. split; [lia|]. split; [lia|]. split; [done|lia].
  - intros _. exists s'. by rewrite G3.
Qed.

(** The parser's request to mark the connection bad. *)
Lemma flag_error_spec (flag : bool) (again : Prop) p c :
  peer_pre t p -> (again -> peer_inv t p) -> connection p = Some c ->
  exists q c', (if flag then set_error true p else Some p) = Some q
    /\ peer_pre t q /\ same_peer p q /\ check_ev q = check_ev p /\ connection q = Some c'
    /\ (again -> peer_inv t q).
Proof.
  intros (A & B & C) Hi Ec. destruct flag; cycle 1.
  { exists p, c. by split_and!; auto with ngx. }
  unfold set_error. rewrite Ec. cbn [mbind option_bind].
  eexists _, _. split; [done|]. split; [|split; [same_peer_tac|split; [done|split; [done|]]]].
  - split; [by eapply typed_same; [|exact A]; same_peer_tac|]. split; [|done]. cbn.
    intros c' [= <-]. by apply (B c).
  - intros Ha. destruct (Hi Ha) as (A' & B' & C' & D & F).
    split; [by eapply typed_same; [|exact A']; same_peer_tac|]. cbn.
    split; [intros c' [= <-]; by apply (B' c)|]. split; [done|]. by split.
Qed.

(** Recording a verdict after [peer->state = NGX_HTTP_CHECK_RECV_DONE]. *)
Lemma handled_recv_done p q s b :
  peer_pre t q -> same_peer p q -> check_ev q = check_ev p ->
  handled t now (p, s) (clean_event
    ((peer_update now b (q, s)).1 <| state := NGX_HTTP_CHECK_RECV_DONE |>, (peer_update now b (q, s)).2)).
Proof.
  intros (A & B & C) H1 H2.
  change (_, (peer_update now b (q, s)).2)
    with (peer_update now b (q <| state := NGX_HTTP_CHECK_RECV_DONE |>, s)).
  apply handled_verdict; [|by eapply same_peer_trans; [exact H1|same_peer_tac]|done].
  split; [by eapply typed_same; [|exact A]; same_peer_tac|]. by split.
Qed.

Lemma conclude_handled e p q s c :
  e = EndClosed \/ e = EndAgain ->
  peer_inv t q -> connection q = Some c -> cc_recv_handler t = Some recv_handler ->
  (forall ctx, check_data q = Some ctx -> is_Some (rb_blk (recv ctx))) ->
  check_data q <> None -> same_peer p q -> check_ev q = check_ev p ->
  handled t now (p, s) (recv_conclude now regex_exec garbage e q s).
Proof.
  intros He Hq Ec Hr Hblk Hcd Hsame Hev. unfold recv_conclude.
  destruct (check_data q) as [ctx|] eqn:Ed; [|done]. cbn [mbind option_bind].
  pose proof Hq as (Hty & _ & Hqd & _). destruct (Hqd ctx Ed) as [Hs Hx].
  destruct Hty as (_ & Htok & Hnf & _ & _ & _ & Hpa & _ & _ & Hre).
  assert (Hparse : is_Some (cc_parse t)).
  { unfold type_ok in Htok. rewrite Hr in Htok. apply andb_true_iff in Htok as [Htok _].
    apply andb_true_iff in Htok as [_ Htok]. apply andb_true_iff in Htok as [_ Htok].
    by apply bool_decide_eq_true in Htok. }
  destruct Hparse as [pr Hpr]. rewrite Hpa, Hpr. cbn [mbind option_bind].
  destruct (run_parse_ok pr (conf q) ctx Hx (Hblk ctx eq_refl) Hpr) as (out & -> & Hin & Hpre & Hag);
    [congruence|done|]. cbn [mbind option_bind].
  pose proof (peer_pre_data t q (po_ctx out) (peer_inv_pre _ _ Hq) Hs Hpre) as Hqp.
  assert (Hqs : same_peer p (q <| check_data := Some (po_ctx out) |>))
    by (eapply same_peer_trans; [exact Hsame|same_peer_tac]).
  destruct (flag_error_spec (po_error out) (po_rc out = NGX_AGAIN) _ c Hqp) as
    (q2 & c2 & -> & Hp2 & Hs2 & He2 & Hc2 & Ha2);
    [by intros EA; apply peer_inv_data; auto|done|]. cbn [mbind option_bind].
  pose proof (same_peer_trans _ _ _ Hqs Hs2) as Hs2'.
  assert (He2' : check_ev q2 = check_ev p) by (rewrite He2; exact Hev).
  destruct (po_rc out) eqn:Erc; try (by apply handled_recv_done).
  case_decide; [|by apply handled_pending; auto].
  destruct (set_error_spec t true q2 c2 Hp2 Hc2) as (q3 & -> & Hp3 & Hs3 & He3).
  apply handled_recv_done; [done|by eapply same_peer_trans|congruence].
Qed.

(** The first buffer of a process. *)
Lemma recv_alloc_inv ctx :
  2 <= pagesize -> ctx_inv t ctx -> rb_blk (recv ctx) = None -> ctx_inv t (recv_alloc pagesize ctx).
Proof.
  intros Hpg (H1 & _ & H3) Eb. assert (1 <= pagesize / 2) by (apply Z.div_le_lower_bound; lia).
  split; [done|]. cbn. split; [unfold recv_wf, blen; cbn; split; [done|lia]|].
  intros E. destruct (H3 E) as (s & Es & Hs). rewrite Eb in Hs. destruct Hs as [-> Hst].
  exists sw_start. split; [done|]. cbn. rewrite Hst. split; [done|cbn; lia].
Qed.

(** The context after the receive loop. *)
Lemma recv_loop_inv al rs ctx :
  ctx_inv t ctx -> is_Some (rb_blk (recv ctx)) ->
  (cc_parse t = Some http_parse -> rb_last (recv ctx) + blen (delivered rs) < rb_end (recv ctx)) ->
  exists e ctx', recv_loop (recv_fuel rs) al rs ctx = Some (e, ctx')
    /\ ctx_inv t ctx' /\ is_Some (rb_blk (recv ctx')).
Proof.
  intros (H1 & H2 & H3) [blk Eb] Hfit. rewrite Eb in H2.
  destruct (recv_loop_spec (recv_fuel rs) al rs ctx H2) as
    (e & ctx' & E & W & (S1 & S2 & S3 & S4 & S5 & S6) & _ & N); [done|].
  exists e, ctx'. split; [done|]. split; [|by destruct W].
  split; [unfold send_wf; by rewrite S2, S3, S4|].
  split; [destruct (rb_blk (recv ctx')); [done|by destruct W as [[? ?] _]]|].
  intros Hp. destruct (N (Hfit Hp)) as (_ & Eb' & Ep & _).
  destruct (H3 Hp) as (s & Es & Hs). exists s. by rewrite S5, S6, Eb', Ep.
Qed.

Lemma recv_handled i p s c :
  2 <= pagesize -> peer_inv t p -> connection p = Some c -> cc_recv_handler t = Some recv_handler ->
  (cc_parse t = Some http_parse -> response_fits pagesize (io_recv i) p) ->
  handled t now (p, s) (recv_event now regex_exec garbage pagesize i (p, s)).
Proof.
  intros Hpg Hi Ec Hr Hfit. pose proof (peer_inv_pre _ _ Hi) as Hpre.
  unfold recv_event. rewrite Ec. cbn [mbind option_bind].
  destruct (Z.eqb_spec (state p) NGX_HTTP_CHECK_SEND_DONE) as [Est|Est]; cbn [negb]; cycle 1.
  { destruct (io_event i); [by apply handled_pending; auto with ngx|].
    apply handled_verdict; auto with ngx. }
  pose proof Hi as (Hty & Hcn & Hd & _ & Hst). specialize (Hst Est).
  destruct (check_data p) as [ctx|] eqn:Ed; [|done]. cbn [mbind option_bind].
  destruct (Hd ctx eq_refl) as [Hs Hx]. pose proof Hty as (_ & Htok & _ & _ & _ & _ & _ & _ & Hpool & _).
  assert (Hcp : c_pool c = true).
  { destruct (Hcn c Ec) as (-> & _). apply Hpool. unfold type_ok in Htok. rewrite Hs in Htok.
    do 3 apply andb_true_iff in Htok as [Htok _]. done. }
  rewrite Hcp. cbn [negb]. unfold response_fits in Hfit. rewrite Ed in Hfit.
  set (fresh := match rb_blk (recv ctx) with None => true | Some _ => false end).
  destruct (if fresh then alloc (io_alloc i) else (true, io_alloc i)) as [ok al].
  destruct ok; cbn [negb]; [|apply handled_verdict; auto with ngx].
  set (ctx1 := if fresh then recv_alloc pagesize ctx else ctx).
  assert (H1 : ctx_inv t ctx1 /\ is_Some (rb_blk (recv ctx1)) /\ (cc_parse t = Some http_parse ->
    rb_last (recv ctx1) + blen (delivered (io_recv i)) < rb_end (recv ctx1))).
  { subst ctx1 fresh. destruct (rb_blk (recv ctx)) eqn:Eb; [by eauto|].
    split; [by apply recv_alloc_inv|]. split; [done|]. cbn. intros Hp. specialize (Hfit Hp). lia. }
  destruct H1 as (Hx1 & Hb1 & Hf1).
  destruct (recv_loop_inv al (io_recv i) ctx1 Hx1 Hb1 Hf1) as (e & ctx2 & -> & Hx2 & Hb2).
  cbn [mbind option_bind].
  pose proof (peer_inv_data t p ctx2 Hi Hs Hx2) as Hq. set (q := p <| check_data := Some ctx2 |>) in *.
  assert (Hsame : same_peer p q) by same_peer_tac.
  assert (Hcq : connection q = Some c) by done.
  destruct e.
  1,2: eapply conclude_handled; try done; [by auto|by intros ctx' [= <-]].
  - destruct (set_error_spec t true q c (peer_inv_pre _ _ Hq) Hcq) as (q3 & -> & Hp3 & Hs3 & He3).
    apply handled_verdict; [done|by eapply same_peer_trans|by rewrite He3].
  - apply handled_verdict; [by apply peer_inv_pre|done|done].
Qed.

End Receive.

(** *** Starting and timing out *)

(** Like [handled], with the stream module's failed connect, which records a
    verdict but keeps the peer. *)
Definition started (t : ngx_check_conf_t) (now : Z) (x : cell) (r : option cell) : Prop :=
  exists p' s', r = Some (p', s') /\ peer_inv t p' /\ same_peer (fst x) p'
    /\ check_ev p' = check_ev (fst x)
    /\ (s' = snd x \/ (exists b, s' = verdict now (conf (fst x)) b (snd x) /\ at_rest p')
        \/ s' = status_update now (conf (fst x)) false (snd x)).

Lemma handled_started t now x r : handled t now x r -> started t now x r.
Proof. intros (p' & s' & ? & ? & ? & ? & [?|?]); exists p', s'; split_and!; auto. Qed.

Lemma started_same t now p q s r :
  same_peer p q -> check_ev q = check_ev p -> started t now (q, s) r -> started t now (p, s) r.
Proof.
  intros Hs He (p' & s' & -> & Hi & Hsame & Hev & Ho). exists p', s'.
  split; [done|]. split; [done|]. split; [by eapply same_peer_trans|]. cbn in *.
  split; [congruence|]. destruct Hs as (E & _). by rewrite <- E.
Qed.

Section Start.
Context (t : ngx_check_conf_t) (now : Z).
Context (regex_exec : ngx_regex_t -> bytes -> Z) (garbage pagesize : Z) (Hpg : 2 <= pagesize).

(** Dropping or replacing the connection of a peer whose timer is not set. *)
Lemma peer_inv_connection p c :
  peer_inv t p -> timer_set (check_timeout_ev p) = false ->
  (forall c', c = Some c' -> conn_inv t p c') ->
  peer_inv t (p <| connection := c |>).
Proof.
  intros (Hty & _ & Hd & _ & Hst) Htm Hc.
  split; [by eapply typed_same; [|exact Hty]; same_peer_tac|]. cbn.
  split; [by apply Hc|]. split; [done|]. split; [congruence|done].
Qed.

Lemma type_ok_send : type_ok t = true ->
  cc_send_handler t = Some send_handler \/ cc_send_handler t = Some peek_handler.
Proof. unfold type_ok. destruct (cc_send_handler t) as [[]|]; auto; done. Qed.

Lemma connect_done_handled ready i p s c :
  peer_inv t p -> connection p = Some c -> c_pool c = pool p ->
  handled t now (p, s) (connect_done now regex_exec garbage pagesize ready i p s).
Proof.
  intros Hi Ec Hcp. unfold connect_done. rewrite Ec. cbn [mbind option_bind].
  pose proof Hi as (Hty & _ & Hd & _ & Hst).
  pose proof Hty as (_ & Htok & _ & Hsh & Hrh & _).
  match goal with |- context [if ready then _ else Some (?q0, _)] => set (q := q0) end.
  assert (Hq : peer_inv t q).
  { split; [by eapply typed_same; [|exact Hty]; same_peer_tac|]. cbn.
    split; [intros c' [= <-]; split_and!; cbn; auto|]. split; [done|]. split; [done|].
    intros E. by vm_compute in E. }
  assert (Hsame : same_peer p q) by same_peer_tac.
  destruct ready; [|by apply handled_pending].
  assert (Hcq : exists c', connection q = Some c') by (by eexists). destruct Hcq as [c' Hcq].
  change (p_send_handler q) with (p_send_handler p). rewrite Hsh.
  assert (Hw : forall r, handled t now (q, s) r -> handled t now (p, s) r).
  { intros r (p' & s' & -> & A & B & C & D). exists p', s'. split; [done|]. split; [done|].
    split; [by eapply same_peer_trans|]. by split. }
  destruct (type_ok_send Htok) as [E|E]; rewrite E; cbn [mbind option_bind run_handler]; apply Hw.
  - by eapply send_handled.
  - by eapply peek_handled.
Qed.

(** The failure path of a connect. *)
Definition fails_well (failed : cell -> option cell) : Prop :=
  forall p s, peer_inv t p -> started t now (p, s) (failed (p, s)).

Lemma connect_new_started ty failed i p s :
  fails_well failed -> peer_inv t p -> timer_set (check_timeout_ev p) = false ->
  started t now (p, s) (connect_new now regex_exec garbage pagesize ty failed i (p, s)).
Proof.
  intros Hf Hi Htm. unfold connect_new.
  set (q := p <| pc_type := ty |> <| connection := None |>).
  assert (Hq : peer_inv t q).
  { apply (peer_inv_connection (p <| pc_type := ty |>)); [|done|done].
    destruct Hi as (Hty & Hc & Hd & Hti & Hst).
    split; [by eapply typed_same; [|exact Hty]; same_peer_tac|]. by split_and!. }
  assert (Hsame : same_peer p q) by same_peer_tac.
  set (q' := q <| connection := Some (new_conn q) |>).
  assert (Hq' : forall ready, handled t now (p, s)
    (connect_done now regex_exec garbage pagesize ready i q' s)).
  { intros ready. unfold connect_done. cbn [q' connection upd eta_rec eta_peer mbind option_bind].
    set (c1 := (new_conn q) <| c_write := p_send_handler q |> <| c_read := p_recv_handler q |>).
    pose proof Hq as (Hty & _). pose proof Hty as (_ & Htok & _ & Hsh & Hrh & _).
    pose proof (connect_done_handled ready i (q <| connection := Some c1 |>) s c1) as H.
    assert (Hc1 : handled t now (q <| connection := Some c1 |>, s)
      (connect_done now regex_exec garbage pagesize ready i (q <| connection := Some c1 |>) s)).
    { apply H; [|done|done]. apply peer_inv_connection; [done|done|].
      intros c' [= <-]. split_and!; cbn; auto. }
    destruct Hc1 as (p' & s' & E & A & B & C & D). exists p', s'. split; [exact E|]. split; [done|].
    split; [eapply same_peer_trans; [exact Hsame|]; eapply same_peer_trans; [|exact B]; same_peer_tac|].
    by split. }
  destruct (io_connect i).
  1,2: eapply started_same; [exact Hsame|done|by apply Hf].
  all: apply handled_started, Hq'.
Qed.

Lemma connect_reuse_started fresh i p s :
  (forall q, peer_inv t q -> same_peer p q -> check_ev q = check_ev p ->
     timer_set (check_timeout_ev q) = false -> started t now (q, s) (fresh (q, s))) ->
  peer_inv t p -> timer_set (check_timeout_ev p) = false ->
  started t now (p, s) (connect_reuse now regex_exec garbage pagesize fresh i (p, s)).
Proof.
  intros Hf Hi Htm. unfold connect_reuse. destruct (connection p) as [c|] eqn:Ec.
  - case_decide.
    + apply handled_started. eapply connect_done_handled; [done|done|].
      destruct Hi as (_ & Hc & _). by destruct (Hc c Ec).
    + assert (Hs : same_peer p (p <| connection := None |>)) by same_peer_tac.
      eapply started_same; [exact Hs|done|]. apply Hf; [by apply peer_inv_connection|done|done|done].
  - apply Hf; auto with ngx.
Qed.

Lemma stream_connect_started i p s :
  peer_inv t p -> timer_set (check_timeout_ev p) = false ->
  started t now (p, s) (stream_connect now regex_exec garbage pagesize i (p, s)).
Proof.
  intros Hi Htm. apply connect_reuse_started; [|done|done]. intros q Hq Hs He Ht.
  pose proof Hq as ((E & _) & _). cbn [fst]. rewrite E. cbn [mbind option_bind].
  apply connect_new_started; [|done|done]. intros p' s' Hp'. exists p', (status_update now (conf p') false s').
  split_and!; auto with ngx.
Qed.

Lemma http_connect_started i p s :
  peer_inv t p -> timer_set (check_timeout_ev p) = false ->
  started t now (p, s) (http_connect now regex_exec garbage pagesize i (p, s)).
Proof.
  intros Hi Htm. apply connect_reuse_started; [|done|done]. intros q Hq Hs He Ht.
  apply connect_new_started; [|done|done]. intros p' s' Hp'.
  apply handled_started, handled_verdict; auto using peer_inv_pre with ngx.
Qed.

(** The timeout handlers run when the timer was set: there is a connection. *)
Lemma timeout_handled p s c :
  peer_inv t p -> connection p = Some c ->
  handled t now (p, s) (http_timeout now (p, s))
  /\ (pc_type p <> pc_unset -> handled t now (p, s) (stream_timeout now (p, s))).
Proof.
  intros Hi Ec. pose proof (peer_inv_pre _ _ Hi) as Hpre.
  assert (H : forall e b, handled t now (p, s)
    (q ← set_error e p; clean_event (peer_update now b (q, s)))).
  { intros e b. destruct (set_error_spec t e p c Hpre Ec) as (q & -> & Hq & Hs & He).
    by apply handled_verdict. }
  split; [apply H|]. unfold stream_timeout. destruct (pc_type p); [done|intros _; apply H..].
Qed.

End Start.

(** ** The receive loop as a whole *)

Lemma recv_loop_mem fuel rs ctx e ctx' : recv_loop fuel [] rs ctx = Some (e, ctx') -> e <> EndNoMem.
Proof.
  revert rs ctx. induction fuel as [|fuel IH]; intros rs ctx; cbn [recv_loop]; [done|].
  replace (if rb_end (recv ctx) - rb_last (recv ctx) =? 0 then alloc [] else (true, [])) with (true, @nil bool)
    by (by destruct (_ =? 0)).
  cbn [negb]. destruct rs as [|[c l| | |] rs]; try (by intros [= <- _]). apply IH.
Qed.

(** C29: the receive loop terminates and collects exactly what the peer sent.
    For any results of [recv] (data in pieces of any size, then an end), with
    one round for every byte and result to come, the loop ends the way [recv]
    does, and the buffer, enlarged as often as needed, holds what it held
    before followed by all the bytes delivered, in order, with its pointers
    still in order. *)
Theorem recv_loop_collects fuel rs ctx :
  recv_wf (recv ctx) -> (recv_fuel rs <= fuel)%nat ->
  exists ctx', recv_loop fuel [] rs ctx = Some (final_recv rs, ctx')
    /\ content (recv ctx') = content (recv ctx) ++ delivered rs /\ recv_wf (recv ctx')
    /\ status ctx' = status ctx /\ ctx_state ctx' = ctx_state ctx.
Proof.
  intros Hwf Hf. destruct (recv_loop_spec fuel [] rs ctx Hwf Hf) as (e & ctx' & E & W & S & R & _).
  pose proof (recv_loop_mem _ _ _ _ _ E) as Hm. destruct R as [->|[-> R]]; [done|].
  exists ctx'. destruct S as (_ & _ & _ & _ & ? & ?). by split_and!.
Qed.

(** A buffer of 4 bytes that has to be enlarged twice. *)
Definition ex_recv_ctx : check_ctx_t := ctx_zero <| recv := mk_recv (Some 0%nat) [] 0 0 4 |> <| next_blk := 1%nat |>.

Definition ex_pieces : list recv_res := [RData 72 (s2b "TTP/1.1"); RData 32 (s2b "200 OK"); RClosed].

Lemma recv_loop_collects_witness :
  exists ctx', recv_loop 20 [] ex_pieces ex_recv_ctx = Some (EndClosed, ctx')
    /\ content (recv ctx') = s2b "HTTP/1.1 200 OK" /\ recv_wf (recv ctx').
Proof.
  destruct (recv_loop_collects 20 ex_pieces ex_recv_ctx) as (ctx' & E & C & W & _).
  - split; [exists 0%nat; reflexivity|]. split; [split; discriminate|]. split; [discriminate|]. split; [discriminate|reflexivity].
  - apply (bool_decide_unpack _). vm_compute. exact I.
  - exists ctx'. split; [exact E|]. split; [exact C|exact W].
Defined.
