(* ===== verification/CheckWorker.v ===== *)
(** * A worker process and its events

    The event loop of a worker as a step function on [process]: expired
    timers, connection events, the clock and the exit signal.  The two check
    modules are instances of one interface ([CheckModule]); the theorems on
    whole runs are proved against its laws ([CheckModuleOk]). *)

From S2P Require Import Prelude NgxString StatusLine CheckTypes CheckProto CheckCore CheckSafety.

(** ** The interface of a check module *)

(** What the event loop calls in a module: the handlers of the two timers. *)
Class CheckModule := {
  cm_begin : io -> process -> nat -> option process;
  cm_timeout : process -> nat -> option process
}.

(** ** Events *)

Inductive event : Set :=
| EvBegin (k : nat)      (** the [check_ev] timer of peer [k] *)
| EvTimeout (k : nat)    (** the [check_timeout_ev] timer of peer [k] *)
| EvWrite (k : nat)      (** the connection of peer [k] is writable *)
| EvRead (k : nat)       (** the connection of peer [k] is readable *)
| EvTime (ms : Z)        (** time passes *)
| EvExit.                (** the worker is told to quit *)

Definition peer_of (w : process) (k : nat) : option ngx_upstream_check_peer_t :=
  ps ← peers_ctx w; peers ps !! k.

Definition conn_of (w : process) (k : nat) : option ngx_connection_t :=
  p ← peer_of w k; connection p.

Definition upd_peer (k : nat) (f : ngx_upstream_check_peer_t -> ngx_upstream_check_peer_t) (w : process)
    : process :=
  match peers_ctx w with
  | Some ps => w <| peers_ctx := Some (ps <| peers := alter f k (peers ps) |>) |>
  | None => w
  end.

(** [ngx_event_expire_timers] clears [timer_set] before it calls the handler. *)
Definition expire_check (p : ngx_upstream_check_peer_t) : ngx_upstream_check_peer_t :=
  p <| check_ev := ngx_event_del_timer (check_ev p) |>.

Definition expire_timeout (p : ngx_upstream_check_peer_t) : ngx_upstream_check_peer_t :=
  p <| check_timeout_ev := ngx_event_del_timer (check_timeout_ev p) |>.

Section Worker.
Context (regex_exec : ngx_regex_t -> bytes -> Z) (garbage pagesize : Z).
Context `{M : CheckModule}.

(** A handler set on a connection event: both modules start theirs with the
    exit test. *)
Definition run_event (h : ev_handler) (i : io) : process -> nat -> option process :=
  guarded (fun w => run_handler (ngx_current_msec w) regex_exec garbage pagesize h i).

(** One turn of the event loop; an event that is not pending does nothing. *)
Definition step (w : process) (ev : event) (i : io) : option process :=
  match ev with
  | EvBegin k =>
    match peer_of w k with
    | Some p =>
      if timer_due (ngx_current_msec w) (check_ev p)
      then cm_begin i (upd_peer k expire_check w) k
      else Some w
    | None => Some w
    end
  | EvTimeout k =>
    match peer_of w k with
    | Some p =>
      if timer_due (ngx_current_msec w) (check_timeout_ev p)
      then cm_timeout (upd_peer k expire_timeout w) k
      else Some w
    | None => Some w
    end
  | EvWrite k =>
    match conn_of w k ≫= c_write with
    | Some h => run_event h i w k
    | None => Some w
    end
  | EvRead k =>
    match conn_of w k ≫= c_read with
    | Some h => run_event h i w k
    | None => Some w
    end
  | EvTime ms => Some (w <| ngx_current_msec := u64 (ngx_current_msec w + ms) |>)
  | EvExit => Some (w <| ngx_quit := true |>)
  end.

(** A response read for an HTTP check fits the receive buffer. *)
Definition fits (w : process) (ev : event) (i : io) : Prop :=
  match ev with
  | EvRead k => forall p, peer_of w k = Some p -> p_parse p = Some http_parse ->
                          response_fits pagesize (io_recv i) p
  | _ => True
  end.

Inductive reachable (w0 : process) : process -> Prop :=
| reach_refl : reachable w0 w0
| reach_step w ev i w' :
  reachable w0 w -> fits w ev i -> step w ev i = Some w' -> reachable w0 w'.

End Worker.

(** ** The invariant of a worker *)

(** A peer before [add_timers]: no timer, no connection. *)
Definition idle (p : ngx_upstream_check_peer_t) : Prop :=
  timer_set (check_ev p) = false /\ timer_set (check_timeout_ev p) = false /\ connection p = None.

Definition proc_inv (w : process) : Prop :=
  exit_flag w = false -> forall ps k p, peers_ctx w = Some ps -> peers ps !! k = Some p ->
  match peers_shm ps with
  | Some sh => shm p = Some k /\ (k < length (sh_peers sh))%nat /\ exists t, peer_inv t p
  | None => idle p
  end.

(** The laws of a module: its timer handlers return, and keep the invariant. *)
Class CheckModuleOk (M : CheckModule) := {
  begin_ok i w k p : proc_inv w -> exit_flag w = false -> has_shm w = true -> peer_of w k = Some p ->
    exists w', cm_begin i w k = Some w' /\ proc_inv w';
  begin_idle i w k : proc_inv w -> (exit_flag w = true \/ has_shm w = false) ->
    exists w', cm_begin i w k = Some w' /\ proc_inv w';
  timeout_ok w k p : proc_inv w -> exit_flag w = false -> has_shm w = true ->
    peer_of w k = Some p -> connection p <> None ->
    exists w', cm_timeout w k = Some w' /\ proc_inv w';
  timeout_exit w k : exit_flag w = true ->
    exists w', cm_timeout w k = Some w' /\ exit_flag w' = true
}.

(** *** Working on one peer *)

Lemma has_shm_inv w : has_shm w = true ->
  exists ps sh, peers_ctx w = Some ps /\ peers_shm ps = Some sh.
Proof.
  unfold has_shm. destruct (peers_ctx w) as [ps|]; [|done]. intros H%bool_decide_eq_true.
  destruct H as [sh E]. by exists ps, sh.
Qed.

(** A function that handles the cell of a peer well can be applied to it. *)
Definition safe (t : ngx_check_conf_t) (x : cell) (r : option cell) : Prop :=
  exists p' s', r = Some (p', s') /\ peer_inv t p' /\ same_peer (fst x) p'.

Lemma started_safe t now x r : started t now x r -> safe t x r.
Proof. intros (p' & s' & ? & ? & ? & _). by exists p', s'. Qed.

Lemma handled_safe t now x r : handled t now x r -> safe t x r.
Proof. intros. by eapply started_safe, handled_started. Qed.

Lemma with_cell_safe w k p f :
  proc_inv w -> exit_flag w = false -> has_shm w = true -> peer_of w k = Some p ->
  (forall t s, peer_inv t p -> safe t (p, s) (f (p, s))) ->
  exists w', with_cell w k f = Some w' /\ proc_inv w' /\ exit_flag w' = false.
Proof.
  intros Hinv Hex Hsh Hp Hf. destruct (has_shm_inv w Hsh) as (ps & sh & Eps & Esh).
  unfold peer_of in Hp. rewrite Eps in Hp. cbn in Hp.
  pose proof (Hinv Hex ps k p Eps Hp) as Hk. rewrite Esh in Hk. destruct Hk as (Ek & Hlen & t & Ht).
  destruct (lookup_lt_is_Some_2 (sh_peers sh) k Hlen) as [s Es].
  unfold with_cell, get_cell. rewrite Eps. cbn [mbind option_bind]. rewrite Hp.
  cbn [mbind option_bind]. rewrite Esh. cbn [mbind option_bind]. rewrite Ek. cbn [mbind option_bind].
  rewrite Es. cbn [mbind option_bind].
  destruct (Hf t s Ht) as (p' & s' & -> & Hp' & Hsame). cbn [mbind option_bind].
  pose proof Hsame as (_ & Hshm & _). cbn in Hshm.
  unfold put_cell. rewrite Eps. cbn [mbind option_bind]. rewrite Esh. cbn [mbind option_bind fst].
  rewrite Hshm, Ek. cbn [mbind option_bind snd].
  eexists. split; [done|]. split; [|done].
  intros _ ps1 j q [= <-]. cbn. rewrite length_insert.
  destruct (decide (j = k)) as [->|Hne].
  - rewrite list_lookup_insert_eq by (by eapply lookup_lt_Some). intros [= <-].
    split; [congruence|]. split; [done|]. by exists t.
  - rewrite list_lookup_insert_ne by done. intros Hq.
    pose proof (Hinv Hex ps j q Eps Hq) as H. by rewrite Esh in H.
Qed.

(** Where the cells of the process are after that. *)
Lemma with_cell_get w k p s f p' s' w' :
  proc_inv w -> exit_flag w = false -> get_cell w k = Some (p, s) ->
  f (p, s) = Some (p', s') -> same_peer p p' -> with_cell w k f = Some w' ->
  get_cell w' k = Some (p', s') /\ forall j, j <> k -> get_cell w' j = get_cell w j.
Proof.
  intros Hinv Hex Hg Hf Hsame. unfold with_cell. rewrite Hg. cbn [mbind option_bind]. rewrite Hf.
  cbn [mbind option_bind]. revert Hg. unfold get_cell, put_cell.
  destruct (peers_ctx w) as [ps|] eqn:Eps; [|done]. cbn [mbind option_bind].
  destruct (peers ps !! k) as [q|] eqn:Eq; [|done]. cbn [mbind option_bind].
  destruct (peers_shm ps) as [sh|] eqn:Esh; [|done]. cbn [mbind option_bind fst].
  pose proof (Hinv Hex ps k q Eps Eq) as Hk. rewrite Esh in Hk. destruct Hk as (Ek & Hlen & _).
  rewrite Ek. cbn [mbind option_bind].
  destruct (sh_peers sh !! k) as [s0|] eqn:Es; [|done]. cbn [mbind option_bind]. intros [= -> ->].
  pose proof Hsame as (_ & Hshm & _). rewrite Hshm, Ek. cbn [mbind option_bind snd fst].
  intros [= <-]. cbn [peers_ctx upd eta_rec eta_process eta_peers peers peers_shm mbind option_bind
                      sh_peers eta_peers_shm]. split.
  - rewrite list_lookup_insert_eq by (by eapply lookup_lt_Some). cbn [mbind option_bind].
    rewrite Hshm, Ek. cbn [mbind option_bind].
    rewrite list_lookup_insert_eq by (by eapply lookup_lt_Some). done.
  - intros j Hj. rewrite list_lookup_insert_ne by done.
    destruct (peers ps !! j) as [q|] eqn:Ej; [|done]. cbn [mbind option_bind].
    pose proof (Hinv Hex ps j q Eps Ej) as Hkj. rewrite Esh in Hkj. destruct Hkj as (Ekj & _).
    rewrite Ekj. cbn [mbind option_bind]. by rewrite list_lookup_insert_ne.
Qed.

Lemma proc_inv_exit w : exit_flag w = true -> proc_inv w.
Proof. intros E E'. congruence. Qed.

Lemma clear_all_events_exit w : exit_flag (clear_all_events w) = exit_flag w.
Proof. unfold clear_all_events. destruct (has_cleared w), (peers_ctx w); done. Qed.

Lemma guarded_exit f w k :
  exit_flag w = true -> exists w', guarded f w k = Some w' /\ exit_flag w' = true.
Proof.
  intros E. unfold guarded, need_exit. rewrite E. eexists. split; [done|].
  by rewrite clear_all_events_exit.
Qed.

Lemma guarded_run f w k : exit_flag w = false -> guarded f w k = with_cell w k (f w).
Proof. intros E. unfold guarded, need_exit. by rewrite E. Qed.

(** ** The two modules satisfy the laws *)

(** Starting a check is safe when connecting is. *)
Lemma begin_check_safe now connect pid current t p s :
  (forall q s', peer_inv t q -> timer_set (check_timeout_ev q) = false -> safe t (q, s') (connect (q, s'))) ->
  peer_inv t p -> safe t (p, s) (begin_check now connect pid current (p, s)).
Proof.
  intros Hc Hi. unfold begin_check.
  match goal with |- context [take_ownership _ _ (conf ?q0)] => set (q := q0) end.
  assert (Hq : peer_inv t q).
  { destruct Hi as (Hty & H). split; [by eapply typed_same; [|exact Hty]; same_peer_tac|done]. }
  assert (Hs : same_peer p q) by same_peer_tac.
  assert (Hret : forall s', safe t (p, s) (Some (q, s'))) by (intros s'; by exists q, s').
  destruct (owner s =? pid); [apply Hret|]. cbn [orb].
  destruct (timer_set (check_timeout_ev q)) eqn:Etm; [apply Hret|].
  destruct current; [cbn [negb]|apply Hret].
  destruct (_ =? pid); [|apply Hret].
  destruct (Hc q (take_ownership now pid (conf q) s) Hq Etm) as (p' & s' & -> & Hp' & Hs').
  exists p', s'. split; [done|]. split; [done|]. by eapply same_peer_trans.
Qed.

Section Instances.
Context (regex_exec : ngx_regex_t -> bytes -> Z) (garbage pagesize : Z) (Hpg : 2 <= pagesize).

Definition stream_module : CheckModule := {|
  cm_begin := StreamCheck.ngx_stream_upstream_check_begin_handler regex_exec garbage pagesize;
  cm_timeout := StreamCheck.ngx_stream_upstream_check_timeout_handler
|}.

Definition http_module : CheckModule := {|
  cm_begin := HttpCheck.ngx_http_upstream_check_begin_handler regex_exec garbage pagesize;
  cm_timeout := HttpCheck.ngx_http_upstream_check_timeout_handler
|}.

Lemma stream_timeout_safe now t p s c :
  peer_inv t p -> connection p = Some c -> safe t (p, s) (stream_timeout now (p, s)).
Proof.
  intros Hi Ec. destruct (timeout_handled t now p s c Hi Ec) as [_ H].
  destruct (pc_type p) eqn:E; [|by eapply handled_safe, H..].
  unfold stream_timeout. rewrite E.
  destruct (clean_event_spec t p s (peer_inv_pre _ _ Hi)) as (p' & -> & ? & ? & _). by eexists p', _.
Qed.

Lemma with_cell_timeout w k p f :
  proc_inv w -> exit_flag w = false -> has_shm w = true -> peer_of w k = Some p ->
  connection p <> None ->
  (forall t s c, peer_inv t p -> connection p = Some c -> safe t (p, s) (f w (p, s))) ->
  exists w', guarded f w k = Some w' /\ proc_inv w'.
Proof.
  intros Hinv Hex Hsh Hp Hc Hf. destruct (connection p) as [c|] eqn:Ec; [|done].
  rewrite guarded_run by done.
  destruct (with_cell_safe w k p (f w)) as (w' & E & ? & _); [done..| |by exists w'].
  intros t s Hi. by eapply Hf.
Qed.

#[export] Instance stream_module_ok : CheckModuleOk stream_module.
Proof using Hpg.
  split.
  - intros i w k p Hinv Hex Hsh Hp. cbn. unfold StreamCheck.ngx_stream_upstream_check_begin_handler.
    rewrite Hsh, guarded_run by done.
    destruct (with_cell_safe w k p (begin_check (ngx_current_msec w)
      (stream_connect (ngx_current_msec w) regex_exec garbage pagesize i) (ngx_pid w) (generation_ok w)))
      as (w' & E & ? & _); [done..| |by exists w'].
    intros t s Hi. apply begin_check_safe; [|done]. intros. by eapply started_safe, stream_connect_started.
  - intros i w k Hinv H. cbn. unfold StreamCheck.ngx_stream_upstream_check_begin_handler.
    destruct (has_shm w) eqn:Esh; [|by exists w]. destruct H as [H|H]; [|done].
    edestruct (guarded_exit (fun w0 => begin_check (ngx_current_msec w0)
      (stream_connect (ngx_current_msec w0) regex_exec garbage pagesize i) (ngx_pid w0) (generation_ok w0)) w k H)
      as (w' & E & Hx). exists w'. split; [exact E|]. by apply proc_inv_exit.
  - intros w k p Hinv Hex Hsh Hp Hc. eapply with_cell_timeout; try done.
    intros. by eapply stream_timeout_safe.
  - intros w k Hx. by apply guarded_exit.
Qed.

#[export] Instance http_module_ok : CheckModuleOk http_module.
Proof using Hpg.
  split.
  - intros i w k p Hinv Hex Hsh Hp. cbn. unfold HttpCheck.ngx_http_upstream_check_begin_handler, need_exit.
    rewrite Hex, Hsh.
    destruct (with_cell_safe w k p (begin_check (ngx_current_msec w)
      (http_connect (ngx_current_msec w) regex_exec garbage pagesize i) (ngx_pid w) (generation_ok w)))
      as (w' & E & ? & _); [done..| |by exists w'].
    intros t s Hi. apply begin_check_safe; [|done]. intros. by eapply started_safe, http_connect_started.
  - intros i w k Hinv H. cbn. unfold HttpCheck.ngx_http_upstream_check_begin_handler, need_exit.
    destruct (exit_flag w) eqn:Ex.
    + eexists. split; [done|]. apply proc_inv_exit. by rewrite clear_all_events_exit.
    + destruct H as [?|H]; [done|]. rewrite H. by exists w.
  - intros w k p Hinv Hex Hsh Hp Hc. eapply with_cell_timeout; try done.
    intros t s c Hi Ec. eapply handled_safe. by apply (timeout_handled t (ngx_current_msec w) p s c).
  - intros w k Hx. by apply guarded_exit.
Qed.

End Instances.

(** ** Runs of a worker *)

Section Runs.
Context (regex_exec : ngx_regex_t -> bytes -> Z) (garbage pagesize : Z) (Hpg : 2 <= pagesize).
Context (M : CheckModule) `{!CheckModuleOk M}.

Abbreviation run := (step regex_exec garbage pagesize).

(** Clearing [timer_set] before a timer handler. *)
Lemma proc_inv_upd w k f :
  (forall t p, peer_inv t p -> peer_inv t (f p)) -> (forall p, shm (f p) = shm p) ->
  (forall p, idle p -> idle (f p)) -> proc_inv w -> proc_inv (upd_peer k f w).
Proof.
  intros Hf Hs Hid Hinv. unfold upd_peer. destruct (peers_ctx w) as [ps|] eqn:E; [|done].
  intros Hex ps' j p [= <-]. cbn. rewrite list_lookup_alter.
  destruct (decide (k = j)) as [<-|Hne]; [|by apply (Hinv Hex ps j p E)].
  destruct (peers ps !! k) as [q|] eqn:Eq; [|done]. intros [= <-].
  pose proof (Hinv Hex ps k q E Eq) as H. destruct (peers_shm ps); [|by apply Hid].
  rewrite Hs. destruct H as (? & ? & t & Ht). split_and!; eauto.
Qed.

Lemma upd_peer_same w k f :
  exit_flag (upd_peer k f w) = exit_flag w /\ has_shm (upd_peer k f w) = has_shm w
  /\ peer_of (upd_peer k f w) k = f <$> peer_of w k.
Proof.
  unfold upd_peer, has_shm, peer_of. destruct (peers_ctx w) as [ps|] eqn:E; cbn; [|by rewrite E].
  split; [done|]. split; [done|]. by rewrite list_lookup_alter, decide_True.
Qed.

(** A peer with something pending is in a process with shared memory. *)
Lemma pending_shm w k p :
  proc_inv w -> exit_flag w = false -> peer_of w k = Some p -> ~ idle p -> has_shm w = true.
Proof.
  intros Hinv Hex Hp Hi. unfold peer_of in Hp. destruct (peers_ctx w) as [ps|] eqn:E; [|done].
  pose proof (Hinv Hex ps k p E Hp) as H. unfold has_shm. rewrite E.
  destruct (peers_shm ps); [done|by destruct Hi].
Qed.

Lemma timer_due_set now ev : timer_due now ev = true -> timer_set ev = true.
Proof. unfold timer_due. by destruct (timer_set ev). Qed.

(** The handlers of a connection, the discard handler apart, end in at most
    one verdict. *)
Lemma run_handler_handled t now p s c h i :
  peer_inv t p -> connection p = Some c -> h <> discard_handler ->
  (c_write c = Some h \/ (c_read c = Some h
     /\ (p_parse p = Some http_parse -> response_fits pagesize (io_recv i) p))) ->
  handled t now (p, s) (run_handler now regex_exec garbage pagesize h i (p, s)).
Proof using Hpg.
  intros Hi Ec Hnd Hh. pose proof Hi as (Hty & Hc & _). destruct (Hc c Ec) as (_ & Hw & Hr).
  destruct Hty as (_ & Htok & _ & _ & _ & _ & Hpa & _).
  destruct Hh as [Hh|[Hh Hfit]].
  - destruct Hw as [Hw|Hw]; rewrite Hw in Hh; cycle 1.
    { simplify_eq. apply handled_pending; auto with ngx. }
    destruct (type_ok_send t Htok) as [E|E]; rewrite E in Hh; simplify_eq;
      [by eapply send_handled|by eapply peek_handled].
  - destruct Hr as [Hr|Hr]; rewrite Hr in Hh; [|by simplify_eq].
    destruct h; try (exfalso; unfold type_ok in Htok; rewrite Hh in Htok;
      by rewrite andb_false_r in Htok); [|by eapply peek_handled].
    eapply recv_handled; try done. intros Hpr. apply Hfit. congruence.
Qed.

(** How the handler of a connection ends. *)
Lemma run_handler_ends t now p s c h i :
  peer_inv t p -> connection p = Some c ->
  (c_write c = Some h \/ (c_read c = Some h
     /\ (p_parse p = Some http_parse -> response_fits pagesize (io_recv i) p))) ->
  exists p' s', run_handler now regex_exec garbage pagesize h i (p, s) = Some (p', s') /\ same_peer p p'
    /\ (s' = s \/ (h <> discard_handler /\ at_rest p' /\ exists b, s' = verdict now (conf p) b s)
        \/ (h = discard_handler /\ at_rest p' /\ s' = s <| owner := NGX_INVALID_PID |>)).
Proof using Hpg.
  intros Hi Ec Hh. destruct (decide (h = discard_handler)) as [->|Hnd].
  - destruct (discard_safe t i p s c Hi Ec) as (p' & s' & E & _ & Hsame & _ & [[= -> ->]|[-> Hr]]);
      eexists _, _; (split; [exact E|]); split; try done; [by left|right; right; done].
  - destruct (run_handler_handled t now p s c h i Hi Ec Hnd Hh) as (p' & s' & E & _ & Hsame & _ & Ho).
    exists p', s'. split; [done|]. split; [done|]. destruct Ho as [->|(b & Hb & Hr)]; [by left|]. right. left. split; [done|]. split; [done|]. by exists b.
Qed.

(** A connection event runs its handler without a crash. *)
Lemma run_event_safe w k p c h i :
  proc_inv w -> peer_of w k = Some p -> connection p = Some c ->
  (c_write c = Some h \/ (c_read c = Some h
     /\ (p_parse p = Some http_parse -> response_fits pagesize (io_recv i) p))) ->
  exists w', run_event regex_exec garbage pagesize h i w k = Some w' /\ proc_inv w'.
Proof using Hpg.
  intros Hinv Hp Ec Hh. unfold run_event. destruct (exit_flag w) eqn:Hex.
  { edestruct guarded_exit as (w' & E & Hx); [exact Hex|]. exists w'. split; [exact E|].
    by apply proc_inv_exit. }
  eapply with_cell_timeout; [done|done| |done|congruence|].
  { eapply pending_shm; try done. intros (_ & _ & ?). congruence. }
  intros t s c' Hi Ec'. destruct (decide (h = discard_handler)) as [->|Hnd].
  - destruct (discard_safe t i p s c Hi Ec) as (p' & s' & E & ? & ? & _). by exists p', s'.
  - eapply handled_safe. exact (run_handler_handled t (ngx_current_msec w) p s c h i Hi Ec Hnd Hh).
Qed.

Lemma step_begin_safe w k p i :
  proc_inv w -> peer_of w k = Some p -> timer_due (ngx_current_msec w) (check_ev p) = true ->
  exists w', cm_begin i (upd_peer k expire_check w) k = Some w' /\ proc_inv w'.
Proof.
  intros Hinv Ep Ed%timer_due_set. destruct (upd_peer_same w k expire_check) as (E1 & E2 & E3).
  assert (Hinv' : proc_inv (upd_peer k expire_check w)).
  { apply proc_inv_upd; [|done| |done].
    - intros t q (Hty & H). split; [by eapply typed_same; [|exact Hty]; same_peer_tac|done].
    - intros q (? & ? & ?). by split_and!. }
  destruct (exit_flag w) eqn:Hex; [apply begin_idle; auto|].
  assert (has_shm w = true) by (eapply pending_shm; try done; intros (? & _); congruence).
  eapply begin_ok; [done|done|congruence|]. rewrite E3, Ep. reflexivity.
Qed.

Lemma step_timeout_safe w k p :
  proc_inv w -> peer_of w k = Some p -> timer_due (ngx_current_msec w) (check_timeout_ev p) = true ->
  exists w', cm_timeout (upd_peer k expire_timeout w) k = Some w' /\ proc_inv w'.
Proof.
  intros Hinv Ep Ed%timer_due_set. destruct (upd_peer_same w k expire_timeout) as (E1 & E2 & E3).
  destruct (exit_flag w) eqn:Hex.
  { destruct (timeout_exit (upd_peer k expire_timeout w) k) as (w' & E & Hx); [congruence|].
    exists w'. split; [done|]. by apply proc_inv_exit. }
  assert (Hinv' : proc_inv (upd_peer k expire_timeout w)).
  { apply proc_inv_upd; [|done| |done].
    - intros t q (Hty & A & B & _ & C). split; [by eapply typed_same; [|exact Hty]; same_peer_tac|].
      by split_and!.
    - intros q (? & ? & ?). by split_and!. }
  assert (Hsh : has_shm w = true)
    by (eapply pending_shm; try done; intros (_ & ? & _); congruence).
  eapply timeout_ok; [done|done|congruence|rewrite E3, Ep; reflexivity|]. cbn.
  destruct (has_shm_inv w Hsh) as (ps & sh & Eps & Esh).
  unfold peer_of in Ep. rewrite Eps in Ep. pose proof (Hinv Hex ps k p Eps Ep) as H.
  rewrite Esh in H. destruct H as (_ & _ & t & (_ & _ & _ & H & _)). by apply H.
Qed.

Lemma step_safe w ev i :
  proc_inv w -> fits pagesize w ev i -> exists w', run w ev i = Some w' /\ proc_inv w'.
Proof.
  intros Hinv Hfit. destruct ev as [k|k|k|k|ms|]; cbn [step].
  - destruct (peer_of w k) as [p|] eqn:Ep; [|by exists w].
    destruct (timer_due _ _) eqn:Ed; [|by exists w]. by eapply step_begin_safe.
  - destruct (peer_of w k) as [p|] eqn:Ep; [|by exists w].
    destruct (timer_due _ _) eqn:Ed; [|by exists w]. by eapply step_timeout_safe.
  - unfold conn_of. destruct (peer_of w k) as [p|] eqn:Ep; [|by exists w]. cbn.
    destruct (connection p) as [c|] eqn:Ec; [|by exists w]. cbn.
    destruct (c_write c) as [h|] eqn:Eh; [|by exists w]. eapply run_event_safe; eauto.
  - unfold conn_of. destruct (peer_of w k) as [p|] eqn:Ep; [|by exists w]. cbn.
    destruct (connection p) as [c|] eqn:Ec; [|by exists w]. cbn.
    destruct (c_read c) as [h|] eqn:Eh; [|by exists w]. eapply run_event_safe; eauto.
  - eexists. split; [done|]. exact Hinv.
  - eexists. split; [done|]. apply proc_inv_exit. unfold exit_flag. cbn. by rewrite orb_true_r.
Qed.

Lemma reachable_inv w0 w :
  proc_inv w0 -> reachable regex_exec garbage pagesize w0 w -> proc_inv w.
Proof.
  intros H0. induction 1 as [|w ev i w' _ IH Hfit E]; [done|].
  destruct (step_safe w ev i IH Hfit) as (w2 & E2 & H2). rewrite E in E2. by simplify_eq.
Qed.

End Runs.

(** ** The start of a worker *)

(** A peer as [add_peer] leaves it, with a usable check type. *)
Definition configured (p : ngx_upstream_check_peer_t) : Prop :=
  connection p = None /\ check_data p = None /\ state p = 0
  /\ exists t, check_type (conf p) = Some t /\ type_ok t = true
     /\ cc_parse t <> Some fastcgi_parse /\ expect_body_regex (conf p) <> Null.

Lemma add_timer_peer_inv now i ok rnd p p' :
  configured p -> add_timer_peer now i ok rnd p = Some (true, p') ->
  shm p' = Some i /\ exists t, peer_inv t p'.
Proof.
  intros (Hc & Hd & Hs & t & Ht & Htok & Hf & Hre). unfold add_timer_peer. cbn -[Z.modulo].
  rewrite Ht. cbn -[Z.modulo].
  destruct (need_pool t && negb ok); [done|]. intros [= <-]. split; [done|]. exists t.
  split; [|cbn; rewrite Hc, Hd, Hs; by split_and!].
  unfold typed. cbn. split_and!; try done. by intros ->.
Qed.

Lemma add_timers_loop_inv now i al rnds l l' :
  Forall configured l -> add_timers_loop now i al rnds l = Some (NGX_OK, l') ->
  length l' = length l /\
  forall k p, l' !! k = Some p -> shm p = Some (i + k)%nat /\ exists t, peer_inv t p.
Proof.
  revert i al l'. induction l as [|p l IH]; intros i al l' Hl; cbn [add_timers_loop].
  { intros [= <-]. by split. }
  apply Forall_cons in Hl as [Hp Hl]. destruct (alloc al) as [ok al'].
  destruct (add_timer_peer now i ok (rnds i) p) as [[[] p']|] eqn:Ep; cbn; [|done..].
  destruct (add_timers_loop now (S i) al' rnds l) as [[rc l1]|] eqn:El; cbn; [|done].
  intros [= -> <-]. destruct (IH _ _ _ Hl El) as [Hlen Hk].
  split; [cbn; congruence|]. intros [|k] q; cbn.
  - intros [= <-]. rewrite Nat.add_0_r. by eapply add_timer_peer_inv.
  - intros Hq. replace (i + S k)%nat with (S i + k)%nat by lia. by apply Hk.
Qed.

Lemma add_timers_inv al rnds w w' :
  (forall ps, peers_ctx w = Some ps -> Forall configured (peers ps)
     /\ match peers_shm ps with
        | Some sh => (length (peers ps) <= length (sh_peers sh))%nat
        | None => Forall idle (peers ps)
        end) ->
  add_timers al rnds w = Some (NGX_OK, w') -> proc_inv w'.
Proof.
  intros Hw. unfold add_timers. destruct (peers_ctx w) as [ps|] eqn:Eps; cycle 1.
  { intros [= <-] _ ps k p E. congruence. }
  destruct (Hw ps eq_refl) as [Hc Hs]. destruct (peers_shm ps) as [sh|] eqn:Esh; cycle 1.
  { intros [= <-] _ ps' k p E Hk. rewrite Eps in E. simplify_eq. rewrite Esh.
    rewrite Forall_lookup in Hs. by eapply Hs. }
  destruct (add_timers_loop _ _ _ _ _) as [[rc l]|] eqn:El; [|done]. cbn. intros [= -> <-].
  destruct (add_timers_loop_inv _ _ _ _ _ _ Hc El) as [Hlen Hk].
  intros _ ps' k p [= <-]. cbn. rewrite Esh. intros Hp. destruct (Hk k p Hp) as [? ?].
  split; [done|]. split; [|done]. apply lookup_lt_Some in Hp. lia.
Qed.

(** ** No handler crashes *)

(** C1: memory safety of the health checker, FastCGI checks and large HTTP
    responses apart.  A worker is started with [add_timers] on configured peers
    of any check type but [fastcgi] and then sees any sequence of events
    (timers, connection events, time, exit) with any answers of the operating
    system in which every response to an HTTP check fits the receive buffer, in
    either module.  Then the next such event is handled too: no null pointer is
    dereferenced (not the connection in the timeout handlers, not the check
    data, parser or pool in the receive handler), no missing function pointer
    is called, no loop runs for ever, and the parsers stay inside their
    buffers.  The two conditions are necessary: see [fastcgi_null_name] and
    [http_enlarged_buffer_undefined]. *)
Theorem worker_never_crashes regex_exec garbage pagesize M al rnds w0 w1 w ev i :
  2 <= pagesize ->
  M = stream_module regex_exec garbage pagesize \/ M = http_module regex_exec garbage pagesize ->
  (forall ps, peers_ctx w0 = Some ps -> Forall configured (peers ps)
     /\ match peers_shm ps with
        | Some sh => (length (peers ps) <= length (sh_peers sh))%nat
        | None => Forall idle (peers ps)
        end) ->
  add_timers al rnds w0 = Some (NGX_OK, w1) ->
  reachable regex_exec garbage pagesize (M := M) w1 w -> fits pagesize w ev i ->
  is_Some (step regex_exec garbage pagesize (M := M) w ev i).
Proof.
  intros Hpg HM Hw Hadd Hreach Hfit.
  assert (HMok : CheckModuleOk M).
  { destruct HM as [-> | ->]; [by apply stream_module_ok|by apply http_module_ok]. }
  pose proof (add_timers_inv al rnds w0 w1 Hw Hadd) as H1.
  pose proof (reachable_inv regex_exec garbage pagesize Hpg M w1 w H1 Hreach) as H.
  destruct (step_safe regex_exec garbage pagesize Hpg M w ev i H Hfit) as (w' & E & _). by exists w'.
Qed.

Lemma get_cell_inv w k p s :
  proc_inv w -> exit_flag w = false -> get_cell w k = Some (p, s) ->
  peer_of w k = Some p /\ exists t, peer_inv t p.
Proof.
  intros Hinv Hex. unfold get_cell, peer_of.
  destruct (peers_ctx w) as [ps|] eqn:Eps; [|done]. cbn [mbind option_bind].
  destruct (peers ps !! k) as [q|] eqn:Eq; [|done]. cbn [mbind option_bind].
  pose proof (Hinv Hex ps k q Eps Eq) as Hk. destruct (peers_shm ps) as [sh|]; [|done].
  cbn [mbind option_bind]. destruct Hk as (-> & _ & Ht). cbn [mbind option_bind].
  destruct (sh_peers sh !! k); [|done]. cbn. intros [= -> _]. done.
Qed.

(** C6: one verdict per check.  In a worker of either module started with
    [add_timers] on configured peers (of any check type but [fastcgi]), after
    any events, with responses to HTTP checks that fit the receive buffer: the
    handler of a connection event either leaves the shared state of every peer
    as it is, or ends the check.  Then it records exactly one verdict for that
    peer ([status_update] once), releases the ownership, stops the timeout timer
    and puts the peer at rest.  Only the discard handler of an idle kept
    connection ends without a verdict: it releases the ownership and changes
    nothing else of the shared state.  No other peer is touched. *)
Theorem worker_one_verdict regex_exec garbage pagesize M al rnds w0 w1 w k p s c h ev i :
  2 <= pagesize ->
  M = stream_module regex_exec garbage pagesize \/ M = http_module regex_exec garbage pagesize ->
  (forall ps, peers_ctx w0 = Some ps -> Forall configured (peers ps)
     /\ match peers_shm ps with
        | Some sh => (length (peers ps) <= length (sh_peers sh))%nat
        | None => Forall idle (peers ps)
        end) ->
  add_timers al rnds w0 = Some (NGX_OK, w1) ->
  reachable regex_exec garbage pagesize (M := M) w1 w -> exit_flag w = false ->
  get_cell w k = Some (p, s) -> connection p = Some c ->
  (ev = EvWrite k /\ c_write c = Some h \/ ev = EvRead k /\ c_read c = Some h) ->
  fits pagesize w ev i ->
  exists w' p' s', step regex_exec garbage pagesize (M := M) w ev i = Some w'
    /\ get_cell w' k = Some (p', s')
    /\ (s' = s
        \/ (h <> discard_handler /\ at_rest p' /\ exists b, s' = verdict (ngx_current_msec w) (conf p) b s)
        \/ (h = discard_handler /\ at_rest p' /\ s' = s <| owner := NGX_INVALID_PID |>))
    /\ (forall j, j <> k -> get_cell w' j = get_cell w j).
Proof.
  intros Hpg HM Hw0 Hadd Hreach Hex Hg Hc Hev Hfit.
  assert (HMok : CheckModuleOk M).
  { destruct HM as [-> | ->]; [by apply stream_module_ok|by apply http_module_ok]. }
  pose proof (add_timers_inv al rnds w0 w1 Hw0 Hadd) as H1.
  pose proof (reachable_inv regex_exec garbage pagesize Hpg M w1 w H1 Hreach) as Hinv.
  destruct (get_cell_inv w k p s Hinv Hex Hg) as (Hp & t & Ht).
  assert (Hstep : step regex_exec garbage pagesize (M := M) w ev i
    = run_event regex_exec garbage pagesize h i w k).
  { destruct Hev as [[-> E]|[-> E]]; cbn [step]; unfold conn_of; rewrite Hp; cbn [mbind option_bind];
      rewrite Hc; cbn [mbind option_bind]; by rewrite E. }
  destruct (run_handler_ends regex_exec garbage pagesize Hpg t (ngx_current_msec w) p s c h i Ht Hc)
    as (p' & s' & E & Hsame & Ho).
  { destruct Hev as [[-> E]|[-> E]]; [by left|right; split; [done|]]. intros Hpa. by apply Hfit. }
  destruct (step_safe regex_exec garbage pagesize Hpg M w ev i Hinv Hfit) as (w' & Ew & _).
  exists w', p', s'. split; [done|].
  rewrite Hstep in Ew. unfold run_event in Ew. rewrite guarded_run in Ew by done.
  destruct (with_cell_get w k p s _ p' s' w' Hinv Hex Hg E Hsame Ew) as [G1 G2].
  split; [done|]. by split.
Qed.

(** ** An example worker *)

(** Runs as lists of events. *)
Section Exec.
Context (regex_exec : ngx_regex_t -> bytes -> Z) (garbage pagesize : Z) `{M : CheckModule}.

Fixpoint exec (w : process) (evs : list (event * io)) : option process :=
  match evs with
  | [] => Some w
  | (ev, i) :: evs' => w' ← step regex_exec garbage pagesize w ev i; exec w' evs'
  end.

#[local] Instance response_fits_dec rs p : Decision (response_fits pagesize rs p).
Proof. unfold response_fits. destruct (check_data p) as [ctx|]; [destruct (rb_blk (recv ctx))|]; apply _. Defined.

Definition fits_b (w : process) (ev : event) (i : io) : bool :=
  match ev with
  | EvRead k =>
    match peer_of w k with
    | Some p => match p_parse p with
                | Some http_parse => bool_decide (response_fits pagesize (io_recv i) p)
                | _ => true
                end
    | None => true
    end
  | _ => true
  end.

Lemma fits_b_spec w ev i : fits_b w ev i = true -> fits pagesize w ev i.
Proof.
  destruct ev; try done. cbn. destruct (peer_of w k) as [p|]; [|done]. intros H q [= <-] E.
  rewrite E in H. by apply bool_decide_eq_true in H.
Qed.

Fixpoint exec_fits (w : process) (evs : list (event * io)) : bool :=
  match evs with
  | [] => true
  | (ev, i) :: evs' =>
    fits_b w ev i
    && match step regex_exec garbage pagesize w ev i with Some w' => exec_fits w' evs' | None => false end
  end.

Lemma exec_reachable w evs w' :
  exec_fits w evs = true -> exec w evs = Some w' -> reachable regex_exec garbage pagesize w w'.
Proof.
  assert (H : forall w0 w evs, reachable regex_exec garbage pagesize w0 w -> exec_fits w evs = true ->
    exec w evs = Some w' -> reachable regex_exec garbage pagesize w0 w').
  { clear. intros w0 w evs. revert w. induction evs as [|[ev i] evs IH]; intros w Hr Hf; cbn in *.
    { by intros [= <-]. }
    apply andb_true_iff in Hf as [Hf1%fits_b_spec Hf2]. destruct (step _ _ _ w ev i) as [w1|] eqn:E; [|done]. cbn.
    apply IH; [|done]. by eapply reach_step. }
  apply H. apply reach_refl.
Qed.

End Exec.

Definition ex_type : ngx_check_conf_t := nth 1 Http.ngx_check_types check_conf_end.

Definition ex_conf : ngx_upstream_check_srv_conf_t := ex_cf <| check_type_conf := Ptr ex_type |>.

Definition ex_addr : ngx_addr_t :=
  mk_addr [2; 0; 0; 80; 10; 0; 0; 1; 0; 0; 0; 0; 0; 0; 0; 0] 16 (s2b "10.0.0.1:80").

Definition ex_peer : ngx_upstream_check_peer_t := peer_zero ex_conf (s2b "backend") ex_addr.

Definition ex_shm : ngx_upstream_check_peer_shm_t :=
  mk_peer_shm NGX_INVALID_PID 0 0 0 0 0 (sockaddr ex_addr) 16 1 (s2b "backend").

(** One HTTP peer, marked down by [default_down]. *)
Definition ex_boot : process :=
  mk_process 100000 42 false false false false 1
    (Some (mk_peers (s2b "ngx_http_upstream_check#1") 7 [ex_peer]
             (Some (mk_peers_shm 1 7 1 [ex_shm])))).

Definition ex_worker : process := default ex_boot (snd <$> add_timers [] (fun _ => 17) ex_boot).

Definition ex_io (rs : list recv_res) : io := mk_io [] rs [SSent 100] PEagain PEagain COk true.

Definition ex_response : recv_res :=
  match render_head (ex_head 2) ++ s2b "pong" with c :: l => RData c l | [] => RAgain end.

(** A check: the timer, the connect and send, the answer. *)
Definition ex_check (wait : Z) : list (event * io) :=
  [(EvTime wait, ex_io []); (EvBegin 0, ex_io []); (EvRead 0, ex_io [ex_response])].

(** Two successful checks bring the peer up ([rise=2]). *)
Example ex_two_checks :
  (w ← exec ex_regex 0 4096 (M := http_module ex_regex 0 4096) ex_worker (ex_check 17 ++ ex_check 30000);
   '(_, s) ← get_cell w 0; Some (down s, rise_count s, owner s))
  = Some (0, 2, NGX_INVALID_PID).
Proof. vm_compute. reflexivity. Qed.

Lemma ex_peer_configured : configured ex_peer.
Proof. repeat split; try done. exists ex_type. by split_and!. Qed.

(** The worker after one check. *)
Definition ex_after : process :=
  default ex_worker (exec ex_regex 0 4096 (M := http_module ex_regex 0 4096) ex_worker (ex_check 17)).

Lemma ex_after_exec :
  exec ex_regex 0 4096 (M := http_module ex_regex 0 4096) ex_worker (ex_check 17) = Some ex_after.
Proof.
  unfold ex_after.
  assert (H : is_Some (exec ex_regex 0 4096 (M := http_module ex_regex 0 4096) ex_worker (ex_check 17))).
  { apply (bool_decide_unpack _). vm_compute. exact I. }
  by destruct H as [w ->].
Qed.

Lemma worker_never_crashes_witness :
  is_Some (step ex_regex 0 4096 (M := http_module ex_regex 0 4096) ex_after (EvTimeout 0) (ex_io [])).
Proof.
  apply (worker_never_crashes ex_regex 0 4096 (http_module ex_regex 0 4096) [] (fun _ => 17) ex_boot ex_worker).
  - lia.
  - by right.
  - intros ps [= <-]. split; [|cbn; lia]. constructor; [apply ex_peer_configured|constructor].
  - vm_compute. reflexivity.
  - apply (exec_reachable ex_regex 0 4096 ex_worker (ex_check 17)); [|apply ex_after_exec].
    vm_compute. reflexivity.
  - exact I.
Defined.

Definition ex_sent : process :=
  default ex_worker (exec ex_regex 0 4096 (M := http_module ex_regex 0 4096) ex_worker (take 2 (ex_check 17))).

Definition ex_sent_cell : cell := default (ex_peer, ex_shm) (get_cell ex_sent 0).

Lemma worker_one_verdict_witness :
  exists w' p' s', step ex_regex 0 4096 (M := http_module ex_regex 0 4096) ex_sent (EvRead 0) (ex_io [ex_response])
      = Some w'
    /\ get_cell w' 0 = Some (p', s')
    /\ (s' = snd ex_sent_cell
        \/ (recv_handler <> discard_handler /\ at_rest p'
            /\ exists b, s' = verdict (ngx_current_msec ex_sent) (conf (fst ex_sent_cell)) b (snd ex_sent_cell))
        \/ (recv_handler = discard_handler /\ at_rest p' /\ s' = (snd ex_sent_cell) <| owner := NGX_INVALID_PID |>))
    /\ (forall j, j <> 0%nat -> get_cell w' j = get_cell ex_sent j).
Proof.
  apply (worker_one_verdict ex_regex 0 4096 (http_module ex_regex 0 4096) [] (fun _ => 17) ex_boot ex_worker ex_sent 0
    (fst ex_sent_cell) (snd ex_sent_cell) (default (new_conn ex_peer) (connection (fst ex_sent_cell))) recv_handler).
  - lia.
  - by right.
  - intros ps [= <-]. split; [|cbn; lia]. constructor; [apply ex_peer_configured|constructor].
  - vm_compute. reflexivity.
  - apply (exec_reachable ex_regex 0 4096 ex_worker (take 2 (ex_check 17))); vm_compute; reflexivity.
  - vm_compute. reflexivity.
  - vm_compute. reflexivity.
  - vm_compute. reflexivity.
  - right. split; [reflexivity|vm_compute; reflexivity].
  - apply fits_b_spec. vm_compute. reflexivity.
Defined.

(** ** A response larger than the receive buffer *)

Definition data (l : bytes) : recv_res := match l with c :: l' => RData c l' | [] => RAgain end.

(** A response head of about 2.1 KB in two reads; the buffer has 2 KB. *)
Definition ex_long_head : list (event * io) :=
  [(EvTime 17, ex_io []); (EvBegin 0, ex_io []);
   (EvRead 0, ex_io [data (s2b "HTTP/1.1 200 OK" ++ [CR; LF] ++ s2b "X: " ++ replicate 2000 97)]);
   (EvRead 0, ex_io [data (replicate 100 97 ++ [CR; LF; CR; LF])])].

(** a correct HTTP response whose head does not fit half a page and
    arrives in two reads is undefined behaviour: the enlarged buffer is a new
    block, [status.start] still points into the old one, and
    [ngx_http_upstream_check_http_parse] scans from it towards [status.end] in
    the new block.  Up to that read the worker runs normally. *)
Theorem http_enlarged_buffer_undefined :
  let M := http_module ex_regex 0 4096 in
  is_Some (exec ex_regex 0 4096 (M := M) ex_worker (take 3 ex_long_head))
  /\ exec ex_regex 0 4096 (M := M) ex_worker ex_long_head = None.
Proof.
  split; [apply (bool_decide_unpack _); vm_compute; exact I|vm_compute; reflexivity].
Qed.
