(* ===== verification/CheckOwner.v ===== *)
(** * Repeated checks of one peer

    What a sequence of [check_ev] expirations of one worker does to a peer it
    cannot connect to.  In the http module every attempt is a failed check and
    the peer is taken down after [fall] of them; in the stream module the
    first failure keeps the ownership and every later attempt returns at once.
    The last part is the timer of the discard handler, which releases the
    ownership of whoever holds it. *)

From S2P Require Import Prelude NgxString StatusLine CheckTypes CheckProto CheckCore CheckSafety.
From S2P Require Import CheckWorker Hysteresis.

Section Attempts.
Context (regex_exec : ngx_regex_t -> bytes -> Z) (garbage pagesize pid : Z).

(** The expirations of the check timer, at given times with given answers of
    the operating system. *)
Fixpoint attempts (connect : Z -> io -> cell -> option cell) (l : list (Z * io)) (x : cell) : option cell :=
  match l with
  | [] => Some x
  | (now, i) :: l' => x' ← begin_check now (connect now i) pid true x; attempts connect l' x'
  end.

Definition http_attempts := attempts (fun now => http_connect now regex_exec garbage pagesize).
Definition stream_attempts := attempts (fun now => stream_connect now regex_exec garbage pagesize).

(** Attempts at least [iv] milliseconds apart, the first that long after [t]. *)
Fixpoint spaced (iv t : Z) (l : list (Z * io)) : Prop :=
  match l with
  | [] => True
  | (now, _) :: l' => iv <= now - t /\ now < 2 ^ 64 /\ spaced iv now l'
  end.

Definition refused (i : io) : Prop := io_connect i = CError \/ io_connect i = CDeclined.

(** A peer that is not being checked. *)
Definition resting (x : cell) : Prop :=
  connection (fst x) = None /\ timer_set (check_timeout_ev (fst x)) = false.

Lemma interval_due iv t now : 0 <= t -> 0 <= iv -> iv <= now - t -> now < 2 ^ 64 ->
  (iv <=? u64 (now - t)) = true.
Proof. intros. rewrite u64_small by (unfold in_u64; lia). lia. Qed.

(** A due attempt on a free peer takes it and connects. *)
Lemma begin_due connect now p s :
  owner s = NGX_INVALID_PID -> pid <> NGX_INVALID_PID -> timer_set (check_timeout_ev p) = false ->
  0 <= access_time s -> 0 <= check_interval (conf p) -> check_interval (conf p) <= now - access_time s ->
  now < 2 ^ 64 ->
  begin_check now connect pid true (p, s)
  = connect (p <| check_ev := ngx_event_add_timer now (check_ev p) (check_interval (conf p) / 2) |>,
             s <| owner := pid |>).
Proof.
  intros Ho Hpid Ht Ha Hc Hdue Hnow. unfold begin_check.
  rewrite Ho, (proj2 (Z.eqb_neq _ _)) by congruence.
  cbn [check_timeout_ev upd eta_rec eta_peer orb negb]. rewrite Ht.
  unfold take_ownership. cbn [conf upd eta_rec eta_peer]. rewrite interval_due by done.
  rewrite Ho, Z.eqb_refl. cbn [andb owner upd eta_rec eta_peer_shm]. by rewrite Z.eqb_refl.
Qed.

Lemma clean_event_none p s p' s' :
  connection p = None -> clean_event (p, s) = Some (p', s') -> connection p' = None.
Proof.
  intros Hc. unfold clean_event, clean_connection. rewrite Hc. cbn [mbind option_bind].
  intros [= <- _]. cbn. by destruct (check_data p), (p_reinit p).
Qed.

(** One refused attempt in the http module. *)
Lemma http_refused t now i p s :
  peer_inv t p -> resting (p, s) -> owner s = NGX_INVALID_PID -> pid <> NGX_INVALID_PID ->
  0 <= access_time s -> 0 <= check_interval (conf p) -> check_interval (conf p) <= now - access_time s ->
  now < 2 ^ 64 -> refused i ->
  exists p', begin_check now (http_connect now regex_exec garbage pagesize i) pid true (p, s)
      = Some (p', status_update now (conf p) false s)
    /\ peer_inv t p' /\ resting (p', s) /\ conf p' = conf p.
Proof.
  intros Hi [Hc Ht] Ho Hpid Ha Hiv Hdue Hnow Href. cbn in Hc, Ht.
  rewrite begin_due by done. unfold http_connect, connect_reuse.
  cbn [connection upd eta_rec eta_peer]. rewrite Hc.
  assert (Hfail : forall q s', (connect_new now regex_exec garbage pagesize pc_unset
      (fun x => clean_event (peer_update now false x)) i (q, s'))
    = clean_event (peer_update now false (q <| pc_type := pc_unset |> <| connection := None |>, s'))).
  { intros q s'. unfold connect_new. by destruct Href as [-> | ->]. }
  rewrite Hfail. unfold peer_update. cbn [fst snd].
  match goal with |- context [clean_event (?q0, _)] => set (q := q0) end.
  match goal with |- context [clean_event (q, ?s0)] => set (s1 := s0) end.
  assert (Hq : peer_inv t q).
  { destruct Hi as (Hty & _ & Hd & _ & Hst).
    split; [by eapply typed_same; [|exact Hty]; same_peer_tac|]. cbn. split; [done|]. split; [done|].
    by split; [congruence|]. }
  destruct (clean_event_spec t q s1 (peer_inv_pre _ _ Hq)) as (p' & E & Hp' & (Hcf & _) & [_ Hr] & _).
  exists p'. split; [|split; [done|split; [|exact Hcf]]].
  - rewrite E. f_equal. f_equal. subst s1. unfold status_update. cbn.
    destruct (_ && _); cbn; by rewrite Ho.
  - split; [|done]. by apply (clean_event_none q s1 p' _ eq_refl E).
Qed.

Lemma status_update_owner now cf b s : owner (status_update now cf b s) = owner s.
Proof. unfold status_update. destruct b; destruct (_ && _); done. Qed.

Lemma status_update_time now cf b s : access_time (status_update now cf b s) = now.
Proof. done. Qed.

Lemma http_attempts_updates t l p s :
  peer_inv t p -> resting (p, s) -> owner s = NGX_INVALID_PID -> pid <> NGX_INVALID_PID ->
  0 <= access_time s -> 0 <= check_interval (conf p) ->
  spaced (check_interval (conf p)) (access_time s) l -> Forall (fun x => refused (snd x)) l ->
  exists p', http_attempts l (p, s)
      = Some (p', updates (conf p) ((fun t => (t, false)) <$> (fst <$> l)) s)
    /\ peer_inv t p' /\ resting (p', s).
Proof.
  revert p s. induction l as [|[now i] l IH]; intros p s Hi Hr Ho Hpid Ha Hiv Hsp Href.
  { exists p. by split_and!. }
  apply Forall_cons in Href as [Hri Href]. destruct Hsp as (Hdue & Hnow & Hsp).
  destruct (http_refused t now i p s) as (p1 & E & Hi1 & Hr1 & Hc1); try done.
  unfold http_attempts. cbn [attempts]. rewrite E. cbn [mbind option_bind].
  destruct (IH p1 (status_update now (conf p) false s)) as (p' & E' & ?); try done.
  - by rewrite status_update_owner.
  - rewrite status_update_time. lia.
  - by rewrite Hc1.
  - by rewrite Hc1, status_update_time.
  - exists p'. rewrite Hc1 in E'. by split.
Qed.

Lemma updates_owner cf h s : owner (updates cf h s) = owner s.
Proof.
  induction h as [|v h IH] using rev_ind; [done|]. rewrite updates_snoc, status_update_owner. done.
Qed.

(** C20: in the http module an unreachable peer goes down.  A worker whose
    check timer keeps firing at least [check_interval] apart and whose
    connects are all refused has, after [fall] attempts, marked the peer down
    and released it (so that the next attempt checks again). *)
Theorem http_unreachable_goes_down t l p s :
  peer_inv t p -> resting (p, s) -> owner s = NGX_INVALID_PID -> pid <> NGX_INVALID_PID ->
  0 <= access_time s -> 0 <= check_interval (conf p) ->
  rise_count s = 0 -> fall_count s = 0 -> 0 < cf_rise_count (conf p) -> 0 < cf_fall_count (conf p) ->
  spaced (check_interval (conf p)) (access_time s) l -> Forall (fun x => refused (snd x)) l ->
  Z.of_nat (length l) < 2 ^ 64 -> cf_fall_count (conf p) <= Z.of_nat (length l) ->
  exists p' s', http_attempts l (p, s) = Some (p', s')
    /\ down s' <> 0 /\ owner s' = NGX_INVALID_PID /\ resting (p', s').
Proof.
  intros Hi Hr Ho Hpid Ha Hiv Hrc Hfc Hrise Hfall Hsp Href Hlen Hge.
  destruct (http_attempts_updates t l p s) as (p' & E & Hi' & Hr'); try done.
  exists p', (updates (conf p) ((fun t => (t, false)) <$> (fst <$> l)) s).
  split; [done|]. split; [|split; [by rewrite updates_owner|done]].
  apply updates_all_failed; rewrite ?length_fmap; done.
Qed.

(** One refused attempt in the stream module: the verdict is recorded, the
    peer stays owned. *)
Lemma stream_refused t now i p s :
  peer_inv t p -> resting (p, s) -> owner s = NGX_INVALID_PID -> pid <> NGX_INVALID_PID ->
  0 <= access_time s -> 0 <= check_interval (conf p) -> check_interval (conf p) <= now - access_time s ->
  now < 2 ^ 64 -> refused i ->
  exists p', begin_check now (stream_connect now regex_exec garbage pagesize i) pid true (p, s)
      = Some (p', (status_update now (conf p) false s) <| owner := pid |>)
    /\ timer_set (check_timeout_ev p') = false.
Proof.
  intros Hi [Hc Ht] Ho Hpid Ha Hiv Hdue Hnow Href. cbn in Hc, Ht.
  rewrite begin_due by done. unfold stream_connect, connect_reuse.
  cbn [connection upd eta_rec eta_peer]. rewrite Hc. cbn [fst conf upd eta_rec eta_peer].
  destruct Hi as ((Hty & _) & _). rewrite Hty. cbn [mbind option_bind].
  unfold connect_new, peer_update.
  destruct Href as [-> | ->]; cbn [fst snd]; eexists; (split; [f_equal; f_equal|exact Ht]);
    unfold status_update; cbn; by destruct (_ && _).
Qed.

(** A worker that owns a peer it is not checking never checks it again. *)
Lemma owned_attempts connect l p s :
  owner s = pid -> exists p', attempts connect l (p, s) = Some (p', s).
Proof.
  intros Ho. revert p. induction l as [|[now i] l IH]; intros p; [by exists p|].
  cbn [attempts]. unfold begin_check. rewrite Ho, Z.eqb_refl. cbn [orb mbind option_bind]. apply IH.
Qed.

(** in the stream module a worker that cannot connect to a peer stops
    checking it.  After the first refused connect the worker keeps the
    ownership; whatever the later expirations of its check timer find, the
    shared state of the peer does not change any more.  With [fall] above 1 an
    unreachable peer that was up is therefore never marked down by it. *)
Theorem stream_unreachable_stuck t now i l p s :
  peer_inv t p -> resting (p, s) -> owner s = NGX_INVALID_PID -> pid <> NGX_INVALID_PID ->
  0 <= access_time s -> 0 <= check_interval (conf p) -> check_interval (conf p) <= now - access_time s ->
  now < 2 ^ 64 -> refused i ->
  exists p' s', stream_attempts ((now, i) :: l) (p, s) = Some (p', s')
    /\ s' = (status_update now (conf p) false s) <| owner := pid |>
    /\ (down s = 0 -> fall_count s = 0 -> 1 < cf_fall_count (conf p) -> down s' = 0).
Proof.
  intros Hi Hr Ho Hpid Ha Hiv Hdue Hnow Href.
  destruct (stream_refused t now i p s) as (p1 & E & _); try done.
  unfold stream_attempts. cbn [attempts]. rewrite E. cbn [mbind option_bind].
  destruct (owned_attempts (fun now => stream_connect now regex_exec garbage pagesize) l p1
    ((status_update now (conf p) false s) <| owner := pid |>)) as [p' E']; [done|].
  eexists p', _. split; [exact E'|]. split; [done|].
  intros Hd Hf H1. unfold status_update. cbn. rewrite Hd, Hf. cbn.
  change (u64 (0 + 1)) with 1. by rewrite (proj2 (Z.leb_gt _ _) H1).
Qed.

End Attempts.

(** ** Examples *)

Definition ex_refused : io := mk_io [] [] [] PEagain PEagain CDeclined true.

Definition ex_cell : cell := default (ex_peer, ex_shm) (get_cell ex_worker 0).

(** Up, never checked. *)
Definition ex_up : ngx_upstream_check_peer_shm_t := (snd ex_cell) <| down := 0 |>.

Lemma ex_cell_inv : exists t, peer_inv t (fst ex_cell).
Proof.
  eapply (add_timer_peer_inv 100000 0 true 17 ex_peer); [apply ex_peer_configured|vm_compute; reflexivity].
Qed.

Lemma http_unreachable_goes_down_witness :
  let l := (fun k => (k * 30000, ex_refused)) <$> [1; 2; 3; 4; 5] in
  exists p' s', http_attempts ex_regex 0 4096 42 l (fst ex_cell, ex_up) = Some (p', s') /\ down s' <> 0.
Proof.
  intros l. destruct ex_cell_inv as [t Ht].
  destruct (http_unreachable_goes_down ex_regex 0 4096 42 t l (fst ex_cell) ex_up) as (p' & s' & E & Hd & _).
  - exact Ht.
  - split; reflexivity.
  - reflexivity.
  - discriminate.
  - discriminate.
  - discriminate.
  - reflexivity.
  - reflexivity.
  - reflexivity.
  - reflexivity.
  - repeat (split; [discriminate|split; [reflexivity|]]). exact I.
  - repeat (apply Forall_cons; split; [right; reflexivity|]). constructor.
  - reflexivity.
  - discriminate.
  - exists p', s'. split; [exact E|exact Hd].
Defined.

Definition ex_tcp_conf : ngx_upstream_check_srv_conf_t :=
  ex_cf <| check_type_conf := Ptr (nth 0 Stream.ngx_check_types check_conf_end) |>.

Definition ex_tcp_peer : ngx_upstream_check_peer_t :=
  default ex_peer (snd <$> add_timer_peer 100000 0 true 17 (peer_zero ex_tcp_conf (s2b "db") ex_addr)).

Lemma ex_tcp_inv : exists t, peer_inv t ex_tcp_peer.
Proof.
  eapply (add_timer_peer_inv 100000 0 true 17 (peer_zero ex_tcp_conf (s2b "db") ex_addr));
    [|vm_compute; reflexivity].
  repeat split; try done. exists (nth 0 Stream.ngx_check_types check_conf_end). by split_and!.
Qed.

Lemma stream_unreachable_stuck_witness :
  let l := (fun k => (k * 30000, ex_refused)) <$> [2; 3; 4; 5; 6; 7; 8; 9] in
  exists p' s', stream_attempts ex_regex 0 4096 42 ((30000, ex_refused) :: l) (ex_tcp_peer, ex_up) = Some (p', s')
    /\ down s' = 0 /\ owner s' = 42.
Proof.
  intros l. destruct ex_tcp_inv as [t Ht].
  destruct (stream_unreachable_stuck ex_regex 0 4096 42 t 30000 ex_refused l ex_tcp_peer ex_up)
    as (p' & s' & E & Es & Hd).
  - exact Ht.
  - split; reflexivity.
  - reflexivity.
  - discriminate.
  - discriminate.
  - discriminate.
  - discriminate.
  - reflexivity.
  - right. reflexivity.
  - exists p', s'. split; [exact E|]. split; [apply Hd; reflexivity|rewrite Es; reflexivity].
Defined.

(** ** Ownership and kept connections *)

(** the discard handler releases a peer it does not own.  When a worker
    keeps an idle connection to a peer and the peer closes it, the worker sets
    the shared owner to [NGX_INVALID_PID] although another worker [other] may
    be in the middle of a check of that peer; a third worker can then start a
    second check of it at the same time. *)
Theorem discard_releases_other_owner t i p s c other :
  peer_inv t p -> connection p = Some c -> discard_loop (io_recv i) = false -> owner s = other ->
  exists p' s', discard_event i (p, s) = Some (p', s') /\ owner s' = NGX_INVALID_PID
    /\ rise_count s' = rise_count s /\ fall_count s' = fall_count s /\ access_time s' = access_time s.
Proof.
  intros Hi Ec Hd Ho. unfold discard_event. rewrite Ec, Hd. cbn [mbind option_bind andb].
  destruct (set_error_spec t true p c (peer_inv_pre _ _ Hi) Ec) as (q & -> & Hq & _).
  cbn [mbind option_bind]. destruct (clean_event_spec t q s Hq) as (p' & E & _).
  exists p', (s <| owner := NGX_INVALID_PID |>). by split_and!.
Qed.

(** A worker whose last check left the connection open for another one
    ([check_keepalive_requests] above 1), and the shared peer owned by worker 43. *)
Definition ex_kept_peer : ngx_upstream_check_peer_t :=
  (fst ex_cell) <| connection := Some (mk_conn false 1 true (Some dummy_handler) (Some discard_handler)) |>.

Lemma discard_releases_other_owner_witness :
  exists p' s', discard_event (mk_io [] [RClosed] [] PEagain PEagain COk true)
      (ex_kept_peer, ex_up <| owner := 43 |>) = Some (p', s')
    /\ owner s' = NGX_INVALID_PID.
Proof.
  destruct ex_cell_inv as [t Ht].
  assert (Hk : peer_inv t ex_kept_peer).
  { apply peer_inv_connection; [exact Ht|reflexivity|]. intros c [= <-]. split_and!; [reflexivity|by right|by right]. }
  destruct (discard_releases_other_owner t (mk_io [] [RClosed] [] PEagain PEagain COk true) ex_kept_peer
    (ex_up <| owner := 43 |>) (mk_conn false 1 true (Some dummy_handler) (Some discard_handler)) 43)
    as (p' & s' & E & H & _); [exact Hk|reflexivity|reflexivity|reflexivity|].
  exists p', s'. split; [exact E|exact H].
Defined.
