(* ===== verification/Inet.v ===== *)
(** * Socket addresses as text

    [ngx_inet6_ntop] and [ngx_sock_ntop] of [src/core/ngx_inet.c], which name
    the address a check connects to.  A [sockaddr] is its bytes on a
    little-endian machine: the family in bytes 0 and 1, the port in network
    order in bytes 2 and 3, the IPv4 address in bytes 4 to 7, the IPv6
    address in bytes 8 to 23, the path of a unix socket from byte 2. *)

From S2P Require Import Prelude NgxString.

Definition AF_UNIX : Z := 1.
Definition AF_INET : Z := 2.
Definition AF_INET6 : Z := 10.

Definition NGX_INET_ADDRSTRLEN : nat := 15.
Definition NGX_INET6_ADDRSTRLEN : nat := 45.

Definition byte_at (p : bytes) (i : nat) : Z := nth i p 0.

Definition sa_family (sa : bytes) : Z := byte_at sa 0 + 256 * byte_at sa 1.

(** [ntohs(sin->sin_port)] *)
Definition sa_port (sa : bytes) : Z := byte_at sa 2 * 256 + byte_at sa 3.

(** [ngx_sprintf]: the end of the buffer is the last address; every call below
    writes at most 15 bytes, less than this room. *)
Definition ngx_sprintf (fmt : bytes) (args : list fmt_arg) : option bytes := ngx_vslprintf 64 fmt args.

(** The search for the longest run of zero groups.  [(ngx_uint_t) -1] stands
    for none in [zero] and [last]. *)
Record zero_run := mk_run { z_zero : Z; z_last : Z; z_max : Z; z_n : Z }.

Definition run_close (s : zero_run) : zero_run :=
  if z_max s <? z_n s then mk_run (z_last s) (z_last s) (z_n s) (z_n s) else s.

Definition run_step (p : bytes) (s : zero_run) (i : nat) : zero_run :=
  if negb (byte_at p i =? 0) || negb (byte_at p (i + 1) =? 0) then
    let s := run_close s in mk_run (z_zero s) (z_last s) (z_max s) 0
  else
    mk_run (z_zero s) (if z_n s =? 0 then Z.of_nat i else z_last s) (z_max s) (z_n s + 1).

Definition longest_run (p : bytes) : zero_run :=
  run_close (foldl (run_step p) (mk_run (u64 (-1)) (u64 (-1)) 1 0) [0; 2; 4; 6; 8; 10; 12; 14]%nat).

(** The output loop; [i] grows by at least 2, so 8 rounds are enough. *)
Fixpoint ntop_loop (fuel : nat) (p : bytes) (zero max n i : Z) : option bytes :=
  match fuel with
  | O => Some []
  | S fuel' =>
    if i <? n then
      if i =? zero then cons (ch ":") <$> ntop_loop fuel' p zero max n (i + (max - 1) * 2 + 2)
      else
        x ← ngx_sprintf (s2b "%xd") [AInt (byte_at p (Z.to_nat i) * 256 + byte_at p (Z.to_nat i + 1))];
        rest ← ntop_loop fuel' p zero max n (i + 2);
        Some (x ++ (if i <? 14 then [ch ":"] else []) ++ rest)
    else Some []
  end.

Definition dotted (p : bytes) (o : nat) : list fmt_arg :=
  [AInt (byte_at p o); AInt (byte_at p (o + 1)); AInt (byte_at p (o + 2)); AInt (byte_at p (o + 3))].

(** The text, given the longest run. *)
Definition inet6_text (p : bytes) (zero max : Z) : option bytes :=
  let n := if (zero =? 0)
              && ((max =? 5) && (byte_at p 10 =? 0xff) && (byte_at p 11 =? 0xff)
                  || (max =? 6)
                  || (max =? 7) && negb (byte_at p 14 =? 0) && negb (byte_at p 15 =? 1))
           then 12 else 16 in
  groups ← ntop_loop 8 p zero max n 0;
  tail ← (if n =? 12 then ngx_sprintf (s2b "%ud.%ud.%ud.%ud") (dotted p 12) else Some []);
  Some ((if zero =? 0 then [ch ":"] else []) ++ groups ++ tail).

Definition ngx_inet6_ntop (p : bytes) (len : nat) : option bytes :=
  if (len <? NGX_INET6_ADDRSTRLEN)%nat then Some []
  else inet6_text p (z_zero (longest_run p)) (z_max (longest_run p)).

Fixpoint ngx_strnlen (p : bytes) (n : nat) : nat :=
  match n, p with
  | S n', c :: p' => if c =? 0 then O else S (ngx_strnlen p' n')
  | _, _ => O
  end.

(** The text written to a buffer of [len] bytes; the length returned is its
    length. *)
Definition ngx_sock_ntop (sa : bytes) (socklen : Z) (len : nat) (port : bool) : option bytes :=
  if sa_family sa =? AF_INET then
    if port then ngx_snprintf len (s2b "%ud.%ud.%ud.%ud:%d") (dotted sa 4 ++ [AInt (sa_port sa)])
    else ngx_snprintf len (s2b "%ud.%ud.%ud.%ud") (dotted sa 4)
  else if sa_family sa =? AF_INET6 then
    a ← ngx_inet6_ntop (drop 8 sa) len;
    if port then p ← ngx_sprintf (s2b "]:%d") [AInt (sa_port sa)]; Some ([ch "["] ++ a ++ p)
    else Some a
  else if sa_family sa =? AF_UNIX then
    t ← (if socklen <=? 2 then ngx_snprintf len (s2b "unix:%Z") []
         else
           let n := ngx_strnlen (drop 2 sa) (Z.to_nat (socklen - 2)) in
           ngx_snprintf len (s2b "unix:%*s%Z") [AInt (Z.of_nat n); ACstr (drop 2 sa)]);
    Some (take (length t - 1) t)
  else Some [].

Definition v6 (l : list Z) : bytes := flat_map (fun g => [g / 256; g mod 256]) l.

Example ntop_examples :
  ngx_inet6_ntop (v6 [0x2001; 0xdb8; 0; 0; 0; 0; 0; 1]) 45 = Some (s2b "2001:db8::1")
  /\ ngx_inet6_ntop (v6 [0; 0; 0; 0; 0; 0; 0; 0]) 45 = Some (s2b "::")
  /\ ngx_inet6_ntop (v6 [0; 0; 0; 0; 0; 0xffff; 0xc0a8; 0x101]) 45 = Some (s2b "::ffff:192.168.1.1")
  /\ ngx_inet6_ntop (v6 [0; 0; 0; 0; 0; 0; 0; 1]) 45 = Some (s2b "::1")
  /\ ngx_inet6_ntop (v6 [1; 2; 3; 4; 5; 0; 0; 0]) 45 = Some (s2b "1:2:3:4:5::")
  /\ ngx_sock_ntop [2; 0; 31; 144; 127; 0; 0; 1] 16 21 true = Some (s2b "127.0.0.1:8080").
Proof. vm_compute. by split_and!. Qed.

(** ** Formatting step by step *)

Lemma num_loop_short k fuel base digit x p :
  1 < base -> 0 <= x < base ^ Z.of_nat k -> (0 < k)%nat ->
  (length (num_loop fuel base digit x p) <= k + length p)%nat.
Proof.
  intros Hb. revert fuel x p. induction k as [|k IH]; intros fuel x p Hx Hk; [lia|].
  destruct fuel as [|fuel]; cbn [num_loop]; [lia|].
  destruct (Z.eqb_spec (x / base) 0) as [E|E]; [cbn; lia|].
  rewrite Nat2Z.inj_succ, Z.pow_succ_r in Hx by lia.
  assert (Hd : 0 <= x / base < base ^ Z.of_nat k).
  { split; [apply Z.div_pos; lia|apply Z.div_lt_upper_bound; lia]. }
  destruct k as [|k]; [change (base ^ Z.of_nat 0) with 1 in Hd; lia|].
  etrans; [apply IH; [done|lia]|cbn; lia].
Qed.

Lemma dec_short k x : 0 <= x < 10 ^ Z.of_nat k -> (0 < k)%nat -> (length (num_text x 0) <= k)%nat.
Proof. intros Hx Hk. pose proof (num_loop_short k 20 10 (fun d => d + ch "0") x [] ltac:(lia) Hx Hk) as H. cbn [length] in H. rewrite Nat.add_0_r in H. exact H. Qed.

Lemma hex_short k x : 0 <= x < 16 ^ Z.of_nat k -> (0 < k)%nat -> (length (num_text x 1) <= k)%nat.
Proof. intros Hx Hk. pose proof (num_loop_short k 20 16 (hex_digit false) x [] ltac:(lia) Hx Hk) as H. cbn [length] in H. rewrite Nat.add_0_r in H. exact H. Qed.

(** A plain number with enough room. *)
Lemma sprintf_num_room room x hex :
  (length (num_text x hex) <= room)%nat -> ngx_sprintf_num room x 32 hex 0 = num_text x hex.
Proof. intros H. rewrite sprintf_num_take. rewrite Nat.sub_0_l. cbn [replicate app]. by rewrite take_ge. Qed.

Lemma vsl_end fuel room args : vslprintf_loop fuel room [] args = Some [].
Proof. by destruct fuel. Qed.

Lemma vsl_lit fuel room c fmt args :
  c <> ch "%" -> (0 < room)%nat ->
  vslprintf_loop (S fuel) room (c :: fmt) args = cons c <$> vslprintf_loop fuel (room - 1) fmt args.
Proof. intros Hc Hr. destruct room as [|room]; [lia|]. cbn [vslprintf_loop]. by rewrite (proj2 (Z.eqb_neq _ _) Hc). Qed.

(** [%ud], [%xd] and [%d] of a number below 2^31. *)
Inductive num_fmt : Set := FUd | FXd | FD.

Definition num_conv (f : num_fmt) : bytes :=
  match f with FUd => s2b "%ud" | FXd => s2b "%xd" | FD => s2b "%d" end.

Definition num_hex (f : num_fmt) : Z := match f with FXd => 1 | _ => 0 end.

Lemma vsl_num f fuel room fmt args z :
  0 <= z < 2 ^ 31 -> (length (num_text z (num_hex f)) <= room)%nat -> (0 < room)%nat ->
  vslprintf_loop (S fuel) room (num_conv f ++ fmt) (AInt z :: args)
  = app (num_text z (num_hex f))
    <$> vslprintf_loop fuel (room - length (num_text z (num_hex f))) fmt args.
Proof.
  intros Hz Hl Hr. destruct room as [|room]; [lia|].
  destruct f; cbn [num_hex] in *.
  - change (vslprintf_loop (S fuel) (S room) (num_conv FUd ++ fmt) (AInt z :: args))
      with (app (ngx_sprintf_num (S room) (u32 z) 32 0 0)
        <$> vslprintf_loop fuel (S room - length (ngx_sprintf_num (S room) (u32 z) 32 0 0)) fmt args).
    unfold u32. rewrite (Z.mod_small z) by lia. by rewrite sprintf_num_room.
  - change (vslprintf_loop (S fuel) (S room) (num_conv FXd ++ fmt) (AInt z :: args))
      with (app (ngx_sprintf_num (S room) (u32 z) 32 1 0)
        <$> vslprintf_loop fuel (S room - length (ngx_sprintf_num (S room) (u32 z) 32 1 0)) fmt args).
    unfold u32. rewrite (Z.mod_small z) by lia. by rewrite sprintf_num_room.
  - change (vslprintf_loop (S fuel) (S room) (num_conv FD ++ fmt) (AInt z :: args))
      with (app (fmt_put_num (S room) (Signed ((z + 2 ^ 31) mod 2 ^ 32 - 2 ^ 31)) (mk_spec 32 0 true 0 false None))
        <$> vslprintf_loop fuel (S room - length (fmt_put_num (S room) (Signed ((z + 2 ^ 31) mod 2 ^ 32 - 2 ^ 31)) (mk_spec 32 0 true 0 false None))) fmt args).
    rewrite (Z.mod_small (z + 2 ^ 31)) by lia. replace (z + 2 ^ 31 - 2 ^ 31) with z by lia.
    cbn [fmt_put_num]. rewrite (proj2 (Z.ltb_ge _ _)) by lia. cbn [fs_zero fs_hex fs_width]. by rewrite sprintf_num_room.
Qed.

Lemma vsl_num1 f fuel room z :
  0 <= z < 2 ^ 31 -> (length (num_text z (num_hex f)) <= room)%nat -> (0 < room)%nat ->
  vslprintf_loop (S fuel) room (num_conv f) [AInt z] = Some (num_text z (num_hex f)).
Proof.
  intros. rewrite <- (app_nil_r (num_conv f)). rewrite vsl_num by done. rewrite vsl_end. cbn. by rewrite app_nil_r.
Qed.

(** ** IPv4 *)

Definition dotted_text (a b c d : Z) : bytes :=
  num_text a 0 ++ [ch "."] ++ num_text b 0 ++ [ch "."] ++ num_text c 0 ++ [ch "."] ++ num_text d 0.

Lemma dec_byte x : is_byte x -> (length (num_text x 0) <= 3)%nat.
Proof. intros H. apply dec_short; [unfold is_byte in H; cbn; lia|lia]. Qed.

Lemma length_dotted_text a b c d :
  is_byte a -> is_byte b -> is_byte c -> is_byte d -> (length (dotted_text a b c d) <= 15)%nat.
Proof.
  intros Ha Hb Hc Hd. unfold dotted_text. rewrite !length_app. cbn [length].
  pose proof (dec_byte a Ha). pose proof (dec_byte b Hb). pose proof (dec_byte c Hc). pose proof (dec_byte d Hd). lia.
Qed.

Lemma vsl_dotted fuel room a b c d fmt args :
  is_byte a -> is_byte b -> is_byte c -> is_byte d -> (16 <= room)%nat ->
  vslprintf_loop (7 + fuel) room (s2b "%ud.%ud.%ud.%ud" ++ fmt) ([AInt a; AInt b; AInt c; AInt d] ++ args)
  = app (dotted_text a b c d)
    <$> vslprintf_loop fuel (room - length (dotted_text a b c d)) fmt args.
Proof.
  intros Ha Hb Hc Hd Hr.
  pose proof (dec_byte a Ha). pose proof (dec_byte b Hb). pose proof (dec_byte c Hc). pose proof (dec_byte d Hd).
  unfold is_byte in *.
  change (s2b "%ud.%ud.%ud.%ud" ++ fmt) with
    (num_conv FUd ++ ch "." :: num_conv FUd ++ ch "." :: num_conv FUd ++ ch "." :: num_conv FUd ++ fmt).
  cbn [app Nat.add].
  rewrite vsl_num by (cbn [num_hex]; lia). cbn [num_hex]. rewrite vsl_lit by (done || lia).
  rewrite vsl_num by (cbn [num_hex]; lia). cbn [num_hex]. rewrite vsl_lit by (done || lia).
  rewrite vsl_num by (cbn [num_hex]; lia). cbn [num_hex]. rewrite vsl_lit by (done || lia).
  rewrite vsl_num by (cbn [num_hex]; lia). cbn [num_hex].
  unfold dotted_text. rewrite !length_app. cbn [length].
  replace (room - length (num_text a 0) - 1 - length (num_text b 0) - 1 - length (num_text c 0) - 1
           - length (num_text d 0))%nat
    with (room - (length (num_text a 0) + (1 + (length (num_text b 0) + (1 + (length (num_text c 0)
           + (1 + length (num_text d 0))))))))%nat by lia.
  destruct (vslprintf_loop fuel _ fmt args) as [l|]; [|done]. cbn [fmap option_fmap option_map].
  rewrite <- !app_assoc. reflexivity.
Qed.

Lemma sock_ntop_inet sa sl :
  sa_family sa = AF_INET -> Forall is_byte sa -> (8 <= length sa)%nat ->
  ngx_sock_ntop sa sl 21 true
  = Some (dotted_text (byte_at sa 4) (byte_at sa 5) (byte_at sa 6) (byte_at sa 7)
          ++ [ch ":"] ++ num_text (sa_port sa) 0).
Proof.
  intros Hf Hb Hl. unfold ngx_sock_ntop. rewrite Hf, Z.eqb_refl.
  assert (Hbyte : forall i, (i < 8)%nat -> is_byte (byte_at sa i)).
  { intros i Hi. unfold byte_at. rewrite Forall_forall in Hb. apply Hb, list_elem_of_In, nth_In. lia. }
  unfold ngx_snprintf, ngx_vslprintf.
  change (length (s2b "%ud.%ud.%ud.%ud:%d")) with (7 + 11)%nat.
  change (s2b "%ud.%ud.%ud.%ud:%d") with (s2b "%ud.%ud.%ud.%ud" ++ ch ":" :: num_conv FD).
  change (dotted sa 4 ++ [AInt (sa_port sa)]) with
    ([AInt (byte_at sa 4); AInt (byte_at sa 5); AInt (byte_at sa 6); AInt (byte_at sa 7)] ++ [AInt (sa_port sa)]).
  pose proof (length_dotted_text (byte_at sa 4) (byte_at sa 5) (byte_at sa 6) (byte_at sa 7)
    ltac:(by apply Hbyte; lia) ltac:(by apply Hbyte; lia) ltac:(by apply Hbyte; lia) ltac:(by apply Hbyte; lia)).
  assert (Hp : 0 <= sa_port sa < 65536).
  { pose proof (Hbyte 2%nat ltac:(lia)). pose proof (Hbyte 3%nat ltac:(lia)). unfold sa_port, is_byte in *. lia. }
  pose proof (dec_short 5 (sa_port sa) ltac:(cbn; lia) ltac:(lia)).
  rewrite vsl_dotted by (lia || apply Hbyte; lia). rewrite vsl_lit by (done || lia).
  rewrite vsl_num1 by (cbn [num_hex]; lia). reflexivity.
Qed.

(** ** IPv6 *)

Definition run_ok (s : zero_run) : Prop := 0 <= z_n s /\ 1 <= z_max s /\ (z_zero s = 0 -> 2 <= z_max s).

Lemma run_close_ok s : run_ok s -> run_ok (run_close s).
Proof. intros (? & ? & ?). unfold run_close. destruct (Z.ltb_spec (z_max s) (z_n s)); unfold run_ok; cbn; lia. Qed.

Lemma longest_run_ok p : run_ok (longest_run p).
Proof.
  unfold longest_run. apply run_close_ok.
  assert (forall l s, run_ok s -> run_ok (foldl (run_step p) s l)) as H.
  { induction l as [|i l IH]; intros s Hs; [done|]. cbn [foldl]. apply IH. unfold run_step.
    destruct (_ || _).
    - destruct (run_close_ok s Hs) as (? & ? & ?). unfold run_ok. cbn. lia.
    - destruct Hs as (? & ? & ?). unfold run_ok. cbn. lia. }
  apply H. unfold run_ok. cbn [z_n z_max z_zero]. split_and!; [lia|lia|discriminate].
Qed.

Lemma sprintf_xd_text x : 0 <= x < 65536 -> ngx_sprintf (s2b "%xd") [AInt x] = Some (num_text x 1).
Proof.
  intros Hx. pose proof (hex_short 4 x ltac:(cbn; lia) ltac:(lia)).
  unfold ngx_sprintf, ngx_vslprintf. change (s2b "%xd") with (num_conv FXd).
  apply vsl_num1; cbn [num_hex]; lia.
Qed.

Lemma sprintf_xd x :
  0 <= x < 65536 ->
  exists t, ngx_sprintf (s2b "%xd") [AInt x] = Some t /\ (length t <= 4)%nat.
Proof. intros Hx. exists (num_text x 1). split; [by apply sprintf_xd_text|apply (hex_short 4); cbn; lia]. Qed.

Lemma ntop_loop_short fuel p zero max n i :
  Forall is_byte p -> 1 <= max -> n <= 16 -> 0 <= i -> Z.even (n - i) = true ->
  exists t, ntop_loop fuel p zero max n i = Some t /\ 2 * blen t <= Z.max 0 (5 * (n - i)).
Proof.
  intros Hb Hm Hn. revert i. induction fuel as [|fuel IH]; intros i Hi He; cbn [ntop_loop].
  { exists []. split; [done|rewrite blen_nil; lia]. }
  destruct (Z.ltb_spec i n); [|exists []; split; [done|rewrite blen_nil; lia]].
  assert (2 <= n - i). { destruct (Z.eq_dec (n - i) 1) as [E|]; [by rewrite E in He|lia]. }
  destruct (Z.eqb_spec i zero).
  - destruct (IH (i + (max - 1) * 2 + 2)) as (t & -> & Ht); [lia| |].
    { replace (n - _) with (n - i + 2 * - max) by lia. by rewrite Z.even_add_mul_2. }
    eexists. split; [reflexivity|]. rewrite blen_cons. lia.
  - assert (Hbyte : forall k, 0 <= byte_at p k < 256).
    { intros k. unfold byte_at. destruct (nth_in_or_default k p 0) as [Hin| ->]; [|lia].
      rewrite Forall_forall in Hb. by apply Hb, list_elem_of_In. }
    pose proof (Hbyte (Z.to_nat i)). pose proof (Hbyte (Z.to_nat i + 1)%nat).
    destruct (sprintf_xd (byte_at p (Z.to_nat i) * 256 + byte_at p (Z.to_nat i + 1))) as (x & -> & Hx); [lia|].
    cbn [mbind option_bind]. destruct (IH (i + 2)) as (t & -> & Ht); [lia| |].
    { replace (n - _) with (n - i + 2 * -1) by lia. by rewrite Z.even_add_mul_2. }
    cbn [mbind option_bind]. eexists. split; [reflexivity|]. rewrite !blen_app. unfold blen at 1.
    destruct (i <? 14); cbn [blen length]; change (blen [ch ":"]) with 1; change (blen []) with 0; lia.
Qed.

Lemma byte_at_ok p k : Forall is_byte p -> is_byte (byte_at p k).
Proof.
  intros Hb. unfold byte_at. destruct (nth_in_or_default k p 0) as [Hin| ->]; [|done].
  rewrite Forall_forall in Hb. by apply Hb, list_elem_of_In.
Qed.

Lemma sprintf_dotted_text p o :
  Forall is_byte p ->
  ngx_sprintf (s2b "%ud.%ud.%ud.%ud") (dotted p o)
  = Some (dotted_text (byte_at p o) (byte_at p (o + 1)) (byte_at p (o + 2)) (byte_at p (o + 3))).
Proof.
  intros Hb. unfold ngx_sprintf, ngx_vslprintf.
  pose proof (vsl_dotted 8 64 (byte_at p o) (byte_at p (o + 1)) (byte_at p (o + 2)) (byte_at p (o + 3)) [] []) as E.
  rewrite !app_nil_r in E. etrans; [apply E; try (by apply byte_at_ok); lia|].
  rewrite vsl_end. cbn [fmap option_fmap option_map]. by rewrite app_nil_r.
Qed.

Lemma sprintf_dotted p :
  Forall is_byte p ->
  exists t, ngx_sprintf (s2b "%ud.%ud.%ud.%ud") (dotted p 12) = Some t /\ blen t <= 15.
Proof.
  intros Hb. eexists. split; [by apply sprintf_dotted_text|]. unfold blen.
  pose proof (length_dotted_text (byte_at p 12) (byte_at p (12 + 1)) (byte_at p (12 + 2)) (byte_at p (12 + 3))
    ltac:(by apply byte_at_ok) ltac:(by apply byte_at_ok) ltac:(by apply byte_at_ok) ltac:(by apply byte_at_ok)). lia.
Qed.

Lemma ntop_loop_zero fuel p zero max n :
  zero < n ->
  ntop_loop (S fuel) p zero max n zero = cons (ch ":") <$> ntop_loop fuel p zero max n (zero + (max - 1) * 2 + 2).
Proof. intros H. cbn [ntop_loop]. by rewrite (proj2 (Z.ltb_lt _ _) H), Z.eqb_refl. Qed.

Lemma inet6_text_mapped p max :
  Forall is_byte p -> 5 <= max ->
  exists t d, ntop_loop 8 p 0 max 12 0 = Some t
    /\ ngx_sprintf (s2b "%ud.%ud.%ud.%ud") (dotted p 12) = Some d /\ blen t <= 6 /\ blen d <= 15.
Proof.
  intros Hb Hm. rewrite ntop_loop_zero by lia.
  destruct (ntop_loop_short 7 p 0 max 12 (0 + (max - 1) * 2 + 2)) as (t & -> & Ht); [done|lia..| |].
  { replace (12 - _) with (12 + 2 * - max) by lia. by rewrite Z.even_add_mul_2. }
  destruct (sprintf_dotted p Hb) as (d & -> & Hd). exists (ch ":" :: t), d.
  split; [done|]. split; [done|]. rewrite blen_cons. lia.
Qed.

Lemma inet6_text_short p zero max :
  Forall is_byte p -> 1 <= max -> exists t, inet6_text p zero max = Some t /\ blen t <= 41.
Proof.
  intros Hb Hm. unfold inet6_text. cbv zeta.
  destruct ((zero =? 0) && _) eqn:E.
  - apply andb_true_iff in E as [E0%Z.eqb_eq E]. subst zero.
    destruct (inet6_text_mapped p max Hb ltac:(lia)) as (t & d & Et & Ed & Ht & Hd).
    rewrite (bind_some _ _ _ Et), Z.eqb_refl, (bind_some _ _ _ Ed).
    eexists. split; [reflexivity|]. rewrite !blen_app, !blen_cons, blen_nil. lia.
  - destruct (ntop_loop_short 8 p zero max 16 0) as (t & Et & Ht); [done|lia..|done|].
    rewrite (bind_some _ _ _ Et), (proj2 (Z.eqb_neq 16 12)) by lia. rewrite (bind_some _ _ _ eq_refl).
    eexists. split; [reflexivity|]. rewrite !blen_app, blen_nil.
    destruct (zero =? 0); rewrite ?blen_cons, blen_nil; lia.
Qed.

Lemma inet6_ntop_short p :
  Forall is_byte p -> exists t, ngx_inet6_ntop p 51 = Some t /\ blen t <= 41.
Proof.
  intros Hb. destruct (longest_run_ok p) as (_ & Hm & _). exact (inet6_text_short p _ _ Hb Hm).
Qed.
