(* ===== verification/FastCgiRequest.v ===== *)
(** * The FastCGI request of a check

    [ngx_http_upstream_check_create_fastcgi_request] of
    [ngx_http_upstream_check_module.c]: the request sent by a check of type
    [fastcgi], built once when the configuration is read.  The specification
    is a decoder of FastCGI records and name-value pairs. *)

From S2P Require Import Prelude NgxString.

(** ** The request *)

Definition NGX_HTTP_FASTCGI_RESPONDER : Z := 1.
Definition NGX_HTTP_FASTCGI_BEGIN_REQUEST : Z := 1.
Definition NGX_HTTP_FASTCGI_PARAMS : Z := 4.

(** [ngx_http_fastcgi_header_t], [ngx_http_fastcgi_begin_request_t] and
    [ngx_http_fastcgi_header_small_t] are 8, 8 and 4 bytes. *)
Definition ngx_http_fastcgi_request_start : bytes :=
  [1; NGX_HTTP_FASTCGI_BEGIN_REQUEST; 0; 1; 0; 8; 0; 0]
  ++ [0; NGX_HTTP_FASTCGI_RESPONDER; 0; 0; 0; 0; 0; 0]
  ++ [1; NGX_HTTP_FASTCGI_PARAMS; 0; 1].

(** The parameters two by two: [&params[2 * i]] and [&params[2 * i + 1]] for
    [i < num], where [num] is half the number of elements. *)
Fixpoint param_pairs (params : list bytes) : list (bytes * bytes) :=
  match params with
  | k :: v :: params' => (k, v) :: param_pairs params'
  | _ => []
  end.

(** The first loop: the length of the parameters, the lengths of names
    counted as one byte. *)
Definition params_len (ps : list (bytes * bytes)) : Z :=
  foldr (fun '(k, v) n => 1 + blen k + (if 127 <? blen v then 4 else 1) + blen v + n) 0 ps.

Definition params_padding (len : Z) : Z :=
  let padding := 8 - len mod 8 in if padding =? 8 then 0 else padding.

(** A length on one byte or four. *)
Definition put_len (n : Z) : bytes :=
  if 127 <? n then
    [u8 (Z.lor (Z.land (Z.shiftr n 24) 0x7f) 0x80); u8 (Z.land (Z.shiftr n 16) 0xff);
     u8 (Z.land (Z.shiftr n 8) 0xff); u8 (Z.land n 0xff)]
  else [u8 n].

(** The second loop: what is written for each parameter. *)
Definition put_param (p : bytes * bytes) : bytes :=
  put_len (blen (fst p)) ++ put_len (blen (snd p)) ++ fst p ++ snd p.

Definition put_params (ps : list (bytes * bytes)) : bytes := flat_map put_param ps.

(** Everything that is written from [b->pos], up to the last header, of which
    nothing is written. *)
Definition request_written (ps : list (bytes * bytes)) : bytes :=
  let len := params_len ps in
  let padding := params_padding len in
  ngx_http_fastcgi_request_start
  ++ [u8 (Z.land (Z.shiftr len 8) 0xff); u8 (Z.land len 0xff); u8 padding; 0]
  ++ put_params ps ++ replicate (Z.to_nat padding) 0
  ++ [1; NGX_HTTP_FASTCGI_PARAMS; 0; 1; 0; 0; 0; 0].

Definition request_size (ps : list (bytes * bytes)) : Z :=
  8 + 8 + 8 + params_len ps + params_padding (params_len ps) + 8 + 8.

(** The function returns the bytes from [b->pos] to [b->last].  [alloc_ok]
    says whether [ngx_create_temp_buf] succeeds and [stdin_header] is what
    the eight bytes of the last header hold in the block.  [None] is a write
    behind the block or a [b->last] behind [b->end]. *)
Definition ngx_http_upstream_check_create_fastcgi_request (alloc_ok : bool) (stdin_header : bytes)
    (params : list bytes) : option (option bytes) :=
  if negb alloc_ok then Some None
  else
    let ps := param_pairs params in
    let b := request_written ps in
    if request_size ps <? blen b + 8 then None else Some (Some (b ++ stdin_header)).

Definition fastcgi_default_params : list bytes :=
  [s2b "REQUEST_METHOD"; s2b "GET"; s2b "REQUEST_URI"; s2b "/"; s2b "SCRIPT_FILENAME"; s2b "index.php"].

(** ** A decoder *)

(** A FastCGI record: type, request id and content. *)
Record fcgi_record := mk_record { r_type : Z; r_id : Z; r_content : bytes }.

Definition get_record (l : bytes) : option (fcgi_record * bytes) :=
  match l with
  | v :: t :: i1 :: i0 :: c1 :: c0 :: p :: _ :: l' =>
    let n := Z.to_nat (c1 * 256 + c0) in
    let pad := Z.to_nat p in
    if (v =? 1) && (Z.of_nat n + Z.of_nat pad <=? blen l') then
      Some (mk_record t (i1 * 256 + i0) (take n l'), drop (n + pad) l')
    else None
  | _ => None
  end.

Definition get_len (l : bytes) : option (nat * bytes) :=
  match l with
  | [] => None
  | a :: l' =>
    if a <? 128 then Some (Z.to_nat a, l')
    else match l' with
         | b :: c :: d :: l'' => Some (Z.to_nat ((a - 128) * 2 ^ 24 + b * 2 ^ 16 + c * 2 ^ 8 + d), l'')
         | _ => None
         end
  end.

Fixpoint get_params (fuel : nat) (l : bytes) : option (list (bytes * bytes)) :=
  match l, fuel with
  | [], _ => Some []
  | _, O => None
  | _, S fuel' =>
    '(nk, l1) ← get_len l; '(nv, l2) ← get_len l1;
    if (nk + nv <=? length l2)%nat then
      ps ← get_params fuel' (drop (nk + nv) l2);
      Some ((take nk l2, take nv (drop nk l2)) :: ps)
    else None
  end.

(** ** Encoding and decoding *)

Lemma params_padding_spec n : 0 <= n -> 0 <= params_padding n < 8 /\ (n + params_padding n) mod 8 = 0.
Proof.
  intros Hn. unfold params_padding. destruct (Z.eqb_spec (8 - n mod 8) 8); split; dlia.
Qed.

Lemma put_len_big n :
  127 < n < 2 ^ 31 ->
  put_len n = [128 + n / 2 ^ 24; (n / 2 ^ 16) mod 2 ^ 8; (n / 2 ^ 8) mod 2 ^ 8; n mod 2 ^ 8].
Proof.
  intros Hn. unfold put_len. rewrite (proj2 (Z.ltb_lt _ _)) by lia.
  rewrite !land_ff, !Z.shiftr_div_pow2 by lia. change 0x7f with (Z.ones 7). rewrite Z.land_ones by lia.
  rewrite (Z.mod_small (n / 2 ^ 24)) by dlia. rewrite Z.lor_comm.
  change 0x80 with (Z.shiftl 1 7). rewrite lor_shiftl_add by (lia || dlia).
  unfold u8. rewrite !Z.mod_mod by lia. rewrite (Z.mod_small (_ + _)) by dlia. done.
Qed.

Lemma get_put_len n l : 0 <= n < 2 ^ 31 -> get_len (put_len n ++ l) = Some (Z.to_nat n, l).
Proof.
  intros Hn. destruct (Z.lt_ge_cases 127 n) as [Hb|Hs].
  - rewrite put_len_big by lia. cbn [app get_len].
    rewrite (proj2 (Z.ltb_ge _ _)) by dlia. do 3 f_equal. dlia.
  - unfold put_len. rewrite (proj2 (Z.ltb_ge _ _)) by lia. cbn [app get_len].
    unfold u8. rewrite Z.mod_small by lia. by rewrite (proj2 (Z.ltb_lt _ _)) by lia.
Qed.

Lemma length_put_param p : (0 < length (put_param p))%nat.
Proof. unfold put_param, put_len. rewrite length_app. destruct (127 <? _); cbn; lia. Qed.

Definition fits31 (p : bytes * bytes) : Prop := blen (fst p) < 2 ^ 31 /\ blen (snd p) < 2 ^ 31.

Lemma get_params_step fuel l :
  l <> [] ->
  get_params (S fuel) l =
    ('(nk, l1) ← get_len l; '(nv, l2) ← get_len l1;
     if (nk + nv <=? length l2)%nat then
       ps ← get_params fuel (drop (nk + nv) l2);
       Some ((take nk l2, take nv (drop nk l2)) :: ps)
     else None).
Proof. by destruct l. Qed.

Lemma get_put_params ps fuel :
  Forall fits31 ps -> (length (put_params ps) <= fuel)%nat ->
  get_params fuel (put_params ps) = Some ps.
Proof.
  intros Hps. revert fuel. induction Hps as [|[k v] ps [Hk Hv] _ IH]; intros fuel Hf.
  { by destruct fuel. }
  change (put_params ((k, v) :: ps)) with (put_param (k, v) ++ put_params ps) in *.
  pose proof (length_put_param (k, v)) as Hpos. rewrite length_app in Hf.
  destruct fuel as [|fuel]; [lia|].
  rewrite get_params_step by (destruct (put_param (k, v)); [cbn in Hpos; lia|done]).
  cbn [fst snd] in Hk, Hv. unfold put_param at 1. cbn [fst snd]. rewrite <- !app_assoc.
  pose proof (blen_nonneg k). pose proof (blen_nonneg v).
  rewrite get_put_len by lia. cbn [mbind option_bind]. rewrite get_put_len by lia. cbn [mbind option_bind].
  unfold blen. rewrite !Nat2Z.id, !length_app.
  rewrite (proj2 (Nat.leb_le _ _)) by lia.
  assert (drop (length k + length v) (k ++ v ++ put_params ps) = put_params ps) as ->.
  { by rewrite <- drop_drop, !drop_app_length. }
  rewrite IH by lia. cbn [mbind option_bind]. by rewrite drop_app_length, !take_app_length.
Qed.

(** ** Correctness of the request *)

Definition short_name (p : bytes * bytes) : Prop := blen (fst p) <= 127.

Lemma blen_put_len n : blen (put_len n) = if 127 <? n then 4 else 1.
Proof. unfold put_len. by destruct (127 <? n). Qed.

(** What the second loop writes, and what the first loop counted: three bytes
    less for every long name. *)
Lemma blen_put_params ps :
  blen (put_params ps)
  = params_len ps + 3 * Z.of_nat (length (filter (fun p => 127 < blen (fst p)) ps)).
Proof.
  induction ps as [|[k v] ps IH]; [done|].
  change (put_params ((k, v) :: ps)) with (put_param (k, v) ++ put_params ps).
  rewrite blen_app, IH, filter_cons. cbn [params_len foldr]. fold (params_len ps).
  unfold put_param. rewrite !blen_app, !blen_put_len. cbn [fst snd].
  destruct (decide (127 < blen k)) as [H|H]; cbn [length].
  - rewrite (proj2 (Z.ltb_lt _ _) H). lia.
  - rewrite (proj2 (Z.ltb_ge 127 (blen k))) by lia. lia.
Qed.

Lemma params_len_nonneg ps : 0 <= params_len ps.
Proof.
  induction ps as [|[k v] ps IH]; cbn [params_len foldr]; [done|]. fold (params_len ps).
  pose proof (blen_nonneg k). pose proof (blen_nonneg v). destruct (127 <? blen v); lia.
Qed.

Lemma blen_replicate n c : blen (replicate n c) = Z.of_nat n.
Proof. unfold blen. by rewrite length_replicate. Qed.

(** How far [b->last] ends behind [b->end]. *)
Lemma request_excess ps :
  blen (request_written ps) + 8 - request_size ps
  = 3 * Z.of_nat (length (filter (fun p => 127 < blen (fst p)) ps)).
Proof.
  unfold request_written, request_size, ngx_http_fastcgi_request_start.
  pose proof (params_padding_spec _ (params_len_nonneg ps)) as [Hp _].
  autorewrite with blen. rewrite blen_put_params, blen_replicate. lia.
Qed.

Lemma short_names_filter ps :
  Forall short_name ps <-> filter (fun p => 127 < blen (fst p)) ps = [].
Proof.
  split; induction ps as [|p ps IH]; rewrite ?filter_cons, ?Forall_cons; try done.
  - intros [Hp Hps]. unfold short_name in Hp. rewrite decide_False by lia. by apply IH.
  - destruct (decide (127 < blen (fst p))); [done|]. intros E. split; [unfold short_name; lia|by apply IH].
Qed.

(** The records of the request, when no name is long and the parameters fit
    one record. *)
Lemma request_records ps rest :
  Forall short_name ps -> params_len ps < 65536 ->
  get_record (request_written ps ++ rest)
    = Some (mk_record 1 1 [0; 1; 0; 0; 0; 0; 0; 0], drop 16 (request_written ps ++ rest))
  /\ get_record (drop 16 (request_written ps ++ rest))
    = Some (mk_record 4 1 (put_params ps), [1; 4; 0; 1; 0; 0; 0; 0] ++ rest).
Proof.
  intros Hs Hlen. pose proof (params_len_nonneg ps) as H0.
  pose proof (params_padding_spec _ H0) as [Hp _].
  pose proof (blen_put_params ps) as Hb. rewrite (proj1 (short_names_filter ps) Hs) in Hb. cbn in Hb.
  unfold request_written, ngx_http_fastcgi_request_start. cbv zeta. cbn [app drop]. split.
  - cbn [get_record]. cbv zeta. rewrite (proj2 (Z.leb_le _ _)); [done|].
    autorewrite with blen. pose proof (blen_nonneg (((put_params ps ++
      replicate (Z.to_nat (params_padding (params_len ps))) 0 ++ [1; 4; 0; 1; 0; 0; 0; 0]) ++ rest))).
    autorewrite with blen in *. cbn. lia.
  - rewrite !land_ff, Z.shiftr_div_pow2 by lia. unfold u8. rewrite !Z.mod_mod by lia.
    cbn [get_record]. cbv zeta.
    replace ((params_len ps / 2 ^ 8) mod 2 ^ 8 * 256 + params_len ps mod 2 ^ 8) with (params_len ps) by dlia.
    rewrite (Z.mod_small (params_padding _)) by lia. rewrite Z.eqb_refl. cbn [andb].
    rewrite <- !app_assoc. rewrite (proj2 (Z.leb_le _ _)).
    2: { autorewrite with blen. rewrite blen_replicate. pose proof (blen_nonneg rest). lia. }
    replace (Z.to_nat (params_len ps)) with (length (put_params ps)) by (unfold blen in Hb; lia).
    rewrite take_app_length, <- drop_drop, drop_app_length, drop_app_length' by (by rewrite length_replicate).
    done.
Qed.

(** C36: the FastCGI request is what a FastCGI server decodes to the
    configured parameters, if no name is longer than 127 bytes (longer ones are
    written beyond the buffer, [fastcgi_long_name_overruns]), no value longer
    than 2^31 - 1 and the parameters fit one record of less than 64 kilobytes.
    Then the request is built inside its buffer and reads as a BEGIN_REQUEST
    record for a responder, a PARAMS record whose content decodes to exactly the
    configured names and values in their order and an empty PARAMS record; the
    PARAMS record is padded to a multiple of 8 bytes.  The last header, that of
    the STDIN record, is whatever memory held before ([stdin_header]): the code
    does not write it. *)
Theorem fastcgi_request_decodes stdin_header params :
  let ps := param_pairs params in
  Forall short_name ps -> Forall fits31 ps -> params_len ps < 65536 ->
  exists req r1 r2 content,
    ngx_http_upstream_check_create_fastcgi_request true stdin_header params = Some (Some req)
    /\ get_record req = Some (mk_record NGX_HTTP_FASTCGI_BEGIN_REQUEST 1 [0; 1; 0; 0; 0; 0; 0; 0], r1)
    /\ get_record r1 = Some (mk_record NGX_HTTP_FASTCGI_PARAMS 1 content, r2)
    /\ get_params (length content) content = Some ps
    /\ get_record r2 = Some (mk_record NGX_HTTP_FASTCGI_PARAMS 1 [], stdin_header)
    /\ (blen req - blen stdin_header) mod 8 = 0.
Proof.
  intros ps Hs Hf Hlen. destruct (request_records ps stdin_header Hs Hlen) as [E1 E2].
  pose proof (request_excess ps) as Hx. rewrite (proj1 (short_names_filter ps) Hs) in Hx. cbn [length Z.of_nat] in Hx.
  eexists _, _, _, _. split_and!.
  - unfold ngx_http_upstream_check_create_fastcgi_request. cbn [negb]. cbv zeta. fold ps.
    rewrite (proj2 (Z.ltb_ge _ _)) by lia. reflexivity.
  - exact E1.
  - exact E2.
  - by apply get_put_params.
  - cbn [app get_record]. cbv zeta. rewrite (proj2 (Z.leb_le _ _)); [done|]. pose proof (blen_nonneg stdin_header). cbn. lia.
  - rewrite blen_app. pose proof (params_padding_spec _ (params_len_nonneg ps)) as [_ Hm].
    replace (_ - _) with (params_len ps + params_padding (params_len ps) + 4 * 8)
      by (unfold request_size in Hx; lia).
    by rewrite Z.mod_add.
Qed.

Lemma fastcgi_request_decodes_witness :
  exists req r1 r2 content,
    ngx_http_upstream_check_create_fastcgi_request true (replicate 8 0) fastcgi_default_params
      = Some (Some req)
    /\ get_record req = Some (mk_record NGX_HTTP_FASTCGI_BEGIN_REQUEST 1 [0; 1; 0; 0; 0; 0; 0; 0], r1)
    /\ get_record r1 = Some (mk_record NGX_HTTP_FASTCGI_PARAMS 1 content, r2)
    /\ get_params (length content) content = Some (param_pairs fastcgi_default_params)
    /\ get_record r2 = Some (mk_record NGX_HTTP_FASTCGI_PARAMS 1 [], replicate 8 0)
    /\ (blen req - blen (replicate 8 0)) mod 8 = 0.
Proof.
  apply (fastcgi_request_decodes (replicate 8 0) fastcgi_default_params).
  - repeat constructor; vm_compute; discriminate.
  - repeat constructor; vm_compute; reflexivity.
  - vm_compute. reflexivity.
Defined.

(** a parameter name longer than 127 bytes overruns the buffer.  The size
    is computed with one byte for the length of every name, but four are
    written for a long one; each long name moves [b->last] three bytes further
    behind the end of the block, so exactly the requests without a long name
    are well defined. *)
Theorem fastcgi_long_name_overruns stdin_header params :
  ngx_http_upstream_check_create_fastcgi_request true stdin_header params = None
  <-> Exists (fun p => 127 < blen (fst p)) (param_pairs params).
Proof.
  unfold ngx_http_upstream_check_create_fastcgi_request. cbn [negb]. cbv zeta.
  pose proof (request_excess (param_pairs params)) as Hx.
  pose proof (short_names_filter (param_pairs params)) as Hf.
  transitivity (~ Forall short_name (param_pairs params)).
  - rewrite Hf. destruct (filter _ _) as [|p l] eqn:E; cbn [length] in Hx.
    + rewrite (proj2 (Z.ltb_ge _ _)) by lia. naive_solver.
    + rewrite (proj2 (Z.ltb_lt _ _)) by lia. naive_solver.
  - unfold short_name. split.
    + intros H. apply not_Forall_Exists in H; [|intros ?; apply _]. eapply Exists_impl; [exact H|]. cbn. lia.
    + intros H Hs. rewrite Forall_forall in Hs. apply Exists_exists in H as (p & Hp & ?).
      specialize (Hs p Hp). lia.
Qed.
