(* ===== verification/CheckConf.v ===== *)
(** * Configuration of the health checker

    The directives of the two modules, the creation and initialisation of
    their configurations.  A directive gets [cf->args] without the directive's name. *)

From S2P Require Import Prelude NgxString StatusLine CheckTypes CheckProto CheckCore CheckSafety CheckWorker.
From S2P Require Import FastCgiRequest.

(** ** Results of a directive *)

Inductive conf_rc : Set := NGX_CONF_OK | NGX_CONF_ERROR | conf_message (s : string).

(** ** The [check] directive *)

(** The locals of the directive, with their defaults; [a_type] is
    [ucscf->check_type_conf], which is assigned as the arguments are read. *)
Record check_args := mk_args {
  a_port : Z; a_rise : Z; a_fall : Z; a_interval : Z; a_timeout : Z; a_default_down : Z;
  a_type : cptr ngx_check_conf_t
}.

#[export] Instance eta_args : Eta check_args := fun r =>
  mk_args (a_port r) (a_rise r) (a_fall r) (a_interval r) (a_timeout r) (a_default_down r) (a_type r).

Definition default_args (t : cptr ngx_check_conf_t) : check_args := mk_args 0 2 5 30000 1000 1 t.

(** [ngx_strncmp(value[i].data, "...", n) == 0] *)
Definition has_prefix (v : bytes) (p : string) : bool := ngx_strncmp v (s2b p) (String.length p) =? 0.

(** A number that must be neither [NGX_ERROR] nor 0. *)
Definition num_param (v : bytes) (skip : nat) : option Z :=
  let n := u64 (ngx_atoi (drop skip v) (blen v - Z.of_nat skip)) in
  if (n =? NGX_UINT_ERROR) || (n =? 0) then None else Some n.

(** One argument; [None] is [NGX_CONF_ERROR]. *)
Definition check_arg (types : list ngx_check_conf_t) (a : check_args) (v : bytes) : option check_args :=
  if has_prefix v "type=" then
    t ← get_check_type_conf types (drop 5 v); Some (a <| a_type := Ptr t |>)
  else if has_prefix v "port=" then n ← num_param v 5; Some (a <| a_port := n |>)
  else if has_prefix v "interval=" then n ← num_param v 9; Some (a <| a_interval := n |>)
  else if has_prefix v "timeout=" then n ← num_param v 8; Some (a <| a_timeout := n |>)
  else if has_prefix v "rise=" then n ← num_param v 5; Some (a <| a_rise := n |>)
  else if has_prefix v "fall=" then n ← num_param v 5; Some (a <| a_fall := n |>)
  else if has_prefix v "default_down=" then
    if ngx_strcasecmp (drop 13 v) (s2b "true") =? 0 then Some (a <| a_default_down := 1 |>)
    else if ngx_strcasecmp (drop 13 v) (s2b "false") =? 0 then Some (a <| a_default_down := 0 |>)
    else None
  else None.

Fixpoint check_args_loop (types : list ngx_check_conf_t) (a : check_args) (vs : list bytes)
    : option check_args :=
  match vs with
  | [] => Some a
  | v :: vs' => a' ← check_arg types a v; check_args_loop types a' vs'
  end.

(** The directive; a configuration in error is not used, so it is returned
    unchanged then. *)
Definition upstream_check (types : list ngx_check_conf_t) (vs : list bytes)
    (cf : ngx_upstream_check_srv_conf_t) : conf_rc * ngx_upstream_check_srv_conf_t :=
  match check_args_loop types (default_args (check_type_conf cf)) vs with
  | None => (NGX_CONF_ERROR, cf)
  | Some a =>
    let t :=
      match a_type a with
      | Unset => match get_check_type_conf types (s2b "tcp") with Some t => Ptr t | None => Null end
      | t => t
      end in
    (NGX_CONF_OK,
     cf <| port := a_port a |> <| check_interval := a_interval a |> <| check_timeout := a_timeout a |>
        <| cf_fall_count := a_fall a |> <| cf_rise_count := a_rise a |>
        <| default_down := a_default_down a |> <| check_type_conf := t |>)
  end.

Definition ngx_stream_upstream_check := upstream_check Stream.ngx_check_types.
Definition ngx_http_upstream_check := upstream_check Http.ngx_check_types.

(** ** The other directives *)

Definition check_keepalive (v : bytes) (cf : ngx_upstream_check_srv_conf_t)
    : conf_rc * ngx_upstream_check_srv_conf_t :=
  match num_param v 0 with
  | None => (conf_message "invalid value", cf)
  | Some n => (NGX_CONF_OK, cf <| check_keepalive_requests := n |>)
  end.

Definition ngx_stream_upstream_check_keepalive_requests := check_keepalive.
Definition ngx_http_upstream_check_keepalive_requests := check_keepalive.

Definition check_http_send (v : bytes) (cf : ngx_upstream_check_srv_conf_t)
    : conf_rc * ngx_upstream_check_srv_conf_t :=
  (NGX_CONF_OK, cf <| send := Some v |>).

Definition ngx_stream_upstream_check_http_send := check_http_send.
Definition ngx_http_upstream_check_http_send := check_http_send.

(** [check_fastcgi_param name value]: two more elements of the array; [None]
    for a null array. *)
Definition ngx_http_upstream_check_fastcgi_params (k v : bytes) (cf : ngx_upstream_check_srv_conf_t)
    : option (conf_rc * ngx_upstream_check_srv_conf_t) :=
  match fastcgi_params cf with
  | Ptr l => Some (NGX_CONF_OK, cf <| fastcgi_params := Ptr (l ++ [k; v]) |>)
  | _ => None
  end.

Definition ngx_check_http_expect_alive_masks : list (bytes * Z) :=
  [ (s2b "http_2xx", NGX_CHECK_HTTP_2XX); (s2b "http_3xx", NGX_CHECK_HTTP_3XX);
    (s2b "http_4xx", NGX_CHECK_HTTP_4XX); (s2b "http_5xx", NGX_CHECK_HTTP_5XX) ].

(** The inner loop: the mask a value names. *)
Fixpoint find_mask (masks : list (bytes * Z)) (v : bytes) : option Z :=
  match masks with
  | [] => None
  | (name, mask) :: masks' =>
    if negb (blen name =? blen v) || negb (ngx_strcasecmp name v =? 0) then find_mask masks' v
    else Some mask
  end.

(** A duplicate value is only warned about. *)
Fixpoint expect_alive_loop (bit : Z) (vs : list bytes) : option Z :=
  match vs with
  | [] => Some bit
  | v :: vs' =>
    mask ← find_mask ngx_check_http_expect_alive_masks v;
    expect_alive_loop (if Z.land bit mask =? 0 then Z.lor bit mask else bit) vs'
  end.

Definition check_http_expect_alive (vs : list bytes) (cf : ngx_upstream_check_srv_conf_t)
    : conf_rc * ngx_upstream_check_srv_conf_t :=
  match expect_alive_loop (status_alive cf) vs with
  | None => (NGX_CONF_ERROR, cf)
  | Some bit => (NGX_CONF_OK, cf <| status_alive := bit |>)
  end.

Definition ngx_stream_upstream_check_http_expect_alive := check_http_expect_alive.
Definition ngx_http_upstream_check_http_expect_alive := check_http_expect_alive.

Section Body.
(** Whether PCRE compiles a pattern. *)
Context (regex_compile : bytes -> bool -> bool).

Definition ngx_upstream_check_http_body_regex (cf : ngx_upstream_check_srv_conf_t) (regex : bytes)
    (caseless : bool) : ngx_rc * ngx_upstream_check_srv_conf_t :=
  if regex_compile regex caseless then
    (NGX_OK, cf <| expect_body_regex := Ptr (mk_regex regex caseless) |>)
  else (NGX_ERROR, cf).

Definition ngx_upstream_check_http_body (vs : list bytes) (cf : ngx_upstream_check_srv_conf_t)
    : conf_rc * ngx_upstream_check_srv_conf_t :=
  match vs with
  | [mode; name] =>
    let compile caseless :=
      match ngx_upstream_check_http_body_regex cf name caseless with
      | (NGX_OK, cf') => (NGX_CONF_OK, cf')
      | (_, cf') => (NGX_CONF_ERROR, cf')
      end in
    if (blen mode =? 1) && (nth 0 mode 0 =? ch "~") then compile false
    else if (blen mode =? 2) && (nth 0 mode 0 =? ch "~") && (nth 1 mode 0 =? ch "*") then compile true
    else (NGX_CONF_ERROR, cf)
  | _ => (NGX_CONF_ERROR, cf)
  end.

Definition ngx_http_upstream_check_http_body := ngx_upstream_check_http_body.

End Body.

(** [ngx_http_upstream_check_main_conf_t] *)
Record check_main_conf_t := mk_main_conf {
  check_shm_size : Z;
  main_peers : ngx_upstream_check_peers_t
}.

#[export] Instance eta_main_conf : Eta check_main_conf_t := fun r =>
  mk_main_conf (check_shm_size r) (main_peers r).

Definition upstream_check_shm_size (v : bytes) (cf : check_main_conf_t) : conf_rc * check_main_conf_t :=
  if negb (check_shm_size cf =? 0) then (conf_message "is duplicate", cf)
  else
    let size := u64 (ngx_parse_size v) in
    let cf := cf <| check_shm_size := size |> in
    if size =? u64 (rc_val NGX_ERROR) then (conf_message "invalid value", cf) else (NGX_CONF_OK, cf).

Definition ngx_stream_upstream_check_shm_size := upstream_check_shm_size.
Definition ngx_http_upstream_check_shm_size := upstream_check_shm_size.

(** ** Creating configurations; [None] when an allocation fails *)

Definition check_create_main_conf (ok1 ok2 ok3 : bool) : option check_main_conf_t :=
  if ok1 && ok2 && ok3 then Some (mk_main_conf 0 (mk_peers [] 0 [] None)) else None.

Definition ngx_stream_upstream_check_create_main_conf := check_create_main_conf.
Definition ngx_http_upstream_check_create_main_conf := check_create_main_conf.

(** [ngx_pcalloc] and the assignments; [check_interval] stays 0. *)
Definition srv_conf_unset (params : cptr (list bytes)) : ngx_upstream_check_srv_conf_t :=
  mk_srv_conf NGX_CONF_UNSET_UINT NGX_CONF_UNSET_UINT NGX_CONF_UNSET_UINT 0 NGX_CONF_UNSET_UINT
    NGX_CONF_UNSET_UINT Unset None 0 Unset params 0.

Definition ngx_stream_upstream_check_create_srv_conf (ok : bool) : option ngx_upstream_check_srv_conf_t :=
  if ok then Some (srv_conf_unset Null) else None.

Definition ngx_http_upstream_check_create_srv_conf (ok1 ok2 : bool) : option ngx_upstream_check_srv_conf_t :=
  if ok1 && ok2 then Some (srv_conf_unset (Ptr [])) else None.

(** ** Initialising the configuration of an upstream

    [NGX_CONF_ERROR] and [NGX_CONF_OK] are the only results; [None] is a
    dereferenced null pointer or an overrun buffer. *)

#[export] Instance packet_init_eq_dec : EqDecision packet_init.
Proof. solve_decision. Defined.
#[export] Instance packet_parse_eq_dec : EqDecision packet_parse.
Proof. solve_decision. Defined.
#[export] Instance packet_clean_eq_dec : EqDecision packet_clean.
Proof. solve_decision. Defined.
#[export] Instance check_conf_eq_dec : EqDecision ngx_check_conf_t.
Proof. solve_decision. Defined.

Definition unset_default (v d : Z) : Z := if v =? NGX_CONF_UNSET_UINT then d else v.

(** The defaults both modules set; [check_type_conf] becomes [NULL]. *)
Definition srv_conf_defaults (cf : ngx_upstream_check_srv_conf_t) : ngx_upstream_check_srv_conf_t :=
  cf <| port := unset_default (port cf) 0 |>
     <| cf_fall_count := unset_default (cf_fall_count cf) 2 |>
     <| cf_rise_count := unset_default (cf_rise_count cf) 5 |>
     <| check_interval := unset_default (check_interval cf) 0 |>
     <| check_timeout := unset_default (check_timeout cf) 1000 |>
     <| check_keepalive_requests := unset_default (check_keepalive_requests cf) 1 |>
     <| check_type_conf := match check_type_conf cf with Unset => Null | t => t end |>.

Definition alive_default (check : ngx_check_conf_t) (cf : ngx_upstream_check_srv_conf_t)
    : ngx_upstream_check_srv_conf_t :=
  if status_alive cf =? 0 then cf <| status_alive := default_status_alive check |> else cf.

(** [None] as configuration is [us->srv_conf == NULL]. *)
Definition ngx_stream_upstream_check_init_srv_conf (us : option ngx_upstream_check_srv_conf_t)
    : option (conf_rc * option ngx_upstream_check_srv_conf_t) :=
  match us with
  | None => Some (NGX_CONF_OK, None)
  | Some cf0 =>
    let cf := srv_conf_defaults cf0 in
    match check_type_conf cf0 with
    | Unset => Some (NGX_CONF_OK, Some cf)
    | Null => None
    | Ptr check =>
      let cf := match send cf with None => cf <| send := default_send check |> | Some _ => cf end in
      Some (NGX_CONF_OK, Some (alive_default check cf))
    end
  end.

Section HttpInit.
(** Whether the allocation of a request succeeds, and the bytes of its last
    header. *)
Context (alloc_ok : bool) (stdin_header : bytes).

(** [fastcgi_default_request], set by [init_main_conf]. *)
Context (fastcgi_default_request : bytes).

(** The request of an upstream without [check_http_send]. *)
Definition http_default_send (check : ngx_check_conf_t) (cf : ngx_upstream_check_srv_conf_t)
    : option (conf_rc * ngx_upstream_check_srv_conf_t) :=
  if bool_decide (Some check = Http.ngx_http_get_check_type_conf (s2b "fastcgi")) then
    match fastcgi_params cf with
    | Ptr [] => Some (NGX_CONF_OK, cf <| send := Some fastcgi_default_request |>)
    | Ptr params =>
      match ngx_http_upstream_check_create_fastcgi_request alloc_ok stdin_header params with
      | None => None
      | Some None => Some (NGX_CONF_ERROR, cf)
      | Some (Some b) => Some (NGX_CONF_OK, cf <| send := Some b |>)
      end
    | _ => None
    end
  else Some (NGX_CONF_OK, cf <| send := default_send check |>).

Definition ngx_http_upstream_check_init_srv_conf (us : option ngx_upstream_check_srv_conf_t)
    : option (conf_rc * option ngx_upstream_check_srv_conf_t) :=
  match us with
  | None => Some (NGX_CONF_OK, None)
  | Some cf0 =>
    let cf := srv_conf_defaults cf0 in
    match check_type_conf cf with
    | Ptr check =>
      '(rc, cf) ← (if blen (default [] (send cf)) =? 0 then http_default_send check cf
                   else Some (NGX_CONF_OK, cf));
      match rc with
      | NGX_CONF_OK => Some (NGX_CONF_OK, Some (alive_default check cf))
      | rc => Some (rc, Some cf)
      end
    | Unset => None
    | Null => Some (NGX_CONF_OK, Some cf)
    end
  end.

End HttpInit.

(** The loop of [init_main_conf] over the upstreams, which stops at the first
    error. *)
Fixpoint init_srv_confs
    (init : option ngx_upstream_check_srv_conf_t -> option (conf_rc * option ngx_upstream_check_srv_conf_t))
    (uss : list (option ngx_upstream_check_srv_conf_t))
    : option (conf_rc * list (option ngx_upstream_check_srv_conf_t)) :=
  match uss with
  | [] => Some (NGX_CONF_OK, [])
  | us :: uss' =>
    '(rc, us) ← init us;
    match rc with
    | NGX_CONF_OK => '(rc, uss') ← init_srv_confs init uss'; Some (rc, us :: uss')
    | _ => Some (NGX_CONF_ERROR, us :: uss')
    end
  end.

(** ** The [check] directive reads what is written *)

(** An argument of the directive: numbers are strings of digits. *)
Inductive check_param : Type :=
| PType (t : ngx_check_conf_t)
| PPort (ds : bytes) | PInterval (ds : bytes) | PTimeout (ds : bytes)
| PRise (ds : bytes) | PFall (ds : bytes)
| PDefaultDown (b : bool).

Definition render_param (p : check_param) : bytes :=
  match p with
  | PType t => s2b "type=" ++ name t
  | PPort ds => s2b "port=" ++ ds
  | PInterval ds => s2b "interval=" ++ ds
  | PTimeout ds => s2b "timeout=" ++ ds
  | PRise ds => s2b "rise=" ++ ds
  | PFall ds => s2b "fall=" ++ ds
  | PDefaultDown b => s2b "default_down=" ++ s2b (if b then "true" else "false")
  end.

(** Digits of a number from 1 to the largest [ngx_int_t]. *)
Definition pos_digits (ds : bytes) : Prop := Forall is_digit ds /\ 0 < dec_value ds <= NGX_MAX_INT_T_VALUE.

Definition param_ok (types : list ngx_check_conf_t) (p : check_param) : Prop :=
  match p with
  | PType t => t ∈ types /\ type t <> 0
  | PPort ds | PInterval ds | PTimeout ds | PRise ds | PFall ds => pos_digits ds
  | PDefaultDown _ => True
  end.

(** The last occurrence of a parameter counts. *)
Definition apply_param (a : check_args) (p : check_param) : check_args :=
  match p with
  | PType t => a <| a_type := Ptr t |>
  | PPort ds => a <| a_port := dec_value ds |>
  | PInterval ds => a <| a_interval := dec_value ds |>
  | PTimeout ds => a <| a_timeout := dec_value ds |>
  | PRise ds => a <| a_rise := dec_value ds |>
  | PFall ds => a <| a_fall := dec_value ds |>
  | PDefaultDown b => a <| a_default_down := if b then 1 else 0 |>
  end.

Definition module_types (types : list ngx_check_conf_t) : Prop :=
  types = Stream.ngx_check_types \/ types = Http.ngx_check_types.

Lemma get_check_type_conf_name types t :
  module_types types -> t ∈ types -> type t <> 0 -> get_check_type_conf types (name t) = Some t.
Proof.
  intros Ht Hin. revert t Hin.
  assert (Forall (fun t => type t <> 0 -> get_check_type_conf types (name t) = Some t) types) as H.
  { destruct Ht as [-> | ->]; unfold Stream.ngx_check_types, Http.ngx_check_types; repeat constructor;
      intros H; first [reflexivity|by destruct H]. }
  intros t Hin. rewrite Forall_forall in H. by apply H.
Qed.

Lemma get_check_type_conf_in types v t :
  get_check_type_conf types v = Some t -> t ∈ types /\ type t <> 0.
Proof.
  induction types as [|t' types IH]; cbn [get_check_type_conf]; [done|].
  destruct (Z.eqb_spec (type t') 0); [done|].
  destruct (negb _); [|destruct (_ =? 0)].
  - intros H. destruct (IH H). split; [by right|done].
  - intros [= <-]. split; [by left|done].
  - intros H. destruct (IH H). split; [by right|done].
Qed.

Lemma num_param_digits pre ds :
  pos_digits ds -> num_param (pre ++ ds) (length pre) = Some (dec_value ds).
Proof.
  intros [Hd Hv]. unfold num_param. rewrite drop_app_length, blen_app.
  replace (blen pre + blen ds - Z.of_nat (length pre)) with (blen ds) by (unfold blen; lia).
  assert (ngx_atoi ds (blen ds) = dec_value ds) as ->.
  { rewrite <- (app_nil_r ds) at 1. apply ngx_atoi_digits; [intros ->; cbn in Hv; lia|done|lia]. }
  unfold NGX_MAX_INT_T_VALUE in *. rewrite u64_small by (unfold in_u64; lia).
  destruct (Z.eqb_spec (dec_value ds) NGX_UINT_ERROR) as [E|_].
  { unfold NGX_UINT_ERROR in E. change (u64 (-1)) with 18446744073709551615 in E. lia. }
  by destruct (Z.eqb_spec (dec_value ds) 0); [lia|].
Qed.

Lemma check_arg_param types a p :
  module_types types -> param_ok types p ->
  check_arg types a (render_param p) = Some (apply_param a p).
Proof.
  intros Ht Hp. destruct p as [t|ds|ds|ds|ds|ds|b]; unfold check_arg; cbn [render_param].
  - change (has_prefix (s2b "type=" ++ name t) "type=") with true. cbn [mbind option_bind].
    change (drop 5 (s2b "type=" ++ name t)) with (name t). destruct Hp.
    by rewrite get_check_type_conf_name.
  - exact (f_equal (fun o => n ← o; Some (a <| a_port := n |>)) (num_param_digits (s2b "port=") ds Hp)).
  - exact (f_equal (fun o => n ← o; Some (a <| a_interval := n |>)) (num_param_digits (s2b "interval=") ds Hp)).
  - exact (f_equal (fun o => n ← o; Some (a <| a_timeout := n |>)) (num_param_digits (s2b "timeout=") ds Hp)).
  - exact (f_equal (fun o => n ← o; Some (a <| a_rise := n |>)) (num_param_digits (s2b "rise=") ds Hp)).
  - exact (f_equal (fun o => n ← o; Some (a <| a_fall := n |>)) (num_param_digits (s2b "fall=") ds Hp)).
  - by destruct b.
Qed.

Lemma check_args_loop_params types ps a :
  module_types types -> Forall (param_ok types) ps ->
  check_args_loop types a (render_param <$> ps) = Some (foldl apply_param a ps).
Proof.
  intros Ht Hps. revert a. induction Hps as [|p ps Hp _ IH]; intros a; [done|].
  cbn [fmap list_fmap check_args_loop]. rewrite check_arg_param by done. apply IH.
Qed.

Lemma foldl_type ps b : a_type b <> Null -> a_type (foldl apply_param b ps) <> Null.
Proof. revert b. induction ps as [|p ps IH]; [done|]. intros b Hb. apply IH. by destruct p. Qed.

(** C37: the [check] directive of either module reads the parameters that were
    written: any list of well-formed [type=], [port=], [interval=],
    [timeout=], [rise=], [fall=] and [default_down=] arguments is accepted,
    each parameter gets its last value, and the defaults are no port, 30 s
    interval, 1 s timeout, [rise=2], [fall=5], [default_down=true] and type
    [tcp]. *)
Theorem check_directive_reads types ps cf :
  module_types types -> check_type_conf cf = Unset -> Forall (param_ok types) ps ->
  let a := foldl apply_param (mk_args 0 2 5 30000 1000 1 Unset) ps in
  upstream_check types (render_param <$> ps) cf
  = (NGX_CONF_OK,
     cf <| port := a_port a |> <| check_interval := a_interval a |> <| check_timeout := a_timeout a |>
        <| cf_fall_count := a_fall a |> <| cf_rise_count := a_rise a |>
        <| default_down := a_default_down a |>
        <| check_type_conf := match a_type a with Ptr t => Ptr t | _ => Ptr (nth 0 types check_conf_end) end |>).
Proof.
  intros Ht Hu Hps a. unfold upstream_check. rewrite Hu, check_args_loop_params by done.
  change (foldl apply_param (default_args Unset) ps) with a.
  assert (Hnn : a_type a <> Null).
  { by apply foldl_type. }
  destruct (a_type a); [|done|done]. by destruct Ht as [-> | ->].
Qed.

Definition http_type : ngx_check_conf_t := nth 1 Http.ngx_check_types check_conf_end.

(** [check interval=3000 rise=2 fall=3 timeout=500 type=http default_down=false] *)
Definition ex_params : list check_param :=
  [PInterval (s2b "3000"); PRise (s2b "2"); PFall (s2b "3"); PTimeout (s2b "500"); PType http_type;
   PDefaultDown false].

Lemma pos_digits_b ds :
  forallb (fun c => bool_decide (is_digit c)) ds = true ->
  (0 <? dec_value ds) && (dec_value ds <=? NGX_MAX_INT_T_VALUE) = true -> pos_digits ds.
Proof.
  intros Hd Hv. split; [|lia]. apply Forall_forall. intros c Hc.
  apply (bool_decide_eq_true (is_digit c)). rewrite forallb_forall in Hd. by apply Hd, list_elem_of_In.
Qed.

Lemma ex_params_ok : Forall (param_ok Http.ngx_check_types) ex_params.
Proof.
  repeat constructor; cbn [param_ok]; try (by apply pos_digits_b); done.
Qed.

Lemma check_directive_reads_witness :
  upstream_check Http.ngx_check_types (render_param <$> ex_params) (srv_conf_unset (Ptr []))
  = (NGX_CONF_OK,
     (srv_conf_unset (Ptr [])) <| port := 0 |> <| check_interval := 3000 |> <| check_timeout := 500 |>
        <| cf_fall_count := 3 |> <| cf_rise_count := 2 |>
        <| default_down := 0 |> <| check_type_conf := Ptr http_type |>).
Proof.
  exact (check_directive_reads Http.ngx_check_types ex_params (srv_conf_unset (Ptr []))
           (or_intror eq_refl) eq_refl ex_params_ok).
Defined.

(** ** What an accepted directive leaves *)

Lemma num_param_range v skip n : num_param v skip = Some n -> 0 < n < 2 ^ 64 - 1.
Proof.
  unfold num_param. cbv zeta. pose proof (u64_range (ngx_atoi (drop skip v) (blen v - Z.of_nat skip))) as H.
  unfold in_u64 in H. change NGX_UINT_ERROR with (2 ^ 64 - 1).
  destruct (Z.eqb_spec (u64 (ngx_atoi (drop skip v) (blen v - Z.of_nat skip))) (2 ^ 64 - 1)); [done|].
  destruct (Z.eqb_spec (u64 (ngx_atoi (drop skip v) (blen v - Z.of_nat skip))) 0); [done|].
  intros [= <-]. lia.
Qed.

(** A value that is neither 0 nor the unset value. *)
Definition set_pos (n : Z) : Prop := 0 < n < NGX_CONF_UNSET_UINT.

Record args_ok (types : list ngx_check_conf_t) (a : check_args) : Prop := {
  ok_port : 0 <= a_port a < NGX_CONF_UNSET_UINT;
  ok_rise : set_pos (a_rise a);
  ok_fall : set_pos (a_fall a);
  ok_interval : set_pos (a_interval a);
  ok_timeout : set_pos (a_timeout a);
  ok_down : a_default_down a = 0 \/ a_default_down a = 1;
  ok_type : match a_type a with Ptr t => t ∈ types /\ type t <> 0 | Null => False | Unset => True end
}.

Lemma check_arg_ok types a v a' :
  args_ok types a -> check_arg types a v = Some a' -> args_ok types a'.
Proof.
  intros [? ? ? ? ? ? ?] E. unfold check_arg in E.
  repeat match type of E with
  | (if ?b then _ else _) = _ => destruct b
  | (_ ≫= _) = _ => apply bind_Some in E as (? & ? & E)
  end; simplify_eq;
  repeat match goal with
  | H : num_param _ _ = Some _ |- _ => apply num_param_range in H; change (2 ^ 64 - 1) with NGX_CONF_UNSET_UINT in H
  | H : get_check_type_conf _ _ = Some _ |- _ => apply get_check_type_conf_in in H
  end; split; cbn; unfold set_pos in *; try done; try lia; by (left + right).
Qed.

Lemma check_args_loop_ok types a vs a' :
  args_ok types a -> check_args_loop types a vs = Some a' -> args_ok types a'.
Proof.
  revert a. induction vs as [|v vs IH]; intros a Ha; cbn [check_args_loop]; [by intros [= <-]|].
  intros E. apply bind_Some in E as (a1 & E1 & E). by eapply IH, E; eapply check_arg_ok.
Qed.

(** What the checker relies on in the configuration of a checked upstream,
    before the defaults are filled in. *)
Record checked (types : list ngx_check_conf_t) (cf : ngx_upstream_check_srv_conf_t) : Prop := {
  ck_port : 0 <= port cf < NGX_CONF_UNSET_UINT;
  ck_rise : set_pos (cf_rise_count cf);
  ck_fall : set_pos (cf_fall_count cf);
  ck_interval : set_pos (check_interval cf);
  ck_timeout : set_pos (check_timeout cf);
  ck_down : default_down cf = 0 \/ default_down cf = 1;
  ck_type : exists t, check_type_conf cf = Ptr t /\ t ∈ types /\ type t <> 0
}.

(** A check type left by earlier directives. *)
Definition type_slot (types : list ngx_check_conf_t) (t : cptr ngx_check_conf_t) : Prop :=
  match t with Ptr t => t ∈ types /\ type t <> 0 | Null => False | Unset => True end.

Lemma upstream_check_ok types vs cf cf' :
  module_types types -> type_slot types (check_type_conf cf) ->
  upstream_check types vs cf = (NGX_CONF_OK, cf') -> checked types cf'.
Proof.
  intros Ht Hu. unfold upstream_check.
  destruct (check_args_loop types (default_args (check_type_conf cf)) vs) as [a|] eqn:E; [|done]. intros [= <-].
  apply check_args_loop_ok in E as [? ? ? ? ? ? Hty]; cycle 1.
  { split; try (by vm_compute; auto). }
  split; cbn; try done.
  destruct (a_type a) as [| |t]; [|done|by exists t].
  destruct Ht as [-> | ->]; eexists; (split; [reflexivity|]); (split; [apply list_elem_of_here|done]).
Qed.

(** bounds of an accepted [check] directive.  Whatever the arguments are,
    if the directive is accepted then the interval, the timeout and the rise
    and fall counts are positive and not the unset value, [default_down] is
    0 or 1, and the check type is an entry of the module's table.  The port is
    not bounded by 65535. *)
Theorem check_directive_bounds types vs cf cf' :
  module_types types -> check_type_conf cf = Unset ->
  upstream_check types vs cf = (NGX_CONF_OK, cf') -> checked types cf'.
Proof.
  intros Ht Hu. apply upstream_check_ok; [done|]. by rewrite Hu.
Qed.

Lemma check_directive_bounds_witness :
  checked Stream.ngx_check_types
    (snd (upstream_check Stream.ngx_check_types [s2b "type=udp"; s2b "port=70000"] (srv_conf_unset Null)))
  /\ port (snd (upstream_check Stream.ngx_check_types [s2b "type=udp"; s2b "port=70000"] (srv_conf_unset Null)))
     = 70000.
Proof.
  split; [|vm_compute; reflexivity].
  apply (check_directive_bounds Stream.ngx_check_types [s2b "type=udp"; s2b "port=70000"] (srv_conf_unset Null)).
  - left. reflexivity.
  - reflexivity.
  - vm_compute. reflexivity.
Defined.

(** ** The [check_http_expect_alive] directive *)

(** A class of codes by its first digit, 2 to 5. *)
Definition class_name (c : Z) : bytes := s2b "http_" ++ [ch "0" + c] ++ s2b "xx".
Definition class_mask (c : Z) : Z := Z.shiftl 1 (c - 1).

Definition class_ok (c : Z) : Prop := 2 <= c <= 5.

(** A value that spells the name of a class in any case. *)
Definition spells (v : bytes) (c : Z) : Prop := to_low <$> v = class_name c /\ nul_free v.

Lemma class_cases c (P : Z -> Prop) : P 2 -> P 3 -> P 4 -> P 5 -> class_ok c -> P c.
Proof. intros ? ? ? ? H. unfold class_ok in H. by assert (c = 2 \/ c = 3 \/ c = 4 \/ c = 5) as [-> | [-> | [-> | ->]]] by lia. Qed.

Lemma to_low_class c : class_ok c -> to_low <$> class_name c = class_name c /\ nul_free (class_name c).
Proof.
  intros Hc. pattern c. apply class_cases; [..|done];
    (split; [reflexivity|repeat constructor; vm_compute; (reflexivity || discriminate)]).
Qed.

Lemma find_mask_spells v c :
  class_ok c -> spells v c -> find_mask ngx_check_http_expect_alive_masks v = Some (class_mask c).
Proof.
  intros Hc [Hv Hn].
  assert (Hl : blen v = 8).
  { unfold blen. rewrite <- (length_fmap to_low v), Hv. done. }
  assert (Hm : forall d, class_ok d -> (ngx_strcasecmp (class_name d) v =? 0) = bool_decide (d = c)).
  { intros d Hd. destruct (to_low_class d Hd) as [E1 E2].
    destruct (bool_decide (d = c)) eqn:E; case_bool_decide; try done.
    - subst. apply Z.eqb_eq, strcasecmp_zero; congruence.
    - apply Z.eqb_neq. intros H0. apply strcasecmp_zero in H0; [|done..]. rewrite E1, Hv in H0.
      unfold class_name in H0. apply app_inv_head in H0. injection H0 as H0. lia. }
  change ngx_check_http_expect_alive_masks with
    [(class_name 2, class_mask 2); (class_name 3, class_mask 3); (class_name 4, class_mask 4);
     (class_name 5, class_mask 5)].
  cbn [find_mask]. rewrite Hl. rewrite !Hm by (unfold class_ok; lia).
  pattern c. by apply class_cases.
Qed.

Lemma land_pow2 k b : 0 <= k -> Z.land (2 ^ k) b <> 0 <-> Z.testbit b k = true.
Proof. intros Hk. rewrite <- Z.eqb_neq, land_bit by done. by destruct (Z.testbit b k). Qed.

(** Setting a bit only when it is not set is setting it. *)
Lemma lor_mask bit c :
  class_ok c ->
  (if Z.land bit (class_mask c) =? 0 then Z.lor bit (class_mask c) else bit) = Z.lor bit (class_mask c).
Proof.
  intros Hc. unfold class_ok in Hc. unfold class_mask. rewrite Z.shiftl_1_l.
  destruct (Z.eqb_spec (Z.land bit (2 ^ (c - 1))) 0) as [|Hne]; [done|].
  rewrite Z.land_comm in Hne. apply land_pow2 in Hne; [|lia]. apply Z.bits_inj'. intros i Hi.
  rewrite Z.lor_spec, Z.pow2_bits_eqb by lia.
  destruct (Z.eqb_spec (c - 1) i) as [<-|]; [by rewrite Hne|by rewrite orb_false_r].
Qed.

Lemma expect_alive_loop_spells bit vs cs :
  0 <= bit -> Forall class_ok cs -> Forall2 spells vs cs ->
  exists bit', expect_alive_loop bit vs = Some bit' /\ 0 <= bit'
    /\ forall c, 1 <= c -> Z.testbit bit' (c - 1) = Z.testbit bit (c - 1) || bool_decide (c ∈ cs).
Proof.
  intros Hb Hcs H. revert bit Hb. induction H as [|v c vs cs Hv _ IH]; intros bit Hb.
  { exists bit. split_and!; try done. intros c _. by rewrite orb_false_r. }
  apply Forall_cons in Hcs as [Hc Hcs]. cbn [expect_alive_loop]. rewrite (find_mask_spells v c) by done.
  cbn [mbind option_bind].
  rewrite lor_mask by done. destruct (IH Hcs (Z.lor bit (class_mask c))) as (bit' & E & Hb' & Hbits).
  { apply Z.lor_nonneg. split; [done|]. unfold class_mask. apply Z.shiftl_nonneg. lia. }
  exists bit'. split_and!; [done..|]. intros d Hd. rewrite Hbits by done.
  unfold class_mask. unfold class_ok in *. rewrite Z.lor_spec, Z.shiftl_1_l, Z.pow2_bits_eqb by lia.
  rewrite <- orb_assoc. f_equal. rewrite (bool_decide_ext (d ∈ c :: cs) (d = c \/ d ∈ cs)) by set_solver.
  rewrite bool_decide_or. f_equal. rewrite Z.eqb_sym.
  destruct (Z.eqb_spec (d - 1) (c - 1)); case_bool_decide; lia || done.
Qed.


(** [check_http_expect_alive] selects exactly the named classes.  A list
    of names [http_2xx] to [http_5xx], in any case and with repetitions, is
    accepted by an upstream without classes so far, and afterwards the class
    of a status code is among the expected ones (the test of
    [ngx_http_upstream_check_http_parse]) exactly when its first digit was
    named. *)
Theorem expect_alive_selects vs cs cf :
  Forall class_ok cs -> Forall2 spells vs cs -> status_alive cf = 0 ->
  exists cf', check_http_expect_alive vs cf = (NGX_CONF_OK, cf')
    /\ forall code, 0 <= code < 1000 ->
       Z.land (fst (code_class code)) (status_alive cf') <> 0 <-> code / 100 ∈ cs.
Proof.
  intros Hcs Hvs H0. unfold check_http_expect_alive. rewrite H0.
  destruct (expect_alive_loop_spells 0 vs cs) as (bit & -> & _ & Hb); [done..|].
  eexists. split; [reflexivity|]. intros code Hcode. cbn [status_alive].
  rewrite <- Z.eqb_neq, code_class_expected, negb_false_iff. unfold expected_code.
  destruct ((2 <=? code / 100) && (code / 100 <=? 5)) eqn:Hok.
  - rewrite Hb, Z.bits_0 by lia. cbn [orb]. by rewrite bool_decide_eq_true.
  - change 15 with (16 - 1). rewrite Hb, Z.bits_0 by lia. cbn [orb].
    rewrite bool_decide_eq_true. rewrite Forall_forall in Hcs.
    split; intros Hin; specialize (Hcs _ Hin); unfold class_ok in Hcs; lia.
Qed.

Lemma expect_alive_selects_witness :
  exists cf', check_http_expect_alive [s2b "http_2xx"; s2b "HTTP_4xx"; s2b "http_2xx"] (srv_conf_unset Null)
      = (NGX_CONF_OK, cf')
    /\ forall code, 0 <= code < 1000 ->
       Z.land (fst (code_class code)) (status_alive cf') <> 0 <-> code / 100 ∈ [2; 4; 2].
Proof.
  apply (expect_alive_selects [s2b "http_2xx"; s2b "HTTP_4xx"; s2b "http_2xx"] [2; 4; 2]).
  - repeat constructor; discriminate.
  - repeat constructor; reflexivity.
  - reflexivity.
Defined.
