(* ===== verification/AddPeer.v ===== *)
(** * Adding a peer to the health checker

    [ngx_murmur_hash2] of [src/core/ngx_murmurhash.c] and the functions
    [.._add_peer] and [.._addr_change_port] of the two modules, which the load
    balancers call for every server of an upstream when the configuration is
    read. *)

From S2P Require Import Prelude NgxString StatusLine CheckTypes CheckProto CheckCore CheckSafety CheckWorker.
From S2P Require Import Inet FastCgiRequest CheckConf.

(** ** The hash of an address *)

Definition murmur_m : Z := 0x5bd1e995.

(** [k *= m; k ^= k >> 24; k *= m; h *= m; h ^= k] *)
Definition murmur_mix (h k : Z) : Z :=
  let k := u32 (k * murmur_m) in
  let k := Z.lxor k (Z.shiftr k 24) in
  let k := u32 (k * murmur_m) in
  Z.lxor (u32 (h * murmur_m)) k.

(** The four-byte rounds, and the [switch] on what remains. *)
Fixpoint murmur_loop (h : Z) (data : bytes) : Z :=
  match data with
  | a :: b :: c :: d :: data' =>
    murmur_loop (murmur_mix h (Z.lor (Z.lor (Z.lor a (Z.shiftl b 8)) (Z.shiftl c 16)) (u32 (Z.shiftl d 24)))) data'
  | [a; b; c] => u32 (Z.lxor (Z.lxor (Z.lxor h (Z.shiftl c 16)) (Z.shiftl b 8)) a * murmur_m)
  | [a; b] => u32 (Z.lxor (Z.lxor h (Z.shiftl b 8)) a * murmur_m)
  | [a] => u32 (Z.lxor h a * murmur_m)
  | [] => h
  end.

Definition ngx_murmur_hash2 (data : bytes) : Z :=
  let h := murmur_loop (u32 (blen data)) data in
  let h := Z.lxor h (Z.shiftr h 13) in
  let h := u32 (h * murmur_m) in
  Z.lxor h (Z.shiftr h 15).

(** ** The address a check connects to *)

(** [sin->sin_port = htons(port)] *)
Definition set_port (sa : bytes) (p : Z) : bytes :=
  take 2 sa ++ [u16 p / 256; u16 p mod 256] ++ drop 4 sa.

(** [.._addr_change_port]: the code and the fields of [dst], which starts
    zeroed; [ok1] and [ok2] are its two allocations. *)
Definition addr_change_port (ok1 ok2 : bool) (src : ngx_addr_t) (port : Z) : option (ngx_rc * ngx_addr_t) :=
  if negb ok1 then Some (NGX_ERROR, mk_addr [] (socklen src) [])
  else
    let family := sa_family (sockaddr src) in
    if (family =? AF_INET) || (family =? AF_INET6) then
      let len := if family =? AF_INET then (NGX_INET_ADDRSTRLEN + 6)%nat else (NGX_INET6_ADDRSTRLEN + 6)%nat in
      let dst := mk_addr (set_port (sockaddr src) port) (socklen src) [] in
      if negb ok2 then Some (NGX_ERROR, dst)
      else
        n ← ngx_sock_ntop (sockaddr dst) (socklen dst) len true;
        Some (NGX_OK, mk_addr (sockaddr dst) (socklen dst) n)
    else Some (NGX_ERROR, mk_addr (sockaddr src) (socklen src) []).

Definition ngx_stream_upstream_check_addr_change_port := addr_change_port.
Definition ngx_http_upstream_check_addr_change_port := addr_change_port.

(** ** [add_peer] *)

(** The allocations: the array element, the address and the two of
    [addr_change_port]. *)
Record add_allocs := mk_allocs { al_push : bool; al_addr : bool; al_sockaddr : bool; al_name : bool }.

Definition ngx_addr_null : ngx_addr_t := mk_addr [] 0 [].

(** [add_peer]: the result is the index of the peer or [(ngx_uint_t)
    NGX_ERROR]; a peer that was pushed stays in the array on an error.
    [us = None] is an upstream without server configuration. *)
Definition add_peer (al : add_allocs) (us : option ngx_upstream_check_srv_conf_t) (host : bytes)
    (peer_addr : ngx_addr_t) (ps : ngx_upstream_check_peers_t) : option (Z * ngx_upstream_check_peers_t) :=
  match us with
  | None => Some (NGX_UINT_ERROR, ps)
  | Some ucscf =>
    if check_interval ucscf =? 0 then Some (NGX_UINT_ERROR, ps)
    else if negb (al_push al) then Some (NGX_UINT_ERROR, ps)
    else
      let i := Z.of_nat (length (peers ps)) in
      let peer := (peer_zero ucscf host peer_addr) <| index := i |> in
      let push p := ps <| peers := peers ps ++ [p] |> in
      let done p := (i, (push p) <| checksum := u64 (checksum ps + ngx_murmur_hash2 (addr_name peer_addr)) |>) in
      if negb (port ucscf =? 0) then
        if negb (al_addr al) then Some (NGX_UINT_ERROR, push (peer <| check_peer_addr := ngx_addr_null |>))
        else
          '(rc, dst) ← addr_change_port (al_sockaddr al) (al_name al) peer_addr (port ucscf);
          let peer := peer <| check_peer_addr := dst |> in
          match rc with
          | NGX_OK => Some (done peer)
          | _ => Some (NGX_UINT_ERROR, push peer)
          end
      else Some (done peer)
  end.

Definition ngx_stream_upstream_check_add_peer := add_peer.
Definition ngx_http_upstream_check_add_peer := add_peer.

(** ** The changed address *)

(** A [sockaddr_in] or [sockaddr_in6] as the configuration parser makes it. *)
Definition inet_addr (a : ngx_addr_t) : Prop :=
  Forall is_byte (sockaddr a)
  /\ (sa_family (sockaddr a) = AF_INET /\ blen (sockaddr a) = 16
      \/ sa_family (sockaddr a) = AF_INET6 /\ blen (sockaddr a) = 28).

Lemma u16_bytes p : is_byte (u16 p / 256) /\ is_byte (u16 p mod 256) /\ u16 p / 256 * 256 + u16 p mod 256 = u16 p.
Proof.
  assert (0 <= u16 p < 65536) by (unfold u16; by apply Z.mod_pos_bound). unfold is_byte. split_and!; dlia.
Qed.

Lemma inet_addr_long a : inet_addr a -> (8 <= length (sockaddr a))%nat.
Proof. unfold inet_addr, blen. lia. Qed.

Lemma set_port_spec sa p :
  Forall is_byte sa -> (8 <= length sa)%nat ->
  Forall is_byte (set_port sa p) /\ length (set_port sa p) = length sa
  /\ sa_port (set_port sa p) = u16 p
  /\ (forall i, i <> 2%nat -> i <> 3%nat -> byte_at (set_port sa p) i = byte_at sa i).
Proof.
  intros Hb Hl. destruct (u16_bytes p) as (H1 & H2 & H3).
  do 8 (destruct sa as [|? sa]; [cbn in Hl; lia|]). unfold set_port. cbn [take drop app].
  split_and!.
  - rewrite !Forall_cons in *. naive_solver.
  - done.
  - exact H3.
  - intros [|[|[|[|i]]]]; done.
Qed.

Lemma addr_change_port_spec a p :
  inet_addr a ->
  exists dst, addr_change_port true true a p = Some (NGX_OK, dst)
    /\ sockaddr dst = set_port (sockaddr a) p /\ socklen dst = socklen a
    /\ blen (addr_name dst) <= (if sa_family (sockaddr a) =? AF_INET then 21 else 51)
    /\ (sa_family (sockaddr a) = AF_INET ->
        addr_name dst = dotted_text (byte_at (sockaddr a) 4) (byte_at (sockaddr a) 5) (byte_at (sockaddr a) 6)
                          (byte_at (sockaddr a) 7) ++ [ch ":"] ++ num_text (u16 p) 0).
Proof.
  intros Ha. pose proof (inet_addr_long a Ha) as Hl. destruct Ha as [Hb Hf].
  destruct (set_port_spec (sockaddr a) p Hb Hl) as (Hb' & Hl' & Hp & Hi).
  assert (Hfam : sa_family (set_port (sockaddr a) p) = sa_family (sockaddr a)).
  { unfold sa_family. by rewrite !Hi. }
  assert (Hu : 0 <= u16 p < 65536) by (unfold u16; by apply Z.mod_pos_bound).
  pose proof (dec_short 5 (u16 p) ltac:(cbn; lia) ltac:(lia)) as Hd.
  unfold addr_change_port. cbn [negb sockaddr socklen]. cbv zeta. destruct Hf as [[Hf _]|[Hf _]].
  - rewrite Hf, Z.eqb_refl. cbn [orb]. change (NGX_INET_ADDRSTRLEN + 6)%nat with 21%nat.
    rewrite sock_ntop_inet by first [done|congruence|lia]. rewrite Hp, !Hi by done. cbn [mbind option_bind].
    eexists. split; [reflexivity|]. cbn [sockaddr socklen addr_name]. split_and!; [done..| |done].
    rewrite Forall_forall in Hb.
    assert (Hbyte : forall i, (i < 8)%nat -> is_byte (byte_at (sockaddr a) i)).
    { intros i ?. apply Hb, list_elem_of_In, nth_In. lia. }
    pose proof (length_dotted_text _ _ _ _ (Hbyte 4%nat ltac:(lia)) (Hbyte 5%nat ltac:(lia))
      (Hbyte 6%nat ltac:(lia)) (Hbyte 7%nat ltac:(lia))).
    rewrite !blen_app. unfold blen. cbn [length]. lia.
  - rewrite Hf. cbn [Z.eqb Pos.eqb orb AF_INET6 AF_INET]. change (NGX_INET6_ADDRSTRLEN + 6)%nat with 51%nat.
    unfold ngx_sock_ntop. rewrite Hfam, Hf. cbn [Z.eqb Pos.eqb AF_INET6 AF_INET].
    destruct (inet6_ntop_short (drop 8 (set_port (sockaddr a) p))) as (t & Et & Ht); [by apply Forall_drop|].
    rewrite (bind_some _ _ _ Et). rewrite Hp.
    assert (ngx_sprintf (s2b "]:%d") [AInt (u16 p)] = Some (s2b "]:" ++ num_text (u16 p) 0)) as Ep.
    { unfold ngx_sprintf, ngx_vslprintf. change (length (s2b "]:%d")) with 4%nat.
      change (s2b "]:%d") with (ch "]" :: ch ":" :: num_conv FD).
      rewrite !vsl_lit by (done || lia). rewrite vsl_num1 by (cbn [num_hex]; lia). reflexivity. }
    rewrite (bind_some _ _ _ Ep). cbn [mbind option_bind]. eexists. split; [reflexivity|].
    cbn [sockaddr socklen addr_name]. split_and!; [done..| |done].
    rewrite !blen_app. change (blen (s2b "]:")) with 2. change (blen [ch "["]) with 1. unfold blen at 2. lia.
Qed.

(** the address of a check on another port.  For an IPv4 or IPv6 server
    address, [addr_change_port] (of either module) yields a socket address of
    the same length that differs from the server's only in the two port bytes,
    which hold the configured port modulo 65536 in network order; the text of
    the address fits the buffer allocated for it (21 or 51 bytes), and for
    IPv4 it is the dotted address, a colon and that port. *)
Theorem check_address_port a p :
  inet_addr a ->
  exists dst, addr_change_port true true a p = Some (NGX_OK, dst)
    /\ length (sockaddr dst) = length (sockaddr a) /\ socklen dst = socklen a
    /\ sa_port (sockaddr dst) = p mod 65536
    /\ (forall i, i <> 2%nat -> i <> 3%nat -> byte_at (sockaddr dst) i = byte_at (sockaddr a) i)
    /\ blen (addr_name dst) <= (if sa_family (sockaddr a) =? AF_INET then 21 else 51)
    /\ (sa_family (sockaddr a) = AF_INET ->
        addr_name dst = dotted_text (byte_at (sockaddr a) 4) (byte_at (sockaddr a) 5) (byte_at (sockaddr a) 6)
                          (byte_at (sockaddr a) 7) ++ [ch ":"] ++ num_text (p mod 65536) 0).
Proof.
  intros Ha. destruct (addr_change_port_spec a p Ha) as (dst & E & Es & El & Hn & H4).
  destruct (set_port_spec (sockaddr a) p (proj1 Ha) (inet_addr_long a Ha)) as (_ & Hl & Hp & Hi).
  exists dst. rewrite Es. by split_and!.
Qed.

Lemma check_address_port_witness :
  exists dst, addr_change_port true true ex_addr 8080 = Some (NGX_OK, dst)
    /\ length (sockaddr dst) = 16%nat /\ socklen dst = 16 /\ sa_port (sockaddr dst) = 8080
    /\ addr_name dst = s2b "10.0.0.1:8080".
Proof.
  destruct (check_address_port ex_addr 8080) as (dst & E & Hl & Hs & Hp & _ & _ & Hn).
  - split; [|left; split; reflexivity]. repeat constructor; (discriminate || reflexivity).
  - exists dst. split_and!; [exact E|exact Hl|exact Hs|exact Hp|]. rewrite Hn; reflexivity.
Defined.

(** ** A list of servers *)

(** A server as the load balancer adds it: the configuration and name of its
    upstream, and its address. *)
Record server := mk_server { sv_conf : option ngx_upstream_check_srv_conf_t; sv_host : bytes; sv_addr : ngx_addr_t }.

Definition all_allocs : add_allocs := mk_allocs true true true true.

Fixpoint add_peers (ps : ngx_upstream_check_peers_t) (l : list server)
    : option (list Z * ngx_upstream_check_peers_t) :=
  match l with
  | [] => Some ([], ps)
  | sv :: l' =>
    '(i, ps) ← add_peer all_allocs (sv_conf sv) (sv_host sv) (sv_addr sv) ps;
    '(idxs, ps) ← add_peers ps l';
    Some (i :: idxs, ps)
  end.

(** A server is checked when its upstream has a [check] directive. *)
Definition is_checked (sv : server) : bool :=
  match sv_conf sv with Some cf => negb (check_interval cf =? 0) | None => false end.

(** Socket addresses the checker can change the port of, where it has to. *)
Definition server_ok (sv : server) : Prop :=
  match sv_conf sv with
  | Some cf => check_interval cf = 0 \/ port cf = 0 \/ inet_addr (sv_addr sv)
  | None => True
  end.

(** The peer a checked server becomes at position [i]. *)
Definition peer_of_server (sv : server) (i : Z) (p : ngx_upstream_check_peer_t) : Prop :=
  index p = i /\ upstream_name p = sv_host sv /\ peer_addr p = sv_addr sv /\ Some (conf p) = sv_conf sv
  /\ connection p = None /\ check_data p = None /\ state p = 0 /\ shm p = None
  /\ (if port (conf p) =? 0 then check_peer_addr p = sv_addr sv
      else sockaddr (check_peer_addr p) = set_port (sockaddr (sv_addr sv)) (port (conf p))
           /\ socklen (check_peer_addr p) = socklen (sv_addr sv)).

Lemma add_peer_spec sv ps :
  server_ok sv ->
  exists i ps', add_peer all_allocs (sv_conf sv) (sv_host sv) (sv_addr sv) ps = Some (i, ps')
    /\ (if is_checked sv then
          i = Z.of_nat (length (peers ps))
          /\ (exists p, peers ps' = peers ps ++ [p] /\ peer_of_server sv i p)
          /\ checksum ps' = u64 (checksum ps + ngx_murmur_hash2 (addr_name (sv_addr sv)))
          /\ check_shm_name ps' = check_shm_name ps /\ peers_shm ps' = peers_shm ps
        else i = NGX_UINT_ERROR /\ ps' = ps).
Proof.
  unfold server_ok, is_checked, add_peer. destruct (sv_conf sv) as [cf|] eqn:Ecf; [|by eexists _, _].
  intros Hok. destruct (Z.eqb_spec (check_interval cf) 0) as [|Hiv]; [by eexists _, _|].
  cbn [negb al_push al_addr al_sockaddr al_name all_allocs]. cbv zeta.
  destruct (Z.eqb_spec (port cf) 0) as [Hp|Hp]; cbn [negb].
  - eexists _, _. split; [reflexivity|]. split; [done|]. split; [|done].
    eexists. split; [reflexivity|]. unfold peer_of_server. cbn. rewrite Hp, Ecf. by split_and!.
  - destruct Hok as [|[|Ha]]; [done..|].
    destruct (addr_change_port_spec (sv_addr sv) (port cf) Ha) as (dst & E & Es & El & _).
    rewrite (bind_some _ _ _ E). eexists _, _. split; [reflexivity|]. split; [done|]. split; [|done].
    eexists. split; [reflexivity|]. unfold peer_of_server. cbn.
    rewrite Ecf, (proj2 (Z.eqb_neq _ _) Hp). by split_and!.
Qed.

(** The indices the servers get from [i] on. *)
Fixpoint server_indices (i : Z) (l : list server) : list Z :=
  match l with
  | [] => []
  | sv :: l' => if is_checked sv then i :: server_indices (i + 1) l' else NGX_UINT_ERROR :: server_indices i l'
  end.

Definition servers_checksum (c : Z) (l : list server) : Z :=
  foldl (fun c sv => u64 (c + ngx_murmur_hash2 (addr_name (sv_addr sv)))) c (filter (fun sv => is_checked sv) l).

Lemma add_peers_spec l ps :
  Forall server_ok l ->
  exists ps', add_peers ps l = Some (server_indices (Z.of_nat (length (peers ps))) l, ps')
    /\ (exists new, peers ps' = peers ps ++ new
        /\ Forall2 (fun sv p => exists i, peer_of_server sv i p) (filter (fun sv => is_checked sv) l) new
        /\ (forall k p, new !! k = Some p -> index p = Z.of_nat (length (peers ps) + k)))
    /\ checksum ps' = servers_checksum (checksum ps) l
    /\ check_shm_name ps' = check_shm_name ps /\ peers_shm ps' = peers_shm ps.
Proof.
  intros Hl. revert ps. induction Hl as [|sv l Hsv _ IH]; intros ps; cbn [add_peers].
  { exists ps. split; [done|]. split; [|done]. exists []. by rewrite app_nil_r. }
  destruct (add_peer_spec sv ps Hsv) as (i & ps1 & E & H1). rewrite (bind_some _ _ _ E). cbn beta iota.
  destruct (IH ps1) as (ps2 & E2 & (new & En & Hnew & Hk) & Ec & Em & Eh). rewrite (bind_some _ _ _ E2).
  cbn beta iota. exists ps2. cbn [server_indices]. unfold servers_checksum. rewrite filter_cons.
  destruct (is_checked sv); cycle 1.
  { destruct H1 as [-> ->]. split_and!; try done. by exists new. }
  destruct H1 as (-> & (p & Ep & Hp) & Ec1 & Em1 & Eh1). rewrite Ep in *. rewrite decide_True by done.
  rewrite length_app in *. cbn [length] in *.
  split; [by rewrite Nat2Z.inj_add|]. split; [|cbn [foldl]; rewrite <- Ec1; split_and!; [exact Ec|congruence..]].
  exists (p :: new). rewrite En, <- app_assoc. split_and!; [done| |].
  - cbn. constructor; [by eexists|done].
  - intros [|k] q; cbn; [intros [= <-]; rewrite Nat.add_0_r; by destruct Hp|].
    intros Hq. rewrite (Hk k q Hq). f_equal. lia.
Qed.

Lemma add_peers_lookup l ps idxs ps' k sv :
  Forall server_ok l -> add_peers ps l = Some (idxs, ps') -> l !! k = Some sv ->
  exists i, idxs !! k = Some i
    /\ if is_checked sv then exists p, peers ps' !! Z.to_nat i = Some p /\ peer_of_server sv i p
       else i = NGX_UINT_ERROR.
Proof.
  intros Hl. revert ps idxs k. induction Hl as [|sv0 l Hsv Hl IH]; intros ps idxs k; [done|].
  cbn [add_peers]. destruct (add_peer_spec sv0 ps Hsv) as (i & ps1 & E & H1).
  rewrite (bind_some _ _ _ E). cbn beta iota.
  destruct (add_peers_spec l ps1 Hl) as (ps2 & E2 & (new & En & _) & _). rewrite (bind_some _ _ _ E2).
  cbn beta iota. intros [= <- <-]. destruct k as [|k]; cbn; [|by apply (IH ps1)].
  intros [= <-]. exists i. split; [done|]. destruct (is_checked sv0); [|by destruct H1].
  destruct H1 as (-> & (p & Ep & Hp) & _). exists p. split; [|done].
  rewrite Nat2Z.id, En, Ep, <- app_assoc. by apply list_lookup_middle.
Qed.

(** the indices the load balancer gets.  When the servers of all
    upstreams are added, a server of an upstream with a [check] directive gets
    the index of a peer that has exactly its upstream name, server address and
    configuration and the check address derived from them, and no activity
    yet; every other server gets [(ngx_uint_t) NGX_ERROR].  The checksum is
    the sum of the hashes of the names of the checked servers. *)
Theorem add_peers_indices l :
  Forall server_ok l ->
  exists idxs ps, add_peers (mk_peers [] 0 [] None) l = Some (idxs, ps)
    /\ (forall k sv, l !! k = Some sv -> exists i, idxs !! k = Some i
        /\ if is_checked sv then exists p, peers ps !! Z.to_nat i = Some p /\ peer_of_server sv i p
           else i = NGX_UINT_ERROR)
    /\ checksum ps = servers_checksum 0 l.
Proof.
  intros Hl. destruct (add_peers_spec l (mk_peers [] 0 [] None) Hl) as (ps & E & _ & Ec & _).
  eexists _, ps. split; [exact E|]. split; [|exact Ec]. intros k sv.
  by apply (add_peers_lookup l (mk_peers [] 0 [] None)).
Qed.

Definition ex_servers : list server :=
  [mk_server (Some (ex_conf <| port := 8080 |>)) (s2b "a") ex_addr;
   mk_server (Some (srv_conf_unset (Ptr []))) (s2b "b") ex_addr;
   mk_server (Some ex_conf) (s2b "c") (mk_addr ([1; 0] ++ s2b "/tmp/s") 8 (s2b "unix:/tmp/s"))].

Lemma ex_addr_inet : inet_addr ex_addr.
Proof. split; [|left; split; reflexivity]. repeat constructor; (discriminate || reflexivity). Qed.

Lemma add_peers_indices_witness :
  exists idxs ps, add_peers (mk_peers [] 0 [] None) ex_servers = Some (idxs, ps)
    /\ (forall k sv, ex_servers !! k = Some sv -> exists i, idxs !! k = Some i
        /\ if is_checked sv then exists p, peers ps !! Z.to_nat i = Some p /\ peer_of_server sv i p
           else i = NGX_UINT_ERROR)
    /\ checksum ps = servers_checksum 0 ex_servers.
Proof.
  apply (add_peers_indices ex_servers).
  constructor; [right; right; apply ex_addr_inet|].
  constructor; [left; reflexivity|]. constructor; [right; left; reflexivity|constructor].
Defined.

(** a unix socket cannot be checked on another port, and a peer is left
    behind.  For a server on a unix socket in an upstream with a [port=]
    parameter, [add_peer] returns [NGX_ERROR], so the load balancer treats the
    server as unchecked, but the new peer stays in the array and the workers
    will check it. *)
Theorem add_peer_unix_left_behind al cf host a ps :
  al = all_allocs -> check_interval cf <> 0 -> port cf <> 0 -> sa_family (sockaddr a) = AF_UNIX ->
  exists ps' p, add_peer al (Some cf) host a ps = Some (NGX_UINT_ERROR, ps')
    /\ peers ps' = peers ps ++ [p] /\ checksum ps' = checksum ps
    /\ sockaddr (check_peer_addr p) = sockaddr a.
Proof.
  intros -> Hiv Hp Hf. unfold add_peer. rewrite (proj2 (Z.eqb_neq _ _) Hiv), (proj2 (Z.eqb_neq _ _) Hp).
  cbn [negb al_push al_addr al_sockaddr al_name all_allocs]. cbv zeta. unfold addr_change_port. rewrite Hf.
  cbn [negb]. cbv zeta. eexists _, _. split; [reflexivity|]. by split_and!.
Qed.

Lemma add_peer_unix_left_behind_witness :
  exists ps' p, add_peer all_allocs (Some (ex_conf <| port := 80 |>)) (s2b "u")
      (mk_addr ([1; 0] ++ s2b "/tmp/s") 8 (s2b "unix:/tmp/s")) (mk_peers [] 0 [] None)
    = Some (NGX_UINT_ERROR, ps')
    /\ peers ps' = [] ++ [p] /\ checksum ps' = 0 /\ sockaddr (check_peer_addr p) = [1; 0] ++ s2b "/tmp/s".
Proof.
  apply (add_peer_unix_left_behind all_allocs (ex_conf <| port := 80 |>) (s2b "u")
    (mk_addr ([1; 0] ++ s2b "/tmp/s") 8 (s2b "unix:/tmp/s")) (mk_peers [] 0 [] None)).
  - reflexivity.
  - discriminate.
  - discriminate.
  - reflexivity.
Defined.
