(* ===== verification/CheckShm.v ===== *)
(** * Shared memory of the health checker

    How the state of the peers gets into shared memory when the configuration
    is loaded and how it survives a reload: [init_shm], [get_shm_name],
    [init_shm_zone], [find_shm_peer] and [init_shm_peer] of the two modules,
    their [ngx_shared_memory_find], and what they use of
    [src/core/ngx_cycle.c]: [ngx_shared_memory_add] and the part of
    [ngx_init_cycle] that initialises the zones. *)

From S2P Require Import Prelude NgxString StatusLine CheckTypes CheckProto CheckCore CheckSafety CheckWorker.
From S2P Require Import Inet FastCgiRequest CheckConf AddPeer.

(** ** Zones *)

(** [shm_zone->tag]: the module. *)
Inductive zone_tag : Set := tag_stream_check | tag_http_check | tag_other.

#[export] Instance zone_tag_eq_dec : EqDecision zone_tag.
Proof. solve_decision. Defined.

(** [shm_zone->data] is set to the pool of the configuration by [init_shm]
    and to the shared peers by [init_shm_zone]. *)
Inductive zone_data : Type := DNull | DPool | DPeers (sh : ngx_upstream_check_peers_shm_t).

Record ngx_shm_zone_t := mk_zone { zn_name : bytes; zn_tag : zone_tag; zn_size : Z; zn_data : zone_data }.

#[export] Instance eta_zone : Eta ngx_shm_zone_t := fun r =>
  mk_zone (zn_name r) (zn_tag r) (zn_size r) (zn_data r).

(** The comparison of names in the loops over zones. *)
Definition same_name (a b : bytes) : bool := (blen a =? blen b) && (ngx_strncmp a b (length a) =? 0).

Fixpoint ngx_shared_memory_find (zones : list ngx_shm_zone_t) (n : bytes) (tag : zone_tag)
    : option ngx_shm_zone_t :=
  match zones with
  | [] => None
  | z :: zones' =>
    if negb (same_name n (zn_name z)) then ngx_shared_memory_find zones' n tag
    else if negb (bool_decide (tag = zn_tag z)) then ngx_shared_memory_find zones' n tag
    else Some z
  end.

(** The zone of the cycle being configured with its position, or [None] for
    [NULL]. *)
Fixpoint ngx_shared_memory_add (ok : bool) (zones : list ngx_shm_zone_t) (n : bytes) (size : Z) (tag : zone_tag)
    : option (nat * list ngx_shm_zone_t) :=
  match zones with
  | [] => if ok then Some (O, [mk_zone n tag size DNull]) else None
  | z :: zones' =>
    if negb (same_name n (zn_name z)) then
      '(i, zones') ← ngx_shared_memory_add ok zones' n size tag; Some (S i, z :: zones')
    else if negb (bool_decide (tag = zn_tag z)) then None
    else
      let z := if zn_size z =? 0 then z <| zn_size := size |> else z in
      if negb (size =? 0) && negb (size =? zn_size z) then None else Some (O, z :: zones')
  end.

(** ** The two modules *)

Definition SHM_NAME_LEN : nat := 256.

Definition same_sockaddr (a : ngx_addr_t) (s : ngx_upstream_check_peer_shm_t) : bool :=
  (socklen a =? sh_socklen s)
  && bytes_eqb (take (Z.to_nat (socklen a)) (sockaddr a)) (take (Z.to_nat (socklen a)) (sh_sockaddr s)).

Fixpoint find_first {A} (f : A -> bool) (l : list A) : option A :=
  match l with [] => None | x :: l' => if f x then Some x else find_first f l' end.

Definition ngx_stream_upstream_check_find_shm_peer (p : ngx_upstream_check_peers_shm_t) (a : ngx_addr_t)
    (host : bytes) : option ngx_upstream_check_peer_shm_t :=
  find_first (fun s => same_sockaddr a s && (ngx_strcmp host (sh_upstream_name s) =? 0))
    (take (Z.to_nat (sh_number p)) (sh_peers p)).

Definition ngx_http_upstream_check_find_shm_peer (p : ngx_upstream_check_peers_shm_t) (a : ngx_addr_t)
    : option ngx_upstream_check_peer_shm_t :=
  find_first (same_sockaddr a) (take (Z.to_nat (sh_number p)) (sh_peers p)).

(** The counters of a shared peer, from an old one or from scratch. *)
Definition init_counters (psh : ngx_upstream_check_peer_shm_t) (opsh : option ngx_upstream_check_peer_shm_t)
    (init_down : Z) : ngx_upstream_check_peer_shm_t :=
  match opsh with
  | Some o =>
    psh <| access_time := access_time o |> <| access_count := access_count o |>
        <| fall_count := fall_count o |> <| rise_count := rise_count o |>
        <| busyness := busyness o |> <| down := down o |>
  | None =>
    psh <| access_time := 0 |> <| access_count := 0 |> <| fall_count := 0 |> <| rise_count := 0 |>
        <| busyness := 0 |> <| down := init_down |>
  end.

(** [init_shm_peer]; [mtx_ok] is the outcome of [ngx_shmtx_create]. *)
Definition ngx_stream_upstream_check_init_shm_peer (mtx_ok : bool) (psh : ngx_upstream_check_peer_shm_t)
    (opsh : option ngx_upstream_check_peer_shm_t) (init_down : Z) (host : bytes)
    : ngx_rc * ngx_upstream_check_peer_shm_t :=
  let psh := (init_counters psh opsh init_down) <| sh_upstream_name := host |> in
  if mtx_ok then (NGX_OK, psh) else (NGX_ERROR, psh).

Definition ngx_http_upstream_check_init_shm_peer (mtx_ok : bool) (psh : ngx_upstream_check_peer_shm_t)
    (opsh : option ngx_upstream_check_peer_shm_t) (init_down : Z)
    : ngx_rc * ngx_upstream_check_peer_shm_t :=
  let psh := init_counters psh opsh init_down in
  if mtx_ok then (NGX_OK, psh) else (NGX_ERROR, psh).

(** What differs between the modules. *)
Class ShmModule := {
  sm_prefix : bytes;
  sm_tag : zone_tag;
  sm_find : ngx_upstream_check_peers_shm_t -> ngx_upstream_check_peer_t -> option ngx_upstream_check_peer_shm_t;
  sm_init : bool -> ngx_upstream_check_peer_shm_t -> option ngx_upstream_check_peer_shm_t -> Z -> bytes
    -> ngx_rc * ngx_upstream_check_peer_shm_t
}.

Definition stream_shm : ShmModule := {|
  sm_prefix := s2b "ngx_stream_upstream_check";
  sm_tag := tag_stream_check;
  sm_find o p := ngx_stream_upstream_check_find_shm_peer o (peer_addr p) (upstream_name p);
  sm_init := ngx_stream_upstream_check_init_shm_peer
|}.

Definition http_shm : ShmModule := {|
  sm_prefix := s2b "ngx_http_upstream_check";
  sm_tag := tag_http_check;
  sm_find o p := ngx_http_upstream_check_find_shm_peer o (peer_addr p);
  sm_init ok psh opsh d _ := ngx_http_upstream_check_init_shm_peer ok psh opsh d
|}.

Section Zone.
Context {M : ShmModule}.

(** [get_shm_name]: without memory the name stays empty; callers ignore the
    error. *)
Definition get_shm_name (ok : bool) (generation : Z) : bytes :=
  if ok then default [] (ngx_snprintf SHM_NAME_LEN (s2b "%s#%ui") [ACstr sm_prefix; AInt generation]) else [].

(** ** Filling the shared peers *)

(** One iteration of the loop of [init_shm_zone] when the old shared peers
    cannot be taken over as they are; [None] leaves the function with
    [NGX_ERROR]. *)
Definition init_peer_shm (al : list bool) (opeers : option ngx_upstream_check_peers_shm_t)
    (p : ngx_upstream_check_peer_t) : option ngx_upstream_check_peer_shm_t * list bool :=
  let '(ok, al) := alloc al in
  if negb ok then (None, al)
  else
    let psh := peer_shm_zero <| owner := NGX_INVALID_PID |> <| sh_socklen := socklen (peer_addr p) |>
                 <| sh_sockaddr := take (Z.to_nat (socklen (peer_addr p))) (sockaddr (peer_addr p)) |> in
    let '(mtx_ok, al) := alloc al in
    let opsh := o ← opeers; sm_find o p in
    let init_down := match opsh with Some _ => 0 | None => default_down (conf p) end in
    match sm_init mtx_ok psh opsh init_down (upstream_name p) with
    | (NGX_OK, psh) => (Some psh, al)
    | _ => (None, al)
    end.

Fixpoint init_peers_shm (al : list bool) (opeers : option ngx_upstream_check_peers_shm_t)
    (l : list ngx_upstream_check_peer_t) : option (list ngx_upstream_check_peer_shm_t) :=
  match l with
  | [] => Some []
  | p :: l' =>
    let '(r, al) := init_peer_shm al opeers p in
    psh ← r; rest ← init_peers_shm al opeers l'; Some (psh :: rest)
  end.

(** When the number of peers and the checksum are the same, the old shared
    peers stay and only lose their owners.  They are one object: the old
    workers see the change. *)
Definition reset_owners (number : nat) (sh : ngx_upstream_check_peers_shm_t) : ngx_upstream_check_peers_shm_t :=
  sh <| sh_peers := ((fun s => s <| owner := NGX_INVALID_PID |>) <$> take number (sh_peers sh))
                      ++ drop number (sh_peers sh) |>.

(** [init_shm_zone(shm_zone, data)] with [data] the data of an old zone of
    the same name, the generation counter, the zones of the running cycle and
    the outcome of the allocations.  [None] is the use of a pool as shared
    peers. *)
Definition init_shm_zone (al : list bool) (generation : Z) (old_zones : list ngx_shm_zone_t)
    (ctx : option ngx_upstream_check_peers_t) (data : zone_data) (zone : ngx_shm_zone_t)
    : option (ngx_rc * option ngx_upstream_check_peers_t * ngx_shm_zone_t) :=
  match ctx with
  | None => Some (NGX_OK, ctx, zone)
  | Some ps =>
    let number := length (peers ps) in
    let '(ok, al) := alloc al in
    if negb ok then Some (NGX_ERROR, ctx, zone)
    else
      let set sh := Some (NGX_OK, Some (ps <| peers_shm := Some sh |>), zone <| zn_data := DPeers sh |>) in
      let fill al opeers :=
        match init_peers_shm al opeers (peers ps) with
        | Some l => set (mk_peers_shm generation (checksum ps) (Z.of_nat number) l)
        | None => Some (NGX_ERROR, ctx, zone)
        end in
      let search opeers :=
        if 1 <? generation then
          let '(name_ok, al) := alloc al in
          match ngx_shared_memory_find old_zones (get_shm_name name_ok (u64 (generation - 1))) sm_tag with
          | Some oz =>
            match zn_data oz with DPeers o => fill al (Some o) | DNull => fill al None | DPool => None end
          | None => fill al opeers
          end
        else fill al opeers in
      match data with
      | DPool => None
      | DNull => search None
      | DPeers o =>
        if (sh_number o =? Z.of_nat number) && (sh_checksum o =? checksum ps) then set (reset_owners number o)
        else search (Some o)
      end
  end.

(** ** Loading a configuration *)

(** [init_shm]: the new generation, the peers with their zone name, and the
    zones of the new cycle with the position of the module's zone.  [None]
    when [ngx_shared_memory_add] returns [NULL]. *)
Definition init_shm (name_ok push_ok : bool) (generation : Z) (zones : list ngx_shm_zone_t)
    (ucmcf : check_main_conf_t) : option (Z * ngx_upstream_check_peers_t * nat * list ngx_shm_zone_t) :=
  let generation := u64 (generation + 1) in
  let n := get_shm_name name_ok generation in
  let ps := (main_peers ucmcf) <| check_shm_name := n |> in
  let shm_size := if 1048576 <? check_shm_size ucmcf then check_shm_size ucmcf else 1048576 in
  '(i, zones) ← ngx_shared_memory_add push_ok zones n shm_size sm_tag;
  Some (generation, ps, i, alter (fun z => z <| zn_data := DPool |>) i zones).

(** The zone loop of [ngx_init_cycle] for one zone: the old zone of the same
    name is reused when its tag and size agree ([noreuse] is not set);
    otherwise fresh memory is made, which may fail. *)
Fixpoint old_data (old_zones : list ngx_shm_zone_t) (zone : ngx_shm_zone_t) : option zone_data :=
  match old_zones with
  | [] => None
  | oz :: old_zones' =>
    if negb (same_name (zn_name zone) (zn_name oz)) then old_data old_zones' zone
    else if bool_decide (zn_tag zone = zn_tag oz) && (zn_size zone =? zn_size oz) then Some (zn_data oz)
    else None
  end.

Definition init_zone (mem_ok : bool) (al : list bool) (generation : Z) (old_zones : list ngx_shm_zone_t)
    (ctx : option ngx_upstream_check_peers_t) (zone : ngx_shm_zone_t)
    : option (ngx_rc * option ngx_upstream_check_peers_t * ngx_shm_zone_t) :=
  match old_data old_zones zone with
  | Some data => init_shm_zone al generation old_zones ctx data zone
  | None => if mem_ok then init_shm_zone al generation old_zones ctx DNull zone else Some (NGX_ERROR, ctx, zone)
  end.

(** The static state of the master process: the generation counter, the
    peers context ([.._peers_ctx]) and whether the configuration it belongs to
    is still there, and the zones of the running cycle. *)
Record master := mk_master {
  m_generation : Z;
  m_ctx : option ngx_upstream_check_peers_t;
  m_ctx_live : bool;
  m_zones : list ngx_shm_zone_t
}.

(** One load of a configuration whose upstreams gave [ucmcf] (the zones of
    other modules do not concern it): [init_shm], the
    initialisation of the module's zone, and the rest of the load, which
    succeeds or not.  On failure the new configuration is destroyed and the
    old cycle goes on, but the static variables keep their new values. *)
Definition load (mem_ok : bool) (al : list bool) (rest_ok : bool) (ucmcf : check_main_conf_t) (m : master)
    : option (bool * master) :=
  '(generation, ps, i, zones) ← init_shm true true (m_generation m) [] ucmcf;
  zone ← zones !! i;
  '(rc, ctx, zone) ← init_zone mem_ok al generation (m_zones m) (Some ps) zone;
  if bool_decide (rc = NGX_OK) && rest_ok then
    Some (true, mk_master generation ctx true (<[i := zone]> zones))
  else Some (false, mk_master generation ctx false (m_zones m)).

End Zone.

(** ** Zone names *)

Lemma strncmp_zero a b :
  nul_free a -> nul_free b -> length a = length b -> ngx_strncmp a b (length a) = 0 <-> a = b.
Proof.
  revert b. induction a as [|x a IH]; intros [|y b] Ha Hb Hl; try done. cbn.
  apply Forall_cons in Ha as [Hx Ha]. apply Forall_cons in Hb as [Hy Hb].
  destruct (Z.eqb_spec x y) as [->|Hne]; [|split; [lia|intros [=]; done]].
  destruct (Z.eqb_spec y 0); [lia|]. cbn in Hl. rewrite IH by (done || lia). naive_solver.
Qed.

Lemma same_name_eq a b : nul_free a -> nul_free b -> same_name a b = bool_decide (a = b).
Proof.
  intros Ha Hb. unfold same_name. destruct (Z.eqb_spec (blen a) (blen b)) as [E|E]; cbn [andb].
  - pose proof (strncmp_zero a b Ha Hb ltac:(unfold blen in E; lia)) as H.
    case_bool_decide as Hab; [by apply Z.eqb_eq, H|]. apply Z.eqb_neq. by rewrite H.
  - rewrite bool_decide_eq_false_2; [done|]. by intros ->.
Qed.

(** The modules of the theorems. *)
Class ShmModuleOk (M : ShmModule) := {
  prefix_nul_free : nul_free sm_prefix;
  prefix_short : (length sm_prefix <= 200)%nat;
  find_peer_in o p s : sm_find o p = Some s -> s ∈ sh_peers o /\ same_sockaddr (peer_addr p) s = true;
  init_peer_eq ok psh opsh d h : exists h',
    sm_init ok psh opsh d h = (if ok then NGX_OK else NGX_ERROR, (init_counters psh opsh d) <| sh_upstream_name := h' |>)
}.

Lemma find_first_spec {A} (f : A -> bool) l x : find_first f l = Some x -> x ∈ l /\ f x = true.
Proof.
  induction l as [|y l IH]; cbn; [done|]. destruct (f y) eqn:E.
  - intros [= <-]. split; [left|done].
  - intros H. destruct (IH H). split; [by right|done].
Qed.

Lemma nul_free_s2b_b s : forallb (fun c => (0 <? c) && (c <? 256)) s = true -> nul_free s.
Proof.
  intros H. rewrite forallb_forall in H. apply Forall_forall. intros c Hc.
  apply list_elem_of_In, H in Hc. lia.
Qed.

Lemma elem_of_take_sub {A} n (l : list A) x : x ∈ take n l -> x ∈ l.
Proof. intros H. rewrite <- (take_drop n l). by apply elem_of_app; left. Qed.

#[export] Instance stream_shm_ok : ShmModuleOk stream_shm.
Proof.
  split.
  - by apply nul_free_s2b_b.
  - cbn. lia.
  - intros o p s H. apply find_first_spec in H as [Hin H]. apply andb_true_iff in H as [H _].
    split; [by eapply elem_of_take_sub|done].
  - intros ok psh opsh d h. exists h. cbn. unfold ngx_stream_upstream_check_init_shm_peer. by destruct ok.
Qed.

#[export] Instance http_shm_ok : ShmModuleOk http_shm.
Proof.
  split.
  - by apply nul_free_s2b_b.
  - cbn. lia.
  - intros o p s H. apply find_first_spec in H as [Hin H]. split; [by eapply elem_of_take_sub|done].
  - intros ok psh opsh d h. cbn. unfold ngx_http_upstream_check_init_shm_peer.
    exists (sh_upstream_name (init_counters psh opsh d)). by destruct ok, opsh, psh.
Qed.

Section Loads.
Context {M : ShmModule} {MO : ShmModuleOk M}.

Lemma shm_name_eq g : in_u64 g -> get_shm_name true g = sm_prefix ++ [ch "#"] ++ num_text g 0.
Proof.
  intros Hg. unfold get_shm_name. pose proof prefix_short as Hp.
  unfold ngx_snprintf, ngx_vslprintf. change (length (s2b "%s#%ui")) with 6%nat.
  change (vslprintf_loop 6 SHM_NAME_LEN (s2b "%s#%ui") [ACstr sm_prefix; AInt g]) with
    (app (take 256 sm_prefix)
      <$> vslprintf_loop 5 (256 - length (take 256 sm_prefix)) (ch "#" :: s2b "%ui") [AInt g]).
  rewrite take_ge by lia. rewrite vsl_lit by (done || lia).
  assert (vslprintf_loop 4 (256 - length sm_prefix - 1) (s2b "%ui") [AInt g] = Some (num_text g 0)) as ->; [|done].
  pose proof (length_num_text_dec g). rewrite <- (u64_small g Hg) at 2.
  destruct (256 - length sm_prefix - 1)%nat as [|r] eqn:Er; [lia|].
  change (vslprintf_loop 4 (S r) (s2b "%ui") [AInt g]) with
    (app (ngx_sprintf_num (S r) (u64 g) 32 0 0)
      <$> vslprintf_loop 3 (S r - length (ngx_sprintf_num (S r) (u64 g) 32 0 0)) [] []).
  rewrite vsl_end. cbn [fmap option_fmap option_map]. rewrite app_nil_r.
  rewrite sprintf_num_room; [done|]. rewrite u64_small by done. lia.
Qed.

Lemma shm_name_nul_free g : in_u64 g -> nul_free (get_shm_name true g).
Proof.
  intros Hg. rewrite shm_name_eq by done. apply Forall_app; split; [apply prefix_nul_free|].
  constructor; [split; reflexivity|]. destruct (num_text_dec g Hg) as (ds & -> & _ & Hd & _).
  eapply Forall_impl; [exact Hd|]. intros c Hc. unfold is_digit in Hc.
  change (ch "0") with 48 in Hc. change (ch "9") with 57 in Hc. lia.
Qed.

(** Zones of different generations have different names. *)
Lemma shm_name_inj g g' :
  in_u64 g -> in_u64 g' -> same_name (get_shm_name true g) (get_shm_name true g') = bool_decide (g = g').
Proof.
  intros Hg Hg'. rewrite same_name_eq by (by apply shm_name_nul_free).
  apply bool_decide_ext. split; [|by intros ->]. rewrite !shm_name_eq by done.
  intros E. apply app_inv_head in E. injection E as E.
  destruct (num_text_dec g Hg) as (ds & E1 & _ & _ & <-). destruct (num_text_dec g' Hg') as (ds' & E2 & _ & _ & <-).
  congruence.
Qed.

(** ** What a load leaves in shared memory *)

(** The state of a peer in the new shared memory: it has no owner, the
    address of the peer, and the counters of the old shared peer the module
    finds for it or, without one, zero counters and [default_down]. *)
Definition inherited (opeers : option ngx_upstream_check_peers_shm_t) (p : ngx_upstream_check_peer_t)
    (s : ngx_upstream_check_peer_shm_t) : Prop :=
  owner s = NGX_INVALID_PID /\ sh_socklen s = socklen (peer_addr p)
  /\ sh_sockaddr s = take (Z.to_nat (socklen (peer_addr p))) (sockaddr (peer_addr p))
  /\ match o ← opeers; sm_find o p with
     | Some o => access_time s = access_time o /\ access_count s = access_count o
                 /\ fall_count s = fall_count o /\ rise_count s = rise_count o
                 /\ busyness s = busyness o /\ down s = down o
     | None => access_time s = 0 /\ access_count s = 0 /\ fall_count s = 0 /\ rise_count s = 0
               /\ busyness s = 0 /\ down s = default_down (conf p)
     end.

Lemma init_peer_shm_spec opeers p : exists s, init_peer_shm [] opeers p = (Some s, []) /\ inherited opeers p s.
Proof.
  unfold init_peer_shm. cbn [alloc negb]. cbv zeta. unfold inherited.
  destruct (o ← opeers; sm_find o p) as [o|].
  - destruct (init_peer_eq true (peer_shm_zero <| owner := NGX_INVALID_PID |>
      <| sh_socklen := socklen (peer_addr p) |>
      <| sh_sockaddr := take (Z.to_nat (socklen (peer_addr p))) (sockaddr (peer_addr p)) |>) (Some o) 0
      (upstream_name p)) as (h' & E). rewrite E. eexists. split; [reflexivity|]. cbn. by split_and!.
  - destruct (init_peer_eq true (peer_shm_zero <| owner := NGX_INVALID_PID |>
      <| sh_socklen := socklen (peer_addr p) |>
      <| sh_sockaddr := take (Z.to_nat (socklen (peer_addr p))) (sockaddr (peer_addr p)) |>) None
      (default_down (conf p)) (upstream_name p)) as (h' & E). rewrite E.
    eexists. split; [reflexivity|]. cbn. by split_and!.
Qed.

Lemma init_peers_shm_spec opeers l : exists l', init_peers_shm [] opeers l = Some l' /\ Forall2 (inherited opeers) l l'.
Proof.
  induction l as [|p l (l' & E & H)]; cbn [init_peers_shm]; [by exists []|].
  destruct (init_peer_shm_spec opeers p) as (s & -> & Hs). cbn [mbind option_bind]. rewrite (bind_some _ _ _ E).
  exists (s :: l'). split; [done|by constructor].
Qed.

(** Where the old shared peers of a load of generation [g] come from. *)
Definition old_peers (zones : list ngx_shm_zone_t) (g : Z) : option ngx_upstream_check_peers_shm_t :=
  if 1 <? g then
    match ngx_shared_memory_find zones (get_shm_name true (u64 (g - 1))) sm_tag with
    | Some z => match zn_data z with DPeers o => Some o | _ => None end
    | None => None
    end
  else None.

(** No zone is left with a pool as its data. *)
Definition zones_ok (zones : list ngx_shm_zone_t) : Prop := Forall (fun z => zn_data z <> DPool) zones.

Lemma memory_find_in zones n tag z : ngx_shared_memory_find zones n tag = Some z -> z ∈ zones.
Proof.
  induction zones as [|z' zones IH]; cbn; [done|]. destruct (negb _); [by right; apply IH|].
  destruct (negb _); [by right; apply IH|]. intros [= <-]. left.
Qed.

Lemma init_shm_zone_fresh g zones ps zone :
  zones_ok zones ->
  exists l, Forall2 (inherited (old_peers zones g)) (peers ps) l
    /\ let sh := mk_peers_shm g (checksum ps) (Z.of_nat (length (peers ps))) l in
       init_shm_zone [] g zones (Some ps) DNull zone
       = Some (NGX_OK, Some (ps <| peers_shm := Some sh |>), zone <| zn_data := DPeers sh |>).
Proof.
  intros Hz. destruct (init_peers_shm_spec (old_peers zones g) (peers ps)) as (l & E & H).
  exists l. split; [done|]. unfold init_shm_zone. cbn [alloc negb]. unfold old_peers in E.
  destruct (1 <? g); [|by rewrite E].
  destruct (ngx_shared_memory_find zones (get_shm_name true (u64 (g - 1))) sm_tag) as [z|] eqn:Ez; [|by rewrite E].
  apply memory_find_in in Ez. unfold zones_ok in Hz. rewrite Forall_forall in Hz. specialize (Hz z Ez).
  by destruct (zn_data z); [rewrite E| |rewrite E].
Qed.

(** The running cycle after [g] loads: its zone is of generation at most [g]. *)
Definition running (g : Z) (zones : list ngx_shm_zone_t) : Prop :=
  zones_ok zones /\ Forall (fun z => exists g', 0 < g' <= g /\ zn_name z = get_shm_name true g') zones.

Lemma old_data_fresh g zones zone :
  running g zones -> 0 <= g < 2 ^ 64 - 1 -> zn_name zone = get_shm_name true (g + 1) -> old_data zones zone = None.
Proof.
  intros [_ H] Hg Hn. induction H as [|z zones (g' & Hg' & Ez) _ IH]; cbn [old_data]; [done|].
  rewrite Hn, Ez, shm_name_inj by (unfold in_u64; lia).
  rewrite bool_decide_eq_false_2 by lia. cbn [negb]. apply IH.
Qed.

Lemma load_spec rest_ok ucmcf m :
  running (m_generation m) (m_zones m) -> 0 <= m_generation m < 2 ^ 64 - 1 ->
  let g := m_generation m + 1 in
  exists ps l zone,
    Forall2 (inherited (old_peers (m_zones m) g)) (peers (main_peers ucmcf)) l
    /\ let sh := mk_peers_shm g (checksum (main_peers ucmcf)) (Z.of_nat (length (peers (main_peers ucmcf)))) l in
       peers ps = peers (main_peers ucmcf) /\ peers_shm ps = Some sh
       /\ zn_name zone = get_shm_name true g /\ zn_tag zone = sm_tag /\ zn_data zone = DPeers sh
       /\ load true [] rest_ok ucmcf m
          = Some (rest_ok, mk_master g (Some ps) rest_ok (if rest_ok then [zone] else m_zones m)).
Proof.
  intros Hr Hg g. unfold load, init_shm. rewrite (u64_small (m_generation m + 1)) by (unfold in_u64; lia).
  fold g. cbn [ngx_shared_memory_add mbind option_bind]. cbv zeta. cbn [alter list_alter lookup list_lookup].
  set (size := if 1048576 <? check_shm_size ucmcf then check_shm_size ucmcf else 1048576).
  set (ps0 := (main_peers ucmcf) <| check_shm_name := get_shm_name true g |>).
  set (zone0 := (mk_zone (get_shm_name true g) sm_tag size DNull) <| zn_data := DPool |>).
  destruct (init_shm_zone_fresh g (m_zones m) ps0 zone0 (proj1 Hr)) as (l & Hl & E). cbn zeta in E.
  assert (Ez : init_zone true [] g (m_zones m) (Some ps0) zone0
               = init_shm_zone [] g (m_zones m) (Some ps0) DNull zone0).
  { unfold init_zone. by rewrite (old_data_fresh (m_generation m)). }
  rewrite E in Ez. rewrite (bind_some (Some zone0) _ zone0 eq_refl), (bind_some _ _ _ Ez). cbn beta iota.
  rewrite bool_decide_eq_true_2 by done. cbn [andb].
  exists (ps0 <| peers_shm := Some (mk_peers_shm g (checksum ps0) (Z.of_nat (length (peers ps0))) l) |>), l,
    (zone0 <| zn_data := DPeers (mk_peers_shm g (checksum ps0) (Z.of_nat (length (peers ps0))) l) |>).
  split; [done|]. cbn zeta. split_and!; try done. by destruct rest_ok.
Qed.

End Loads.

(** ** Reloads *)

(** A master that runs the configuration of its last load: the zone of
    generation [g] holds the shared peers [o]. *)
Definition running_with {M : ShmModule} (m : master) (g size : Z) (o : ngx_upstream_check_peers_shm_t) : Prop :=
  m_generation m = g /\ m_zones m = [mk_zone (get_shm_name true g) sm_tag size (DPeers o)].

Lemma running_with_running {M : ShmModule} m g size o :
  running_with m g size o -> 0 < g -> running (m_generation m) (m_zones m).
Proof.
  intros [-> ->] Hg. split; [by repeat constructor|]. constructor; [|constructor]. exists g. split; [lia|done].
Qed.

Lemma old_peers_running {M : ShmModule} {MO : ShmModuleOk M} m g size o g' :
  running_with m g size o -> 0 < g < 2 ^ 64 - 1 -> 1 < g' <= 2 ^ 64 ->
  old_peers (m_zones m) g' = if bool_decide (g' = g + 1) then Some o else None.
Proof.
  intros [_ ->] Hg Hg'. unfold old_peers. rewrite (proj2 (Z.ltb_lt _ _)) by lia.
  cbn [ngx_shared_memory_find zn_name zn_tag zn_data].
  rewrite (u64_small (g' - 1)) by (unfold in_u64; lia). rewrite shm_name_inj by (unfold in_u64; lia).
  destruct (decide (g' = g + 1)) as [->|Hne].
  - by rewrite !bool_decide_eq_true_2 by (done || lia).
  - rewrite (bool_decide_eq_false_2 (g' - 1 = g)), (bool_decide_eq_false_2 (g' = g + 1)) by lia. done.
Qed.

(** C19: a reload keeps the state of the peers.  From a running configuration
    of generation [g] with shared peers [o], a successful load of a new
    configuration gives every new peer, in the order of the configuration, a
    shared state without owner that has the counters and the up/down state of
    the old shared peer found for it (same address, in the stream module also
    the same upstream) and otherwise zero counters and [default_down]; the
    workers started afterwards get this memory. *)
Theorem reload_inherits M m g size o ucmcf :
  M = stream_shm \/ M = http_shm ->
  running_with (M := M) m g size o -> 0 < g < 2 ^ 64 - 1 ->
  exists m' ps sh, load (M := M) true [] true ucmcf m = Some (true, m')
    /\ m_ctx m' = Some ps /\ m_ctx_live m' = true /\ peers ps = peers (main_peers ucmcf)
    /\ peers_shm ps = Some sh
    /\ Forall2 (inherited (M := M) (Some o)) (peers ps) (sh_peers sh)
    /\ (exists size', running_with (M := M) m' (g + 1) size' sh).
Proof.
  intros HM Hm Hg. assert (MO : ShmModuleOk M) by (destruct HM as [-> | ->]; apply _).
  destruct (load_spec true ucmcf m) as (ps & l & zone & Hl & Hp & Hsh & Hn & Ht & Hd & E).
  { eapply running_with_running; [exact Hm|lia]. }
  { rewrite (proj1 Hm). lia. }
  rewrite (old_peers_running m g size o) in Hl by (done || rewrite (proj1 Hm); lia).
  rewrite (proj1 Hm), bool_decide_eq_true_2 in Hl by done.
  eexists _, ps, _. split; [exact E|]. split_and!; try done; [by rewrite Hp|].
  exists (zn_size zone). split; [by cbn; rewrite (proj1 Hm)|]. cbn [m_zones].
  rewrite (proj1 Hm) in Hn, Hd. rewrite <- Hn, <- Ht, (proj1 Hm), <- Hd. clear. by destruct zone.
Qed.

(** a failed reload costs the state of the peers.  If a load fails after
    [init_shm] (in the module's zone or anywhere later), the old
    configuration goes on, but the generation counter stays incremented; the
    next successful load looks for a zone of the failed generation, does not
    find it, and starts every peer with zero counters and [default_down],
    whatever its state [o] was.  In between, the static context points to the
    destroyed configuration. *)
Theorem failed_reload_forgets M m g size o bad ucmcf :
  M = stream_shm \/ M = http_shm ->
  running_with (M := M) m g size o -> 0 < g < 2 ^ 64 - 2 ->
  exists m1 m2 ps sh, load (M := M) true [] false bad m = Some (false, m1)
    /\ m_zones m1 = m_zones m /\ m_ctx_live m1 = false
    /\ load (M := M) true [] true ucmcf m1 = Some (true, m2)
    /\ m_ctx m2 = Some ps /\ peers_shm ps = Some sh
    /\ Forall2 (fun p s => down s = default_down (conf p) /\ fall_count s = 0 /\ rise_count s = 0)
         (peers (main_peers ucmcf)) (sh_peers sh).
Proof.
  intros HM Hm Hg. assert (MO : ShmModuleOk M) by (destruct HM as [-> | ->]; apply _).
  destruct (load_spec false bad m) as (ps1 & l1 & zone1 & _ & _ & _ & _ & _ & _ & E1).
  { eapply running_with_running; [exact Hm|lia]. }
  { rewrite (proj1 Hm). lia. }
  set (m1 := mk_master (m_generation m + 1) (Some ps1) false (m_zones m)) in *.
  assert (Hg1 : m_generation m1 = g + 1) by (cbn; by rewrite (proj1 Hm)).
  destruct (load_spec true ucmcf m1) as (ps & l & zone & Hl & Hp & Hsh & _ & _ & _ & E).
  { destruct (running_with_running m g size o Hm ltac:(lia)) as [Hz Hr]. split; [done|].
    eapply Forall_impl; [exact Hr|]. intros z (g' & ? & ?). exists g'. rewrite Hg1. rewrite (proj1 Hm) in *.
    split; [lia|done]. }
  { lia. }
  rewrite Hg1 in *. change (m_zones m1) with (m_zones m) in Hl.
  rewrite (old_peers_running m g size o), bool_decide_eq_false_2 in Hl by (done || lia).
  eexists m1, _, ps, _. split; [exact E1|]. split_and!; try done. cbn [sh_peers].
  eapply Forall2_impl; [exact Hl|]. intros p s (_ & _ & _ & H). cbn in H. naive_solver.
Qed.

(** ** Examples *)

(** Two upstreams of the http module with the same server: the server is down
    for the first and up for the second, which checks it in another way. *)
Definition ex_two_peers : ngx_upstream_check_peers_t :=
  mk_peers [] 0 [ex_peer; ex_peer <| upstream_name := s2b "other" |> <| index := 1 |>] None.

Definition ex_two_shm : ngx_upstream_check_peers_shm_t :=
  mk_peers_shm 1 0 2 [ex_shm; ex_shm <| sh_upstream_name := s2b "other" |> <| down := 0 |> <| rise_count := 2 |>].

Definition ex_master (M : ShmModule) : master :=
  mk_master 1 (Some (ex_two_peers <| peers_shm := Some ex_two_shm |>)) true
    [mk_zone (get_shm_name (M := M) true 1) sm_tag 1048576 (DPeers ex_two_shm)].

Lemma ex_master_running M : running_with (M := M) (ex_master M) 1 1048576 ex_two_shm.
Proof. by split. Qed.

Lemma reload_inherits_witness :
  exists m' ps sh, load (M := stream_shm) true [] true (mk_main_conf 0 ex_two_peers) (ex_master stream_shm)
      = Some (true, m')
    /\ m_ctx m' = Some ps /\ m_ctx_live m' = true /\ peers ps = peers ex_two_peers
    /\ peers_shm ps = Some sh
    /\ Forall2 (inherited (M := stream_shm) (Some ex_two_shm)) (peers ps) (sh_peers sh)
    /\ (exists size', running_with (M := stream_shm) m' (1 + 1) size' sh).
Proof.
  apply (reload_inherits stream_shm (ex_master stream_shm) 1 1048576 ex_two_shm (mk_main_conf 0 ex_two_peers)).
  - left. reflexivity.
  - apply ex_master_running.
  - split; reflexivity.
Defined.

Lemma failed_reload_forgets_witness :
  exists m1 m2 ps sh,
    load (M := http_shm) true [] false (mk_main_conf 0 ex_two_peers) (ex_master http_shm) = Some (false, m1)
    /\ m_zones m1 = m_zones (ex_master http_shm) /\ m_ctx_live m1 = false
    /\ load (M := http_shm) true [] true (mk_main_conf 0 ex_two_peers) m1 = Some (true, m2)
    /\ m_ctx m2 = Some ps /\ peers_shm ps = Some sh
    /\ Forall2 (fun p s => down s = default_down (conf p) /\ fall_count s = 0 /\ rise_count s = 0)
         (peers ex_two_peers) (sh_peers sh).
Proof.
  apply (failed_reload_forgets http_shm (ex_master http_shm) 1 1048576 ex_two_shm (mk_main_conf 0 ex_two_peers)
    (mk_main_conf 0 ex_two_peers)).
  - right. reflexivity.
  - apply ex_master_running.
  - split; reflexivity.
Defined.

(** The up/down states a load leaves. *)
Definition downs (r : option (bool * master)) : option (list Z) :=
  '(_, m) ← r; ps ← m_ctx m; sh ← peers_shm ps; Some (down <$> sh_peers sh).

(** in the http module an upstream inherits the state of another upstream
    with the same server.  The search for the old state compares addresses
    only: after a reload of an unchanged configuration in which the server is
    down for the first upstream and up for the second, it is down for both;
    the stream module, which also compares the names of the upstreams, keeps
    the two states. *)
Theorem http_reload_mixes_upstreams :
  downs (load (M := http_shm) true [] true (mk_main_conf 0 ex_two_peers) (ex_master http_shm)) = Some [1; 1]
  /\ downs (load (M := stream_shm) true [] true (mk_main_conf 0 ex_two_peers) (ex_master stream_shm)) = Some [1; 0].
Proof. vm_compute. by split. Qed.
