(* ===== verification/Boot.v ===== *)
(** * From the configuration to the workers

    The whole way of a configuration: the directives of an upstream, the
    servers added by the load balancer, [init_main_conf], the shared memory
    and the worker process. *)

From S2P Require Import Prelude NgxString StatusLine CheckTypes CheckProto CheckCore CheckSafety CheckWorker.
From S2P Require Import Inet FastCgiRequest CheckConf AddPeer CheckShm.

(** ** The directives of an upstream *)

Inductive directive : Type :=
| DCheck (vs : list bytes)
| DKeepalive (v : bytes)
| DSend (v : bytes)
| DExpect (vs : list bytes)
| DBody (vs : list bytes)
| DFastcgiParam (k v : bytes).

(** What differs between the two modules when a configuration is loaded. *)
Record conf_module := mk_conf_module {
  cm_types : list ngx_check_conf_t;
  cm_params : cptr (list bytes);          (** [fastcgi_params] of a new configuration *)
  cm_init_srv : option ngx_upstream_check_srv_conf_t -> option (conf_rc * option ngx_upstream_check_srv_conf_t);
  cm_shm : ShmModule
}.

Definition stream_conf : conf_module :=
  mk_conf_module Stream.ngx_check_types Null ngx_stream_upstream_check_init_srv_conf stream_shm.

(** The request for upstreams of type [fastcgi] without parameters is made
    first in [init_main_conf]. *)
Definition http_conf (stdin_header default_request : bytes) : conf_module :=
  mk_conf_module Http.ngx_check_types (Ptr [])
    (ngx_http_upstream_check_init_srv_conf true stdin_header default_request) http_shm.

Section Load.
Context (C : conf_module) (regex_compile : bytes -> bool -> bool).

Definition run_directive (d : directive) (cf : ngx_upstream_check_srv_conf_t)
    : option (conf_rc * ngx_upstream_check_srv_conf_t) :=
  match d with
  | DCheck vs => Some (upstream_check (cm_types C) vs cf)
  | DKeepalive v => Some (check_keepalive v cf)
  | DSend v => Some (check_http_send v cf)
  | DExpect vs => Some (check_http_expect_alive vs cf)
  | DBody vs => Some (ngx_upstream_check_http_body regex_compile vs cf)
  | DFastcgiParam k v => ngx_http_upstream_check_fastcgi_params k v cf
  end.

(** [None] when a directive is refused. *)
Fixpoint run_directives (ds : list directive) (cf : ngx_upstream_check_srv_conf_t)
    : option ngx_upstream_check_srv_conf_t :=
  match ds with
  | [] => Some cf
  | d :: ds' =>
    '(rc, cf) ← run_directive d cf;
    match rc with NGX_CONF_OK => run_directives ds' cf | _ => None end
  end.

(** An upstream block: its name, directives and the addresses of its servers. *)
Record upstream := mk_upstream { us_host : bytes; us_directives : list directive; us_addrs : list ngx_addr_t }.

Definition us_servers (u : upstream) (cf : ngx_upstream_check_srv_conf_t) : list server :=
  (fun a => mk_server (Some cf) (us_host u) a) <$> us_addrs u.

(** The configuration of a peer is the object of its upstream: what
    [init_srv_conf] does to it is seen through the peer. *)
Definition refresh (p : ngx_upstream_check_peer_t) : option ngx_upstream_check_peer_t :=
  match cm_init_srv C (Some (conf p)) with
  | Some (NGX_CONF_OK, Some cf) => Some (p <| conf := cf |>)
  | _ => None
  end.

(** The load of a configuration in a fresh process: the directives, then
    [add_peer] for every server (the upstream module initialises its
    configuration before the check module), then [init_srv_conf] for every
    upstream, the shared memory, and the fork of a worker. *)
Definition boot (us : list upstream) (shm_size now pid : Z) : option process :=
  cfs ← mapM (fun u => run_directives (us_directives u) (srv_conf_unset (cm_params C))) us;
  '(_, ps) ← add_peers (mk_peers [] 0 [] None) (concat (zip_with us_servers us cfs));
  '(rc, _) ← init_srv_confs (cm_init_srv C) (Some <$> cfs);
  match rc with
  | NGX_CONF_OK =>
    l ← mapM refresh (peers ps);
    '(_, m) ← load (M := cm_shm C) true [] true (mk_main_conf shm_size (ps <| peers := l |>))
                (mk_master 0 None false []);
    Some (mk_process now pid false false false false (m_generation m) (m_ctx m))
  | _ => None
  end.

End Load.

(** ** Accepted configurations *)

Definition module_conf (C : conf_module) : Prop := C = stream_conf \/ exists h r, C = http_conf h r.

Lemma module_conf_types C : module_conf C -> module_types (cm_types C).
Proof. intros [-> | (h & r & ->)]; [by left|by right]. Qed.

Record conf_inv (types : list ngx_check_conf_t) (cf : ngx_upstream_check_srv_conf_t) : Prop := {
  ci_regex : expect_body_regex cf <> Null;
  ci_check : check_interval cf = 0 /\ check_type_conf cf = Unset \/ checked types cf
}.

Lemma conf_inv_slot types cf : conf_inv types cf -> type_slot types (check_type_conf cf).
Proof. intros [_ [[_ ->]|[_ _ _ _ _ _ (t & -> & ?)]]]; done. Qed.

(** Directives other than [check] do not touch the fields of [check]. *)
Definition same_check (cf cf' : ngx_upstream_check_srv_conf_t) : Prop :=
  (port cf', cf_fall_count cf', cf_rise_count cf', check_interval cf', check_timeout cf', check_type_conf cf',
   default_down cf')
  = (port cf, cf_fall_count cf, cf_rise_count cf, check_interval cf, check_timeout cf, check_type_conf cf,
     default_down cf).

Lemma same_check_inv types cf cf' :
  conf_inv types cf -> same_check cf cf' -> expect_body_regex cf' <> Null -> conf_inv types cf'.
Proof.
  intros [_ Hc] E Hr. unfold same_check in E. injection E as E1 E2 E3 E4 E5 E6 E7.
  split; [done|]. rewrite E4, E6. destruct Hc as [|[? ? ? ? ? ? ?]]; [by left|right].
  split; [rewrite E1|rewrite E3|rewrite E2|rewrite E4|rewrite E5|rewrite E7|rewrite E6]; done.
Qed.

Lemma run_directive_inv C rx d cf cf' :
  module_conf C -> conf_inv (cm_types C) cf -> run_directive C rx d cf = Some (NGX_CONF_OK, cf') ->
  conf_inv (cm_types C) cf'.
Proof.
  intros HC Hi. pose proof (ci_regex _ _ Hi) as Hr. destruct d as [vs|v|v|vs|vs|k v]; cbn [run_directive].
  - intros [= E]. split.
    + unfold upstream_check in E. destruct (check_args_loop _ _ _); [|done]. by injection E as <-.
    + right. eapply upstream_check_ok; [by apply module_conf_types|by apply conf_inv_slot|done].
  - unfold check_keepalive. destruct (num_param v 0); [|done]. intros [= <-]. by apply (same_check_inv _ cf).
  - intros [= <-]. by apply (same_check_inv _ cf).
  - unfold check_http_expect_alive. destruct (expect_alive_loop _ _); [|done].
    intros [= <-]. by apply (same_check_inv _ cf).
  - unfold ngx_upstream_check_http_body, ngx_upstream_check_http_body_regex.
    destruct vs as [|mode [|name []]]; try done.
    destruct (_ && _); [|destruct (_ && _); [|done]]; destruct (rx _ _); try done;
      intros [= <-]; by apply (same_check_inv _ cf).
  - unfold ngx_http_upstream_check_fastcgi_params. destruct (fastcgi_params cf); try done.
    intros [= <-]. by apply (same_check_inv _ cf).
Qed.

Lemma run_directives_inv C rx ds cf cf' :
  module_conf C -> conf_inv (cm_types C) cf -> run_directives C rx ds cf = Some cf' -> conf_inv (cm_types C) cf'.
Proof.
  intros HC. revert cf. induction ds as [|d ds IH]; intros cf Hi; cbn [run_directives]; [by intros [= <-]|].
  intros E. apply bind_Some in E as ([rc cf1] & E1 & E). destruct rc; try done.
  eapply IH; [|exact E]. by eapply run_directive_inv.
Qed.

(** No check of type [fastcgi]. *)
Definition not_fastcgi (cf : ngx_upstream_check_srv_conf_t) : Prop :=
  forall t, check_type_conf cf = Ptr t -> cc_parse t <> Some fastcgi_parse.

Lemma init_srv_ok C cf :
  module_conf C -> conf_inv (cm_types C) cf -> not_fastcgi cf ->
  exists cf', cm_init_srv C (Some cf) = Some (NGX_CONF_OK, Some cf')
    /\ expect_body_regex cf' = expect_body_regex cf
    /\ (forall t, check_type_conf cf = Ptr t -> check_type cf' = Some t).
Proof.
  intros HC [_ Hc] Hf. destruct HC as [-> | (h & r & ->)]; cbn [cm_init_srv stream_conf http_conf].
  - unfold ngx_stream_upstream_check_init_srv_conf. destruct Hc as [[_ E]|[_ _ _ _ _ _ (t & E & _)]]; rewrite E.
    + eexists. split; [reflexivity|]. by split.
    + eexists. split; [reflexivity|]. unfold alive_default.
      cbn [send srv_conf_defaults upd]. destruct (send cf), (status_alive _ =? 0); cbn; rewrite ?E;
        (split; [done|]); intros t' [= <-]; unfold check_type; cbn; by rewrite ?E.
  - unfold ngx_http_upstream_check_init_srv_conf. cbn [srv_conf_defaults upd check_type_conf].
    destruct Hc as [[_ E]|[_ _ _ _ _ _ (t & E & _)]]; rewrite E.
    + eexists. split; [reflexivity|]. by split.
    + assert (Hn : bool_decide (Some t = Http.ngx_http_get_check_type_conf (s2b "fastcgi")) = false).
      { apply bool_decide_eq_false_2. intros H. injection H as ->. by apply (Hf _ E). }
      unfold http_default_send. rewrite Hn.
      destruct (_ =? 0); cbn [mbind option_bind]; (eexists; split; [reflexivity|]); unfold alive_default;
        destruct (_ =? 0); cbn; rewrite ?E; (split; [done|]); intros t' [= <-]; unfold check_type; cbn; by rewrite ?E.
Qed.

(** An upstream whose directives are accepted with [cf], that is not checked
    with FastCGI, and whose servers have addresses on which the port can be
    changed where it has to. *)
Definition upstream_ok (C : conf_module) (rx : bytes -> bool -> bool) (u : upstream)
    (cf : ngx_upstream_check_srv_conf_t) : Prop :=
  run_directives C rx (us_directives u) (srv_conf_unset (cm_params C)) = Some cf
  /\ not_fastcgi cf /\ Forall (fun a => port cf = 0 \/ inet_addr a) (us_addrs u).

Lemma upstream_ok_inv C rx u cf : module_conf C -> upstream_ok C rx u cf -> conf_inv (cm_types C) cf.
Proof.
  intros HC [E _]. eapply run_directives_inv; [done| |exact E]. split; [done|]. by left.
Qed.

Lemma init_srv_confs_ok C cfs :
  module_conf C -> Forall (fun cf => conf_inv (cm_types C) cf /\ not_fastcgi cf) cfs ->
  exists l, init_srv_confs (cm_init_srv C) (Some <$> cfs) = Some (NGX_CONF_OK, l).
Proof.
  intros HC. induction 1 as [|cf cfs [Hi Hf] _ (l & E)]; [by exists []|].
  destruct (init_srv_ok C cf HC Hi Hf) as (cf' & E' & _). exists (Some cf' :: l).
  cbn [fmap list_fmap init_srv_confs]. rewrite (bind_some _ _ _ E'). cbn beta iota. by rewrite (bind_some _ _ _ E).
Qed.

(** A peer that [add_peer] made for a server of an accepted upstream. *)
Lemma refresh_configured C sv i p cf :
  module_conf C -> conf_inv (cm_types C) cf -> not_fastcgi cf -> sv_conf sv = Some cf -> is_checked sv = true ->
  peer_of_server sv i p -> exists p', refresh C p = Some p' /\ configured p'.
Proof.
  intros HC Hi Hf Ecf Hck (_ & _ & _ & Econf & Hc & Hd & Hs & _ & _). rewrite Ecf in Econf. injection Econf as Econf.
  destruct (init_srv_ok C cf HC Hi Hf) as (cf' & E & Er & Et). unfold refresh. rewrite Econf, E.
  eexists. split; [reflexivity|]. unfold is_checked in Hck. rewrite Ecf in Hck.
  destruct Hi as [Hr [[H0 _]|[_ _ _ _ _ _ (t & Ety & Hin & Hne)]]]; [by rewrite H0 in Hck|].
  split_and!; [done..|]. exists t. cbn [conf upd]. rewrite (Et t Ety), Er. split_and!; [done| |by apply Hf|done].
  assert (Forall (fun t => type t <> 0 -> type_ok t = true) (cm_types C)) as Hall.
  { destruct HC as [-> | (h & r & ->)]; [apply stream_types_ok|apply http_types_ok]. }
  rewrite Forall_forall in Hall. by apply Hall.
Qed.

Lemma refresh_all C servers new :
  module_conf C ->
  Forall (fun sv => exists cf, sv_conf sv = Some cf /\ conf_inv (cm_types C) cf /\ not_fastcgi cf) servers ->
  Forall (fun sv => is_checked sv = true) servers ->
  Forall2 (fun sv p => exists i, peer_of_server sv i p) servers new ->
  exists l, mapM (refresh C) new = Some l /\ Forall configured l.
Proof.
  intros HC Hsv Hck H. revert Hsv Hck. induction H as [|sv p servers new (i & Hp) _ IH]; intros Hsv Hck.
  { by exists []. }
  apply Forall_cons in Hsv as [(cf & Ecf & Hi & Hf) Hsv]. apply Forall_cons in Hck as [Hck0 Hck].
  destruct (refresh_configured C sv i p cf) as (p' & E & Hp'); try done.
  destruct (IH Hsv Hck) as (l & El & Hl). exists (p' :: l). split; [|by constructor].
  cbn [mapM]. rewrite (bind_some _ _ _ E). by rewrite (bind_some _ _ _ El).
Qed.

Lemma servers_facts C rx us cfs :
  module_conf C -> Forall2 (upstream_ok C rx) us cfs ->
  Forall (fun sv => exists cf, sv_conf sv = Some cf /\ conf_inv (cm_types C) cf /\ not_fastcgi cf)
    (concat (zip_with us_servers us cfs))
  /\ Forall server_ok (concat (zip_with us_servers us cfs)).
Proof.
  intros HC. induction 1 as [|u cf us cfs Hu _ [IH1 IH2]]; [by split|].
  pose proof (upstream_ok_inv C rx u cf HC Hu) as Hi. destruct Hu as (_ & Hf & Ha).
  cbn [zip_with concat]. rewrite !Forall_app. unfold us_servers. split_and!; try done.
  - apply Forall_fmap, Forall_true. intros a. by exists cf.
  - apply Forall_fmap. eapply Forall_impl; [exact Ha|]. intros a [H0|H0]; cbn; [by right; left|by right; right].
Qed.

Lemma filter_checked (l : list server) : Forall (fun sv => is_checked sv = true) (filter (fun sv => is_checked sv) l).
Proof. apply Forall_forall. intros sv Hsv. apply list_elem_of_filter in Hsv as [H _]. by apply Is_true_true. Qed.

Lemma Forall_filter_checked (P : server -> Prop) l : Forall P l -> Forall P (filter (fun sv => is_checked sv) l).
Proof. rewrite !Forall_forall. intros H sv Hsv. apply list_elem_of_filter in Hsv as [_ Hsv]. by apply H. Qed.

Lemma boot_ok C rx us cfs size now pid :
  module_conf C -> Forall2 (upstream_ok C rx) us cfs ->
  exists w ps sh, boot C rx us size now pid = Some w /\ peers_ctx w = Some ps /\ peers_shm ps = Some sh
    /\ Forall configured (peers ps) /\ length (peers ps) = length (sh_peers sh).
Proof.
  intros HC Hus. unfold boot.
  assert (Em : mapM (fun u => run_directives C rx (us_directives u) (srv_conf_unset (cm_params C))) us = Some cfs).
  { apply mapM_Some. eapply Forall2_impl; [exact Hus|]. by intros u cf [E _]. }
  rewrite (bind_some _ _ _ Em).
  destruct (servers_facts C rx us cfs HC Hus) as [Hsv Hok].
  destruct (add_peers_spec _ (mk_peers [] 0 [] None) Hok) as (ps & Ea & (new & En & Hnew & _) & _).
  rewrite (bind_some _ _ _ Ea). cbn beta iota. cbn [peers app] in En.
  destruct (init_srv_confs_ok C cfs HC) as (l0 & Ei).
  { clear -HC Hus. induction Hus as [|u cf us cfs Hu _ IH]; constructor; [|done].
    split; [by eapply upstream_ok_inv|by destruct Hu as (_ & ? & _)]. }
  rewrite (bind_some _ _ _ Ei). cbn beta iota. rewrite En.
  destruct (refresh_all C _ new HC (Forall_filter_checked _ _ Hsv) (filter_checked _) Hnew) as (l & El & Hl).
  rewrite (bind_some _ _ _ El).
  assert (MO : ShmModuleOk (cm_shm C)) by (destruct HC as [-> | (h & r & ->)]; apply _).
  destruct (load_spec (M := cm_shm C) true (mk_main_conf size (ps <| peers := l |>)) (mk_master 0 None false []))
    as (ps' & sl & zone & Hinh & Hp & Hsh & _ & _ & _ & E).
  { split; constructor. }
  { cbn. lia. }
  rewrite (bind_some _ _ _ E). cbn beta iota. eexists _, ps', _. split; [reflexivity|].
  split; [done|]. split; [exact Hsh|]. rewrite Hp. split; [done|]. by apply Forall2_length in Hinh.
Qed.

(** ** From an accepted configuration to safe workers *)

Definition check_module (C : conf_module) (M : CheckModule) regex_exec garbage pagesize : Prop :=
  C = stream_conf /\ M = stream_module regex_exec garbage pagesize
  \/ (exists h r, C = http_conf h r) /\ M = http_module regex_exec garbage pagesize.

(** C3: an accepted configuration gives workers that do not crash, FastCGI
    checks and large HTTP responses apart.  For any upstream blocks whose
    directives the module accepts, with no check of type [fastcgi] and with IPv4
    or IPv6 servers where another port is to be checked, and as long as no
    allocation fails, the load of the configuration succeeds: every server of a
    checked upstream is added, the defaults are filled in and the shared memory
    is initialised; and a worker started on it by [add_timers] handles every
    event it can meet, with responses to HTTP checks that fit the receive
    buffer. *)
Theorem accepted_configuration_safe C M rx regex_exec garbage pagesize us cfs size now pid :
  2 <= pagesize -> check_module C M regex_exec garbage pagesize -> Forall2 (upstream_ok C rx) us cfs ->
  exists w0, boot C rx us size now pid = Some w0
    /\ forall al rnds w1 w ev i, add_timers al rnds w0 = Some (NGX_OK, w1) ->
       reachable regex_exec garbage pagesize (M := M) w1 w -> fits pagesize w ev i ->
       is_Some (step regex_exec garbage pagesize (M := M) w ev i).
Proof.
  intros Hpg HCM Hus.
  assert (HC : module_conf C) by (destruct HCM as [[-> _]|[? _]]; [by left|by right]).
  assert (HMok : CheckModuleOk M).
  { destruct HCM as [[_ ->]|[_ ->]]; [by apply stream_module_ok|by apply http_module_ok]. }
  destruct (boot_ok C rx us cfs size now pid HC Hus) as (w0 & ps & sh & E & Ep & Es & Hc & Hl).
  exists w0. split; [exact E|]. intros al rnds w1 w ev i Hadd Hreach Hfit.
  assert (H1 : proc_inv w1).
  { apply (add_timers_inv al rnds w0); [|done]. intros ps' E'. rewrite Ep in E'. injection E' as <-.
    split; [done|]. rewrite Es. lia. }
  pose proof (reachable_inv regex_exec garbage pagesize Hpg M w1 w H1 Hreach) as H.
  destruct (step_safe regex_exec garbage pagesize Hpg M w ev i H Hfit) as (w' & E' & _). by exists w'.
Qed.

(** An http upstream with two servers. *)
Definition ex_upstream : upstream :=
  mk_upstream (s2b "backend")
    [DCheck (render_param <$> ex_params); DExpect [s2b "http_2xx"]; DSend (s2b "GET /ok HTTP/1.0" ++ [CR; LF; CR; LF])]
    [ex_addr; ex_addr].

Definition ex_upstream_conf : ngx_upstream_check_srv_conf_t :=
  default (srv_conf_unset Null)
    (run_directives (http_conf [] []) (fun _ _ => true) (us_directives ex_upstream) (srv_conf_unset (Ptr []))).

Lemma accepted_configuration_safe_witness :
  exists w0, boot (http_conf [] []) (fun _ _ => true) [ex_upstream] 0 1000 42 = Some w0
    /\ forall al rnds w1 w ev i, add_timers al rnds w0 = Some (NGX_OK, w1) ->
       reachable ex_regex 0 4096 (M := http_module ex_regex 0 4096) w1 w -> fits 4096 w ev i ->
       is_Some (step ex_regex 0 4096 (M := http_module ex_regex 0 4096) w ev i).
Proof.
  apply (accepted_configuration_safe (http_conf [] []) (http_module ex_regex 0 4096) (fun _ _ => true) ex_regex 0 4096
    [ex_upstream] [ex_upstream_conf]).
  - discriminate.
  - right. split; [exists [], []; reflexivity|reflexivity].
  - constructor; [|constructor]. split; [vm_compute; reflexivity|]. split.
    + intros t Ht. vm_compute in Ht. injection Ht as <-. discriminate.
    + constructor; [left; vm_compute; reflexivity|]. constructor; [left; vm_compute; reflexivity|constructor].
Defined.
