(* ===== verification/RoundRobin.v ===== *)
(** * Weighted round robin with health checks

    [src/http/ngx_http_upstream_round_robin.c] and its copy
    [src/stream/ngx_stream_upstream_round_robin.c]: how a request chooses a
    server of an upstream.  The two files differ in names and in the order of
    two tests without effects.  A server that the health checker has taken
    down ([check_peer_down] of its [check_index]) is skipped. *)

From S2P Require Import Prelude NgxString StatusLine CheckTypes CheckProto CheckCore CheckSafety CheckWorker.
From S2P Require Import Inet FastCgiRequest CheckConf AddPeer.

(** ** Data *)

(** [ngx_http_upstream_rr_peer_t]; the list is linked through [next]. *)
Record rr_peer := mk_rr {
  rr_addr : ngx_addr_t;                  (** [sockaddr], [socklen] and [name] *)
  rr_server : bytes;
  current_weight : Z;
  effective_weight : Z;
  weight : Z;
  conns : Z;
  max_conns : Z;
  fails : Z;
  accessed : Z;
  rr_checked : Z;                        (** [checked] *)
  max_fails : Z;
  fail_timeout : Z;
  check_index : Z;
  rr_down : Z
}.

#[export] Instance eta_rr : Eta rr_peer := fun r =>
  mk_rr (rr_addr r) (rr_server r) (current_weight r) (effective_weight r) (weight r) (conns r)
    (max_conns r) (fails r) (accessed r) (rr_checked r) (max_fails r) (fail_timeout r) (check_index r)
    (rr_down r).

(** [ngx_http_upstream_rr_peers_t] without [next]. *)
Record rr_peers := mk_rr_peers {
  number : Z;
  total_weight : Z;
  single : bool;
  weighted : bool;
  rr_name : bytes;
  rr_list : list rr_peer
}.

#[export] Instance eta_rr_peers : Eta rr_peers := fun r =>
  mk_rr_peers (number r) (total_weight r) (single r) (weighted r) (rr_name r) (rr_list r).

(** The servers of an upstream and its backup servers ([peers->next]). *)
Record rr_upstream := mk_rr_upstream { primary : rr_peers; backup : option rr_peers }.

#[export] Instance eta_rr_upstream : Eta rr_upstream := fun r => mk_rr_upstream (primary r) (backup r).

(** [ngx_http_upstream_rr_peer_data_t]: whether [peers] points to the backup
    servers, the position of [current] in its list, and the words of the
    bitmap [tried]. *)
Record rr_data := mk_rr_data { on_backup : bool; current : option nat; tried : list Z }.

#[export] Instance eta_rr_data : Eta rr_data := fun r => mk_rr_data (on_backup r) (current r) (tried r).

(** ** The bitmap *)

Definition WORD : nat := 64.

Definition is_tried (t : list Z) (i : nat) : bool :=
  negb (Z.land (nth (i / WORD) t 0) (Z.shiftl 1 (Z.of_nat (i mod WORD))) =? 0).

Definition set_tried (t : list Z) (i : nat) : list Z :=
  <[(i / WORD)%nat := Z.lor (nth (i / WORD) t 0) (Z.shiftl 1 (Z.of_nat (i mod WORD)))]> t.

(** [(n + 63) / 64] words *)
Definition words (n : Z) : nat := Z.to_nat ((n + 63) / 64).

(** ** Choosing a server *)

Section Get.
(** [ngx_time()] and the answer of [check_peer_down]. *)
Context (now : Z) (check_down : Z -> bool).

(** The tests of the loop of [get_peer] that skip a server. *)
Definition skipped (t : list Z) (i : nat) (p : rr_peer) : bool :=
  is_tried t i
  || negb (rr_down p =? 0)
  || check_down (check_index p)
  || (negb (max_fails p =? 0) && (max_fails p <=? fails p) && (now - rr_checked p <=? fail_timeout p))
  || (negb (max_conns p =? 0) && (max_conns p <=? conns p)).

(** What a round does to a server that is not skipped. *)
Definition raise_weight (p : rr_peer) : rr_peer :=
  let q := p <| current_weight := current_weight p + effective_weight p |> in
  if effective_weight p <? weight p then q <| effective_weight := effective_weight p + 1 |> else q.

(** The loop: the updated servers, the best one with its weight, and the
    total. *)
Fixpoint get_peer_loop (t : list Z) (i : nat) (best : option (nat * Z)) (total : Z) (l : list rr_peer)
    : list rr_peer * option (nat * Z) * Z :=
  match l with
  | [] => ([], best, total)
  | p :: l' =>
    if skipped t i p then
      let '(l', best, total) := get_peer_loop t (S i) best total l' in (p :: l', best, total)
    else
      let q := raise_weight p in
      let total := total + effective_weight p in
      let best :=
        match best with
        | Some (_, b) => if b <? current_weight q then Some (i, current_weight q) else best
        | None => Some (i, current_weight q)
        end in
      let '(l', best, total) := get_peer_loop t (S i) best total l' in (q :: l', best, total)
  end.

(** [get_peer]: the position of the chosen server, and the new lists. *)
Definition get_peer (t : list Z) (l : list rr_peer) : option nat * list Z * list rr_peer :=
  match get_peer_loop t 0 None 0 l with
  | (l, None, _) => (None, t, l)
  | (l, Some (p, _), total) =>
    (Some p, set_tried t p,
     alter (fun b =>
       let b := b <| current_weight := current_weight b - total |> in
       if fail_timeout b <? now - rr_checked b then b <| rr_checked := now |> else b) p l)
  end.

(** One group of servers: the new group, bitmap and the chosen position. *)
Definition get_group (ps : rr_peers) (t : list Z) : option (option nat * list Z * rr_peers) :=
  '(r, t, l) ←
    (if single ps then
       p ← hd_error (rr_list ps);
       Some (if negb (rr_down p =? 0) || (negb (max_conns p =? 0) && (max_conns p <=? conns p))
                || check_down (check_index p)
             then (None, t, rr_list ps) else (Some O, t, rr_list ps))
     else Some (get_peer t (rr_list ps)));
  match r with
  | Some i => Some (r, t, ps <| rr_list := alter (fun p => p <| conns := u64 (conns p + 1) |>) i l |>)
  | None => Some (r, t, ps <| rr_list := l |>)
  end.

(** The call of [get_round_robin_peer] with [rrp->peers] the backup servers,
    which have no [next]; [None] when there are none. *)
Definition get_backup (rrp : rr_data) (us : rr_upstream) : option (ngx_rc * rr_data * rr_upstream) :=
  bs ← backup us;
  '(r, t, bs) ← get_group bs (tried rrp);
  let us := us <| backup := Some bs |> in
  let rrp := rrp <| tried := t |> in
  match r with
  | Some i => Some (NGX_OK, rrp <| current := Some i |>, us)
  | None => Some (NGX_BUSY, rrp, us)
  end.

(** [get_round_robin_peer]: the code, the request's data and the upstream.
    [None] for a single group without a server. *)
Definition get_round_robin_peer (rrp : rr_data) (us : rr_upstream) : option (ngx_rc * rr_data * rr_upstream) :=
  if on_backup rrp then get_backup rrp us
  else
    '(r, t, ps) ← get_group (primary us) (tried rrp);
    let us := us <| primary := ps |> in
    let rrp := rrp <| tried := t |> in
    match r, backup us with
    | Some i, _ => Some (NGX_OK, rrp <| current := Some i |>, us)
    | None, None => Some (NGX_BUSY, rrp, us)
    | None, Some bs =>
      let n := words (number bs) in
      get_backup (rrp <| on_backup := true |> <| tried := replicate n 0 ++ drop n (tried rrp) |>) us
    end.

(** [free_round_robin_peer] on the current server; [failed] is
    [state & NGX_PEER_FAILED]. *)
Definition free_peer (is_single failed : bool) (p : rr_peer) : rr_peer :=
  if is_single then p <| conns := u64 (conns p - 1) |>
  else
    let p :=
      if failed then
        let p := p <| fails := u64 (fails p + 1) |> <| accessed := now |> <| rr_checked := now |> in
        let p := if negb (max_fails p =? 0)
                 then p <| effective_weight := effective_weight p - Z.quot (weight p) (max_fails p) |> else p in
        if effective_weight p <? 0 then p <| effective_weight := 0 |> else p
      else if accessed p <? rr_checked p then p <| fails := 0 |> else p in
    p <| conns := u64 (conns p - 1) |>.

Definition free_round_robin_peer (failed : bool) (tries : Z) (rrp : rr_data) (us : rr_upstream)
    : option (Z * rr_upstream) :=
  i ← current rrp;
  let free ps := ps <| rr_list := alter (free_peer (single ps) failed) i (rr_list ps) |> in
  let tries_left (ps : rr_peers) := if single ps then 0 else if tries =? 0 then 0 else tries - 1 in
  if on_backup rrp then bs ← backup us; Some (tries_left bs, us <| backup := Some (free bs) |>)
  else Some (tries_left (primary us), us <| primary := free (primary us) |>).

End Get.

(** [init_round_robin_peer]: the data of a new request. *)
Definition init_round_robin_peer (us : rr_upstream) : rr_data :=
  let n := match backup us with
           | Some bs => if number (primary us) <? number bs then number bs else number (primary us)
           | None => number (primary us)
           end in
  mk_rr_data false None (if n <=? 64 then [0] else replicate (words n) 0).

Definition ngx_http_upstream_get_peer := get_peer.
Definition ngx_stream_upstream_get_peer := get_peer.
Definition ngx_http_upstream_get_round_robin_peer := get_round_robin_peer.
Definition ngx_stream_upstream_get_round_robin_peer := get_round_robin_peer.
Definition ngx_http_upstream_free_round_robin_peer := free_round_robin_peer.
Definition ngx_stream_upstream_free_round_robin_peer := free_round_robin_peer.
Definition ngx_http_upstream_init_round_robin_peer := init_round_robin_peer.
Definition ngx_stream_upstream_init_round_robin_peer := init_round_robin_peer.

(** [ngx_stream_upstream_notify_round_robin_peer] after a TCP connect. *)
Definition notify_peer (p : rr_peer) : rr_peer := if accessed p <? rr_checked p then p <| fails := 0 |> else p.

Definition ngx_stream_upstream_notify_round_robin_peer (connected tcp : bool) (rrp : rr_data) (us : rr_upstream)
    : option rr_upstream :=
  if connected && tcp then
    i ← current rrp;
    let notify ps := ps <| rr_list := alter notify_peer i (rr_list ps) |> in
    if on_backup rrp then bs ← backup us; Some (us <| backup := Some (notify bs) |>)
    else Some (us <| primary := notify (primary us) |>)
  else Some us.

(** ** The loop of [get_peer] *)

Section Loop.
Context (now : Z) (check_down : Z -> bool) (t : list Z).

Abbreviation skip := (skipped now check_down t).

Fixpoint raised (i : nat) (l : list rr_peer) : list rr_peer :=
  match l with
  | [] => []
  | p :: l' => (if skip i p then p else raise_weight p) :: raised (S i) l'
  end.

(** The sum of [f] over the servers that are not skipped. *)
Fixpoint esum (f : nat -> rr_peer -> Z) (i : nat) (l : list rr_peer) : Z :=
  match l with
  | [] => 0
  | p :: l' => (if skip i p then 0 else f i p) + esum f (S i) l'
  end.

(** Weight of a server in the competition. *)
Definition bid (p : rr_peer) : Z := current_weight p + effective_weight p.

Lemma raise_weight_cw p : current_weight (raise_weight p) = bid p.
Proof. unfold raise_weight. by destruct (_ <? _). Qed.

Definition best_of (i : nat) (l : list rr_peer) (best best' : option (nat * Z)) : Prop :=
  match best' with
  | None => best = None /\ forall k p, l !! k = Some p -> skip (i + k) p = true
  | Some (j, b) =>
    (best = Some (j, b) \/ exists k p, j = (i + k)%nat /\ l !! k = Some p /\ skip (i + k) p = false /\ b = bid p)
    /\ (forall k p, l !! k = Some p -> skip (i + k) p = false -> bid p <= b)
    /\ (forall j0 b0, best = Some (j0, b0) -> b0 <= b)
  end.

Lemma best_of_skip i p l best best' :
  skip i p = true -> best_of (S i) l best best' -> best_of i (p :: l) best best'.
Proof.
  intros Hs H. unfold best_of in *. destruct best' as [[j b]|].
  - destruct H as (H1 & H2 & H3). split_and!; [|intros [|k] q|done].
    + destruct H1 as [H1|(k & q & -> & Hk & Hq & ->)]; [by left|right]. exists (S k), q. rewrite Nat.add_succ_r. by split_and!.
    + cbn. rewrite Nat.add_0_r. intros [= <-]. congruence.
    + cbn. rewrite Nat.add_succ_r. apply H2.
  - destruct H as [-> H]. split; [done|]. intros [|k] q; cbn; [rewrite Nat.add_0_r; by intros [= <-]|].
    rewrite Nat.add_succ_r. apply H.
Qed.

(** How one server that is not skipped changes the best so far. *)
Definition better (i : nat) (p : rr_peer) (best : option (nat * Z)) : option (nat * Z) :=
  match best with
  | Some (_, b) => if b <? bid p then Some (i, bid p) else best
  | None => Some (i, bid p)
  end.

Lemma better_cases i p best :
  exists j b, better i p best = Some (j, b) /\ (best = Some (j, b) \/ j = i /\ b = bid p)
    /\ bid p <= b /\ (forall j0 b0, best = Some (j0, b0) -> b0 <= b).
Proof.
  unfold better. destruct best as [[j b]|].
  - destruct (Z.ltb_spec b (bid p)).
    + exists i, (bid p). split_and!; [done|by right|lia|]. intros ? ? [= <- <-]. lia.
    + exists j, b. split_and!; [done|by left|lia|]. intros ? ? [= <- <-]. lia.
  - exists i, (bid p). split_and!; [done|by right|lia|done].
Qed.

Lemma best_of_take i p l best best' :
  skip i p = false -> best_of (S i) l (better i p best) best' -> best_of i (p :: l) best best'.
Proof.
  intros Hs H. destruct (better_cases i p best) as (j0 & b0 & E & Hjb & Hp & Hb). rewrite E in H.
  unfold best_of in *. destruct best' as [[j b]|]; [|by destruct H].
  destruct H as (H1 & H2 & H3). specialize (H3 j0 b0 eq_refl). split_and!.
  - destruct H1 as [[= -> ->]|(k & q & -> & Hk & Hq & ->)].
    + destruct Hjb as [->|[-> ->]]; [by left|right]. exists O, p. rewrite Nat.add_0_r. by split_and!.
    + right. exists (S k), q. rewrite Nat.add_succ_r. by split_and!.
  - intros [|k] q; cbn; [rewrite Nat.add_0_r; intros [= <-]; lia|]. rewrite Nat.add_succ_r. apply H2.
  - intros j1 b1 E1. specialize (Hb j1 b1 E1). lia.
Qed.

Lemma get_peer_loop_spec i best total l :
  exists best', get_peer_loop now check_down t i best total l
      = (raised i l, best', total + esum (fun _ => effective_weight) i l)
    /\ best_of i l best best'.
Proof.
  revert i best total. induction l as [|p l IH]; intros i best total.
  { exists best. cbn. split; [by rewrite Z.add_0_r|]. destruct best as [[j b]|]; cbn; [|done].
    split_and!; [by left|done|]. intros ? ? [= <- <-]. lia. }
  cbn [get_peer_loop raised esum]. destruct (skip i p) eqn:Hs.
  - destruct (IH (S i) best total) as (best' & -> & H). exists best'. split; [done|by apply best_of_skip].
  - rewrite raise_weight_cw. fold (better i p best).
    destruct (IH (S i) (better i p best) (total + effective_weight p)) as (best' & E & H).
    exists best'. rewrite E. split; [f_equal; lia|by apply best_of_take].
Qed.

Lemma raised_lookup i l k : raised i l !! k = (fun p => if skip (i + k) p then p else raise_weight p) <$> l !! k.
Proof.
  revert i k. induction l as [|p l IH]; intros i [|k]; cbn; [done..|by rewrite Nat.add_0_r|].
  rewrite IH. by rewrite Nat.add_succ_r.
Qed.

End Loop.

(** ** The chosen server *)

(** A server a request may be sent to. *)
Definition available (now : Z) (check_down : Z -> bool) (t : list Z) (i : nat) (p : rr_peer) : Prop :=
  is_tried t i = false /\ rr_down p = 0 /\ check_down (check_index p) = false
  /\ (max_fails p = 0 \/ fails p < max_fails p \/ fail_timeout p < now - rr_checked p)
  /\ (max_conns p = 0 \/ conns p < max_conns p).

Lemma skipped_available now cd t i p : skipped now cd t i p = false <-> available now cd t i p.
Proof.
  unfold skipped, available. rewrite !orb_false_iff, !andb_false_iff, !negb_false_iff.
  rewrite !Z.eqb_eq, !Z.leb_gt. tauto.
Qed.

Lemma get_peer_spec now cd t l :
  let '(r, t', l') := get_peer now cd t l in
  match r with
  | None => t' = t /\ l' = l /\ forall i p, l !! i = Some p -> ~ available now cd t i p
  | Some i =>
    t' = set_tried t i
    /\ (exists p, l !! i = Some p /\ available now cd t i p
        /\ (forall k q, l !! k = Some q -> available now cd t k q -> bid q <= bid p))
    /\ forall k, l' !! k = (fun p =>
         let q := if skipped now cd t k p then p else raise_weight p in
         if bool_decide (k = i) then
           let b := q <| current_weight := current_weight q - esum now cd t (fun _ => effective_weight) 0 l |> in
           if fail_timeout b <? now - rr_checked b then b <| rr_checked := now |> else b
         else q) <$> l !! k
  end.
Proof.
  unfold get_peer. destruct (get_peer_loop_spec now cd t 0 None 0 l) as (best & -> & Hb).
  destruct best as [[j b]|]; cbn in Hb.
  - destruct Hb as ([?|(k & p & -> & Hk & Hs & ->)] & Hmax & _); [done|]. cbn [Nat.add] in *. split; [done|]. split.
    + exists p. split; [done|]. split; [by apply skipped_available|].
      intros i q Hq Ha%skipped_available. by apply (Hmax i q).
    + intros i. rewrite list_lookup_alter.
      destruct (decide (k = i)) as [->|Hne].
      * rewrite bool_decide_eq_true_2, raised_lookup by done. by destruct (l !! i).
      * rewrite bool_decide_eq_false_2 by done. by rewrite raised_lookup.
  - destruct Hb as [_ Hall]. cbn [Nat.add] in Hall. split; [done|]. split.
    + apply list_eq. intros i. rewrite raised_lookup. cbn [Nat.add]. destruct (l !! i) as [p|] eqn:E; [|done].
      cbn. by rewrite (Hall i p E).
    + intros i p Hp Ha%skipped_available. by rewrite (Hall i p Hp) in Ha.
Qed.

(** ** One request *)

(** A server of a group that a fresh request may be sent to; the only server
    of a group is used whatever its failures. *)
Definition usable (now : Z) (check_down : Z -> bool) (ps : rr_peers) (p : rr_peer) : Prop :=
  rr_down p = 0 /\ check_down (check_index p) = false
  /\ (single ps = true \/ max_fails p = 0 \/ fails p < max_fails p \/ fail_timeout p < now - rr_checked p)
  /\ (max_conns p = 0 \/ conns p < max_conns p).

Definition group_wf (ps : rr_peers) : Prop := single ps = true -> length (rr_list ps) = 1%nat.

Definition all_clear (t : list Z) : Prop := forall i, is_tried t i = false.

Lemma clear_words n rest : Forall (fun w => w = 0) rest -> all_clear (replicate n 0 ++ rest).
Proof.
  intros Hr i. unfold is_tried. replace (nth (i / WORD) (replicate n 0 ++ rest) 0) with 0; [done|].
  destruct (nth_in_or_default (i / WORD) (replicate n 0 ++ rest) 0) as [Hin|E]; [|done].
  apply list_elem_of_In, elem_of_app in Hin as [Hin|Hin]; [by apply elem_of_replicate in Hin as [-> _]|].
  rewrite Forall_forall in Hr. symmetry. by apply Hr.
Qed.

Lemma fresh_clear us : all_clear (tried (init_round_robin_peer us)).
Proof.
  unfold init_round_robin_peer. cbn [tried]. destruct (_ <=? 64).
  - apply (clear_words 1 []). constructor.
  - rewrite <- (app_nil_r (replicate _ 0)). apply clear_words. constructor.
Qed.

Lemma get_group_spec now cd ps t :
  group_wf ps -> all_clear t ->
  exists r t' ps', get_group now cd ps t = Some (r, t', ps')
    /\ match r with
       | Some i => exists p, rr_list ps !! i = Some p /\ usable now cd ps p
       | None => t' = t /\ forall p, p ∈ rr_list ps -> ~ usable now cd ps p
       end.
Proof.
  intros Hw Ht. unfold get_group. destruct (single ps) eqn:Hs.
  - specialize (Hw Hs). destruct (rr_list ps) as [|p [|q l]] eqn:El; try done. cbn [hd_error mbind option_bind].
    destruct (_ || _) eqn:E; cbn beta iota; eexists _, _, _; (split; [reflexivity|]).
    + split; [done|]. intros q Hq. apply list_elem_of_singleton in Hq as ->. unfold usable.
      rewrite !orb_true_iff, andb_true_iff, !negb_true_iff, !Z.eqb_neq, Z.leb_le in E.
      intros (? & H2 & _ & ?). rewrite H2 in E. lia.
    + exists p. split; [done|]. unfold usable. rewrite !orb_false_iff, andb_false_iff, !negb_false_iff in E.
      rewrite !Z.eqb_eq, Z.leb_gt in E. tauto.
  - cbn [mbind option_bind]. pose proof (get_peer_spec now cd t (rr_list ps)) as H.
    destruct (get_peer now cd t (rr_list ps)) as [[r t'] l']. destruct r as [i|].
    + destruct H as (_ & (p & Hp & Ha & _) & _). eexists _, _, _. split; [reflexivity|]. exists p. split; [done|].
      destruct Ha as (_ & ? & ? & ? & ?). unfold usable. tauto.
    + destruct H as (-> & -> & H). eexists _, _, _. split; [reflexivity|]. split; [done|].
      intros p [i Hi]%list_elem_of_lookup Hu. apply (H i p Hi).
      destruct Hu as (? & ? & [?|?] & ?); [congruence|]. split_and!; [apply Ht|tauto..].
Qed.

Lemma get_backup_spec now cd rrp us bs :
  backup us = Some bs -> group_wf bs -> all_clear (tried rrp) ->
  exists rc rrp' us', get_backup now cd rrp us = Some (rc, rrp', us') /\ on_backup rrp' = on_backup rrp
    /\ ((rc = NGX_OK /\ exists i p, current rrp' = Some i /\ rr_list bs !! i = Some p /\ usable now cd bs p)
        \/ rc = NGX_BUSY /\ forall p, p ∈ rr_list bs -> ~ usable now cd bs p).
Proof.
  intros Eb Hw Hc. unfold get_backup. rewrite Eb. cbn [mbind option_bind].
  destruct (get_group_spec now cd bs _ Hw Hc) as (r & t & bs' & E & Hr). rewrite (bind_some _ _ _ E). cbn beta iota.
  destruct r as [i|]; eexists _, _, _; (split; [reflexivity|]); (split; [done|]).
  - left. split; [done|]. destruct Hr as (p & ? & ?). by exists i, p.
  - right. split; [done|]. apply Hr.
Qed.

Lemma request_usable now check_down us :
  group_wf (primary us) -> (forall bs, backup us = Some bs -> group_wf bs) ->
  exists rc rrp us', get_round_robin_peer now check_down (init_round_robin_peer us) us = Some (rc, rrp, us')
    /\ ((rc = NGX_OK /\ on_backup rrp = false
         /\ exists i p, current rrp = Some i /\ rr_list (primary us) !! i = Some p
              /\ usable now check_down (primary us) p)
        \/ (forall p, p ∈ rr_list (primary us) -> ~ usable now check_down (primary us) p)
           /\ ((rc = NGX_OK /\ on_backup rrp = true
                /\ exists bs i p, backup us = Some bs /\ current rrp = Some i /\ rr_list bs !! i = Some p
                     /\ usable now check_down bs p)
               \/ rc = NGX_BUSY
                  /\ forall bs p, backup us = Some bs -> p ∈ rr_list bs -> ~ usable now check_down bs p)).
Proof.
  intros Hw Hb. unfold get_round_robin_peer. cbn [on_backup init_round_robin_peer]. cbv zeta.
  destruct (get_group_spec now check_down (primary us) (tried (init_round_robin_peer us)) Hw (fresh_clear us))
    as (r & t & ps & E & Hr).
  rewrite (bind_some _ _ _ E). cbn beta iota. change (backup (us <| primary := ps |>)) with (backup us).
  destruct r as [i|].
  { eexists _, _, _. split; [reflexivity|]. left. destruct Hr as (p & ? & ?).
    split; [done|]. split; [done|]. by exists i, p. }
  destruct Hr as [-> Hnone]. destruct (backup us) as [bs|] eqn:Eb; cycle 1.
  { eexists _, _, _. split; [reflexivity|]. right. split; [done|]. right. split; [done|]. by intros bs p. }
  match goal with |- context [get_backup _ _ ?x ?y] =>
    destruct (get_backup_spec now check_down x y bs) as (rc & rrp & us' & E' & Hon & Hr) end.
  { done. }
  { by apply Hb. }
  { apply clear_words, Forall_drop. cbn [tried upd]. unfold init_round_robin_peer. cbn [tried].
    destruct (_ <=? 64); [by repeat constructor|by apply Forall_replicate]. }
  eexists _, _, _. split; [exact E'|]. right. split; [done|]. destruct Hr as [[-> Hr]|[-> Hr]].
  - left. split; [done|]. split; [done|]. destruct Hr as (i & p & Hr). by exists bs, i, p.
  - right. split; [done|]. intros bs0 p [= <-]. apply Hr.
Qed.

(** C22: the servers a request is sent to.  A new request to an upstream gets
    a server of the upstream that is not marked down in the configuration nor
    by the health checker, has not failed too often lately and is below its
    connection limit, if there is one; a backup server of that kind only if
    no server of the upstream qualifies; and [NGX_BUSY] exactly when no server
    and no backup server qualifies. *)
Theorem request_gets_usable_server now check_down us :
  group_wf (primary us) -> (forall bs, backup us = Some bs -> group_wf bs) ->
  exists rc rrp us', get_round_robin_peer now check_down (init_round_robin_peer us) us = Some (rc, rrp, us')
    /\ ((rc = NGX_OK /\ on_backup rrp = false
         /\ exists i p, current rrp = Some i /\ rr_list (primary us) !! i = Some p
              /\ usable now check_down (primary us) p)
        \/ (forall p, p ∈ rr_list (primary us) -> ~ usable now check_down (primary us) p)
           /\ ((rc = NGX_OK /\ on_backup rrp = true
                /\ exists bs i p, backup us = Some bs /\ current rrp = Some i /\ rr_list bs !! i = Some p
                     /\ usable now check_down bs p)
               \/ rc = NGX_BUSY
                  /\ forall bs p, backup us = Some bs -> p ∈ rr_list bs -> ~ usable now check_down bs p)).
Proof. apply request_usable. Qed.

(** ** Fairness *)

(** Sums over the servers with a property. *)
Fixpoint hsum (h : rr_peer -> bool) (f : nat -> rr_peer -> Z) (i : nat) (l : list rr_peer) : Z :=
  match l with
  | [] => 0
  | p :: l' => (if h p then f i p else 0) + hsum h f (S i) l'
  end.

Lemma hsum_lin h f g a b i l :
  hsum h (fun j p => a * f j p + b * g j p) i l = a * hsum h f i l + b * hsum h g i l.
Proof. revert i. induction l as [|p l IH]; intros i; cbn; [lia|]. rewrite IH. destruct (h p); lia. Qed.

Lemma hsum_le h f g i l :
  (forall k p, l !! k = Some p -> h p = true -> f (i + k)%nat p <= g (i + k)%nat p) ->
  hsum h f i l <= hsum h g i l.
Proof.
  revert i. induction l as [|p l IH]; intros i H; cbn; [lia|].
  assert (hsum h f (S i) l <= hsum h g (S i) l).
  { apply IH. intros k q Hq. specialize (H (S k) q Hq). by rewrite Nat.add_succ_r in H. }
  specialize (H O p eq_refl). rewrite Nat.add_0_r in H. destruct (h p); [specialize (H eq_refl)|]; lia.
Qed.

(** Pointwise below with the same sum is pointwise equal. *)
Lemma hsum_eq h f g i l :
  (forall k p, l !! k = Some p -> h p = true -> f (i + k)%nat p <= g (i + k)%nat p) ->
  hsum h f i l = hsum h g i l ->
  forall k p, l !! k = Some p -> h p = true -> f (i + k)%nat p = g (i + k)%nat p.
Proof.
  revert i. induction l as [|p l IH]; intros i H E; [done|]. cbn in E.
  assert (H' : forall k q, l !! k = Some q -> h q = true -> f (S i + k)%nat q <= g (S i + k)%nat q).
  { intros k q Hq. specialize (H (S k) q Hq). by rewrite Nat.add_succ_r in H. }
  pose proof (hsum_le h f g (S i) l H') as Hle.
  pose proof (H O p eq_refl) as H0. rewrite Nat.add_0_r in H0.
  intros [|k] q; cbn.
  - intros [= <-] Hh. rewrite Nat.add_0_r, Hh in *. specialize (H0 eq_refl). lia.
  - intros Hq Hh. rewrite Nat.add_succ_r. apply (IH (S i) H'); [|done|done].
    destruct (h p); [specialize (H0 eq_refl)|]; lia.
Qed.

Lemma hsum_pick h i j l p :
  l !! j = Some p -> h p = true -> hsum h (fun k _ => if bool_decide (k = i + j)%nat then 1 else 0) i l = 1.
Proof.
  assert (Hz : forall l i m, (m < i)%nat -> hsum h (fun k _ => if bool_decide (k = m) then 1 else 0) i l = 0).
  { clear. induction l as [|p l IH]; intros i m Hm; cbn; [done|]. rewrite IH by lia.
    rewrite bool_decide_eq_false_2 by lia. by destruct (h p). }
  revert i j. induction l as [|q l IH]; intros i [|j]; cbn; [done..| |].
  - intros [= ->] ->. rewrite Nat.add_0_r, bool_decide_eq_true_2 by done. rewrite Hz by lia. lia.
  - intros Hj Hh. rewrite bool_decide_eq_false_2 by lia. replace (i + S j)%nat with (S i + j)%nat by lia.
    rewrite (IH (S i) j Hj Hh). by destruct (h q).
Qed.

(** How often position [i] was chosen. *)
Definition count (i : nat) (chosen : list nat) : Z := Z.of_nat (length (filter (fun j => i = j) chosen)).

Lemma count_snoc i chosen j : count i (chosen ++ [j]) = count i chosen + if bool_decide (i = j) then 1 else 0.
Proof.
  unfold count. rewrite filter_app, length_app, filter_cons, filter_nil.
  destruct (decide (i = j)); [rewrite bool_decide_eq_true_2 by done|rewrite bool_decide_eq_false_2 by done]; cbn; lia.
Qed.

Lemma count_none i chosen : i ∉ chosen -> count i chosen = 0.
Proof.
  intros H. unfold count. destruct (filter (fun j => i = j) chosen) as [|j l] eqn:E; [done|]. exfalso.
  assert (Hj : j ∈ filter (fun j => i = j) chosen) by (rewrite E; left).
  apply list_elem_of_filter in Hj as [-> Hj]. done.
Qed.

Lemma hsum_count h l chosen :
  Forall (fun i => exists p, l !! i = Some p /\ h p = true) chosen ->
  hsum h (fun i _ => count i chosen) 0 l = Z.of_nat (length chosen).
Proof.
  induction chosen as [|j chosen IH] using rev_ind; intros H.
  - cbn. enough (forall i, hsum h (fun i _ => count i []) i l = 0) as -> by done.
    clear. induction l as [|p l IH]; intros i; cbn; [done|]. rewrite IH. by destruct (h p).
  - apply Forall_app in H as [H (p & Hp & Hh)%Forall_singleton]. rewrite length_app. cbn [length].
    transitivity (1 * hsum h (fun i _ => count i chosen) 0 l
                  + 1 * hsum h (fun k _ => if bool_decide (k = 0 + j)%nat then 1 else 0) 0 l).
    + rewrite <- hsum_lin.
      enough (forall f g i, (forall k p, f k p = g k p) -> hsum h f i l = hsum h g i l) as Hext.
      { apply Hext. intros k q. rewrite count_snoc. cbn [Nat.add]. lia. }
      clear. intros f g i H. revert i. induction l as [|p l IH]; intros i; cbn; [done|]. by rewrite H, IH.
    + rewrite (hsum_pick h 0 j l p), IH by done. lia.
Qed.

Section Fair.
Context (check_down : Z -> bool).

Definition healthy (p : rr_peer) : bool := (rr_down p =? 0) && negb (check_down (check_index p)).

(** New requests, one after the other, at the given times, each choosing a
    server of the upstream itself; [None] when one does not. *)
Fixpoint requests (times : list Z) (us : rr_upstream) : option (list nat * rr_upstream) :=
  match times with
  | [] => Some ([], us)
  | now :: times' =>
    '(rc, rrp, us) ← get_round_robin_peer now check_down (init_round_robin_peer us) us;
    if bool_decide (rc = NGX_OK) && negb (on_backup rrp) then
      i ← current rrp; '(idxs, us) ← requests times' us; Some (i :: idxs, us)
    else None
  end.

(** A server at its full weight, without failures and connection limit. *)
Definition at_full_weight (p : rr_peer) : Prop :=
  0 <= weight p /\ effective_weight p = weight p /\ fails p = 0 /\ 0 <= max_fails p /\ max_conns p = 0.

(** The healthy weight of the upstream. *)
Definition healthy_weight (l : list rr_peer) : Z := hsum healthy (fun _ => weight) 0 l.

(** The state after [chosen], from the servers [l0] at rest. *)
Record fair_inv (l0 : list rr_peer) (chosen : list nat) (us : rr_upstream) : Prop := {
  fi_single : single (primary us) = false;
  fi_length : length (rr_list (primary us)) = length l0;
  fi_chosen : Forall (fun i => exists p, l0 !! i = Some p /\ healthy p = true) chosen;
  fi_peer i p q : l0 !! i = Some p -> rr_list (primary us) !! i = Some q ->
    at_full_weight q /\ weight q = weight p /\ healthy q = healthy p
    /\ (healthy p = true ->
        current_weight q = Z.of_nat (length chosen) * weight p - healthy_weight l0 * count i chosen
        /\ - healthy_weight l0 < current_weight q)
}.

Lemma full_weight_skipped now t i p :
  at_full_weight p -> all_clear t -> skipped now check_down t i p = negb (healthy p).
Proof.
  intros (_ & _ & Hf & Hm & Hc) Ht. unfold skipped, healthy. rewrite Ht, Hf, Hc. cbn [orb].
  destruct (rr_down p =? 0), (check_down (check_index p)); cbn; try done.
  destruct (Z.eqb_spec (max_fails p) 0); cbn; [done|]. by rewrite (proj2 (Z.leb_gt _ _)) by lia.
Qed.

Lemma raise_full p : at_full_weight p -> raise_weight p = p <| current_weight := bid p |>.
Proof. intros (_ & E & _). unfold raise_weight. rewrite E, Z.ltb_irrefl. unfold bid. by rewrite E. Qed.

(** The total of a round is the healthy weight. *)
Lemma esum_healthy now t l l0 i :
  all_clear t -> length l = length l0 ->
  (forall k p q, l0 !! k = Some p -> l !! k = Some q ->
     at_full_weight q /\ weight q = weight p /\ healthy q = healthy p) ->
  esum now check_down t (fun _ => effective_weight) i l = hsum healthy (fun _ => weight) i l0.
Proof.
  intros Ht. revert l0 i. induction l as [|q l IH]; intros [|p l0] i Hl H; try done.
  cbn [esum hsum]. destruct (H O p q eq_refl eq_refl) as (Hf & Hw & Hh).
  rewrite full_weight_skipped by done. rewrite Hh. rewrite (IH l0 (S i)).
  - destruct (healthy p); cbn; [|done]. destruct Hf as (_ & -> & _). by rewrite Hw.
  - cbn in Hl. lia.
  - intros k p' q' Hp Hq. by apply (H (S k)).
Qed.

Lemma hsum_pos h f i l : 0 < hsum h f i l -> exists k p, l !! k = Some p /\ h p = true.
Proof.
  revert i. induction l as [|p l IH]; intros i; cbn; [lia|]. destruct (h p) eqn:E.
  - intros _. by exists O, p.
  - intros H. destruct (IH (S i)) as (k & q & ? & ?); [lia|]. by exists (S k), q.
Qed.

Lemma hsum_zero h i l : hsum h (fun _ _ => 0) i l = 0.
Proof. revert i. induction l as [|p l IH]; intros i; cbn; [done|]. rewrite IH. by destruct (h p). Qed.

(** The best bid of a round is positive. *)
Lemma best_bid_pos l0 chosen us i q :
  0 < healthy_weight l0 -> fair_inv l0 chosen us ->
  (forall k p r, l0 !! k = Some p -> rr_list (primary us) !! k = Some r -> healthy p = true -> bid r <= bid q) ->
  rr_list (primary us) !! i = Some q -> 0 < bid q.
Proof.
  intros HW [Hs Hl Hch Hp] Hmax Hq. destruct (Z.lt_ge_cases 0 (bid q)) as [|Hle]; [done|exfalso].
  pose proof (hsum_le healthy (fun k p => (Z.of_nat (length chosen) + 1) * weight p + - healthy_weight l0 * count k chosen)
    (fun _ _ => 0) 0 l0) as H.
  rewrite hsum_lin, hsum_zero, hsum_count in H by done. fold (healthy_weight l0) in H.
  assert ((Z.of_nat (length chosen) + 1) * healthy_weight l0 + - healthy_weight l0 * Z.of_nat (length chosen) <= 0);
    [|lia].
  apply H. intros k p Hk Hh. cbn [Nat.add].
  destruct (rr_list (primary us) !! k) as [r|] eqn:Er.
  2: { apply lookup_ge_None in Er. apply lookup_lt_Some in Hk. lia. }
  destruct (Hp k p r Hk Er) as ((_ & Hew & _) & Hw & _ & Hcw). destruct (Hcw Hh) as [Hcw' _].
  specialize (Hmax k p r Hk Er Hh). unfold bid in Hmax at 1. rewrite Hew, Hw, Hcw' in Hmax. lia.
Qed.

Lemma lookup_same_length {A B} (l' : list B) (l : list A) (f : nat -> A -> B) :
  (forall k, l' !! k = f k <$> l !! k) -> length l' = length l.
Proof.
  intros H. apply Nat.le_antisymm; apply Nat.nlt_ge; intros Hlt.
  - apply lookup_lt_is_Some in Hlt as [x Hx]. rewrite H, (proj2 (lookup_ge_None l (length l))) in Hx by lia. done.
  - pose proof (proj2 (lookup_lt_is_Some l (length l')) Hlt) as [x Hx].
    pose proof (H (length l')) as E. rewrite Hx, (proj2 (lookup_ge_None l' (length l'))) in E by lia. done.
Qed.

Definition add_conn (p : rr_peer) : rr_peer := p <| conns := u64 (conns p + 1) |>.

Lemma get_group_many now cd ps t r t' l' :
  single ps = false -> get_peer now cd t (rr_list ps) = (r, t', l') ->
  get_group now cd ps t
  = Some (r, t', ps <| rr_list := match r with Some i => alter add_conn i l' | None => l' end |>).
Proof. intros Hs E. unfold get_group. rewrite Hs, E. cbn [mbind option_bind]. by destruct r. Qed.

Lemma keep_full q r :
  (effective_weight r, weight r, fails r, max_fails r, max_conns r)
  = (effective_weight q, weight q, fails q, max_fails q, max_conns q) ->
  at_full_weight q -> at_full_weight r.
Proof. intros [= E1 E2 E3 E4 E5]. unfold at_full_weight. by rewrite E1, E2, E3, E4, E5. Qed.

(** In a round the available servers are the healthy ones. *)
Lemma available_healthy l0 chosen us now t k p q :
  fair_inv l0 chosen us -> all_clear t -> l0 !! k = Some p -> rr_list (primary us) !! k = Some q ->
  available now check_down t k q <-> healthy p = true.
Proof.
  intros [_ _ _ Hp] Ht Hk Hq. destruct (Hp k p q Hk Hq) as (Hf & _ & <- & _).
  rewrite <- skipped_available, full_weight_skipped by done. by destruct (healthy q).
Qed.

(** What a round does to one server: the chosen one pays the healthy weight. *)
Definition round_peer (now W : Z) (won : bool) (q : rr_peer) : rr_peer :=
  let q := if healthy q then q <| current_weight := bid q |> else q in
  if won then
    let b := q <| current_weight := current_weight q - W |> in
    if fail_timeout b <? now - rr_checked b then b <| rr_checked := now |> else b
  else q.

(** A round: the chosen server is healthy and has a positive bid. *)
Lemma fair_round l0 chosen us now t r t' l' :
  0 < healthy_weight l0 -> fair_inv l0 chosen us -> all_clear t ->
  get_peer now check_down t (rr_list (primary us)) = (r, t', l') ->
  exists i p q, r = Some i /\ l0 !! i = Some p /\ rr_list (primary us) !! i = Some q /\ healthy p = true
    /\ 0 < bid q
    /\ forall k, l' !! k = round_peer now (healthy_weight l0) (bool_decide (k = i)) <$> rr_list (primary us) !! k.
Proof.
  intros HW Hinv Ht Eg. pose proof Hinv as [Hs Hl Hch Hp].
  pose proof (get_peer_spec now check_down t (rr_list (primary us))) as H. rewrite Eg in H.
  assert (Hlk : forall k q, rr_list (primary us) !! k = Some q -> exists p, l0 !! k = Some p).
  { intros k q Hq. apply lookup_lt_is_Some. rewrite <- Hl. by apply lookup_lt_Some in Hq. }
  destruct r as [i|]; cycle 1.
  { exfalso. destruct H as (_ & _ & H). destruct (hsum_pos _ _ _ _ HW) as (k & p & Hk & Hh).
    destruct (lookup_lt_is_Some_2 (rr_list (primary us)) k) as [q Hq]; [rewrite Hl; by apply lookup_lt_Some in Hk|].
    apply (H k q Hq). by apply (available_healthy l0 chosen us now t k p q). }
  destruct H as (_ & (q & Hq & Ha & Hmax) & Hl'). destruct (Hlk i q Hq) as [p Hpi].
  exists i, p, q. split_and!; [done..|by apply (available_healthy l0 chosen us now t i p q)| |].
  - apply (best_bid_pos l0 chosen us i q HW Hinv); [|done]. intros k p' r Hk Hr Hh'.
    apply (Hmax k r Hr). by apply (available_healthy l0 chosen us now t k p' r).
  - intros k. rewrite Hl', (esum_healthy now t _ l0 0 Ht Hl); cycle 1.
    { intros j p' q' Hj Hq'. by destruct (Hp j p' q' Hj Hq') as (? & ? & ? & _). }
    destruct (rr_list (primary us) !! k) as [q'|] eqn:Eq'; [|done]. destruct (Hlk k q' Eq') as [p' Hk].
    destruct (Hp k p' q' Hk Eq') as (Hf & _). cbn [fmap option_fmap option_map]. f_equal.
    rewrite full_weight_skipped by done. unfold round_peer.
    destruct (healthy q'); cbn [negb]; [rewrite raise_full by done|]; by destruct (bool_decide _).
Qed.

(** One server after a round. *)
Lemma round_peer_inv now W n c won p q :
  at_full_weight q -> weight q = weight p -> healthy q = healthy p ->
  (healthy p = true -> current_weight q = n * weight p - W * c /\ - W < current_weight q) ->
  (won = true -> healthy p = true /\ 0 < bid q) ->
  let r := round_peer now W won q in
  at_full_weight r /\ weight r = weight p /\ healthy r = healthy p
  /\ (healthy p = true ->
      current_weight r = (n + 1) * weight p - W * (c + if won then 1 else 0) /\ - W < current_weight r).
Proof.
  intros Hf Hw Hh Hcw Hwon r. assert (Hb : bid q = current_weight q + weight p).
  { unfold bid. destruct Hf as (_ & -> & _). by rewrite Hw. }
  assert (0 <= weight p) by (destruct Hf as [? _]; lia).
  unfold r, round_peer. rewrite Hh. destruct won.
  - destruct (Hwon eq_refl) as [E Hpos]. destruct (Hcw E) as [Hc _]. rewrite E in Hh |- *.
    destruct (_ <? _); (split; [by apply (keep_full q)|]); (split; [done|]); (split; [rewrite <- Hh; done|]); intros _;
      cbn [current_weight upd]; lia.
  - destruct (healthy p) eqn:E.
    + destruct (Hcw eq_refl) as [Hc ?]. split; [by apply (keep_full q)|]. split; [done|]. split; [done|].
      intros _. cbn [current_weight upd]. lia.
    + by split_and!.
Qed.

Lemma fair_step l0 chosen us now :
  0 < healthy_weight l0 -> fair_inv l0 chosen us ->
  exists i rrp us', get_round_robin_peer now check_down (init_round_robin_peer us) us = Some (NGX_OK, rrp, us')
    /\ on_backup rrp = false /\ current rrp = Some i /\ fair_inv l0 (chosen ++ [i]) us'.
Proof.
  intros HW Hinv. pose proof Hinv as [Hs Hl Hch Hp].
  set (t := tried (init_round_robin_peer us)).
  destruct (get_peer now check_down t (rr_list (primary us))) as [[r t'] l'] eqn:Eg.
  destruct (fair_round l0 chosen us now t r t' l' HW Hinv (fresh_clear us) Eg)
    as (i & p & q & -> & Hpi & Hq & Hh & Hpos & Hl').
  unfold get_round_robin_peer. cbn [on_backup init_round_robin_peer]. fold t.
  rewrite (bind_some _ _ _ (get_group_many now check_down (primary us) t (Some i) t' l' Hs Eg)). cbn beta iota.
  eexists i, _, _. split; [reflexivity|]. split; [done|]. split; [done|]. split; cbn [primary rr_list single upd].
  - done.
  - rewrite length_alter, (lookup_same_length l' (rr_list (primary us)) _ Hl'). done.
  - apply Forall_app. split; [done|]. apply Forall_singleton. by exists p.
  - intros k p' r Hk Hr. rewrite length_app, Nat2Z.inj_add, count_snoc. cbn [length].
    destruct (rr_list (primary us) !! k) as [q'|] eqn:Eq'; cycle 1.
    { apply lookup_ge_None in Eq'. apply lookup_lt_Some in Hk. lia. }
    destruct (Hp k p' q' Hk Eq') as (Hf & Hw & Hh' & Hcw).
    assert (Hwon : bool_decide (k = i) = true -> healthy p' = true /\ 0 < bid q').
    { intros ->%bool_decide_eq_true. rewrite Hpi in Hk. rewrite Hq in Eq'. by simplify_eq. }
    pose proof (round_peer_inv now (healthy_weight l0) (Z.of_nat (length chosen)) (count k chosen)
      (bool_decide (k = i)) p' q' Hf Hw Hh' Hcw Hwon) as H. cbn zeta in H.
    rewrite list_lookup_alter in Hr. destruct (decide (i = k)) as [<-|Hne]; rewrite Hl', Eq' in Hr;
      cbn [fmap option_fmap option_map] in Hr; injection Hr as <-; exact H.
Qed.

Lemma requests_inv l0 times chosen us :
  0 < healthy_weight l0 -> fair_inv l0 chosen us ->
  exists idxs us', requests times us = Some (idxs, us') /\ length idxs = length times
    /\ fair_inv l0 (chosen ++ idxs) us'.
Proof.
  intros HW. revert chosen us. induction times as [|now times IH]; intros chosen us Hi; cbn [requests].
  { exists [], us. by rewrite app_nil_r. }
  destruct (fair_step l0 chosen us now HW Hi) as (i & rrp & us1 & E & Eb & Ec & H1).
  rewrite (bind_some _ _ _ E). cbn beta iota. rewrite bool_decide_eq_true_2, Eb by done. cbn [andb negb].
  rewrite (bind_some _ _ _ Ec). destruct (IH _ _ H1) as (idxs & us2 & E2 & Hl & H2). rewrite (bind_some _ _ _ E2).
  exists (i :: idxs), us2. split; [done|]. split; [cbn; lia|]. by rewrite <- app_assoc in H2.
Qed.

Lemma fair_start us :
  single (primary us) = false ->
  Forall (fun p => at_full_weight p /\ current_weight p = 0) (rr_list (primary us)) ->
  0 < healthy_weight (rr_list (primary us)) -> fair_inv (rr_list (primary us)) [] us.
Proof.
  intros Hs Hr HW. split; [done|done|constructor|]. intros i p q Hp Hq. rewrite Hp in Hq. injection Hq as <-.
  rewrite Forall_forall in Hr. destruct (Hr p) as [Hf Hc]; [by eapply list_elem_of_lookup_2|].
  split; [done|]. split; [done|]. split; [done|]. intros _. rewrite Hc. unfold count. cbn [filter list_filter length].
  lia.
Qed.

(** After as many requests as the healthy weight every server had its share. *)
Lemma fair_share l0 chosen us :
  0 < healthy_weight l0 -> fair_inv l0 chosen us -> Z.of_nat (length chosen) = healthy_weight l0 ->
  forall i p, l0 !! i = Some p -> healthy p = true -> count i chosen = weight p.
Proof.
  intros HW [Hs Hl Hch Hp] Hn i p Hi Hh.
  apply (hsum_eq healthy (fun i _ => count i chosen) (fun _ => weight) 0 l0); [| |done|done].
  - intros k q Hk Hq. cbn [Nat.add].
    destruct (lookup_lt_is_Some_2 (rr_list (primary us)) k) as [r Hr].
    { rewrite Hl. by apply lookup_lt_Some in Hk. }
    destruct (Hp k q r Hk Hr) as (_ & _ & _ & Hc). destruct (Hc Hq) as [-> Hlow]. rewrite Hn in Hlow. nia.
  - rewrite hsum_count by done. rewrite Hn. done.
Qed.

End Fair.

(** C21: weighted round robin is fair to the healthy servers.  Take an upstream
    with several servers at their full weight, without failures and connection
    limits, with current weights 0, and let [W > 0] be the sum of the weights
    of the servers that are neither marked down nor taken down by the health
    checker.  Then [W] consecutive new requests, whenever they come, are all
    served by the upstream itself, every healthy server gets exactly as many
    of them as its weight, no other server gets any, and the current weights
    are 0 again. *)
Theorem round_robin_fair check_down us times :
  single (primary us) = false ->
  Forall (fun p => at_full_weight p /\ current_weight p = 0) (rr_list (primary us)) ->
  0 < healthy_weight check_down (rr_list (primary us)) ->
  Z.of_nat (length times) = healthy_weight check_down (rr_list (primary us)) ->
  exists idxs us', requests check_down times us = Some (idxs, us')
    /\ forall i p, rr_list (primary us) !! i = Some p ->
       count i idxs = (if healthy check_down p then weight p else 0)
       /\ exists q, rr_list (primary us') !! i = Some q /\ (healthy check_down p = true -> current_weight q = 0).
Proof.
  intros Hs Hr HW Hn. destruct (requests_inv check_down _ times [] us HW (fair_start check_down us Hs Hr HW))
    as (idxs & us' & E & Hl & Hi). cbn [app] in Hi.
  exists idxs, us'. split; [done|]. intros i p Hp. rewrite <- Hl in Hn.
  pose proof (fair_share check_down _ idxs us' HW Hi Hn i p Hp) as Hc. destruct Hi as [_ Hlen Hch Hq].
  destruct (lookup_lt_is_Some_2 (rr_list (primary us')) i) as [q Eq].
  { rewrite Hlen. by apply lookup_lt_Some in Hp. }
  destruct (healthy check_down p) eqn:Hh.
  - rewrite Hc by done. split; [done|]. exists q. split; [done|]. intros _.
    destruct (Hq i p q Hp Eq) as (_ & _ & _ & Hcw). destruct (Hcw Hh) as [-> _]. rewrite Hc, Hn by done. lia.
  - split; [|by exists q]. apply count_none. intros Hin. rewrite Forall_forall in Hch.
    destruct (Hch i Hin) as (p' & Hp' & Hh'). congruence.
Qed.

(** Three servers of weights 3, 1 and 2; the health checker has taken the
    second one down. *)
Definition ex_rr (w idx : Z) : rr_peer := mk_rr ex_addr (s2b "s") 0 w w 0 0 0 0 0 1 10 idx 0.

Definition ex_rr_us : rr_upstream :=
  mk_rr_upstream (mk_rr_peers 3 6 false true (s2b "u") [ex_rr 3 0; ex_rr 1 1; ex_rr 2 2]) None.

Definition ex_check_down (idx : Z) : bool := idx =? 1.

Example ex_rr_order :
  fst <$> requests ex_check_down [100; 101; 102; 103; 104] ex_rr_us = Some [0; 2; 0; 2; 0]%nat.
Proof. vm_compute. reflexivity. Qed.

Lemma round_robin_fair_witness :
  exists idxs us', requests ex_check_down [100; 101; 102; 103; 104] ex_rr_us = Some (idxs, us')
    /\ forall i p, rr_list (primary ex_rr_us) !! i = Some p ->
       count i idxs = (if healthy ex_check_down p then weight p else 0)
       /\ exists q, rr_list (primary us') !! i = Some q /\ (healthy ex_check_down p = true -> current_weight q = 0).
Proof.
  apply (round_robin_fair ex_check_down ex_rr_us [100; 101; 102; 103; 104]).
  - reflexivity.
  - repeat constructor; discriminate.
  - reflexivity.
  - reflexivity.
Defined.

Lemma request_gets_usable_server_witness :
  exists rc rrp us', get_round_robin_peer 100 ex_check_down (init_round_robin_peer ex_rr_us) ex_rr_us
      = Some (rc, rrp, us')
    /\ ((rc = NGX_OK /\ on_backup rrp = false
         /\ exists i p, current rrp = Some i /\ rr_list (primary ex_rr_us) !! i = Some p
              /\ usable 100 ex_check_down (primary ex_rr_us) p)
        \/ (forall p, p ∈ rr_list (primary ex_rr_us) -> ~ usable 100 ex_check_down (primary ex_rr_us) p)
           /\ ((rc = NGX_OK /\ on_backup rrp = true
                /\ exists bs i p, backup ex_rr_us = Some bs /\ current rrp = Some i /\ rr_list bs !! i = Some p
                     /\ usable 100 ex_check_down bs p)
               \/ rc = NGX_BUSY
                  /\ forall bs p, backup ex_rr_us = Some bs -> p ∈ rr_list bs -> ~ usable 100 ex_check_down bs p)).
Proof.
  apply (request_gets_usable_server 100 ex_check_down ex_rr_us).
  - discriminate.
  - discriminate.
Defined.
