(* ===== verification/RoundRobinInit.v ===== *)
(** * Round robin: configuration and weights

    [ngx_http_upstream_init_round_robin] and its stream copy, which register
    the servers with the health checker, and what any sequence of requests
    does to the weights. *)

From S2P Require Import Prelude NgxString StatusLine CheckTypes CheckProto CheckCore CheckSafety CheckWorker.
From S2P Require Import Inet FastCgiRequest CheckConf AddPeer RoundRobin.

(** ** Building the servers of an upstream *)

(** [ngx_http_upstream_server_t] *)
Record rr_server_conf := mk_rr_server {
  sc_name : bytes;
  sc_addrs : list ngx_addr_t;
  sc_weight : Z;
  sc_max_conns : Z;
  sc_max_fails : Z;
  sc_fail_timeout : Z;
  sc_down : Z;
  sc_backup : bool
}.

(** One server address.  [cf] is the check configuration of the upstream;
    allocations succeed (when one fails the configuration is refused). *)
Definition init_rr_peer (cf : option ngx_upstream_check_srv_conf_t) (host : bytes) (sv : rr_server_conf)
    (a : ngx_addr_t) (ps : ngx_upstream_check_peers_t) : option (rr_peer * ngx_upstream_check_peers_t) :=
  '(idx, ps) ← (if sc_down sv =? 0 then add_peer all_allocs cf host a ps else Some (NGX_UINT_ERROR, ps));
  Some (mk_rr a (sc_name sv) 0 (sc_weight sv) (sc_weight sv) 0 (sc_max_conns sv) 0 0 0 (sc_max_fails sv)
          (sc_fail_timeout sv) idx (sc_down sv), ps).

(** The two loops over the servers and their addresses. *)
Fixpoint init_rr_peers (cf : option ngx_upstream_check_srv_conf_t) (host : bytes)
    (l : list (rr_server_conf * ngx_addr_t)) (ps : ngx_upstream_check_peers_t)
    : option (list rr_peer * ngx_upstream_check_peers_t) :=
  match l with
  | [] => Some ([], ps)
  | (sv, a) :: l' =>
    '(p, ps) ← init_rr_peer cf host sv a ps;
    '(rest, ps) ← init_rr_peers cf host l' ps;
    Some (p :: rest, ps)
  end.

Definition server_addrs (bk : bool) (svs : list rr_server_conf) : list (rr_server_conf * ngx_addr_t) :=
  flat_map (fun sv => if bool_decide (sc_backup sv = bk) then (fun a => (sv, a)) <$> sc_addrs sv else []) svs.

(** [n] and [w] of the counting loops. *)
Definition rr_count (l : list (rr_server_conf * ngx_addr_t)) : Z := Z.of_nat (length l).
Definition rr_weights (l : list (rr_server_conf * ngx_addr_t)) : Z :=
  foldr (fun x w => sc_weight (fst x) + w) 0 l.

Definition mk_group (l : list (rr_server_conf * ngx_addr_t)) (is_single : bool) (host : bytes) (ps : list rr_peer)
    : rr_peers :=
  mk_rr_peers (rr_count l) (rr_weights l) is_single (negb (rr_weights l =? rr_count l)) host ps.

(** A server of an implicitly defined upstream. *)
Definition implicit_rr_peer (a : ngx_addr_t) : rr_peer := mk_rr a [] 0 1 1 0 0 0 0 0 1 10 NGX_UINT_ERROR 0.

(** [init_round_robin]: [servers = None] is an upstream made by [proxy_pass],
    for which [us_port] is the port and [resolve] the answer of
    [ngx_inet_resolve_host]. *)
Definition init_round_robin (cf : option ngx_upstream_check_srv_conf_t) (host : bytes)
    (servers : option (list rr_server_conf)) (us_port : Z) (resolve : option (list ngx_addr_t))
    (ps : ngx_upstream_check_peers_t) : option (ngx_rc * option rr_upstream * ngx_upstream_check_peers_t) :=
  match servers with
  | Some svs =>
    let l := server_addrs false svs in
    let b := server_addrs true svs in
    if rr_count l =? 0 then Some (NGX_ERROR, None, ps)
    else
      '(rs, ps) ← init_rr_peers cf host l ps;
      if rr_count b =? 0 then
        Some (NGX_OK, Some (mk_rr_upstream (mk_group l (rr_count l =? 1) host rs) None), ps)
      else
        '(bs, ps) ← init_rr_peers cf host b ps;
        Some (NGX_OK, Some (mk_rr_upstream (mk_group l false host rs) (Some (mk_group b false host bs))), ps)
  | None =>
    if us_port =? 0 then Some (NGX_ERROR, None, ps)
    else
      match resolve with
      | None => Some (NGX_ERROR, None, ps)
      | Some addrs =>
        let n := Z.of_nat (length addrs) in
        Some (NGX_OK, Some (mk_rr_upstream (mk_rr_peers n n (n =? 1) false host (implicit_rr_peer <$> addrs)) None), ps)
      end
  end.

Definition ngx_http_upstream_init_round_robin := init_round_robin.
Definition ngx_stream_upstream_init_round_robin := init_round_robin.

(** ** Servers and health *)

(** The health state a server of the balancer refers to: a registered peer
    with its address, or none. *)
Definition linked (ps : ngx_upstream_check_peers_t) (cf : option ngx_upstream_check_srv_conf_t) (r : rr_peer) : Prop :=
  if (rr_down r =? 0) && is_checked (mk_server cf [] (rr_addr r)) then
    0 <= check_index r < Z.of_nat (length (peers ps))
    /\ exists p, peers ps !! Z.to_nat (check_index r) = Some p /\ peer_addr p = rr_addr r /\ Some (conf p) = cf
  else check_index r = NGX_UINT_ERROR.

Definition extends (ps ps' : ngx_upstream_check_peers_t) : Prop := exists new, peers ps' = peers ps ++ new.

Lemma linked_extends ps ps' cf r : extends ps ps' -> linked ps cf r -> linked ps' cf r.
Proof.
  intros [new E]. unfold linked. destruct (_ && _); [|done]. intros (Hi & p & Hp & H).
  rewrite E, length_app. split; [lia|]. exists p. split; [|done]. by apply lookup_app_l_Some.
Qed.

Definition addr_ok (cf : option ngx_upstream_check_srv_conf_t) (a : ngx_addr_t) : Prop := server_ok (mk_server cf [] a).

(** What one server of the list becomes. *)
Record rr_of (x : rr_server_conf * ngx_addr_t) (r : rr_peer) : Prop := {
  of_addr : rr_addr r = snd x;
  of_server : rr_server r = sc_name (fst x);
  of_down : rr_down r = sc_down (fst x);
  of_weight : weight r = sc_weight (fst x);
  of_limits : max_conns r = sc_max_conns (fst x) /\ max_fails r = sc_max_fails (fst x) /\ fail_timeout r = sc_fail_timeout (fst x);
  of_rest : effective_weight r = sc_weight (fst x) /\ current_weight r = 0 /\ fails r = 0 /\ conns r = 0
}.

Lemma init_rr_peer_spec cf host sv a ps :
  addr_ok cf a ->
  exists r ps', init_rr_peer cf host sv a ps = Some (r, ps') /\ extends ps ps' /\ linked ps' cf r
    /\ rr_of (sv, a) r.
Proof.
  intros Ha. unfold init_rr_peer. destruct (Z.eqb_spec (sc_down sv) 0) as [Hd|Hd].
  - destruct (add_peer_spec (mk_server cf host a) ps) as (i & ps' & E & H).
    { unfold addr_ok, server_ok in *. exact Ha. }
    cbn [sv_conf sv_host sv_addr] in E. rewrite (bind_some _ _ _ E). cbn beta iota.
    eexists _, ps'. split; [reflexivity|]. unfold linked. cbn [rr_down rr_addr check_index].
    rewrite Hd. cbn [Z.eqb andb]. change (is_checked (mk_server cf [] a)) with (is_checked (mk_server cf host a)).
    destruct (is_checked (mk_server cf host a)).
    + destruct H as (-> & (p & Ep & Hp) & _). split; [by exists [p]|]. split; [|by split].
      rewrite Ep, length_app. cbn [length]. split; [lia|]. exists p. rewrite Nat2Z.id.
      split; [by apply list_lookup_middle|]. destruct Hp as (_ & _ & ? & ? & _). done.
    + destruct H as [-> ->]. split; [by exists []; rewrite app_nil_r|]. split; [done|by split].
  - cbn [mbind option_bind]. eexists _, ps. split; [reflexivity|]. split; [by exists []; rewrite app_nil_r|].
    unfold linked. cbn [rr_down rr_addr check_index]. rewrite (proj2 (Z.eqb_neq _ _) Hd). split; [done|by split].
Qed.

Lemma init_rr_peers_spec cf host l ps :
  Forall (fun x => addr_ok cf (snd x)) l ->
  exists rs ps', init_rr_peers cf host l ps = Some (rs, ps') /\ extends ps ps'
    /\ Forall (linked ps' cf) rs /\ Forall2 rr_of l rs.
Proof.
  intros Hl. revert ps. induction Hl as [|[sv a] l Ha _ IH]; intros ps; cbn [init_rr_peers].
  { exists [], ps. split; [done|]. split; [by exists []; rewrite app_nil_r|]. by split. }
  destruct (init_rr_peer_spec cf host sv a ps Ha) as (r & ps1 & E & [n1 E1] & Hlk & Hr).
  rewrite (bind_some _ _ _ E). cbn beta iota.
  destruct (IH ps1) as (rs & ps2 & E2 & [n2 En2] & Hlks & Hrs). rewrite (bind_some _ _ _ E2). cbn beta iota.
  exists (r :: rs), ps2. split; [done|]. split; [exists (n1 ++ n2); by rewrite En2, E1, app_assoc|].
  split; [constructor; [|done]|constructor; [|done]].
  - eapply linked_extends; [|done]. by exists n2.
  - done.
Qed.

(** The numbers of a group. *)
Definition group_of_conf (l : list (rr_server_conf * ngx_addr_t)) (ps : rr_peers) : Prop :=
  number ps = rr_count l /\ total_weight ps = rr_weights l.

Lemma init_round_robin_spec cf host svs us_port resolve ps :
  Forall (fun x => addr_ok cf (snd x)) (server_addrs false svs) ->
  Forall (fun x => addr_ok cf (snd x)) (server_addrs true svs) ->
  server_addrs false svs <> [] ->
  exists us ps', init_round_robin cf host (Some svs) us_port resolve ps = Some (NGX_OK, Some us, ps')
    /\ extends ps ps' /\ group_wf (primary us)
    /\ group_of_conf (server_addrs false svs) (primary us)
    /\ Forall2 rr_of (server_addrs false svs) (rr_list (primary us)) /\ Forall (linked ps' cf) (rr_list (primary us))
    /\ match backup us with
       | Some bs => Forall2 rr_of (server_addrs true svs) (rr_list bs) /\ Forall (linked ps' cf) (rr_list bs)
                    /\ group_wf bs /\ group_of_conf (server_addrs true svs) bs
       | None => server_addrs true svs = []
       end.
Proof.
  intros Hl Hb Hne. unfold init_round_robin, rr_count.
  destruct (Z.eqb_spec (Z.of_nat (length (server_addrs false svs))) 0) as [H0|_].
  { destruct (server_addrs false svs); [done|cbn in H0; lia]. }
  destruct (init_rr_peers_spec cf host _ ps Hl) as (rs & ps1 & E & [n1 En1] & Hlk & Hrs).
  rewrite (bind_some _ _ _ E). cbn beta iota. pose proof (Forall2_length _ _ _ Hrs) as Hlen.
  destruct (Z.eqb_spec (Z.of_nat (length (server_addrs true svs))) 0) as [H0|_].
  - eexists _, ps1. split; [reflexivity|]. cbn [primary backup rr_list mk_group]. split_and!; try done; [by exists n1| |].
    + intros Hs. cbn [single mk_group] in Hs. cbn [rr_list mk_group]. unfold rr_count in Hs. lia.
    + by destruct (server_addrs true svs).
  - destruct (init_rr_peers_spec cf host _ ps1 Hb) as (bs & ps2 & E2 & [n2 En2] & Hlk2 & Hbs).
    rewrite (bind_some _ _ _ E2). cbn beta iota. eexists _, ps2. split; [reflexivity|].
    cbn [primary backup rr_list mk_group]. split_and!; try done.
    + exists (n1 ++ n2). by rewrite En2, En1, app_assoc.
    + eapply Forall_impl; [exact Hlk|]. intros r Hr. eapply linked_extends; [by exists n2|done].
Qed.

(** the load balancer and the health checker agree about the servers.
    For an upstream with at least one server that is not a backup,
    [init_round_robin] succeeds; its servers are the configured addresses in
    order, at rest with their configured weights; and every server that is
    not marked down and whose upstream is checked has the index of a
    registered peer with exactly its address and the check configuration of
    the upstream, while every other server has [(ngx_uint_t) NGX_ERROR]. *)
Theorem init_round_robin_links cf host svs us_port resolve ps :
  Forall (fun x => addr_ok cf (snd x)) (server_addrs false svs) ->
  Forall (fun x => addr_ok cf (snd x)) (server_addrs true svs) ->
  server_addrs false svs <> [] ->
  exists us ps', init_round_robin cf host (Some svs) us_port resolve ps = Some (NGX_OK, Some us, ps')
    /\ extends ps ps' /\ group_wf (primary us)
    /\ Forall2 rr_of (server_addrs false svs) (rr_list (primary us)) /\ Forall (linked ps' cf) (rr_list (primary us))
    /\ match backup us with
       | Some bs => Forall2 rr_of (server_addrs true svs) (rr_list bs) /\ Forall (linked ps' cf) (rr_list bs)
                    /\ group_wf bs
       | None => server_addrs true svs = []
       end.
Proof.
  intros Hl Hb Hne. destruct (init_round_robin_spec cf host svs us_port resolve ps Hl Hb Hne) as (us & ps' & E & H1 & H2 & _ & H3 & H4 & H5).
  exists us, ps'. split_and!; try done. destruct (backup us); [|done]. by destruct H5 as (? & ? & ? & _).
Qed.

Definition ex_rr_servers : list rr_server_conf :=
  [mk_rr_server (s2b "a") [ex_addr; ex_addr] 5 0 1 10 0 false; mk_rr_server (s2b "b") [ex_addr] 1 0 1 10 1 false;
   mk_rr_server (s2b "c") [ex_addr] 1 0 1 10 0 true].

Lemma init_round_robin_links_witness :
  exists us ps', init_round_robin (Some ex_conf) (s2b "u") (Some ex_rr_servers) 0 None (mk_peers [] 0 [] None)
      = Some (NGX_OK, Some us, ps')
    /\ extends (mk_peers [] 0 [] None) ps' /\ group_wf (primary us)
    /\ Forall2 rr_of (server_addrs false ex_rr_servers) (rr_list (primary us))
    /\ Forall (linked ps' (Some ex_conf)) (rr_list (primary us))
    /\ match backup us with
       | Some bs => Forall2 rr_of (server_addrs true ex_rr_servers) (rr_list bs)
                    /\ Forall (linked ps' (Some ex_conf)) (rr_list bs) /\ group_wf bs
       | None => server_addrs true ex_rr_servers = []
       end.
Proof.
  apply (init_round_robin_links (Some ex_conf) (s2b "u") ex_rr_servers 0 None).
  - repeat constructor; right; left; reflexivity.
  - repeat constructor; right; left; reflexivity.
  - discriminate.
Defined.

(** ** Weights under any sequence of requests *)

Definition weight_ok (p : rr_peer) : Prop := 0 <= effective_weight p <= weight p.

Definition csum (l : list rr_peer) : Z := foldr (fun p s => current_weight p + s) 0 l.

(** What happens to the servers of a group with several servers: a request
    chooses one, with any bitmap and any view of the health checker, or a
    request that had chosen one is done with it. *)
Inductive rr_step : list rr_peer -> list rr_peer -> Prop :=
| rr_get now check_down t l r t' l' :
    get_peer now check_down t l = (r, t', l') ->
    rr_step l (match r with Some i => alter add_conn i l' | None => l' end)
| rr_free now failed i l : rr_step l (alter (free_peer now false failed) i l).

Lemma csum_cons p l : csum (p :: l) = current_weight p + csum l.
Proof. done. Qed.

Lemma csum_alter f i l :
  csum (alter f i l) = csum l + match l !! i with Some p => current_weight (f p) - current_weight p | None => 0 end.
Proof.
  revert i. induction l as [|p l IH]; intros i; [done|]. destruct i as [|i].
  - change (alter f 0%nat (p :: l)) with (f p :: l). change ((p :: l) !! 0%nat) with (Some p). rewrite !csum_cons. lia.
  - change (alter f (S i) (p :: l)) with (p :: alter f i l). change ((p :: l) !! S i) with (l !! i).
    rewrite !csum_cons, IH. lia.
Qed.

Lemma csum_raised now cd t i l :
  csum (raised now cd t i l) = csum l + esum now cd t (fun _ => effective_weight) i l.
Proof.
  revert i. induction l as [|p l IH]; intros i; cbn [raised esum csum foldr]; [done|].
  fold (csum l). fold (csum (raised now cd t (S i) l)). rewrite IH.
  destruct (skipped now cd t i p); [lia|]. rewrite raise_weight_cw. unfold bid. lia.
Qed.

Lemma raised_ok now cd t i l : Forall weight_ok l -> Forall weight_ok (raised now cd t i l).
Proof.
  intros H. revert i. induction H as [|p l Hp _ IH]; intros i; cbn [raised]; constructor; [|apply IH].
  destruct (skipped now cd t i p); [done|]. unfold raise_weight, weight_ok in *.
  destruct (Z.ltb_spec (effective_weight p) (weight p)); cbn; lia.
Qed.

Lemma get_peer_weights now cd t l r t' l' :
  get_peer now cd t l = (r, t', l') -> Forall weight_ok l -> csum l' = csum l /\ Forall weight_ok l'.
Proof.
  unfold get_peer. destruct (get_peer_loop_spec now cd t 0 None 0 l) as (best & -> & Hb). intros E Hl.
  pose proof (raised_ok now cd t 0 l Hl) as Hr. destruct best as [[j b]|]; cbn in Hb.
  - destruct Hb as ([?|(k & p & -> & Hk & Hs & _)] & _); [done|]. cbn [Nat.add] in *.
    injection E as <- <- <-. split.
    + rewrite csum_alter, csum_raised, raised_lookup, Hk. cbn [fmap option_fmap option_map Nat.add].
      rewrite Hs. destruct (_ <? _); cbn [current_weight upd]; lia.
    + apply Forall_alter; [done|]. intros q _ Hq. by destruct (_ <? _).
  - destruct Hb as [_ Hall]. injection E as <- <- <-. split; [|done]. rewrite csum_raised.
    enough (esum now cd t (fun _ => effective_weight) 0 l = 0) as -> by lia.
    assert (forall i, (forall k p, l !! k = Some p -> skipped now cd t (i + k) p = true) ->
              esum now cd t (fun _ => effective_weight) i l = 0) as H; [|by apply H].
    clear. induction l as [|p l IH]; intros i H; cbn [esum]; [done|].
    pose proof (H O p eq_refl) as H0. rewrite Nat.add_0_r in H0. rewrite H0. rewrite IH; [done|].
    intros k q Hq. specialize (H (S k) q Hq). by rewrite Nat.add_succ_r in H.
Qed.

Lemma free_peer_weights now failed p :
  0 <= max_fails p -> weight_ok p ->
  current_weight (free_peer now false failed p) = current_weight p /\ weight_ok (free_peer now false failed p).
Proof.
  intros Hm Hp. unfold free_peer, weight_ok in *. destruct failed.
  - cbn. assert (0 <= Z.quot (weight p) (max_fails p)).
    { destruct (Z.eq_dec (max_fails p) 0) as [->|]; [by rewrite Z.quot_0_r_ext|apply Z.quot_pos; lia]. }
    destruct (max_fails p =? 0); cbn; destruct (_ <? 0) eqn:E; cbn in *; lia.
  - destruct (_ <? _); cbn; lia.
Qed.

(** The parameters a server keeps. *)
Definition rr_ok (p : rr_peer) : Prop := weight_ok p /\ 0 <= max_fails p.

Lemma get_peer_max_fails now cd t l r t' l' :
  get_peer now cd t l = (r, t', l') -> Forall (fun p => 0 <= max_fails p) l -> Forall (fun p => 0 <= max_fails p) l'.
Proof.
  unfold get_peer. destruct (get_peer_loop_spec now cd t 0 None 0 l) as (best & -> & _). intros E Hl.
  assert (Hr : forall i, Forall (fun p => 0 <= max_fails p) (raised now cd t i l)).
  { clear E. induction Hl as [|p l Hp _ IH]; intros i; cbn [raised]; constructor; [|apply IH].
    destruct (skipped now cd t i p); [done|]. unfold raise_weight. by destruct (_ <? _). }
  destruct best as [[j b]|]; injection E as <- <- <-; [|apply Hr].
  apply Forall_alter; [apply Hr|]. intros q _ Hq. by destruct (_ <? _).
Qed.

Lemma Forall_rr_ok l : Forall rr_ok l <-> Forall weight_ok l /\ Forall (fun p => 0 <= max_fails p) l.
Proof. unfold rr_ok. by rewrite Forall_and. Qed.

Lemma csum_add_conn i l : csum (alter add_conn i l) = csum l.
Proof. rewrite csum_alter. destruct (l !! i); cbn; lia. Qed.

Lemma rr_step_inv l l' : rr_step l l' -> Forall rr_ok l -> csum l' = csum l /\ Forall rr_ok l'.
Proof.
  intros [now cd t l0 r t' l1 E|now failed i l0] H.
  - apply Forall_rr_ok in H as [Hw Hm]. destruct (get_peer_weights _ _ _ _ _ _ _ E Hw) as [Hc Hw'].
    pose proof (get_peer_max_fails _ _ _ _ _ _ _ E Hm) as Hm'.
    assert (Forall rr_ok l1) as Hok by by apply Forall_rr_ok.
    destruct r as [i|]; [|done]. rewrite csum_add_conn. split; [done|]. by apply Forall_alter.
  - split.
    + rewrite csum_alter. destruct (l0 !! i) as [p|] eqn:E; [|lia].
      rewrite Forall_lookup in H. destruct (H i p E) as [Hw Hm].
      destruct (free_peer_weights now failed p Hm Hw) as [-> _]. lia.
    + apply Forall_alter; [done|]. intros p _ [Hw Hm]. destruct (free_peer_weights now failed p Hm Hw) as [_ H'].
      split; [done|]. unfold free_peer. destruct failed; [|by destruct (_ <? _)].
      cbn. destruct (max_fails p =? 0); cbn; by destruct (_ <? 0).
Qed.

(** C35: the weights stay consistent.  Under any interleaving of requests that
    choose a server and requests that are done with one, successfully or not,
    whatever the health checker answers, the current weights of the servers of
    a group keep the same sum (0 from the start on) and every effective weight
    stays between 0 and the configured weight. *)
Theorem round_robin_weights l l' :
  rtc rr_step l l' -> Forall rr_ok l -> csum l' = csum l /\ Forall rr_ok l'.
Proof.
  induction 1 as [l|l l1 l' Hs _ IH]; intros H; [done|].
  destruct (rr_step_inv l l1 Hs H) as [<- H1]. by apply IH.
Qed.

Lemma round_robin_weights_witness :
  let l := rr_list (primary ex_rr_us) in
  let l' := alter (free_peer 7 false true) 0%nat
              (match get_peer 5 ex_check_down [0] l with (Some i, _, l1) => alter add_conn i l1 | (None, _, l1) => l1 end) in
  csum l' = csum l /\ Forall rr_ok l'.
Proof.
  intros l l'. apply (round_robin_weights l l').
  - eapply rtc_l; [eapply (rr_get 5 ex_check_down [0]); reflexivity|]. eapply rtc_l; [apply (rr_free 7 true 0%nat)|].
    apply rtc_refl.
  - repeat constructor; discriminate.
Defined.
