(* ===== verification/RbTree.v ===== *)
(** * Red-black trees in memory

    [src/core/ngx_rbtree.c] and [ngx_rbtree.h]: nodes with pointers to their
    children and to their parent, and a sentinel for the missing children.  The
    memory is a finite map from addresses to nodes; a pointer that does not
    point to a node makes the result [None].  Insertion and deletion come in
    two mirror images; [side] says which one runs.

    The proofs describe the memory by a list of cells ([sees]), and the cells
    by a functional tree and a path from the node at hand up to the root
    ([shape]).  The results of insertion and deletion are in [RbInsert] and
    [RbDelete]. *)

From stdpp Require Import gmap.
From S2P Require Import Prelude.

(** ** The code *)

Record rb_node := mk_rb {
  rb_key : Z;
  rb_left : Z;
  rb_right : Z;
  rb_parent : Z;
  rb_color : Z
}.

#[export] Instance eta_rb_node : Eta rb_node := fun r =>
  mk_rb (rb_key r) (rb_left r) (rb_right r) (rb_parent r) (rb_color r).

(** [tree->insert] *)
Inductive insert_pt : Set := InsertValue | InsertTimerValue.

(** A tree with the memory its nodes are in. *)
Record rb_tree := mk_tree {
  rb_nodes : gmap Z rb_node;
  rb_root : Z;
  rb_sentinel : Z;
  rb_insert : insert_pt
}.

#[export] Instance eta_rb_tree : Eta rb_tree := fun r =>
  mk_tree (rb_nodes r) (rb_root r) (rb_sentinel r) (rb_insert r).

Definition NULL : Z := 0.

(** Code that reads and writes the tree. *)
Definition M (A : Type) : Type := rb_tree -> option (A * rb_tree).

#[export] Instance M_ret : MRet M := fun A a s => Some (a, s).
#[export] Instance M_bind : MBind M := fun A B f m s => match m s with Some (a, s') => f a s' | None => None end.

Definition stuck {A} : M A := fun _ => None.

(** [p->f], [p->f = ..] *)
Definition get {A} (f : rb_node -> A) (p : Z) : M A := fun s =>
  match rb_nodes s !! p with Some n => Some (f n, s) | None => None end.
Definition put (p : Z) (g : rb_node -> rb_node) : M unit := fun s =>
  match rb_nodes s !! p with Some n => Some (tt, s <| rb_nodes := <[p := g n]> (rb_nodes s) |>) | None => None end.

(** [*root], [*root = ..], [tree->sentinel] *)
Definition get_root : M Z := fun s => Some (rb_root s, s).
Definition set_root (p : Z) : M unit := fun s => Some (tt, s <| rb_root := p |>).
Definition get_sentinel : M Z := fun s => Some (rb_sentinel s, s).

Definition is_red (n : rb_node) : bool := negb (rb_color n =? 0).
Definition ngx_rbt_red (p : Z) : M unit := put p (fun n => n <| rb_color := 1 |>).
Definition ngx_rbt_black (p : Z) : M unit := put p (fun n => n <| rb_color := 0 |>).
Definition ngx_rbt_is_red (p : Z) : M bool := get is_red p.
Definition ngx_rbt_copy_color (p q : Z) : M unit := c ← get rb_color q; put p (fun n => n <| rb_color := c |>).

Definition set_parent (p v : Z) : M unit := put p (fun n => n <| rb_parent := v |>).

Inductive side : Set := Lf | Rt.

#[export] Instance side_eq_dec : EqDecision side.
Proof. solve_decision. Defined.

Definition opp (d : side) : side := match d with Lf => Rt | Rt => Lf end.

Definition child (d : side) (n : rb_node) : Z := match d with Lf => rb_left n | Rt => rb_right n end.

Definition with_child (d : side) (v : Z) (n : rb_node) : rb_node :=
  match d with Lf => n <| rb_left := v |> | Rt => n <| rb_right := v |> end.

Definition set_child (d : side) (p v : Z) : M unit := put p (with_child d v).

(** [if (node == parent->left) parent->left = temp; else parent->right = temp;],
    or its mirror image. *)
Definition relink (d : side) (parent node temp : Z) : M unit :=
  c ← get (child d) parent;
  if node =? c then set_child d parent temp else set_child (opp d) parent temp.

(** [if (p != sentinel) p->parent = v;] *)
Definition adopt (p v : Z) : M unit :=
  sentinel ← get_sentinel;
  if negb (p =? sentinel) then set_parent p v else mret tt.

(** [ngx_rbtree_left_rotate] for [Lf], [ngx_rbtree_right_rotate] for [Rt]. *)
Definition rotate (d : side) (node : Z) : M unit :=
  temp ← get (child (opp d)) node;
  inner ← get (child d) temp;
  set_child (opp d) node inner;;
  adopt inner node;;
  parent ← get rb_parent node;
  set_parent temp parent;;
  root ← get_root;
  (if node =? root then set_root temp else relink d parent node temp);;
  set_child d temp node;;
  set_parent node temp.

Definition ngx_rbtree_left_rotate : Z -> M unit := rotate Lf.
Definition ngx_rbtree_right_rotate : Z -> M unit := rotate Rt.

(** The comparisons of the two [insert] functions. *)
Definition less (i : insert_pt) (a b : Z) : bool :=
  match i with InsertValue => a <? b | InsertTimerValue => i64 (a - b) <? 0 end.

(** [ngx_rbtree_insert_value] and [ngx_rbtree_insert_timer_value] *)
Fixpoint insert_value (i : insert_pt) (fuel : nat) (temp node : Z) : M unit :=
  match fuel with
  | O => stuck
  | S fuel =>
    k ← get rb_key node;
    tk ← get rb_key temp;
    let d := if less i k tk then Lf else Rt in
    p ← get (child d) temp;
    sentinel ← get_sentinel;
    if p =? sentinel then
      set_child d temp node;;
      set_parent node temp;;
      set_child Lf node sentinel;;
      set_child Rt node sentinel;;
      ngx_rbt_red node
    else insert_value i fuel p node
  end.

Definition ngx_rbtree_insert_value : nat -> Z -> Z -> M unit := insert_value InsertValue.
Definition ngx_rbtree_insert_timer_value : nat -> Z -> Z -> M unit := insert_value InsertTimerValue.

(** The loop "re-balance tree" of [ngx_rbtree_insert]. *)
Fixpoint insert_fixup (fuel : nat) (node : Z) : M unit :=
  match fuel with
  | O => stuck
  | S fuel =>
    root ← get_root;
    if node =? root then mret tt
    else
      parent ← get rb_parent node;
      red ← ngx_rbt_is_red parent;
      if negb red then mret tt
      else
        grand ← get rb_parent parent;
        l ← get rb_left grand;
        let d := if parent =? l then Lf else Rt in
        temp ← get (child (opp d)) grand;
        red ← ngx_rbt_is_red temp;
        if red : bool then
          ngx_rbt_black parent;;
          ngx_rbt_black temp;;
          ngx_rbt_red grand;;
          insert_fixup fuel grand
        else
          c ← get (child (opp d)) parent;
          node ← (if node =? c then rotate d parent;; mret parent else mret node);
          parent ← get rb_parent node;
          ngx_rbt_black parent;;
          grand ← get rb_parent parent;
          ngx_rbt_red grand;;
          rotate (opp d) grand;;
          insert_fixup fuel node
  end.

(** Enough rounds for any walk through the tree: a path has at most as many
    nodes as there are. *)
Definition rounds : M nat := fun s => Some (S (size (rb_nodes s)), s).

Definition get_insert : M insert_pt := fun s => Some (rb_insert s, s).

Definition ngx_rbtree_insert (node : Z) : M unit :=
  root ← get_root;
  sentinel ← get_sentinel;
  if root =? sentinel then
    set_parent node NULL;;
    set_child Lf node sentinel;;
    set_child Rt node sentinel;;
    ngx_rbt_black node;;
    set_root node
  else
    n ← rounds;
    i ← get_insert;
    insert_value i n root node;;
    insert_fixup n node;;
    root ← get_root;
    ngx_rbt_black root.

(** [ngx_rbtree_min] *)
Fixpoint min_loop (fuel : nat) (node : Z) : M Z :=
  match fuel with
  | O => stuck
  | S fuel =>
    l ← get rb_left node;
    sentinel ← get_sentinel;
    if l =? sentinel then mret node else min_loop fuel l
  end.

Definition ngx_rbtree_min (node : Z) : M Z := n ← rounds; min_loop n node.

(** The loop "a delete fixup" of [ngx_rbtree_delete]; it ends with [temp]. *)
Fixpoint delete_fixup (fuel : nat) (temp : Z) : M Z :=
  match fuel with
  | O => stuck
  | S fuel =>
    root ← get_root;
    red ← ngx_rbt_is_red temp;
    if (temp =? root) || red then mret temp
    else
      parent ← get rb_parent temp;
      l ← get rb_left parent;
      let d := if temp =? l then Lf else Rt in
      w ← get (child (opp d)) parent;
      red ← ngx_rbt_is_red w;
      w ← (if red : bool then
             ngx_rbt_black w;;
             ngx_rbt_red parent;;
             rotate d parent;;
             get (child (opp d)) parent
           else mret w);
      near ← get (child d) w;
      far ← get (child (opp d)) w;
      near_red ← ngx_rbt_is_red near;
      far_red ← ngx_rbt_is_red far;
      if negb near_red && negb far_red then
        ngx_rbt_red w;;
        parent ← get rb_parent temp;
        delete_fixup fuel parent
      else
        w ← (if negb far_red then
               ngx_rbt_black near;;
               ngx_rbt_red w;;
               rotate (opp d) w;;
               parent ← get rb_parent temp;
               get (child (opp d)) parent
             else mret w);
        parent ← get rb_parent temp;
        ngx_rbt_copy_color w parent;;
        ngx_rbt_black parent;;
        far ← get (child (opp d)) w;
        ngx_rbt_black far;;
        rotate d parent;;
        root ← get_root;
        delete_fixup fuel root
  end.

(** "DEBUG stuff": the removed node is cleared. *)
Definition cleared (n : rb_node) : rb_node :=
  n <| rb_left := NULL |> <| rb_right := NULL |> <| rb_parent := NULL |> <| rb_key := 0 |>.

Definition clear_node (node : Z) : M unit := put node cleared.

(** [subst] takes the place of [node]. *)
Definition take_place (node subst : Z) : M unit :=
  l ← get rb_left node;
  set_child Lf subst l;;
  r ← get rb_right node;
  set_child Rt subst r;;
  np ← get rb_parent node;
  set_parent subst np;;
  ngx_rbt_copy_color subst node;;
  root ← get_root;
  (if node =? root then set_root subst else relink Lf np node subst);;
  l ← get rb_left subst;
  adopt l subst;;
  r ← get rb_right subst;
  adopt r subst.

(** The part of [ngx_rbtree_delete] after the choice of [temp] and [subst]. *)
Definition delete_subst (n : nat) (node temp subst : Z) : M unit :=
  root ← get_root;
  if subst =? root then
    set_root temp;;
    ngx_rbt_black temp;;
    clear_node node
  else
    red ← ngx_rbt_is_red subst;
    sp ← get rb_parent subst;
    relink Lf sp subst temp;;
    (if subst =? node then set_parent temp sp
     else
       set_parent temp (if sp =? node then subst else sp);;
       take_place node subst);;
    clear_node node;;
    if red : bool then mret tt
    else
      temp ← delete_fixup n temp;
      ngx_rbt_black temp.

Definition ngx_rbtree_delete (node : Z) : M unit :=
  sentinel ← get_sentinel;
  n ← rounds;
  l ← get rb_left node;
  r ← get rb_right node;
  if l =? sentinel then delete_subst n node r node
  else if r =? sentinel then delete_subst n node l node
  else
    subst ← ngx_rbtree_min r;
    sl ← get rb_left subst;
    sr ← get rb_right subst;
    delete_subst n node (if negb (sl =? sentinel) then sl else sr) subst.

(** The loop of [ngx_rbtree_next]. *)
Fixpoint next_loop (fuel : nat) (root node : Z) : M Z :=
  match fuel with
  | O => stuck
  | S fuel =>
    parent ← get rb_parent node;
    if node =? root then mret NULL
    else
      l ← get rb_left parent;
      if node =? l then mret parent else next_loop fuel root parent
  end.

Definition ngx_rbtree_next (node : Z) : M Z :=
  sentinel ← get_sentinel;
  r ← get rb_right node;
  if negb (r =? sentinel) then ngx_rbtree_min r
  else
    root ← get_root;
    n ← rounds;
    next_loop n root node.

(** [ngx_rbtree_init], given the memory the sentinel is in. *)
Definition ngx_rbtree_init (m : gmap Z rb_node) (s : Z) (i : insert_pt) : option rb_tree :=
  n ← m !! s;
  Some (mk_tree (<[s := n <| rb_color := 0 |>]> m) s s i).

(** ** Total correctness of code on the tree *)

Definition wp {A} (m : M A) (Q : A -> rb_tree -> Prop) (s : rb_tree) : Prop :=
  exists a s', m s = Some (a, s') /\ Q a s'.

Section Wp.
Context {A B : Type}.
Implicit Types (m : M A) (k : A -> M B).

Lemma wp_bind m k Q s : wp m (fun a s' => wp (k a) Q s') s -> wp (m ≫= k) Q s.
Proof. intros (a & s' & E & b & s'' & E' & HQ). exists b, s''. unfold mbind, M_bind. by rewrite E. Qed.

Lemma wp_ret (a : A) Q s : Q a s -> wp (mret a) Q s.
Proof. intros HQ. by exists a, s. Qed.

Lemma wp_mono m (Q Q' : A -> rb_tree -> Prop) s : wp m Q s -> (forall a s', Q a s' -> Q' a s') -> wp m Q' s.
Proof. intros (a & s' & E & HQ) HH. exists a, s'. auto. Qed.
End Wp.

(** ** Cells

    [sees s r L]: the root is [r], and the memory has the cells [L], at
    different addresses.  Every write changes one cell of the list. *)

Record sees (s : rb_tree) (sen : Z) (r : Z) (L : list (Z * rb_node)) : Prop := {
  see_root : rb_root s = r;
  see_sentinel : rb_sentinel s = sen;
  see_cells : Forall (fun x => rb_nodes s !! x.1 = Some x.2) L;
  see_nodup : NoDup L.*1
}.

#[export] Instance sees_proper s sen r : Proper ((≡ₚ) ==> iff) (sees s sen r).
Proof.
  intros L L' HL. split; intros [? ? Hc Hn]; split; try done.
  1,3: by rewrite <- HL || by rewrite HL. all: by rewrite <- HL || by rewrite HL.
Qed.

Section Cells.
Context {sen : Z}.
Implicit Types (s : rb_tree) (L : list (Z * rb_node)).

Lemma sees_cons s r p n L : sees s sen r ((p, n) :: L) -> rb_nodes s !! p = Some n /\ p ∉ L.*1.
Proof. intros [_ _ Hc Hn]. apply Forall_cons in Hc as [Hp _]. by apply NoDup_cons in Hn as [? _]. Qed.

Lemma sees_put s r p n n' L :
  sees s sen r ((p, n) :: L) -> sees (s <| rb_nodes := <[p := n']> (rb_nodes s) |>) sen r ((p, n') :: L).
Proof.
  intros Hs. destruct (sees_cons _ _ _ _ _ Hs) as [_ Hp]. destruct Hs as [Hr Hsen Hc Hn]. split; cbn; try done.
  apply Forall_cons in Hc as [_ Hc]. apply Forall_cons; split; cbn; [by rewrite lookup_insert_eq|].
  rewrite Forall_forall in Hc |- *. intros [q m] Hq; cbn. rewrite lookup_insert_ne; [by apply (Hc (q, m))|].
  intros <-. apply Hp. by apply (list_elem_of_fmap_2 fst L (p, m)).
Qed.

Lemma sees_size s r L : sees s sen r L -> (length L <= size (rb_nodes s))%nat.
Proof.
  intros [_ _ Hc Hn]. rewrite <- (length_fmap fst), <- (size_list_to_set (C := gset Z) L.*1) by done.
  rewrite <- size_dom. apply subseteq_size. intros p Hp. apply elem_of_list_to_set, list_elem_of_fmap in Hp as ([q n] & -> & Hq).
  rewrite Forall_forall in Hc. apply elem_of_dom. exists n. by apply (Hc (q, n)).
Qed.

(** ** Rules of the code *)

Lemma wp_get {A B} (f : rb_node -> A) p (k : A -> M B) Q s r L n L' :
  sees s sen r L -> L ≡ₚ (p, n) :: L' -> wp (k (f n)) Q s -> wp (get f p ≫= k) Q s.
Proof.
  intros Hs HL HQ. apply wp_bind. rewrite HL in Hs. destruct (sees_cons _ _ _ _ _ Hs) as [Hp _].
  exists (f n), s. unfold get. by rewrite Hp.
Qed.

Lemma wp_put {B} p g (k : unit -> M B) Q s r L n L' :
  sees s sen r L -> L ≡ₚ (p, n) :: L' ->
  (forall s', sees s' sen r ((p, g n) :: L') -> rb_insert s' = rb_insert s -> wp (k tt) Q s') -> wp (put p g ≫= k) Q s.
Proof.
  intros Hs HL HQ. apply wp_bind. rewrite HL in Hs. destruct (sees_cons _ _ _ _ _ Hs) as [Hp _].
  eexists tt, _. unfold put. rewrite Hp. split; [done|]. apply HQ; [|done]. by apply (sees_put _ _ _ n).
Qed.

Lemma wp_root {B} (k : Z -> M B) Q s r L : sees s sen r L -> wp (k r) Q s -> wp (get_root ≫= k) Q s.
Proof. intros Hs HQ. apply wp_bind. exists r, s. unfold get_root. by rewrite (see_root _ _ _ _ Hs). Qed.

Lemma wp_sentinel {B} (k : Z -> M B) Q s r L : sees s sen r L -> wp (k sen) Q s -> wp (get_sentinel ≫= k) Q s.
Proof. intros Hs HQ. apply wp_bind. exists sen, s. unfold get_sentinel. by rewrite (see_sentinel _ _ _ _ Hs). Qed.

Lemma wp_set_root {B} p (k : unit -> M B) Q s r L :
  sees s sen r L -> (forall s', sees s' sen p L -> rb_insert s' = rb_insert s -> wp (k tt) Q s') -> wp (set_root p ≫= k) Q s.
Proof.
  intros [Hr Hsen Hc Hn] HQ. apply wp_bind. eexists tt, _. split; [done|]. apply HQ; [|done]. by split.
Qed.
End Cells.

Lemma wp_tail {A} (m : M A) Q s : wp (m ≫= mret) Q s -> wp m Q s.
Proof.
  intros (a & s' & E & HQ). unfold mbind, M_bind in E. destruct (m s) as [[b s1]|] eqn:Em; [|done].
  injection E as -> ->. by exists a, s'.
Qed.

Lemma wp_assoc {A B C} (m : M A) (k : A -> M B) (h : B -> M C) Q s :
  wp (m ≫= fun a => k a ≫= h) Q s -> wp ((m ≫= k) ≫= h) Q s.
Proof.
  intros (c & s' & E & HQ). exists c, s'. split; [|done]. unfold mbind, M_bind in *.
  destruct (m s) as [[a s1]|]; [|done]. exact E.
Qed.

(** A node whose child on side [d] is [p] and whose other child is [q]. *)
Definition mk (d : side) (k p q par c : Z) : rb_node :=
  match d with Lf => mk_rb k p q par c | Rt => mk_rb k q p par c end.

Lemma opp_opp d : opp (opp d) = d.
Proof. by destruct d. Qed.

Section Mk.
Context (d : side) (k p q par c v : Z).
Lemma child_mk : child d (mk d k p q par c) = p. Proof. by destruct d. Qed.
Lemma child_opp_mk : child (opp d) (mk d k p q par c) = q. Proof. by destruct d. Qed.
Lemma parent_mk : rb_parent (mk d k p q par c) = par. Proof. by destruct d. Qed.
Lemma color_mk : rb_color (mk d k p q par c) = c. Proof. by destruct d. Qed.
Lemma key_mk : rb_key (mk d k p q par c) = k. Proof. by destruct d. Qed.
Lemma with_child_mk : with_child d v (mk d k p q par c) = mk d k v q par c. Proof. by destruct d. Qed.
Lemma with_child_opp_mk : with_child (opp d) v (mk d k p q par c) = mk d k p v par c. Proof. by destruct d. Qed.
Lemma set_parent_mk : (mk d k p q par c) <| rb_parent := v |> = mk d k p q v c. Proof. by destruct d. Qed.
Lemma set_color_mk : (mk d k p q par c) <| rb_color := v |> = mk d k p q par v. Proof. by destruct d. Qed.
Lemma mk_opp : mk (opp d) k p q par c = mk d k q p par c. Proof. by destruct d. Qed.
End Mk.

Section MkSides.
Context (k p q par c v : Z).
Lemma left_mk : rb_left (mk Lf k p q par c) = p. Proof. done. Qed.
Lemma right_mk : rb_right (mk Lf k p q par c) = q. Proof. done. Qed.
Lemma with_right_mk : with_child Rt v (mk Lf k p q par c) = mk Lf k p v par c. Proof. done. Qed.
Lemma mk_right : mk Rt k p q par c = mk Lf k q p par c. Proof. done. Qed.
End MkSides.

Create Rewrite HintDb rb.
#[export] Hint Rewrite child_mk child_opp_mk parent_mk color_mk key_mk with_child_mk with_child_opp_mk
  set_parent_mk set_color_mk mk_opp opp_opp left_mk right_mk with_right_mk : rb.

(** ** Functional trees and paths *)

(** [Node red left address key right] *)
Inductive tree : Set := Leaf | Node (c : bool) (l : tree) (a k : Z) (r : tree).

(** The tree with child [t] on side [d] and child [u] on the other. *)
Definition node (d : side) (c : bool) (t : tree) (a k : Z) (u : tree) : tree :=
  match d with Lf => Node c t a k u | Rt => Node c u a k t end.

(** A step of a path, seen from below: the node above, on which side of it the
    path comes, and its other subtree. *)
Inductive frame : Set := Fr (d : side) (c : bool) (a k : Z) (sib : tree).

Fixpoint plug (C : list frame) (t : tree) : tree :=
  match C with [] => t | Fr d c a k u :: C' => plug C' (node d c t a k u) end.

Definition is_node (t : tree) : Prop := match t with Leaf => False | Node _ _ _ _ _ => True end.

Definition bit (c : bool) : Z := if c then 1 else 0.

(** The nodes from left to right. *)
Fixpoint inorder (t : tree) : list (Z * Z) :=
  match t with Leaf => [] | Node _ l a k r => inorder l ++ (a, k) :: inorder r end.

Fixpoint before (C : list frame) : list (Z * Z) :=
  match C with
  | [] => []
  | Fr Lf _ _ _ _ :: C' => before C'
  | Fr Rt _ a k u :: C' => before C' ++ inorder u ++ [(a, k)]
  end.

Fixpoint after (C : list frame) : list (Z * Z) :=
  match C with
  | [] => []
  | Fr Lf _ a k u :: C' => (a, k) :: inorder u ++ after C'
  | Fr Rt _ _ _ _ :: C' => after C'
  end.

Lemma inorder_plug C t : inorder (plug C t) = before C ++ inorder t ++ after C.
Proof.
  revert t; induction C as [|[[] c a k u] C IH]; intros t; cbn; [by rewrite app_nil_r|..];
    rewrite IH; cbn; by rewrite <- !app_assoc.
Qed.

(** ** The cells of a tree *)

Section Shape.
Context (sen : Z).

Definition ptr (t : tree) : Z := match t with Leaf => sen | Node _ _ a _ _ => a end.

Fixpoint cells (par : Z) (t : tree) : list (Z * rb_node) :=
  match t with
  | Leaf => []
  | Node c l a k r => (a, mk Lf k (ptr l) (ptr r) par (bit c)) :: cells a l ++ cells a r
  end.

(** What is above the path: the root keeps the parent [rp], which nobody reads. *)
Definition cptr (rp : Z) (C : list frame) : Z := match C with [] => rp | Fr _ _ a _ _ :: _ => a end.

Fixpoint ccells (rp : Z) (C : list frame) (p : Z) : list (Z * rb_node) :=
  match C with
  | [] => []
  | Fr d c a k u :: C' => (a, mk d k p (ptr u) (cptr rp C') (bit c)) :: cells a u ++ ccells rp C' a
  end.

Fixpoint root_of (C : list frame) (p : Z) : Z :=
  match C with [] => p | Fr _ _ a _ _ :: C' => root_of C' a end.

(** The tree [plug C t] is in memory, with the sentinel [sn] and other nodes [F]. *)
Definition shape (s : rb_tree) (rp : Z) (sn : rb_node) (C : list frame) (t : tree) (F : list (Z * rb_node)) : Prop :=
  rb_color sn = 0 /\
  sees s sen (root_of C (ptr t)) ((sen, sn) :: cells (cptr rp C) t ++ ccells rp C (ptr t) ++ F).

Lemma ptr_node d c t a k u : ptr (node d c t a k u) = a.
Proof. by destruct d. Qed.

Lemma cells_node par d c t a k u :
  cells par (node d c t a k u) ≡ₚ (a, mk d k (ptr t) (ptr u) par (bit c)) :: cells a t ++ cells a u.
Proof. destruct d; cbn; [done|]. constructor. apply Permutation_app_comm. Qed.

Lemma shape_plug s rp sn C t F : shape s rp sn C t F <-> shape s rp sn [] (plug C t) F.
Proof.
  revert t; induction C as [|[d c a k u] C IH]; intros t; [done|]. cbn [plug]. rewrite <- IH. unfold shape.
  f_equiv. cbn [root_of ccells cptr]. rewrite ptr_node.
  assert (E : (sen, sn) :: cells a t ++ ((a, mk d k (ptr t) (ptr u) (cptr rp C) (bit c)) :: cells a u ++ ccells rp C a) ++ F
    ≡ₚ (sen, sn) :: cells (cptr rp C) (node d c t a k u) ++ ccells rp C a ++ F)
    by (rewrite cells_node; solve_Permutation).
  by rewrite E.
Qed.

Lemma shape_up s rp sn d c a k u C t F :
  shape s rp sn (Fr d c a k u :: C) t F <-> shape s rp sn C (node d c t a k u) F.
Proof. rewrite shape_plug. cbn [plug]. by rewrite <- shape_plug. Qed.

(** The addresses of a tree. *)
Lemma ptr_in par t : is_node t -> ptr t ∈ (cells par t).*1.
Proof. destruct t; [done|]. intros _. cbn. by left. Qed.

Lemma root_in rp C p : C <> [] -> root_of C p ∈ (ccells rp C p).*1.
Proof.
  revert p; induction C as [|[d c a k u] C IH]; intros p Hn; [done|]. cbn [root_of ccells].
  rewrite fmap_cons, fmap_app. destruct C as [|f C]; [by left|]. right. apply elem_of_app. right. by apply IH.
Qed.

Lemma shape_nodup s rp sn C t F :
  shape s rp sn C t F ->
  sen ∉ (cells (cptr rp C) t).*1 /\ sen ∉ (ccells rp C (ptr t)).*1
  /\ (forall a, a ∈ (cells (cptr rp C) t).*1 -> a ∉ (ccells rp C (ptr t)).*1).
Proof.
  intros [_ [_ _ _ Hn]]. rewrite fmap_cons, !fmap_app in Hn. apply NoDup_cons in Hn as [Hs Hn].
  rewrite !elem_of_app in Hs. apply NoDup_app in Hn as (_ & Hd & _).
  repeat split; [tauto..|]. intros a Ha Hc. apply (Hd a Ha). apply elem_of_app. tauto.
Qed.

(** The node at hand is the root only if there is nothing above it. *)
Lemma shape_root s rp sn C t F : shape s rp sn C t F -> (ptr t =? root_of C (ptr t)) = bool_decide (C = []).
Proof.
  intros Hs. destruct (shape_nodup _ _ _ _ _ _ Hs) as (H1 & H2 & H3).
  destruct C as [|f C]; [apply Z.eqb_refl|]. rewrite bool_decide_eq_false_2 by done. apply Z.eqb_neq. intros E.
  assert (Hr := root_in rp (f :: C) (ptr t) ltac:(done)). rewrite <- E in Hr.
  destruct t as [|c l a k r]; [done|]. apply (H3 a); [by left|done].
Qed.

(** The two subtrees of a node are at different addresses. *)
Lemma shape_side s rp sn d c a k u C t F :
  shape s rp sn (Fr d c a k u :: C) t F -> is_node t \/ is_node u -> ptr t <> ptr u.
Proof.
  intros Hs Hn E. destruct (shape_nodup _ _ _ _ _ _ Hs) as (H1 & H2 & H3). cbn [ccells cptr] in *.
  rewrite fmap_cons, fmap_app, elem_of_cons, elem_of_app in H2.
  destruct t as [|c1 l1 a1 k1 r1], u as [|c2 l2 a2 k2 r2]; cbn in Hn.
  - tauto.
  - apply H2. right. left. cbn in E |- *. rewrite E. by left.
  - apply H1. cbn in E |- *. rewrite <- E. by left.
  - apply (H3 a1); [by left|]. cbn in E |- *. rewrite E. right. left.
Qed.

Lemma shape_parent s rp sn d c a k u C t F : shape s rp sn (Fr d c a k u :: C) t F -> ptr t <> a.
Proof.
  intros Hs E. destruct (shape_nodup _ _ _ _ _ _ Hs) as (H1 & H2 & H3). cbn [ccells cptr] in *.
  destruct t as [|c1 l1 a1 k1 r1]; cbn in *; subst; [apply H2; by left|]. apply (H3 a); by left.
Qed.
End Shape.

(** ** Running the code on cells *)

(** The cell at address [p] in a list of cells, and the list without it. *)
Ltac pull p L :=
  lazymatch L with
  | (p, ?n) :: ?l => constr:((n, l))
  | ?x :: ?l => let r := pull p l in lazymatch r with (?n, ?l') => constr:((n, x :: l')) end
  | ?l1 ++ ?l2 =>
    match constr:(Set) with
    | _ => let r := pull p l1 in lazymatch r with (?n, ?l') => constr:((n, l' ++ l2)) end
    | _ => let r := pull p l2 in lazymatch r with (?n, ?l') => constr:((n, l1 ++ l')) end
    end
  end.

(** The list without its part [X]. *)
Ltac without X L :=
  lazymatch L with
  | X => constr:(@nil (Z * rb_node))
  | ?x :: ?l => let r := without X l in constr:(x :: r)
  | ?l1 ++ ?l2 =>
    match constr:(Set) with
    | _ => let r := without X l1 in constr:(r ++ l2)
    | _ => let r := without X l2 in constr:(l1 ++ r)
    end
  end.

Ltac rb_simpl :=
  cbv beta; autorewrite with rb;
  repeat match goal with H : sees _ _ _ _ |- _ => progress (cbv beta in H; autorewrite with rb in H) end.

Ltac rb_step :=
  lazymatch goal with
  | |- wp (mret _) _ _ => apply wp_ret
  | |- wp (mret ?a ≫= _) _ _ => apply wp_bind, wp_ret
  | |- wp ((_ ≫= _) ≫= _) _ _ => apply wp_assoc
  | H : sees ?s _ ?r ?L |- wp (get ?f ?p ≫= ?k) _ ?s =>
    let x := pull p L in
    lazymatch x with (?n, ?l) => apply (wp_get f p k _ s r L n l H); [solve_Permutation|rb_simpl] end
  | H : sees ?s _ ?r ?L |- wp (put ?p ?g ≫= ?k) _ ?s =>
    let x := pull p L in
    lazymatch x with
    | (?n, ?l) =>
      apply (wp_put p g k _ s r L n l H); [solve_Permutation|];
      let s' := fresh "s" in let H' := fresh "Hs" in let E := fresh "E" in
      intros s' H' E; rewrite <- ?E in *; clear H; rb_simpl
    end
  | H : sees ?s _ ?r ?L |- wp (get_root ≫= ?k) _ ?s => apply (wp_root k _ s r L H); cbv beta
  | H : sees ?s _ ?r ?L |- wp (get_sentinel ≫= ?k) _ ?s => apply (wp_sentinel k _ s r L H); cbv beta
  | H : sees ?s _ ?r ?L |- wp (set_root ?p ≫= ?k) _ ?s =>
    apply (wp_set_root p k _ s r L H);
    let s' := fresh "s" in let H' := fresh "Hs" in let E := fresh "E" in
    intros s' H' E; rewrite <- ?E in *; clear H; cbv beta
  | H : sees ?s _ _ ?L |- wp (set_child ?d ?p ?v ≫= ?k) ?Q ?s => let x := pull p L in change (wp (put p (with_child d v) ≫= k) Q s)
  | H : sees ?s _ _ ?L |- wp (set_parent ?p ?v ≫= ?k) ?Q ?s => let x := pull p L in change (wp (put p (fun n => n <| rb_parent := v |>) ≫= k) Q s)
  | H : sees ?s _ _ ?L |- wp (ngx_rbt_red ?p ≫= ?k) ?Q ?s => let x := pull p L in change (wp (put p (fun n => n <| rb_color := 1 |>) ≫= k) Q s)
  | H : sees ?s _ _ ?L |- wp (ngx_rbt_black ?p ≫= ?k) ?Q ?s => let x := pull p L in change (wp (put p (fun n => n <| rb_color := 0 |>) ≫= k) Q s)
  | H : sees ?s _ _ ?L |- wp (ngx_rbt_is_red ?p ≫= ?k) ?Q ?s => let x := pull p L in change (wp (get is_red p ≫= k) Q s)
  | H : sees ?s _ _ ?L |- wp (ngx_rbt_copy_color ?p ?q ≫= ?k) ?Q ?s =>
    let x := pull p L in
    change (wp ((get rb_color q ≫= fun c => put p (fun n => n <| rb_color := c |>)) ≫= k) Q s)
  | |- wp (set_child _ _ _) _ _ => apply wp_tail
  | |- wp (set_parent _ _) _ _ => apply wp_tail
  | |- wp (ngx_rbt_red _) _ _ => apply wp_tail
  | |- wp (ngx_rbt_black _) _ _ => apply wp_tail
  | |- wp (set_root _) _ _ => apply wp_tail
  | |- wp (put _ _) _ _ => apply wp_tail
  | |- wp (get _ _) _ _ => apply wp_tail
  end.

Ltac rb_run := repeat rb_step.

Section Rotate.
Context (sen : Z).

Lemma wp_adopt {B} t par' (k : unit -> M B) Q s r sn L par L' :
  sees s sen r L -> L ≡ₚ (sen, sn) :: cells sen par t ++ L' ->
  (forall s', sees s' sen r ((sen, sn) :: cells sen par' t ++ L') -> rb_insert s' = rb_insert s -> wp (k tt) Q s') ->
  wp (adopt (ptr sen t) par' ≫= k) Q s.
Proof.
  intros Hs HL HQ. rewrite HL in Hs. unfold adopt. rb_run. destruct t as [|c l a q u]; cbn [ptr cells] in *.
  - rewrite Z.eqb_refl. rb_run. by apply HQ.
  - destruct (sees_cons _ _ _ _ _ Hs) as [_ Hn]. rewrite (proj2 (Z.eqb_neq a sen))
      by (intros ->; apply Hn; by left). cbn [negb]. rb_run. apply HQ; [|done].
    eapply sees_proper; [|exact Hs0]. solve_Permutation.
Qed.

(** What is above [a] now points to [b]. *)
Lemma wp_relink_frame {B} d d' c p q u C a b rp (k : unit -> M B) Q s r L L' :
  sees s sen r L -> L ≡ₚ ccells sen rp (Fr d' c p q u :: C) a ++ L' -> a <> ptr sen u ->
  (forall s', sees s' sen r (ccells sen rp (Fr d' c p q u :: C) b ++ L') -> rb_insert s' = rb_insert s -> wp (k tt) Q s') ->
  wp (relink d p a b ≫= k) Q s.
Proof.
  intros Hs HL Hu HQ. rewrite HL in Hs. cbn [root_of ccells cptr] in *. unfold relink. rb_run. destruct (decide (d' = d)) as [->|Hd].
  - rb_simpl. rewrite Z.eqb_refl. rb_run. by apply HQ.
  - replace d' with (opp d) in * by (by destruct d, d'). rb_simpl. rewrite mk_opp in HQ.
    rewrite (proj2 (Z.eqb_neq _ _) Hu). rb_run. by apply HQ.
Qed.

Lemma wp_relink {B} d C a b rp (k : unit -> M B) Q s L L' :
  sees s sen (root_of C a) L -> L ≡ₚ ccells sen rp C a ++ L' ->
  (a =? root_of C a) = bool_decide (C = []) ->
  (forall d' c p q u C', C = Fr d' c p q u :: C' -> a <> ptr sen u) ->
  (forall s', sees s' sen (root_of C b) (ccells sen rp C b ++ L') -> rb_insert s' = rb_insert s -> wp (k tt) Q s') ->
  wp ((if a =? root_of C a then set_root b else relink d (cptr rp C) a b) ≫= k) Q s.
Proof.
  intros Hs HL Hr Hu HQ. rewrite Hr. destruct C as [|[d' c p q u] C].
  - rewrite HL in Hs. rewrite bool_decide_eq_true_2 by done. rb_run. by apply HQ.
  - rewrite bool_decide_eq_false_2 by done. eapply wp_relink_frame; [exact Hs|exact HL|by eapply Hu|]. done.
Qed.
End Rotate.

Ltac rb_adopt par :=
  lazymatch goal with
  | H : sees ?s ?sen ?r ?L |- wp (adopt (ptr ?sen ?t) ?par' ≫= ?k) ?Q ?s =>
    let x := pull sen L in
    lazymatch x with
    | (?sn, ?l) =>
      let l' := without (cells sen par t) l in
      apply (wp_adopt sen t par' k Q s r sn L par l' H); [solve_Permutation|];
      let s' := fresh "s" in let H' := fresh "Hs" in let E := fresh "E" in
      intros s' H' E; rewrite <- ?E in *; clear H; cbv beta
    end
  end.

Ltac rb_relink C rp :=
  lazymatch goal with
  | H : sees ?s ?sen ?r ?L |- wp ((if ?a =? _ then set_root ?b else relink ?d _ _ _) ≫= ?k) ?Q ?s =>
    let l' := without (ccells sen rp C a) L in
    apply (wp_relink sen d C a b rp k Q s L l' H); [solve_Permutation|done|done|];
    let s' := fresh "s" in let H' := fresh "Hs" in let E := fresh "E" in
    intros s' H' E; rewrite <- ?E in *; clear H; cbv beta
  end.

Ltac rb_done :=
  match goal with H : sees _ _ _ _ |- sees _ _ _ _ => eapply sees_proper; [|exact H]; solve_Permutation end.

Lemma rotate_spec sen s rp sn C d c u a k c2 v b k2 w F :
  shape sen s rp sn C (node d c u a k (node d c2 v b k2 w)) F ->
  wp (rotate d a) (fun _ s' => shape sen s' rp sn C (node d c2 (node d c u a k v) b k2 w) F /\ rb_insert s' = rb_insert s) s.
Proof.
  intros Hsh. assert (Hroot := shape_root _ _ _ _ _ _ _ Hsh). rewrite ptr_node in Hroot.
  assert (Hside : forall d' c p q u' C', C = Fr d' c p q u' :: C' -> a <> ptr sen u').
  { intros d' c' p q u' C' ->. apply shape_side in Hsh; [by rewrite ptr_node in Hsh|left; by destruct d]. }
  destruct Hsh as [Hsn Hs]. rewrite ptr_node, cells_node, ptr_node, cells_node in Hs.
  unfold rotate. rb_run. rb_adopt b. rb_run. rb_relink C rp. rb_run.
  split; [|done]. split; [done|]. rewrite ptr_node, cells_node, ptr_node, cells_node. rb_done.
Qed.
