(* ===== verification/RbInsert.v ===== *)
(** * Insertion into red-black trees

    The colour invariant of red-black trees, and [ngx_rbtree_insert]: it puts
    the new node where the comparison of keys says and keeps the invariant. *)

From stdpp Require Import gmap sorting.
From S2P Require Import Prelude RbTree.

#[export] Instance tree_eq_dec : EqDecision tree.
Proof. solve_decision. Defined.

(** ** The colour invariant *)

Definition red (t : tree) : bool := match t with Leaf => false | Node c _ _ _ _ => c end.

Definition blacken (t : tree) : tree := match t with Leaf => Leaf | Node _ l a k r => Node false l a k r end.

(** [n] black nodes on every path, and no red node with a red child. *)
Fixpoint rbt (t : tree) (n : nat) : Prop :=
  match t with
  | Leaf => n = O
  | Node c l _ _ r =>
    exists m, n = (if c then m else S m) /\ rbt l m /\ rbt r m /\ (c = true -> red l = false /\ red r = false)
  end.

(** The path accepts a subtree of colour [c] with [n] black nodes. *)
Fixpoint ctx_ok (C : list frame) (c : bool) (n : nat) : Prop :=
  match C with
  | [] => c = false
  | Fr _ fc _ _ u :: C' =>
    rbt u n /\ (fc = true -> c = false /\ red u = false) /\ ctx_ok C' fc (if fc then n else S n)
  end.

Definition valid (t : tree) : Prop := red t = false /\ exists n, rbt t n.

Lemma red_node d c t a k u : red (node d c t a k u) = c.
Proof. by destruct d. Qed.

Lemma rbt_node d c t a k u n :
  rbt (node d c t a k u) n
  <-> exists m, n = (if c then m else S m) /\ rbt t m /\ rbt u m /\ (c = true -> red t = false /\ red u = false).
Proof. destruct d; cbn; [done|]. split; intros (m & ? & ? & ? & ?); exists m; naive_solver. Qed.

Lemma rbt_plug C t n : ctx_ok C (red t) n -> rbt t n -> valid (plug C t).
Proof.
  revert t n; induction C as [|[d c a k u] C IH]; intros t n; cbn [ctx_ok plug].
  - intros Hc Ht. split; [done|]. by exists n.
  - intros (Hu & Hc & HC) Ht. apply (IH _ (if c then n else S n)); [by rewrite red_node|]. apply rbt_node. by exists n.
Qed.

Lemma rbt_unplug C t : valid (plug C t) -> exists n, ctx_ok C (red t) n /\ rbt t n.
Proof.
  revert t; induction C as [|[d c a k u] C IH]; intros t; cbn [ctx_ok plug].
  - intros [Hc [n Ht]]. by exists n.
  - intros (n & HC & Hn)%IH. rewrite red_node in HC. apply rbt_node in Hn as (m & -> & Ht & Hu & Hc). by exists m.
Qed.

Lemma rbt_blacken t n : rbt t n -> exists m, rbt (blacken t) m.
Proof. destruct t; cbn; [by exists n|]. intros (m & -> & ? & ? & _). by exists (S m), m. Qed.

Lemma ctx_ok_black C c n : ctx_ok C c n -> ctx_ok C false n.
Proof. destruct C as [|[d fc a k u] C]; cbn; naive_solver. Qed.

Lemma inorder_blacken t : inorder (blacken t) = inorder t.
Proof. by destruct t. Qed.

Lemma red_form d t : red t = true -> exists l a k r, t = node d true l a k r.
Proof. destruct t as [|[] l a k r]; try done. intros _. destruct d; [by exists l, a, k, r|by exists r, a, k, l]. Qed.

(** ** Reading colours and sides *)

Lemma is_red_mk d k p q par c : is_red (mk d k p q par (bit c)) = c.
Proof. by destruct d, c. Qed.
Lemma is_red_black d k p q par : is_red (mk d k p q par 0) = false.
Proof. by destruct d. Qed.

Lemma is_red_red d k p q par : is_red (mk d k p q par 1) = true.
Proof. by destruct d. Qed.

#[export] Hint Rewrite is_red_mk is_red_black is_red_red : rb.

Lemma side_test d k p q par c : p <> q -> (if p =? rb_left (mk d k p q par c) then Lf else Rt) = d.
Proof. intros Hn. destruct d; cbn; [by rewrite Z.eqb_refl|]. by rewrite (proj2 (Z.eqb_neq _ _) Hn). Qed.

Lemma wp_is_red {B} sen t (k : bool -> M B) Q s r sn L par L' :
  sees s sen r L -> L ≡ₚ (sen, sn) :: cells sen par t ++ L' -> rb_color sn = 0 ->
  wp (k (red t)) Q s -> wp (ngx_rbt_is_red (ptr sen t) ≫= k) Q s.
Proof.
  intros Hs HL Hsn HQ. rewrite HL in Hs. destruct t as [|c l a q u]; cbn [ptr cells red] in *; rb_run; [|done].
  unfold is_red. by rewrite Hsn.
Qed.

Ltac rb_is_red par :=
  lazymatch goal with
  | H : sees ?s ?sen ?r ?L |- wp (ngx_rbt_is_red (ptr ?sen ?t) ≫= ?k) ?Q ?s =>
    let x := pull sen L in
    lazymatch x with
    | (?sn, ?l) =>
      let l' := without (cells sen par t) l in
      apply (wp_is_red sen t k Q s r sn L par l' H); [solve_Permutation|done|]; cbv beta
    end
  end.

(** ** Re-balancing after an insertion *)

Definition fixed (sen rp : Z) (sn : rb_node) (F : list (Z * rb_node)) (l : list (Z * Z)) (i : insert_pt) (s : rb_tree) : Prop :=
  exists t, shape sen s rp sn [] t F /\ inorder t = l /\ is_node t /\ (exists n, rbt t n) /\ rb_insert s = i.

Lemma is_node_plug C t : is_node t -> is_node (plug C t).
Proof. revert t; induction C as [|[[] c a k u] C IH]; intros t Ht; cbn; [done|..]; by apply IH. Qed.

Lemma red_is_node t : red t = true -> is_node t.
Proof. by destruct t. Qed.

(** Nothing to do: the node is the root, or its parent is black. *)
Lemma fixup_stops fuel s rp sn sen C t F n :
  shape sen s rp sn C t F -> is_node t -> rbt t n -> ctx_ok C false n ->
  match C with Fr _ true _ _ _ :: _ => False | _ => True end ->
  wp (insert_fixup (S fuel) (ptr sen t)) (fun _ => fixed sen rp sn F (inorder (plug C t)) (rb_insert s)) s.
Proof.
  intros Hsh Ht Hn HC Hp. cbn [insert_fixup]. assert (Hroot := shape_root _ _ _ _ _ _ _ Hsh).
  assert (Hfix : (exists m, rbt (plug C t) m) -> fixed sen rp sn F (inorder (plug C t)) (rb_insert s) s).
  { intros Hm. exists (plug C t). split; [by rewrite <- shape_plug|]. auto using is_node_plug. }
  destruct Hsh as [Hsn Hs]. rb_run. rewrite Hroot. destruct C as [|[d [] a k u] C]; [|done|].
  - rewrite bool_decide_eq_true_2 by done. rb_run. apply Hfix. by exists n.
  - rewrite bool_decide_eq_false_2 by done. destruct t as [|c l b q r]; [done|].
    cbn [ptr cells ccells cptr bit] in *. rb_run. cbn [negb]. rb_run. apply Hfix. apply (rbt_plug (Fr d false a k u :: C) (Node c l b q r) n); [|done].
    cbn in HC |- *. naive_solver.
Qed.

(** The node, its parent and its grandparent, at the start of a round. *)
Lemma fixup_round fuel s rp sn sen t d1 p pk u1 d g gk u C F :
  shape sen s rp sn (Fr d1 true p pk u1 :: Fr d false g gk u :: C) t F -> is_node t ->
  forall Q, wp (
    if red u : bool then
      ngx_rbt_black p;; ngx_rbt_black (ptr sen u);; ngx_rbt_red g;; insert_fixup fuel g
    else
      c ← get (child (opp d)) p;
      node ← (if ptr sen t =? c then rotate d p;; mret p else mret (ptr sen t));
      parent ← get rb_parent node;
      ngx_rbt_black parent;;
      grand ← get rb_parent parent;
      ngx_rbt_red grand;;
      rotate (opp d) grand;;
      insert_fixup fuel node) Q s ->
  wp (insert_fixup (S fuel) (ptr sen t)) Q s.
Proof.
  intros Hsh Ht Q HQ. cbn [insert_fixup]. assert (Hroot := shape_root _ _ _ _ _ _ _ Hsh).
  assert (Hside : p <> ptr sen u).
  { apply shape_up, shape_side in Hsh; [by rewrite ptr_node in Hsh|left; by destruct d1]. }
  destruct Hsh as [Hsn Hs]. destruct t as [|c l b q r]; [done|]. cbn [ptr cells ccells cptr] in *. rb_run.
  rewrite Hroot, bool_decide_eq_false_2 by done. rb_run. cbn [bit negb]. rb_run. rewrite side_test by done. rb_simpl.
  rb_is_red g. done.
Qed.

(** The last rotation. *)
Lemma node_opp d c t a k u : node (opp d) c t a k u = node d c u a k t.
Proof. by destruct d. Qed.

Lemma fixup_final fuel s rp sn sen t a d q qk v g gk u C F n :
  ptr sen t = a ->
  shape sen s rp sn (Fr d false q qk v :: Fr d true g gk u :: C) t F ->
  red t = true -> rbt t n -> rbt v n -> red v = false -> rbt u n -> red u = false -> ctx_ok C false (S n) ->
  wp (rotate (opp d) g;; insert_fixup (S fuel) a)
    (fun _ => fixed sen rp sn F (inorder (plug C (node d false (node d true t q qk v) g gk u))) (rb_insert s)) s.
Proof.
  intros <- Hsh Hr Ht Hv Hrv Hu Hru HC. rewrite !shape_up in Hsh. rewrite <- (node_opp d true u), <- (node_opp d false v) in Hsh.
  apply wp_bind. eapply wp_mono; [exact (rotate_spec _ _ _ _ _ _ _ _ _ _ _ _ _ _ _ _ Hsh)|]. cbv beta. intros _ s' [Hsh' <-]. rewrite node_opp in Hsh'.
  rewrite <- shape_up in Hsh'. eapply wp_mono; [apply (fixup_stops _ _ _ _ _ _ _ _ n Hsh')|]; [by apply red_is_node|done|..|done|].
  - cbn [ctx_ok]. split_and!; [|done|done]. apply rbt_node. exists n. by split_and!.
  - cbv beta. intros _ s'' (T & HT & Hin & Hrest). exists T. split; [done|]. split; [|done]. cbn [plug].
    rewrite Hin. cbn [plug]. rewrite !inorder_plug. f_equal. f_equal. by destruct d; cbn; rewrite <- !app_assoc.
Qed.

Lemma insert_fixup_spec fuel s rp sn sen C t F n :
  (length C < fuel)%nat -> shape sen s rp sn C t F -> red t = true -> rbt t n -> ctx_ok C false n ->
  wp (insert_fixup fuel (ptr sen t)) (fun _ => fixed sen rp sn F (inorder (plug C t)) (rb_insert s)) s.
Proof.
  revert s C t n. induction fuel as [|fuel IH]; intros s C t n Hf Hsh Hr Hn HC; [lia|].
  destruct C as [|[d1 [] p pk u1] C]; [by eapply fixup_stops; eauto using red_is_node| |by eapply fixup_stops; eauto using red_is_node].
  pose proof HC as (Hu1 & Hc1 & HC1). destruct (Hc1 eq_refl) as [_ Hru1]. destruct C as [|[d [] g gk u] C]; [done|naive_solver|].
  destruct HC1 as (Hu & _ & HC2). eapply fixup_round; [done|by apply red_is_node|].
  destruct (red u) eqn:Hru.
  - (* the uncle is red *)
    destruct Hsh as [Hsn Hs]. destruct u as [|c ul ua uk ur]; [done|]. cbn in Hru; subst c. cbn [ptr cells ccells cptr] in *.
    rb_run.
    replace g with (ptr sen (node d true (node d1 false t p pk u1) g gk (Node false ul ua uk ur))) at 1 by apply ptr_node.
    eapply wp_mono; [apply (IH _ C _ (S n))|].
    + cbn in Hf. lia.
    + split; [done|]. rewrite ptr_node, cells_node, cells_node, ptr_node. cbn [cells ptr root_of bit] in *. rb_done.
    + apply red_node.
    + apply rbt_node. exists (S n). rewrite red_node. split_and!; try done.
      * apply rbt_node. exists n. by split_and!.
      * cbn in Hu |- *. destruct Hu as (m & -> & ? & ? & ?). by exists m.
    + eapply ctx_ok_black, HC2.
    + intros _ s' (T & HT & Hin & Hrest). exists T. split; [done|]. split; [|done]. cbn [plug].
      rewrite Hin, !inorder_plug. by destruct d, d1.
  - (* the uncle is black: one or two rotations *)
    destruct (red_form d t Hr) as (x & a & k & y & ->). rewrite ptr_node. apply rbt_node in Hn as (m & Em & Hx & Hy & Hc).
    cbn in Em; subst m. destruct (Hc eq_refl) as [Hrx Hry]. clear Hc.
    assert (Hside := shape_side _ _ _ _ _ _ _ _ _ _ _ _ Hsh ltac:(left; by destruct d)). rewrite ptr_node in Hside.
    destruct Hsh as [Hsn Hs]. cbn [ccells cptr] in Hs. rewrite ptr_node, cells_node in Hs. rb_run.
    destruct fuel as [|fuel]; [cbn in Hf; lia|]. destruct (decide (d1 = d)) as [->|Hd].
    + rb_simpl. rewrite (proj2 (Z.eqb_neq _ _) Hside). rb_run.
      eapply (fixup_final _ _ _ _ _ (node d true x a k y) a d p pk u1 g gk u C F n); try done.
      * apply ptr_node.
      * split; [done|]. cbn [ccells cptr root_of] in *. rewrite ptr_node, cells_node. rb_done.
      * apply rbt_node. exists n. by split_and!.
    + replace d1 with (opp d) in * by (by destruct d, d1). rb_simpl. rewrite Z.eqb_refl.
      apply wp_bind, wp_bind. eapply wp_mono.
      { apply (rotate_spec sen s rp sn (Fr d false g gk u :: C) d true u1 p pk true x a k y F). split; [done|].
        cbn [ccells cptr root_of] in *. rewrite ptr_node, cells_node, cells_node, ptr_node. rb_done. }
      cbv beta. clear Hs. intros _ s1 [[_ Hs] <-]. apply wp_ret. cbn [ccells cptr root_of] in Hs.
      rewrite ptr_node, cells_node, ptr_node, cells_node in Hs. rb_run.
      eapply wp_mono; [eapply (fixup_final _ _ _ _ _ (node d true u1 p pk x) p d a k y g gk u C F n)|]; try done.
      * apply ptr_node.
      * split; [done|]. cbn [ccells cptr root_of] in *. rewrite ptr_node, cells_node. rb_done.
      * apply red_node.
      * apply rbt_node. exists n. by split_and!.
      * cbv beta. intros _ s' (T & HT & Hin & Hrest). exists T. split; [done|]. split; [|done]. cbn [plug].
        rewrite Hin, !inorder_plug. f_equal. f_equal. by destruct d; cbn; rewrite <- ?app_assoc; cbn; rewrite <- ?app_assoc.
Qed.

(** ** The place of a new node

    The order of keys is given by a rank: the identity for plain keys, the time
    left for timers. *)

Definition ranked (i : insert_pt) (f : Z -> Z) (ks : list Z) : Prop :=
  forall x y, x ∈ ks -> y ∈ ks -> less i x y = (f x <? f y).

Definition in_order (f : Z -> Z) : list (Z * Z) -> Prop := StronglySorted (fun x y => f x.2 <= f y.2).

(** Insertion into a list, after the entries that are not greater. *)
Fixpoint enqueue (f : Z -> Z) (x : Z * Z) (l : list (Z * Z)) : list (Z * Z) :=
  match l with [] => [x] | y :: l' => if f x.2 <? f y.2 then x :: l else y :: enqueue f x l' end.

Lemma enqueue_app f x l1 l2 :
  Forall (fun y => f y.2 <= f x.2) l1 -> Forall (fun y => f x.2 < f y.2) l2 -> enqueue f x (l1 ++ l2) = l1 ++ x :: l2.
Proof.
  intros H1 H2. induction H1 as [|y l1 Hy H1 IH]; cbn.
  - destruct H2 as [|y l2 Hy H2]; [done|]. cbn. by rewrite (proj2 (Z.ltb_lt _ _) Hy).
  - rewrite (proj2 (Z.ltb_ge _ _) Hy). by f_equal.
Qed.

Lemma in_order_node f l x r :
  in_order f (l ++ x :: r) <->
  in_order f l /\ in_order f r /\ Forall (fun y => f y.2 <= f x.2) l /\ Forall (fun y => f x.2 <= f y.2) r
  /\ (forall y z, y ∈ l -> z ∈ r -> f y.2 <= f z.2).
Proof.
  unfold in_order. induction l as [|y l IH]; cbn.
  - split; [intros [H1 H2]%StronglySorted_inv|intros (_ & H1 & _ & H2 & _)]; [|by constructor].
    split_and!; auto using SSorted_nil. intros y z Hy. by apply elem_of_nil in Hy.
  - split.
    + intros [H1 H2]%StronglySorted_inv. apply IH in H1 as (Hl & Hr & H3 & H4 & H5).
      apply Forall_app in H2 as [H6 H7]. apply Forall_cons in H7 as [H7 H8]. split_and!; try done; try (by constructor).
      intros a b [->|Ha]%elem_of_cons Hb; [|by apply H5]. by eapply Forall_forall in H8.
    + intros ([Hl Hy]%StronglySorted_inv & Hr & H3 & H4 & H5). apply Forall_cons in H3 as [H3 H6]. constructor.
      * apply IH. split_and!; try done. intros a b Ha Hb. apply H5; [by right|done].
      * apply Forall_app. split; [done|]. constructor; [done|]. apply Forall_forall. intros z Hz. apply H5; [by left|done].
Qed.

Lemma in_order_enqueue f x l : in_order f l -> in_order f (enqueue f x l).
Proof.
  unfold in_order. induction 1 as [|y l Hl IH Hy]; cbn; [repeat constructor|].
  destruct (Z.ltb_spec (f x.2) (f y.2)) as [H|H].
  - constructor; [by constructor|]. constructor; [lia|]. eapply Forall_impl; [exact Hy|]. cbn. lia.
  - constructor; [done|]. clear IH Hl. induction Hy as [|z l Hz Hy IH]; cbn; [by repeat constructor|].
    destruct (f x.2 <? f z.2); repeat constructor; auto.
Qed.

Section InsertValue.
Context (sen : Z) (i : insert_pt) (f : Z -> Z).

Lemma shape_ptr s rp sn C t F : shape sen s rp sn C t F -> is_node t -> (ptr sen t =? sen) = false.
Proof.
  intros Hs Ht. destruct (shape_nodup _ _ _ _ _ _ _ Hs) as (H1 & _). apply Z.eqb_neq. intros E. apply H1.
  rewrite <- E at 1. by apply ptr_in.
Qed.

Lemma attach_spec s rp sn d c b q u C a n F :
  shape sen s rp sn (Fr d c b q u :: C) Leaf ((a, n) :: F) ->
  wp (set_child d b a;; set_parent a b;; set_child Lf a sen;; set_child Rt a sen;; ngx_rbt_red a)
    (fun _ s' => shape sen s' rp sn (Fr d c b q u :: C) (Node true Leaf a (rb_key n) Leaf) F /\ rb_insert s' = rb_insert s) s.
Proof.
  intros [Hsn Hs]. cbn [ptr cells ccells cptr root_of] in *. rb_run. split; [|done]. split; [done|].
  cbn [ptr cells ccells cptr root_of bit mk]. destruct n; cbn in *. rb_done.
Qed.

(** The walk down to the place of the new node [a]. *)
Lemma insert_value_spec fuel s rp sn a n C t F :
  (length (inorder t) < fuel)%nat -> is_node t -> shape sen s rp sn C t ((a, n) :: F) ->
  ranked i f (rb_key n :: (inorder t).*2) -> in_order f (inorder t) ->
  Forall (fun y => f y.2 <= f (rb_key n)) (before C) -> Forall (fun y => f (rb_key n) < f y.2) (after C) ->
  wp (insert_value i fuel (ptr sen t) a)
    (fun _ s' => exists C', plug C' Leaf = plug C t /\ shape sen s' rp sn C' (Node true Leaf a (rb_key n) Leaf) F
       /\ Forall (fun y => f y.2 <= f (rb_key n)) (before C') /\ Forall (fun y => f (rb_key n) < f y.2) (after C')
       /\ rb_insert s' = rb_insert s) s.
Proof.
  revert s fuel C. induction t as [|c l IHl b q r IHr]; intros s fuel C Hf Hn Hsh Hk Ho Hb Ha; [done|].
  destruct fuel as [|fuel]; [lia|]. cbn [insert_value]. pose proof Hsh as [Hsn Hs]. cbn [ptr cells inorder] in *.
  apply in_order_node in Ho as (Hol & Hor & H1 & H2 & H3). cbn [snd] in *. rewrite fmap_app in Hk. cbn in Hk. rewrite length_app in Hf.
  cbn [length] in Hf. rb_run. cbn [mk rb_key]. rewrite (Hk (rb_key n) q) by set_solver.
  assert (Hkl : ranked i f (rb_key n :: (inorder l).*2)) by (intros x y Hx Hy; apply Hk; set_solver).
  assert (Hkr : ranked i f (rb_key n :: (inorder r).*2)) by (intros x y Hx Hy; apply Hk; set_solver).
  destruct (Z.ltb_spec (f (rb_key n)) (f q)) as [Hlt|Hge]; rb_run; cbn [child rb_left rb_right].
  - apply (shape_up _ _ _ _ Lf) in Hsh.
    assert (Hal : Forall (fun y => f (rb_key n) < f y.2) (after (Fr Lf c b q r :: C))).
    { cbn. constructor; [done|]. apply Forall_app. split; [|done]. eapply Forall_impl; [exact H2|]. cbn. lia. }
    destruct (decide (l = Leaf)) as [->|Hl].
    + rewrite Z.eqb_refl. eapply wp_mono; [by apply attach_spec|]. cbv beta. intros _ s' [Hs' E]. by exists (Fr Lf c b q r :: C).
    + assert (Hnl : is_node l) by by destruct l. rewrite (shape_ptr _ _ _ _ _ _ Hsh Hnl).
      eapply wp_mono; [apply (IHl _ _ (Fr Lf c b q r :: C)); try done; lia|]. done.
  - apply (shape_up _ _ _ _ Rt) in Hsh.
    assert (Hbr : Forall (fun y => f y.2 <= f (rb_key n)) (before (Fr Rt c b q l :: C))).
    { cbn. apply Forall_app. split; [done|]. apply Forall_app. split; [|by repeat constructor].
      eapply Forall_impl; [exact H1|]. cbn. lia. }
    destruct (decide (r = Leaf)) as [->|Hr].
    + rewrite Z.eqb_refl. eapply wp_mono; [by apply attach_spec|]. cbv beta. intros _ s' [Hs' E]. by exists (Fr Rt c b q l :: C).
    + assert (Hnr : is_node r) by by destruct r. rewrite (shape_ptr _ _ _ _ _ _ Hsh Hnr).
      eapply wp_mono; [apply (IHr _ _ (Fr Rt c b q l :: C)); try done; lia|]. done.
Qed.
End InsertValue.

(** ** Insertion *)

(** A red-black tree with the nodes [l] (addresses and keys) from left to
    right; [F] are other nodes in memory. *)
Definition has_tree (sen : Z) (s : rb_tree) (l : list (Z * Z)) (F : list (Z * rb_node)) : Prop :=
  exists rp sn t, shape sen s rp sn [] t F /\ valid t /\ inorder t = l.

Lemma length_cells sen par t : length (cells sen par t) = length (inorder t).
Proof. revert par; induction t as [|c l IHl a k r IHr]; intros par; cbn; [done|]. rewrite !length_app, IHl, IHr. cbn. lia. Qed.

Lemma length_path C t : (length C <= length (inorder (plug C t)))%nat.
Proof.
  revert t; assert (HH : forall t, (length C + length (inorder t) <= length (inorder (plug C t)))%nat); [|intros t; specialize (HH t); lia].
  induction C as [|[[] c a k u] C IH]; intros t; cbn [plug length]; [lia|..];
    (etransitivity; [|apply IH]); cbn; rewrite length_app; cbn; lia.
Qed.

Lemma shape_size sen s rp sn C t F : shape sen s rp sn C t F -> (length (inorder (plug C t)) < size (rb_nodes s))%nat.
Proof.
  intros Hs. rewrite shape_plug in Hs. destruct Hs as [_ Hs%sees_size]. revert Hs.
  cbn. rewrite length_app, length_cells. lia.
Qed.

(** The root is made black. *)
Lemma black_root sen s rp sn F l i :
  fixed sen rp sn F l i s -> wp (root ← get_root; ngx_rbt_black root) (fun _ s' => has_tree sen s' l F /\ rb_insert s' = i) s.
Proof.
  intros (t & [Hsn Hs] & <- & Hn & [n Ht] & <-). destruct t as [|c l a k r]; [done|]. cbn [ptr cells root_of ccells cptr] in *.
  rb_run. split; [|done]. exists rp, sn, (blacken (Node c l a k r)). split_and!; [| |done].
  - split; [done|]. cbn [ptr cells root_of ccells cptr blacken bit]. rb_done.
  - split; [done|]. by eapply rbt_blacken.
Qed.

Lemma insert_spec sen f s l a n F :
  has_tree sen s l ((a, n) :: F) -> ranked (rb_insert s) f (rb_key n :: l.*2) -> in_order f l ->
  wp (ngx_rbtree_insert a) (fun _ s' => has_tree sen s' (enqueue f (a, rb_key n) l) F /\ rb_insert s' = rb_insert s) s.
Proof.
  intros (rp & sn & t & Hsh & Hv & <-) Hk Ho. assert (Hsize := shape_size _ _ _ _ _ _ _ Hsh). cbn [plug] in Hsize.
  unfold ngx_rbtree_insert. pose proof Hsh as [Hsn Hs]. cbn [root_of ccells] in Hs. rb_run. destruct (decide (t = Leaf)) as [->|Ht].
  - cbn [ptr cells root_of cptr] in *. rewrite Z.eqb_refl. rb_run. split; [|done].
    exists NULL, sn, (Node false Leaf a (rb_key n) Leaf). split_and!; [|by split; [done|]; exists 1%nat, O|done].
    split; [done|]. cbn [ptr cells root_of ccells cptr bit mk]. destruct n; cbn in *. rb_done.
  - assert (Hn : is_node t) by by destruct t. rewrite (shape_ptr _ _ _ _ _ _ _ Hsh Hn).
    apply wp_bind. eexists _, s. split; [done|]. apply wp_bind. eexists _, s. split; [done|]. apply wp_bind.
    eapply wp_mono; [eapply (insert_value_spec sen _ f _ _ _ _ _ _ [] t); try done; lia|].
    cbv beta. intros _ s1 (C & Ep & Hsh1 & Hb & Ha & Ei). cbn [plug] in Ep. subst t.
    assert (Hp := rbt_unplug C Leaf Hv). destruct Hp as (m & HC & Hm). cbn in HC, Hm. subst m. apply wp_bind.
    eapply wp_mono; [eapply (insert_fixup_spec _ _ rp sn sen C (Node true Leaf a (rb_key n) Leaf) F O)|]; try done.
    + assert (H := length_path C Leaf). lia.
    + by exists O.
    + cbv beta. rewrite Ei. intros _ s2 Hfix. eapply wp_mono; [by eapply black_root|]. cbv beta. intros _ s3 [HT E]. split; [|done].
      rewrite !inorder_plug in *. cbn [inorder app] in *. by rewrite enqueue_app.
Qed.
