(* ===== verification/RbDelete.v ===== *)
(** * Deletion from red-black trees

    [ngx_rbtree_delete]: it takes the node out, wherever it is in the tree, and
    keeps the invariant.  A node with two children is replaced by the next one,
    which gets its place, its colour and its children. *)

From stdpp Require Import gmap sorting.
From S2P Require Import Prelude RbTree RbInsert.

(** ** Re-balancing after a deletion *)

(** One black node is missing on the paths through [t]; if [t] is red this can
    be put right by making it black. *)
Definition short (t : tree) (n : nat) : Prop :=
  if red t then rbt (blacken t) (S n) else rbt t n.

(** What the loop ends with: only the node [q] is to be made black. *)
Definition ended (sen rp : Z) (sn : rb_node) (F : list (Z * rb_node)) (l : list (Z * Z)) (i : insert_pt)
    (q : Z) (s : rb_tree) : Prop :=
  exists C t n, q = ptr sen t /\ shape sen s rp sn C t F /\ inorder (plug C t) = l
    /\ rbt (blacken t) n /\ ctx_ok C false n /\ rb_insert s = i.

Definition redden (t : tree) : tree := match t with Leaf => Leaf | Node _ l a k r => Node true l a k r end.

Lemma redden_node d c t a k u : redden (node d c t a k u) = node d true t a k u.
Proof. by destruct d. Qed.

Lemma blacken_node d c t a k u : blacken (node d c t a k u) = node d false t a k u.
Proof. by destruct d. Qed.

Lemma blacken_black t : red t = false -> blacken t = t.
Proof. by destruct t as [|[]]. Qed.

Lemma node_form d t : is_node t -> exists c l a k r, t = node d c l a k r.
Proof. destruct t as [|c l a k r]; [done|]. intros _. destruct d; [by exists c, l, a, k, r|by exists c, r, a, k, l]. Qed.

Lemma inorder_node d c c' t t' a k u u' :
  inorder t = inorder t' -> inorder u = inorder u' -> inorder (node d c t a k u) = inorder (node d c' t' a k u').
Proof. intros E1 E2. destruct d; cbn; by rewrite E1, E2. Qed.

Lemma inorder_rotated d c c' c2 c2' t a k v b k2 w :
  inorder (node d c t a k (node d c2 v b k2 w)) = inorder (node d c' (node d c2' t a k v) b k2 w).
Proof. destruct d; cbn; by rewrite <- ?app_assoc. Qed.

Section DeleteFixup.
Context (sen rp : Z) (sn : rb_node) (F : list (Z * rb_node)).
Implicit Types (s : rb_tree) (C : list frame) (t u : tree).

Abbreviation shape_at s C t := (shape sen s rp sn C t F).

(** The parent of the node at hand; the sentinel has one too. *)
Lemma wp_parent {B} t C (k : Z -> M B) Q s :
  shape_at s C t -> (t = Leaf -> rb_parent sn = cptr rp C) ->
  wp (k (cptr rp C)) Q s -> wp (get rb_parent (ptr sen t) ≫= k) Q s.
Proof.
  intros [Hsn Hs] Hl HQ. destruct t as [|c l a q r]; cbn [ptr cells] in *; rb_run; [|done]. by rewrite Hl.
Qed.

(** The loop stops at the root and at red nodes. *)
Lemma delete_stops fuel s C t n :
  shape_at s C t -> short t n -> ctx_ok C false (S n) -> C = [] \/ red t = true ->
  wp (delete_fixup (S fuel) (ptr sen t)) (ended sen rp sn F (inorder (plug C t)) (rb_insert s)) s.
Proof.
  intros Hsh Ht HC Hd. cbn [delete_fixup]. assert (Hroot := shape_root _ _ _ _ _ _ _ Hsh). pose proof Hsh as [Hsn Hs]. rb_run.
  assert (E : wp (mret (ptr sen t)) (ended sen rp sn F (inorder (plug C t)) (rb_insert s)) s).
  { apply wp_ret. destruct (red t) eqn:Er; unfold short in Ht; rewrite Er in Ht.
    - by exists C, t, (S n).
    - destruct Hd as [->|Hd]; [|done]. exists [], t, n. by rewrite blacken_black. }
  rb_is_red (cptr rp C). rewrite Hroot. destruct Hd as [->|Hd]; [by rewrite bool_decide_eq_true_2|].
  rewrite Hd, orb_true_r. done.
Qed.

(** The sibling is black and its outer child red: a rotation, and the tree is balanced. *)
Lemma delete_last fuel s d fc p pk near w wk far C t n :
  shape_at s (Fr d fc p pk (node d false near w wk far) :: C) t -> red far = true ->
  rbt t n -> rbt near n -> rbt far n -> ctx_ok C fc (if fc then S n else S (S n)) ->
  wp (ngx_rbt_copy_color w p;; ngx_rbt_black p;; far ← get (child (opp d)) w; ngx_rbt_black far;;
      rotate d p;; root ← get_root; delete_fixup (S fuel) root)
    (ended sen rp sn F (inorder (plug C (node d fc t p pk (node d false near w wk far)))) (rb_insert s)) s.
Proof.
  intros Hsh Hr Ht Hnear Hfar HC. destruct Hsh as [Hsn Hs]. cbn [ptr ccells cptr root_of] in Hs. rewrite ptr_node, cells_node in Hs.
  destruct far as [|c fl fa fk fr]; [done|]. cbn in Hr; subst c. cbn [ptr cells] in Hs. rb_run.
  assert (Hsh : shape_at s2 C (node d false t p pk (node d fc near w wk (Node false fl fa fk fr)))).
  { split; [done|]. rewrite ptr_node, cells_node, ptr_node, cells_node. cbn [cells ptr bit] in *. rb_done. }
  apply wp_bind. eapply wp_mono; [exact (rotate_spec _ _ _ _ _ _ _ _ _ _ _ _ _ _ _ _ Hsh)|]. cbv beta.
  intros _ s3 [Hsh3 <-]. set (T := node d fc _ w wk _) in Hsh3.
  assert (HT : valid (plug C T)).
  { apply (rbt_plug _ _ (if fc then S n else S (S n))); [by unfold T; rewrite red_node|]. unfold T. apply rbt_node. exists (S n).
    rewrite red_node. split_and!; [done| |cbn in Hfar |- *; destruct Hfar as (m & -> & ? & ? & ?); by exists m|done].
    apply rbt_node. by exists n. }
  rewrite shape_plug in Hsh3. destruct HT as [HrT [m HT]]. pose proof Hsh3 as [_ Hs3]. cbn [root_of] in Hs3. rb_run.
  eapply wp_mono; [eapply (delete_stops _ _ [] (plug C T) m Hsh3)|]; [by unfold short; rewrite HrT|done|by left|].
  cbn [plug]. replace (inorder (plug C T)) with (inorder (plug C (node d fc t p pk (node d false near w wk (Node true fl fa fk fr)))));
    [done|]. rewrite !inorder_plug. do 2 f_equal. unfold T. by destruct d; cbn; rewrite <- ?app_assoc; cbn.
Qed.

(** The sibling [w] is black.  [parent] and [temp] are unchanged. *)
Lemma delete_black fuel s d fc p pk near w wk far C t n :
  shape_at s (Fr d fc p pk (node d false near w wk far) :: C) t ->
  (t = Leaf -> rb_parent sn = p) -> rbt t n -> rbt near n -> rbt far n -> ctx_ok C fc (if fc then S n else S (S n)) ->
  (forall s', shape_at s' C (node d fc t p pk (node d true near w wk far)) -> red near = false -> red far = false ->
     rb_insert s' = rb_insert s ->
     wp (delete_fixup (S fuel) p)
       (ended sen rp sn F (inorder (plug C (node d fc t p pk (node d false near w wk far)))) (rb_insert s)) s') ->
  wp (near ← get (child d) w;
      far ← get (child (opp d)) w;
      near_red ← ngx_rbt_is_red near;
      far_red ← ngx_rbt_is_red far;
      if negb near_red && negb far_red then
        ngx_rbt_red w;;
        parent ← get rb_parent (ptr sen t);
        delete_fixup (S fuel) parent
      else
        w ← (if negb far_red then
               ngx_rbt_black near;;
               ngx_rbt_red w;;
               rotate (opp d) w;;
               parent ← get rb_parent (ptr sen t);
               get (child (opp d)) parent
             else mret w);
        parent ← get rb_parent (ptr sen t);
        ngx_rbt_copy_color w parent;;
        ngx_rbt_black parent;;
        far ← get (child (opp d)) w;
        ngx_rbt_black far;;
        rotate d parent;;
        root ← get_root;
        delete_fixup (S fuel) root)
    (ended sen rp sn F (inorder (plug C (node d fc t p pk (node d false near w wk far)))) (rb_insert s)) s.
Proof.
  intros Hsh Hl Ht Hnear Hfar HC Hup. pose proof Hsh as [Hsn Hs]. cbn [ccells cptr root_of] in Hs. rewrite ptr_node, cells_node in Hs.
  rb_run. rb_is_red w. rb_is_red w. destruct (red far) eqn:Hrf; cbn [negb]; [|destruct (red near) eqn:Hrn; cbn [negb andb]].
  - (* outer child red *)
    rewrite andb_false_r. rb_run. eapply wp_parent; [done|done|]. by eapply delete_last.
  - (* inner child red *)
    destruct (red_form d near Hrn) as (nn & na & nk & nf & ->). apply rbt_node in Hnear as (m & Em & Hnn & Hnf & Hc).
    cbn in Em; subst m. rewrite ptr_node, cells_node in *. rb_run.
    assert (Hw : shape_at s1 (Fr (opp d) fc p pk t :: C) (node (opp d) true far w wk (node (opp d) false nf na nk nn))).
    { split; [done|]. cbn [ccells cptr root_of] in *. rewrite ptr_node, cells_node, ptr_node, cells_node. rb_simpl. rb_done. }
    apply wp_bind. eapply wp_mono; [exact (rotate_spec _ _ _ _ _ _ _ _ _ _ _ _ _ _ _ _ Hw)|]. cbv beta. clear Hw Hs.
    intros _ s2 [Hw E2]. rewrite !node_opp, shape_up, node_opp, <- shape_up in Hw. rb_run.
    eapply wp_parent; [done|done|]. pose proof Hw as [_ Hs]. cbn [ccells cptr root_of] in Hs. rewrite ptr_node in Hs. cbn [cptr]. rb_run.
    eapply wp_parent; [done|done|]. eapply wp_mono.
    { eapply (delete_last fuel s2 d fc p pk nn na nk _ C t n Hw); try done; [apply red_node|].
      apply rbt_node. exists n. naive_solver. }
    cbv beta. intros q s3 (C' & t' & m & ? & ? & Hin & ? & ? & Ei). exists C', t', m. split; [done|]. split; [done|].
    split; [|by rewrite Ei, E2]. rewrite Hin, !inorder_plug. do 2 f_equal. apply inorder_node; [done|]. symmetry.
    by destruct d; cbn; rewrite <- ?app_assoc.
  - (* both black *)
    rb_run.
    assert (Hw : shape_at s0 (Fr d fc p pk (node d true near w wk far) :: C) t).
    { split; [done|]. cbn [ccells cptr root_of]. rewrite ptr_node, cells_node. rb_done. }
    eapply wp_parent; [exact Hw|done|]. cbn [cptr]. apply Hup; try done. by rewrite <- shape_up.
Qed.
(** The start of a round, up to the colour of the sibling. *)
Lemma delete_round fuel s d fc p pk u C t Q :
  shape_at s (Fr d fc p pk u :: C) t -> (t = Leaf -> rb_parent sn = p) -> is_node u -> red t = false ->
  wp (w ← (if red u : bool then
             ngx_rbt_black (ptr sen u);;
             ngx_rbt_red p;;
             rotate d p;;
             get (child (opp d)) p
           else mret (ptr sen u));
      near ← get (child d) w;
      far ← get (child (opp d)) w;
      near_red ← ngx_rbt_is_red near;
      far_red ← ngx_rbt_is_red far;
      if negb near_red && negb far_red then
        ngx_rbt_red w;;
        parent ← get rb_parent (ptr sen t);
        delete_fixup fuel parent
      else
        w ← (if negb far_red then
               ngx_rbt_black near;;
               ngx_rbt_red w;;
               rotate (opp d) w;;
               parent ← get rb_parent (ptr sen t);
               get (child (opp d)) parent
             else mret w);
        parent ← get rb_parent (ptr sen t);
        ngx_rbt_copy_color w parent;;
        ngx_rbt_black parent;;
        far ← get (child (opp d)) w;
        ngx_rbt_black far;;
        rotate d parent;;
        root ← get_root;
        delete_fixup fuel root) Q s ->
  wp (delete_fixup (S fuel) (ptr sen t)) Q s.
Proof.
  intros Hsh Hl Hu Ht HQ. cbn [delete_fixup]. assert (Hroot := shape_root _ _ _ _ _ _ _ Hsh).
  assert (Hside := shape_side _ _ _ _ _ _ _ _ _ _ _ _ Hsh (or_intror Hu)). pose proof Hsh as [Hsn Hs].
  cbn [ccells cptr] in Hs. rb_run. rb_is_red p. rewrite Hroot, Ht, bool_decide_eq_false_2 by done. cbn [orb].
  eapply wp_parent; [done|done|]. cbn [cptr]. rb_run. rewrite side_test by done. rb_simpl. rb_is_red p. done.
Qed.

Lemma delete_fixup_spec fuel s C t n :
  shape_at s C t -> short t n -> ctx_ok C false (S n) -> (t = Leaf -> rb_parent sn = cptr rp C) ->
  (if red t then 1 <= fuel else length C + 2 <= fuel)%nat ->
  wp (delete_fixup fuel (ptr sen t)) (ended sen rp sn F (inorder (plug C t)) (rb_insert s)) s.
Proof.
  revert s C t n. induction fuel as [|fuel IH]; intros s C t n Hsh Ht HC Hl Hf; [destruct (red t); lia|].
  destruct (red t) eqn:Hr; [eapply delete_stops; eauto|]. destruct C as [|[d fc p pk u] C]; [eapply delete_stops; eauto|].
  unfold short in Ht. rewrite Hr in Ht. destruct HC as (Hu & Hc & HC). cbn [length] in Hf.
  assert (Hnu : is_node u) by (destruct u; [discriminate Hu|done]).
  assert (Hup : forall s' C' fc' pk' near w wk far,
    shape_at s' C' (node d fc' t p pk' (node d true near w wk far)) -> red near = false -> red far = false ->
    rbt near n -> rbt far n -> ctx_ok C' fc' (if fc' then S n else S (S n)) ->
    (if fc' then 1 <= fuel else length C' + 2 <= fuel)%nat -> rb_insert s' = rb_insert s ->
    wp (delete_fixup fuel p)
      (ended sen rp sn F (inorder (plug C' (node d fc' t p pk' (node d false near w wk far)))) (rb_insert s)) s').
  { intros s' C' fc' pk' near w wk far Hsh' Hrn Hrf Hn1 Hn2 HC' Hf' <-.
    set (T := node d fc' t p pk' (node d true near w wk far)) in *.
    assert (Ep : ptr sen T = p) by (unfold T; apply ptr_node).
    rewrite <- Ep at 1. replace (inorder _) with (inorder (plug C' T)).
    2: { rewrite !inorder_plug. do 2 f_equal. by apply inorder_node; [|apply inorder_node]. }
    apply (IH _ _ _ (if fc' then n else S n)); [done|..].
    - unfold short, T. rewrite red_node, blacken_node. destruct fc'; apply rbt_node; exists n; split_and!; try done;
        apply rbt_node; exists n; split_and!; done.
    - destruct fc'; eauto using ctx_ok_black.
    - intros E. unfold T in E. by destruct d.
    - unfold T. by rewrite red_node. }
  eapply delete_round; [done|done|done|done|]. destruct (node_form d u Hnu) as (c & near & w & wk & far & ->).
  apply rbt_node in Hu as (m & Em & Hn1 & Hn2 & Hc2). rewrite red_node, ptr_node. destruct fuel as [|fuel]; [lia|]. destruct c.
  - (* the sibling is red *)
    subst m. destruct (Hc2 eq_refl) as [Hrn Hrf]. destruct fc; [rewrite red_node in Hc; naive_solver|].
    destruct Hsh as [Hsn Hs]. cbn [ccells cptr root_of] in Hs. rewrite ptr_node, cells_node in Hs. rb_run.
    assert (Hw : shape_at s1 C (node d true t p pk (node d false near w wk far))).
    { split; [done|]. rewrite ptr_node, cells_node, ptr_node, cells_node. rb_done. }
    apply wp_bind. eapply wp_mono; [exact (rotate_spec _ _ _ _ _ _ _ _ _ _ _ _ _ _ _ _ Hw)|]. cbv beta. clear Hw Hs.
    intros _ s2 [Hw E2]. rewrite <- !shape_up in Hw. pose proof Hw as [_ Hs]. cbn [ccells cptr root_of] in Hs. rb_run.
    destruct near as [|cn nn na nk nf]; [discriminate Hn1|]. cbn in Hrn; subst cn.
    destruct (node_form d (Node false nn na nk nf) ltac:(done)) as (c & n1 & a & k & n2 & En). rewrite En in *.
    assert (c = false) as -> by (by destruct d; injection En). rewrite ptr_node. apply rbt_node in Hn1 as (m & Em & Hm1 & Hm2 & _).
    injection Em as <-.
    eapply wp_mono; [eapply (delete_black fuel s2 d true p pk n1 a k n2 (Fr d false w wk far :: C) t n Hw); try done|].
    + intros s' Hs' H1 H2 Ei. rewrite E2. apply Hup; try done; [|congruence]. lia.
    + cbv beta. rewrite E2. intros q s' (C' & t' & m & ? & ? & Hin & Hrest). exists C', t', m. split; [done|]. split; [done|].
      split; [|done]. rewrite Hin. cbn [plug]. rewrite !inorder_plug. do 2 f_equal. by destruct d; cbn; rewrite <- ?app_assoc; cbn [app]; rewrite <- ?app_assoc.
  - (* the sibling is black *)
    injection Em as <-. rb_run. eapply (delete_black fuel s d fc p pk near w wk far C t n); try done.
    intros s' Hs' H1 H2 Ei. apply Hup; try done. destruct fc; lia.
Qed.
End DeleteFixup.

(** ** Paths *)

Lemma plug_app D C t : plug (D ++ C) t = plug C (plug D t).
Proof. revert t; induction D as [|[d c a k u] D IH]; intros t; cbn; [done|]. apply IH. Qed.

Lemma ptr_plug sen D t : ptr sen (plug D t) = root_of D (ptr sen t).
Proof. revert t; induction D as [|[d c a k u] D IH]; intros t; cbn; [done|]. by rewrite IH, ptr_node. Qed.

Lemma root_of_app D C p : root_of (D ++ C) p = root_of C (root_of D p).
Proof. revert p; induction D as [|[d c a k u] D IH]; intros p; cbn; [done|]. apply IH. Qed.

Lemma cptr_app rp D C : cptr rp (D ++ C) = cptr (cptr rp C) D.
Proof. by destruct D as [|[]]. Qed.

Lemma ccells_app sen rp D C p : ccells sen rp (D ++ C) p ≡ₚ ccells sen (cptr rp C) D p ++ ccells sen rp C (root_of D p).
Proof.
  revert p; induction D as [|[d c a k u] D IH]; intros p; cbn; [done|]. rewrite IH, cptr_app, app_assoc. done.
Qed.

Lemma cells_plug sen par D t : cells sen par (plug D t) ≡ₚ cells sen (cptr par D) t ++ ccells sen par D (ptr sen t).
Proof.
  revert t; induction D as [|[d c a k u] D IH]; intros t; cbn; [by rewrite app_nil_r|].
  rewrite IH, cells_node, ptr_node. solve_Permutation.
Qed.

Lemma before_app D C : before (D ++ C) = before C ++ before D.
Proof. induction D as [|[[] c a k u] D IH]; cbn; [by rewrite app_nil_r|done|]. rewrite IH. by rewrite <- app_assoc. Qed.

Lemma after_app D C : after (D ++ C) = after D ++ after C.
Proof. induction D as [|[[] c a k u] D IH]; cbn; [done| |done]. rewrite IH. by rewrite <- app_assoc. Qed.

(** Where a node is. *)
Lemma locate t l1 a k l2 :
  inorder t = l1 ++ (a, k) :: l2 ->
  exists C c l r, t = plug C (Node c l a k r) /\ l1 = before C ++ inorder l /\ l2 = inorder r ++ after C.
Proof.
  revert l1 l2; induction t as [|c l IHl b q r IHr]; intros l1 l2; cbn; [by destruct l1|].
  intros E. apply app_eq_app in E as (m & [[El Er]|[El Er]]).
  - destruct m as [|x m]; cbn in Er; simplify_eq.
    + rewrite app_nil_r in El. subst l1. exists [], c, l, r. cbn. by rewrite app_nil_r.
    + destruct (IHl _ _ El) as (C & c' & l' & r' & -> & -> & ->).
      exists (C ++ [Fr Lf c b q r]), c', l', r'. rewrite plug_app, before_app, after_app. cbn. by rewrite app_nil_r, app_assoc.
  - destruct m as [|x m]; cbn in Er.
    + injection Er as <- <- <-. subst l1. exists [], c, l, r. cbn. by rewrite !app_nil_r.
    + injection Er as <- Er. subst l1. destruct (IHr _ _ Er) as (C & c' & l' & r' & -> & -> & ->).
      exists (C ++ [Fr Rt c b q l]), c', l', r'. rewrite plug_app, before_app, after_app. cbn. by rewrite app_nil_r, <- !app_assoc.
Qed.

(** ** The leftmost node *)

Definition to_left (f : frame) : Prop := match f with Fr d _ _ _ _ => d = Lf end.

Lemma before_left D : Forall to_left D -> before D = [].
Proof. induction 1 as [|[d c a k u] D Hd H IH]; cbn; [done|]. cbn in Hd. by subst d. Qed.

Lemma min_loop_spec fuel sen s rp sn C t F :
  (length (inorder t) <= fuel)%nat -> is_node t -> shape sen s rp sn C t F ->
  wp (min_loop fuel (ptr sen t))
    (fun p s' => s' = s /\ exists D c b q r, t = plug D (Node c Leaf b q r) /\ Forall to_left D /\ p = b) s.
Proof.
  revert C fuel; induction t as [|c l IHl b q r _]; intros C fuel Hf Hn Hsh; [done|].
  destruct fuel as [|fuel]; [cbn in Hf; rewrite length_app in Hf; cbn in Hf; lia|]. cbn [min_loop].
  pose proof Hsh as [Hsn Hs]. cbn [ptr cells] in *. rb_run. cbn [mk rb_left]. apply (shape_up _ _ _ _ Lf) in Hsh.
  destruct (decide (l = Leaf)) as [->|Hl].
  - rewrite Z.eqb_refl. apply wp_ret. split; [done|]. by exists [], c, b, q, r.
  - assert (Hnl : is_node l) by by destruct l. rewrite (shape_ptr _ _ _ _ _ _ _ Hsh Hnl).
    eapply wp_mono; [apply (IHl (Fr Lf c b q r :: C))|]; [cbn in Hf; rewrite length_app in Hf; cbn in Hf; lia|done..|].
    cbv beta. intros p s' (-> & D & c' & b' & q' & r' & -> & HD & ->). split; [done|].
    exists (D ++ [Fr Lf c b q r]), c', b', q', r'. rewrite plug_app. split; [done|]. split; [|done].
    apply Forall_app. split; [done|]. by repeat constructor.
Qed.

Lemma min_spec sen s rp sn C t F :
  is_node t -> shape sen s rp sn C t F ->
  wp (ngx_rbtree_min (ptr sen t))
    (fun p s' => s' = s /\ exists D c b q r, t = plug D (Node c Leaf b q r) /\ Forall to_left D /\ p = b) s.
Proof.
  intros Hn Hsh. unfold ngx_rbtree_min. apply wp_bind. eexists _, s. split; [done|]. eapply min_loop_spec; [|done|done].
  apply shape_size in Hsh. rewrite inorder_plug, !length_app in Hsh. lia.
Qed.

(** ** Deletion *)

Lemma short_rbt t m : rbt t m -> short t m.
Proof. unfold short. destruct t as [|[] l a k r]; cbn; try done. intros (n & -> & ? & ? & ?). by exists n. Qed.

Lemma black_end sen rp sn F l i q s :
  ended sen rp sn F l i q s -> wp (ngx_rbt_black q) (fun _ s' => has_tree sen s' l F /\ rb_insert s' = i) s.
Proof.
  intros (C & t & n & -> & [Hsn Hs] & <- & Ht & HC & <-).
  assert (Hv : valid (plug C (blacken t))) by (eapply rbt_plug; [|done]; by destruct t).
  assert (Hin : inorder (plug C (blacken t)) = inorder (plug C t)) by (rewrite !inorder_plug; by rewrite inorder_blacken).
  destruct t as [|c l a k r]; cbn [ptr cells blacken] in *; rb_run; (split; [|done]).
  - exists rp, (sn <| rb_color := 0 |>), (plug C Leaf). split_and!; [|done|done]. rewrite <- shape_plug. split; [done|].
    cbn [ptr cells]. rb_done.
  - exists rp, sn, (plug C (Node false l a k r)). split_and!; [|done|done]. rewrite <- shape_plug. split; [done|].
    cbn [ptr cells bit]. rb_done.
Qed.

Lemma delete_finish fuel sen s rp sn C x F m (c : bool) :
  shape sen s rp sn C x F -> rbt x m -> (if c then red x = false /\ ctx_ok C true m else ctx_ok C false (S m)) ->
  (x = Leaf -> rb_parent sn = cptr rp C) -> (length C + 2 <= fuel)%nat ->
  wp (if c then (mret tt : M unit) else temp ← delete_fixup fuel (ptr sen x); ngx_rbt_black temp)
    (fun _ s' => has_tree sen s' (inorder (plug C x)) F /\ rb_insert s' = rb_insert s) s.
Proof.
  intros Hsh Hx HC Hl Hf. destruct c.
  - destruct HC as [Hr HC]. apply wp_ret. split; [|done]. exists rp, sn, (plug C x). rewrite <- shape_plug. split_and!; [done| |done].
    apply (rbt_plug _ _ m); [|done]. rewrite Hr. by eapply ctx_ok_black.
  - apply wp_bind. eapply wp_mono; [apply (delete_fixup_spec sen rp sn F fuel s C x m); auto using short_rbt|].
    + destruct (red x); lia.
    + cbv beta. intros q s' Hend. by eapply black_end.
Qed.

(** [temp->parent = v], where [temp] may be the sentinel. *)
Lemma wp_set_parent {B} sen t v (k : unit -> M B) Q s r sn L par L' :
  sees s sen r L -> L ≡ₚ (sen, sn) :: cells sen par t ++ L' -> rb_color sn = 0 ->
  (forall s' sn', sees s' sen r ((sen, sn') :: cells sen v t ++ L') -> rb_color sn' = 0 -> (t = Leaf -> rb_parent sn' = v) ->
     rb_insert s' = rb_insert s -> wp (k tt) Q s') ->
  wp (set_parent (ptr sen t) v ≫= k) Q s.
Proof.
  intros Hs HL Hsn HQ. rewrite HL in Hs. destruct t as [|c l a q u]; cbn [ptr cells] in *; rb_run.
  - apply (HQ _ (sn <| rb_parent := v |>)); [|done..]. cbn [cells]. rb_done.
  - apply (HQ _ sn); [|done..]. cbn [cells ptr]. rb_done.
Qed.

Ltac rb_set_parent par :=
  lazymatch goal with
  | H : sees ?s ?sen ?r ?L |- wp (set_parent (ptr ?sen ?t) ?v ≫= ?k) ?Q ?s =>
    let x := pull sen L in
    lazymatch x with
    | (?sn, ?l) =>
      let l' := without (cells sen par t) l in
      apply (wp_set_parent sen t v k Q s r sn L par l' H); [solve_Permutation|done|];
      let s' := fresh "s" in let sn' := fresh "sn" in let H' := fresh "Hs" in let E := fresh "E" in
      let Hc := fresh "Hc" in let Hp := fresh "Hp" in
      intros s' sn' H' Hc Hp E; rewrite <- ?E in *; clear H; cbv beta
    end
  end.

Ltac rb_relink_frame f C rp :=
  lazymatch goal with
  | H : sees ?s ?sen ?r ?L |- wp (relink ?d _ ?a ?b ≫= ?k) ?Q ?s =>
    let l' := without (ccells sen rp (f :: C) a) L in
    lazymatch f with
    | Fr ?d' ?c ?p ?q ?u =>
      apply (wp_relink_frame sen d d' c p q u C a b rp k Q s r L l' H); [solve_Permutation|done|];
      let s' := fresh "s" in let H' := fresh "Hs" in let E := fresh "E" in
      intros s' H' E; rewrite <- ?E in *; clear H; cbv beta
    end
  end.

(** A node with at most one child. *)
Lemma delete_simple sen s rp sn C d c x a k F fuel :
  shape sen s rp sn C (node d c x a k Leaf) F -> valid (plug C (node d c x a k Leaf)) -> (length C + 2 <= fuel)%nat ->
  wp (delete_subst fuel a (ptr sen x) a)
    (fun _ s' => exists n0, has_tree sen s' (inorder (plug C x)) ((a, n0) :: F) /\ rb_insert s' = rb_insert s) s.
Proof.
  intros Hsh Hv Hf. assert (Hroot := shape_root _ _ _ _ _ _ _ Hsh). rewrite ptr_node in Hroot.
  assert (Hside : forall d' c p q u' C', C = Fr d' c p q u' :: C' -> a <> ptr sen u').
  { intros d' c' p q u' C' ->. apply shape_side in Hsh; [by rewrite ptr_node in Hsh|left; by destruct d]. }
  apply rbt_unplug in Hv as (n & HC & Hn). rewrite red_node in HC. apply rbt_node in Hn as (m & -> & Hx & Hm & Hc). cbn in Hm; subst m.
  pose proof Hsh as [Hsn Hs]. rewrite ptr_node, cells_node in Hs. cbn [cells ptr] in Hs.
  unfold delete_subst. rb_run. rewrite Hroot. destruct C as [|[d' fc p q u] C].
  - rewrite bool_decide_eq_true_2 by done. cbn [root_of ccells cptr ctx_ok] in *. subst c. rb_run.
    assert (Hend : ended sen a sn ((a, mk d k (ptr sen x) sen rp 0) :: F) (inorder x) (rb_insert s) (ptr sen x) s0).
    { exists [], x. destruct (rbt_blacken _ _ Hx) as [m Hb]. exists m. split; [done|]. split; [|done]. split; [done|]. cbn. rb_done. }
    apply wp_bind. eapply wp_mono; [by eapply black_end|]. cbv beta. clear Hs0 Hend.
    intros _ s1 [(rp' & sn' & t' & [Hsn' Hs1] & Hrest) E1]. unfold clear_node. rb_run.
    eexists. split; [|congruence]. exists rp', sn', t'. split; [|done]. split; [done|]. rb_done.
  - rewrite bool_decide_eq_false_2 by done. cbn [cptr] in *. rb_run.
    assert (Hu := Hside _ _ _ _ _ _ eq_refl). rb_relink_frame (Fr d' fc p q u) C rp. rewrite Z.eqb_refl.
    rb_set_parent a. unfold clear_node. rb_run.
    eapply wp_mono; [eapply (delete_finish fuel sen _ rp sn0 (Fr d' fc p q u :: C) x
      ((a, cleared (mk d k (ptr sen x) sen p (bit c))) :: F) O c)|]; try done.
    + split; [done|]. cbn [cptr root_of] in *. rb_done.
    + destruct c; [|done]. naive_solver.
    + cbv beta. intros _ s' [HT Ei]. by eexists.
Qed.

(** A node with two children: the leftmost node [b] on its right takes its place. *)
Lemma sees_differ s sen r a n L : sees s sen r ((a, n) :: L) -> forall b n', (b, n') ∈ L -> b <> a.
Proof. intros Hs b n' Hb ->. apply sees_cons in Hs as [_ Hn]. apply Hn. by apply (list_elem_of_fmap_2 fst L (a, n')). Qed.

Lemma take_place_spec sen s rp sn C c l a k par t b kb p q pp cb F :
  sees s sen (root_of C a)
    ((sen, sn) :: cells sen par t ++ (a, mk Lf k (ptr sen l) (ptr sen t) (cptr rp C) (bit c)) :: cells sen a l
       ++ ccells sen rp C a ++ (b, mk Lf kb p q pp cb) :: F) ->
  (a =? root_of C a) = bool_decide (C = []) ->
  (forall d' c p q u C', C = Fr d' c p q u :: C' -> a <> ptr sen u) ->
  wp (take_place a b)
    (fun _ s' => sees s' sen (root_of C b)
      ((sen, sn) :: cells sen b t ++ (b, mk Lf kb (ptr sen l) (ptr sen t) (cptr rp C) (bit c)) :: cells sen b l
         ++ ccells sen rp C b ++ (a, mk Lf k (ptr sen l) (ptr sen t) (cptr rp C) (bit c)) :: F)
      /\ rb_insert s' = rb_insert s) s.
Proof.
  intros Hs Hroot Hside. unfold take_place. rb_run. rb_relink C rp. rb_run. rb_adopt a. rb_run. apply wp_tail. rb_adopt par.
  apply wp_ret. split; [|done]. rb_done.
Qed.

Lemma ctx_ok_rename D d c a k b q u C c' n : ctx_ok (D ++ Fr d c a k u :: C) c' n -> ctx_ok (D ++ Fr d c b q u :: C) c' n.
Proof. revert c' n; induction D as [|[d1 c1 a1 k1 u1] D IH]; intros c' n; cbn; naive_solver. Qed.

(** The parent of what is below a path, when the parent of the path changes. *)
Lemma cptr_change a b D sen p : a ∉ (ccells sen a D p).*1 -> (if cptr a D =? a then b else cptr a D) = cptr b D.
Proof.
  destruct D as [|[d c z k u] D]; cbn; [by rewrite Z.eqb_refl|]. intros H.
  rewrite (proj2 (Z.eqb_neq z a)); [done|]. intros ->. apply H. by left.
Qed.

Lemma cells_path sen a b D x :
  cells sen (cptr b D) x ++ ccells sen a D (ptr sen x) ≡ₚ cells sen (if decide (D = []) then b else a) (plug D x).
Proof.
  destruct (decide (D = [])) as [->|HD]; [cbn; by rewrite app_nil_r|]. rewrite cells_plug. by destruct D as [|[]].
Qed.

Lemma delete_two sen s rp sn C c l a k D cs b kb x F fuel :
  shape sen s rp sn C (Node c l a k (plug D (Node cs Leaf b kb x))) F ->
  valid (plug C (Node c l a k (plug D (Node cs Leaf b kb x)))) -> (length D + length C + 3 <= fuel)%nat ->
  wp (delete_subst fuel a (ptr sen x) b)
    (fun _ s' => exists n0, has_tree sen s' (inorder (plug C (Node c l b kb (plug D x)))) ((a, n0) :: F)
       /\ rb_insert s' = rb_insert s) s.
Proof.
  intros Hsh Hv Hf. assert (Hroot := shape_root _ _ _ _ _ _ _ Hsh).
  assert (Hside : forall d' c p q u' C', C = Fr d' c p q u' :: C' -> a <> ptr sen u').
  { intros d' c' p q u' C' ->. apply shape_side in Hsh; [done|by left]. }
  change (Node c l a k (plug D (Node cs Leaf b kb x))) with (node Rt c (plug D (Node cs Leaf b kb x)) a k l) in *.
  rewrite <- shape_up, shape_plug, <- plug_app, <- shape_plug in Hsh.
  change (plug C (node Rt c (plug D (Node cs Leaf b kb x)) a k l)) with (plug (Fr Rt c a k l :: C) (plug D (Node cs Leaf b kb x))) in Hv.
  rewrite <- plug_app in Hv. apply rbt_unplug in Hv as (n & HC & Hn). cbn [red] in HC.
  assert (Hrb := shape_root _ _ _ _ _ _ _ Hsh). cbn [ptr node] in Hroot, Hrb.
  assert (HK : D ++ Fr Rt c a k l :: C <> []) by by destruct D.
  pose proof Hsh as [Hsn Hs]. cbn [cells ptr app] in Hs. unfold delete_subst. rb_run. rewrite Hrb, bool_decide_eq_false_2 by done.
  rb_run. 
  destruct (D ++ Fr Rt c a k l :: C) as [|[d' fc p q u] K] eqn:EK; [done|]. cbn [cptr] in *.
  assert (Hu : b <> ptr sen u) by (apply shape_side in Hsh; [done|by left]).
  assert (Ep : p = cptr a D) by (destruct D as [|[]]; cbn in EK |- *; congruence).
  rb_relink_frame (Fr d' fc p q u) K rp. rewrite <- EK in Hs0, HC.
  rewrite ccells_app, root_of_app in Hs0. cbn [ccells cptr root_of] in Hs0.
  assert (Hs1 : sees s0 sen (root_of C a) ((a, mk Rt k (root_of D (ptr sen x)) (ptr sen l) (cptr rp C) (bit c))
    :: ccells sen a D (ptr sen x) ++ (cells sen a l ++ ccells sen rp C a) ++ (sen, sn)
    :: (b, mk Lf kb sen (ptr sen x) p (bit cs)) :: cells sen b x ++ F)) by rb_done.
  assert (Hba : b <> a) by (eapply sees_differ; [exact Hs1|]; rewrite !elem_of_app, !elem_of_cons; tauto).
  assert (HDa : a ∉ (ccells sen a D (ptr sen x)).*1).
  { apply sees_cons in Hs1 as [_ H]. rewrite fmap_app, elem_of_app in H. tauto. }
  clear Hs1. rewrite (proj2 (Z.eqb_neq _ _) Hba), Ep, (cptr_change a b D sen (ptr sen x) HDa). rb_run. rb_set_parent b.
  rewrite mk_right, <- ptr_plug in Hs.
  apply wp_bind. eapply wp_mono.
  { apply (take_place_spec sen _ rp sn0 C c l a k (if decide (D = []) then b else a) (plug D x) b kb sen (ptr sen x) (cptr a D) (bit cs) F);
      [|done|done]. rewrite <- cells_path. rewrite Ep in Hs. rb_done. }
  cbv beta. clear Hs E E0. intros _ s2 [Hs2 Ei]. rewrite <- Ei. unfold clear_node. rb_run.
  set (F' := (a, cleared (mk Lf k (ptr sen l) (ptr sen (plug D x)) (cptr rp C) (bit c))) :: F).
  assert (Hsh2 : shape sen s3 rp sn0 (D ++ Fr Rt c b kb l :: C) x F').
  { rewrite shape_plug, plug_app, <- shape_plug. split; [done|]. cbn [cptr ccells root_of].
    rewrite mk_right. unfold F'. rb_done. }
  apply rbt_node with (d := Lf) in Hn as (m & -> & Hm & Hx & Hcx). cbn in Hm; subst m.
  assert (HC2 := ctx_ok_rename _ _ _ _ _ b kb _ _ _ _ HC).
  eapply wp_mono; [apply (delete_finish fuel sen s3 rp sn0 _ x F' O cs Hsh2 Hx)|].
  - destruct cs; [|done]. split; [by apply Hcx|done].
  - by rewrite cptr_app.
  - rewrite length_app. cbn. lia.
  - cbv beta. rewrite plug_app. cbn [plug node]. intros _ s4 [HT E4]. by eexists.
Qed.

(** ** The theorem *)

Lemma delete_spec sen s l1 a k l2 F :
  has_tree sen s (l1 ++ (a, k) :: l2) F ->
  wp (ngx_rbtree_delete a) (fun _ s' => exists n0, has_tree sen s' (l1 ++ l2) ((a, n0) :: F) /\ rb_insert s' = rb_insert s) s.
Proof.
  intros (rp & sn & t & Hsh & Hv & Hin). destruct (locate _ _ _ _ _ Hin) as (C & c & l & r & -> & -> & ->). clear Hin.
  assert (Hsize := shape_size _ _ _ _ _ _ _ Hsh). cbn [plug] in Hsize. rewrite <- shape_plug in Hsh.
  pose proof Hsh as [Hsn Hs]. cbn [ptr cells] in Hs. unfold ngx_rbtree_delete. rb_run.
  apply wp_bind. eexists _, s. split; [done|]. rb_run.
  destruct (decide (l = Leaf)) as [->|Hl].
  - rewrite Z.eqb_refl. eapply wp_mono; [apply (delete_simple sen s rp sn C Rt c r a k F); try done|].
    + assert (H := length_path C (Node c Leaf a k r)). lia.
    + cbv beta. intros _ s' (n0 & HT & Ei). exists n0. split; [|done]. rewrite inorder_plug in HT. cbn. by rewrite app_nil_r.
  - assert (Hnl : is_node l) by by destruct l.
    rewrite (shape_ptr _ _ _ _ _ _ _ (proj2 (shape_up _ _ _ _ Lf _ _ _ _ _ _ _) Hsh) Hnl).
    destruct (decide (r = Leaf)) as [->|Hr].
    + rewrite Z.eqb_refl. eapply wp_mono; [apply (delete_simple sen s rp sn C Lf c l a k F); try done|].
      * assert (H := length_path C (Node c l a k Leaf)). lia.
      * cbv beta. intros _ s' (n0 & HT & Ei). exists n0. split; [|done]. rewrite inorder_plug in HT. cbn. by rewrite <- app_assoc.
    + assert (Hnr : is_node r) by by destruct r. assert (Hshr := proj2 (shape_up _ _ _ _ Rt _ _ _ _ _ _ _) Hsh).
      rewrite (shape_ptr _ _ _ _ _ _ _ Hshr Hnr). apply wp_bind. eapply wp_mono; [eapply min_spec; done|].
      cbv beta. intros p s' (-> & D & cs & b & kb & x & -> & HD & ->).
      assert (Hs' := Hs). rewrite cells_plug in Hs'. cbn [cells ptr app] in Hs'. clear Hs. rb_run.
      cbn [mk rb_left rb_right]. rewrite Z.eqb_refl. cbn [negb].
      eapply wp_mono; [eapply delete_two; try done|].
      * assert (H := length_path (D ++ Fr Rt c a k l :: C) (Node cs Leaf b kb x)). rewrite plug_app, length_app in H. cbn in H |- *. lia.
      * cbv beta. intros _ s' (n0 & HT & Ei). exists n0. split; [|done]. revert HT.
        rewrite !inorder_plug. cbn [inorder]. rewrite !inorder_plug, (before_left D) by done. cbn. rewrite <- !app_assoc. cbn. by rewrite <- !app_assoc.
Qed.

(** ** Reading the tree in order *)

Lemma has_tree_root sen s l F : has_tree sen s l F -> (rb_root s =? rb_sentinel s) = bool_decide (l = []).
Proof.
  intros (rp & sn & t & Hsh & _ & <-). pose proof Hsh as [_ Hs]. rewrite (see_root _ _ _ _ Hs), (see_sentinel _ _ _ _ Hs).
  destruct t as [|c l a k r]; [apply Z.eqb_refl|]. cbn [root_of]. rewrite (shape_ptr _ _ _ _ _ _ _ Hsh) by done.
  symmetry. apply bool_decide_eq_false. cbn. by destruct (inorder l).
Qed.

Lemma first_spec sen s a k l F :
  has_tree sen s ((a, k) :: l) F -> wp (ngx_rbtree_min (rb_root s)) (fun p s' => s' = s /\ p = a) s.
Proof.
  intros (rp & sn & t & Hsh & _ & Hin). pose proof Hsh as [_ Hs]. rewrite (see_root _ _ _ _ Hs). cbn [root_of].
  eapply wp_mono; [eapply min_spec; [|done]; by destruct t|]. cbv beta. intros p s' (-> & D & c & b & q & r & -> & HD & ->).
  split; [done|]. rewrite inorder_plug, before_left in Hin by done. cbn in Hin. congruence.
Qed.

Lemma cells_keys sen par t : (fun x => (x.1, rb_key x.2)) <$> cells sen par t ≡ₚ inorder t.
Proof.
  revert par; induction t as [|c l IHl a k r IHr]; intros par; cbn; [done|]. rewrite fmap_app, IHl, IHr. by rewrite Permutation_middle.
Qed.

(** The keys in memory, and the addresses. *)
Lemma has_tree_key sen s l F e k : has_tree sen s l F -> (e, k) ∈ l -> exists n, rb_nodes s !! e = Some n /\ rb_key n = k.
Proof.
  intros (rp & sn & t & [_ [_ _ Hc _]] & _ & <-) He. rewrite <- (cells_keys sen (cptr rp []) t) in He.
  apply list_elem_of_fmap in He as ([e' n] & [= -> ->] & Hin). exists n. split; [|done]. rewrite Forall_forall in Hc.
  apply (Hc (e', n)). right. apply elem_of_app. by left.
Qed.

Lemma has_tree_nodup sen s l F : has_tree sen s l F -> NoDup (l.*1 ++ F.*1).
Proof.
  intros (rp & sn & t & [_ [_ _ _ Hn]] & _ & <-). cbn in Hn. rewrite fmap_app in Hn. apply NoDup_cons in Hn as [_ Hn].
  rewrite <- (cells_keys sen rp t), <- list_fmap_compose. exact Hn.
Qed.

Lemma has_tree_other sen s l F e n : has_tree sen s l F -> (e, n) ∈ F -> rb_nodes s !! e = Some n.
Proof.
  intros (rp & sn & t & [_ [_ _ Hc _]] & _ & _) He. rewrite Forall_forall in Hc.
  apply (Hc (e, n)). right. by apply elem_of_app; right.
Qed.

#[export] Instance has_tree_proper sen s l : Proper ((≡ₚ) ==> iff) (has_tree sen s l).
Proof.
  intros F F' HF. unfold has_tree, shape. do 3 (f_equiv; intros ?). by rewrite HF.
Qed.

Lemma has_tree_size sen s l F : has_tree sen s l F -> (length l < size (rb_nodes s))%nat.
Proof. intros (rp & sn & t & Hsh & _ & <-). exact (shape_size _ _ _ _ _ _ _ Hsh). Qed.

(** Writing to a node outside the tree. *)
Lemma put_other_spec sen s l e n g F :
  has_tree sen s l ((e, n) :: F) -> wp (put e g) (fun _ s' => has_tree sen s' l ((e, g n) :: F) /\ rb_insert s' = rb_insert s) s.
Proof.
  intros (rp & sn & t & [Hsn Hs] & Hrest). rb_run. split; [|done]. exists rp, sn, t. split; [|done]. split; [done|]. rb_done.
Qed.

(** The next node. *)
Lemma next_loop_spec fuel sen s rp sn C t F :
  (length C < fuel)%nat -> is_node t -> shape sen s rp sn C t F ->
  wp (next_loop fuel (root_of C (ptr sen t)) (ptr sen t))
    (fun p s' => s' = s /\ p = match after C with [] => NULL | x :: _ => x.1 end) s.
Proof.
  revert fuel t; induction C as [|[d c a k u] C IH]; intros fuel t Hf Hn Hsh; (destruct fuel as [|fuel]; [cbn in Hf; lia|]);
    assert (Hroot := shape_root _ _ _ _ _ _ _ Hsh); cbn [next_loop];
    (eapply (wp_parent sen rp sn F t); [done|by intros ->|]).
  - rewrite Z.eqb_refl. by apply wp_ret.
  - rewrite Hroot, bool_decide_eq_false_2 by done. assert (Hside := shape_side _ _ _ _ _ _ _ _ _ _ _ _ Hsh (or_introl Hn)).
    pose proof Hsh as [_ Hs]. cbn [cptr ccells] in *. rb_run. destruct d; cbn [mk rb_left].
    + rewrite Z.eqb_refl. by apply wp_ret.
    + rewrite (proj2 (Z.eqb_neq _ _) Hside). cbn [root_of after].
      rewrite shape_up in Hsh. assert (H := IH fuel (node Rt c t a k u)). rewrite ptr_node in H. apply H; [|done..]. cbn in Hf; lia.
Qed.

Lemma next_spec sen s l1 a k l2 F :
  has_tree sen s (l1 ++ (a, k) :: l2) F ->
  wp (ngx_rbtree_next a) (fun p s' => s' = s /\ p = match l2 with [] => NULL | x :: _ => x.1 end) s.
Proof.
  intros (rp & sn & t & Hsh & Hv & Hin). destruct (locate _ _ _ _ _ Hin) as (C & c & l & r & -> & -> & ->). clear Hin.
  assert (Hsize := shape_size _ _ _ _ _ _ _ Hsh). cbn [plug] in Hsize. rewrite <- shape_plug in Hsh.
  pose proof Hsh as [Hsn Hs]. cbn [ptr cells] in Hs. unfold ngx_rbtree_next. rb_run.
  destruct (decide (r = Leaf)) as [->|Hr].
  - rewrite Z.eqb_refl. cbn [negb]. rb_run. apply wp_bind. eexists _, s. split; [done|].
    eapply wp_mono; [apply (next_loop_spec _ sen s rp sn C (Node c l a k Leaf) F); [|done|done]|done].
    assert (H := length_path C (Node c l a k Leaf)). lia.
  - assert (Hnr : is_node r) by by destruct r. assert (Hshr := proj2 (shape_up _ _ _ _ Rt _ _ _ _ _ _ _) Hsh).
    rewrite (shape_ptr _ _ _ _ _ _ _ Hshr Hnr). cbn [negb]. eapply wp_mono; [by eapply min_spec|].
    cbv beta. intros p s' (-> & D & cs & b & kb & x & -> & HD & ->). split; [done|].
    rewrite inorder_plug, before_left by done. done.
Qed.
