(* ===== verification/EventTimer.v ===== *)
(** * Timers

    [src/event/ngx_event_timer.c] and [ngx_event_timer.h]: the timers of a
    process are a red-black tree of nodes that are part of the events.  The
    address of the node [ev->timer] stands for the event.

    The theorems: the tree is a queue ordered by the time left, in which equal
    times keep their order ([timers_refine_queue]); the event loop runs the
    handlers of the timers that are due, in order, and leaves none behind
    ([expire_runs_due]). *)

From stdpp Require Import gmap sorting.
From S2P Require Import Prelude RbTree RbInsert RbDelete.

(** ** The code *)

(** What timers use of an [ngx_event_t]. *)
Record ev_flags := mk_flags { f_timer_set : bool; f_timedout : bool; f_cancelable : bool }.

#[export] Instance eta_flags : Eta ev_flags := fun r => mk_flags (f_timer_set r) (f_timedout r) (f_cancelable r).

(** [ngx_event_timer_rbtree] and the events. *)
Record timers := mk_timers { tm_tree : rb_tree; tm_events : gmap Z ev_flags }.

#[export] Instance eta_timers : Eta timers := fun r => mk_timers (tm_tree r) (tm_events r).

Definition NGX_TIMER_INFINITE : Z := u64 (-1).
Definition LAZY_DELAY : Z := 300.

Module Timer.

Definition ngx_event_timer_init (mem : gmap Z rb_node) (sentinel : Z) (events : gmap Z ev_flags) : option timers :=
  t ← ngx_rbtree_init mem sentinel InsertTimerValue;
  Some (mk_timers t events).

Definition ngx_event_find_timer (now : Z) (T : timers) : option Z :=
  let t := tm_tree T in
  if rb_root t =? rb_sentinel t then Some NGX_TIMER_INFINITE
  else
    '(k, _) ← (node ← ngx_rbtree_min (rb_root t); get rb_key node) t;
    let timer := i64 (k - now) in
    Some (if 0 <? timer then timer else 0).

Definition ngx_event_del_timer (ev : Z) (T : timers) : option timers :=
  '(_, t) ← ngx_rbtree_delete ev (tm_tree T);
  f ← tm_events T !! ev;
  Some (mk_timers t (<[ev := f <| f_timer_set := false |>]> (tm_events T))).

Definition ngx_event_add_timer (now ev timer : Z) (T : timers) : option timers :=
  let key := u64 (now + timer) in
  f ← tm_events T !! ev;
  n ← rb_nodes (tm_tree T) !! ev;
  if f_timer_set f && (Z.abs (i64 (key - rb_key n)) <? LAZY_DELAY) then Some T
  else
    T ← (if f_timer_set f : bool then ngx_event_del_timer ev T else Some T);
    '(_, t) ← (put ev (fun n => n <| rb_key := key |>);; ngx_rbtree_insert ev) (tm_tree T);
    f ← tm_events T !! ev;
    Some (mk_timers t (<[ev := f <| f_timer_set := true |>]> (tm_events T))).

(** [ev->handler(ev)] is an argument: it acts on the timers and on the rest of
    the process, of type [A]. *)
Fixpoint ngx_event_expire_timers {A} (handler : Z -> A * timers -> option (A * timers)) (fuel : nat) (now : Z) (st : A * timers)
    : option (A * timers) :=
  match fuel with
  | O => None
  | S fuel =>
    let '(x, T) := st in
    let t := tm_tree T in
    if rb_root t =? rb_sentinel t then Some (x, T)
    else
      '((node, k), _) ← (node ← ngx_rbtree_min (rb_root t); k ← get rb_key node; mret (node, k)) t;
      if 0 <? i64 (k - now) then Some (x, T)
      else
        '(_, t) ← ngx_rbtree_delete node t;
        f ← tm_events T !! node;
        st ← handler node (x, mk_timers t (<[node := f <| f_timer_set := false |> <| f_timedout := true |>]> (tm_events T)));
        ngx_event_expire_timers handler fuel now st
  end.

Fixpoint no_timers_loop (fuel : nat) (T : timers) (node : Z) : option ngx_rc :=
  match fuel with
  | O => None
  | S fuel =>
    if node =? NULL then Some NGX_OK
    else
      f ← tm_events T !! node;
      if negb (f_cancelable f) then Some NGX_AGAIN
      else
        '(node, _) ← ngx_rbtree_next node (tm_tree T);
        no_timers_loop fuel T node
  end.

Definition ngx_event_no_timers_left (T : timers) : option ngx_rc :=
  let t := tm_tree T in
  if rb_root t =? rb_sentinel t then Some NGX_OK
  else
    '(node, _) ← ngx_rbtree_min (rb_root t) t;
    no_timers_loop (S (size (rb_nodes t))) T node.

End Timer.

(** ** The order of timers

    Times are 64-bit counters that wrap around, so two of them can be compared
    when both are near the present time. *)

Definition rank (now x : Z) : Z := i64 (x - now).

Definition near (now x : Z) : Prop := - 2 ^ 62 <= rank now x < 2 ^ 62.

Lemma i64_diff now x y : near now x -> near now y -> i64 (x - y) = rank now x - rank now y.
Proof.
  unfold near, rank, i64. intros Hx Hy.
  assert (Ex := Z.div_mod (x - now + 2 ^ 63) (2 ^ 64) ltac:(lia)). assert (Ey := Z.div_mod (y - now + 2 ^ 63) (2 ^ 64) ltac:(lia)).
  set (qx := (x - now + 2 ^ 63) / 2 ^ 64) in *. set (qy := (y - now + 2 ^ 63) / 2 ^ 64) in *.
  set (mx := (x - now + 2 ^ 63) mod 2 ^ 64) in *. set (my := (y - now + 2 ^ 63) mod 2 ^ 64) in *.
  replace (x - y + 2 ^ 63) with (mx - my + 2 ^ 63 + (qx - qy) * 2 ^ 64) by lia.
  rewrite Z.mod_add, Z.mod_small by lia. lia.
Qed.

Lemma near_less now x y : near now x -> near now y -> less InsertTimerValue x y = (rank now x <? rank now y).
Proof.
  intros Hx Hy. cbn. rewrite (i64_diff now) by done. destruct (Z.ltb_spec (rank now x) (rank now y)); [apply Z.ltb_lt|apply Z.ltb_ge]; lia.
Qed.

Lemma near_add now timer : 0 <= timer < 2 ^ 62 -> rank now (u64 (now + timer)) = timer.
Proof.
  intros Ht. unfold rank. rewrite <- i64_u64. autorewrite with ngx. rewrite i64_u64.
  replace (now + timer - now) with timer by lia. apply i64_small. lia.
Qed.

Definition all_near (now : Z) (q : list (Z * Z)) : Prop := Forall (fun x => near now x.2) q.

Lemma in_order_now now now' q : in_order (rank now) q -> all_near now q -> all_near now' q -> in_order (rank now') q.
Proof.
  unfold in_order, all_near. induction 1 as [|x q Hq IH Hx]; intros Hn Hn'; [constructor|].
  apply Forall_cons in Hn as [Hx1 Hn]. apply Forall_cons in Hn' as [Hx1' Hn']. constructor; [by apply IH|].
  rewrite Forall_forall in *. intros y Hy. specialize (Hx y Hy). cbn in Hx.
  assert (E := i64_diff now x.2 y.2 Hx1 (Hn y Hy)). assert (E' := i64_diff now' x.2 y.2 Hx1' (Hn' y Hy)). lia.
Qed.

(** ** Specification: a queue of events with their times *)

Fixpoint key_in (q : list (Z * Z)) (e : Z) : option Z :=
  match q with [] => None | (e', k) :: q' => if e' =? e then Some k else key_in q' e end.

Definition dequeue (e : Z) (q : list (Z * Z)) : list (Z * Z) := filter (fun x => x.1 <> e) q.

Definition q_add (now e timer : Z) (q : list (Z * Z)) : list (Z * Z) :=
  let key := u64 (now + timer) in
  match key_in q e with
  | Some k => if Z.abs (i64 (key - k)) <? LAZY_DELAY then q else enqueue (rank now) (e, key) (dequeue e q)
  | None => enqueue (rank now) (e, key) q
  end.

Lemma key_in_some q e k : NoDup q.*1 -> key_in q e = Some k <-> (e, k) ∈ q.
Proof.
  induction q as [|[e' k'] q IH]; cbn; [by rewrite elem_of_nil|]. intros [Hn Hq]%NoDup_cons. rewrite elem_of_cons.
  destruct (Z.eqb_spec e' e) as [->|Hne].
  - split; [intros [= ->]; by left|]. intros [[= ->]|Hin]; [done|]. exfalso. apply Hn. by apply (list_elem_of_fmap_2 fst q (e, k)).
  - rewrite IH by done. split; [by right|]. intros [[= -> ->]|?]; done.
Qed.

Lemma key_in_none q e : key_in q e = None <-> e ∉ q.*1.
Proof.
  induction q as [|[e' k'] q IH]; cbn; [split; [intros _; apply not_elem_of_nil|done]|]. rewrite elem_of_cons.
  destruct (Z.eqb_spec e' e) as [->|Hne]; [split; [done|tauto]|]. rewrite IH. naive_solver.
Qed.

Lemma dequeue_not_in e q : e ∉ q.*1 -> dequeue e q = q.
Proof.
  intros H. unfold dequeue. induction q as [|[e' k] q IH]; [done|]. cbn in H. rewrite elem_of_cons in H.
  rewrite filter_cons_True by naive_solver. f_equal. apply IH. tauto.
Qed.

Lemma dequeue_split e k l1 l2 : NoDup (l1 ++ (e, k) :: l2).*1 -> dequeue e (l1 ++ (e, k) :: l2) = l1 ++ l2.
Proof.
  rewrite fmap_app. cbn. intros (H1 & H2 & H3)%NoDup_app. apply NoDup_cons in H3 as [H3 H4].
  unfold dequeue. rewrite filter_app, filter_cons_False by (cbn; tauto).
  fold (dequeue e l1) (dequeue e l2). rewrite !dequeue_not_in; [done|done|]. intros He. apply (H2 e He). by left.
Qed.

Lemma elem_of_split_key (q : list (Z * Z)) e : e ∈ q.*1 -> exists k l1 l2, q = l1 ++ (e, k) :: l2.
Proof.
  intros ([e' k] & -> & Hin)%list_elem_of_fmap. apply list_elem_of_split in Hin as (l1 & l2 & ->). by exists k, l1, l2.
Qed.

Lemma in_order_dequeue f e q : in_order f q -> in_order f (dequeue e q).
Proof.
  unfold in_order, dequeue. induction 1 as [|x q Hq IH Hx]; [constructor|]. destruct (decide (x.1 <> e)) as [Hd|Hd].
  - rewrite filter_cons_True by done. constructor; [done|]. rewrite Forall_forall in *. intros y [_ Hy]%list_elem_of_filter. by apply Hx.
  - by rewrite filter_cons_False.
Qed.

Lemma key_in_enqueue f e k q e' : e ∉ q.*1 -> key_in (enqueue f (e, k) q) e' = if e' =? e then Some k else key_in q e'.
Proof.
  induction q as [|[e1 k1] q IH]; cbn; intros Hn; [by rewrite (Z.eqb_sym e e')|]. rewrite elem_of_cons in Hn.
  destruct (_ <? _); cbn; [by rewrite (Z.eqb_sym e e')|]. destruct (Z.eqb_spec e1 e') as [->|]; [|apply IH; tauto].
  by rewrite (proj2 (Z.eqb_neq e' e)) by naive_solver.
Qed.

Lemma key_in_dequeue e q e' : key_in (dequeue e q) e' = if e' =? e then None else key_in q e'.
Proof.
  unfold dequeue. induction q as [|[e1 k1] q IH]; [by destruct (e' =? e)|]. destruct (decide (e1 = e)) as [->|Hne].
  - rewrite filter_cons_False by (cbn; tauto). rewrite IH. cbn. rewrite (Z.eqb_sym e e'). by destruct (e' =? e).
  - rewrite filter_cons_True by done. cbn. rewrite IH. destruct (Z.eqb_spec e1 e') as [->|]; [|done].
    by rewrite (proj2 (Z.eqb_neq e' e)).
Qed.

Lemma not_in_dequeue e q : e ∉ (dequeue e q).*1.
Proof. apply key_in_none. by rewrite key_in_dequeue, Z.eqb_refl. Qed.

Lemma enqueue_perm f x q : enqueue f x q ≡ₚ x :: q.
Proof. induction q as [|y q IH]; cbn; [done|]. destruct (f x.2 <? f y.2); [done|]. rewrite IH. by constructor. Qed.

(** ** The tree and the queue *)

Section Sim.
Context (sen : Z).

(** The timers in the tree are the queue [q]; the nodes of the other events are
    in memory. *)
Record represents (now : Z) (T : timers) (q : list (Z * Z)) : Prop := {
  rep_tree : exists F, has_tree sen (tm_tree T) q F
    /\ forall e f, tm_events T !! e = Some f -> if f_timer_set f then e ∈ q.*1 else e ∈ F.*1;
  rep_set : forall e, e ∈ q.*1 -> exists f, tm_events T !! e = Some f /\ f_timer_set f = true;
  rep_insert : rb_insert (tm_tree T) = InsertTimerValue;
  rep_near : all_near now q;
  rep_order : in_order (rank now) q
}.

Lemma represents_nodup now T q : represents now T q -> NoDup q.*1.
Proof. intros [(F & HT & _) _ _ _ _]. apply has_tree_nodup in HT. by apply NoDup_app in HT as (? & _). Qed.

Lemma represents_now now now' T q : represents now T q -> all_near now' q -> represents now' T q.
Proof. intros [H1 H2 H3 H4 H5] Hn. split; try done. by eapply in_order_now. Qed.

(** Taking a timer out of the tree. *)
Lemma remove_timer now T q e f f' :
  represents now T q -> e ∈ q.*1 -> tm_events T !! e = Some f -> f_timer_set f' = false ->
  exists t, ngx_rbtree_delete e (tm_tree T) = Some (tt, t)
    /\ represents now (mk_timers t (<[e := f']> (tm_events T))) (dequeue e q).
Proof.
  intros HR He Hf Hf'. assert (Hnd := represents_nodup _ _ _ HR). destruct HR as [(F & HT & Hev) Hset Hi Hnear Hord].
  assert (Hdq := not_in_dequeue e q).
  assert (Hin : forall e', e' <> e -> e' ∈ (dequeue e q).*1 <-> e' ∈ q.*1).
  { intros e' Hne. rewrite !list_elem_of_fmap. split; intros ([e1 k] & -> & H); exists (e1, k); (split; [done|]).
    - by apply list_elem_of_filter in H as [_ ?].
    - apply list_elem_of_filter. by split. }
  destruct (elem_of_split_key q e He) as (k & l1 & l2 & ->).
  destruct (delete_spec sen (tm_tree T) l1 e k l2 F HT) as ([] & t & E & n0 & HT' & Ei). rewrite <- (dequeue_split e k) in HT' by done.
  exists t. split; [done|]. split; cbn [tm_tree tm_events].
  - exists ((e, n0) :: F). split; [done|]. intros e' g. destruct (decide (e' = e)) as [->|Hne].
    + rewrite lookup_insert_eq. intros [= <-]. rewrite Hf'. by left.
    + rewrite lookup_insert_ne by done. intros Hg. specialize (Hev e' g Hg). destruct (f_timer_set g); [by apply Hin|by right].
  - intros e' He'. destruct (decide (e' = e)) as [->|Hne]; [done|]. rewrite lookup_insert_ne by done. by apply Hset, Hin.
  - congruence.
  - eapply incl_Forall; [|exact Hnear]. intros x Hx. apply list_elem_of_In. apply list_elem_of_In in Hx.
    by apply list_elem_of_filter in Hx as [_ ?].
  - by apply in_order_dequeue.
Qed.

Lemma del_timer_sim now T q e :
  represents now T q -> e ∈ q.*1 ->
  exists T' f, Timer.ngx_event_del_timer e T = Some T' /\ represents now T' (dequeue e q)
    /\ tm_events T !! e = Some f /\ tm_events T' = <[e := f <| f_timer_set := false |>]> (tm_events T).
Proof.
  intros HR He. destruct (rep_set _ _ _ HR e He) as (f & Hf & Hset).
  destruct (remove_timer now T q e f (mk_flags false (f_timedout f) (f_cancelable f)) HR He Hf eq_refl) as (t & E & HR').
  unfold Timer.ngx_event_del_timer. rewrite E. cbn. rewrite Hf. cbn. by eexists _, f.
Qed.

(** Putting a timer into the tree. *)
Lemma insert_timer now T q e f timer :
  represents now T q -> e ∉ q.*1 -> tm_events T !! e = Some f -> 0 <= timer < 2 ^ 62 ->
  exists t, (put e (fun n => n <| rb_key := u64 (now + timer) |>);; ngx_rbtree_insert e) (tm_tree T) = Some (tt, t)
    /\ represents now (mk_timers t (<[e := f <| f_timer_set := true |>]> (tm_events T)))
         (enqueue (rank now) (e, u64 (now + timer)) q).
Proof.
  intros HR He Hf Ht. destruct HR as [(F & HT & Hev) Hset Hi Hnear Hord]. set (key := u64 (now + timer)).
  assert (Hk : near now key) by (unfold near, key; rewrite near_add by lia; lia).
  assert (HeF : e ∈ F.*1) by (assert (H := Hev e f Hf); destruct (f_timer_set f); done).
  apply list_elem_of_fmap in HeF as ([e' n] & -> & HeF). cbn [fst] in *. apply elem_of_Permutation in HeF as [F' HF].
  rewrite HF in HT. assert (HeF' := Hev). clear Hev.
  assert (Hins : wp (put e' (fun n => n <| rb_key := key |>);; ngx_rbtree_insert e')
    (fun _ t => has_tree sen t (enqueue (rank now) (e', key) q) F' /\ rb_insert t = InsertTimerValue) (tm_tree T)).
  { apply wp_bind. eapply wp_mono; [by apply put_other_spec|]. cbv beta. intros _ t [HT1 E1].
    eapply wp_mono; [apply (insert_spec sen (rank now) t q e' _ F' HT1)|].
    - rewrite E1, Hi. intros x y Hx Hy. cbn in Hx, Hy. apply near_less; rewrite elem_of_cons in *;
        [destruct Hx as [->|Hx]|destruct Hy as [->|Hy]]; try done; unfold all_near in Hnear; rewrite Forall_forall in Hnear;
        [apply list_elem_of_fmap in Hx as (z & -> & ?)|apply list_elem_of_fmap in Hy as (z & -> & ?)]; by apply Hnear.
    - done.
    - cbv beta. intros _ t' [HT' E']. cbn in HT'. split; [done|]. congruence. }
  destruct Hins as ([] & t & E & HT' & Ei). exists t. split; [done|]. split; cbn [tm_tree tm_events].
  - exists F'. split; [done|]. intros e g. destruct (decide (e = e')) as [->|Hne].
    + rewrite lookup_insert_eq. intros [= <-]. cbn. rewrite enqueue_perm. by left.
    + rewrite lookup_insert_ne by done. intros Hg. specialize (HeF' e g Hg). destruct (f_timer_set g).
      * rewrite enqueue_perm. by right.
      * rewrite HF in HeF'. cbn in HeF'. rewrite elem_of_cons in HeF'. by destruct HeF'.
  - intros e. rewrite enqueue_perm. cbn. intros [->|He']%elem_of_cons; [rewrite lookup_insert_eq; by eexists|].
    rewrite lookup_insert_ne by (intros ->; done). by apply Hset.
  - done.
  - unfold all_near. rewrite enqueue_perm. by constructor.
  - by apply in_order_enqueue.
Qed.

Lemma add_timer_sim now T q e f timer :
  represents now T q -> tm_events T !! e = Some f -> 0 <= timer < 2 ^ 62 ->
  exists T', Timer.ngx_event_add_timer now e timer T = Some T' /\ represents now T' (q_add now e timer q)
    /\ tm_events T' = <[e := f <| f_timer_set := true |>]> (tm_events T).
Proof.
  intros HR Hf Ht. assert (Hnd := represents_nodup _ _ _ HR). unfold Timer.ngx_event_add_timer, q_add. rewrite (bind_some _ _ _ Hf).
  destruct (rep_tree _ _ _ HR) as (F & HT & Hev). assert (He := Hev e f Hf). destruct (f_timer_set f) eqn:Hs; cbn [andb].
  - apply list_elem_of_fmap in He as ([e' k] & -> & He). cbn [fst] in *.
    destruct (has_tree_key _ _ _ _ _ _ HT He) as (n & Hn & <-). rewrite (bind_some _ _ _ Hn), (proj2 (key_in_some q e' _ Hnd) He).
    destruct (Z.abs _ <? LAZY_DELAY) eqn:El; [exists T; split_and!; try done; symmetry; apply insert_id; rewrite Hf; by destruct f; cbn in Hs; subst|].
    assert (He1 : e' ∈ q.*1) by by apply (list_elem_of_fmap_2 fst q (e', rb_key n)).
    destruct (del_timer_sim now T q e' HR He1) as (T1 & f1 & E1 & HR1 & Hf1 & Ev1). rewrite (bind_some _ _ _ E1).
    rewrite Hf in Hf1. injection Hf1 as <-.
    assert (Hf2 : tm_events T1 !! e' = Some (f <| f_timer_set := false |>)) by (rewrite Ev1; apply lookup_insert_eq).
    assert (Hnin := not_in_dequeue e' q).
    destruct (insert_timer now T1 (dequeue e' q) e' _ timer HR1 Hnin Hf2 Ht) as (t & E2 & HR2).
    rewrite (bind_some _ _ _ E2). cbv beta iota. rewrite (bind_some _ _ _ Hf2).
    eexists. split; [done|]. split; [exact HR2|]. cbn. rewrite Ev1. apply insert_insert_eq.
  - assert (Hnin : e ∉ q.*1).
    { intros Hin. destruct (rep_set _ _ _ HR e Hin) as (f' & Hf' & Hs'). congruence. }
    apply list_elem_of_fmap in He as ([e' n] & -> & He). cbn [fst] in *. rewrite (bind_some _ _ _ (has_tree_other _ _ _ _ _ _ HT He)).
    rewrite (proj2 (key_in_none q e') Hnin). destruct (insert_timer now T q e' f timer HR Hnin Hf Ht) as (t & E2 & HR2).
    rewrite (bind_some (Some T) _ T eq_refl), (bind_some _ _ _ E2). cbv beta iota. rewrite (bind_some _ _ _ Hf). by eexists.
Qed.

Lemma find_timer_sim now T q :
  represents now T q ->
  Timer.ngx_event_find_timer now T
  = Some (match q with [] => NGX_TIMER_INFINITE | (e, k) :: _ => Z.max 0 (rank now k) end).
Proof.
  intros HR. destruct (rep_tree _ _ _ HR) as (F & HT & _). unfold Timer.ngx_event_find_timer.
  rewrite (has_tree_root _ _ _ _ HT). destruct q as [|[e k] q]; [by rewrite bool_decide_eq_true_2|].
  rewrite bool_decide_eq_false_2 by done. destruct (first_spec _ _ _ _ _ _ HT) as (p & s' & E & -> & ->).
  destruct (has_tree_key _ _ _ _ e k HT) as (n & Hn & Hk); [by left|].
  unfold mbind at 2, M_bind. rewrite E. unfold get. rewrite Hn, Hk. cbn. fold (rank now k). f_equal.
  destruct (Z.ltb_spec 0 (rank now k)); lia.
Qed.
End Sim.

(** ** Sequences of operations *)

(** [ngx_add_timer(ev, timer)], [if (ev->timer_set) ngx_del_timer(ev)], and
    [ngx_time_update]. *)
Inductive timer_op : Set := OAdd (e timer : Z) | ODel (e : Z) | OTick (now : Z).

Definition run_op (op : timer_op) (st : Z * timers) : option (Z * timers) :=
  let '(now, T) := st in
  match op with
  | OAdd e timer => T' ← Timer.ngx_event_add_timer now e timer T; Some (now, T')
  | ODel e =>
    f ← tm_events T !! e;
    if f_timer_set f then T' ← Timer.ngx_event_del_timer e T; Some (now, T') else Some (now, T)
  | OTick now' => Some (now', T)
  end.

Fixpoint run_ops (ops : list timer_op) (st : Z * timers) : option (Z * timers) :=
  match ops with [] => Some st | op :: ops' => st' ← run_op op st; run_ops ops' st' end.

Definition q_op (op : timer_op) (st : Z * list (Z * Z)) : Z * list (Z * Z) :=
  let '(now, q) := st in
  match op with
  | OAdd e timer => (now, q_add now e timer q)
  | ODel e => (now, dequeue e q)
  | OTick now' => (now', q)
  end.

Definition q_ops (ops : list timer_op) (st : Z * list (Z * Z)) : Z * list (Z * Z) := foldl (fun st op => q_op op st) st ops.

(** Operations name events; timers are set for less than [2^62] milliseconds,
    and no timer is left alone for so long. *)
Definition ok_op (events : gmap Z ev_flags) (q : list (Z * Z)) (op : timer_op) : Prop :=
  match op with
  | OAdd e timer => is_Some (events !! e) /\ 0 <= timer < 2 ^ 62
  | ODel e => is_Some (events !! e)
  | OTick now' => all_near now' q
  end.

Fixpoint ok_ops (events : gmap Z ev_flags) (st : Z * list (Z * Z)) (ops : list timer_op) : Prop :=
  match ops with [] => True | op :: ops' => ok_op events st.2 op /\ ok_ops events (q_op op st) ops' end.

Section Runs.
Context (sen : Z).

Lemma run_op_sim now T q op (events : gmap Z ev_flags) :
  represents sen now T q -> dom (tm_events T) = dom events -> ok_op events q op ->
  exists T', run_op op (now, T) = Some ((q_op op (now, q)).1, T')
    /\ represents sen (q_op op (now, q)).1 T' (q_op op (now, q)).2 /\ dom (tm_events T') = dom events.
Proof.
  intros HR Hd Hok. assert (Hsome : forall e, is_Some (events !! e) -> exists f, tm_events T !! e = Some f).
  { intros e He. apply elem_of_dom in He. rewrite <- Hd in He. by apply elem_of_dom in He. }
  destruct op as [e timer|e|now']; cbn [run_op q_op fst snd ok_op] in *.
  - destruct Hok as [He Ht]. destruct (Hsome e He) as [f Hf].
    destruct (add_timer_sim sen now T q e f timer HR Hf Ht) as (T' & E & HR' & Ev). rewrite (bind_some _ _ _ E). exists T'.
    split; [done|]. split; [done|]. rewrite Ev, dom_insert_L, Hd. apply elem_of_dom in He. set_solver.
  - destruct (Hsome e Hok) as [f Hf]. rewrite (bind_some _ _ _ Hf). destruct (f_timer_set f) eqn:Hs.
    + assert (He : e ∈ q.*1).
      { destruct (rep_tree _ _ _ _ HR) as (F & _ & Hev). specialize (Hev e f Hf). by rewrite Hs in Hev. }
      destruct (del_timer_sim sen now T q e HR He) as (T' & f' & E & HR' & _ & Ev). rewrite (bind_some _ _ _ E). exists T'.
      split; [done|]. split; [done|]. rewrite Ev, dom_insert_L, Hd. apply elem_of_dom in Hok. set_solver.
    + exists T. split; [done|]. rewrite dequeue_not_in; [done|]. intros He.
      destruct (rep_set _ _ _ _ HR e He) as (f' & Hf' & Hs'). congruence.
  - exists T. split; [done|]. split; [|done]. by eapply represents_now.
Qed.

Lemma run_ops_sim now T q ops (events : gmap Z ev_flags) :
  represents sen now T q -> dom (tm_events T) = dom events -> ok_ops events (now, q) ops ->
  exists T', run_ops ops (now, T) = Some ((q_ops ops (now, q)).1, T')
    /\ represents sen (q_ops ops (now, q)).1 T' (q_ops ops (now, q)).2 /\ dom (tm_events T') = dom events.
Proof.
  revert now T q; induction ops as [|op ops IH]; intros now T q HR Hd Hok; [by exists T|].
  destruct Hok as [Hop Hok]. destruct (run_op_sim now T q op events HR Hd Hop) as (T1 & E1 & HR1 & Hd1).
  cbn [run_ops]. rewrite (bind_some _ _ _ E1). unfold q_ops. cbn [foldl]. destruct (q_op op (now, q)) as [now1 q1]. by apply IH.
Qed.

(** The start: no timer is set. *)
Lemma init_represents now mem (events : gmap Z ev_flags) :
  is_Some (mem !! sen) -> events !! sen = None -> (forall e, is_Some (events !! e) -> is_Some (mem !! e)) ->
  (forall e f, events !! e = Some f -> f_timer_set f = false) ->
  exists T, Timer.ngx_event_timer_init mem sen events = Some T /\ represents sen now T [] /\ tm_events T = events.
Proof.
  intros [n Hn] Hse Hmem Hset. unfold Timer.ngx_event_timer_init, ngx_rbtree_init. rewrite Hn. cbn. eexists. split; [done|]. split; [|done].
  set (F := map_to_list (filter (fun x => x.1 ∈ dom events) mem)).
  assert (HF : forall e m, (e, m) ∈ F <-> mem !! e = Some m /\ e ∈ dom events).
  { intros e m. unfold F. rewrite elem_of_map_to_list, map_lookup_filter_Some. done. }
  split; cbn.
  - exists F. split.
    + exists NULL, (mk_rb (rb_key n) (rb_left n) (rb_right n) (rb_parent n) 0), Leaf.
      split_and!; [|by split; [done|]; exists O|done]. split; [done|]. cbn. split; cbn; try done.
      * constructor; [cbn; by rewrite lookup_insert_eq|]. apply Forall_forall. intros [e m] [Hm He]%HF. cbn.
        rewrite lookup_insert_ne; [done|]. intros <-. apply elem_of_dom in He as [? He]. congruence.
      * constructor; [|apply NoDup_fst_map_to_list]. intros ([e m] & Ee & [_ He]%HF)%list_elem_of_fmap. cbn in Ee. subst e.
        apply elem_of_dom in He as [? He]. congruence.
    + intros e f Hf. rewrite (Hset e f Hf). destruct (Hmem e (mk_is_Some _ _ Hf)) as [m Hm].
      apply (list_elem_of_fmap_2 fst F (e, m)). apply HF. split; [done|]. by apply elem_of_dom_2 in Hf.
  - intros e He. by apply elem_of_nil in He.
  - done.
  - constructor.
  - constructor.
Qed.
End Runs.

(** What the flags and the keys of the tree say about the queue. *)
Lemma represents_set sen now T q e f :
  represents sen now T q -> tm_events T !! e = Some f -> f_timer_set f = bool_decide (is_Some (key_in q e)).
Proof.
  intros HR Hf. assert (Hnd := represents_nodup _ _ _ _ HR). destruct (rep_tree _ _ _ _ HR) as (F & _ & Hev). specialize (Hev e f Hf).
  destruct (f_timer_set f) eqn:Hs; symmetry.
  - apply bool_decide_eq_true. apply list_elem_of_fmap in Hev as ([e' k] & -> & Hin). exists k. by apply key_in_some.
  - apply bool_decide_eq_false. intros [k Hk]. apply key_in_some in Hk; [|done].
    destruct (rep_set _ _ _ _ HR e) as (f' & Hf' & Hs'); [by apply (list_elem_of_fmap_2 fst q (e, k))|congruence].
Qed.

Lemma represents_key sen now T q e k :
  represents sen now T q -> key_in q e = Some k -> exists n, rb_nodes (tm_tree T) !! e = Some n /\ rb_key n = k.
Proof.
  intros HR Hk. apply key_in_some in Hk; [|by eapply represents_nodup]. destruct (rep_tree _ _ _ _ HR) as (F & HT & _). by eapply has_tree_key.
Qed.

(** ** Walking over all timers *)

Definition cancelable (T : timers) (x : Z * Z) : bool :=
  match tm_events T !! x.1 with Some f => f_cancelable f | None => false end.

Lemma no_timers_loop_spec sen now T l1 l2 fuel :
  represents sen now T (l1 ++ l2) -> NULL ∉ (l1 ++ l2).*1 -> (length l2 < fuel)%nat ->
  Timer.no_timers_loop fuel T (match l2 with [] => NULL | x :: _ => x.1 end)
  = Some (if forallb (cancelable T) l2 then NGX_OK else NGX_AGAIN).
Proof.
  revert l1 fuel; induction l2 as [|[e k] l2 IH]; intros l1 fuel HR Hnull Hf; (destruct fuel as [|fuel]; [lia|]); [done|].
  cbn [Timer.no_timers_loop forallb fst]. assert (He : e ∈ (l1 ++ (e, k) :: l2).*1) by (rewrite fmap_app; apply elem_of_app; right; by left).
  rewrite (proj2 (Z.eqb_neq e NULL)) by (by intros ->). destruct (rep_set _ _ _ _ HR e He) as (f & Hf1 & _).
  unfold cancelable at 1. cbn [fst]. rewrite (bind_some _ _ _ Hf1), Hf1. destruct (f_cancelable f); [|done]. cbn [negb andb].
  destruct (rep_tree _ _ _ _ HR) as (F & HT & _). destruct (next_spec _ _ _ _ _ _ _ HT) as (p & s' & E & -> & ->).
  rewrite (bind_some _ _ _ E). apply (IH (l1 ++ [(e, k)])); [by rewrite <- app_assoc..|]. cbn in Hf; lia.
Qed.

Lemma no_timers_left_spec sen now T q :
  represents sen now T q -> NULL ∉ q.*1 ->
  Timer.ngx_event_no_timers_left T = Some (if forallb (cancelable T) q then NGX_OK else NGX_AGAIN).
Proof.
  intros HR Hnull. destruct (rep_tree _ _ _ _ HR) as (F & HT & _). unfold Timer.ngx_event_no_timers_left.
  rewrite (has_tree_root _ _ _ _ HT). destruct q as [|[e k] q]; [by rewrite bool_decide_eq_true_2|].
  rewrite bool_decide_eq_false_2 by done. destruct (first_spec _ _ _ _ _ _ HT) as (p & s' & E & -> & ->). rewrite (bind_some _ _ _ E).
  apply (no_timers_loop_spec sen now T [] ((e, k) :: q)); [done|done|]. apply has_tree_size in HT. lia.
Qed.

(** ** Balance *)

Fixpoint height (t : tree) : nat := match t with Leaf => O | Node _ l _ _ r => S (Nat.max (height l) (height r)) end.

Lemma rbt_size t n : rbt t n -> (2 ^ n <= S (length (inorder t)))%nat.
Proof.
  revert n; induction t as [|c l IHl a k r IHr]; intros n; cbn; [intros ->; cbn; lia|].
  intros (m & -> & Hl & Hr & _). specialize (IHl m Hl). specialize (IHr m Hr). rewrite length_app. cbn [length].
  destruct c; cbn [Nat.pow]; lia.
Qed.

Lemma rbt_height t n : rbt t n -> (height t <= 2 * n + if red t then 1 else 0)%nat.
Proof.
  revert n; induction t as [|c l IHl a k r IHr]; intros n; cbn [rbt height red]; [lia|].
  intros (m & -> & Hl & Hr & Hc). specialize (IHl m Hl). specialize (IHr m Hr). destruct c.
  - destruct (Hc eq_refl) as [E1 E2]. rewrite E1, E2 in *. lia.
  - destruct (red l), (red r); lia.
Qed.

Lemma valid_height t : valid t -> (height t <= 2 * Nat.log2 (S (length (inorder t))))%nat.
Proof.
  intros [Hr [n Hn]]. assert (H1 := rbt_size _ _ Hn). assert (H2 := rbt_height _ _ Hn). rewrite Hr in H2.
  assert (n <= Nat.log2 (S (length (inorder t))))%nat by (apply Nat.log2_le_pow2; lia). lia.
Qed.

(** ** The theorem *)

(** Where the nodes of the tree are, from the root [r] down: what a search
    looks at. *)
Fixpoint path_from (fuel : nat) (t : rb_tree) (p : Z) : nat :=
  match fuel with
  | O => O
  | S fuel =>
    if p =? rb_sentinel t then O
    else match rb_nodes t !! p with
         | Some n => S (Nat.max (path_from fuel t (rb_left n)) (path_from fuel t (rb_right n)))
         | None => O
         end
  end.

Lemma path_from_height fuel sen s rp sn C t F :
  shape sen s rp sn C t F -> (height t <= fuel)%nat -> path_from fuel s (ptr sen t) = height t.
Proof.
  revert C fuel; induction t as [|c l IHl a k r IHr]; intros C fuel Hsh Hf; pose proof Hsh as [_ Hs].
  - destruct fuel; [done|]. cbn. by rewrite (see_sentinel _ _ _ _ Hs), Z.eqb_refl.
  - destruct fuel as [|fuel]; [cbn in Hf; lia|]. cbn [path_from]. rewrite (see_sentinel _ _ _ _ Hs).
    rewrite (shape_ptr _ _ _ _ _ _ _ Hsh) by done.
    assert (Ha : rb_nodes s !! a = Some (mk Lf k (ptr sen l) (ptr sen r) (cptr rp C) (bit c))).
    { destruct Hs as [_ _ Hc _]. rewrite Forall_forall in Hc. apply (Hc (a, _)). right. by left. }
    cbn [ptr]. rewrite Ha. cbn [mk rb_left rb_right height]. cbn in Hf.
    rewrite (IHl (Fr Lf c a k r :: C)), (IHr (Fr Rt c a k l :: C)); [done| |lia| |lia]; by apply shape_up.
Qed.

(** C10: The timers of a process, a red-black tree with parent pointers in
    memory, behave like a queue ordered by the time left, whatever timers are
    set, set again and cleared as time passes: every operation succeeds; the
    event loop is told to sleep until the first timer of the queue; the
    [timer_set] flags say which events are in the queue; a worker that exits
    waits for the timers that are not cancelable; and no search looks at more
    than [2 log2 (n + 1)] nodes. *)
Theorem timers_refine_queue mem sen events now ops :
  is_Some (mem !! sen) -> events !! sen = None -> events !! NULL = None ->
  (forall e, is_Some (events !! e) -> is_Some (mem !! e)) -> (forall e f, events !! e = Some f -> f_timer_set f = false) ->
  ok_ops events (now, []) ops ->
  let now' := (q_ops ops (now, [])).1 in
  let q := (q_ops ops (now, [])).2 in
  exists T0 T, Timer.ngx_event_timer_init mem sen events = Some T0 /\ run_ops ops (now, T0) = Some (now', T)
    /\ Timer.ngx_event_find_timer now' T
       = Some (match q with [] => NGX_TIMER_INFINITE | (e, k) :: _ => Z.max 0 (rank now' k) end)
    /\ in_order (rank now') q
    /\ (forall e f, tm_events T !! e = Some f -> f_timer_set f = bool_decide (is_Some (key_in q e)))
    /\ (forall e k, key_in q e = Some k -> exists n, rb_nodes (tm_tree T) !! e = Some n /\ rb_key n = k)
    /\ Timer.ngx_event_no_timers_left T = Some (if forallb (cancelable T) q then NGX_OK else NGX_AGAIN)
    /\ forall fuel, (length q <= fuel)%nat ->
       (path_from fuel (tm_tree T) (rb_root (tm_tree T)) <= 2 * Nat.log2 (S (length q)))%nat.
Proof.
  intros Hsen Hse Hnull Hmem Hset Hok now' q. destruct (init_represents sen now mem events) as (T0 & E0 & HR0 & Ev0); [done..|].
  destruct (run_ops_sim sen now T0 [] ops events) as (T & E & HR & Hd); [done|by rewrite Ev0|done|].
  fold now' in E, HR. fold q in HR. destruct (rep_tree _ _ _ _ HR) as (F & HT & _).
  exists T0, T. split_and!; [done|done|by eapply find_timer_sim|by eapply rep_order| | | |].
  - intros e f. by eapply represents_set.
  - intros e k. by eapply represents_key.
  - eapply no_timers_left_spec; [done|]. intros Hin. destruct (rep_set _ _ _ _ HR NULL Hin) as (f & Hf & _).
    apply elem_of_dom_2 in Hf. rewrite Hd in Hf. apply elem_of_dom in Hf as [? ?]. congruence.
  - intros fuel Hfuel. destruct HT as (rp & sn & t & Hsh & Hv & <-). pose proof Hsh as [_ Hs]. rewrite (see_root _ _ _ _ Hs).
    cbn [root_of]. rewrite (path_from_height fuel sen _ rp sn [] t F Hsh); [by apply valid_height|].
    etransitivity; [|exact Hfuel]. clear. induction t as [|c l IHl a k r IHr]; cbn; [lia|]. rewrite length_app. cbn. lia.
Qed.

(** ** Expiry *)

Definition is_due (now : Z) (x : Z * Z) : Prop := rank now x.2 <= 0.

#[export] Instance is_due_dec now x : Decision (is_due now x).
Proof. unfold is_due. apply _. Defined.

Definition due (now : Z) (q : list (Z * Z)) : list (Z * Z) := filter (is_due now) q.

(** What a handler does with timers: clear some and set some, in the future. *)
Definition later_op (events : gmap Z ev_flags) (op : timer_op) : Prop :=
  match op with
  | OAdd e timer => is_Some (events !! e) /\ 0 < timer < 2 ^ 62
  | ODel e => is_Some (events !! e)
  | OTick _ => False
  end.

Definition op_event (op : timer_op) : Z := match op with OAdd e _ | ODel e => e | OTick _ => NULL end.

(** Handlers that write a log of the events they are called for.  What the
    handler of [e] does may depend on all that happened before; it is called
    with the timer cleared and [timedout] set, or else it crashes. *)
Definition run_handler (now : Z) (acts : list Z -> Z -> list timer_op) (e : Z) (st : list Z * timers) : option (list Z * timers) :=
  let '(log, T) := st in
  f ← tm_events T !! e;
  if f_timedout f && negb (f_timer_set f) then st ← run_ops (acts log e) (now, T); Some (log ++ [e], st.2) else None.

(** The queue after the handlers of all due timers, and the log. *)
Fixpoint q_expire (acts : list Z -> Z -> list timer_op) (fuel : nat) (now : Z) (log : list Z) (q : list (Z * Z))
    : option (list Z * list (Z * Z)) :=
  match fuel, q with
  | O, _ => None
  | S _, [] => Some (log, [])
  | S fuel, (e, k) :: q' =>
    if 0 <? rank now k then Some (log, q) else q_expire acts fuel now (log ++ [e]) (q_ops (acts log e) (now, q')).2
  end.

(** The handlers called after [log], for the events [l], set or clear the timer
    of [e]. *)
Definition touched_after (acts : list Z -> Z -> list timer_op) (log l : list Z) (e : Z) : Prop :=
  exists l1 e' l2 op, l = l1 ++ e' :: l2 /\ op ∈ acts (log ++ l1) e' /\ op_event op = e.

Definition touched (acts : list Z -> Z -> list timer_op) : list Z -> Z -> Prop := touched_after acts [].

Lemma touched_now acts log l e' op : op ∈ acts log e' -> touched_after acts log (e' :: l) (op_event op).
Proof. intros H. exists [], e', l, op. by rewrite app_nil_r. Qed.

Lemma touched_later acts log e' l e : touched_after acts (log ++ [e']) l e -> touched_after acts log (e' :: l) e.
Proof. intros (l1 & e1 & l2 & op & -> & Hop & E). exists (e' :: l1), e1, l2, op. by rewrite <- app_assoc in Hop. Qed.

Section Expire.
Context (sen now : Z) (events : gmap Z ev_flags) (acts : list Z -> Z -> list timer_op).
Hypothesis Hacts : forall log e, Forall (later_op events) (acts log e).

Lemma q_ops_now ops q : Forall (later_op events) ops -> (q_ops ops (now, q)).1 = now.
Proof. unfold q_ops. intros H. revert q; induction H as [|op ops Hop H IH]; intros q; [done|]. cbn. destruct op; [apply IH..|done]. Qed.

Lemma later_ok ops q : Forall (later_op events) ops -> ok_ops events (now, q) ops.
Proof.
  intros H. revert q; induction H as [|op ops Hop H IH]; intros q; [done|]. cbn. destruct op; cbn in *; [|by split; [|apply IH]|done].
  split; [|apply IH]. split; [tauto|lia].
Qed.

Lemma q_expire_log fuel log q log' q' : q_expire acts fuel now log q = Some (log', q') -> exists l, log' = log ++ l.
Proof.
  revert log q; induction fuel as [|fuel IH]; intros log q E; [done|]. destruct q as [|[e k] q]; cbn [q_expire] in E.
  - injection E as <- _. exists []. by rewrite app_nil_r.
  - destruct (0 <? rank now k); [injection E as <- _; exists []; by rewrite app_nil_r|].
    destruct (IH _ _ E) as [l ->]. exists (e :: l). by rewrite <- app_assoc.
Qed.

(** Setting and clearing timers leaves [timedout] alone. *)
Lemma del_timer_timedout e T T' x :
  Timer.ngx_event_del_timer e T = Some T' -> f_timedout <$> tm_events T' !! x = f_timedout <$> tm_events T !! x.
Proof.
  unfold Timer.ngx_event_del_timer. intros H. apply bind_Some in H as ([[] t] & _ & H). apply bind_Some in H as (f & Hf & [= <-]). cbn.
  destruct (decide (x = e)) as [->|Hne]; [by rewrite lookup_insert_eq, Hf|by rewrite lookup_insert_ne].
Qed.

Lemma add_timer_timedout n e timer T T' x :
  Timer.ngx_event_add_timer n e timer T = Some T' -> f_timedout <$> tm_events T' !! x = f_timedout <$> tm_events T !! x.
Proof.
  unfold Timer.ngx_event_add_timer. cbv zeta. intros H. apply bind_Some in H as (f & Hf & H). apply bind_Some in H as (nd & _ & H).
  destruct (_ && _); [by injection H as <-|]. apply bind_Some in H as (T1 & E1 & H). apply bind_Some in H as ([[] t] & _ & H).
  apply bind_Some in H as (f1 & Hf1 & [= <-]). cbn.
  assert (E : f_timedout <$> tm_events T1 !! x = f_timedout <$> tm_events T !! x).
  { destruct (f_timer_set f); [by eapply del_timer_timedout|by injection E1 as <-]. }
  rewrite <- E. destruct (decide (x = e)) as [->|Hne]; [by rewrite lookup_insert_eq, Hf1|by rewrite lookup_insert_ne].
Qed.

Lemma run_ops_timedout ops st st' x :
  run_ops ops st = Some st' -> f_timedout <$> tm_events st'.2 !! x = f_timedout <$> tm_events st.2 !! x.
Proof.
  revert st; induction ops as [|op ops IH]; intros [n T] H; cbn [run_ops] in H; [by injection H as <-|].
  apply bind_Some in H as ([n1 T1] & H1 & H). rewrite (IH _ H). cbn [snd]. destruct op as [e timer|e|n']; cbn [run_op] in H1.
  - apply bind_Some in H1 as (T2 & E & [= <- <-]). by eapply add_timer_timedout.
  - apply bind_Some in H1 as (f & _ & H1). destruct (f_timer_set f); [|by injection H1 as <- <-].
    apply bind_Some in H1 as (T2 & E & [= <- <-]). by eapply del_timer_timedout.
  - by injection H1 as <- <-.
Qed.

Lemma expire_sim fuel T q log l q' :
  represents sen now T q -> dom (tm_events T) = dom events -> q_expire acts fuel now log q = Some (log ++ l, q') ->
  exists T', Timer.ngx_event_expire_timers (run_handler now acts) fuel now (log, T) = Some (log ++ l, T') /\ represents sen now T' q'
    /\ dom (tm_events T') = dom events
    /\ forall x, f_timedout <$> tm_events T' !! x = if bool_decide (x ∈ l) then Some true else f_timedout <$> tm_events T !! x.
Proof.
  revert T q log l q'; induction fuel as [|fuel IH]; intros T q log l q' HR Hd E; [done|].
  assert (Hend : forall l : list Z, log = log ++ l -> l = []) by (intros l1 Hl; by apply (app_inv_head log); rewrite app_nil_r).
  cbn [Timer.ngx_event_expire_timers]. destruct (rep_tree _ _ _ _ HR) as (F & HT & _). rewrite (has_tree_root _ _ _ _ HT).
  destruct q as [|[e k] q]; cbn [q_expire] in E.
  { injection E as E%Hend <-. subst l. rewrite bool_decide_eq_true_2 by done. exists T. by rewrite app_nil_r. }
  rewrite bool_decide_eq_false_2 by done. destruct (first_spec _ _ _ _ _ _ HT) as (p & s' & Em & -> & ->).
  destruct (has_tree_key _ _ _ _ e k HT) as (n & Hn & Hk); [by left|].
  assert (Er : (node ← ngx_rbtree_min (rb_root (tm_tree T)); k ← get rb_key node; mret (node, k)) (tm_tree T)
    = Some ((e, k), tm_tree T)).
  { unfold mbind, M_bind. rewrite Em. unfold get. by rewrite Hn, Hk. }
  rewrite (bind_some _ _ _ Er). cbv beta iota. fold (rank now k). destruct (0 <? rank now k).
  { injection E as E%Hend <-. subst l. exists T. by rewrite app_nil_r. }
  assert (He : e ∈ ((e, k) :: q).*1) by by left. destruct (rep_set _ _ _ _ HR e He) as (f & Hf & _).
  destruct (remove_timer sen now T _ e f (mk_flags false true (f_cancelable f)) HR He Hf eq_refl) as (t & Ed & HR1).
  rewrite (bind_some _ _ _ Ed). cbv beta iota. rewrite (bind_some _ _ _ Hf).
  assert (Edq : dequeue e ((e, k) :: q) = q) by (apply (dequeue_split e k []); by eapply represents_nodup). rewrite Edq in HR1.
  destruct (run_ops_sim sen now _ q (acts log e) events HR1) as (T2 & E2 & HR2 & Hd2).
  { cbn. rewrite dom_insert_L, Hd. apply elem_of_dom_2 in Hf. rewrite Hd in Hf. set_solver. }
  { by apply later_ok. }
  rewrite q_ops_now in HR2, E2 by done.
  change (f <| f_timer_set := false |> <| f_timedout := true |>) with (mk_flags false true (f_cancelable f)).
  assert (Eh : run_handler now acts e (log, mk_timers t (<[e := mk_flags false true (f_cancelable f)]> (tm_events T))) = Some (log ++ [e], T2)).
  { unfold run_handler. cbn [tm_events]. rewrite lookup_insert_eq. cbn [mbind option_bind f_timedout f_timer_set negb andb].
    by rewrite (bind_some _ _ _ E2). }
  rewrite (bind_some _ _ _ Eh). destruct (q_expire_log fuel (log ++ [e]) (q_ops (acts log e) (now, q)).2 _ _ E) as [l' El].
  rewrite <- app_assoc in El. apply app_inv_head in El. cbn in El. subst l.
  assert (Eapp : log ++ e :: l' = (log ++ [e]) ++ l') by (by rewrite <- app_assoc). rewrite Eapp in E |- *.
  destruct (IH T2 _ _ _ _ HR2 Hd2 E) as (T' & E' & HR' & Hd' & Ht'). exists T'. split_and!; [done..|]. intros x. rewrite Ht'.
  assert (Ex := run_ops_timedout _ _ _ x E2). cbn [snd tm_events] in Ex. rewrite Ex.
  rewrite (bool_decide_ext (x ∈ e :: l') (x = e \/ x ∈ l')) by apply elem_of_cons. rewrite bool_decide_or.
  destruct (decide (x = e)) as [->|Hne].
  - rewrite lookup_insert_eq, (bool_decide_eq_true_2 (e = e)) by done. cbn. by case_bool_decide.
  - rewrite lookup_insert_ne, (bool_decide_eq_false_2 (x = e)) by done. done.
Qed.

(** Handlers do not make timers due. *)
Lemma due_enqueue x q : ~ is_due now x -> due now (enqueue (rank now) x q) = due now q.
Proof.
  intros Hx. unfold due. induction q as [|y q IH]; cbn [enqueue]; [by rewrite filter_cons_False|].
  destruct (rank now x.2 <? rank now y.2); [by rewrite filter_cons_False|]. rewrite !filter_cons, IH. done.
Qed.

Lemma due_dequeue e q : due now (dequeue e q) = dequeue e (due now q).
Proof. unfold due, dequeue. rewrite !list_filter_filter. apply list_filter_iff. intros x. tauto. Qed.

Lemma due_op op q :
  later_op events op ->
  due now (q_op op (now, q)).2 = due now q \/ due now (q_op op (now, q)).2 = dequeue (op_event op) (due now q).
Proof.
  destruct op as [e timer|e|]; cbn [q_op snd op_event later_op]; [|intros _; right; apply due_dequeue|done]. intros [_ Ht]. unfold q_add.
  assert (Hn : ~ is_due now (e, u64 (now + timer))) by (unfold is_due; cbn; rewrite near_add by lia; lia).
  destruct (key_in q e) as [k|]; [|left; by apply due_enqueue]. destruct (_ <? LAZY_DELAY); [by left|]. right.
  rewrite due_enqueue by done. apply due_dequeue.
Qed.

Lemma sublist_dequeue e q : dequeue e q `sublist_of` q.
Proof. apply sublist_filter. Qed.

Lemma due_ops ops q : Forall (later_op events) ops -> due now (q_ops ops (now, q)).2 `sublist_of` due now q.
Proof.
  unfold q_ops. intros H. revert q; induction H as [|op ops Hop H IH]; intros q; [done|]. cbn [foldl].
  replace (q_op op (now, q)) with (now, (q_op op (now, q)).2) by (by destruct op). etransitivity; [apply IH|].
  destruct (due_op op q Hop) as [->| ->]; [done|apply sublist_dequeue].
Qed.

Lemma due_cons e k q : due now ((e, k) :: q) = if 0 <? rank now k then due now q else (e, k) :: due now q.
Proof.
  unfold due. destruct (Z.ltb_spec 0 (rank now k)); [rewrite filter_cons_False|rewrite filter_cons_True]; try done; unfold is_due; cbn; lia.
Qed.

Lemma in_order_not_due e k q : in_order (rank now) ((e, k) :: q) -> 0 < rank now k -> due now ((e, k) :: q) = [].
Proof.
  intros [_ Hq]%StronglySorted_inv Hk. rewrite due_cons, (proj2 (Z.ltb_lt _ _) Hk). unfold due.
  induction Hq as [|x q Hx Hq IH]; [done|]. rewrite filter_cons_False; [done|]. unfold is_due. cbn in Hx. lia.
Qed.

Lemma in_order_ops ops q : Forall (later_op events) ops -> in_order (rank now) q -> in_order (rank now) (q_ops ops (now, q)).2.
Proof.
  unfold q_ops. intros H. revert q; induction H as [|op ops Hop H IH]; intros q Hq; [done|]. cbn [foldl].
  replace (q_op op (now, q)) with (now, (q_op op (now, q)).2) by (by destruct op). apply IH.
  destruct op as [e timer|e|]; cbn [q_op snd]; [|by apply in_order_dequeue|done]. unfold q_add.
  destruct (key_in q e); [|by apply in_order_enqueue]. destruct (_ <? LAZY_DELAY); [done|].
  by apply in_order_enqueue, in_order_dequeue.
Qed.

(** Operations on other events. *)
Lemma key_in_op op q x : later_op events op -> op_event op <> x -> key_in (q_op op (now, q)).2 x = key_in q x.
Proof.
  intros Hop Hne. destruct op as [e timer|e|]; cbn [q_op snd op_event] in *; [| |done]; (assert (Hb : (x =? e) = false) by (apply Z.eqb_neq; congruence)).
  - unfold q_add. destruct (key_in q e) eqn:Ek; [|by rewrite key_in_enqueue, Hb by by apply key_in_none]. destruct (_ <? LAZY_DELAY); [done|].
    by rewrite key_in_enqueue, key_in_dequeue, Hb by apply not_in_dequeue.
  - by rewrite key_in_dequeue, Hb.
Qed.

Lemma nodup_op op q : later_op events op -> NoDup q.*1 -> NoDup (q_op op (now, q)).2.*1.
Proof.
  intros Hop Hnd. assert (Hdq : forall e, NoDup (dequeue e q).*1) by (intros e; eapply sublist_NoDup; [exact Hnd|]; apply fmap_sublist, sublist_dequeue).
  destruct op as [e timer|e|]; cbn [q_op snd] in *; [|done|done]. unfold q_add. destruct (key_in q e) eqn:Ek.
  - destruct (_ <? LAZY_DELAY); [done|]. rewrite enqueue_perm. cbn. constructor; [|done].
    apply not_in_dequeue.
  - rewrite enqueue_perm. cbn. constructor; [by apply key_in_none|done].
Qed.

(** A fact about a queue that operations on other events keep. *)
Lemma ops_keep (P : list (Z * Z) -> Prop) ops q :
  Forall (later_op events) ops -> (forall op q, later_op events op -> op ∈ ops -> P q -> P (q_op op (now, q)).2) -> P q -> P (q_ops ops (now, q)).2.
Proof.
  unfold q_ops. intros H. revert q; induction H as [|op ops Hop H IH]; intros q HP Hq; [done|]. cbn [foldl].
  replace (q_op op (now, q)) with (now, (q_op op (now, q)).2) by (by destruct op). apply IH.
  - intros op' q' Ho Hin. apply HP; [done|by right].
  - apply HP; [done|by left|done].
Qed.

Lemma nodup_ops ops q : Forall (later_op events) ops -> NoDup q.*1 -> NoDup (q_ops ops (now, q)).2.*1.
Proof. intros H Hq. apply (ops_keep (fun q => NoDup q.*1)); [done| |done]. intros op q' Ho _. by apply nodup_op. Qed.

Lemma key_in_ops ops q x :
  Forall (later_op events) ops -> (forall op, op ∈ ops -> op_event op <> x) -> key_in (q_ops ops (now, q)).2 x = key_in q x.
Proof.
  intros H Hn. apply (ops_keep (fun q1 => key_in q1 x = key_in q x)); [done| |done]. intros op q' Ho Hin <-. apply key_in_op; auto.
Qed.

Lemma due_key x q : NoDup q.*1 -> x ∈ (due now q).*1 <-> exists k, key_in q x = Some k /\ rank now k <= 0.
Proof.
  intros Hnd. rewrite list_elem_of_fmap. split.
  - intros ([x' k] & -> & [Hd Hin]%list_elem_of_filter). exists k. split; [by apply key_in_some|done].
  - intros (k & Hk & Hd). exists (x, k). split; [done|]. apply list_elem_of_filter. split; [done|]. by apply key_in_some.
Qed.

Lemma touched_dec_ops (ops : list timer_op) x : (forall op, op ∈ ops -> op_event op <> x) \/ exists op, op ∈ ops /\ op_event op = x.
Proof.
  destruct (decide (Exists (fun op => op_event op = x) ops)) as [H|H]; [right|left].
  - apply Exists_exists in H as (op & Hop & E). by exists op.
  - intros op Hop E. apply H, Exists_exists. by exists op.
Qed.

(** What the loop does to the queue: who is called, and what is left. *)
Lemma q_expire_spec fuel log q :
  in_order (rank now) q -> NoDup q.*1 -> (length (due now q) < fuel)%nat ->
  exists l q', q_expire acts fuel now log q = Some (log ++ l, q') /\ l `sublist_of` (due now q).*1 /\ due now q' = []
    /\ (forall x, x ∈ (due now q).*1 -> x ∈ l \/ touched_after acts log l x)
    /\ (forall x, ~ touched_after acts log l x -> key_in q' x = if bool_decide (x ∈ l) then None else key_in q x).
Proof.
  revert log q; induction fuel as [|fuel IH]; intros log q Ho Hnd Hf; [lia|].
  destruct q as [|[e k] q]; cbn [q_expire]; [exists [], []; rewrite app_nil_r; split_and!; try done; intros x Hx; by apply elem_of_nil in Hx|].
  assert (Hdc := due_cons e k q). destruct (Z.ltb_spec 0 (rank now k)) as [Hk|Hk].
  { exists [], ((e, k) :: q). rewrite app_nil_r, (in_order_not_due e k q) by done. split_and!; try done. intros x Hx. by apply elem_of_nil in Hx. }
  rewrite Hdc in *. cbn in Hnd, Hf. apply NoDup_cons in Hnd as [He Hnd]. apply StronglySorted_inv in Ho as [Ho _].
  pose proof (due_ops (acts log e) q (Hacts log e)) as Hsub. set (q1 := (q_ops (acts log e) (now, q)).2) in *.
  assert (Hnd1 : NoDup q1.*1) by by apply nodup_ops.
  destruct (IH (log ++ [e]) q1) as (l & q' & E & Hl & Hd & Hall & Hkey); [by apply in_order_ops|done|apply sublist_length in Hsub; lia|].
  exists (e :: l), q'. rewrite <- app_assoc in E. split_and!; [done| |done| |].
  - cbn. apply sublist_skip. etransitivity; [exact Hl|]. by apply fmap_sublist.
  - intros x [->|Hx]%elem_of_cons; [by left; left|]. destruct (touched_dec_ops (acts log e) x) as [Hno|(op & Hop & <-)]; [|right; by apply touched_now].
    apply due_key in Hx as Hx'; [|done]. rewrite <- (key_in_ops (acts log e) q x) in Hx' by done. apply due_key in Hx'; [|done].
    destruct (Hall x Hx') as [?|?]; [left; by right|right; by apply touched_later].
  - intros x Hx. assert (Hno : forall op, op ∈ acts log e -> op_event op <> x) by (intros op Hop <-; apply Hx; by apply touched_now).
    rewrite Hkey by (intros Ht; apply Hx; by apply touched_later). unfold q1. rewrite key_in_ops by done. cbn [key_in].
    rewrite (bool_decide_ext (x ∈ e :: l) (x = e \/ x ∈ l)) by apply elem_of_cons. rewrite bool_decide_or.
    destruct (Z.eqb_spec e x) as [->|Hne].
    + rewrite (bool_decide_eq_true_2 (x = x)) by done. cbn [orb]. rewrite (proj2 (key_in_none q x)) by done. by case_bool_decide.
    + by rewrite (bool_decide_eq_false_2 (x = e)).
Qed.

(** Nothing due is skipped unless its timer was touched. *)
Lemma all_due l (d : list Z) :
  NoDup d -> l `sublist_of` d -> (forall x, x ∈ d -> x ∈ l \/ touched acts l x) ->
  (forall log e op, op ∈ acts log e -> op_event op = e \/ op_event op ∉ d) -> l = d.
Proof.
  intros Hd Hl Hall Hun. assert (Hsub : forall x, x ∈ d -> x ∈ l).
  { intros x Hx. destruct (Hall x Hx) as [?|(l1 & e' & l2 & op & -> & Hop & <-)]; [done|].
    destruct (Hun _ _ _ Hop) as [->|?]; [|done]. apply elem_of_app. right. by left. }
  assert (Hle : (length d <= length l)%nat).
  { apply submseteq_length, NoDup_submseteq; [done|]. intros x. apply Hsub. }
  clear -Hl Hle. induction Hl as [|x l d Hl IH|x l d Hl IH]; [done| |]; cbn in Hle; [f_equal; apply IH; lia|].
  apply sublist_length in Hl. lia.
Qed.
End Expire.

(** C11: When the event loop expires timers ([ngx_event_expire_timers]), it
    calls the handlers of the events whose timers are due, and the log the
    handlers write shows which and when.  Timers were set before for less than
    2^62 milliseconds, in any order.  Let handlers set timers in the future or
    clear timers, of any events and depending on all that happened before.
    The loop ends after at most one round for every timer.  Handlers are called
    in the order of the times of their timers, each once, with the timer
    cleared and [timedout] set, and only for timers that were due.  A timer
    that is due is skipped only if a handler called before it set or cleared it
    (so all are called if handlers leave the due timers of other events alone).
    Timers no handler touched are as before, the called ones apart, which are
    gone; [timedout] is set for the called ones only; and no timer is left that
    is due, so the loop sleeps. *)
Theorem expire_runs_due mem sen events now ops acts :
  is_Some (mem !! sen) -> events !! sen = None ->
  (forall e, is_Some (events !! e) -> is_Some (mem !! e)) -> (forall e f, events !! e = Some f -> f_timer_set f = false) ->
  ok_ops events (now, []) ops -> (forall log e, Forall (later_op events) (acts log e)) ->
  let now' := (q_ops ops (now, [])).1 in
  let q := (q_ops ops (now, [])).2 in
  exists T0 T T' fired, Timer.ngx_event_timer_init mem sen events = Some T0 /\ run_ops ops (now, T0) = Some (now', T)
    /\ Timer.ngx_event_expire_timers (run_handler now' acts) (S (length q)) now' ([], T) = Some (fired, T')
    /\ in_order (rank now') q /\ NoDup fired /\ fired `sublist_of` (due now' q).*1
    /\ (forall e, e ∈ (due now' q).*1 -> e ∈ fired \/ touched acts fired e)
    /\ ((forall log e op, op ∈ acts log e -> op_event op = e \/ op_event op ∉ (due now' q).*1) -> fired = (due now' q).*1)
    /\ (forall e f, tm_events T' !! e = Some f -> ~ touched acts fired e ->
          let left := if bool_decide (e ∈ fired) then None else key_in q e in
          f_timer_set f = bool_decide (is_Some left)
          /\ forall k, left = Some k -> exists n, rb_nodes (tm_tree T') !! e = Some n /\ rb_key n = k)
    /\ (forall e, f_timedout <$> tm_events T' !! e = if bool_decide (e ∈ fired) then Some true else f_timedout <$> tm_events T !! e)
    /\ exists t, Timer.ngx_event_find_timer now' T' = Some t /\ 0 < t.
Proof.
  intros Hsen Hse Hmem Hset Hok Hacts now' q. destruct (init_represents sen now mem events) as (T0 & E0 & HR0 & Ev0); [done..|].
  destruct (run_ops_sim sen now T0 [] ops events) as (T & E & HR & Hd); [done|by rewrite Ev0|done|].
  fold now' in E, HR. fold q in HR. assert (Hnd := represents_nodup _ _ _ _ HR).
  assert (Hndd : NoDup (due now' q).*1) by (eapply sublist_NoDup; [done|]; apply fmap_sublist, sublist_filter).
  destruct (q_expire_spec now' events acts Hacts (S (length q)) [] q) as (l & q' & Eq & Hl & Hd' & Hall & Hkey); [by eapply rep_order|done| |].
  { apply Nat.lt_succ_r, (sublist_length _ _ (sublist_filter _ _)). }
  destruct (expire_sim sen now' events acts Hacts _ T q [] l q' HR Hd Eq) as (T' & E' & HR' & _ & Ht').
  exists T0, T, T', l. split_and!; try done; [by eapply rep_order|by eapply sublist_NoDup|by apply all_due| |].
  - intros e f Hf Hno. cbv zeta. rewrite <- Hkey by done. split; [by eapply represents_set|]. intros k. by eapply represents_key.
  - eexists. split; [by eapply find_timer_sim|]. destruct q' as [|[e k] q']; [done|].
    assert (H := rep_order _ _ _ _ HR'). rewrite due_cons in Hd'. destruct (Z.ltb_spec 0 (rank now' k)); [lia|done].
Qed.

(** An example: three events, one of them set twice, as time passes 2^64. *)
Definition ex_node : rb_node := mk_rb 0 0 0 0 0.
Definition ex_mem : gmap Z rb_node := list_to_map [(1, ex_node); (8, ex_node); (16, ex_node); (24, ex_node)].
Definition ex_flags (c : bool) : ev_flags := mk_flags false false c.
Definition ex_events : gmap Z ev_flags := list_to_map [(8, ex_flags false); (16, ex_flags true); (24, ex_flags true)].
Definition ex_now : Z := 2 ^ 64 - 500.
Definition ex_ops : list timer_op :=
  [OAdd 8 1000; OAdd 16 200; OAdd 24 200; OAdd 8 900; OTick (2 ^ 64 - 300); OAdd 8 3000; ODel 16].
Definition ex_acts : list Z -> Z -> list timer_op :=
  fun _ e => if e =? 24 then [OAdd 24 1000; OAdd 16 50] else [].

Lemma ex_mem_events : forall e, is_Some (ex_events !! e) -> is_Some (ex_mem !! e).
Proof.
  intros e [f Hf]. revert e f Hf. apply (map_Forall_to_list (fun e _ => is_Some (ex_mem !! e))).
  repeat constructor; by eexists.
Qed.

Lemma ex_events_clear : forall e f, ex_events !! e = Some f -> f_timer_set f = false.
Proof. intros e f Hf. revert e f Hf. apply (map_Forall_to_list (fun _ f => f_timer_set f = false)). repeat constructor. Qed.

Lemma ex_ops_ok : ok_ops ex_events (ex_now, []) ex_ops.
Proof.
  do 4 (split; [by split; [by eexists|lia]|]). split; [|split; [by split; [by eexists|lia]|]; split; [by eexists|done]].
  change (all_near (2 ^ 64 - 300) [(16, 2 ^ 64 - 300); (24, 2 ^ 64 - 300); (8, 500)]). repeat constructor; vm_compute; congruence.
Qed.

Lemma timers_refine_queue_witness :
  let q := (q_ops ex_ops (ex_now, [])).2 in
  q = [(24, 2 ^ 64 - 300); (8, 2700)]
  /\ exists T0 T, Timer.ngx_event_timer_init ex_mem 1 ex_events = Some T0 /\ run_ops ex_ops (ex_now, T0) = Some (2 ^ 64 - 300, T)
     /\ Timer.ngx_event_find_timer (2 ^ 64 - 300) T = Some 0 /\ Timer.ngx_event_no_timers_left T = Some (if forallb (cancelable T) q then NGX_OK else NGX_AGAIN).
Proof.
  split; [vm_compute; reflexivity|].
  destruct (timers_refine_queue ex_mem 1 ex_events ex_now ex_ops) as (T0 & T & E0 & E & Ef & _ & _ & _ & En & _);
    [by eexists|reflexivity|reflexivity|exact ex_mem_events|exact ex_events_clear|exact ex_ops_ok|].
  exists T0, T. split; [exact E0|]. split; [exact E|]. split; [exact Ef|exact En].
Defined.

Lemma expire_runs_due_witness :
  exists T T', Timer.ngx_event_expire_timers (run_handler (2 ^ 64 - 300) ex_acts) 3 (2 ^ 64 - 300) ([], T) = Some ([24], T')
    /\ exists t, Timer.ngx_event_find_timer (2 ^ 64 - 300) T' = Some t /\ 0 < t.
Proof.
  destruct (expire_runs_due ex_mem 1 ex_events ex_now ex_ops ex_acts) as (T0 & T & T' & fired & E0 & E & Ex & _ & _ & _ & _ & Hall & _ & _ & Ht);
    [by eexists|reflexivity|exact ex_mem_events|exact ex_events_clear|exact ex_ops_ok| |].
  { intros log e. unfold ex_acts. destruct (e =? 24); repeat constructor; (by eexists) || lia. }
  exists T, T'. split; [|exact Ht]. change ((due (q_ops ex_ops (ex_now, [])).1 (q_ops ex_ops (ex_now, [])).2).*1) with [24] in Hall.
  rewrite <- Hall; [exact Ex|]. intros log e op. unfold ex_acts. destruct (Z.eqb_spec e 24) as [->|_]; intros H.
  - apply elem_of_cons in H as [->|H]; [by left|]. apply list_elem_of_singleton in H as ->. right. intros H%list_elem_of_singleton. discriminate.
  - by apply elem_of_nil in H.
Defined.
