(* ===== verification/CheckTimers.v ===== *)
(** * The timers of the health checker

    The handlers of [CheckCore] see a timer as the two fields of its event,
    whether it is set and for when.  Here the timer tree is shown to implement
    this view: setting or clearing the timer of an event has the effect
    [CheckCore] gives it, other timers keep theirs, and the timers due in that
    view are the ones the event loop expires. *)

From stdpp Require Import gmap sorting.
From S2P Require Import Prelude RbTree RbInsert RbDelete EventTimer.
From S2P Require Import NgxString StatusLine CheckTypes CheckProto CheckCore.

(** The fields of an event in memory. *)
Definition event_of (T : timers) (e : Z) : option ngx_event_t :=
  f ← tm_events T !! e; n ← rb_nodes (tm_tree T) !! e; Some (mk_event (f_timer_set f) (rb_key n)).

(** The key of a timer that is not set does not matter. *)
Definition same_timer (a b : ngx_event_t) : Prop := timer_set a = timer_set b /\ (timer_set b = true -> timer_key a = timer_key b).

(** What a queue says of an event. *)
Definition view (q : list (Z * Z)) (e : Z) : ngx_event_t :=
  match key_in q e with Some k => mk_event true k | None => mk_event false 0 end.

#[export] Instance same_timer_equiv : Equivalence same_timer.
Proof.
  split; [by intros ?|intros a b [H1 H2]|intros a b c [H1 H2] [H3 H4]]; split; try congruence; intros H.
  - symmetry. apply H2. congruence.
  - rewrite H2 by congruence. by apply H4.
Qed.

Lemma event_of_view sen now T q e :
  represents sen now T q -> is_Some (tm_events T !! e) -> exists ev, event_of T e = Some ev /\ same_timer ev (view q e).
Proof.
  intros HR [f Hf]. assert (Hnd := represents_nodup _ _ _ _ HR). destruct (rep_tree _ _ _ _ HR) as (F & HT & Hev).
  assert (He := Hev e f Hf). unfold event_of, view. rewrite (bind_some _ _ _ Hf). destruct (f_timer_set f) eqn:Hs.
  - apply list_elem_of_fmap in He as ([e' k] & -> & Hin). cbn [fst] in *. destruct (has_tree_key _ _ _ _ _ _ HT Hin) as (n & Hn & Hk).
    rewrite (bind_some _ _ _ Hn). apply (key_in_some _ _ _ Hnd) in Hin. rewrite Hin. by eexists.
  - assert (Hnin : key_in q e = None).
    { apply key_in_none. intros Hin. destruct (rep_set _ _ _ _ HR e Hin) as (f' & Hf' & Hs'). congruence. }
    apply list_elem_of_fmap in He as ([e' n] & -> & Hin). cbn [fst] in *. rewrite (bind_some _ _ _ (has_tree_other _ _ _ _ _ _ HT Hin)), Hnin.
    by eexists.
Qed.

(** The operations of the queue, seen from one event. *)
Lemma view_add now e timer q e' :
  view (q_add now e timer q) e'
  = if e' =? e then CheckCore.ngx_event_add_timer now (view q e) timer else view q e'.
Proof.
  unfold view, q_add, CheckCore.ngx_event_add_timer. destruct (key_in q e) as [k|] eqn:Ek; cbn [timer_set timer_key andb].
  - change NGX_TIMER_LAZY_DELAY with LAZY_DELAY. destruct (_ <? LAZY_DELAY).
    + destruct (Z.eqb_spec e' e) as [->|]; [by rewrite Ek|done].
    + rewrite key_in_enqueue, key_in_dequeue by apply not_in_dequeue. by destruct (e' =? e).
  - apply key_in_none in Ek. rewrite key_in_enqueue by done. by destruct (e' =? e).
Qed.

Lemma view_del e q e' :
  same_timer (view (dequeue e q) e')
    (if e' =? e then (if timer_set (view q e) then CheckCore.ngx_event_del_timer (view q e) else view q e) else view q e').
Proof.
  unfold view. rewrite key_in_dequeue. destruct (e' =? e); [|done]. by destruct (key_in q e).
Qed.

Lemma view_due now q e : NoDup q.*1 -> timer_due now (view q e) = true <-> e ∈ (due now q).*1.
Proof.
  intros Hnd. unfold timer_due, view. rewrite list_elem_of_fmap. destruct (key_in q e) as [k|] eqn:Ek; cbn.
  - fold (rank now k). rewrite negb_true_iff, Z.ltb_ge. apply (key_in_some _ _ _ Hnd) in Ek. split.
    + intros Hk. exists (e, k). split; [done|]. by apply list_elem_of_filter.
    + intros ([e1 k1] & -> & [Hd Hin]%list_elem_of_filter). apply (key_in_some _ _ _ Hnd) in Ek, Hin. cbn in Ek, Hin.
      rewrite Ek in Hin. by injection Hin as ->.
  - apply key_in_none in Ek. split; [done|]. intros ([e1 k1] & -> & [_ Hin]%list_elem_of_filter). exfalso. apply Ek.
    by apply (list_elem_of_fmap_2 fst q (e1, k1)).
Qed.

Lemma same_timer_due now a b : same_timer a b -> timer_due now a = timer_due now b.
Proof. intros [H1 H2]. unfold timer_due. rewrite H1. destruct (timer_set b); [|done]. by rewrite H2. Qed.

Lemma same_timer_add now a b timer :
  same_timer a b -> same_timer (CheckCore.ngx_event_add_timer now a timer) (CheckCore.ngx_event_add_timer now b timer).
Proof.
  intros [H1 H2]. unfold CheckCore.ngx_event_add_timer. rewrite H1. destruct (timer_set b) eqn:E; cbn [andb]; [|done].
  rewrite H2 by done. destruct (_ <? _); [|done]. split; [congruence|auto].
Qed.

#[export] Instance same_timer_del : Proper (same_timer ==> same_timer)
  (fun ev => if timer_set ev then CheckCore.ngx_event_del_timer ev else ev).
Proof. intros a b [H1 H2]. rewrite H1. destruct (timer_set b) eqn:E; split; cbn; congruence. Qed.

(** C12: The timer tree implements the timers of the check handlers, which are
    written in terms of two fields of an event.  After any operations: setting
    the timer of an event changes its fields as [CheckCore] says and no other
    event; clearing it does too; and the timers that are due by their fields
    are those in the due part of the queue, which the event loop expires. *)
Theorem check_timers_refined mem sen events now ops e timer :
  is_Some (mem !! sen) -> events !! sen = None ->
  (forall e, is_Some (events !! e) -> is_Some (mem !! e)) -> (forall e f, events !! e = Some f -> f_timer_set f = false) ->
  ok_ops events (now, []) ops -> is_Some (events !! e) -> 0 <= timer < 2 ^ 62 ->
  let now' := (q_ops ops (now, [])).1 in
  let q := (q_ops ops (now, [])).2 in
  exists T0 T T1 T2, Timer.ngx_event_timer_init mem sen events = Some T0 /\ run_ops ops (now, T0) = Some (now', T)
    /\ Timer.ngx_event_add_timer now' e timer T = Some T1 /\ run_op (ODel e) (now', T) = Some (now', T2)
    /\ forall e', is_Some (events !! e') -> exists ev ev1 ev2,
       event_of T e' = Some ev /\ event_of T1 e' = Some ev1 /\ event_of T2 e' = Some ev2
       /\ (timer_due now' ev = true <-> e' ∈ (due now' q).*1)
       /\ same_timer ev1 (if e' =? e then CheckCore.ngx_event_add_timer now' ev timer else ev)
       /\ same_timer ev2 (if (e' =? e) && timer_set ev then CheckCore.ngx_event_del_timer ev else ev).
Proof.
  intros Hsen Hse Hmem Hset Hok He Ht now' q. destruct (init_represents sen now mem events) as (T0 & E0 & HR0 & Ev0); [done..|].
  destruct (run_ops_sim sen now T0 [] ops events) as (T & E & HR & Hd); [done|by rewrite Ev0|done|].
  fold now' in E, HR. fold q in HR. assert (Hnd := represents_nodup _ _ _ _ HR).
  destruct (run_op_sim sen now' T q (OAdd e timer) events HR Hd (conj He Ht)) as (T1 & E1 & HR1 & Hd1).
  destruct (run_op_sim sen now' T q (ODel e) events HR Hd He) as (T2 & E2 & HR2 & Hd2). cbn [q_op fst snd] in *.
  exists T0, T, T1, T2. split_and!; try done.
  { cbn in E1. destruct (Timer.ngx_event_add_timer now' e timer T); [|done]. cbn in E1. congruence. }
  intros e' He'. apply elem_of_dom in He'.
  destruct (event_of_view sen now' T q e' HR) as (ev & Eev & Hev); [apply elem_of_dom; by rewrite Hd|].
  destruct (event_of_view sen now' T1 _ e' HR1) as (ev1 & Eev1 & Hev1); [apply elem_of_dom; by rewrite Hd1|].
  destruct (event_of_view sen now' T2 _ e' HR2) as (ev2 & Eev2 & Hev2); [apply elem_of_dom; by rewrite Hd2|].
  exists ev, ev1, ev2. split_and!; try done.
  - rewrite (same_timer_due _ _ _ Hev). by apply view_due.
  - rewrite view_add in Hev1. rewrite Hev1. destruct (Z.eqb_spec e' e) as [->|]; [|done]. apply same_timer_add. by symmetry.
  - rewrite view_del in Hev2. rewrite Hev2. destruct (Z.eqb_spec e' e) as [->|]; cbn [andb]; [|by symmetry].
    apply (same_timer_del _ _). by symmetry.
Qed.

Lemma check_timers_refined_witness :
  exists T T1, Timer.ngx_event_add_timer (2 ^ 64 - 300) 16 100 T = Some T1
    /\ exists ev ev1, event_of T 16 = Some ev /\ event_of T1 16 = Some ev1
       /\ same_timer ev1 (CheckCore.ngx_event_add_timer (2 ^ 64 - 300) ev 100).
Proof.
  destruct (check_timers_refined ex_mem 1 ex_events ex_now ex_ops 16 100) as (T0 & T & T1 & T2 & _ & _ & E1 & _ & HH);
    [by eexists|reflexivity|exact ex_mem_events|exact ex_events_clear|exact ex_ops_ok|by eexists|lia|].
  exists T, T1. split; [exact E1|]. destruct (HH 16 ltac:(by eexists)) as (ev & ev1 & ev2 & H & H1 & _ & _ & H2 & _).
  exists ev, ev1. split; [exact H|]. split; [exact H1|exact H2].
Defined.
