(* ===== verification/NgxQueue.v ===== *)
(** * Queues

    The macros of [src/core/ngx_queue.h] and the sort of [ngx_queue.c]: doubly
    linked rings through a head.  The memory is a finite map from addresses to
    links; [None] is a pointer that does not point to links.

    The theorem: on a ring that holds a list, the operations are the operations
    of that list, the sort is a stable insertion sort, and splitting and joining
    are those of lists. *)

From stdpp Require Import gmap sorting.
From S2P Require Import Prelude.

(** ** The code *)

Record ngx_queue_t := mk_queue { q_prev : Z; q_next : Z }.

#[export] Instance eta_queue : Eta ngx_queue_t := fun r => mk_queue (q_prev r) (q_next r).

Abbreviation qmem := (gmap Z ngx_queue_t).

Definition get_prev (p : Z) (m : qmem) : option Z := q_prev <$> m !! p.
Definition get_next (p : Z) (m : qmem) : option Z := q_next <$> m !! p.
Definition set_prev (p v : Z) (m : qmem) : option qmem := n ← m !! p; Some (<[p := n <| q_prev := v |>]> m).
Definition set_next (p v : Z) (m : qmem) : option qmem := n ← m !! p; Some (<[p := n <| q_next := v |>]> m).

Definition ngx_queue_init (q : Z) (m : qmem) : option qmem := m ← set_prev q q m; set_next q q m.

Definition ngx_queue_empty (h : Z) (m : qmem) : option bool := p ← get_prev h m; Some (h =? p).

Definition ngx_queue_insert_head (h x : Z) (m : qmem) : option qmem :=
  n ← get_next h m;
  m ← set_next x n m;
  n ← get_next x m;
  m ← set_prev n x m;
  m ← set_prev x h m;
  set_next h x m.

Definition ngx_queue_insert_after := ngx_queue_insert_head.

Definition ngx_queue_insert_tail (h x : Z) (m : qmem) : option qmem :=
  p ← get_prev h m;
  m ← set_prev x p m;
  p ← get_prev x m;
  m ← set_next p x m;
  m ← set_next x h m;
  set_prev h x m.

Definition ngx_queue_head (h : Z) (m : qmem) : option Z := get_next h m.
Definition ngx_queue_last (h : Z) (m : qmem) : option Z := get_prev h m.

Definition ngx_queue_remove (x : Z) (m : qmem) : option qmem :=
  n ← get_next x m;
  p ← get_prev x m;
  m ← set_prev n p m;
  n ← get_next x m;
  p ← get_prev x m;
  set_next p n m.

(** The part of the queue from [q] on goes to the queue [n]. *)
Definition ngx_queue_split (h q n : Z) (m : qmem) : option qmem :=
  p ← get_prev h m;
  m ← set_prev n p m;
  p ← get_prev n m;
  m ← set_next p n m;
  m ← set_next n q m;
  p ← get_prev q m;
  m ← set_prev h p m;
  p ← get_prev h m;
  m ← set_next p h m;
  set_prev q n m.

(** The elements of the queue [n] go to the end of the queue [h]. *)
Definition ngx_queue_add (h n : Z) (m : qmem) : option qmem :=
  p ← get_prev h m;
  x ← get_next n m;
  m ← set_next p x m;
  x ← get_next n m;
  p ← get_prev h m;
  m ← set_prev x p m;
  p ← get_prev n m;
  m ← set_prev h p m;
  p ← get_prev h m;
  set_next p h m.

(** The loop of [ngx_queue_sort] that looks for the place of [q]. *)
Fixpoint sort_place (fuel : nat) (cmp : Z -> Z -> Z) (queue q prev : Z) (m : qmem) : option Z :=
  match fuel with
  | O => None
  | S fuel =>
    if cmp prev q <=? 0 then Some prev
    else
      prev ← get_prev prev m;
      if negb (prev =? queue) then sort_place fuel cmp queue q prev m else Some prev
  end.

Fixpoint sort_loop (fuel : nat) (cmp : Z -> Z -> Z) (queue q : Z) (m : qmem) : option qmem :=
  match fuel with
  | O => None
  | S fuel =>
    if q =? queue then Some m
    else
      prev ← get_prev q m;
      next ← get_next q m;
      m ← ngx_queue_remove q m;
      prev ← sort_place (size m) cmp queue q prev m;
      m ← ngx_queue_insert_after prev q m;
      sort_loop fuel cmp queue next m
  end.

Definition ngx_queue_sort (queue : Z) (cmp : Z -> Z -> Z) (m : qmem) : option qmem :=
  q ← ngx_queue_head queue m;
  last ← ngx_queue_last queue m;
  if q =? last then Some m
  else
    q ← get_next q m;
    sort_loop (size m) cmp queue q m.

(** The loop of [ngx_queue_middle]. *)
Fixpoint middle_loop (fuel : nat) (queue middle next : Z) (m : qmem) : option Z :=
  match fuel with
  | O => None
  | S fuel =>
    middle ← get_next middle m;
    next ← get_next next m;
    last ← ngx_queue_last queue m;
    if next =? last then Some middle
    else
      next ← get_next next m;
      last ← ngx_queue_last queue m;
      if next =? last then Some middle else middle_loop fuel queue middle next m
  end.

Definition ngx_queue_middle (queue : Z) (m : qmem) : option Z :=
  middle ← ngx_queue_head queue m;
  last ← ngx_queue_last queue m;
  if middle =? last then Some middle
  else
    next ← ngx_queue_head queue m;
    middle_loop (size m) queue middle next m.

(** ** Rings *)

(** From [p] through [l] to [q], forwards and backwards. *)
Fixpoint linked (m : qmem) (p : Z) (l : list Z) (q : Z) : Prop :=
  match l with
  | [] => get_next p m = Some q /\ get_prev q m = Some p
  | x :: l' => get_next p m = Some x /\ get_prev x m = Some p /\ linked m x l' q
  end.

Definition ring (m : qmem) (h : Z) (l : list Z) : Prop := NoDup (h :: l) /\ linked m h l h.

Lemma linked_app m p l1 x l2 q : linked m p (l1 ++ x :: l2) q <-> linked m p l1 x /\ linked m x l2 q.
Proof. revert p; induction l1 as [|y l1 IH]; intros p; cbn; [tauto|]. rewrite IH. tauto. Qed.

(** Writes, field by field. *)
Lemma set_next_spec p v m : is_Some (m !! p) ->
  exists m', set_next p v m = Some m' /\ get_next p m' = Some v /\ (forall q, q <> p -> get_next q m' = get_next q m)
    /\ (forall q, get_prev q m' = get_prev q m) /\ dom m' = dom m.
Proof.
  intros [n Hn]. unfold set_next, get_next, get_prev. rewrite Hn. cbn. eexists. split; [done|]. split_and!.
  - by rewrite lookup_insert_eq.
  - intros q Hq. by rewrite lookup_insert_ne.
  - intros q. destruct (decide (q = p)) as [->|]; [by rewrite lookup_insert_eq, Hn|by rewrite lookup_insert_ne].
  - rewrite dom_insert_L. apply elem_of_dom_2 in Hn. set_solver.
Qed.

Lemma set_prev_spec p v m : is_Some (m !! p) ->
  exists m', set_prev p v m = Some m' /\ get_prev p m' = Some v /\ (forall q, q <> p -> get_prev q m' = get_prev q m)
    /\ (forall q, get_next q m' = get_next q m) /\ dom m' = dom m.
Proof.
  intros [n Hn]. unfold set_prev, get_next, get_prev. rewrite Hn. cbn. eexists. split; [done|]. split_and!.
  - by rewrite lookup_insert_eq.
  - intros q Hq. by rewrite lookup_insert_ne.
  - intros q. destruct (decide (q = p)) as [->|]; [by rewrite lookup_insert_eq, Hn|by rewrite lookup_insert_ne].
  - rewrite dom_insert_L. apply elem_of_dom_2 in Hn. set_solver.
Qed.

Lemma get_next_dom p m v : get_next p m = Some v -> is_Some (m !! p).
Proof. unfold get_next. destruct (m !! p); [by eexists|done]. Qed.

Lemma get_prev_dom p m v : get_prev p m = Some v -> is_Some (m !! p).
Proof. unfold get_prev. destruct (m !! p); [by eexists|done]. Qed.

(** What changes outside a segment does not matter to it. *)
Lemma linked_frame m m' p l q :
  linked m p l q -> (forall x, x ∈ p :: l -> get_next x m' = get_next x m) ->
  (forall x, x ∈ l ++ [q] -> get_prev x m' = get_prev x m) -> linked m' p l q.
Proof.
  revert p; induction l as [|x l IH]; intros p; cbn.
  - intros [H1 H2] Hn Hp. rewrite Hn, Hp by set_solver. done.
  - intros (H1 & H2 & H3) Hn Hp. rewrite Hn, Hp by set_solver. split; [done|]. split; [done|].
    apply IH; [done|intros y Hy; apply Hn; set_solver|intros y Hy; apply Hp; set_solver].
Qed.

Lemma linked_first m p l q : linked m p l q -> get_next p m = Some (default q (head l)) /\ get_prev (default q (head l)) m = Some p.
Proof. destruct l; cbn; tauto. Qed.

Lemma linked_last m p l q : linked m p l q -> get_prev q m = Some (default p (last l)) /\ get_next (default p (last l)) m = Some q.
Proof.
  revert p; induction l as [|x l IH]; intros p; [cbn; tauto|]. intros (_ & _ & H). destruct (IH x H) as [H1 H2].
  rewrite last_cons. by destruct (last l).
Qed.

(** ** The operations on rings *)

(** [x] goes between [p] and what follows it. *)
Lemma insert_after_linked m p l q x :
  linked m p l q -> p ∉ l -> NoDup (l ++ [q]) -> x ∉ p :: l ++ [q] -> is_Some (m !! x) ->
  exists m', ngx_queue_insert_head p x m = Some m' /\ linked m' p (x :: l) q /\ dom m' = dom m
    /\ (forall y, y <> p -> y <> x -> get_next y m' = get_next y m)
    /\ (forall y, y <> x -> y <> default q (head l) -> get_prev y m' = get_prev y m).
Proof.
  intros HL Hp Hnd Hx Hxm. destruct (linked_first _ _ _ _ HL) as [Hf Hfp]. set (f := default q (head l)) in *.
  assert (Hfin : f ∈ l ++ [q]) by (unfold f; destruct l; cbn; set_solver).
  assert (Hxf : x <> f) by set_solver. assert (Hxp : x <> p) by set_solver.
  unfold ngx_queue_insert_head. rewrite (bind_some _ _ _ Hf).
  destruct (set_next_spec x f m Hxm) as (m1 & E1 & N1 & N1' & P1 & D1). rewrite (bind_some _ _ _ E1), (bind_some _ _ _ N1).
  destruct (set_prev_spec f x m1) as (m2 & E2 & P2 & P2' & N2 & D2).
  { apply elem_of_dom. rewrite D1. apply elem_of_dom. by eapply get_prev_dom. }
  rewrite (bind_some _ _ _ E2). destruct (set_prev_spec x p m2) as (m3 & E3 & P3 & P3' & N3 & D3).
  { apply elem_of_dom. rewrite D2, D1. by apply elem_of_dom. }
  rewrite (bind_some _ _ _ E3). destruct (set_next_spec p x m3) as (m4 & E4 & N4 & N4' & P4 & D4).
  { apply elem_of_dom. rewrite D3, D2, D1. apply elem_of_dom. by eapply get_next_dom. }
  exists m4. split; [done|]. assert (HN : forall y, y <> p -> y <> x -> get_next y m4 = get_next y m).
  { intros y Hy1 Hy2. by rewrite N4', N3, N2, N1'. }
  assert (HP : forall y, y <> x -> y <> f -> get_prev y m4 = get_prev y m).
  { intros y Hy1 Hy2. by rewrite P4, P3', P2', P1. }
  split_and!; [|congruence|done|done]. cbn [linked]. split; [done|]. split; [by rewrite P4|].
  assert (Hxn : get_next x m4 = Some f) by (by rewrite N4', N3, N2). assert (Hfp4 : get_prev f m4 = Some x) by (by rewrite P4, P3').
  destruct l as [|y l]; cbn in f |- *; [by split|]. split; [done|]. split; [done|]. cbn in HL. destruct HL as (_ & _ & HL).
  cbn in Hnd. apply NoDup_cons in Hnd as [Hy Hnd]. eapply linked_frame; [exact HL| |].
  - intros z Hz. apply HN; set_solver.
  - intros z Hz. apply HP; set_solver.
Qed.

Lemma remove_linked m p l1 x l2 q :
  linked m p (l1 ++ x :: l2) q -> NoDup (l1 ++ x :: l2) -> p ∉ l1 ++ x :: l2 -> q ∉ l1 ++ x :: l2 ->
  exists m', ngx_queue_remove x m = Some m' /\ linked m' p (l1 ++ l2) q /\ dom m' = dom m
    /\ (forall y, y <> default p (last l1) -> get_next y m' = get_next y m)
    /\ (forall y, y <> default q (head l2) -> get_prev y m' = get_prev y m).
Proof.
  intros [H1 H2]%linked_app Hnd Hp Hq. destruct (linked_last _ _ _ _ H1) as [Hlp Hln]. destruct (linked_first _ _ _ _ H2) as [Hfn Hfp].
  set (a := default p (last l1)) in *. set (b := default q (head l2)) in *.
  unfold ngx_queue_remove. rewrite (bind_some _ _ _ Hfn), (bind_some _ _ _ Hlp).
  destruct (set_prev_spec b a m) as (m1 & E1 & P1 & P1' & N1 & D1); [by eapply get_prev_dom|]. rewrite (bind_some _ _ _ E1).
  assert (Hxb : x <> b).
  { unfold b. destruct l2 as [|y l2]; cbn; [set_solver|]. apply NoDup_app in Hnd as (_ & _ & Hnd). apply NoDup_cons in Hnd. set_solver. }
  rewrite N1, (bind_some _ _ _ Hfn), P1', (bind_some _ _ _ Hlp) by done.
  destruct (set_next_spec a b m1) as (m2 & E2 & N2 & N2' & P2 & D2).
  { apply elem_of_dom. rewrite D1. apply elem_of_dom. by eapply get_next_dom. }
  exists m2. split; [done|]. assert (HN : forall y, y <> a -> get_next y m2 = get_next y m) by (intros y Hy; by rewrite N2', N1).
  assert (HP : forall y, y <> b -> get_prev y m2 = get_prev y m) by (intros y Hy; by rewrite P2, P1').
  split_and!; [|congruence|done|done].
  apply NoDup_app in Hnd as (Hnd1 & Hd & [Hx Hnd2]%NoDup_cons).
  assert (Ha : a = p \/ a ∈ l1).
  { unfold a. destruct (last l1) eqn:E; [right|by left]. cbn. by apply last_Some_elem_of in E. }
  assert (Hb : b = q \/ b ∈ l2) by (unfold b; destruct l2; cbn; set_solver).
  assert (HA : linked m2 a l2 q).
  { destruct l2 as [|y l2]; cbn in b |- *; [by rewrite P2|]. split; [done|]. split; [by rewrite P2|].
    cbn in H2. destruct H2 as (_ & _ & H2). apply NoDup_cons in Hnd2 as [Hy Hnd2]. subst b.
    eapply linked_frame; [exact H2|intros z Hz; apply HN|intros z Hz; apply HP]; [|set_solver].
    destruct Ha as [->|Ha]; [set_solver|]. specialize (Hd a Ha). set_solver. }
  destruct l1 as [|y l1 _] using rev_ind; [exact HA|]. assert (Ea : a = y) by (unfold a; by rewrite last_snoc). clearbody a. subst a.
  rewrite <- app_assoc. cbn [app]. apply linked_app. split; [|exact HA]. apply linked_app in H1 as [H1 _].
  apply NoDup_app in Hnd1 as (Hnd1 & Hy & _).
  eapply linked_frame; [exact H1|intros z Hz; apply HN|intros z Hz; apply HP].
  - intros ->. apply elem_of_cons in Hz as [->|Hz]; set_solver.
  - intros ->. destruct Hb as [->|Hb]; [set_solver|]. apply (Hd b); set_solver.
Qed.

(** A memory read backwards. *)
Definition mirror (m : qmem) : qmem := (fun n => mk_queue (q_next n) (q_prev n)) <$> m.

Lemma get_next_mirror p m : get_next p (mirror m) = get_prev p m.
Proof. unfold get_next, get_prev, mirror. rewrite lookup_fmap. by destruct (m !! p). Qed.

Lemma get_prev_mirror p m : get_prev p (mirror m) = get_next p m.
Proof. unfold get_next, get_prev, mirror. rewrite lookup_fmap. by destruct (m !! p). Qed.

Lemma set_next_mirror p v m : set_next p v (mirror m) = mirror <$> set_prev p v m.
Proof. unfold set_next, set_prev, mirror. rewrite lookup_fmap. destruct (m !! p) as [n|]; cbn; [|done]. by rewrite fmap_insert. Qed.

Lemma set_prev_mirror p v m : set_prev p v (mirror m) = mirror <$> set_next p v m.
Proof. unfold set_next, set_prev, mirror. rewrite lookup_fmap. destruct (m !! p) as [n|]; cbn; [|done]. by rewrite fmap_insert. Qed.

Lemma mirror_mirror m : mirror (mirror m) = m.
Proof.
  apply map_eq. intros p. unfold mirror. rewrite !lookup_fmap. by destruct (m !! p) as [[]|].
Qed.

Lemma insert_tail_mirror h x m : ngx_queue_insert_tail h x m = mirror <$> ngx_queue_insert_head h x (mirror m).
Proof.
  unfold ngx_queue_insert_tail, ngx_queue_insert_head. rewrite get_next_mirror.
  destruct (get_prev h m) as [p|]; cbn; [|done]. rewrite set_next_mirror. destruct (set_prev x p m) as [m1|]; cbn; [|done].
  rewrite get_next_mirror. destruct (get_prev x m1) as [p1|]; cbn; [|done].
  rewrite set_prev_mirror. destruct (set_next p1 x m1) as [m2|]; cbn; [|done].
  rewrite set_prev_mirror. destruct (set_next x h m2) as [m3|]; cbn; [|done].
  rewrite set_next_mirror. destruct (set_prev h x m3) as [m4|]; cbn; [|done]. by rewrite mirror_mirror.
Qed.

Lemma linked_mirror m p l q : linked m p l q -> linked (mirror m) q (reverse l) p.
Proof.
  revert p; induction l as [|x l IH]; intros p; cbn [linked].
  - intros [H1 H2]. cbn. by rewrite get_next_mirror, get_prev_mirror.
  - intros (H1 & H2 & H3). rewrite reverse_cons. apply linked_app. split; [by apply IH|]. cbn. by rewrite get_next_mirror, get_prev_mirror.
Qed.

Lemma ring_mirror m h l : ring m h l -> ring (mirror m) h (reverse l).
Proof.
  intros [Hnd HL]. split; [|by apply linked_mirror]. apply NoDup_cons in Hnd as [Hh Hnd]. constructor; [by rewrite elem_of_reverse|].
  by rewrite reverse_Permutation.
Qed.

(** A ring other operations do not touch. *)
Lemma ring_frame m m' k l' :
  ring m k l' -> (forall y, y ∈ k :: l' -> get_next y m' = get_next y m /\ get_prev y m' = get_prev y m) -> ring m' k l'.
Proof.
  intros [Hnd HL] HF. split; [done|]. eapply linked_frame; [done|..]; intros y Hy; apply HF; set_solver.
Qed.

Section Rings.
Context (h : Z).

Lemma queue_init_ring m : is_Some (m !! h) -> exists m', ngx_queue_init h m = Some m' /\ ring m' h [] /\ dom m' = dom m
  /\ (forall k l', ring m k l' -> h ∉ k :: l' -> ring m' k l').
Proof.
  intros Hh. unfold ngx_queue_init. destruct (set_prev_spec h h m Hh) as (m1 & E1 & P1 & P1' & N1 & D1). rewrite (bind_some _ _ _ E1).
  destruct (set_next_spec h h m1) as (m2 & E2 & N2 & N2' & P2 & D2); [apply elem_of_dom; rewrite D1; by apply elem_of_dom|].
  exists m2. split; [done|]. split_and!; [|congruence|].
  - split; [apply NoDup_singleton|]. cbn. by rewrite P2.
  - intros k l' Hr Hn. eapply ring_frame; [done|]. intros y Hy. assert (y <> h) by (intros ->; done). by rewrite N2', N1, P2, P1'.
Qed.

Lemma queue_empty_ring m l : ring m h l -> ngx_queue_empty h m = Some (bool_decide (l = [])).
Proof.
  intros [Hnd HL]. destruct (linked_last _ _ _ _ HL) as [Hp _]. unfold ngx_queue_empty. rewrite (bind_some _ _ _ Hp). f_equal.
  destruct l as [|x l]; cbn [default last]; [apply Z.eqb_refl|]. rewrite bool_decide_eq_false_2 by done. apply Z.eqb_neq.
  apply NoDup_cons in Hnd as [Hh _]. destruct (last (x :: l)) as [y|] eqn:E; [|by apply last_None in E].
  apply last_Some_elem_of in E. cbn. intros ->. done.
Qed.

Lemma insert_head_ring m l x :
  ring m h l -> x ∉ h :: l -> is_Some (m !! x) ->
  exists m', ngx_queue_insert_head h x m = Some m' /\ ring m' h (x :: l) /\ dom m' = dom m
    /\ (forall k l', ring m k l' -> (forall y, y ∈ x :: h :: l -> y ∉ k :: l') -> ring m' k l').
Proof.
  intros [Hnd HL] Hx Hm. pose proof Hnd as Hnd'. apply NoDup_cons in Hnd' as [Hh Hl].
  destruct (insert_after_linked m h l h x HL) as (m' & E & HL' & D & HN & HP); [done| |set_solver|done|].
  { apply NoDup_app. split; [done|]. split; [|apply NoDup_singleton]. intros y Hy ->%list_elem_of_singleton. done. }
  exists m'. split; [done|]. split_and!; [|done|].
  - split; [|done]. constructor; [set_solver|]. constructor; [set_solver|done].
  - intros k l' Hr Hd. eapply ring_frame; [done|]. intros y Hy. assert (Hy' : y ∉ x :: h :: l) by (intros H; by apply (Hd y H)).
    apply not_elem_of_cons in Hy' as [Hyx [Hyh Hyl]%not_elem_of_cons]. split; [by apply HN|apply HP; [done|]].
    destruct l as [|z l]; [done|]. intros ->. apply Hyl. by left.
Qed.

Lemma insert_tail_ring m l x :
  ring m h l -> x ∉ h :: l -> is_Some (m !! x) -> exists m', ngx_queue_insert_tail h x m = Some m' /\ ring m' h (l ++ [x]).
Proof.
  intros Hr Hx Hm. rewrite insert_tail_mirror. apply ring_mirror in Hr.
  destruct (insert_head_ring (mirror m) (reverse l) x Hr) as (m' & E & Hr' & _).
  - rewrite elem_of_cons, elem_of_reverse. by rewrite elem_of_cons in Hx.
  - unfold mirror. rewrite lookup_fmap. destruct Hm as [n ->]. by eexists.
  - rewrite E. eexists. split; [done|]. apply ring_mirror in Hr'. by rewrite reverse_cons, reverse_involutive in Hr'.
Qed.

Lemma remove_ring m l1 x l2 :
  ring m h (l1 ++ x :: l2) ->
  exists m', ngx_queue_remove x m = Some m' /\ ring m' h (l1 ++ l2) /\ dom m' = dom m
    /\ (forall k l', ring m k l' -> (forall y, y ∈ h :: l1 ++ x :: l2 -> y ∉ k :: l') -> ring m' k l').
Proof.
  intros [Hnd HL]. apply NoDup_cons in Hnd as [Hh Hnd].
  destruct (remove_linked m h l1 x l2 h HL Hnd Hh Hh) as (m' & E & HL' & D & HN & HP). exists m'. split; [done|]. split_and!; [|done|].
  - split; [|done]. constructor; [set_solver|]. apply NoDup_app in Hnd as (? & H & [? ?]%NoDup_cons). apply NoDup_app. set_solver.
  - intros k l' Hr Hd. eapply ring_frame; [done|]. intros y Hy.
    assert (Hy' : y ∉ h :: l1 ++ x :: l2) by (intros H; by apply (Hd y H)). split; [apply HN|apply HP].
    + intros ->. apply Hy'. destruct (last l1) as [z|] eqn:El; cbn; [|by left]. apply last_Some_elem_of in El.
      right. apply elem_of_app. by left.
    + intros ->. apply Hy'. destruct l2 as [|z l2]; cbn; [by left|]. right. apply elem_of_app. right. right. by left.
Qed.
End Rings.

(** ** The sort *)

Lemma insert_after_ring m h l1 l2 x :
  ring m h (l1 ++ l2) -> x ∉ h :: l1 ++ l2 -> is_Some (m !! x) ->
  exists m', ngx_queue_insert_after (default h (last l1)) x m = Some m' /\ ring m' h (l1 ++ x :: l2) /\ dom m' = dom m.
Proof.
  intros Hr Hx Hm. destruct l1 as [|p l1 _] using rev_ind.
  { destruct (insert_head_ring h m l2 x Hr Hx Hm) as (m' & E & Hr' & D & _). by exists m'. }
  rewrite last_snoc. cbn [default]. destruct Hr as [Hnd HL]. rewrite <- app_assoc in *. cbn [app] in *.
  apply linked_app in HL as [HL1 HL2]. pose proof Hnd as Hnd'. apply NoDup_cons in Hnd as [Hh Hnd].
  apply NoDup_app in Hnd as (Hn1 & Hd & [Hp Hn2]%NoDup_cons). rewrite not_elem_of_cons, not_elem_of_app, not_elem_of_cons in Hx.
  rewrite not_elem_of_app, not_elem_of_cons in Hh. destruct Hx as (Hx1 & Hx2 & Hx3 & Hx4). destruct Hh as (Hh1 & Hh2 & Hh3).
  destruct (insert_after_linked m p l2 h x HL2) as (m' & E & HL' & D & HN & HP); [done| | |done|].
  { apply NoDup_app. split; [done|]. split; [|apply NoDup_singleton]. intros y Hy ->%list_elem_of_singleton. done. }
  { rewrite not_elem_of_cons, not_elem_of_app. split_and!; [done|done|]. by intros ->%list_elem_of_singleton. }
  exists m'. split; [done|]. split; [|done]. split.
  - assert (Hp' : h :: l1 ++ p :: x :: l2 ≡ₚ x :: h :: l1 ++ p :: l2) by solve_Permutation. rewrite Hp'. constructor; [|done].
    rewrite not_elem_of_cons, not_elem_of_app, not_elem_of_cons. done.
  - apply linked_app. split; [|done]. eapply linked_frame; [exact HL1| |].
    + intros y Hy. apply HN; intros ->; apply elem_of_cons in Hy as [->|Hy]; try done. apply (Hd p Hy). by left.
    + intros y [Hy|Hy%list_elem_of_singleton]%elem_of_app.
      * apply HP; [by intros ->|]. intros ->. destruct l2 as [|z l2]; [done|]. apply (Hd z Hy). right. by left.
      * subst y. apply HP; [done|]. destruct l2 as [|z l2]; [done|]. intros ->. apply Hp. by left.
Qed.

(** Insertion from the end of a sorted part, given in reverse. *)
Fixpoint ins_back (cmp : Z -> Z -> Z) (q : Z) (rl : list Z) : list Z :=
  match rl with [] => [q] | y :: rl' => if cmp y q <=? 0 then q :: rl else y :: ins_back cmp q rl' end.

Definition isort (cmp : Z -> Z -> Z) (l : list Z) : list Z := reverse (foldl (fun rl q => ins_back cmp q rl) [] l).

Lemma ring_size m h l : ring m h l -> (length l < size m)%nat.
Proof.
  intros [Hnd HL]. rewrite <- size_dom. change (length (h :: l) <= size (dom m))%nat. rewrite <- (size_list_to_set (C := gset Z)) by done.
  apply subseteq_size. intros y Hy%elem_of_list_to_set. apply elem_of_dom.
  revert HL. generalize h at 2 as k. intros k HL. clear Hnd. revert h HL Hy; induction l as [|x l IH]; intros p HL Hy.
  - apply list_elem_of_singleton in Hy as ->. destruct HL as [HL _]. by eapply get_next_dom.
  - cbn in HL. destruct HL as (H1 & _ & H2). apply elem_of_cons in Hy as [->|Hy]; [by eapply get_next_dom|]. by eapply IH.
Qed.

Lemma sort_place_spec fuel cmp h q y rl rest m :
  ring m h (reverse (y :: rl) ++ rest) -> (length rl < fuel)%nat ->
  exists p ra rb, sort_place fuel cmp h q y m = Some p /\ y :: rl = ra ++ rb /\ p = default h (head rb)
    /\ ins_back cmp q (y :: rl) = ra ++ q :: rb.
Proof.
  revert fuel y rest; induction rl as [|z rl IH]; intros fuel y rest Hr Hf; (destruct fuel as [|fuel]; [cbn in Hf; lia|]);
    cbn [sort_place ins_back].
  - destruct (cmp y q <=? 0); [by exists y, [], [y]|]. destruct Hr as [Hnd HL]. cbn in HL. destruct HL as (_ & Hp & _).
    rewrite (bind_some _ _ _ Hp), Z.eqb_refl. by exists h, [y], [].
  - destruct (cmp y q <=? 0); [by exists y, [], (y :: z :: rl)|]. pose proof Hr as [Hnd HL].
    rewrite (reverse_cons _ y), <- app_assoc in HL, Hr. cbn [app] in HL, Hr. apply linked_app in HL as [HL1 HL2].
    destruct (linked_last _ _ _ _ HL1) as [Hp _]. rewrite reverse_cons, last_snoc in Hp. cbn [default] in Hp. rewrite (bind_some _ _ _ Hp).
    assert (Hz : z <> h).
    { intros ->. destruct Hr as [Hnd' _]. apply NoDup_cons in Hnd' as [Hh _]. apply Hh. apply elem_of_app. left.
      rewrite elem_of_reverse. by left. }
    change (id z) with z. rewrite (proj2 (Z.eqb_neq _ _) Hz). cbn [negb].
    destruct (IH fuel z (y :: rest)) as (p & ra & rb & E & Erl & Ep & Ei); [done|cbn in Hf; lia|].
    exists p, (y :: ra), rb. split; [done|]. cbn [app]. rewrite <- Erl. split; [done|]. split; [done|]. by f_equal.
Qed.

Lemma sort_loop_spec fuel cmp h y rl rest m :
  ring m h (reverse (y :: rl) ++ rest) -> (length rest < fuel)%nat ->
  exists m', sort_loop fuel cmp h (default h (head rest)) m = Some m'
    /\ ring m' h (reverse (foldl (fun rl q => ins_back cmp q rl) (y :: rl) rest)).
Proof.
  revert y rl m fuel; induction rest as [|q rest IH]; intros y rl m fuel Hr Hf; (destruct fuel as [|fuel]; [lia|]); cbn [sort_loop].
  - cbn [head default]. rewrite Z.eqb_refl. exists m. by rewrite app_nil_r in Hr.
  - cbn [head default foldl]. change (id q) with q. pose proof Hr as [Hnd HL].
    assert (Hsplit := Hnd). apply NoDup_cons in Hsplit as [Hh Hsplit]. assert (Hqh : q <> h).
    { intros ->. apply Hh. apply elem_of_app. right. by left. }
    rewrite (proj2 (Z.eqb_neq _ _) Hqh). apply linked_app in HL as [HL1 HL2].
    destruct (linked_last _ _ _ _ HL1) as [Hp _]. rewrite reverse_cons, last_snoc in Hp. cbn [default] in Hp. change (id y) with y in Hp.
    destruct (linked_first _ _ _ _ HL2) as [Hn _]. rewrite (bind_some _ _ _ Hp), (bind_some _ _ _ Hn).
    assert (Hqm : is_Some (m !! q)) by by eapply get_next_dom.
    destruct (remove_ring h m (reverse (y :: rl)) q rest Hr) as (m1 & E1 & Hr1 & D1 & _). rewrite (bind_some _ _ _ E1).
    assert (Hsz := ring_size _ _ _ Hr1). rewrite length_app, length_reverse in Hsz. cbn in Hsz.
    destruct (sort_place_spec (size m1) cmp h q y rl rest m1 Hr1) as (p & ra & rb & E2 & Erl & Ep & Ei); [lia|].
    rewrite (bind_some _ _ _ E2). rewrite Erl, reverse_app, <- app_assoc in Hr1.
    destruct (insert_after_ring m1 h (reverse rb) (reverse ra ++ rest) q Hr1) as (m2 & E3 & Hr2 & D2).
    { rewrite app_assoc, <- reverse_app, <- Erl. apply NoDup_app in Hsplit as (_ & Hd & [Hq _]%NoDup_cons).
      rewrite not_elem_of_cons, not_elem_of_app. split_and!; [done| |done]. intros Hin. apply (Hd q Hin). by left. }
    { apply elem_of_dom. rewrite D1. by apply elem_of_dom. }
    replace (default h (last (reverse rb))) with p in E3.
    2: { subst p. destruct rb as [|z rb]; [done|]. by rewrite reverse_cons, last_snoc. }
    rewrite (bind_some _ _ _ E3). rewrite Ei.
    assert (Hr3 : ring m2 h (reverse (ra ++ q :: rb) ++ rest)).
    { rewrite reverse_app, reverse_cons, <- !app_assoc. exact Hr2. }
    destruct (ra ++ q :: rb) as [|y' rl'] eqn:El; [by destruct ra|]. eapply IH; [exact Hr3|cbn in Hf; lia].
Qed.

Lemma queue_sort_ring m h l cmp :
  ring m h l -> exists m', ngx_queue_sort h cmp m = Some m' /\ ring m' h (isort cmp l).
Proof.
  intros Hr. assert (Hsz := ring_size _ _ _ Hr). pose proof Hr as [Hnd HL]. destruct (linked_first _ _ _ _ HL) as [Hf _].
  destruct (linked_last _ _ _ _ HL) as [Hl _]. unfold ngx_queue_sort, ngx_queue_head, ngx_queue_last.
  rewrite (bind_some _ _ _ Hf), (bind_some _ _ _ Hl). destruct l as [|x l]; [rewrite Z.eqb_refl; by exists m|].
  destruct l as [|y l].
  - cbn [head default last]. rewrite Z.eqb_refl. exists m. split; [done|]. exact Hr.
  - assert (Hne : x <> default h (last (x :: y :: l))).
    { rewrite last_cons. destruct (last (y :: l)) as [z|] eqn:E; [|by apply last_None in E]. apply last_Some_elem_of in E. cbn.
      apply NoDup_cons in Hnd as [_ [Hx _]%NoDup_cons]. intros ->. done. }
    cbn [head default]. change (id x) with x. rewrite (proj2 (Z.eqb_neq _ _) Hne).
    assert (Hy : get_next x m = Some y) by (cbn in HL; tauto). rewrite (bind_some _ _ _ Hy).
    destruct (sort_loop_spec (size m) cmp h x [] (y :: l) m) as (m' & E & Hr'); [done|cbn in Hsz |- *; lia|].
    exists m'. split; [done|]. exact Hr'.
Qed.

(** ** What the sort does to the list *)

Lemma ins_back_split cmp q rl :
  exists ra rb, rl = ra ++ rb /\ ins_back cmp q rl = ra ++ q :: rb /\ Forall (fun y => 0 < cmp y q) ra
    /\ (forall y, head rb = Some y -> cmp y q <= 0).
Proof.
  induction rl as [|y rl (ra & rb & -> & E & HF & Hh)]; [by exists [], []|]. cbn [ins_back]. destruct (Z.leb_spec (cmp y q) 0).
  - exists [], (y :: ra ++ rb). split_and!; try done. by intros z [= <-].
  - exists (y :: ra), rb. cbn [app]. rewrite E. split_and!; try done. by constructor.
Qed.

(** [a] comes before [b]. *)
Abbreviation before a b l := (sublist [a; b] l).

Lemma before_snoc (a b q : Z) l : before a b (l ++ [q]) -> before a b l \/ a ∈ l /\ b = q.
Proof.
  intros (k1 & k2 & E & H1 & H2)%sublist_app_r. apply sublist_cons_r in H2 as [H2|(k & -> & H2)].
  - apply sublist_nil_r in H2 as ->. rewrite app_nil_r in E. left. by rewrite E.
  - apply sublist_nil_r in H2 as ->. right. destruct k1 as [|z [|? []]]; try done. injection E as <- <-.
    split; [|done]. by apply singleton_sublist_l.
Qed.

Section Sort.
Context (cmp : Z -> Z -> Z).
#[local] Abbreviation le a b := (cmp a b <= 0).

Lemma ins_back_perm q rl : ins_back cmp q rl ≡ₚ q :: rl.
Proof. destruct (ins_back_split cmp q rl) as (ra & rb & -> & -> & _). solve_Permutation. Qed.

Lemma isort_snoc l q : reverse (isort cmp (l ++ [q])) = ins_back cmp q (reverse (isort cmp l)).
Proof. unfold isort. by rewrite !reverse_involutive, foldl_app. Qed.

Lemma isort_perm l : reverse (isort cmp l) ≡ₚ l.
Proof. induction l as [|q l IH] using rev_ind; [done|]. rewrite isort_snoc, ins_back_perm, IH. solve_Permutation. Qed.

(** Elements that need not change places do not. *)
Lemma isort_stable l a b : before a b l -> le a b -> before b a (reverse (isort cmp l)).
Proof.
  induction l as [|q l IH] using rev_ind; intros Hb Hle; [by apply sublist_nil_r in Hb|]. rewrite isort_snoc.
  assert (Hp := isort_perm l). destruct (ins_back_split cmp q (reverse (isort cmp l))) as (ra & rb & E & -> & HF & _).
  rewrite E in Hp. apply before_snoc in Hb as [Hb|[Ha ->]].
  - specialize (IH Hb Hle). rewrite E in IH. apply sublist_app_cons_r. by left.
  - apply sublist_app_cons_r. right. exists [], [a]. split_and!; [done|apply sublist_nil_l|]. apply singleton_sublist_l.
    rewrite <- Hp in Ha. apply elem_of_app in Ha as [Ha|]; [|done]. rewrite Forall_forall in HF. specialize (HF a Ha). lia.
Qed.

Context (Htot : forall a b, le a b \/ le b a) (Htrans : forall a b c, le a b -> le b c -> le a c).

Lemma isort_sorted l : StronglySorted (fun b a => le a b) (reverse (isort cmp l)).
Proof using Htot Htrans.
  induction l as [|q l IH] using rev_ind; [constructor|]. rewrite isort_snoc.
  destruct (ins_back_split cmp q (reverse (isort cmp l))) as (ra & rb & E & -> & HF & Hh). rewrite E in IH. clear E.
  assert (Hrb : Forall (fun y => le y q) rb).
  { destruct rb as [|y rb]; [done|]. specialize (Hh y eq_refl). apply StronglySorted_app in IH as (_ & _ & [_ Hy]%StronglySorted_inv).
    constructor; [done|]. eapply Forall_impl; [exact Hy|]. intros z Hz. exact (Htrans _ _ _ Hz Hh). }
  apply StronglySorted_app in IH as (Hd & Ha & Hb). apply StronglySorted_app. split_and!; [|done|by constructor].
  intros x y Hx [->|Hy]%elem_of_cons; [|by apply Hd]. rewrite Forall_forall in HF. specialize (HF x Hx).
  destruct (Htot q x); [done|lia].
Qed.
End Sort.

Lemma StronglySorted_reverse {X} (R : X -> X -> Prop) l : StronglySorted (flip R) (reverse l) -> StronglySorted R l.
Proof.
  intros H. induction l as [|x l IH]; [constructor|]. rewrite reverse_cons in H. apply StronglySorted_app in H as (Hd & H & _).
  constructor; [by apply IH|]. apply Forall_forall. intros y Hy. apply (Hd y x); [by rewrite elem_of_reverse|by left].
Qed.

Lemma sublist_reverse {X} (l k : list X) : sublist l k -> sublist (reverse l) (reverse k).
Proof.
  induction 1 as [|x l k H IH|x l k H IH]; [done|rewrite !reverse_cons; by apply sublist_app|].
  rewrite reverse_cons. by apply sublist_inserts_r.
Qed.

(** [ngx_queue_sort] with a comparison that is a total preorder leaves the
    queue's elements sorted in place, and it is stable, as its comment says:
    two elements that were in order keep their places. *)
Theorem queue_sort_stable m h l cmp :
  ring m h l -> (forall a b, cmp a b <= 0 \/ cmp b a <= 0) -> (forall a b c, cmp a b <= 0 -> cmp b c <= 0 -> cmp a c <= 0) ->
  exists m' l', ngx_queue_sort h cmp m = Some m' /\ ring m' h l' /\ l' ≡ₚ l /\ StronglySorted (fun a b => cmp a b <= 0) l'
    /\ (forall a b, before a b l -> cmp a b <= 0 -> before a b l').
Proof.
  intros Hr Htot Htrans. destruct (queue_sort_ring m h l cmp Hr) as (m' & E & Hr'). exists m', (isort cmp l).
  split_and!; [done|done| | |].
  - rewrite <- (isort_perm cmp l) at 2. by rewrite reverse_Permutation.
  - apply StronglySorted_reverse. by apply isort_sorted.
  - intros a b Hb Hle. apply (isort_stable cmp l a b Hb) in Hle. apply sublist_reverse in Hle.
    by rewrite reverse_involutive in Hle.
Qed.

Definition sort_demo : qmem := list_to_map [(1, mk_queue 4 2); (2, mk_queue 1 3); (3, mk_queue 2 4); (4, mk_queue 3 1)].

Lemma queue_sort_stable_witness :
  exists m' l', ngx_queue_sort 1 Z.sub sort_demo = Some m' /\ ring m' 1 l' /\ l' ≡ₚ [2; 3; 4].
Proof.
  destruct (queue_sort_stable sort_demo 1 [2; 3; 4] Z.sub) as (m' & l' & H1 & H2 & H3 & _); [|intros; lia|intros; lia|].
  - split; [by apply (bool_decide_eq_true_1 _)|by cbn].
  - by exists m', l'.
Defined.

(** ** The middle *)

Lemma ring_next m h l i x : ring m h l -> l !! i = Some x -> get_next x m = Some (default h (l !! S i)).
Proof.
  intros [_ HL] Hi. apply take_drop_middle in Hi. rewrite <- Hi in HL. apply linked_app in HL as [_ HL].
  destruct (linked_first _ _ _ _ HL) as [Hf _]. by rewrite head_lookup, lookup_drop, Nat.add_0_r in Hf.
Qed.

Lemma ring_last m h l : ring m h l -> ngx_queue_last h m = Some (default h (l !! pred (length l))).
Proof. intros [_ HL]. destruct (linked_last _ _ _ _ HL) as [Hl _]. unfold ngx_queue_last. by rewrite Hl, last_lookup. Qed.

Lemma middle_loop_spec fuel m h l i x y :
  ring m h l -> l !! i = Some x -> l !! (2 * i)%nat = Some y -> (2 * i + 1 < length l)%nat -> (length l <= fuel + 2 * i)%nat ->
  middle_loop fuel h x y m = l !! (length l / 2)%nat.
Proof.
  revert i x y; induction fuel as [|fuel IH]; intros i x y Hr Hx Hy Hlt Hf; [lia|]. cbn [middle_loop].
  assert (Hnd : NoDup l) by by destruct Hr as [[_ ?]%NoDup_cons _].
  assert (Hget : forall j, (j < length l)%nat -> exists z, l !! j = Some z) by (intros j Hj; by apply lookup_lt_is_Some_2).
  destruct (Hget (S i)) as [x1 Hx1]; [lia|]. destruct (Hget (S (2 * i))) as [y1 Hy1]; [lia|].
  destruct (Hget (pred (length l))) as [z Hz]; [lia|].
  rewrite (bind_some _ _ _ (ring_next _ _ _ _ _ Hr Hx)), (bind_some _ _ _ (ring_next _ _ _ _ _ Hr Hy)), (bind_some _ _ _ (ring_last _ _ _ Hr)).
  rewrite Hx1, Hy1, Hz. cbn [default]. change (id x1) with x1. change (id y1) with y1. change (id z) with z.
  destruct (Z.eqb_spec y1 z) as [->|Hne].
  { assert (E := NoDup_lookup _ _ _ _ Hnd Hy1 Hz). rewrite <- Hx1. f_equal. apply Nat.div_unique with 0%nat; lia. }
  assert (Hlt2 : (S (S (2 * i)) < length l)%nat).
  { destruct (decide (S (2 * i) = pred (length l))) as [E|]; [|lia]. rewrite <- E, Hy1 in Hz. congruence. }
  destruct (Hget (S (S (2 * i)))) as [y2 Hy2]; [lia|].
  rewrite (bind_some _ _ _ (ring_next _ _ _ _ _ Hr Hy1)), (bind_some _ _ _ (ring_last _ _ _ Hr)), Hy2, Hz. cbn [default].
  change (id y2) with y2. change (id z) with z. destruct (Z.eqb_spec y2 z) as [->|Hne2].
  { assert (E := NoDup_lookup _ _ _ _ Hnd Hy2 Hz). rewrite <- Hx1. f_equal. apply Nat.div_unique with 1%nat; lia. }
  apply (IH (S i)); [done|done|by replace (2 * S i)%nat with (S (S (2 * i))) by lia| |lia].
  destruct (decide (S (S (2 * i)) = pred (length l))) as [E|]; [|lia]. rewrite <- E, Hy2 in Hz. congruence.
Qed.

(** The middle of a queue is the element in the middle of its list, the later
    one of two; the head of an empty queue. *)
Lemma queue_middle_ring m h l : ring m h l -> ngx_queue_middle h m = Some (default h (l !! (length l / 2)%nat)).
Proof.
  intros Hr. assert (Hsz := ring_size _ _ _ Hr). pose proof Hr as [Hnd HL]. destruct (linked_first _ _ _ _ HL) as [Hf _].
  unfold ngx_queue_middle, ngx_queue_head. rewrite (bind_some _ _ _ Hf), (bind_some _ _ _ (ring_last _ _ _ Hr)).
  destruct l as [|x [|y l]]; [cbn; by rewrite Z.eqb_refl..|].
  destruct (lookup_lt_is_Some_2 (x :: y :: l) (pred (length (x :: y :: l)))) as [z Hz]; [cbn; lia|]. rewrite Hz. cbn [head default].
  change (id x) with x. change (id z) with z. apply NoDup_cons in Hnd as [_ Hnd]. destruct (Z.eqb_spec x z) as [->|Hne].
  { exfalso. assert (E := NoDup_lookup _ 0 _ _ Hnd eq_refl Hz). cbn in E. lia. }
  rewrite (bind_some _ _ _ Hf). cbn [head default]. change (id x) with x. rewrite (middle_loop_spec _ m h (x :: y :: l) 0 x x); [|done|done|done|cbn; lia|lia].
  destruct (lookup_lt_is_Some_2 (x :: y :: l) (length (x :: y :: l) / 2)) as [w Hw]; [apply Nat.div_lt; cbn; lia|]. by rewrite Hw.
Qed.

(** ** Splitting and joining *)

(** Another end for a segment. *)
Lemma linked_end m m' p l q q' : linked m p l q -> NoDup (p :: l) ->
  (forall x, x ∈ p :: l -> x <> default p (last l) -> get_next x m' = get_next x m) -> (forall x, x ∈ l -> get_prev x m' = get_prev x m) ->
  get_next (default p (last l)) m' = Some q' -> get_prev q' m' = Some (default p (last l)) -> linked m' p l q'.
Proof.
  revert p; induction l as [|x l IH]; intros p HL Hnd HN HP H1 H2; cbn in *; [done|]. destruct HL as (L1 & L2 & L3). apply NoDup_cons in Hnd as [Hp Hnd].
  assert (El : default p (last (x :: l)) = default x (last l)) by (rewrite last_cons; by destruct (last l)). cbn in El. rewrite El in *.
  assert (Hin : default x (last l) ∈ x :: l) by (destruct (last l) as [y|] eqn:E; cbn; [right; by apply last_Some_elem_of|by left]).
  split; [rewrite HN; [done|by left|]|split; [rewrite HP; [done|by left]|]]; [intros E; apply Hp; rewrite E; done|].
  apply IH; [done|done|intros y Hy Hne; apply HN; [by right|done]|intros y Hy; apply HP; by right|done|done].
Qed.

(** Two lists in two rings that share nothing. *)
Definition apart (h n : Z) (l1 l2 : list Z) : Prop := NoDup ((h :: l1) ++ (n :: l2)).

Lemma last_in (h : Z) l : default h (last l) ∈ h :: l.
Proof. destruct (last l) as [y|] eqn:E; cbn; [right; by apply last_Some_elem_of|by left]. Qed.

Lemma queue_split_ring m h n l1 q l2 : ring m h (l1 ++ q :: l2) -> n ∉ h :: l1 ++ q :: l2 -> is_Some (m !! n) ->
  exists m', ngx_queue_split h q n m = Some m' /\ ring m' h l1 /\ ring m' n (q :: l2) /\ apart h n l1 (q :: l2) /\ dom m' = dom m.
Proof.
  intros [Hnd HL] Hn Hnm. apply linked_app in HL as [H1 H2]. destruct (linked_last _ _ _ _ H1) as [P1 N1]. destruct (linked_last _ _ _ _ H2) as [P2 N2].
  set (a := default h (last l1)) in *. set (e := default q (last l2)) in *. assert (Ha : a ∈ h :: l1) by apply last_in. assert (He : e ∈ q :: l2) by apply last_in.
  assert (Hap : apart h n l1 (q :: l2)).
  { unfold apart. cbn in Hnd |- *. apply NoDup_cons in Hnd as [Hh (Nd1 & Nd2 & Nd3)%NoDup_app]. apply NoDup_cons. split; [rewrite !elem_of_app, !elem_of_cons in *; naive_solver|].
    apply NoDup_app. split; [done|]. split; [intros y Hy; rewrite !elem_of_cons in *; specialize (Nd2 y Hy); rewrite !elem_of_cons in Nd2; intros [->|Hy2]; [apply Hn; right; rewrite elem_of_app; by left|tauto]|].
    apply NoDup_cons. split; [rewrite !elem_of_cons, !elem_of_app, !elem_of_cons in *; naive_solver|done]. }
  assert (Hsep : forall y z, y ∈ h :: l1 -> z ∈ n :: q :: l2 -> y <> z) by (unfold apart in Hap; apply NoDup_app in Hap as (_ & Hd & _); intros y z Hy Hz ->; by apply (Hd z)).
  assert (Hnq : forall z, z ∈ q :: l2 -> z <> n) by (unfold apart in Hap; apply NoDup_app in Hap as (_ & _ & [Hd _]%NoDup_cons); intros z Hz ->; by apply Hd).
  assert (Hdom : forall y, is_Some (get_next y m) -> is_Some (m !! y)) by (intros y [v Hv]; by eapply get_next_dom).
  assert (Hhe : h <> e) by (apply Hsep; [by left|by right]). assert (Hhn : h <> n) by (apply Hsep; by left). assert (Hae : a <> e) by (apply Hsep; [done|by right]). assert (Han : a <> n) by (apply Hsep; [done|by left]).
  assert (Hhq : h <> q) by (apply Hsep; [by left|right; by left]). assert (Hqn : q <> n) by (apply Hnq; by left). assert (Hen : e <> n) by (by apply Hnq).
  unfold ngx_queue_split. rewrite (bind_some _ _ _ P2). destruct (set_prev_spec n e m Hnm) as (m1 & E1 & Q1 & Q1' & S1 & D1). rewrite (bind_some _ _ _ E1), (bind_some _ _ _ Q1).
  destruct (set_next_spec e n m1) as (m2 & E2 & S2 & S2' & Q2 & D2); [apply elem_of_dom; rewrite D1; apply elem_of_dom; by eapply get_next_dom|]. rewrite (bind_some _ _ _ E2).
  destruct (set_next_spec n q m2) as (m3 & E3 & S3 & S3' & Q3 & D3); [apply elem_of_dom; rewrite D2, D1; by apply elem_of_dom|]. rewrite (bind_some _ _ _ E3).
  assert (Pq : get_prev q m3 = Some a) by (by rewrite Q3, Q2, Q1'). rewrite (bind_some _ _ _ Pq).
  destruct (set_prev_spec h a m3) as (m4 & E4 & Q4 & Q4' & S4 & D4); [apply elem_of_dom; rewrite D3, D2, D1; apply elem_of_dom; by eapply get_prev_dom|]. rewrite (bind_some _ _ _ E4), (bind_some _ _ _ Q4).
  destruct (set_next_spec a h m4) as (m5 & E5 & S5 & S5' & Q5 & D5); [apply elem_of_dom; rewrite D4, D3, D2, D1; apply elem_of_dom; by eapply get_next_dom|]. rewrite (bind_some _ _ _ E5).
  destruct (set_prev_spec q n m5) as (m6 & E6 & Q6 & Q6' & S6 & D6); [apply elem_of_dom; rewrite D5, D4, D3, D2, D1; apply elem_of_dom; by eapply get_prev_dom|]. exists m6. split; [done|].
  assert (HN : forall y, y <> e -> y <> n -> y <> a -> get_next y m6 = get_next y m) by (intros y ???; by rewrite S6, S5', S4, S3', S2', S1).
  assert (HP : forall y, y <> n -> y <> h -> y <> q -> get_prev y m6 = get_prev y m) by (intros y ???; by rewrite Q6', Q5, Q4', Q3, Q2, Q1').
  apply NoDup_app in Hap as HA. destruct HA as (Nd1 & _ & Nd2). split_and!; [| |done|congruence].
  - split; [done|]. apply (linked_end m m6 h l1 q h H1 Nd1).
    + intros y Hy Hne. fold a in Hne. apply HN; [apply Hsep; [done|by right]|apply Hsep; [done|by left]|done].
    + intros y Hy. apply HP; [apply Hsep; [by right|by left]| |apply Hsep; [by right|right; by left]]. apply NoDup_cons in Nd1 as [Nh _]. by intros ->.
    + fold a. by rewrite S6.
    + fold a. by rewrite Q6', Q5.
  - split; [done|]. cbn. split; [rewrite S6, S5', S4 by done; done|]. split; [done|]. apply NoDup_cons in Nd2 as [_ Nd2]. apply (linked_end m m6 q l2 h n H2 Nd2).
    + intros y Hy Hne. fold e in Hne. apply HN; [done|by apply Hnq|]. intros ->. by apply (Hsep a a); [|right|].
    + intros y Hy. apply NoDup_cons in Nd2 as [Nq _]. apply HP; [apply Hnq; by right| |by intros ->]. intros ->. apply (Hsep h h); [by left|right; by right|done].
    + fold e. by rewrite S6, S5', S4, S3'.
    + fold e. by rewrite Q6', Q5, Q4', Q3, Q2.
Qed.

Lemma queue_add_ring m h n l1 l2 : ring m h l1 -> ring m n l2 -> apart h n l1 l2 ->
  exists m', ngx_queue_add h n m = Some m' /\ ring m' h (l1 ++ l2) /\ dom m' = dom m.
Proof.
  intros [Nd1 H1] [Nd2 H2] Hap. destruct (linked_last _ _ _ _ H1) as [P1 N1]. destruct (linked_last _ _ _ _ H2) as [P2 N2]. destruct (linked_first _ _ _ _ H2) as [F2 B2].
  set (a := default h (last l1)) in *. set (e := default n (last l2)) in *. set (x := default n (head l2)) in *. assert (Ha : a ∈ h :: l1) by apply last_in. assert (He : e ∈ n :: l2) by apply last_in.
  assert (Hx : x ∈ n :: l2) by (unfold x; destruct l2; cbn; set_solver).
  assert (Hsep : forall y z, y ∈ h :: l1 -> z ∈ n :: l2 -> y <> z) by (unfold apart in Hap; apply NoDup_app in Hap as (_ & Hd & _); intros y z Hy Hz ->; by apply (Hd z)).
  assert (Hh : h ∈ h :: l1) by (by left). assert (Hn : n ∈ n :: l2) by (by left). assert (Hhx := Hsep _ _ Hh Hx). assert (Hhn := Hsep _ _ Hh Hn). assert (Hhe := Hsep _ _ Hh He). assert (Han := Hsep _ _ Ha Hn). assert (Hae := Hsep _ _ Ha He).
  unfold ngx_queue_add. rewrite (bind_some _ _ _ P1), (bind_some _ _ _ F2). destruct (set_next_spec a x m) as (m1 & E1 & S1 & S1' & Q1 & D1); [by eapply get_next_dom|]. rewrite (bind_some _ _ _ E1).
  assert (Fn : get_next n m1 = Some x) by (by rewrite S1'). assert (Ph : get_prev h m1 = Some a) by (by rewrite Q1). rewrite (bind_some _ _ _ Fn), (bind_some _ _ _ Ph).
  destruct (set_prev_spec x a m1) as (m2 & E2 & Q2 & Q2' & S2 & D2); [apply elem_of_dom; rewrite D1; apply elem_of_dom; by eapply get_prev_dom|]. rewrite (bind_some _ _ _ E2).
  set (e' := if decide (l2 = []) then a else e). assert (Pn : get_prev n m2 = Some e').
  { unfold e', x in *. destruct l2 as [|q l2]; cbn [head default] in *; [by rewrite decide_True|]. rewrite decide_False by done. rewrite Q2', Q1 by (intros ->; apply NoDup_cons in Nd2 as [Nd2 _]; apply Nd2; by left). done. }
  rewrite (bind_some _ _ _ Pn). destruct (set_prev_spec h e' m2) as (m3 & E3 & Q3 & Q3' & S3 & D3); [apply elem_of_dom; rewrite D2, D1; apply elem_of_dom; by eapply get_prev_dom|]. rewrite (bind_some _ _ _ E3), (bind_some _ _ _ Q3).
  destruct (set_next_spec e' h m3) as (m4 & E4 & S4 & S4' & Q4 & D4).
  { apply elem_of_dom. rewrite D3, D2, D1. apply elem_of_dom. unfold e'. case_decide; by eapply get_next_dom. }
  exists m4. split; [done|]. split; [|congruence]. assert (HN : forall y, y <> a -> y <> e' -> get_next y m4 = get_next y m) by (intros y ??; by rewrite S4', S3, S2, S1').
  assert (HP : forall y, y <> x -> y <> h -> get_prev y m4 = get_prev y m) by (intros y ??; by rewrite Q4, Q3', Q2', Q1). destruct l2 as [|q l2].
  - rewrite app_nil_r. unfold e' in *. rewrite decide_True in * by done. split; [done|]. apply (linked_end m m4 h l1 h h H1 Nd1).
    + intros y Hy Hne. apply HN; done.
    + intros y Hy. apply HP; [apply Hsep; [by right|done]|]. apply NoDup_cons in Nd1 as [Nd1 _]. by intros ->.
    + done.
    + by rewrite Q4.
  - unfold e', x in *. rewrite decide_False in * by done. cbn [head default] in *. change (id q) with q in *. destruct H2 as (L1 & L2 & L3). apply NoDup_cons in Nd2 as [Nn Nd2].
    assert (Ee : e = default q (last l2)) by (unfold e; rewrite last_cons; by destruct (last l2)). split.
    { unfold apart in Hap. cbn in Hap |- *. apply NoDup_cons in Hap as [Hh0 (A1 & A2 & A3)%NoDup_app]. apply NoDup_cons. split; [rewrite elem_of_app, !elem_of_cons in *; naive_solver|]. apply NoDup_app. split; [done|].
      split; [intros y Hy; specialize (A2 y Hy); rewrite !elem_of_cons in *; tauto|done]. }
    apply linked_app. split.
    + apply (linked_end m m4 h l1 h q H1 Nd1).
      * intros y Hy Hne. apply HN; [done|]. apply Hsep; [done|]. done.
      * intros y Hy. apply HP; [apply Hsep; [by right|done]|]. apply NoDup_cons in Nd1 as [Nd1 _]. by intros ->.
      * fold a. rewrite S4', S3, S2 by done. done.
      * fold a. rewrite Q4, Q3' by done. done.
    + apply (linked_end m m4 q l2 n h L3 Nd2); rewrite <- ?Ee.
      * intros y Hy Hne. apply HN; [|done]. intros ->. by apply (Hsep a a); [|right|].
      * intros y Hy. apply NoDup_cons in Nd2 as [Nq _]. apply HP; [by intros ->|]. intros ->. apply (Hsep h h); [done|right; by right|done].
      * done.
      * by rewrite Q4.
Qed.

(** A queue that is split at an element and joined again is as before. *)
Theorem queue_split_add m h n l1 q l2 : ring m h (l1 ++ q :: l2) -> n ∉ h :: l1 ++ q :: l2 -> is_Some (m !! n) ->
  exists m1 m2, ngx_queue_split h q n m = Some m1 /\ ring m1 h l1 /\ ring m1 n (q :: l2) /\ ngx_queue_add h n m1 = Some m2 /\ ring m2 h (l1 ++ q :: l2).
Proof.
  intros HR Hn Hm. destruct (queue_split_ring m h n l1 q l2 HR Hn Hm) as (m1 & E1 & R1 & R2 & Hap & _). destruct (queue_add_ring m1 h n l1 (q :: l2) R1 R2 Hap) as (m2 & E2 & R3 & _). by exists m1, m2.
Qed.
