(* ===== verification/Keepalive.v ===== *)
(** * Idle connections to servers

    [src/http/modules/ngx_http_upstream_keepalive_module.c]: connections that
    requests no longer need are kept open in the queue [cache] of a fixed set
    of items; the other items are in the queue [free].  The module wraps a
    balancer: its choice comes first, then a connection to the chosen address
    is looked for.  Connections and items are named by their addresses; [None]
    is a pointer to nothing.

    The theorem: under any sequence of requests, releases and events on idle
    connections, the cache is a list of the latest connections, never longer
    than configured; a connection is either used by one request or idle, and
    no closed connection is ever used. *)

From stdpp Require Import gmap sorting.
From S2P Require Import Prelude NgxString StatusLine CheckTypes CheckProto CheckCore NgxQueue.

(** ** The code *)

(** [ngx_memn2cmp] ([src/core/ngx_string.c]); the texts have [n1] and [n2]
    bytes, so [s] and [t] are their lists. *)
Fixpoint ngx_memcmp (s t : bytes) : Z :=
  match s, t with
  | c :: s', d :: t' => if c =? d then ngx_memcmp s' t' else c - d
  | _, _ => 0
  end.

Definition ngx_memn2cmp (s t : bytes) : Z :=
  let n1 := length s in
  let n2 := length t in
  let '(n, z) := if (n1 <=? n2)%nat then (n1, -1) else (n2, 1) in
  let m := ngx_memcmp (take n s) (take n t) in
  if negb (m =? 0) || (n1 =? n2)%nat then m else z.

Inductive khandler : Set := HRequest | HDummy | HClose | HShutdown.

(** What the module uses of an event of a connection. *)
Record kev := mk_kev {
  ke_timer : ngx_event_t;
  ke_handler : khandler;
  ke_ready : bool;
  ke_delayed : bool;
  ke_eof : bool;
  ke_error : bool;
  ke_timedout : bool
}.

#[export] Instance eta_kev : Eta kev := fun r =>
  mk_kev (ke_timer r) (ke_handler r) (ke_ready r) (ke_delayed r) (ke_eof r) (ke_error r) (ke_timedout r).

Record kconn := mk_kconn {
  kc_idle : bool;
  kc_sent : Z;
  kc_requests : Z;
  kc_close : bool;
  kc_ssl : bool;
  kc_data : Z;
  kc_read : kev;
  kc_write : kev
}.

#[export] Instance eta_kconn : Eta kconn := fun r =>
  mk_kconn (kc_idle r) (kc_sent r) (kc_requests r) (kc_close r) (kc_ssl r) (kc_data r) (kc_read r) (kc_write r).

(** [ngx_http_upstream_keepalive_cache_t]; its link is in the queue memory. *)
Record kitem := mk_kitem { ki_connection : Z; ki_sockaddr : bytes }.

#[export] Instance eta_kitem : Eta kitem := fun r => mk_kitem (ki_connection r) (ki_sockaddr r).

(** [ngx_http_upstream_keepalive_srv_conf_t]; [k_cache] and [k_free] are the
    addresses of the heads. *)
Record kconf := mk_kconf { k_max_cached : Z; k_requests : Z; k_timeout : Z; k_cache : Z; k_free : Z }.

#[export] Instance eta_kconf : Eta kconf := fun r =>
  mk_kconf (k_max_cached r) (k_requests r) (k_timeout r) (k_cache r) (k_free r).

(** The memory of a worker: links, items and open connections. *)
Record kstate := mk_ks { ks_mem : qmem; ks_items : gmap Z kitem; ks_conns : gmap Z kconn }.

#[export] Instance eta_kstate : Eta kstate := fun r => mk_ks (ks_mem r) (ks_items r) (ks_conns r).

(** The part of an [ngx_peer_connection_t]. *)
Record kpc := mk_kpc { pc_connection : option Z; pc_cached : bool; pc_sockaddr : bytes }.

#[export] Instance eta_kpc : Eta kpc := fun r => mk_kpc (pc_connection r) (pc_cached r) (pc_sockaddr r).

Definition del_timer_if_set (e : kev) : kev :=
  if timer_set (ke_timer e) then e <| ke_timer := ngx_event_del_timer (ke_timer e) |> else e.

Module Keepalive.

(** The directive [keepalive]. *)
Definition ngx_http_upstream_keepalive (value : bytes) (k : kconf) : option kconf :=
  if negb (k_max_cached k =? 0) then None
  else
    let n := ngx_atoi value (blen value) in
    if (n =? rc_val NGX_ERROR) || (n =? 0) then None else Some (k <| k_max_cached := n |>).

(** [ngx_http_upstream_init_keepalive] after the balancer's own start, with the
    addresses of the items. *)
Fixpoint init_items (free : Z) (items : list Z) (m : qmem) : option qmem :=
  match items with [] => Some m | i :: l => m ← ngx_queue_insert_head free i m; init_items free l m end.

Definition ngx_http_upstream_init_keepalive (k : kconf) (items : list Z) (st : kstate) : option (kconf * kstate) :=
  let k := k <| k_timeout := if k_timeout k =? NGX_CONF_UNSET_UINT then 60000 else k_timeout k |> in
  let k := k <| k_requests := if k_requests k =? NGX_CONF_UNSET_UINT then 100 else k_requests k |> in
  m ← ngx_queue_init (k_cache k) (ks_mem st);
  m ← ngx_queue_init (k_free k) m;
  m ← init_items (k_free k) items m;
  Some (k, st <| ks_mem := m |> <| ks_items := list_to_map ((fun i => (i, mk_kitem 0 [])) <$> items) ∪ ks_items st |>).

(** The loop over the cache of [ngx_http_upstream_get_keepalive_peer]. *)
Fixpoint find_cached (fuel : nat) (cache q : Z) (sockaddr : bytes) (st : kstate) : option (option (Z * Z)) :=
  match fuel with
  | O => None
  | S fuel =>
    if q =? cache then Some None
    else
      item ← ks_items st !! q;
      if ngx_memn2cmp (ki_sockaddr item) sockaddr =? 0 then Some (Some (q, ki_connection item))
      else q ← get_next q (ks_mem st); find_cached fuel cache q sockaddr st
  end.

(** [rc] and [pc] are what the balancer answered. *)
Definition ngx_http_upstream_get_keepalive_peer (k : kconf) (rc : ngx_rc) (pc : kpc) (st : kstate) : option (ngx_rc * kpc * kstate) :=
  if negb (bool_decide (rc = NGX_OK)) then Some (rc, pc, st)
  else
    q ← ngx_queue_head (k_cache k) (ks_mem st);
    found ← find_cached (size (ks_mem st)) (k_cache k) q (pc_sockaddr pc) st;
    match found with
    | None => Some (NGX_OK, pc, st)
    | Some (q, ci) =>
      m ← ngx_queue_remove q (ks_mem st);
      m ← ngx_queue_insert_head (k_free k) q m;
      c ← ks_conns st !! ci;
      let c := c <| kc_idle := false |> <| kc_sent := 0 |> <| kc_read := del_timer_if_set (kc_read c) |> in
      Some (NGX_DONE, pc <| pc_connection := Some ci |> <| pc_cached := true |>,
            st <| ks_mem := m |> <| ks_conns := <[ci := c]> (ks_conns st) |>)
    end.

(** [again] is the answer of [ngx_ssl_shutdown]. *)
Definition ngx_http_upstream_keepalive_close (again : bool) (ci : Z) (st : kstate) : option kstate :=
  c ← ks_conns st !! ci;
  if kc_ssl c && again then
    Some (st <| ks_conns := <[ci := c <| kc_read := (kc_read c) <| ke_handler := HShutdown |> |>
                                      <| kc_write := (kc_write c) <| ke_handler := HShutdown |> |>]> (ks_conns st) |>)
  else Some (st <| ks_conns := delete ci (ks_conns st) |>).

(** What the operating system answers to the close handler. *)
Record kio := mk_kio { kio_peek : peek_res; kio_event : bool; kio_again : bool }.

Definition ngx_http_upstream_keepalive_close_handler (k : kconf) (io : kio) (ci : Z) (st : kstate) : option kstate :=
  c ← ks_conns st !! ci;
  let eagain := match kio_peek io with PEagain => true | _ => false end in
  if negb (kc_close c || ke_timedout (kc_read c)) && eagain && kio_event io then
    Some (st <| ks_conns := <[ci := c <| kc_read := (kc_read c) <| ke_ready := false |> |>]> (ks_conns st) |>)
  else
    let c := if negb (kc_close c || ke_timedout (kc_read c)) && eagain
             then c <| kc_read := (kc_read c) <| ke_ready := false |> |> else c in
    let item := kc_data c in
    st ← ngx_http_upstream_keepalive_close (kio_again io) ci (st <| ks_conns := <[ci := c]> (ks_conns st) |>);
    m ← ngx_queue_remove item (ks_mem st);
    m ← ngx_queue_insert_head (k_free k) item m;
    Some (st <| ks_mem := m |>).

(** What the release of a connection depends on besides the connection. *)
Record kfree := mk_kfree {
  kf_failed : bool;        (** [state & NGX_PEER_FAILED] *)
  kf_keepalive : bool;     (** [u->keepalive] *)
  kf_body_sent : bool;     (** [u->request_body_sent] *)
  kf_exiting : bool;       (** [ngx_terminate || ngx_exiting] *)
  kf_event : bool;         (** [ngx_handle_read_event] succeeds *)
  kf_again : bool;         (** [ngx_ssl_shutdown] of the evicted connection *)
  kf_close : kio           (** for the close handler *)
}.

(** The item for the connection: a free one, or the last of the cache, whose
    connection is closed. *)
Definition saving_item (k : kconf) (again : bool) (st : kstate) : option (Z * kstate) :=
  empty ← ngx_queue_empty (k_free k) (ks_mem st);
  if empty : bool then
    q ← ngx_queue_last (k_cache k) (ks_mem st);
    m ← ngx_queue_remove q (ks_mem st);
    item ← ks_items st !! q;
    st ← ngx_http_upstream_keepalive_close again (ki_connection item) (st <| ks_mem := m |>);
    Some (q, st)
  else
    q ← ngx_queue_head (k_free k) (ks_mem st);
    m ← ngx_queue_remove q (ks_mem st);
    Some (q, st <| ks_mem := m |>).

(** The connection in item [q]. *)
Definition saved (k : kconf) (now q : Z) (c : kconn) : kconn :=
  let r := (kc_read c) <| ke_delayed := false |>
             <| ke_timer := ngx_event_add_timer now (ke_timer (kc_read c)) (k_timeout k) |> <| ke_handler := HClose |> in
  let w := (del_timer_if_set (kc_write c)) <| ke_handler := HDummy |> in
  c <| kc_read := r |> <| kc_write := w |> <| kc_data := q |> <| kc_idle := true |>.

(** The part after [invalid:] calls the balancer's [free] with the result. *)
Definition ngx_http_upstream_free_keepalive_peer (k : kconf) (now : Z) (f : kfree) (pc : kpc) (st : kstate) : option (kpc * kstate) :=
  match pc_connection pc with
  | None => Some (pc, st)
  | Some ci =>
    c ← ks_conns st !! ci;
    if kf_failed f || ke_eof (kc_read c) || ke_error (kc_read c) || ke_timedout (kc_read c)
       || ke_error (kc_write c) || ke_timedout (kc_write c) then Some (pc, st)
    else if k_requests k <=? kc_requests c then Some (pc, st)
    else if negb (kf_keepalive f) then Some (pc, st)
    else if negb (kf_body_sent f) then Some (pc, st)
    else if kf_exiting f then Some (pc, st)
    else if negb (kf_event f) then Some (pc, st)
    else
      '(q, st) ← saving_item k (kf_again f) st;
      m ← ngx_queue_insert_head (k_cache k) q (ks_mem st);
      c ← ks_conns st !! ci;
      let c := saved k now q c in
      let st := mk_ks m (<[q := mk_kitem ci (pc_sockaddr pc)]> (ks_items st)) (<[ci := c]> (ks_conns st)) in
      st ← (if ke_ready (kc_read c) then ngx_http_upstream_keepalive_close_handler k (kf_close f) ci st else Some st);
      Some (pc <| pc_connection := None |>, st)
  end.

End Keepalive.

(** ** The worker

    Requests get connections and release them; idle connections have events. *)

Definition new_event : kev := mk_kev (mk_event false 0) HRequest false false false false false.
Definition new_conn (ssl : bool) : kconn := mk_kconn false 0 0 false ssl 0 new_event new_event.

(** [ngx_http_upstream_connect] takes a connection for a request; [data] is the
    request from then on, and no item. *)
Definition for_request (c : kconn) : kconn :=
  c <| kc_requests := kc_requests c + 1 |> <| kc_read := (kc_read c) <| ke_handler := HRequest |> |>
    <| kc_write := (kc_write c) <| ke_handler := HRequest |> |>.

(** What the network does to a connection. *)
Record kflags := mk_kflags {
  kg_ready : bool; kg_eof : bool; kg_error : bool; kg_timedout : bool; kg_werror : bool; kg_wtimedout : bool; kg_close : bool
}.

Definition with_flags (g : kflags) (c : kconn) : kconn :=
  c <| kc_read := (kc_read c) <| ke_ready := kg_ready g |> <| ke_eof := kg_eof g |> <| ke_error := kg_error g |>
                    <| ke_timedout := kg_timedout g |> |>
    <| kc_write := (kc_write c) <| ke_error := kg_werror g |> <| ke_timedout := kg_wtimedout g |> |>
    <| kc_close := kg_close g |>.

Inductive kop : Type :=
| KGet (rc : ngx_rc) (addr : bytes) (new : Z) (ssl : bool)  (** a request; [new] is the connection opened if none is idle *)
| KFree (ci : Z) (now : Z) (f : Keepalive.kfree)
| KEvent (ci : Z) (io : Keepalive.kio)                      (** a read event, or the timer *)
| KFlags (ci : Z) (g : kflags)
| KDone (ci : Z).                                           (** an SSL shutdown has finished *)

(** The open connections requests use, and the addresses they go to. *)
Abbreviation users := (gmap Z bytes).

Definition kstep (k : kconf) (op : kop) (s : kstate * users) : option (kstate * users) :=
  let '(st, U) := s in
  match op with
  | KGet rc addr new ssl =>
    '(rc, pc, st) ← Keepalive.ngx_http_upstream_get_keepalive_peer k rc (mk_kpc None false addr) st;
    match rc, pc_connection pc with
    | NGX_DONE, Some ci =>
      c ← ks_conns st !! ci;
      Some (st <| ks_conns := <[ci := for_request c]> (ks_conns st) |>, <[ci := addr]> U)
    | NGX_OK, _ =>
      match ks_conns st !! new with
      | Some _ => Some (st, U)
      | None => Some (st <| ks_conns := <[new := for_request (new_conn ssl)]> (ks_conns st) |>, <[new := addr]> U)
      end
    | _, _ => Some (st, U)
    end
  | KFree ci now f =>
    match U !! ci with
    | None => Some (st, U)
    | Some addr =>
      '(pc, st) ← Keepalive.ngx_http_upstream_free_keepalive_peer k now f (mk_kpc (Some ci) false addr) st;
      match pc_connection pc with
      | None => Some (st, delete ci U)
      | Some ci' => Some (st <| ks_conns := delete ci' (ks_conns st) |>, delete ci U)   (** the request closes it *)
      end
    end
  | KEvent ci io =>
    match ks_conns st !! ci with
    | None => Some (st, U)
    | Some c =>
      match ke_handler (kc_read c) with
      | HClose => st ← Keepalive.ngx_http_upstream_keepalive_close_handler k io ci st; Some (st, U)
      | _ => Some (st, U)
      end
    end
  | KFlags ci g =>
    match ks_conns st !! ci with
    | None => Some (st, U)
    | Some c => Some (st <| ks_conns := <[ci := with_flags g c]> (ks_conns st) |>, U)
    end
  | KDone ci =>
    match ks_conns st !! ci with
    | None => Some (st, U)
    | Some c =>
      match ke_handler (kc_read c) with
      | HShutdown => Some (st <| ks_conns := delete ci (ks_conns st) |>, U)
      | _ => Some (st, U)
      end
    end
  end.

Fixpoint kruns (k : kconf) (ops : list kop) (s : kstate * users) : option (kstate * users) :=
  match ops with [] => Some s | op :: ops' => s ← kstep k op s; kruns k ops' s end.

(** ** Invariant *)

Record kinv (k : kconf) (st : kstate) (U : users) (lc lf : list Z) : Prop := {
  ki_cache : ring (ks_mem st) (k_cache k) lc;
  ki_free : ring (ks_mem st) (k_free k) lf;
  ki_nodup : NoDup (k_cache k :: k_free k :: lc ++ lf);
  ki_len : length (lc ++ lf) = Z.to_nat (k_max_cached k);
  ki_dom : forall i, i ∈ lc ++ lf -> is_Some (ks_mem st !! i);
  ki_idle : forall i, i ∈ lc -> exists it c, ks_items st !! i = Some it /\ ks_conns st !! ki_connection it = Some c
    /\ kc_idle c = true /\ ke_handler (kc_read c) = HClose /\ kc_data c = i;
  ki_close : forall ci c, ks_conns st !! ci = Some c -> ke_handler (kc_read c) = HClose ->
    exists it, kc_data c ∈ lc /\ ks_items st !! kc_data c = Some it /\ ki_connection it = ci;
  ki_users : forall ci addr, U !! ci = Some addr -> exists c, ks_conns st !! ci = Some c /\ ke_handler (kc_read c) = HRequest
}.

(** The idle connections with their addresses, the latest first. *)
Definition entry (st : kstate) (i : Z) : bytes * Z :=
  match ks_items st !! i with Some it => (ki_sockaddr it, ki_connection it) | None => ([], 0) end.

(** An idle connection is not used. *)
Lemma idle_unused k st U lc lf i it : kinv k st U lc lf -> i ∈ lc -> ks_items st !! i = Some it -> U !! ki_connection it = None.
Proof.
  intros HI Hi Hit. destruct (ki_idle _ _ _ _ _ HI i Hi) as (it' & c & E & Hc & _ & Hh & _). rewrite Hit in E. injection E as <-.
  destruct (U !! ki_connection it) as [a|] eqn:EU; [|done]. destruct (ki_users _ _ _ _ _ HI _ _ EU) as (c' & Hc' & Hh'). congruence.
Qed.

(** Different items hold different connections. *)
Lemma idle_inj k st U lc lf i j it jt :
  kinv k st U lc lf -> i ∈ lc -> j ∈ lc -> ks_items st !! i = Some it -> ks_items st !! j = Some jt ->
  ki_connection it = ki_connection jt -> i = j.
Proof.
  intros HI Hi Hj Hit Hjt E. destruct (ki_idle _ _ _ _ _ HI i Hi) as (it' & c & E1 & Hc & _ & _ & Hd).
  destruct (ki_idle _ _ _ _ _ HI j Hj) as (jt' & c' & E2 & Hc' & _ & _ & Hd'). congruence.
Qed.

Lemma Permutation_NoDup' (l l' : list Z) : l' ≡ₚ l -> NoDup l -> NoDup l'.
Proof. by intros ->. Qed.

(** Moving an item from one queue to the other. *)
Lemma move_item k st U l1 i l2 lf m0 :
  kinv k st U (l1 ++ i :: l2) lf -> ks_mem st = m0 ->
  exists m1 m2, ngx_queue_remove i m0 = Some m1 /\ ngx_queue_insert_head (k_free k) i m1 = Some m2
    /\ ring m2 (k_cache k) (l1 ++ l2) /\ ring m2 (k_free k) (i :: lf) /\ dom m2 = dom m0
    /\ NoDup (k_cache k :: k_free k :: (l1 ++ l2) ++ i :: lf).
Proof.
  intros HI <-. assert (Hnd := ki_nodup _ _ _ _ _ HI).
  destruct (remove_ring (k_cache k) (ks_mem st) l1 i l2 (ki_cache _ _ _ _ _ HI)) as (m1 & E1 & R1 & D1 & F1).
  assert (Hnd1 : NoDup ((k_cache k :: l1 ++ i :: l2) ++ k_free k :: lf))
    by (eapply Permutation_NoDup'; [|exact Hnd]; solve_Permutation).
  assert (Hnd2 : NoDup ((i :: k_free k :: lf) ++ k_cache k :: l1 ++ l2))
    by (eapply Permutation_NoDup'; [|exact Hnd]; solve_Permutation).
  apply NoDup_app in Hnd1 as (_ & Hdisj & _). apply NoDup_app in Hnd2 as (_ & Hdisj2 & _).
  assert (R1' : ring m1 (k_free k) lf) by (apply F1; [by eapply ki_free|done]).
  destruct (insert_head_ring (k_free k) m1 lf i R1') as (m2 & E2 & R2 & D2 & F2).
  { apply Hdisj. right. apply elem_of_app. right. by left. }
  { apply elem_of_dom. rewrite D1. apply elem_of_dom. apply (ki_dom _ _ _ _ _ HI). rewrite !elem_of_app, elem_of_cons. tauto. }
  exists m1, m2. split_and!; try done; [by apply F2|congruence|].
  eapply Permutation_NoDup'; [|exact Hnd]; solve_Permutation.
Qed.

(** A connection is closed, or its SSL shutdown goes on. *)
Definition gone (ci : Z) (cs cs' : gmap Z kconn) : Prop :=
  (forall cj, cj <> ci -> cs' !! cj = cs !! cj) /\ (forall c, cs' !! ci = Some c -> ke_handler (kc_read c) = HShutdown).

Lemma close_spec again ci c st :
  ks_conns st !! ci = Some c ->
  exists st', Keepalive.ngx_http_upstream_keepalive_close again ci st = Some st' /\ ks_mem st' = ks_mem st
    /\ ks_items st' = ks_items st /\ gone ci (ks_conns st) (ks_conns st').
Proof.
  intros Hc. unfold Keepalive.ngx_http_upstream_keepalive_close. rewrite (bind_some _ _ _ Hc). destruct (kc_ssl c && again).
  - eexists. split; [done|]. cbn. split_and!; try done. split; [intros cj Hj; by rewrite lookup_insert_ne|].
    intros c'. rewrite lookup_insert_eq. by intros [= <-].
  - eexists. split; [done|]. cbn. split_and!; try done. split; [intros cj Hj; by rewrite lookup_delete_ne|].
    intros c'. by rewrite lookup_delete_eq.
Qed.

(** Changes of connections that keep what the invariant says. *)
Definition same_role (c c' : kconn) : Prop :=
  kc_idle c' = kc_idle c /\ ke_handler (kc_read c') = ke_handler (kc_read c) /\ kc_data c' = kc_data c.

Lemma kinv_same_role k st U lc lf ci c c' :
  kinv k st U lc lf -> ks_conns st !! ci = Some c -> same_role c c' ->
  kinv k (st <| ks_conns := <[ci := c']> (ks_conns st) |>) U lc lf.
Proof.
  intros HI Hc (E1 & E2 & E3). destruct HI as [H1 H2 H3 H4 H5 H6 H7 H8]. split; cbn; try done.
  - intros i Hi. destruct (H6 i Hi) as (it & c0 & Hit & Hc0 & Hr). exists it. destruct (decide (ki_connection it = ci)) as [Ei|Hne].
    + rewrite Ei in *. rewrite lookup_insert_eq. exists c'. rewrite Hc in Hc0. injection Hc0 as <-. rewrite E1, E2, E3. done.
    + rewrite lookup_insert_ne by done. by exists c0.
  - intros cj c0. destruct (decide (cj = ci)) as [->|Hne].
    + rewrite lookup_insert_eq. intros [= <-]. rewrite E2, E3. by apply H7.
    + rewrite lookup_insert_ne by done. apply H7.
  - intros cj addr HU. destruct (H8 cj addr HU) as (c0 & Hc0 & Hh). destruct (decide (cj = ci)) as [->|Hne].
    + rewrite lookup_insert_eq. exists c'. split; [done|]. congruence.
    + rewrite lookup_insert_ne by done. by exists c0.
Qed.

(** An idle connection leaves the cache: it is gone, or a request has it. *)
Lemma kinv_leave k st U U' l1 i l2 lf it m2 cs' :
  kinv k st U (l1 ++ i :: l2) lf -> ks_items st !! i = Some it ->
  ring m2 (k_cache k) (l1 ++ l2) -> ring m2 (k_free k) (i :: lf) -> dom m2 = dom (ks_mem st) ->
  NoDup (k_cache k :: k_free k :: (l1 ++ l2) ++ i :: lf) ->
  (forall cj, cj <> ki_connection it -> cs' !! cj = ks_conns st !! cj) ->
  (forall c, cs' !! ki_connection it = Some c -> ke_handler (kc_read c) <> HClose) ->
  (forall ci addr, U' !! ci = Some addr -> (ci <> ki_connection it /\ U !! ci = Some addr)
     \/ (ci = ki_connection it /\ exists c, cs' !! ci = Some c /\ ke_handler (kc_read c) = HRequest)) ->
  kinv k (mk_ks m2 (ks_items st) cs') U' (l1 ++ l2) (i :: lf).
Proof.
  intros HI Hit R1 R2 D Hnd Hsame Hgone HU. assert (Hi : i ∈ l1 ++ i :: l2) by (rewrite elem_of_app, elem_of_cons; tauto).
  split; cbn; try done.
  - rewrite <- (ki_len _ _ _ _ _ HI), !length_app. cbn. lia.
  - intros j Hj. apply elem_of_dom. rewrite D. apply elem_of_dom. apply (ki_dom _ _ _ _ _ HI).
    rewrite !elem_of_app, !elem_of_cons in *. tauto.
  - intros j Hj. assert (Hj' : j ∈ l1 ++ i :: l2) by (rewrite elem_of_app in Hj; rewrite elem_of_app, elem_of_cons; tauto).
    destruct (ki_idle _ _ _ _ _ HI j Hj') as (jt & c & Hjt & Hc & Hr). exists jt, c. split; [done|]. split; [|done].
    rewrite Hsame; [done|]. intros E. assert (j = i) as -> by (by eapply idle_inj).
    apply NoDup_cons in Hnd as [_ [_ (_ & Hd & _)%NoDup_app]%NoDup_cons]. apply (Hd i Hj). by left.
  - intros ci c Hc Hh. destruct (decide (ci = ki_connection it)) as [->|Hne]; [by destruct (Hgone c Hc)|].
    rewrite Hsame in Hc by done. destruct (ki_close _ _ _ _ _ HI ci c Hc Hh) as (jt & Hj & Hjt & Ej). exists jt. split; [|done].
    rewrite elem_of_app, elem_of_cons in Hj. rewrite elem_of_app. destruct Hj as [?|[Ej2|?]]; [tauto| |tauto]. congruence.
  - intros ci addr HUc. destruct (HU ci addr HUc) as [[Hne HU']|[-> Hc]]; [|done]. rewrite Hsame by done. by apply (ki_users _ _ _ _ _ HI ci addr).
Qed.

Lemma close_handler_inv k io ci c st U lc lf :
  kinv k st U lc lf -> ks_conns st !! ci = Some c -> ke_handler (kc_read c) = HClose ->
  exists st', Keepalive.ngx_http_upstream_keepalive_close_handler k io ci st = Some st' /\ ks_items st' = ks_items st
    /\ (kinv k st' U lc lf \/ exists l1 l2, lc = l1 ++ kc_data c :: l2 /\ kinv k st' U (l1 ++ l2) (kc_data c :: lf)).
Proof.
  intros HI Hc Hh. unfold Keepalive.ngx_http_upstream_keepalive_close_handler. rewrite (bind_some _ _ _ Hc).
  set (ea := match Keepalive.kio_peek io with PEagain => true | _ => false end). destruct (negb _ && ea && _).
  { eexists. split; [done|]. split; [done|]. left. by eapply kinv_same_role. }
  set (c' := if negb _ && ea then _ else c). assert (Hr : same_role c c') by (unfold c'; by destruct (negb _ && ea)).
  assert (HI' := kinv_same_role _ _ _ _ _ _ _ _ HI Hc Hr). destruct Hr as (_ & Eh & Ed). rewrite Ed.
  destruct (ki_close _ _ _ _ _ HI ci c Hc Hh) as (it & Hi & Hit & Eit). apply list_elem_of_split in Hi as (l1 & l2 & ->).
  set (st1 := st <| ks_conns := <[ci := c']> (ks_conns st) |>) in *.
  assert (Hc1 : ks_conns st1 !! ci = Some c') by (cbn; by rewrite lookup_insert_eq).
  destruct (close_spec (Keepalive.kio_again io) ci c' st1 Hc1) as (st2 & E2 & Em & Eitems & Hsame & Hgone).
  rewrite (bind_some _ _ _ E2), Em. destruct (move_item k st1 U l1 (kc_data c) l2 lf _ HI' eq_refl) as (m1 & m2 & E3 & E4 & R1 & R2 & D & Hnd).
  rewrite (bind_some _ _ _ E3), (bind_some _ _ _ E4). eexists. split; [done|]. split; [exact Eitems|]. right. exists l1, l2. split; [done|].
  assert (HK := kinv_leave k st1 U U l1 (kc_data c) l2 lf it m2 (ks_conns st2) HI' Hit R1 R2 D Hnd). rewrite Eit in HK.
  replace (st2 <| ks_mem := m2 |>) with (mk_ks m2 (ks_items st1) (ks_conns st2)) by (cbn; by rewrite Eitems). apply HK.
  - done.
  - intros c0 Hc0. rewrite (Hgone c0 Hc0). done.
  - intros cj addr HU. left. split; [|done]. intros ->. destruct (ki_users _ _ _ _ _ HI _ _ HU) as (c0 & Hc0 & Hh0). congruence.
Qed.

(** ** Looking for a connection *)

Lemma memcmp_zero s t : length s = length t -> ngx_memcmp s t = 0 <-> s = t.
Proof.
  revert t; induction s as [|c s IH]; intros [|d t] Hl; cbn in *; try lia; [done|]. injection Hl as Hl.
  destruct (Z.eqb_spec c d) as [->|Hne]; [rewrite IH by done; split; [by intros ->|by intros [= ->]]|].
  split; [lia|]. intros [= -> _]. done.
Qed.

Lemma memn2cmp_zero s t : (ngx_memn2cmp s t =? 0) = bool_decide (s = t).
Proof.
  unfold ngx_memn2cmp. destruct (decide (length s = length t)) as [Hl|Hl].
  - rewrite (proj2 (Nat.leb_le _ _)) by lia. rewrite Hl, Nat.eqb_refl, orb_true_r. rewrite <- Hl at 1. rewrite !take_ge by lia.
    symmetry. destruct (Z.eqb_spec (ngx_memcmp s t) 0) as [E|E];
      [apply bool_decide_eq_true_2|apply bool_decide_eq_false_2]; by rewrite memcmp_zero in E.
  - rewrite bool_decide_eq_false_2 by congruence. destruct (Nat.leb_spec (length s) (length t));
      rewrite (proj2 (Nat.eqb_neq _ _) Hl), orb_false_r; destruct (ngx_memcmp _ _ =? 0) eqn:E; cbn; [done|by rewrite E|done|by rewrite E].
Qed.

Lemma find_cached_spec fuel cache p l addr st :
  linked (ks_mem st) p l cache -> cache ∉ l -> (forall i, i ∈ l -> is_Some (ks_items st !! i)) -> (length l < fuel)%nat ->
  Keepalive.find_cached fuel cache (default cache (head l)) addr st
  = Some ((fun x => (x.2, (entry st x.2).2)) <$> list_find (fun i => (entry st i).1 = addr) l).
Proof.
  revert p fuel; induction l as [|i l IH]; intros p fuel HL Hc Hit Hf; (destruct fuel as [|fuel]; [lia|]); cbn [Keepalive.find_cached].
  - cbn [head default]. by rewrite Z.eqb_refl.
  - cbn [head default]. change (id i) with i. rewrite not_elem_of_cons in Hc. destruct Hc as [Hic Hc].
    rewrite (proj2 (Z.eqb_neq i cache)) by done. destruct (Hit i) as [it Ei]; [by left|]. rewrite (bind_some _ _ _ Ei), memn2cmp_zero.
    assert (Ent : entry st i = (ki_sockaddr it, ki_connection it)) by (unfold entry; by rewrite Ei).
    destruct (decide (ki_sockaddr it = addr)) as [Ea|Ea].
    + rewrite bool_decide_eq_true_2 by done. cbn [list_find]. rewrite decide_True by (by rewrite Ent). cbn. by rewrite Ent.
    + rewrite bool_decide_eq_false_2 by done. cbn in HL. destruct HL as (_ & _ & HL). destruct (linked_first _ _ _ _ HL) as [Hn _].
      rewrite (bind_some _ _ _ Hn). rewrite (IH i fuel HL Hc); [|intros j Hj; apply Hit; by right|cbn in Hf; lia].
      f_equal. cbn [list_find]. rewrite decide_False by (by rewrite Ent). by destruct (list_find _ l) as [[n j]|].
Qed.

Lemma ring_not_in m h l : ring m h l -> h ∉ l.
Proof. intros [Hnd _]. by apply NoDup_cons in Hnd as [? _]. Qed.

(** ** What each operation does to the list of idle connections *)

Definition kok (k : kconf) (s : kstate * users) (A : list (bytes * Z)) : Prop :=
  exists lc lf, kinv k s.1 s.2 lc lf /\ A = entry s.1 <$> lc.

(** The connection may be kept. *)
Definition reusable (k : kconf) (f : Keepalive.kfree) (c : kconn) : bool :=
  negb (Keepalive.kf_failed f || ke_eof (kc_read c) || ke_error (kc_read c) || ke_timedout (kc_read c)
        || ke_error (kc_write c) || ke_timedout (kc_write c))
  && (kc_requests c <? k_requests k) && Keepalive.kf_keepalive f && Keepalive.kf_body_sent f
  && negb (Keepalive.kf_exiting f) && Keepalive.kf_event f.

Definition kspec (k : kconf) (op : kop) (s : kstate * users) (A : list (bytes * Z)) (U' : users) (A' : list (bytes * Z)) : Prop :=
  let '(st, U) := s in
  match op with
  | KGet NGX_OK addr new _ =>
    match list_find (fun x => x.1 = addr) A with
    | Some (n, (_, ci)) => U !! ci = None /\ U' = <[ci := addr]> U /\ A' = delete n A
    | None => A' = A /\ (U' = U \/ U' = <[new := addr]> U)
    end
  | KGet _ _ _ _ | KFlags _ _ | KDone _ => U' = U /\ A' = A
  | KFree ci _ f =>
    match U !! ci, ks_conns st !! ci with
    | Some addr, Some c => U' = delete ci U /\
      if reusable k f c
      then A' = take (Z.to_nat (k_max_cached k)) ((addr, ci) :: A)
           \/ ke_ready (kc_read c) = true /\ A' = take (Z.to_nat (k_max_cached k) - 1) A
      else A' = A
    | _, _ => U' = U /\ A' = A
    end
  | KEvent ci _ => U' = U /\ (A' = A \/ exists n addr, A !! n = Some (addr, ci) /\ A' = delete n A)
  end.

Lemma list_find_fmap {X Y} (f : X -> Y) (P : Y -> Prop) `{!forall y, Decision (P y)} (l : list X) :
  list_find P (f <$> l) = (fun x => (x.1, f x.2)) <$> list_find (fun x => P (f x)) l.
Proof.
  induction l as [|x l IH]; cbn; [done|]. destruct (decide (P (f x))); [done|]. rewrite IH. by destruct (list_find _ l) as [[]|].
Qed.

Lemma get_spec k rc addr new ssl st U lc lf :
  kinv k st U lc lf ->
  exists st' U' A', kstep k (KGet rc addr new ssl) (st, U) = Some (st', U') /\ kok k (st', U') A'
    /\ kspec k (KGet rc addr new ssl) (st, U) (entry st <$> lc) U' A'.
Proof.
  intros HI. cbn [kstep]. unfold Keepalive.ngx_http_upstream_get_keepalive_peer. destruct (decide (rc = NGX_OK)) as [->|Hrc].
  2: { rewrite bool_decide_eq_false_2 by done. cbn. exists st, U, (entry st <$> lc). destruct rc; try done; (split; [done|]; split; [by exists lc, lf|done]). }
  rewrite bool_decide_eq_true_2 by done. cbn [negb pc_sockaddr]. assert (Hring := ki_cache _ _ _ _ _ HI). pose proof Hring as [Hnd HL].
  destruct (linked_first _ _ _ _ HL) as [Hn _]. unfold ngx_queue_head. rewrite (bind_some _ _ _ Hn).
  assert (Hits : forall i, i ∈ lc -> is_Some (ks_items st !! i)).
  { intros i Hi. destruct (ki_idle _ _ _ _ _ HI i Hi) as (it & c & E & _). by exists it. }
  rewrite (bind_some _ _ _ (find_cached_spec _ _ _ _ addr st HL (ring_not_in _ _ _ Hring) Hits (ring_size _ _ _ Hring))).
  cbn [kspec]. rewrite list_find_fmap. destruct (list_find _ lc) as [[n i]|] eqn:Ef; cbn [fmap option_fmap option_map fst snd].
  - apply list_find_Some in Ef as (Hi & Ha & _). assert (Hin : i ∈ lc) by by eapply list_elem_of_lookup_2.
    destruct (ki_idle _ _ _ _ _ HI i Hin) as (it & c & Eit & Hc & Hidle & Hh & Hd).
    assert (Elc : lc = take n lc ++ i :: drop (S n) lc) by (symmetry; by apply take_drop_middle).
    assert (Hent : entry st i = (addr, ki_connection it)) by (unfold entry in *; rewrite Eit in *; cbn in Ha; by subst).
    rewrite Hent. cbn [snd]. pose proof HI as HI0. rewrite Elc in HI.
    destruct (move_item k st U _ i _ lf _ HI eq_refl) as (m1 & m2 & E1 & E2 & R1 & R2 & D & Hnd2).
    rewrite (bind_some _ _ _ E1), (bind_some _ _ _ E2), (bind_some _ _ _ Hc). cbn. rewrite lookup_insert_eq. cbn.
    eexists _, _, _. split; [done|]. split; [|split; [by eapply idle_unused|split; [done|]]].
    + exists (take n lc ++ drop (S n) lc), (i :: lf). split; [|reflexivity]. cbn [fst snd].
      eapply (kinv_leave k st U _ _ i _ lf it); try done.
      * intros cj Hj. by rewrite !lookup_insert_ne.
      * intros c' Hc'. rewrite lookup_insert_eq in Hc'. injection Hc' as <-. done.
      * intros cj a. destruct (decide (cj = ki_connection it)) as [->|Hj].
        -- intros _. right. split; [done|]. rewrite lookup_insert_eq. by eexists.
        -- rewrite lookup_insert_ne by done. by left.
    + rewrite delete_take_drop, <- fmap_take, <- fmap_drop, <- fmap_app. done.
  - destruct (ks_conns st !! new) as [c|] eqn:Ec; cbn; rewrite Ec.
    + eexists _, _, _. split; [done|]. split; [by exists lc, lf|]. split; [done|]. by left.
    + eexists _, _, _. split; [done|]. split; [|split; [reflexivity|by right]]. exists lc, lf. split; [|done]. cbn [fst snd].
      destruct HI as [H1 H2 H3 H4 H5 H6 H7 H8]. split; cbn; try done.
      * intros j Hj. destruct (H6 j Hj) as (it & c & Hit & Hc & Hr). exists it, c. rewrite lookup_insert_ne; [done|]. congruence.
      * intros cj c. destruct (decide (cj = new)) as [->|Hne]; [rewrite lookup_insert_eq; by intros [= <-]|].
        rewrite lookup_insert_ne by done. apply H7.
      * intros cj a. destruct (decide (cj = new)) as [->|Hne]; [rewrite !lookup_insert_eq; by eexists|].
        rewrite !lookup_insert_ne by done. apply H8.
Qed.

(** ** Releasing a connection *)

Lemma kinv_close_user k st U lc lf ci addr :
  kinv k st U lc lf -> U !! ci = Some addr -> kinv k (st <| ks_conns := delete ci (ks_conns st) |>) (delete ci U) lc lf.
Proof.
  intros HI HU. assert (Hun : forall j it, j ∈ lc -> ks_items st !! j = Some it -> ki_connection it <> ci).
  { intros j it Hj Hit E. assert (H := idle_unused _ _ _ _ _ _ _ HI Hj Hit). congruence. }
  destruct HI as [H1 H2 H3 H4 H5 H6 H7 H8]. split; cbn; try done.
  - intros j Hj. destruct (H6 j Hj) as (it & c & Hit & Hc & Hr). exists it, c. rewrite lookup_delete_ne; [done|]. by apply not_eq_sym, (Hun j).
  - intros cj c [_ Hc]%lookup_delete_Some. by apply H7.
  - intros cj a [Hne Ha]%lookup_delete_Some. rewrite lookup_delete_ne by done. by apply (H8 cj a).
Qed.

(** The new entry of the cache. *)
Lemma kinv_put k st U lc lf ci addr a q l1 lf' m2 cs c' :
  kinv k st U lc lf -> U !! ci = Some a -> (forall j, j ∈ l1 -> j ∈ lc /\ j <> q) ->
  ring m2 (k_cache k) (q :: l1) -> ring m2 (k_free k) lf' -> dom m2 = dom (ks_mem st) -> q ∈ lc ++ lf -> (forall j, j ∈ lf' -> j ∈ lf) ->
  NoDup (k_cache k :: k_free k :: (q :: l1) ++ lf') -> length ((q :: l1) ++ lf') = Z.to_nat (k_max_cached k) ->
  (forall j it, j ∈ l1 -> ks_items st !! j = Some it -> cs !! ki_connection it = ks_conns st !! ki_connection it) ->
  (forall cj c, cs !! cj = Some c -> ke_handler (kc_read c) = HClose -> kc_data c ∈ l1 /\ ks_conns st !! cj = Some c) ->
  (forall cj b, U !! cj = Some b -> cs !! cj = ks_conns st !! cj) ->
  kc_idle c' = true -> ke_handler (kc_read c') = HClose -> kc_data c' = q ->
  kinv k (mk_ks m2 (<[q := mk_kitem ci addr]> (ks_items st)) (<[ci := c']> cs)) (delete ci U) (q :: l1) lf'.
Proof.
  intros HI HU Hl1 R1 R2 D Hq Hlf Hnd Hlen Hcs1 Hcs2 Hcs3 E1 E2 E3.
  assert (Hun : forall j it, j ∈ lc -> ks_items st !! j = Some it -> ki_connection it <> ci).
  { intros j it Hj Hit E. assert (H := idle_unused _ _ _ _ _ _ _ HI Hj Hit). congruence. }
  split; cbn; try done.
  - intros j Hj. apply elem_of_dom. rewrite D. apply elem_of_dom. apply (ki_dom _ _ _ _ _ HI).
    apply elem_of_cons in Hj as [->|[Hj|Hj]%elem_of_app]; [done|..]; apply elem_of_app; [left; by apply Hl1|right; by apply Hlf].
  - intros j [->|Hj]%elem_of_cons.
    + rewrite lookup_insert_eq. eexists _, c'. split; [done|]. cbn. by rewrite lookup_insert_eq.
    + destruct (Hl1 j Hj) as [Hjl Hjq]. destruct (ki_idle _ _ _ _ _ HI j Hjl) as (it & c & Hit & Hc & Hr).
      rewrite lookup_insert_ne by done. exists it, c. split; [done|]. rewrite lookup_insert_ne by (by apply not_eq_sym, (Hun j)).
      by rewrite (Hcs1 j it).
  - intros cj c. destruct (decide (cj = ci)) as [->|Hne].
    + rewrite lookup_insert_eq. intros [= <-] _. rewrite E3, lookup_insert_eq. eexists. split; [by left|]. done.
    + rewrite lookup_insert_ne by done. intros Hc Hh. destruct (Hcs2 cj c Hc Hh) as [Hd Hc0].
      destruct (ki_close _ _ _ _ _ HI cj c Hc0 Hh) as (it & _ & Hit & Ei). exists it. split; [by right|].
      rewrite lookup_insert_ne; [done|]. apply not_eq_sym. by apply Hl1.
  - intros cj b [Hne Hb]%lookup_delete_Some. rewrite lookup_insert_ne, (Hcs3 cj b) by done. by apply (ki_users _ _ _ _ _ HI cj b).
Qed.

(** Taking the item: a free one, or the last of the cache. *)
Lemma take_item k st U lc lf f :
  kinv k st U lc lf -> 1 <= k_max_cached k ->
  exists q m1 st1 l1 lf' m2,
    Keepalive.saving_item k (Keepalive.kf_again f) st = Some (q, st1)
    /\ ks_mem st1 = m1 /\ ks_items st1 = ks_items st /\ ngx_queue_insert_head (k_cache k) q m1 = Some m2
    /\ (lc = l1 \/ lc = l1 ++ [q] /\ length lc = Z.to_nat (k_max_cached k)) /\ (forall j, j ∈ l1 -> j ∈ lc /\ j <> q)
    /\ ring m2 (k_cache k) (q :: l1) /\ ring m2 (k_free k) lf' /\ dom m2 = dom (ks_mem st) /\ q ∈ lc ++ lf /\ (forall j, j ∈ lf' -> j ∈ lf)
    /\ NoDup (k_cache k :: k_free k :: (q :: l1) ++ lf') /\ length ((q :: l1) ++ lf') = Z.to_nat (k_max_cached k)
    /\ (forall j it, j ∈ l1 -> ks_items st !! j = Some it -> ks_conns st1 !! ki_connection it = ks_conns st !! ki_connection it)
    /\ (forall cj c, ks_conns st1 !! cj = Some c -> ke_handler (kc_read c) = HClose -> kc_data c ∈ l1 /\ ks_conns st !! cj = Some c)
    /\ (forall cj b, U !! cj = Some b -> ks_conns st1 !! cj = ks_conns st !! cj).
Proof.
  intros HI Hmax. assert (Hnd := ki_nodup _ _ _ _ _ HI). assert (Hlen := ki_len _ _ _ _ _ HI). unfold Keepalive.saving_item.
  rewrite (bind_some _ _ _ (queue_empty_ring (k_free k) _ _ (ki_free _ _ _ _ _ HI))). destruct lf as [|q lf'].
  - rewrite bool_decide_eq_true_2 by done. rewrite app_nil_r in *. destruct lc as [|q l1 _] using rev_ind; [cbn in Hlen; lia|].
    assert (HR := ki_cache _ _ _ _ _ HI). pose proof HR as [_ HL]. destruct (linked_last _ _ _ _ HL) as [Hl _]. rewrite last_snoc in Hl.
    unfold ngx_queue_last. rewrite (bind_some _ _ _ Hl). change (default (k_cache k) (Some q)) with q.
    assert (Hqin : q ∈ l1 ++ [q]) by (apply elem_of_app; right; by left).
    destruct (ki_idle _ _ _ _ _ HI q Hqin) as (it & c & Hit & Hc & Hidle & Hh & Hd).
    destruct (remove_ring (k_cache k) (ks_mem st) l1 q [] HR) as (m1 & E1 & R1 & D1 & F1). rewrite (bind_some _ _ _ E1), (bind_some _ _ _ Hit).
    rewrite app_nil_r in R1.
    destruct (close_spec (Keepalive.kf_again f) (ki_connection it) c (mk_ks m1 (ks_items st) (ks_conns st)) Hc) as (st1 & E2 & Em & Eit & Hsame & Hgone).
    cbn in Em, Eit, Hsame.
    assert (Hnd1 : NoDup ((q :: k_cache k :: l1) ++ [k_free k])) by (eapply Permutation_NoDup'; [|exact Hnd]; solve_Permutation).
    apply NoDup_app in Hnd1 as (Hnd1 & Hdisj & _). apply NoDup_cons in Hnd1 as [Hqn _].
    assert (HRf : ring m1 (k_free k) []).
    { apply F1; [by eapply ki_free|]. intros y Hy. apply Hdisj. rewrite elem_of_cons, elem_of_app in Hy. rewrite !elem_of_cons.
      destruct Hy as [->|[Hy|Hy%list_elem_of_singleton]]; tauto. }
    destruct (insert_head_ring (k_cache k) m1 l1 q R1) as (m2 & E3 & R2 & D2 & F2);
      [done|apply elem_of_dom; rewrite D1; apply elem_of_dom, (ki_dom _ _ _ _ _ HI); by rewrite app_nil_r|].
    exists q, m1, st1, l1, [], m2. rewrite app_nil_r in *.
    split; [etransitivity; [apply bind_some; exact E2|done]|]. split_and!; try done.
    + right. by split.
    + intros j Hj. split; [apply elem_of_app; by left|]. intros ->. apply Hqn. by right.
    + apply F2; [done|]. intros y Hy. apply Hdisj. done.
    + congruence.
    + eapply Permutation_NoDup'; [|exact Hnd]; solve_Permutation.
    + rewrite <- Hlen, length_app. cbn. lia.
    + intros j jt Hj Hjt. apply Hsame. intros E. assert (j = q) as ->; [|by apply Hqn; right].
      eapply (idle_inj k st U _ _ j q jt it HI); try done. apply elem_of_app. by left.
    + intros cj c0 Hc0 Hh0. destruct (decide (cj = ki_connection it)) as [->|Hne]; [rewrite (Hgone c0 Hc0) in Hh0; done|].
      rewrite Hsame in Hc0 by done. split; [|done]. destruct (ki_close _ _ _ _ _ HI cj c0 Hc0 Hh0) as (jt & Hj & Hjt & Ej).
      apply elem_of_app in Hj as [Hj|Hj%list_elem_of_singleton]; [done|]. congruence.
    + intros cj b Hb. apply Hsame. intros ->. assert (H := idle_unused _ _ _ _ _ _ _ HI Hqin Hit). congruence.
  - rewrite bool_decide_eq_false_2 by done. assert (HR := ki_free _ _ _ _ _ HI). pose proof HR as [_ HL].
    destruct (linked_first _ _ _ _ HL) as [Hf _]. unfold ngx_queue_head. rewrite (bind_some _ _ _ Hf).
    change (default (k_free k) (head (q :: lf'))) with q.
    destruct (remove_ring (k_free k) (ks_mem st) [] q lf' HR) as (m1 & E1 & R1 & D1 & F1). rewrite (bind_some _ _ _ E1). cbn [app] in R1.
    assert (Hnd1 : NoDup ((k_cache k :: lc) ++ k_free k :: q :: lf')) by (eapply Permutation_NoDup'; [|exact Hnd]; solve_Permutation).
    assert (Hnd2 : NoDup ((q :: k_cache k :: lc) ++ k_free k :: lf')) by (eapply Permutation_NoDup'; [|exact Hnd]; solve_Permutation).
    apply NoDup_app in Hnd1 as (_ & Hdisj & _). apply NoDup_app in Hnd2 as ([Hqn _]%NoDup_cons & Hdisj2 & _).
    assert (HRc : ring m1 (k_cache k) lc).
    { apply F1; [by eapply ki_cache|]. intros y Hy Hy'. by apply (Hdisj y Hy'). }
    destruct (insert_head_ring (k_cache k) m1 lc q HRc) as (m2 & E3 & R2 & D2 & F2);
      [done|apply elem_of_dom; rewrite D1; apply elem_of_dom, (ki_dom _ _ _ _ _ HI); rewrite elem_of_app, elem_of_cons; tauto|].
    exists q, m1, (st <| ks_mem := m1 |>), lc, lf', m2. split_and!; try done.
    + by left.
    + intros j Hj. split; [done|]. intros ->. apply Hqn. by right.
    + apply F2; [done|]. intros y Hy. by apply Hdisj2.
    + congruence.
    + rewrite elem_of_app, elem_of_cons. tauto.
    + intros j Hj. by right.
    + eapply Permutation_NoDup'; [|exact Hnd]; solve_Permutation.
    + rewrite <- Hlen, !length_app. cbn. lia.
    + intros cj c Hc Hh. split; [|done]. destruct (ki_close _ _ _ _ _ HI cj c Hc Hh) as (jt & Hj & _). done.
Qed.

Lemma entry_put st q it ci addr (l1 : list Z) :
  (forall j, j ∈ l1 -> j <> q) -> ks_items st = <[q := mk_kitem ci addr]> it ->
  entry st <$> q :: l1 = (addr, ci) :: (entry (mk_ks (ks_mem st) it (ks_conns st)) <$> l1).
Proof.
  intros Hl1 E. rewrite fmap_cons. unfold entry at 1. rewrite E, lookup_insert_eq. f_equal. apply list_fmap_ext. intros n j Hj.
  unfold entry. rewrite E, lookup_insert_ne; [done|]. apply not_eq_sym, Hl1. by eapply list_elem_of_lookup_2.
Qed.

Lemma entry_items st st' (lc : list Z) : ks_items st = ks_items st' -> entry st <$> lc = entry st' <$> lc.
Proof. intros E. apply list_fmap_ext. intros n j _. unfold entry. by rewrite E. Qed.

Lemma reusable_ifs {X} k f c (x y : X) :
  (if Keepalive.kf_failed f || ke_eof (kc_read c) || ke_error (kc_read c) || ke_timedout (kc_read c)
      || ke_error (kc_write c) || ke_timedout (kc_write c) then y
   else if k_requests k <=? kc_requests c then y
   else if negb (Keepalive.kf_keepalive f) then y
   else if negb (Keepalive.kf_body_sent f) then y
   else if Keepalive.kf_exiting f then y
   else if negb (Keepalive.kf_event f) then y
   else x) = if reusable k f c then x else y.
Proof.
  unfold reusable. rewrite Z.ltb_antisym. destruct (_ || _), (k_requests k <=? kc_requests c); cbn; try done.
  by destruct (Keepalive.kf_keepalive f), (Keepalive.kf_body_sent f), (Keepalive.kf_exiting f), (Keepalive.kf_event f).
Qed.

Lemma free_spec k ci now f st U lc lf :
  kinv k st U lc lf -> 1 <= k_max_cached k ->
  exists st' U' A', kstep k (KFree ci now f) (st, U) = Some (st', U') /\ kok k (st', U') A'
    /\ kspec k (KFree ci now f) (st, U) (entry st <$> lc) U' A'.
Proof.
  intros HI Hmax. cbn [kstep kspec]. destruct (U !! ci) as [addr|] eqn:HU.
  2: { eexists _, _, _. split; [done|]. split; [by exists lc, lf|done]. }
  destruct (ki_users _ _ _ _ _ HI ci addr HU) as (c & Hc & Hh). unfold Keepalive.ngx_http_upstream_free_keepalive_peer.
  cbn [pc_connection pc_sockaddr]. rewrite (bind_some _ _ _ Hc), Hc.
  assert (Hinvalid : reusable k f c = false -> exists st' U' A', ('(pc, st) ← Some (mk_kpc (Some ci) false addr, st);
      match pc_connection pc with
      | None => Some (st, delete ci U) | Some ci' => Some (st <| ks_conns := delete ci' (ks_conns st) |>, delete ci U) end) = Some (st', U')
    /\ kok k (st', U') A' /\ U' = delete ci U /\ (if reusable k f c
      then A' = take (Z.to_nat (k_max_cached k)) ((addr, ci) :: (entry st <$> lc))
           \/ ke_ready (kc_read c) = true /\ A' = take (Z.to_nat (k_max_cached k) - 1) (entry st <$> lc)
      else A' = (entry st <$> lc))).
  { intros Er. rewrite Er. eexists _, _, _. split; [done|]. split; [|split; done]. exists lc, lf. split; [by eapply kinv_close_user|]. by apply entry_items. }
  rewrite reusable_ifs. destruct (reusable k f c); [clear Hinvalid|by apply Hinvalid].
  destruct (take_item k st U lc lf f HI Hmax) as (q & m1 & st1 & l1 & lf' & m2 & E1 & Em & Eit & E2 & Hlc & Hl1 & R1 & R2 & D & Hq & Hlf & Hnd & Hlen & Hx1 & Hx2 & Hx3).
  rewrite (bind_some _ _ _ E1). cbv beta iota. rewrite Em, (bind_some _ _ _ E2). rewrite (Hx3 ci addr HU), (bind_some _ _ _ Hc). cbv zeta.
  set (c' := Keepalive.saved k now q c). set (st2 := mk_ks m2 _ _).
  assert (HI2 : kinv k st2 (delete ci U) (q :: l1) lf').
  { unfold st2. rewrite Eit. eapply kinv_put; try done. }
  assert (Hent : entry st2 <$> q :: l1 = (addr, ci) :: (entry st <$> l1)).
  { rewrite (entry_put st2 q (ks_items st) ci addr l1); [f_equal; by apply entry_items|intros j Hj; by apply Hl1|by cbn; rewrite Eit]. }
  assert (Hput : (addr, ci) :: (entry st <$> l1) = take (Z.to_nat (k_max_cached k)) ((addr, ci) :: (entry st <$> lc))).
  { cbn in Hlen. rewrite length_app in Hlen. destruct Hlc as [->|[-> Hll]].
    - rewrite take_ge; [done|]. cbn. rewrite length_fmap. lia.
    - rewrite fmap_app. change ((addr, ci) :: (entry st <$> l1) ++ (entry st <$> [q])) with (((addr, ci) :: (entry st <$> l1)) ++ (entry st <$> [q])).
      rewrite take_app_length'; [done|]. rewrite length_app in Hll. cbn in Hll |- *. rewrite length_fmap. lia. }
  destruct (ke_ready (kc_read c')) eqn:Hready.
  - assert (Hc2 : ks_conns st2 !! ci = Some c') by (cbn; by rewrite lookup_insert_eq).
    destruct (close_handler_inv k (Keepalive.kf_close f) ci c' st2 _ _ _ HI2 Hc2 eq_refl) as (st3 & E3 & Eit3 & HI3).
    rewrite (bind_some _ _ _ E3). cbn. destruct HI3 as [HI3|(la & lb & El & HI3)]; eexists _, _, _; (split; [done|]).
    + split; [by exists (q :: l1), lf'|]. split; [done|]. left. etransitivity; [by apply (entry_items _ st2)|]. etransitivity; [exact Hent|exact Hput].
    + assert (la = [] /\ lb = l1) as [-> ->].
      { destruct la as [|z la]; cbn in El; [injection El as <-; done|]. injection El as <- El. exfalso.
        destruct (Hl1 q) as [_ Hne]; [|done]. rewrite El. apply elem_of_app. right. by left. }
      split; [by exists l1, (q :: lf')|]. split; [done|]. right. split; [done|]. rewrite (entry_items _ st2) by done.
      rewrite fmap_cons in Hent. injection Hent as _ Hent. rewrite Hent.
      destruct (Z.to_nat (k_max_cached k)) as [|n] eqn:En; [lia|]. cbn in Hput. injection Hput as Hput. rewrite Hput. by rewrite Nat.sub_succ, Nat.sub_0_r.
  - cbn [mbind option_bind pc_connection]. exists st2, (delete ci U), (entry st2 <$> q :: l1). split; [done|].
    split; [by exists (q :: l1), lf'|]. split; [done|]. left.
    exact (eq_trans Hent Hput).
Qed.

Lemma event_spec k ci io st U lc lf :
  kinv k st U lc lf ->
  exists st' U' A', kstep k (KEvent ci io) (st, U) = Some (st', U') /\ kok k (st', U') A'
    /\ kspec k (KEvent ci io) (st, U) (entry st <$> lc) U' A'.
Proof.
  intros HI. cbn [kstep kspec].
  assert (Hnop : exists st' U' A', Some (st, U) = Some (st', U') /\ kok k (st', U') A'
    /\ U' = U /\ (A' = (entry st <$> lc) \/ exists n addr, (entry st <$> lc) !! n = Some (addr, ci) /\ A' = delete n (entry st <$> lc))).
  { eexists _, _, _. split; [done|]. split; [by exists lc, lf|]. split; [done|by left]. }
  destruct (ks_conns st !! ci) as [c|] eqn:Hc; [|exact Hnop]. destruct (ke_handler (kc_read c)) eqn:Hh; try exact Hnop. clear Hnop.
  destruct (close_handler_inv k io ci c st U lc lf HI Hc Hh) as (st' & E & Eit & HI'). rewrite (bind_some _ _ _ E).
  destruct HI' as [HI'|(l1 & l2 & El & HI')].
  - exists st', U, (entry st <$> lc). split; [done|]. split; [exists lc, lf; split; [done|by apply entry_items]|]. split; [done|by left].
  - exists st', U, (entry st <$> l1 ++ l2). split; [done|].
    split; [exists (l1 ++ l2), (kc_data c :: lf); split; [done|by apply entry_items]|]. split; [done|]. right.
    exists (length l1), (entry st (kc_data c)).1. destruct (ki_close _ _ _ _ _ HI ci c Hc Hh) as (it & _ & Hit & Ei). rewrite El. split.
    + rewrite fmap_app, lookup_app_r by (by rewrite length_fmap). rewrite length_fmap, Nat.sub_diag. cbn. unfold entry. by rewrite Hit, Ei.
    + rewrite delete_take_drop, <- fmap_take, <- fmap_drop, <- fmap_app. f_equal. rewrite take_app_length. f_equal.
      rewrite drop_app_ge by lia. by replace (S (length l1) - length l1)%nat with 1%nat by lia.
Qed.

Lemma kinv_done k st U lc lf ci c :
  kinv k st U lc lf -> ks_conns st !! ci = Some c -> ke_handler (kc_read c) = HShutdown ->
  kinv k (st <| ks_conns := delete ci (ks_conns st) |>) U lc lf.
Proof.
  intros [H1 H2 H3 H4 H5 H6 H7 H8] Hc Hh. split; cbn; try done.
  - intros j Hj. destruct (H6 j Hj) as (it & c0 & Hit & Hc0 & Hi & Hh0 & Hd). exists it, c0. rewrite lookup_delete_ne; [done|]. congruence.
  - intros cj c0 [_ Hc0]%lookup_delete_Some. by apply H7.
  - intros cj a Ha. destruct (H8 cj a Ha) as (c0 & Hc0 & Hh0). exists c0. rewrite lookup_delete_ne; [done|]. congruence.
Qed.

Lemma kstep_spec k op st U A :
  1 <= k_max_cached k -> kok k (st, U) A ->
  exists st' U' A', kstep k op (st, U) = Some (st', U') /\ kok k (st', U') A' /\ kspec k op (st, U) A U' A'.
Proof.
  intros Hmax (lc & lf & HI & ->). cbn [fst snd] in *. destruct op as [rc addr new ssl|ci now f|ci io|ci g|ci].
  - by eapply get_spec.
  - by eapply free_spec.
  - by eapply event_spec.
  - cbn. destruct (ks_conns st !! ci) as [c|] eqn:Hc; eexists _, _, _; (split; [done|]); (split; [|done]); exists lc, lf; [|done].
    split; [|by apply entry_items]. by eapply kinv_same_role.
  - cbn. destruct (ks_conns st !! ci) as [c|] eqn:Hc; [destruct (ke_handler (kc_read c)) eqn:Hh|];
      eexists _, _, _; (split; [done|]); (split; [|done]); exists lc, lf; try done.
    split; [|by apply entry_items]. by eapply kinv_done.
Qed.

(** ** Start *)

Lemma init_items_ring free items m l :
  ring m free l -> NoDup (free :: items ++ l) -> (forall i, i ∈ items -> is_Some (m !! i)) ->
  exists m', Keepalive.init_items free items m = Some m' /\ ring m' free (reverse items ++ l) /\ dom m' = dom m
    /\ (forall k l', ring m k l' -> (forall y, y ∈ free :: items ++ l -> y ∉ k :: l') -> ring m' k l').
Proof.
  revert m l; induction items as [|i items IH]; intros m l HR Hnd Hm; [by exists m|]. cbn [Keepalive.init_items].
  assert (Hnd1 : NoDup (i :: (free :: l) ++ items)) by (eapply Permutation_NoDup'; [|exact Hnd]; solve_Permutation).
  assert (Hnd2 : NoDup (free :: items ++ i :: l)) by (eapply Permutation_NoDup'; [|exact Hnd]; solve_Permutation).
  destruct (insert_head_ring free m l i HR) as (m1 & E1 & R1 & D1 & F1).
  { apply NoDup_cons in Hnd1 as [Hi _]. intros Hin. apply Hi, elem_of_app. by left. }
  { apply Hm. by left. }
  rewrite (bind_some _ _ _ E1). destruct (IH m1 (i :: l) R1 Hnd2) as (m2 & E2 & R2 & D2 & F2).
  { intros j Hj. apply elem_of_dom. rewrite D1. apply elem_of_dom, Hm. by right. }
  exists m2. split; [done|]. split; [by rewrite reverse_cons, <- app_assoc|]. split; [congruence|]. intros k l' Hr Hd.
  apply F2; [apply F1; [done|]|]; intros y Hy; apply Hd; revert Hy; rewrite !elem_of_cons, !elem_of_app, ?elem_of_cons; tauto.
Qed.

Lemma init_ok k items m its :
  NoDup (k_cache k :: k_free k :: items) -> length items = Z.to_nat (k_max_cached k) ->
  (forall i, i ∈ k_cache k :: k_free k :: items -> is_Some (m !! i)) ->
  exists k' st, Keepalive.ngx_http_upstream_init_keepalive k items (mk_ks m its ∅) = Some (k', st)
    /\ k_max_cached k' = k_max_cached k /\ kok k' (st, ∅) [].
Proof.
  intros Hnd Hlen Hm. unfold Keepalive.ngx_http_upstream_init_keepalive. set (k' := k <| k_timeout := _ |> <| k_requests := _ |>).
  change (k_cache k) with (k_cache k') in *. change (k_free k) with (k_free k') in *. change (k_max_cached k) with (k_max_cached k') in *. cbn [ks_mem].
  destruct (queue_init_ring (k_cache k') m) as (m1 & E1 & R1 & D1 & _); [apply Hm; by left|]. cbv zeta. rewrite (bind_some _ _ _ E1).
  destruct (queue_init_ring (k_free k') m1) as (m2 & E2 & R2 & D2 & F2).
  { apply elem_of_dom. rewrite D1. apply elem_of_dom, Hm. right. by left. }
  rewrite (bind_some _ _ _ E2). pose proof Hnd as [Hc Hnd']%NoDup_cons.
  destruct (init_items_ring (k_free k') items m2 [] R2) as (m3 & E3 & R3 & D3 & F3).
  { by rewrite app_nil_r. }
  { intros i Hi. apply elem_of_dom. rewrite D2, D1. apply elem_of_dom, Hm. by do 2 right. }
  rewrite (bind_some _ _ _ E3). rewrite app_nil_r in R3, F3. eexists k', _. split; [done|]. split; [done|]. exists [], (reverse items). split; [|done].
  split; cbn [fst snd ks_mem ks_items ks_conns]; try done.
  - apply F3; [apply F2; [done|]|].
    + intros Ec%list_elem_of_singleton. apply Hc. rewrite <- Ec. by left.
    + intros y Hy ->%list_elem_of_singleton. done.
  - cbn. by rewrite reverse_Permutation.
  - cbn. by rewrite length_reverse.
  - intros i Hi. cbn in Hi |- *. rewrite elem_of_reverse in Hi. apply elem_of_dom. rewrite D3, D2, D1. apply elem_of_dom, Hm. by do 2 right.
  - intros i Hi. by apply elem_of_nil in Hi.
Qed.

(** ** Runs *)

(** Every step does what [kspec] says. *)
Fixpoint lru_runs (k : kconf) (ops : list kop) (s : kstate * users) (A : list (bytes * Z)) (s' : kstate * users) (A' : list (bytes * Z)) : Prop :=
  match ops with
  | [] => s' = s /\ A' = A
  | op :: ops' => exists s1 A1, kstep k op s = Some s1 /\ kspec k op s A s1.2 A1 /\ lru_runs k ops' s1 A1 s' A'
  end.

Lemma kruns_spec k ops s A :
  1 <= k_max_cached k -> kok k s A -> exists s' A', kruns k ops s = Some s' /\ lru_runs k ops s A s' A' /\ kok k s' A'.
Proof.
  intros Hk. revert s A; induction ops as [|op ops IH]; intros s A Hs; [by exists s, A|]. destruct s as [st U].
  destruct (kstep_spec k op st U A Hk Hs) as (st1 & U1 & A1 & E1 & Hs1 & Hsp). cbn [kruns]. rewrite (bind_some _ _ _ E1).
  destruct (IH _ _ Hs1) as (s' & A' & E & HL & Hs'). exists s', A'. split; [done|]. split; [|done]. by exists (st1, U1), A1.
Qed.

(** What the list says of the connections. *)
Lemma kok_facts k st U A :
  kok k (st, U) A ->
  (length A <= Z.to_nat (k_max_cached k))%nat /\ NoDup A.*2
  /\ (forall addr ci, (addr, ci) ∈ A -> U !! ci = None /\ exists c, ks_conns st !! ci = Some c /\ kc_idle c = true)
  /\ (forall ci, is_Some (U !! ci) -> is_Some (ks_conns st !! ci)).
Proof.
  intros (lc & lf & HI & ->). cbn [fst snd] in *. split_and!.
  - rewrite length_fmap, <- (ki_len _ _ _ _ _ HI), length_app. lia.
  - rewrite <- list_fmap_compose. apply NoDup_fmap_2_strong.
    + intros i j Hi Hj. destruct (ki_idle _ _ _ _ _ HI i Hi) as (it & c & Eit & Hc & _ & _ & Hd).
      destruct (ki_idle _ _ _ _ _ HI j Hj) as (jt & c' & Ejt & Hc' & _ & _ & Hd'). unfold compose, entry. rewrite Eit, Ejt. cbn. congruence.
    + assert (Hnd := ki_nodup _ _ _ _ _ HI). by apply NoDup_cons in Hnd as [_ [_ (? & _)%NoDup_app]%NoDup_cons].
  - intros addr ci (i & E & Hi)%list_elem_of_fmap. destruct (ki_idle _ _ _ _ _ HI i Hi) as (it & c & Eit & Hc & Hidle & _).
    unfold entry in E. rewrite Eit in E. injection E as -> ->. split; [by eapply idle_unused|by exists c].
  - intros ci [a HU]. destruct (ki_users _ _ _ _ _ HI ci a HU) as (c & Hc & _). by exists c.
Qed.

Section Run.
Context (k0 : kconf) (items : list Z) (m : qmem) (its : gmap Z kitem).
Context (Hmax : 1 <= k_max_cached k0) (Hnd : NoDup (k_cache k0 :: k_free k0 :: items)).
Context (Hlen : length items = Z.to_nat (k_max_cached k0)) (Hm : forall i, i ∈ k_cache k0 :: k_free k0 :: items -> is_Some (m !! i)).

(** C13: For every sequence of requests, releases, events and network conditions
    the module never follows a stale link, and its queues are the list of the
    latest released connections: a request takes the first with its address, a
    release puts its connection in front and drops the last of a full cache,
    an event removes only its own connection.  At most [keepalive] connections
    are idle, none twice; none of them is used by a request, and all idle and
    used ones are open. *)
Theorem keepalive_refines_lru ops :
  exists k st0 s A, Keepalive.ngx_http_upstream_init_keepalive k0 items (mk_ks m its ∅) = Some (k, st0)
    /\ kruns k ops (st0, ∅) = Some s /\ lru_runs k ops (st0, ∅) [] s A
    /\ (length A <= Z.to_nat (k_max_cached k0))%nat /\ NoDup A.*2
    /\ (forall addr ci, (addr, ci) ∈ A -> s.2 !! ci = None /\ exists c, ks_conns s.1 !! ci = Some c /\ kc_idle c = true)
    /\ (forall ci, is_Some (s.2 !! ci) -> is_Some (ks_conns s.1 !! ci)).
Proof using Hmax Hnd Hlen Hm.
  destruct (init_ok k0 items m its Hnd Hlen Hm) as (k & st0 & E0 & Ek & H0). rewrite <- Ek in Hmax.
  destruct (kruns_spec k ops _ _ Hmax H0) as ([st U] & A & E & HL & Hs). exists k, st0, (st, U), A. rewrite <- Ek.
  destruct (kok_facts k st U A Hs) as (H1 & H2 & H3 & H4). by split_and!.
Qed.

(** A connection released in good order, with nothing to read, goes to the
    next request for its address, which opens none. *)
Theorem keepalive_reuse k st0 ops st U ci addr c now f new ssl :
  Keepalive.ngx_http_upstream_init_keepalive k0 items (mk_ks m its ∅) = Some (k, st0) ->
  kruns k ops (st0, ∅) = Some (st, U) ->
  U !! ci = Some addr -> ks_conns st !! ci = Some c -> reusable k f c = true -> ke_ready (kc_read c) = false ->
  exists s1 s2, kstep k (KFree ci now f) (st, U) = Some s1 /\ ci ∉ dom s1.2
    /\ kstep k (KGet NGX_OK addr new ssl) s1 = Some s2 /\ s2.2 = U.
Proof using Hmax Hnd Hlen Hm.
  intros Ei Er HU Hc Hre Hrd. destruct (init_ok k0 items m its Hnd Hlen Hm) as (k' & st0' & E0 & Ek & H0).
  rewrite Ei in E0. injection E0 as <- <-. rewrite <- Ek in Hmax.
  destruct (kruns_spec k ops _ _ Hmax H0) as (s & A & E & _ & Hs). rewrite Er in E. injection E as <-.
  destruct (kstep_spec k (KFree ci now f) st U A Hmax Hs) as (st1 & U1 & A1 & E1 & Hs1 & Hsp1). cbn [kspec] in Hsp1.
  rewrite HU, Hc, Hre in Hsp1. destruct Hsp1 as [-> [->|[? _]]]; [|congruence].
  destruct (kstep_spec k (KGet NGX_OK addr new ssl) _ _ _ Hmax Hs1) as (st2 & U2 & A2 & E2 & _ & Hsp2).
  exists (st1, delete ci U), (st2, U2). split; [done|]. split; [cbn; rewrite not_elem_of_dom; apply lookup_delete_eq|]. split; [done|].
  destruct (Z.to_nat (k_max_cached k)) as [|n] eqn:En; [lia|]. cbn [kspec take list_find] in Hsp2. rewrite decide_True in Hsp2 by done.
  destruct Hsp2 as (_ & -> & _). cbn. by rewrite insert_delete_id.
Qed.

End Run.

(** Two items, at 3 and 4; three requests and their releases. *)
Definition demo_conf : kconf := mk_kconf 2 NGX_CONF_UNSET_UINT NGX_CONF_UNSET_UINT 1 2.
Definition demo_mem : qmem := list_to_map ((fun i => (i, mk_queue 0 0)) <$> [1; 2; 3; 4]).
Definition demo_free : Keepalive.kfree := Keepalive.mk_kfree false true true false true false (Keepalive.mk_kio PEagain true false).
Definition demo_ops : list kop :=
  [KGet NGX_OK [65] 10 false; KGet NGX_OK [66] 11 false; KGet NGX_OK [67] 12 false;
   KFree 10 0 demo_free; KFree 11 1 demo_free; KFree 12 2 demo_free; KGet NGX_OK [66] 13 false].

(** The third release closes the first connection; the last request takes 11. *)
Example demo_run :
  (s ← Keepalive.ngx_http_upstream_init_keepalive demo_conf [3; 4] (mk_ks demo_mem ∅ ∅);
   s ← kruns s.1 demo_ops (s.2, ∅);
   Some (map_to_list s.2, (map_to_list (ks_conns s.1)).*1)) = Some ([(11, [66])], [11; 12]).
Proof. vm_compute. reflexivity. Qed.

Lemma demo_nodup : NoDup (k_cache demo_conf :: k_free demo_conf :: [3; 4]).
Proof. by apply (bool_decide_eq_true_1 _). Qed.

Lemma demo_dom i : i ∈ k_cache demo_conf :: k_free demo_conf :: [3; 4] -> is_Some (demo_mem !! i).
Proof. intros H. repeat (apply elem_of_cons in H as [->|H]; [by eexists|]). by apply elem_of_nil in H. Qed.

Lemma keepalive_refines_lru_witness :
  exists k st0 s A, Keepalive.ngx_http_upstream_init_keepalive demo_conf [3; 4] (mk_ks demo_mem ∅ ∅) = Some (k, st0)
    /\ kruns k demo_ops (st0, ∅) = Some s /\ lru_runs k demo_ops (st0, ∅) [] s A /\ (length A <= 2)%nat.
Proof.
  destruct (keepalive_refines_lru demo_conf [3; 4] demo_mem ∅ ltac:(cbn; lia) demo_nodup eq_refl demo_dom demo_ops)
    as (k & st0 & s & A & H1 & H2 & H3 & H4 & _). exists k, st0, s, A. by split_and!.
Defined.

Lemma keepalive_reuse_witness :
  exists k st0 st U c s1 s2, Keepalive.ngx_http_upstream_init_keepalive demo_conf [3; 4] (mk_ks demo_mem ∅ ∅) = Some (k, st0)
    /\ kruns k [KGet NGX_OK [65] 10 false] (st0, ∅) = Some (st, U) /\ U !! 10 = Some [65] /\ ks_conns st !! 10 = Some c
    /\ kstep k (KFree 10 0 demo_free) (st, U) = Some s1 /\ kstep k (KGet NGX_OK [65] 11 false) s1 = Some s2 /\ s2.2 = U.
Proof.
  eexists _, _, _, _, _.
  destruct (keepalive_reuse demo_conf [3; 4] demo_mem ∅ ltac:(cbn; lia) demo_nodup eq_refl demo_dom
    _ _ [KGet NGX_OK [65] 10 false] _ _ 10 [65] _ 0 demo_free 11 false
    ltac:(reflexivity) ltac:(reflexivity) ltac:(reflexivity) ltac:(reflexivity) ltac:(reflexivity) ltac:(reflexivity)) as (s1 & s2 & H1 & _ & H2 & H3).
  exists s1, s2. by split_and!.
Defined.
