(* ===== verification/Slab.v ===== *)
(** * The allocator of shared memory

    [src/core/ngx_slab.c] and [ngx_slab.h]: a zone is cut into pages with a
    descriptor each.  Free runs of pages are in the ring of [pool->free]; pages
    of chunks of one size that are not full are in the ring of their slot.  The
    low two bits of [prev] are the type of a page.  Which chunks are taken is
    in a bitmap: in the descriptor, or for small chunks at the start of the
    page.

    Descriptors are a finite map from their addresses, and the pages are a
    memory of 64-bit words, which the users of chunks also write; a wrong
    address makes the result [None].  The page size is [2 ^ ps].  Numbers are of 64
    bits; [ngx_slab_junk] is empty but for builds that debug the allocation. *)

From stdpp Require Import gmap.
From S2P Require Import Prelude.

(** ** Data *)

Record slab_page := mk_sp { sp_slab : Z; sp_next : Z; sp_prev : Z }.

#[export] Instance eta_slab_page : Eta slab_page := fun r => mk_sp (sp_slab r) (sp_next r) (sp_prev r).

Record slab_stat := mk_sstat { ss_total : Z; ss_used : Z; ss_reqs : Z; ss_fails : Z }.

#[export] Instance eta_slab_stat : Eta slab_stat := fun r => mk_sstat (ss_total r) (ss_used r) (ss_reqs r) (ss_fails r).

(** [ngx_slab_pool_t] at the address [p_addr], with the descriptors and the
    memory of its pages. *)
Record slab_pool := mk_pool {
  p_addr : Z;
  p_min_size : Z;
  p_min_shift : Z;
  p_pages : Z;
  p_last : Z;
  p_stats : list slab_stat;
  p_pfree : Z;
  p_start : Z;
  p_end : Z;
  p_desc : gmap Z slab_page;
  p_words : Z -> Z
}.

#[export] Instance eta_slab_pool : Eta slab_pool := fun r =>
  mk_pool (p_addr r) (p_min_size r) (p_min_shift r) (p_pages r) (p_last r) (p_stats r) (p_pfree r) (p_start r) (p_end r) (p_desc r) (p_words r).

Definition NGX_SLAB_PAGE_MASK : Z := 3.
Definition NGX_SLAB_PAGE : Z := 0.
Definition NGX_SLAB_BIG : Z := 1.
Definition NGX_SLAB_EXACT : Z := 2.
Definition NGX_SLAB_SMALL : Z := 3.
Definition NGX_SLAB_PAGE_FREE : Z := 0.
Definition NGX_SLAB_PAGE_BUSY : Z := 0xffffffffffffffff.
Definition NGX_SLAB_PAGE_START : Z := 0x8000000000000000.
Definition NGX_SLAB_SHIFT_MASK : Z := 0xf.
Definition NGX_SLAB_MAP_MASK : Z := 0xffffffff00000000.
Definition NGX_SLAB_MAP_SHIFT : Z := 32.
Definition NGX_SLAB_BUSY : Z := 0xffffffffffffffff.
Definition SNULL : Z := 0.

(** [sizeof(ngx_slab_page_t)], [sizeof(ngx_slab_stat_t)],
    [sizeof(ngx_slab_pool_t)] and the offset of its [free]. *)
Definition SIZEOF_PAGE : Z := 24.
Definition SIZEOF_STAT : Z := 32.
Definition SIZEOF_POOL : Z := 200.
Definition FREE_OFFSET : Z := 48.

Definition p_free (p : slab_pool) : Z := p_addr p + FREE_OFFSET.
Definition ngx_slab_slots (p : slab_pool) : Z := p_addr p + SIZEOF_POOL.

(** [&page[i]] *)
Definition page_at (page i : Z) : Z := page + SIZEOF_PAGE * i.

(** ** Code that reads and writes the pool *)

Definition SM (A : Type) : Type := slab_pool -> option (A * slab_pool).

#[export] Instance SM_ret : MRet SM := fun A a s => Some (a, s).
#[export] Instance SM_bind : MBind SM := fun A B f m s => match m s with Some (a, s') => f a s' | None => None end.

Definition stuck {A} : SM A := fun _ => None.
Definition gets {A} (f : slab_pool -> A) : SM A := fun s => Some (f s, s).
Definition modify (f : slab_pool -> slab_pool) : SM unit := fun s => Some (tt, f s).

Definition sget (f : slab_page -> Z) (a : Z) : SM Z := fun s =>
  match p_desc s !! a with Some c => Some (f c, s) | None => None end.
Definition sput (a : Z) (g : slab_page -> slab_page) : SM unit := fun s =>
  match p_desc s !! a with Some c => Some (tt, s <| p_desc := <[a := g c]> (p_desc s) |>) | None => None end.

Definition set_snext (a v : Z) : SM unit := sput a (fun c => c <| sp_next := v |>).
Definition set_sprev (a v : Z) : SM unit := sput a (fun c => c <| sp_prev := v |>).
Definition set_slab (a v : Z) : SM unit := sput a (fun c => c <| sp_slab := v |>).

Definition word (a : Z) : SM Z := gets (fun s => p_words s a).
Definition set_word (a v : Z) : SM unit := modify (fun s => s <| p_words := fun x => if x =? a then v else p_words s x |>).

Definition stat_add (slot : Z) (f : slab_stat -> slab_stat) : SM unit :=
  modify (fun s => s <| p_stats := alter f (Z.to_nat slot) (p_stats s) |>).

(** [used++], [used--], [total += n], [total -= n], [reqs++], [fails++] *)
Definition used_inc (c : slab_stat) : slab_stat := c <| ss_used := u64 (ss_used c + 1) |>.
Definition used_dec (c : slab_stat) : slab_stat := c <| ss_used := u64 (ss_used c - 1) |>.
Definition total_add (n : Z) (c : slab_stat) : slab_stat := c <| ss_total := u64 (ss_total c + n) |>.
Definition total_sub (n : Z) (c : slab_stat) : slab_stat := c <| ss_total := u64 (ss_total c - n) |>.
Definition reqs_inc (c : slab_stat) : slab_stat := c <| ss_reqs := u64 (ss_reqs c + 1) |>.
Definition fails_inc (c : slab_stat) : slab_stat := c <| ss_fails := u64 (ss_fails c + 1) |>.

Section Slab.
(** [ngx_pagesize_shift] *)
Context (ps : Z).

Definition ngx_pagesize : Z := 2 ^ ps.

(** [ngx_slab_sizes_init]; the shift counts the halvings of the size. *)
Definition ngx_slab_max_size : Z := ngx_pagesize / 2.
Definition ngx_slab_exact_size : Z := ngx_pagesize / (8 * 8).

Fixpoint halvings (fuel : nat) (n : Z) : Z :=
  match fuel with
  | O => 0
  | S fuel => let n := Z.shiftr n 1 in if n =? 0 then 0 else 1 + halvings fuel n
  end.

Definition ngx_slab_exact_shift : Z := halvings 64 ngx_slab_exact_size.

Definition ngx_slab_page_type (page : Z) : SM Z := p ← sget sp_prev page; mret (Z.land p NGX_SLAB_PAGE_MASK).
Definition ngx_slab_page_prev (page : Z) : SM Z := p ← sget sp_prev page; mret (Z.land p (Z.lnot NGX_SLAB_PAGE_MASK)).
Definition ngx_slab_page_addr (page : Z) : SM Z :=
  gets (fun s => Z.shiftl ((page - p_pages s) / SIZEOF_PAGE) ps + p_start s).

(** [prev = ngx_slab_page_prev(page); prev->next = page->next; page->next->prev = page->prev] *)
Definition unlink (page : Z) : SM unit :=
  prev ← ngx_slab_page_prev page;
  n ← sget sp_next page;
  set_snext prev n;;
  n ← sget sp_next page;
  p ← sget sp_prev page;
  set_sprev n p.

(** ** Start *)

Definition ngx_align_ptr (p a : Z) : Z := Z.land (p + (a - 1)) (Z.lnot (a - 1)).

Definition zero_page : slab_page := mk_sp 0 0 0.

(** Addresses of [n] descriptors from [a]. *)
Definition descs (a n : Z) : list Z := (fun i : nat => page_at a (Z.of_nat i)) <$> seq 0 (Z.to_nat n).

Definition ngx_slab_init (addr end_ min_shift : Z) (words : Z -> Z) : slab_pool :=
  let slots := addr + SIZEOF_POOL in
  let free := addr + FREE_OFFSET in
  let n := ps - min_shift in
  let size := end_ - slots in
  let m0 := list_to_map ((fun a => (a, mk_sp 0 a 0)) <$> descs slots n) in
  let p := slots + n * SIZEOF_PAGE in
  let stats := replicate (Z.to_nat n) (mk_sstat 0 0 0 0) in
  let p := p + n * SIZEOF_STAT in
  let size := size - n * (SIZEOF_PAGE + SIZEOF_STAT) in
  let pages := size / (ngx_pagesize + SIZEOF_PAGE) in
  let m1 := list_to_map ((fun a => (a, zero_page)) <$> descs p pages) in
  let start := ngx_align_ptr (p + pages * SIZEOF_PAGE) ngx_pagesize in
  let m := i64 (pages - u64 (end_ - start) / ngx_pagesize) in
  let pages := if 0 <? m then pages - m else pages in
  mk_pool addr (2 ^ min_shift) min_shift p (page_at p pages) stats pages start end_
    (<[p := mk_sp pages free free]> (<[free := mk_sp 0 p 0]> (m1 ∪ m0))) words.

(** ** Pages *)

Fixpoint busy_loop (pages : nat) (p : Z) : SM unit :=
  match pages with
  | O => mret tt
  | S pages => sput p (fun _ => mk_sp NGX_SLAB_PAGE_BUSY SNULL NGX_SLAB_PAGE);; busy_loop pages (page_at p 1)
  end.

(** The rest of a longer run takes its place in the ring. *)
Definition split_run (page pages slab : Z) : SM unit :=
  set_sprev (page_at page (slab - 1)) (page_at page pages);;
  set_slab (page_at page pages) (slab - pages);;
  n ← sget sp_next page;
  set_snext (page_at page pages) n;;
  p ← sget sp_prev page;
  set_sprev (page_at page pages) p;;
  p ← sget sp_prev page;
  set_snext p (page_at page pages);;
  n ← sget sp_next page;
  set_sprev n (page_at page pages).

(** A run leaves the ring. *)
Definition unlink_run (page : Z) : SM unit :=
  p ← sget sp_prev page;
  n ← sget sp_next page;
  set_snext p n;;
  n ← sget sp_next page;
  p ← sget sp_prev page;
  set_sprev n p.

(** The body of the loop of [ngx_slab_alloc_pages] for a run that is long
    enough. *)
Definition take_pages (page pages : Z) : SM unit :=
  slab ← sget sp_slab page;
  (if pages <? slab then split_run page pages slab else unlink_run page);;
  sput page (fun _ => mk_sp (Z.lor pages NGX_SLAB_PAGE_START) SNULL NGX_SLAB_PAGE);;
  modify (fun s => s <| p_pfree := u64 (p_pfree s - pages) |>);;
  busy_loop (Z.to_nat (pages - 1)) (page_at page 1).

Fixpoint alloc_pages_loop (fuel : nat) (page pages : Z) : SM Z :=
  match fuel with
  | O => stuck
  | S fuel =>
    free ← gets p_free;
    if page =? free then mret SNULL
    else
      slab ← sget sp_slab page;
      if pages <=? slab then take_pages page pages;; mret page
      else
        n ← sget sp_next page;
        alloc_pages_loop fuel n pages
  end.

Definition ngx_slab_alloc_pages (pages : Z) : SM Z :=
  fuel ← gets (fun s => size (p_desc s));
  free ← gets p_free;
  page ← sget sp_next free;
  alloc_pages_loop fuel page pages.

Fixpoint zero_loop (n : nat) (p : Z) : SM unit :=
  match n with O => mret tt | S n => sput p (fun _ => zero_page);; zero_loop n (page_at p 1) end.

(** The run after [page] is joined to it; the result is [pages]. *)
Definition join_next (page pages : Z) : SM Z :=
  slab ← sget sp_slab page;
  let join := page_at page slab in
  last ← gets p_last;
  if join <? last then
    type ← ngx_slab_page_type join;
    if type =? NGX_SLAB_PAGE then
      n ← sget sp_next join;
      if negb (n =? SNULL) then
        js ← sget sp_slab join;
        set_slab page (slab + js);;
        unlink join;;
        sput join (fun _ => mk_sp NGX_SLAB_PAGE_FREE SNULL NGX_SLAB_PAGE);;
        mret (pages + js)
      else mret pages
    else mret pages
  else mret pages.

(** [page] is joined to the run before it; the result is [page] and [pages]. *)
Definition join_prev (page pages : Z) : SM (Z * Z) :=
  first ← gets p_pages;
  if first <? page then
    let join := page - SIZEOF_PAGE in
    type ← ngx_slab_page_type join;
    if type =? NGX_SLAB_PAGE then
      js ← sget sp_slab join;
      join ← (if js =? NGX_SLAB_PAGE_FREE then ngx_slab_page_prev join else mret join);
      n ← sget sp_next join;
      if negb (n =? SNULL) then
        js ← sget sp_slab join;
        slab ← sget sp_slab page;
        set_slab join (js + slab);;
        unlink join;;
        sput page (fun _ => mk_sp NGX_SLAB_PAGE_FREE SNULL NGX_SLAB_PAGE);;
        mret (join, pages + js)
      else mret (page, pages)
    else mret (page, pages)
  else mret (page, pages).

(** A run becomes the first of the ring. *)
Definition link_run (page : Z) : SM unit :=
  free ← gets p_free;
  set_sprev page free;;
  n ← sget sp_next free;
  set_snext page n;;
  n ← sget sp_next page;
  set_sprev n page;;
  set_snext free page.

Definition ngx_slab_free_pages (page pages : Z) : SM unit :=
  modify (fun s => s <| p_pfree := u64 (p_pfree s + pages) |>);;
  set_slab page pages;;
  let pages := pages - 1 in
  zero_loop (Z.to_nat pages) (page_at page 1);;
  n ← sget sp_next page;
  (if negb (n =? SNULL) then unlink page else mret tt);;
  pages ← join_next page pages;
  '(page, pages) ← join_prev page pages;
  (if negb (pages =? 0) then set_sprev (page_at page pages) page else mret tt);;
  link_run page.

(** ** Chunks *)

(** [for (m = .., i = 0; m & mask; m <<= 1, i++) { if (word & m) continue; .. }] *)
Fixpoint free_bit (fuel : nat) (word mask m i : Z) : option (Z * Z) :=
  match fuel with
  | O => None
  | S fuel =>
    if Z.land m mask =? 0 then None
    else if negb (Z.land word m =? 0) then free_bit fuel word mask (u64 (Z.shiftl m 1)) (i + 1)
    else Some (m, i)
  end.

(** The page is full: it leaves the ring of its slot. *)
Definition close_page (page type : Z) : SM unit :=
  unlink page;;
  sput page (fun c => c <| sp_next := SNULL |> <| sp_prev := type |>).

Fixpoint rest_busy (fuel : nat) (bitmap map n : Z) : SM bool :=
  match fuel with
  | O => stuck
  | S fuel =>
    if n <? map then
      w ← word (bitmap + 8 * n);
      if negb (w =? NGX_SLAB_BUSY) then mret false else rest_busy fuel bitmap map (n + 1)
    else mret true
  end.

Fixpoint small_words (fuel : nat) (page shift slot bitmap map n : Z) : SM (option Z) :=
  match fuel with
  | O => stuck
  | S fuel =>
    if n <? map then
      w ← word (bitmap + 8 * n);
      match (if w =? NGX_SLAB_BUSY then None else free_bit 65 w NGX_SLAB_BUSY 1 0) with
      | None => small_words fuel page shift slot bitmap map (n + 1)
      | Some (m, i) =>
        set_word (bitmap + 8 * n) (Z.lor w m);;
        let p := bitmap + Z.shiftl (n * 64 + i) shift in
        stat_add slot used_inc;;
        w ← word (bitmap + 8 * n);
        (if w =? NGX_SLAB_BUSY then
           all ← rest_busy fuel bitmap map (n + 1);
           if all : bool then close_page page NGX_SLAB_SMALL else mret tt
         else mret tt);;
        mret (Some p)
      end
    else mret None
  end.

Definition bitmap_words (shift : Z) : Z := Z.shiftr ngx_pagesize shift / 64.

Definition small_page (page shift slot : Z) : SM (option Z) :=
  bitmap ← ngx_slab_page_addr page;
  small_words (S (Z.to_nat (bitmap_words shift))) page shift slot bitmap (bitmap_words shift) 0.

Definition exact_page (page shift slot : Z) : SM (option Z) :=
  slab ← sget sp_slab page;
  match free_bit 65 slab NGX_SLAB_BUSY 1 0 with
  | None => mret None
  | Some (m, i) =>
    set_slab page (Z.lor slab m);;
    slab ← sget sp_slab page;
    (if slab =? NGX_SLAB_BUSY then close_page page NGX_SLAB_EXACT else mret tt);;
    a ← ngx_slab_page_addr page;
    stat_add slot used_inc;;
    mret (Some (a + Z.shiftl i shift))
  end.

Definition big_mask (shift : Z) : Z :=
  u64 (Z.shiftl (u64 (Z.shiftl 1 (Z.shiftr ngx_pagesize shift) - 1)) NGX_SLAB_MAP_SHIFT).

Definition big_page (page shift slot : Z) : SM (option Z) :=
  let mask := big_mask shift in
  slab ← sget sp_slab page;
  match free_bit 65 slab mask (Z.shiftl 1 NGX_SLAB_MAP_SHIFT) 0 with
  | None => mret None
  | Some (m, i) =>
    set_slab page (Z.lor slab m);;
    slab ← sget sp_slab page;
    (if Z.land slab NGX_SLAB_MAP_MASK =? mask then close_page page NGX_SLAB_BIG else mret tt);;
    a ← ngx_slab_page_addr page;
    stat_add slot used_inc;;
    mret (Some (a + Z.shiftl i shift))
  end.

(** The number of chunks the bitmap of a small page takes. *)
Definition bitmap_chunks (shift : Z) : Z :=
  let n := Z.shiftr ngx_pagesize shift / (Z.shiftl 1 shift * 8) in
  if n =? 0 then 1 else n.

(** [for (; i < to; i++) bitmap[i] = v] *)
Fixpoint fill_words (n : nat) (bitmap i v : Z) : SM unit :=
  match n with O => mret tt | S n => set_word (bitmap + 8 * i) v;; fill_words n bitmap (i + 1) v end.

(** [page->slab = ..; page->next = &slots[slot]; page->prev = &slots[slot] | type;
    slots[slot].next = page] *)
Definition open_page (page slab head type : Z) : SM unit :=
  sput page (fun _ => mk_sp slab head (Z.lor head type));;
  set_snext head page.

Definition new_small (page shift slot head : Z) : SM Z :=
  bitmap ← ngx_slab_page_addr page;
  let n := bitmap_chunks shift in
  let full := (n + 1) / 64 in
  fill_words (Z.to_nat full) bitmap 0 NGX_SLAB_BUSY;;
  set_word (bitmap + 8 * full) (u64 (Z.shiftl 1 ((n + 1) mod 64) - 1));;
  let map := bitmap_words shift in
  fill_words (Z.to_nat (map - (full + 1))) bitmap (full + 1) 0;;
  open_page page shift head NGX_SLAB_SMALL;;
  stat_add slot (total_add (Z.shiftr ngx_pagesize shift - n));;
  a ← ngx_slab_page_addr page;
  stat_add slot used_inc;;
  mret (a + Z.shiftl n shift).

Definition new_exact (page slot head : Z) : SM Z :=
  open_page page 1 head NGX_SLAB_EXACT;;
  stat_add slot (total_add 64);;
  a ← ngx_slab_page_addr page;
  stat_add slot used_inc;;
  mret a.

Definition new_big (page shift slot head : Z) : SM Z :=
  open_page page (Z.lor (Z.shiftl 1 NGX_SLAB_MAP_SHIFT) shift) head NGX_SLAB_BIG;;
  stat_add slot (total_add (Z.shiftr ngx_pagesize shift));;
  a ← ngx_slab_page_addr page;
  stat_add slot used_inc;;
  mret a.

(** [shift] and [slot] of a size. *)
Definition slab_shift (min_size min_shift size : Z) : Z * Z :=
  if min_size <? size then
    let shift := 1 + halvings 64 (size - 1) in (shift, shift - min_shift)
  else (min_shift, 0).

Definition alloc_chunk (size : Z) : SM Z :=
  min_size ← gets p_min_size;
  min_shift ← gets p_min_shift;
  let '(shift, slot) := slab_shift min_size min_shift size in
  stat_add slot reqs_inc;;
  slots ← gets ngx_slab_slots;
  let head := page_at slots slot in
  page ← sget sp_next head;
  pn ← sget sp_next page;
  r ← (if negb (pn =? page) then
         if shift <? ngx_slab_exact_shift then small_page page shift slot
         else if shift =? ngx_slab_exact_shift then exact_page page shift slot
         else big_page page shift slot
       else mret None);
  match r with
  | Some p => mret p
  | None =>
    page ← ngx_slab_alloc_pages 1;
    if negb (page =? SNULL) then
      if shift <? ngx_slab_exact_shift then new_small page shift slot head
      else if shift =? ngx_slab_exact_shift then new_exact page slot head
      else new_big page shift slot head
    else
      stat_add slot fails_inc;;
      mret 0
  end.

(** The pages for [size] bytes. *)
Definition pages_for (size : Z) : Z := Z.shiftr size ps + (if size mod ngx_pagesize =? 0 then 0 else 1).

Definition ngx_slab_alloc_locked (size : Z) : SM Z :=
  if ngx_slab_max_size <? size then
    page ← ngx_slab_alloc_pages (pages_for size);
    if negb (page =? SNULL) then ngx_slab_page_addr page else mret 0
  else alloc_chunk size.

(** [ngx_memzero(p, size)] on words. *)
Definition memzero (p size : Z) (w : Z -> Z) (a : Z) : Z :=
  if (p <=? a) && (a + 8 <=? p + size) then 0
  else if (p <=? a) && (a <? p + size) then Z.land (w a) (Z.lnot (Z.ones (8 * (p + size - a))))
  else w a.

Definition ngx_slab_calloc_locked (size : Z) : SM Z :=
  p ← ngx_slab_alloc_locked size;
  (if negb (p =? 0) then modify (fun s => s <| p_words := memzero p size (p_words s) |>) else mret tt);;
  mret p.

(** ** Releasing *)

(** What [ngx_slab_free] logs. *)
Inductive free_res : Set := FreeDone | OutsideOfPool | WrongChunk | ChunkFree | PageFree | WrongPage.

(** A full page goes back to the ring of its slot. *)
Definition reopen_page (page slot type : Z) : SM unit :=
  slots ← gets ngx_slab_slots;
  let head := page_at slots slot in
  n ← sget sp_next head;
  set_snext page n;;
  set_snext head page;;
  set_sprev page (Z.lor head type);;
  n ← sget sp_next page;
  set_sprev n (Z.lor page type).

Fixpoint rest_free (fuel : nat) (bitmap map i : Z) : SM bool :=
  match fuel with
  | O => stuck
  | S fuel =>
    if i <? map then
      w ← word (bitmap + 8 * i);
      if negb (w =? 0) then mret false else rest_free fuel bitmap map (i + 1)
    else mret true
  end.

Definition free_small (page slab p : Z) : SM free_res :=
  let shift := Z.land slab NGX_SLAB_SHIFT_MASK in
  let size := Z.shiftl 1 shift in
  if negb (Z.land p (size - 1) =? 0) then mret WrongChunk
  else
    let n := Z.shiftr (Z.land p (ngx_pagesize - 1)) shift in
    let m := Z.shiftl 1 (n mod 64) in
    let n := n / 64 in
    let bitmap := Z.land p (Z.lnot (ngx_pagesize - 1)) in
    w ← word (bitmap + 8 * n);
    if negb (Z.land w m =? 0) then
      min_shift ← gets p_min_shift;
      let slot := shift - min_shift in
      pn ← sget sp_next page;
      (if pn =? SNULL then reopen_page page slot NGX_SLAB_SMALL else mret tt);;
      set_word (bitmap + 8 * n) (Z.land w (Z.lnot m));;
      let n := bitmap_chunks shift in
      let i := n / 64 in
      let m := Z.shiftl 1 (n mod 64) - 1 in
      w ← word (bitmap + 8 * i);
      if negb (Z.land w (Z.lnot m) =? 0) then stat_add slot used_dec;; mret FreeDone
      else
        let map := bitmap_words shift in
        all ← rest_free (S (Z.to_nat map)) bitmap map (i + 1);
        if all : bool then
          ngx_slab_free_pages page 1;;
          stat_add slot (total_sub (Z.shiftr ngx_pagesize shift - n));;
          stat_add slot used_dec;; mret FreeDone
        else stat_add slot used_dec;; mret FreeDone
    else mret ChunkFree.

Definition free_exact (page slab p : Z) : SM free_res :=
  let m := Z.shiftl 1 (Z.shiftr (Z.land p (ngx_pagesize - 1)) ngx_slab_exact_shift) in
  if negb (Z.land p (ngx_slab_exact_size - 1) =? 0) then mret WrongChunk
  else if negb (Z.land slab m =? 0) then
    min_shift ← gets p_min_shift;
    let slot := ngx_slab_exact_shift - min_shift in
    (if slab =? NGX_SLAB_BUSY then reopen_page page slot NGX_SLAB_EXACT else mret tt);;
    set_slab page (Z.land slab (Z.lnot m));;
    slab ← sget sp_slab page;
    if negb (slab =? 0) then stat_add slot used_dec;; mret FreeDone
    else
      ngx_slab_free_pages page 1;;
      stat_add slot (total_sub 64);;
      stat_add slot used_dec;; mret FreeDone
  else mret ChunkFree.

Definition free_big (page slab p : Z) : SM free_res :=
  let shift := Z.land slab NGX_SLAB_SHIFT_MASK in
  let size := Z.shiftl 1 shift in
  if negb (Z.land p (size - 1) =? 0) then mret WrongChunk
  else
    let m := Z.shiftl 1 (Z.shiftr (Z.land p (ngx_pagesize - 1)) shift + NGX_SLAB_MAP_SHIFT) in
    if negb (Z.land slab m =? 0) then
      min_shift ← gets p_min_shift;
      let slot := shift - min_shift in
      pn ← sget sp_next page;
      (if pn =? SNULL then reopen_page page slot NGX_SLAB_BIG else mret tt);;
      set_slab page (Z.land slab (Z.lnot m));;
      slab ← sget sp_slab page;
      if negb (Z.land slab NGX_SLAB_MAP_MASK =? 0) then stat_add slot used_dec;; mret FreeDone
      else
        ngx_slab_free_pages page 1;;
        stat_add slot (total_sub (Z.shiftr ngx_pagesize shift));;
        stat_add slot used_dec;; mret FreeDone
    else mret ChunkFree.

Definition free_page (page slab p : Z) : SM free_res :=
  if negb (Z.land p (ngx_pagesize - 1) =? 0) then mret WrongChunk
  else if Z.land slab NGX_SLAB_PAGE_START =? 0 then mret PageFree
  else if slab =? NGX_SLAB_PAGE_BUSY then mret WrongPage
  else ngx_slab_free_pages page (Z.land slab (Z.lnot NGX_SLAB_PAGE_START));; mret FreeDone.

Definition ngx_slab_free_locked (p : Z) : SM free_res :=
  start ← gets p_start;
  end_ ← gets p_end;
  if (p <? start) || (end_ <? p) then mret OutsideOfPool
  else
    pages ← gets p_pages;
    let page := page_at pages (Z.shiftr (p - start) ps) in
    slab ← sget sp_slab page;
    type ← ngx_slab_page_type page;
    if type =? NGX_SLAB_SMALL then free_small page slab p
    else if type =? NGX_SLAB_EXACT then free_exact page slab p
    else if type =? NGX_SLAB_BIG then free_big page slab p
    else free_page page slab p.

End Slab.
