(* ===== verification/SlabRing.v ===== *)
(** * Rings of page descriptors

    The lists of [Slab] go from their head through [next] and back to it; [prev]
    of a page is the one before it with the type of the page in its low bits.
    [prev] of a head is never read.  What other code keeps of a memory is said
    field by field ([keeps]). *)

From stdpp Require Import gmap.
From S2P Require Import Prelude Slab.

Abbreviation mem := (gmap Z slab_page).

Definition nxt (m : mem) (a : Z) : option Z := sp_next <$> m !! a.
Definition prv (m : mem) (a : Z) : option Z := sp_prev <$> m !! a.
Definition slb (m : mem) (a : Z) : option Z := sp_slab <$> m !! a.

Definition with_desc (s : slab_pool) (m : mem) : slab_pool := s <| p_desc := m |>.

(** ** Running code *)

Lemma run_bind {A B} (x : SM A) (k : A -> SM B) s a s' : x s = Some (a, s') -> (x ≫= k) s = k a s'.
Proof. intros E. unfold mbind, SM_bind. by rewrite E. Qed.

Lemma run_gets {A B} (f : slab_pool -> A) (k : A -> SM B) s : (gets f ≫= k) s = k (f s) s.
Proof. done. Qed.

Lemma run_modify {B} f (k : unit -> SM B) s : (modify f ≫= k) s = k tt (f s).
Proof. done. Qed.

Lemma run_assoc {A B C} (x : SM A) (f : A -> SM B) (g : B -> SM C) s : ((x ≫= f) ≫= g) s = (x ≫= (fun a => f a ≫= g)) s.
Proof. unfold mbind, SM_bind. by destruct (x s) as [[a s']|]. Qed.

Lemma run_ret {A B} (a : A) (k : A -> SM B) s : (mret a ≫= k) s = k a s.
Proof. done. Qed.

Lemma run_nxt {B} a v (k : Z -> SM B) s : nxt (p_desc s) a = Some v -> (sget sp_next a ≫= k) s = k v s.
Proof. unfold nxt, sget, mbind, SM_bind. destruct (p_desc s !! a); [|done]. by intros [= ->]. Qed.

Lemma run_prv {B} a v (k : Z -> SM B) s : prv (p_desc s) a = Some v -> (sget sp_prev a ≫= k) s = k v s.
Proof. unfold prv, sget, mbind, SM_bind. destruct (p_desc s !! a); [|done]. by intros [= ->]. Qed.

Lemma run_slb {B} a v (k : Z -> SM B) s : slb (p_desc s) a = Some v -> (sget sp_slab a ≫= k) s = k v s.
Proof. unfold slb, sget, mbind, SM_bind. destruct (p_desc s !! a); [|done]. by intros [= ->]. Qed.

Lemma nxt_dom m a v : nxt m a = Some v -> a ∈ dom m.
Proof. unfold nxt. rewrite elem_of_dom. destruct (m !! a); [by eexists|done]. Qed.

Lemma slb_dom m a v : slb m a = Some v -> a ∈ dom m.
Proof. unfold slb. rewrite elem_of_dom. destruct (m !! a); [by eexists|done]. Qed.

Lemma cell_fields m a c : m !! a = Some c <-> slb m a = Some (sp_slab c) /\ nxt m a = Some (sp_next c) /\ prv m a = Some (sp_prev c).
Proof.
  unfold slb, nxt, prv. destruct (m !! a) as [[x y z]|]; cbn; [|naive_solver]. destruct c as [x' y' z']. cbn.
  split; [by intros [= -> -> ->]|]. by intros ([= ->] & [= ->] & [= ->]).
Qed.

(** ** What stays of a memory *)

Record keeps (m m' : mem) (N P S : list Z) : Prop := {
  k_nxt : forall x, x ∉ N -> nxt m' x = nxt m x;
  k_prv : forall x, x ∉ P -> prv m' x = prv m x;
  k_slb : forall x, x ∉ S -> slb m' x = slb m x;
  k_dom : dom m' = dom m
}.

Lemma keeps_refl m N P S : keeps m m N P S.
Proof. done. Qed.

Lemma keeps_trans m1 m2 m3 N P S N' P' S' :
  keeps m1 m2 N P S -> keeps m2 m3 N' P' S' -> keeps m1 m3 (N ++ N') (P ++ P') (S ++ S').
Proof.
  intros [a1 a2 a3 a4] [b1 b2 b3 b4]. split; [..|congruence]; intros x [H1 H2]%not_elem_of_app; [by rewrite b1, a1|by rewrite b2, a2|by rewrite b3, a3].
Qed.

Lemma keeps_sub m m' N P S N' P' S' :
  keeps m m' N P S -> (forall x, x ∈ N -> x ∈ N') -> (forall x, x ∈ P -> x ∈ P') -> (forall x, x ∈ S -> x ∈ S') -> keeps m m' N' P' S'.
Proof. intros [a b c d] HN HP HS. split; [..|done]; intros x Hx; [apply a|apply b|apply c]; auto. Qed.

Lemma run_put {B} a g (k : unit -> SM B) s : a ∈ dom (p_desc s) ->
  exists c, p_desc s !! a = Some c /\ (sput a g ≫= k) s = k tt (with_desc s (<[a := g c]> (p_desc s))).
Proof. intros [c Hc]%elem_of_dom. exists c. split; [done|]. unfold sput, mbind, SM_bind. by rewrite Hc. Qed.

Lemma keeps_insert m a c c' : m !! a = Some c ->
  keeps m (<[a := c']> m) (if bool_decide (sp_next c' = sp_next c) then [] else [a])
    (if bool_decide (sp_prev c' = sp_prev c) then [] else [a]) (if bool_decide (sp_slab c' = sp_slab c) then [] else [a]).
Proof.
  intros Hc. unfold nxt, prv, slb. split.
  1-3: intros x Hx; unfold nxt, prv, slb; destruct (decide (x = a)) as [->|Hne]; [|by rewrite lookup_insert_ne];
    rewrite lookup_insert_eq, Hc; cbn; case_bool_decide; [congruence|]; exfalso; apply Hx; by left.
  rewrite dom_insert_L. apply elem_of_dom_2 in Hc. set_solver.
Qed.

Lemma run_set_next {B} a v (k : unit -> SM B) s : a ∈ dom (p_desc s) ->
  exists m', (set_snext a v ≫= k) s = k tt (with_desc s m') /\ nxt m' a = Some v /\ keeps (p_desc s) m' [a] [] [].
Proof.
  intros Ha. destruct (run_put a (fun c => c <| sp_next := v |>) k s Ha) as (c & Hc & E). eexists. split; [exact E|]. split.
  - unfold nxt. by rewrite lookup_insert_eq.
  - eapply keeps_sub; [by apply keeps_insert|..]; cbn; intros x; repeat case_bool_decide; try done; set_solver.
Qed.

Lemma run_set_prev {B} a v (k : unit -> SM B) s : a ∈ dom (p_desc s) ->
  exists m', (set_sprev a v ≫= k) s = k tt (with_desc s m') /\ prv m' a = Some v /\ keeps (p_desc s) m' [] [a] [].
Proof.
  intros Ha. destruct (run_put a (fun c => c <| sp_prev := v |>) k s Ha) as (c & Hc & E). eexists. split; [exact E|]. split.
  - unfold prv. by rewrite lookup_insert_eq.
  - eapply keeps_sub; [by apply keeps_insert|..]; cbn; intros x; repeat case_bool_decide; try done; set_solver.
Qed.

Lemma run_set_slab {B} a v (k : unit -> SM B) s : a ∈ dom (p_desc s) ->
  exists m', (set_slab a v ≫= k) s = k tt (with_desc s m') /\ slb m' a = Some v /\ keeps (p_desc s) m' [] [] [a].
Proof.
  intros Ha. destruct (run_put a (fun c => c <| sp_slab := v |>) k s Ha) as (c & Hc & E). eexists. split; [exact E|]. split.
  - unfold slb. by rewrite lookup_insert_eq.
  - eapply keeps_sub; [by apply keeps_insert|..]; cbn; intros x; repeat case_bool_decide; try done; set_solver.
Qed.

Lemma run_set_cell {B} a c' (k : unit -> SM B) s : a ∈ dom (p_desc s) ->
  exists m', (sput a (fun _ => c') ≫= k) s = k tt (with_desc s m') /\ m' !! a = Some c' /\ keeps (p_desc s) m' [a] [a] [a].
Proof.
  intros Ha. destruct (run_put a (fun _ => c') k s Ha) as (c & Hc & E). eexists. split; [exact E|]. split; [by rewrite lookup_insert_eq|].
  eapply keeps_sub; [by apply keeps_insert|..]; cbn; intros x; repeat case_bool_decide; try done; set_solver.
Qed.

(** ** Types in the low bits *)

Lemma land_mask x : Z.land x NGX_SLAB_PAGE_MASK = x mod 4.
Proof. change NGX_SLAB_PAGE_MASK with (Z.ones 2). by rewrite Z.land_ones. Qed.

Lemma land_not_mask x : Z.land x (Z.lnot NGX_SLAB_PAGE_MASK) = x - x mod 4.
Proof.
  rewrite <- Z.ldiff_land. change NGX_SLAB_PAGE_MASK with (Z.ones 2). rewrite Z.ldiff_ones_r by lia.
  rewrite Z.shiftl_mul_pow2, Z.shiftr_div_pow2 by lia. change (2 ^ 2) with 4. pose proof (Z.div_mod x 4). lia.
Qed.

Lemma tag_add a t : (4 | a) -> 0 <= t < 4 -> Z.lor a t = a + t.
Proof. intros [k ->] Ht. change (k * 4) with (k * 2 ^ 2). rewrite <- Z.shiftl_mul_pow2 by lia. rewrite lor_shiftl_add by lia. rewrite Z.shiftl_mul_pow2 by lia. done. Qed.

Lemma tag_type a t : (4 | a) -> 0 <= t < 4 -> Z.land (Z.lor a t) NGX_SLAB_PAGE_MASK = t.
Proof. intros Ha Ht. rewrite tag_add, land_mask by done. destruct Ha as [k ->]. rewrite Z.add_comm, Z.mod_add by lia. by apply Z.mod_small. Qed.

Lemma tag_ptr a t : (4 | a) -> 0 <= t < 4 -> Z.land (Z.lor a t) (Z.lnot NGX_SLAB_PAGE_MASK) = a.
Proof.
  intros Ha Ht. rewrite tag_add, land_not_mask by done. destruct Ha as [k ->]. rewrite (Z.add_comm (k * 4)), Z.mod_add by lia.
  rewrite (Z.mod_small t) by lia. lia.
Qed.

(** ** Rings *)

Fixpoint dlinked (m : mem) (t p : Z) (l : list Z) (q : Z) : Prop :=
  match l with
  | [] => nxt m p = Some q
  | x :: l' => nxt m p = Some x /\ prv m x = Some (Z.lor p t) /\ dlinked m t x l' q
  end.

(** All addresses are those of descriptors. *)
Record dring (m : mem) (t h : Z) (l : list Z) : Prop := {
  dr_nodup : NoDup (h :: l);
  dr_links : dlinked m t h l h;
  dr_align : forall x, x ∈ h :: l -> (4 | x)
}.

Lemma dlinked_app m t p l1 x l2 q : dlinked m t p (l1 ++ x :: l2) q <->
  dlinked m t p l1 x /\ prv m x = Some (Z.lor (default p (last l1)) t) /\ dlinked m t x l2 q.
Proof.
  revert p; induction l1 as [|y l1 IH]; intros p; cbn; [tauto|]. rewrite IH. replace (default p (last (y :: l1))) with (default y (last l1)).
  - tauto.
  - rewrite last_cons. by destruct (last l1).
Qed.

Lemma dlinked_frame m m' t p l q :
  dlinked m t p l q -> (forall x, x ∈ p :: l -> nxt m' x = nxt m x) -> (forall x, x ∈ l -> prv m' x = prv m x) -> dlinked m' t p l q.
Proof.
  revert p; induction l as [|x l IH]; intros p; cbn.
  - intros H Hn _. rewrite Hn by (by left). done.
  - intros (H1 & H2 & H3) Hn Hp. rewrite Hn, Hp by (by left). split; [done|]. split; [done|].
    apply IH; [done|intros y Hy; apply Hn; by right|intros y Hy; apply Hp; by right].
Qed.

Lemma dring_keeps m m' t h l N P S :
  dring m t h l -> keeps m m' N P S -> (forall x, x ∈ N -> x ∉ h :: l) -> (forall x, x ∈ P -> x ∉ l) -> dring m' t h l.
Proof.
  intros [H1 H2 H3] HK HN HP. split; [done| |done]. eapply dlinked_frame; [done|..]; intros x Hx.
  - apply (k_nxt _ _ _ _ _ HK). intros Hx'. by apply (HN x).
  - apply (k_prv _ _ _ _ _ HK). intros Hx'. by apply (HP x).
Qed.

Lemma dlinked_head m t p l q : dlinked m t p l q -> nxt m p = Some (default q (head l)).
Proof. by destruct l; [|intros [? _]]. Qed.

Lemma dlinked_last m t p l q : dlinked m t p l q -> nxt m (default p (last l)) = Some q.
Proof.
  revert p; induction l as [|x l IH]; intros p; [done|]. intros (_ & _ & H). rewrite last_cons. specialize (IH x H).
  by destruct (last l).
Qed.

Lemma dlinked_dom m t p l q x : dlinked m t p l q -> x ∈ p :: l -> x ∈ dom m.
Proof.
  revert p; induction l as [|y l IH]; intros p H Hx.
  - apply list_elem_of_singleton in Hx as ->. by eapply nxt_dom.
  - destruct H as (H1 & _ & H2). apply elem_of_cons in Hx as [->|Hx]; [by eapply nxt_dom|]. by eapply IH.
Qed.

Lemma run_ret_r {A} (x : SM A) s : (x ≫= mret) s = x s.
Proof. unfold mbind, SM_bind, mret, SM_ret. by destruct (x s) as [[]|]. Qed.

(** The links of a list without the last [next]. *)
Fixpoint dback (m : mem) (t p : Z) (l : list Z) : Prop :=
  match l with [] => True | x :: l' => nxt m p = Some x /\ prv m x = Some (Z.lor p t) /\ dback m t x l' end.

Lemma default_last_cons p (x : Z) l : default p (last (x :: l)) = default x (last l).
Proof. rewrite last_cons. by destruct (last l). Qed.

Lemma dlinked_back m t p l q : dlinked m t p l q <-> dback m t p l /\ nxt m (default p (last l)) = Some q.
Proof. revert p; induction l as [|x l IH]; intros p; [cbn; tauto|]. cbn [dlinked dback]. rewrite IH, default_last_cons. tauto. Qed.

Lemma dback_app m t p l1 l2 : dback m t p (l1 ++ l2) <-> dback m t p l1 /\ dback m t (default p (last l1)) l2.
Proof. revert p; induction l1 as [|x l1 IH]; intros p; [cbn; tauto|]. cbn [app dback]. rewrite IH, default_last_cons. tauto. Qed.

Lemma last_elem h (l : list Z) : default h (last l) ∈ h :: l.
Proof. destruct (last l) as [w|] eqn:E; [right; by apply last_Some_elem_of in E|by left]. Qed.

Lemma head_elem h (l : list Z) : default h (head l) ∈ h :: l.
Proof. destruct l as [|w l]; [by left|right; by left]. Qed.

Lemma dback_frame m m' t p l :
  dback m t p l -> NoDup (p :: l) -> (forall x, x ∈ p :: l -> x <> default p (last l) -> nxt m' x = nxt m x) ->
  (forall x, x ∈ l -> prv m' x = prv m x) -> dback m' t p l.
Proof.
  revert p; induction l as [|x l IH]; intros p; [done|]. intros (H1 & H2 & H3) [Hp Hnd]%NoDup_cons Hn Hv. rewrite default_last_cons in Hn. cbn [dback].
  assert (Hne : p <> default x (last l)).
  { intros E. apply Hp. rewrite E. apply last_elem. }
  rewrite (Hn p), (Hv x) by (done || by left). split_and!; [done..|]. apply IH; [done..| |].
  - intros y Hy Hl. apply Hn; [by right|done].
  - intros y Hy. apply Hv. by right.
Qed.

(** A part of a ring replaced by another one. *)
Lemma dring_subst m m' t h l1 k k' l2 S :
  dring m t h (l1 ++ k ++ l2) -> NoDup (h :: l1 ++ k' ++ l2) -> (forall x, x ∈ k' -> (4 | x)) ->
  dlinked m' t (default h (last l1)) k' (default h (head l2)) ->
  (forall y, head l2 = Some y -> prv m' y = Some (Z.lor (default (default h (last l1)) (last k')) t)) ->
  keeps m m' (default h (last l1) :: k') (default h (head l2) :: k') S -> dring m' t h (l1 ++ k' ++ l2).
Proof.
  intros [Hnd0 HL Ha] Hnd Hk Hnew Hq HK. set (p := default h (last l1)) in *. set (q := default h (head l2)) in *.
  assert (Hp : p ∈ h :: l1) by apply last_elem. assert (Hq' : q ∈ h :: l2) by apply head_elem.
  assert (Hn1 : NoDup ((h :: l1) ++ k' ++ l2)) by done. apply NoDup_app in Hn1 as (Hn1 & Hd1 & (_ & Hd2 & Hn2)%NoDup_app).
  assert (Hd1' : forall x, x ∈ h :: l1 -> x ∉ l2) by (intros x Hx Hx2; apply (Hd1 x Hx), elem_of_app; by right).
  apply dlinked_back in HL as [HB HZ]. rewrite !dback_app in HB. destruct HB as (HB1 & _ & HB2).
  apply dlinked_back in Hnew as [Hnew Hnq]. fold p in HB2. set (p' := default p (last k')) in *.
  split; [done| |].
  - apply dlinked_back. rewrite !dback_app. fold p. fold p'. split_and!; [|done| |].
    + eapply dback_frame; [exact HB1|done|..]; intros x Hx.
      * intros Hx2. fold p in Hx2. apply (k_nxt _ _ _ _ _ HK). intros [->|Hxk]%elem_of_cons; [done|]. apply (Hd1 x Hx), elem_of_app. by left.
      * apply (k_prv _ _ _ _ _ HK). intros [->|Hxk]%elem_of_cons.
        -- apply elem_of_cons in Hq' as [E|Hq']; [|apply (Hd1' q); [by right|done]]. rewrite E in Hx. by apply NoDup_cons in Hn1 as [? _].
        -- apply (Hd1 x); [by right|apply elem_of_app; by left].
    + destruct l2 as [|y l2]; [done|]. cbn in q |- *. split; [exact Hnq|]. split; [by apply Hq|]. destruct HB2 as (_ & _ & HB2).
      pose proof Hn2 as [Hy _]%NoDup_cons. eapply dback_frame; [exact HB2|done|..]; intros x Hx.
      * intros _. apply (k_nxt _ _ _ _ _ HK). intros [->|Hxk]%elem_of_cons; [by apply (Hd1' p)|by apply (Hd2 x)].
      * apply (k_prv _ _ _ _ _ HK). intros [->|Hxk]%elem_of_cons; [done|]. apply (Hd2 x); [done|by right].
    + destruct l2 as [|y l2].
      * rewrite app_nil_r, last_app. unfold p', p in Hnq. cbn in q. fold q. destruct (last k'); [exact Hnq|]. destruct (last l1); exact Hnq.
      * rewrite !last_app, last_cons in HZ |- *. destruct (last l2) as [z|] eqn:El; cbn in HZ |- *; rewrite (k_nxt _ _ _ _ _ HK); try done.
        -- apply last_Some_elem_of in El. rewrite not_elem_of_cons. split.
           ++ intros E. unfold id in E. rewrite E in El. apply (Hd1' p); [done|by right].
           ++ intros Hz. apply (Hd2 z); [done|by right].
        -- rewrite not_elem_of_cons. split; [|intros Hz; apply (Hd2 y); [done|by left]].
           intros E. unfold id in E. rewrite E in Hd1'. apply (Hd1' p); [done|by left].
  - intros x. rewrite !elem_of_cons, !elem_of_app. intros [->|[Hx|[Hx|Hx]]]; [apply Ha; by left|..| |]; try (by apply Hk);
      apply Ha; rewrite !elem_of_cons, !elem_of_app; tauto.
Qed.

Lemma keeps_step m1 m2 m3 N P S N' P' S' N2 P2 S2 :
  keeps m1 m2 N P S -> keeps m2 m3 N' P' S' ->
  (forall x, x ∈ N ++ N' -> x ∈ N2) -> (forall x, x ∈ P ++ P' -> x ∈ P2) -> (forall x, x ∈ S ++ S' -> x ∈ S2) -> keeps m1 m3 N2 P2 S2.
Proof. intros H1 H2 HN HP HS. eapply keeps_sub; [by eapply keeps_trans|..]; done. Qed.

Lemma dring_dom m t h l x : dring m t h l -> x ∈ h :: l -> x ∈ dom m.
Proof. intros HR Hx. by eapply dlinked_dom; [apply (dr_links _ _ _ _ HR)|]. Qed.

(** Where [x] is linked. *)
Lemma dring_at m t h l1 x l2 : dring m t h (l1 ++ x :: l2) ->
  prv m x = Some (Z.lor (default h (last l1)) t) /\ nxt m x = Some (default h (head l2))
  /\ default h (last l1) <> x /\ default h (head l2) <> x /\ (4 | default h (last l1)).
Proof.
  intros HR. pose proof (dr_links _ _ _ _ HR) as HL.
  apply dlinked_app in HL as (_ & Hp & HL2). split; [done|]. split; [by apply (dlinked_head _ t)|].
  assert (Hnd := dr_nodup _ _ _ _ HR). apply NoDup_cons in Hnd as [Hh (_ & Hd & [Hx _]%NoDup_cons)%NoDup_app].
  assert (Hl := last_elem h l1). assert (Hq := head_elem h l2). rewrite not_elem_of_app, not_elem_of_cons in Hh. split_and!.
  - intros E. rewrite E in Hl. apply elem_of_cons in Hl as [->|Hl]; [naive_solver|]. apply (Hd x Hl). by left.
  - intros E. rewrite E in Hq. apply elem_of_cons in Hq as [->|Hq]; naive_solver.
  - apply (dr_align _ _ _ _ HR). revert Hl. rewrite !elem_of_cons, elem_of_app. tauto.
Qed.

(** Reading a field, and the domain, after a chain of writes. *)
Ltac notin :=
  try (apply not_elem_of_nil); rewrite ?not_elem_of_cons, ?list_elem_of_singleton; split_and?;
  solve [apply not_elem_of_nil | done | congruence | lia].

Ltac fld_step :=
  match goal with
  | K : keeps _ ?m' _ _ _ |- nxt ?m' _ = _ => rewrite (k_nxt _ _ _ _ _ K) by notin
  | K : keeps _ ?m' _ _ _ |- prv ?m' _ = _ => rewrite (k_prv _ _ _ _ _ K) by notin
  | K : keeps _ ?m' _ _ _ |- slb ?m' _ = _ => rewrite (k_slb _ _ _ _ _ K) by notin
  | K : keeps _ ?m' _ _ _ |- _ ∈ dom ?m' => rewrite (k_dom _ _ _ _ _ K)
  end.

Ltac fld := cbn [p_desc with_desc upd]; repeat (first [eassumption | fld_step]).

(** The next write or read of a run. *)
Tactic Notation "write" simple_intropattern(P) :=
  match goal with
  | |- context [@mbind SM _ _ _ ?k (set_snext ?a ?v) ?s] => destruct (run_set_next a v k s) as P
  | |- context [@mbind SM _ _ _ ?k (set_sprev ?a ?v) ?s] => destruct (run_set_prev a v k s) as P
  | |- context [@mbind SM _ _ _ ?k (set_slab ?a ?v) ?s] => destruct (run_set_slab a v k s) as P
  | |- context [@mbind SM _ _ _ ?k (sput ?a (fun _ => ?c)) ?s] => destruct (run_set_cell a c k s) as P
  end; [by fld|match goal with E : @mbind SM _ _ _ _ _ _ = _ |- _ => rewrite E; clear E end; cbn [p_desc with_desc upd] in *].

Ltac read := first [erewrite run_nxt; [|by fld] | erewrite run_prv; [|by fld] | erewrite run_slb; [|by fld]].

(** Inclusion of short lists. *)
Ltac incl := cbn; intros ?; rewrite ?elem_of_cons, ?elem_of_nil; clear; tauto.

Section Run.
Context (s : slab_pool).
#[local] Abbreviation m := (p_desc s).

Lemma unlink_spec t h l1 x l2 :
  dring m t h (l1 ++ x :: l2) -> 0 <= t < 4 ->
  exists m', unlink x s = Some (tt, with_desc s m') /\ dring m' t h (l1 ++ l2)
    /\ keeps m m' [default h (last l1)] [default h (head l2)] [].
Proof.
  intros HR Ht. destruct (dring_at _ _ _ _ _ _ HR) as (Hp & Hn & Hne1 & Hne2 & Hal).
  set (p := default h (last l1)) in *. set (q := default h (head l2)) in *.
  assert (Hpd : p ∈ dom m).
  { apply (dring_dom _ _ _ _ _ HR). assert (Hl := last_elem h l1). revert Hl. fold p. rewrite !elem_of_cons, elem_of_app. tauto. }
  assert (Hqd : q ∈ dom m).
  { apply (dring_dom _ _ _ _ _ HR). assert (Hl := head_elem h l2). revert Hl. fold q. rewrite !elem_of_cons, elem_of_app, elem_of_cons. tauto. }
  unfold unlink, ngx_slab_page_prev. rewrite run_assoc, (run_prv _ _ _ _ Hp), run_ret, tag_ptr, (run_nxt _ _ _ _ Hn) by done.
  destruct (run_set_next p q (fun _ => n ← sget sp_next x; v ← sget sp_prev x; set_sprev n v) s Hpd) as (m1 & E1 & N1 & K1). rewrite E1.
  assert (Hn1 : nxt m1 x = Some q) by (rewrite (k_nxt _ _ _ _ _ K1); [done|]; rewrite list_elem_of_singleton; congruence).
  assert (Hp1 : prv m1 x = Some (Z.lor p t)) by (rewrite (k_prv _ _ _ _ _ K1); [done|]; by apply not_elem_of_nil).
  rewrite (run_nxt x q _ (with_desc s m1) Hn1), (run_prv x _ _ (with_desc s m1) Hp1), <- run_ret_r.
  destruct (run_set_prev q (Z.lor p t) mret (with_desc s m1)) as (m2 & E2 & P2 & K2); [cbn; by rewrite (k_dom _ _ _ _ _ K1)|].
  exists m2. split; [exact E2|]. assert (HK : keeps m m2 [p] [q] []) by (eapply keeps_step; [exact K1|exact K2|done..]).
  split; [|done]. apply (dring_subst m m2 t h l1 [x] [] l2 []); [done| | | |intros y Hy|done].
  - assert (Hnd := dr_nodup _ _ _ _ HR). eapply (sublist_NoDup _ _ Hnd). apply sublist_skip, sublist_app; [done|by apply sublist_cons].
  - intros y Hy. by apply elem_of_nil in Hy.
  - cbn. rewrite (k_nxt _ _ _ _ _ K2); [exact N1|]. apply not_elem_of_nil.
  - replace q with y in P2; [done|]. unfold q. by rewrite Hy.
Qed.

(** A page put first: code that ends with these links. *)
Lemma dring_push m' t h l x S :
  dring m t h l -> x ∉ h :: l -> (4 | x) -> nxt m' h = Some x -> prv m' x = Some (Z.lor h t) -> nxt m' x = Some (default h (head l)) ->
  (forall y, head l = Some y -> prv m' y = Some (Z.lor x t)) ->
  keeps m m' [h; x] [default h (head l); x] S -> dring m' t h (x :: l).
Proof.
  intros HR Hx Ha H1 H2 H3 H4 HK. apply (dring_subst m m' t h [] [] [x] l S); [done| | | |done|done].
  - cbn. assert (Hp : h :: x :: l ≡ₚ x :: h :: l) by solve_Permutation. rewrite Hp. constructor; [done|by eapply dr_nodup].
  - by intros y ->%list_elem_of_singleton.
  - cbn. by split_and!.
Qed.

Lemma reopen_spec slot t l x :
  let h := page_at (ngx_slab_slots s) slot in
  dring m t h l -> x ∉ h :: l -> x ∈ dom m -> (4 | x) ->
  exists m', reopen_page x slot t s = Some (tt, with_desc s m') /\ dring m' t h (x :: l) /\ keeps m m' [h; x] [default h (head l); x] [].
Proof.
  intros h HR Hx Hd Ha. assert (Hn := dlinked_head _ _ _ _ _ (dr_links _ _ _ _ HR)). pose proof Hx as [Hxh Hxl]%not_elem_of_cons.
  unfold reopen_page. rewrite run_gets. fold h. read. set (q := default h (head l)) in *.
  assert (Hqd : q ∈ dom m) by (apply (dring_dom _ _ _ _ _ HR), head_elem).
  assert (Hhd : h ∈ dom m) by (apply (dring_dom _ _ _ _ _ HR); by left).
  assert (Hqx : q <> x) by (intros E; apply Hx; rewrite <- E; apply head_elem).
  write (m1 & E & N1 & K1). write (m2 & E & N2 & K2).
  write (m3 & E & P3 & K3). read. rewrite <- run_ret_r.
  write (m4 & E & P4 & K4). exists m4. split; [done|].
  assert (HK : keeps m m4 [h; x] [q; x] []).
  { eapply keeps_sub; [eapply keeps_trans; [exact K1|eapply keeps_trans; [exact K2|eapply keeps_trans; [exact K3|exact K4]]]|..]; incl. }
  split; [|done]. eapply dring_push; [done..|fld|fld|fld| |exact HK].
  intros y Hy. replace y with q; [done|]. unfold q. by rewrite Hy.
Qed.

Lemma open_spec t h x slab :
  dring m t h [] -> x <> h -> x ∈ dom m -> (4 | x) ->
  exists m', open_page x slab h t s = Some (tt, with_desc s m') /\ dring m' t h [x] /\ slb m' x = Some slab /\ keeps m m' [h; x] [x] [x].
Proof.
  intros HR Hx Hd Ha. assert (Hhd : h ∈ dom m) by (apply (dring_dom _ _ _ _ _ HR); by left).
  unfold open_page. write (m1 & E & C1 & K1). rewrite <- run_ret_r. write (m2 & E & N2 & K2). exists m2. split; [done|].
  apply cell_fields in C1 as (S1 & N1 & P1). cbn in S1, N1, P1.
  assert (HK : keeps m m2 [h; x] [x] [x]) by (eapply keeps_step; [exact K1|exact K2|incl..]).
  split_and!; [|fld|done]. eapply dring_push; [exact HR|notin|done|fld|fld|fld|done|]. eapply keeps_sub; [exact HK|done|incl|done].
Qed.

#[local] Abbreviation free := (p_free s).

Lemma link_spec l x :
  dring m 0 free l -> x ∉ free :: l -> x ∈ dom m -> (4 | x) ->
  exists m', link_run x s = Some (tt, with_desc s m') /\ dring m' 0 free (x :: l) /\ keeps m m' [free; x] [default free (head l); x] [].
Proof.
  intros HR Hx Hd Ha. assert (Hn := dlinked_head _ _ _ _ _ (dr_links _ _ _ _ HR)). pose proof Hx as [Hxh Hxl]%not_elem_of_cons.
  set (q := default free (head l)) in *.
  assert (Hqd : q ∈ dom m) by (apply (dring_dom _ _ _ _ _ HR), head_elem).
  assert (Hhd : free ∈ dom m) by (apply (dring_dom _ _ _ _ _ HR); by left).
  assert (Hqx : q <> x) by (intros E; apply Hx; rewrite <- E; apply head_elem).
  unfold link_run. rewrite run_gets. write (m1 & E & P1 & K1). read. write (m2 & E & N2 & K2). read.
  write (m3 & E & P3 & K3). rewrite <- run_ret_r. write (m4 & E & N4 & K4). exists m4. split; [done|].
  assert (HK : keeps m m4 [free; x] [q; x] []).
  { eapply keeps_sub; [eapply keeps_trans; [exact K1|eapply keeps_trans; [exact K2|eapply keeps_trans; [exact K3|exact K4]]]|..]; incl. }
  split; [|done]. eapply dring_push; [done..|fld|rewrite Z.lor_0_r; fld|fld| |exact HK].
  intros y Hy. replace y with q; [|unfold q; by rewrite Hy]. rewrite Z.lor_0_r. fld.
Qed.

(** The neighbours of a page of a ring are descriptors. *)
Lemma dring_around t h l1 x l2 : dring m t h (l1 ++ x :: l2) ->
  x ∈ dom m /\ default h (last l1) ∈ dom m /\ default h (head l2) ∈ dom m /\ default h (last l1) ∈ h :: l1 ++ x :: l2
  /\ default h (head l2) ∈ h :: l1 ++ x :: l2.
Proof.
  intros HR. assert (Hl := last_elem h l1). assert (Hq := head_elem h l2).
  assert (Hl' : default h (last l1) ∈ h :: l1 ++ x :: l2) by (revert Hl; rewrite !elem_of_cons, elem_of_app; tauto).
  assert (Hq' : default h (head l2) ∈ h :: l1 ++ x :: l2) by (revert Hq; rewrite !elem_of_cons, elem_of_app, elem_of_cons; tauto).
  split_and!; try done; apply (dring_dom _ _ _ _ _ HR); try done. rewrite elem_of_cons, elem_of_app, elem_of_cons. tauto.
Qed.

Lemma dring_remove t h l1 x l2 : dring m t h (l1 ++ x :: l2) -> NoDup (h :: l1 ++ l2).
Proof. intros HR. eapply (sublist_NoDup _ _ (dr_nodup _ _ _ _ HR)). apply sublist_skip, sublist_app; [done|by apply sublist_cons]. Qed.

Lemma unlink_run_spec l1 x l2 :
  dring m 0 free (l1 ++ x :: l2) ->
  exists m', unlink_run x s = Some (tt, with_desc s m') /\ dring m' 0 free (l1 ++ l2)
    /\ keeps m m' [default free (last l1)] [default free (head l2)] [].
Proof.
  intros HR. destruct (dring_at _ _ _ _ _ _ HR) as (Hp & Hn & Hne1 & Hne2 & _). destruct (dring_around _ _ _ _ _ HR) as (_ & Hpd & Hqd & _).
  rewrite Z.lor_0_r in Hp. set (p := default free (last l1)) in *. set (q := default free (head l2)) in *.
  unfold unlink_run. do 2 read. write (m1 & E & N1 & K1). do 2 read. rewrite <- run_ret_r. write (m2 & E & P2 & K2).
  exists m2. split; [done|]. assert (HK : keeps m m2 [p] [q] []) by (eapply keeps_step; [exact K1|exact K2|done..]). split; [|done].
  apply (dring_subst m m2 0 free l1 [x] [] l2 []); [done|by eapply dring_remove|by intros y Hy%elem_of_nil|cbn; fld| |done].
  intros y Hy. replace q with y in P2; [by rewrite Z.lor_0_r|]. unfold q. by rewrite Hy.
Qed.

Lemma split_spec l1 x l2 pages slab :
  let y := page_at x pages in
  let z := page_at x (slab - 1) in
  dring m 0 free (l1 ++ x :: l2) -> y ∉ free :: l1 ++ x :: l2 -> z ∉ free :: l1 ++ x :: l2 -> y ∈ dom m -> z ∈ dom m -> (4 | y) ->
  exists m', split_run x pages slab s = Some (tt, with_desc s m') /\ dring m' 0 free (l1 ++ y :: l2)
    /\ slb m' y = Some (slab - pages) /\ (z <> y -> prv m' z = Some y)
    /\ keeps m m' [default free (last l1); y] [default free (head l2); y; z] [y].
Proof.
  intros y z HR Hy Hz Hyd Hzd Ha. destruct (dring_at _ _ _ _ _ _ HR) as (Hp & Hn & Hne1 & Hne2 & _).
  destruct (dring_around _ _ _ _ _ HR) as (Hxd & Hpd & Hqd & Hpr & Hqr).
  rewrite Z.lor_0_r in Hp. set (p := default free (last l1)) in *. set (q := default free (head l2)) in *.
  assert (Hxr : x ∈ free :: l1 ++ x :: l2) by (rewrite elem_of_cons, elem_of_app, elem_of_cons; tauto).
  assert (y <> p /\ y <> q /\ y <> x /\ z <> p /\ z <> q /\ z <> x) as (? & ? & ? & ? & ? & ?).
  { split_and!; intros E; first [apply Hy; rewrite E; done | apply Hz; rewrite E; done]. }
  unfold split_run. fold y. fold z. write (m1 & E & P1 & K1). write (m2 & E & S2 & K2). read. write (m3 & E & N3 & K3). read.
  write (m4 & E & P4 & K4). read. write (m5 & E & N5 & K5). read. rewrite <- run_ret_r. write (m6 & E & P6 & K6). exists m6. split; [done|].
  assert (HK : keeps m m6 [p; y] [q; y; z] [y]).
  { eapply keeps_sub; [eapply keeps_trans; [exact K1|eapply keeps_trans; [exact K2|eapply keeps_trans; [exact K3|
      eapply keeps_trans; [exact K4|eapply keeps_trans; [exact K5|exact K6]]]]]|..]; incl. }
  split_and!; [|fld|intros Hzy; fld|done].
  assert (HK' : keeps m2 m6 [p; y] [q; y] []).
  { eapply keeps_sub; [eapply keeps_trans; [exact K3|eapply keeps_trans; [exact K4|eapply keeps_trans; [exact K5|exact K6]]]|..]; incl. }
  assert (HR2 : dring m2 0 free (l1 ++ x :: l2)).
  { eapply dring_keeps; [eapply dring_keeps; [exact HR|exact K1|..]|exact K2|..]; try (by intros ? ?%elem_of_nil).
    intros ? ->%list_elem_of_singleton Hin. apply Hz. by right. }
  apply (dring_subst m2 m6 0 free l1 [x] [y] l2 []); [done| | | | |done].
  - assert (Hp' : free :: l1 ++ [y] ++ l2 ≡ₚ y :: free :: l1 ++ l2) by (cbn; solve_Permutation). rewrite Hp'. constructor; [|by eapply dring_remove].
    revert Hy. rewrite !elem_of_cons, !elem_of_app, elem_of_cons. tauto.
  - by intros w ->%list_elem_of_singleton.
  - cbn. fold p. fold q. split_and!; [fld|rewrite Z.lor_0_r; fld|fld].
  - intros w Hw. cbn. rewrite Z.lor_0_r. replace w with q; [done|]. unfold q. by rewrite Hw.
Qed.
End Run.
