(* ===== verification/SlabPages.v ===== *)
(** * Runs of pages

    The pages of a pool are described by a list of segments: free runs, runs
    given out, and pages of chunks.  [inv] says what the descriptors of each
    segment hold and that the rings contain just the free runs and the pages of
    chunks that are not full.  Giving out and taking back pages changes the list
    of segments; free runs are never next to each other. *)

From stdpp Require Import gmap.
From S2P Require Import Prelude Slab SlabRing.

(** [Spent] is a page whose last chunk was released, [Loose] a run that is in no
    ring, before its place in the ring of free runs. *)
Inductive seg : Set :=
| Free (n : Z)
| Pages (n : Z)
| Chunks (sh b : Z)
| Spent (sh : Z)
| Loose (n : Z).

Definition slen (g : seg) : Z := match g with Free n | Pages n | Loose n => n | Chunks _ _ | Spent _ => 1 end.

Fixpoint total (l : list seg) : Z := match l with [] => 0 | g :: l' => slen g + total l' end.

Fixpoint starts (a : Z) (l : list seg) : list (Z * seg) :=
  match l with [] => [] | g :: l' => (a, g) :: starts (page_at a (slen g)) l' end.

Lemma page_at_add a i j : page_at (page_at a i) j = page_at a (i + j).
Proof. unfold page_at, SIZEOF_PAGE. lia. Qed.

Lemma page_at_0 a : page_at a 0 = a.
Proof. unfold page_at, SIZEOF_PAGE. lia. Qed.

Lemma page_at_inj a i j : page_at a i = page_at a j -> i = j.
Proof. unfold page_at, SIZEOF_PAGE. lia. Qed.

Lemma page_at_self a i : page_at a i = a -> i = 0.
Proof. unfold page_at, SIZEOF_PAGE. lia. Qed.

Lemma total_app l1 l2 : total (l1 ++ l2) = total l1 + total l2.
Proof. induction l1; cbn; lia. Qed.

Lemma starts_app a l1 l2 : starts a (l1 ++ l2) = starts a l1 ++ starts (page_at a (total l1)) l2.
Proof.
  revert a; induction l1 as [|g l1 IH]; intros a; cbn; [by rewrite page_at_0|]. rewrite IH, page_at_add. done.
Qed.

Definition positive_lens (l : list seg) : Prop := Forall (fun g => 1 <= slen g) l.

Lemma total_nonneg l : positive_lens l -> 0 <= total l.
Proof. induction 1; cbn; lia. Qed.

(** A start is at its place among the pages. *)
Lemma starts_at a l x g : positive_lens l -> (x, g) ∈ starts a l ->
  exists l1 l2, l = l1 ++ g :: l2 /\ x = page_at a (total l1) /\ 0 <= total l1 /\ total l1 + slen g <= total l.
Proof.
  intros HP. revert a; induction HP as [|h l Hh HP IH]; intros a; cbn; [by intros ?%elem_of_nil|].
  intros [[= -> ->]|Hin]%elem_of_cons.
  - exists [], l. cbn. rewrite page_at_0. pose proof (total_nonneg l HP). split_and!; (done || lia).
  - destruct (IH _ Hin) as (l1 & l2 & -> & -> & H1 & H2). exists (h :: l1), l2. cbn. rewrite page_at_add. split_and!; (done || lia).
Qed.

Lemma starts_mem a l1 g l2 : (page_at a (total l1), g) ∈ starts a (l1 ++ g :: l2).
Proof. rewrite starts_app. apply elem_of_app. right. by left. Qed.

(** The segment of a cell. *)
Lemma cell_of a l i : positive_lens l -> 0 <= i < total l ->
  exists x g j, (x, g) ∈ starts a l /\ 0 <= j < slen g /\ page_at a i = page_at x j.
Proof.
  intros HP. revert a i; induction HP as [|g l Hg HP IH]; intros a i; cbn; [lia|]. intros Hi. destruct (decide (i < slen g)) as [Hlt|Hge].
  - exists a, g, i. split; [by left|]. split; [lia|done].
  - destruct (IH (page_at a (slen g)) (i - slen g)) as (x & h & j & Hx & Hj & E); [lia|]. exists x, h, j. split; [by right|]. split; [done|].
    rewrite <- E, page_at_add. f_equal. lia.
Qed.

(** The cells of two segments do not meet. *)
Lemma starts_tile a l x g i y h : positive_lens l -> (x, g) ∈ starts a l -> 0 <= i < slen g -> (y, h) ∈ starts a l ->
  y = page_at x i -> i = 0 /\ x = y /\ g = h.
Proof.
  intros HP. revert a; induction HP as [|k l Hk HP IH]; intros a; cbn; [by intros ?%elem_of_nil|].
  intros [[= -> ->]|Hx]%elem_of_cons Hi [[= -> ->]|Hy]%elem_of_cons Hyi.
  - rewrite <- (page_at_0 a) in Hyi at 1. apply page_at_inj in Hyi. split_and!; (done || lia).
  - exfalso. destruct (starts_at _ _ _ _ HP Hy) as (l1 & l2 & _ & E & H1 & _). rewrite E, page_at_add in Hyi. apply page_at_inj in Hyi. lia.
  - exfalso. destruct (starts_at _ _ _ _ HP Hx) as (l1 & l2 & _ & E & H1 & _). rewrite E, !page_at_add in Hyi.
    rewrite <- (page_at_0 a) in Hyi at 1. apply page_at_inj in Hyi. lia.
  - by eapply IH.
Qed.

Lemma starts_NoDup a l : positive_lens l -> NoDup (starts a l).*1.
Proof.
  intros HP. revert a; induction HP as [|g l Hg HP IH]; intros a; [constructor|]. cbn. constructor; [|apply IH].
  intros ([y h] & E & Hy)%list_elem_of_fmap. cbn in E. destruct (starts_at _ _ _ _ HP Hy) as (l1 & l2 & _ & E' & H1 & _).
  rewrite <- E, page_at_add in E'. rewrite <- (page_at_0 a) in E' at 1. apply page_at_inj in E'. lia.
Qed.

Section Pages.
Context (ps : Z).

(** ** Pages of chunks *)

Definition exact : Z := ps - 6.

(** The chunks of a page, those its bitmap takes, and the bytes. *)
Definition chunks (sh : Z) : Z := 2 ^ (ps - sh).
Definition meta (sh : Z) : Z := if sh <? exact then bitmap_chunks ps sh else 0.
Definition page_kind (sh : Z) : Z := if sh <? exact then NGX_SLAB_SMALL else if sh =? exact then NGX_SLAB_EXACT else NGX_SLAB_BIG.
Definition slab_code (sh b : Z) : Z := if sh <? exact then sh else if sh =? exact then b else Z.lor (Z.shiftl b NGX_SLAB_MAP_SHIFT) sh.
Definition full (sh b : Z) : Prop := b = Z.ones (chunks sh).

(** Some chunk of the page is taken; the bitmap's own chunks always are. *)
Record chunk_ok (sh b : Z) : Prop := {
  co_shift : 3 <= sh < ps;
  co_range : 0 <= b < 2 ^ chunks sh;
  co_meta : forall i, 0 <= i < meta sh -> Z.testbit b i = true;
  co_used : exists i, meta sh <= i < chunks sh /\ Z.testbit b i = true
}.

(** ** Descriptors of a segment *)

Definition inner (m : mem) (a n : Z) : Prop :=
  forall i, 1 <= i < n -> slb m (page_at a i) = Some 0 /\ nxt m (page_at a i) = Some 0 /\ exists v, prv m (page_at a i) = Some v /\ (4 | v).

(** [w] is the number of all pages: the first run of a pool, which is all of
    them, has no mark at its end. *)
Definition seg_ok (w : Z) (m : mem) (a : Z) (g : seg) : Prop :=
  match g with
  | Free n => 1 <= n /\ slb m a = Some n /\ inner m a n /\ (1 < n < w -> prv m (page_at a (n - 1)) = Some a)
  | Loose n => 1 <= n /\ slb m a = Some n /\ a ∈ dom m /\ inner m a n
  | Spent sh => 3 <= sh < ps /\ a ∈ dom m
  | Pages n => 1 <= n /\ m !! a = Some (mk_sp (Z.lor n NGX_SLAB_PAGE_START) SNULL NGX_SLAB_PAGE)
      /\ forall i, 1 <= i < n -> m !! page_at a i = Some (mk_sp NGX_SLAB_PAGE_BUSY SNULL NGX_SLAB_PAGE)
  | Chunks sh b => chunk_ok sh b /\ slb m a = Some (slab_code sh b)
      /\ (full sh b -> nxt m a = Some SNULL /\ prv m a = Some (page_kind sh))
  end.

(** Its first descriptor is in a ring. *)
Definition in_ring (g : seg) : Prop := match g with Free _ | Spent _ => True | Chunks sh b => ~ full sh b | Pages _ | Loose _ => False end.

Lemma seg_ok_len w m a g : seg_ok w m a g -> 1 <= slen g.
Proof. destruct g; cbn; intuition lia. Qed.

Lemma keeps_cell m m' N P S x c : keeps m m' N P S -> x ∉ N -> x ∉ P -> x ∉ S -> m !! x = Some c -> m' !! x = Some c.
Proof. intros [K1 K2 K3 _] H1 H2 H3. rewrite !cell_fields, K1, K2, K3 by done. done. Qed.

Lemma seg_ok_keeps w m m' N P S a g :
  seg_ok w m a g -> keeps m m' N P S -> (forall i, 0 <= i < slen g -> page_at a i ∉ S) ->
  (forall i, 0 <= i < slen g -> page_at a i ∈ N \/ page_at a i ∈ P -> i = 0 /\ in_ring g) -> seg_ok w m' a g.
Proof.
  intros Hg HK HS HNP. assert (Hlen := seg_ok_len _ _ _ _ Hg).
  assert (HN : forall i, 1 <= i < slen g -> page_at a i ∉ N) by (intros i Hi H; destruct (HNP i); [lia|by left|lia]).
  assert (HP : forall i, 1 <= i < slen g -> page_at a i ∉ P) by (intros i Hi H; destruct (HNP i); [lia|by right|lia]).
  assert (Ha : a ∉ S) by (rewrite <- (page_at_0 a); apply HS; lia).
  assert (Hr : ~ in_ring g -> a ∉ N /\ a ∉ P).
  { intros Hr. rewrite <- (page_at_0 a). split; intros H; destruct (HNP 0); try lia; try (by left); try (by right); done. }
  assert (Hin : inner m a (slen g) -> inner m' a (slen g)).
  { intros HI i Hi. rewrite (k_slb _ _ _ _ _ HK), (k_nxt _ _ _ _ _ HK), (k_prv _ _ _ _ _ HK); [by apply HI|by apply HP|by apply HN|apply HS; lia]. }
  destruct g as [n|n|sh b|sh|n]; cbn in *.
  - destruct Hg as (H1 & H2 & H3 & H4). split_and!; [done|by rewrite (k_slb _ _ _ _ _ HK)|by apply Hin|].
    intros Hn. rewrite (k_prv _ _ _ _ _ HK); [by apply H4|]. apply HP. lia.
  - destruct Hg as (H1 & H2 & H3). destruct (Hr id) as [Ha1 Ha2]. split_and!; [done|by eapply keeps_cell|].
    intros i Hi. eapply keeps_cell; [done|by apply HN|by apply HP|apply HS; lia|by apply H3].
  - destruct Hg as (H1 & H2 & H3). split_and!; [done|by rewrite (k_slb _ _ _ _ _ HK)|]. intros Hf. destruct Hr as [Ha1 Ha2]; [intros Hn; by apply Hn|].
    rewrite (k_nxt _ _ _ _ _ HK), (k_prv _ _ _ _ _ HK) by done. by apply H3.
  - by rewrite (k_dom _ _ _ _ _ HK).
  - destruct Hg as (H1 & H2 & H3 & H4). split_and!; [done|by rewrite (k_slb _ _ _ _ _ HK)|by rewrite (k_dom _ _ _ _ _ HK)|by apply Hin].
Qed.

Definition laid (w : Z) (m : mem) (a : Z) (l : list seg) : Prop := Forall (fun x => seg_ok w m x.1 x.2) (starts a l).

Lemma laid_app w m a l1 l2 : laid w m a (l1 ++ l2) <-> laid w m a l1 /\ laid w m (page_at a (total l1)) l2.
Proof. unfold laid. by rewrite starts_app, Forall_app. Qed.

Lemma laid_lens w m a l : laid w m a l -> positive_lens l.
Proof.
  revert a; induction l as [|g l IH]; intros a H; [constructor|]. apply Forall_cons in H as [H1 H2]. constructor; [by eapply seg_ok_len|by eapply IH].
Qed.

(** Where a write may go without touching a list of segments. *)
Definition away (a : Z) (l : list seg) (x : Z) : Prop := forall i, 0 <= i < total l -> x <> page_at a i.

Lemma laid_keeps w m m' N P S a l :
  laid w m a l -> keeps m m' N P S -> (forall x, x ∈ S -> away a l x) ->
  (forall x, x ∈ N \/ x ∈ P -> away a l x \/ exists g, (x, g) ∈ starts a l /\ in_ring g) -> laid w m' a l.
Proof.
  intros HL HK HS HNP. assert (HPos := laid_lens _ _ _ _ HL). apply Forall_forall. intros [x g] Hx. cbn.
  destruct (starts_at _ _ _ _ HPos Hx) as (l1 & l2 & -> & Ex & H1 & H2). unfold laid in HL. rewrite Forall_forall in HL. specialize (HL _ Hx). cbn in HL.
  eapply seg_ok_keeps; [exact HL|exact HK|..]; intros i Hi.
  - intros Hin. eapply (HS _ Hin (total l1 + i)); [lia|]. rewrite Ex, page_at_add. done.
  - intros Hin. destruct (HNP _ Hin) as [Haw|(h & Hh & Hr)].
    + exfalso. eapply (Haw (total l1 + i)); [lia|]. rewrite Ex, page_at_add. done.
    + destruct (starts_tile _ _ _ _ i _ _ HPos Hx Hi Hh eq_refl) as (-> & _ & ->). done.
Qed.

(** ** Which ring a segment is in *)

Inductive rid : Set := RFree | RSlot (k : Z).

#[export] Instance rid_eq_dec : EqDecision rid.
Proof. solve_decision. Defined.

Definition ring_of (g : seg) : option rid :=
  match g with
  | Free _ => Some RFree
  | Chunks sh b => if b =? Z.ones (chunks sh) then None else Some (RSlot sh)
  | Spent sh => Some (RSlot sh)
  | Pages _ | Loose _ => None
  end.

Lemma in_ring_of g : in_ring g <-> is_Some (ring_of g).
Proof.
  destruct g as [n|n|sh b|sh|n]; cbn; try (split; [done|by intros []]).
  unfold full. destruct (Z.eqb_spec b (Z.ones (chunks sh))); split; try done; try (by eexists).
Qed.

Definition members (r : rid) (L : list (Z * seg)) : list Z := (filter (fun x => ring_of x.2 = Some r) L).*1.

Lemma members_app r L1 L2 : members r (L1 ++ L2) = members r L1 ++ members r L2.
Proof. unfold members. by rewrite filter_app, fmap_app. Qed.

Lemma members_cons r x g L : members r ((x, g) :: L) = (if decide (ring_of g = Some r) then [x] else []) ++ members r L.
Proof. unfold members. rewrite filter_cons. cbn. by destruct (decide _). Qed.

Lemma elem_of_members r L x : x ∈ members r L <-> exists g, (x, g) ∈ L /\ ring_of g = Some r.
Proof.
  unfold members. rewrite list_elem_of_fmap. split.
  - intros ([y g] & -> & Hy%list_elem_of_filter). exists g. naive_solver.
  - intros (g & Hg & Hr). exists (x, g). split; [done|]. by apply list_elem_of_filter.
Qed.

(** ** The pool *)

Definition valid_rid (r : rid) : Prop := match r with RFree => True | RSlot k => 3 <= k < ps end.
Definition rhead (s : slab_pool) (r : rid) : Z := match r with RFree => p_free s | RSlot k => page_at (ngx_slab_slots s) (k - 3) end.
Definition rtag (r : rid) : Z := match r with RFree => NGX_SLAB_PAGE | RSlot k => page_kind k end.

Record geom (s : slab_pool) (N : Z) : Prop := {
  g_ps : 12 <= ps <= 16;
  g_addr : 0 < p_addr s;
  g_align : (4 | p_addr s);
  g_palign : (4 | p_pages s);
  g_slots : page_at (ngx_slab_slots s) (ps - 3) <= p_pages s;
  g_last : p_last s = page_at (p_pages s) N;
  g_size : 1 <= N < 2 ^ 48;
  g_min : p_min_shift s = 3 /\ p_min_size s = 8;
  g_start : 0 < p_start s;
  g_salign : (2 ^ ps | p_start s);
  g_end : p_start s + N * 2 ^ ps <= p_end s < 2 ^ 64
}.

Record inv (s : slab_pool) (N : Z) (m : mem) (R : rid -> list Z) (segs : list seg) : Prop := {
  i_ring : forall r, valid_rid r -> dring m (rtag r) (rhead s r) (R r);
  i_mem : forall r, valid_rid r -> R r ≡ₚ members r (starts (p_pages s) segs);
  i_laid : laid N m (p_pages s) segs;
  i_total : total segs = N
}.

Lemma rtag_range r : 0 <= rtag r < 4.
Proof. destruct r; cbn; [done|]. unfold page_kind. by repeat case_match. Qed.

Lemma page_kind_pos sh : page_kind sh <> 0.
Proof. unfold page_kind. by repeat case_match. Qed.

Section Inv.
Context (s : slab_pool) (N : Z) (HG : geom s N).
#[local] Abbreviation P0 := (p_pages s).

Lemma rhead_bounds r : valid_rid r -> 0 < rhead s r < P0.
Proof using HG.
  assert (H1 := g_addr _ _ HG). assert (H2 := g_slots _ _ HG). assert (H3 := g_ps _ _ HG).
  unfold ngx_slab_slots, p_free, page_at, SIZEOF_PAGE, SIZEOF_POOL, FREE_OFFSET in *.
  destruct r as [|k]; cbn; unfold ngx_slab_slots, p_free, page_at, SIZEOF_PAGE, SIZEOF_POOL, FREE_OFFSET; lia.
Qed.

Lemma rhead_inj r r' : valid_rid r -> valid_rid r' -> rhead s r = rhead s r' -> r = r'.
Proof using HG.
  destruct r as [|k], r' as [|k']; cbn; unfold p_free, ngx_slab_slots, page_at, SIZEOF_PAGE, SIZEOF_POOL, FREE_OFFSET; try done; intros; f_equal; lia.
Qed.

Lemma rhead_align r : valid_rid r -> (4 | rhead s r).
Proof using HG.
  destruct (g_align _ _ HG) as [z Hz]. destruct r as [|k]; cbn; unfold p_free, ngx_slab_slots, page_at, SIZEOF_PAGE, SIZEOF_POOL, FREE_OFFSET; intros _; rewrite Hz.
  - exists (z + 12). lia.
  - exists (z + 50 + 6 * (k - 3)). lia.
Qed.

Lemma page_align a i : (4 | a) -> (4 | page_at a i).
Proof. intros [z ->]. exists (z + 6 * i). unfold page_at, SIZEOF_PAGE. lia. Qed.

Context (m : mem) (R : rid -> list Z) (segs : list seg) (HI : inv s N m R segs).

Lemma inv_lens : positive_lens segs.
Proof using HI. eapply laid_lens, i_laid, HI. Qed.

Lemma ring_start r x : valid_rid r -> x ∈ R r -> exists g, (x, g) ∈ starts P0 segs /\ ring_of g = Some r.
Proof using HI. intros Hr Hx. rewrite (i_mem _ _ _ _ _ HI r Hr) in Hx. by apply elem_of_members. Qed.

Lemma start_ring r x g : valid_rid r -> (x, g) ∈ starts P0 segs -> ring_of g = Some r -> x ∈ R r.
Proof using HI. intros Hr Hx Hg. rewrite (i_mem _ _ _ _ _ HI r Hr). apply elem_of_members. by exists g. Qed.

Lemma start_bounds x g : (x, g) ∈ starts P0 segs -> P0 <= x /\ (4 | x).
Proof using HG HI.
  intros Hx. destruct (starts_at _ _ _ _ inv_lens Hx) as (l1 & l2 & _ & -> & H1 & _). split; [unfold page_at, SIZEOF_PAGE; lia|].
  apply page_align, (g_palign _ _ HG).
Qed.

(** Cells of segments that are not at the start of one in the ring. *)
Lemma cell_not_ring r x g i : valid_rid r -> (x, g) ∈ starts P0 segs -> 0 <= i < slen g -> i <> 0 \/ ring_of g <> Some r ->
  page_at x i ∉ rhead s r :: R r.
Proof using HG HI.
  intros Hr Hx Hi Hne [E|Hin]%elem_of_cons.
  - destruct (start_bounds _ _ Hx) as [Hb _]. assert (Hh := rhead_bounds r Hr). rewrite <- E in Hh. unfold page_at, SIZEOF_PAGE in Hh. lia.
  - destruct (ring_start r _ Hr Hin) as (h & Hh & Hrh). destruct (starts_tile _ _ _ _ i _ _ inv_lens Hx Hi Hh eq_refl) as (-> & _ & ->). naive_solver.
Qed.

Lemma ring_sep r r' x : valid_rid r -> valid_rid r' -> r <> r' -> x ∈ rhead s r :: R r -> x ∉ rhead s r' :: R r'.
Proof using HG HI.
  intros Hr Hr' Hne [->|Hx]%elem_of_cons.
  - intros [E|Hin]%elem_of_cons; [by apply Hne, rhead_inj|]. destruct (ring_start r' _ Hr' Hin) as (g & Hg & _).
    destruct (start_bounds _ _ Hg) as [Hb _]. assert (Hh := rhead_bounds r Hr). lia.
  - destruct (ring_start r _ Hr Hx) as (g & Hg & Hrg). rewrite <- (page_at_0 x).
    apply (cell_not_ring r' x g 0 Hr' Hg); [pose proof inv_lens as HP|right; congruence].
    destruct (starts_at _ _ _ _ HP Hg) as (l1 & l2 & El & _). unfold positive_lens in HP. rewrite El, Forall_app, Forall_cons in HP. lia.
Qed.

Lemma start_ok x g : (x, g) ∈ starts P0 segs -> seg_ok N m x g.
Proof using HI. intros Hx. assert (HL := i_laid _ _ _ _ _ HI). unfold laid in HL. rewrite Forall_forall in HL. exact (HL _ Hx). Qed.

Lemma start_len x g : (x, g) ∈ starts P0 segs -> 1 <= slen g.
Proof using HI. intros Hx. eapply seg_ok_len. by apply start_ok. Qed.

(** A write in a ring or among the cells of a part of the list stays away from
    the rest, but for starts in a ring. *)
Definition local (a : Z) (l : list seg) (x : Z) : Prop :=
  (exists i, 0 <= i < total l /\ x = page_at a i) \/ exists r, valid_rid r /\ x ∈ rhead s r :: R r.

Lemma seg_ring_valid x g r : (x, g) ∈ starts P0 segs -> ring_of g = Some r -> valid_rid r.
Proof using HI.
  intros Hx Hg. assert (HL := start_ok x g Hx). destruct g as [n|n|sh b|sh|n]; cbn in Hg; try done; [by injection Hg as <-| |injection Hg as <-; cbn; by destruct HL]. destruct (b =? _); [done|]. injection Hg as <-. cbn.
  destruct HL as (HL & _). by destruct HL.
Qed.

(** A part of the list of segments is replaced. *)
Lemma inv_subst l1 old new l2 m' R' Ns Ps Ss :
  segs = l1 ++ old ++ l2 -> keeps m m' Ns Ps Ss -> let a := page_at P0 (total l1) in
  (forall x, x ∈ Ss -> exists i, 0 <= i < total old /\ x = page_at a i) ->
  (forall x, x ∈ Ns \/ x ∈ Ps -> local a old x) ->
  total new = total old -> laid N m' a new ->
  (forall r, valid_rid r -> dring m' (rtag r) (rhead s r) (R' r)) ->
  (forall r, valid_rid r -> exists k, R r ≡ₚ members r (starts a old) ++ k /\ R' r ≡ₚ members r (starts a new) ++ k) ->
  inv s N m' R' (l1 ++ new ++ l2).
Proof using HG HI.
  intros Es HK a HSs HNP Htot Hnew HR Hmem. pose proof inv_lens as HPos. rewrite Es in HPos. unfold positive_lens in HPos. rewrite !Forall_app in HPos.
  destruct HPos as (HP1 & HPo & HP2). assert (H1 := total_nonneg _ HP1). assert (H2 := total_nonneg _ HP2). assert (Ho := total_nonneg _ HPo).
  assert (HL := i_laid _ _ _ _ _ HI). rewrite Es, !laid_app in HL. destruct HL as (HL1 & _ & HL2). fold a in HL2.
  assert (Hst : starts P0 segs = starts P0 l1 ++ starts a old ++ starts (page_at a (total old)) l2) by (rewrite Es, !starts_app; done).
  assert (Haway1 : forall i, 0 <= i < total old -> away P0 l1 (page_at a i)).
  { intros i Hi j Hj E. unfold a in E. rewrite page_at_add in E. apply page_at_inj in E. lia. }
  assert (Haway2 : forall i, 0 <= i < total old -> away (page_at a (total old)) l2 (page_at a i)).
  { intros i Hi j Hj E. rewrite page_at_add in E. apply page_at_inj in E. lia. }
  assert (Hloc : forall x, local a old x -> forall b l, (b = P0 /\ l = l1) \/ (b = page_at a (total old) /\ l = l2) ->
    away b l x \/ exists g, (x, g) ∈ starts b l /\ in_ring g).
  { intros x [(i & Hi & ->)|(r & Hr & Hx)] b l [[-> ->]|[-> ->]]; [left; by apply Haway1|left; by apply Haway2|..].
    all: apply elem_of_cons in Hx as [->|Hx]; [left; intros j Hj E; assert (Hh := rhead_bounds r Hr); rewrite E in Hh; unfold a, page_at, SIZEOF_PAGE in Hh; lia|].
    all: destruct (ring_start r x Hr Hx) as (g & Hg & Hrg); assert (Hlen := start_len x g Hg); rewrite Hst, !elem_of_app in Hg.
    all: assert (Hri : in_ring g) by (apply in_ring_of; by eexists).
    all: destruct Hg as [Hg|[Hg|Hg]]; try (right; by exists g).
    - left. destruct (starts_at _ _ _ _ HPo Hg) as (k1 & k2 & _ & -> & Hk1 & Hk2). apply Haway1. lia.
    - left. destruct (starts_at _ _ _ _ HP2 Hg) as (k1 & k2 & _ & -> & Hk1 & Hk2). intros j Hj E. unfold a in E. rewrite !page_at_add in E.
      apply page_at_inj in E. lia.
    - left. destruct (starts_at _ _ _ _ HP1 Hg) as (k1 & k2 & _ & -> & Hk1 & Hk2). intros j Hj E. unfold a in E. rewrite !page_at_add in E.
      apply page_at_inj in E. lia.
    - left. destruct (starts_at _ _ _ _ HPo Hg) as (k1 & k2 & _ & -> & Hk1 & Hk2). apply Haway2. lia. }
  split; [done| | |].
  - intros r Hr. destruct (Hmem r Hr) as (k & E1 & E2). rewrite (i_mem _ _ _ _ _ HI r Hr), Hst, !members_app in E1.
    rewrite !starts_app, !members_app. fold a. rewrite Htot, E2.
    assert (Ek : members r (starts P0 l1) ++ members r (starts (page_at a (total old)) l2) ≡ₚ k).
    { apply (Permutation_app_inv_l (members r (starts a old))). rewrite <- E1. solve_Permutation. }
    rewrite <- Ek. solve_Permutation.
  - rewrite !laid_app. split_and!; [|exact Hnew|].
    + eapply laid_keeps; [exact HL1|exact HK|..]; intros x Hx.
      * destruct (HSs x Hx) as (i & Hi & ->). by apply Haway1.
      * apply Hloc; [by apply HNP|by left].
    + fold a. rewrite Htot. eapply laid_keeps; [exact HL2|exact HK|..]; intros x Hx.
      * destruct (HSs x Hx) as (i & Hi & ->). by apply Haway2.
      * apply Hloc; [by apply HNP|by right].
  - rewrite <- (i_total _ _ _ _ _ HI), Es, !total_app. lia.
Qed.

Lemma members_none r a l : Forall (fun g => ring_of g <> Some r) l -> members r (starts a l) = [].
Proof.
  intros H. revert a; induction H as [|g l Hg H IH]; intros a; [done|]. cbn [starts]. rewrite members_cons, decide_False by done. apply IH.
Qed.

(** The same, when only one ring changes. *)
Lemma inv_ring_step r0 l1 old new l2 m' l0 k Ns Ps Ss :
  segs = l1 ++ old ++ l2 -> valid_rid r0 -> keeps m m' Ns Ps Ss -> let a := page_at P0 (total l1) in
  (forall x, x ∈ Ss -> exists i, 0 <= i < total old /\ x = page_at a i) ->
  (forall x, x ∈ Ns \/ x ∈ Ps -> x ∈ rhead s r0 :: R r0 \/ exists i, 0 <= i < total old /\ x = page_at a i) ->
  Forall (fun g => ring_of g = None \/ ring_of g = Some r0) old -> Forall (fun g => ring_of g = None \/ ring_of g = Some r0) new ->
  total new = total old -> laid N m' a new -> dring m' (rtag r0) (rhead s r0) l0 ->
  R r0 ≡ₚ members r0 (starts a old) ++ k -> l0 ≡ₚ members r0 (starts a new) ++ k ->
  inv s N m' (fun r => if decide (r = r0) then l0 else R r) (l1 ++ new ++ l2).
Proof using HG HI.
  intros Es Hr0 HK a HSs HNP Hold Hnew Htot Hlaid HR0 E1 E2. pose proof inv_lens as HPos. rewrite Es in HPos. unfold positive_lens in HPos.
  rewrite !Forall_app in HPos. destruct HPos as (_ & HPo & _).
  assert (Hst : forall x g, (x, g) ∈ starts a old -> (x, g) ∈ starts P0 segs).
  { intros x g Hx. rewrite Es, !starts_app, !elem_of_app. right. by left. }
  assert (Hsub : forall r l, r <> r0 -> Forall (fun g => ring_of g = None \/ ring_of g = Some r0) l -> Forall (fun g => ring_of g <> Some r) l).
  { intros r l Hne H. eapply Forall_impl; [exact H|]. cbn. intros g [Hg|Hg]; congruence. }
  eapply (inv_subst l1 old new l2 m' _ Ns Ps Ss); [done..| |done|done| |].
  - intros x Hx. destruct (HNP x Hx) as [Hx'|Hx']; [right; by exists r0|by left].
  - intros r Hr. destruct (decide (r = r0)) as [->|Hne]; [done|].
    assert (Hsep : forall x, x ∈ Ns \/ x ∈ Ps -> x ∉ rhead s r :: R r).
    { intros x Hx. destruct (HNP x Hx) as [Hx'|(i & Hi & ->)]; [by apply (ring_sep r0 r)|].
      destruct (cell_of a old i HPo Hi) as (y & g & j & Hy & Hj & ->). apply (cell_not_ring r y g j Hr (Hst _ _ Hy) Hj). right.
      destruct (starts_at _ _ _ _ HPo Hy) as (k1 & k2 & -> & _). apply (Hsub r) in Hold; [|exact Hne]. rewrite Forall_app, Forall_cons in Hold. tauto. }
    eapply dring_keeps; [by apply (i_ring _ _ _ _ _ HI)|exact HK|..]; intros x Hx Hin; (apply (Hsep x); [tauto|]); [done|by right].
  - intros r Hr. destruct (decide (r = r0)) as [->|Hne]; [by exists k|]. exists (R r). rewrite !members_none; [done|by apply Hsub..].
Qed.
End Inv.
End Pages.
