(* ===== verification/SlabRuns.v ===== *)
(** * Giving out and taking back runs of pages

    [ngx_slab_alloc_pages] and [ngx_slab_free_pages] on the list of segments of
    [SlabPages]. *)

From stdpp Require Import gmap.
From S2P Require Import Prelude Slab SlabRing SlabPages.

(** ** Lists of descriptors *)

Lemma elem_of_descs a n x : x ∈ descs a n <-> exists i, 0 <= i < n /\ x = page_at a i.
Proof.
  unfold descs. rewrite list_elem_of_fmap. split.
  - intros (i & -> & Hi%elem_of_seq). exists (Z.of_nat i). split; [lia|done].
  - intros (i & Hi & ->). exists (Z.to_nat i). rewrite Z2Nat.id by lia. split; [done|]. apply elem_of_seq. lia.
Qed.

(** Both loops over descriptors write one value to all of them. *)
Fixpoint fill_cells (c : slab_page) (n : nat) (p : Z) : SM unit :=
  match n with O => mret tt | S n => sput p (fun _ => c);; fill_cells c n (page_at p 1) end.

Lemma busy_fill n p : busy_loop n p = fill_cells (mk_sp NGX_SLAB_PAGE_BUSY SNULL NGX_SLAB_PAGE) n p.
Proof. revert p; induction n as [|n IH]; intros p; [done|]. cbn. by rewrite IH. Qed.

Lemma zero_fill n p : zero_loop n p = fill_cells zero_page n p.
Proof. revert p; induction n as [|n IH]; intros p; [done|]. cbn. by rewrite IH. Qed.

Lemma fill_spec c n p s : (forall i, 0 <= i < Z.of_nat n -> page_at p i ∈ dom (p_desc s)) ->
  exists m', fill_cells c n p s = Some (tt, with_desc s m') /\ (forall i, 0 <= i < Z.of_nat n -> m' !! page_at p i = Some c)
    /\ keeps (p_desc s) m' (descs p (Z.of_nat n)) (descs p (Z.of_nat n)) (descs p (Z.of_nat n)).
Proof.
  revert p s; induction n as [|n IH]; intros p s Hd.
  { exists (p_desc s). split; [by destruct s|]. split; [lia|apply keeps_refl]. }
  cbn [fill_cells]. assert (Hp : p ∈ dom (p_desc s)) by (rewrite <- (page_at_0 p); apply Hd; lia). write (m1 & E & C1 & K1).
  destruct (IH (page_at p 1) (with_desc s m1)) as (m2 & E2 & C2 & K2).
  { intros i Hi. fld. rewrite page_at_add. apply Hd. lia. }
  exists m2. split; [exact E2|]. cbn in K2. split.
  - intros i Hi. destruct (decide (i = 0)) as [->|Hne].
    + rewrite page_at_0. eapply keeps_cell; [exact K2|..|exact C1]; rewrite elem_of_descs; intros (j & Hj & E');
        rewrite page_at_add in E'; rewrite <- (page_at_0 p) in E' at 1; apply page_at_inj in E'; lia.
    + replace i with (1 + (i - 1)) by lia. rewrite <- page_at_add. apply C2. lia.
  - eapply keeps_sub; [by eapply keeps_trans|..]; intros x; rewrite elem_of_app, !elem_of_descs;
      intros [->%list_elem_of_singleton|(i & Hi & ->)]; try (exists 0; rewrite page_at_0; split; [lia|done]);
      exists (1 + i); rewrite page_at_add; (split; [lia|done]).
Qed.

Lemma NoDup_subset_size (l : list Z) (m : mem) : NoDup l -> (forall x, x ∈ l -> x ∈ dom m) -> (length l <= size m)%nat.
Proof.
  intros Hnd Hl. rewrite <- size_dom, <- (size_list_to_set (C := gset Z)) by done. apply subseteq_size. intros x Hx%elem_of_list_to_set. by apply Hl.
Qed.

Section Runs.
Context (ps : Z).

Definition upd_ring (R : rid -> list Z) (r : rid) (l : list Z) : rid -> list Z := fun r' => if decide (r' = r) then l else R r'.

Lemma upd_ring_eq R r l : upd_ring R r l r = l.
Proof. unfold upd_ring. by rewrite decide_True. Qed.

Lemma upd_ring_ne R r r' l : r' <> r -> upd_ring R r l r' = R r'.
Proof. intros H. unfold upd_ring. by rewrite decide_False. Qed.

Lemma seg_cell_dom w m x g i : seg_ok ps w m x g -> 0 <= i < slen g -> page_at x i ∈ dom m.
Proof.
  intros Hg Hi. destruct (decide (i = 0)) as [->|Hne].
  - rewrite page_at_0. destruct g as [n|n|sh b|sh|n]; cbn in Hg.
    + eapply slb_dom; naive_solver.
    + apply elem_of_dom. destruct Hg as (_ & Hg & _). by eexists.
    + eapply slb_dom; naive_solver.
    + naive_solver.
    + naive_solver.
  - destruct g as [n|n|sh b|sh|n]; cbn in Hg, Hi; [| |lia|lia|].
    + destruct Hg as (_ & _ & Hg & _). eapply slb_dom, (Hg i). lia.
    + destruct Hg as (_ & _ & Hg). apply elem_of_dom. rewrite Hg by lia. by eexists.
    + destruct Hg as (_ & _ & _ & Hg). eapply slb_dom, (Hg i). lia.
Qed.

Lemma inv_same s s' N m R segs : p_addr s' = p_addr s -> p_pages s' = p_pages s -> inv ps s N m R segs -> inv ps s' N m R segs.
Proof.
  intros E1 E2 [H1 H2 H3 H4]. split; rewrite ?E2; try done. intros r Hr. specialize (H1 r Hr).
  destruct r; cbn in *; unfold p_free, ngx_slab_slots in *; by rewrite E1.
Qed.

(** ** Giving out *)

Definition less_free (s : slab_pool) (m : mem) (k : Z) : slab_pool := (with_desc s m) <| p_pfree := u64 (p_pfree s - k) |>.

Section Take.
Context (s : slab_pool) (N : Z) (HG : geom ps s N) (R : rid -> list Z) (l1 l2 : list seg) (n k : Z).
#[local] Abbreviation m := (p_desc s).
#[local] Abbreviation segs := (l1 ++ Free n :: l2).
#[local] Abbreviation x := (page_at (p_pages s) (total l1)).
Context (HI : inv ps s N m R segs) (Hk : 1 <= k <= n).

Definition rest_of (k n : Z) : list seg := if k <? n then [Free (n - k)] else [].

Lemma take_start : (x, Free n) ∈ starts (p_pages s) segs.
Proof. apply starts_mem. Qed.

Lemma take_cell i r : valid_rid ps r -> 0 <= i < n -> i <> 0 \/ r <> RFree -> page_at x i ∉ rhead s r :: R r.
Proof using HG HI.
  intros Hr Hi Hne. eapply (cell_not_ring ps s N HG m R segs HI r x (Free n) i Hr take_start Hi). destruct Hne; [by left|]. right. cbn. congruence.
Qed.

(** The ring without the run, and with its rest in its place. *)
Lemma take_ring : exists m1 ring, (if k <? n then split_run x k n else unlink_run x) s = Some (tt, with_desc s m1)
  /\ dring m1 0 (p_free s) ring /\ (exists la lb, R RFree = la ++ x :: lb /\ ring = la ++ (if k <? n then [page_at x k] else []) ++ lb)
  /\ (k < n -> slb m1 (page_at x k) = Some (n - k)) /\ (k < n - 1 -> prv m1 (page_at x (n - 1)) = Some (page_at x k))
  /\ exists Ns Ps, keeps m m1 Ns Ps (if k <? n then [page_at x k] else [])
     /\ (forall y, y ∈ Ns -> y ∈ p_free s :: R RFree \/ (k < n /\ y = page_at x k))
     /\ (forall y, y ∈ Ps -> y ∈ p_free s :: R RFree \/ (k < n /\ (y = page_at x k \/ y = page_at x (n - 1)))) /\ x ∉ Ns /\ x ∉ Ps.
Proof using HG HI Hk.
  assert (Hx : x ∈ R RFree) by (eapply (start_ring ps s N m R segs HI RFree x (Free n)); [done|apply take_start|done]).
  destruct (list_elem_of_split _ _ Hx) as (la & lb & El). assert (HR := i_ring _ _ _ _ _ _ HI RFree I). cbn in HR. rewrite El in HR.
  assert (Hok := start_ok ps s N m R segs HI x (Free n) take_start).
  destruct (dring_at _ _ _ _ _ _ HR) as (_ & _ & Hne1 & Hne2 & _). destruct (dring_around s _ _ _ _ _ HR) as (_ & _ & _ & Hpr & Hqr).
  destruct (Z.ltb_spec k n) as [Hlt|Hge].
  - assert (Hyr : page_at x k ∉ p_free s :: la ++ x :: lb) by (rewrite <- El; apply (take_cell k RFree I); lia).
    assert (Hzr : page_at x (n - 1) ∉ p_free s :: la ++ x :: lb) by (rewrite <- El; apply (take_cell (n - 1) RFree I); lia).
    assert (Hyd : page_at x k ∈ dom m) by (apply (seg_cell_dom N m x (Free n) k Hok); cbn; lia).
    assert (Hzd : page_at x (n - 1) ∈ dom m) by (apply (seg_cell_dom N m x (Free n) (n - 1) Hok); cbn; lia).
    assert (Hal : (4 | page_at x k)) by (do 2 apply page_align; apply (g_palign _ _ _ HG)).
    destruct (split_spec s la x lb k n HR Hyr Hzr Hyd Hzd Hal) as (m1 & E & HR1 & HS & HP & HK). exists m1, (la ++ page_at x k :: lb).
    split; [done|]. split; [done|]. split; [by exists la, lb|]. split; [done|]. split.
    { intros Hn. apply HP. intros E'. apply page_at_inj in E'. lia. }
    eexists _, _. split; [exact HK|]. rewrite El. split_and!.
    + intros y Hy. rewrite elem_of_cons, list_elem_of_singleton in Hy. destruct Hy as [->| ->]; [by left|right; by split].
    + intros y Hy. rewrite !elem_of_cons, elem_of_nil in Hy. destruct Hy as [->|[->|[->|[]]]]; [by left|right; split; [done|by left]|right; split; [done|by right]].
    + rewrite elem_of_cons, list_elem_of_singleton. intros [E'|E']; [congruence|]. apply Hyr. rewrite <- E'. rewrite elem_of_cons, elem_of_app, elem_of_cons. tauto.
    + rewrite !elem_of_cons, elem_of_nil. intros [E'|[E'|[E'|[]]]]; [congruence|apply Hyr|apply Hzr]; rewrite <- E'; rewrite elem_of_cons, elem_of_app, elem_of_cons; tauto.
  - destruct (unlink_run_spec s la x lb HR) as (m1 & E & HR1 & HK). exists m1, (la ++ lb). split; [done|]. split; [done|].
    split; [by exists la, lb|]. split; [lia|]. split; [lia|]. eexists _, _. split; [exact HK|]. rewrite El. split_and!.
    + intros y ->%list_elem_of_singleton. by left.
    + intros y ->%list_elem_of_singleton. by left.
    + rewrite list_elem_of_singleton. congruence.
    + rewrite list_elem_of_singleton. congruence.
Qed.

Lemma take_spec : exists m', take_pages x k s = Some (tt, less_free s m' k)
  /\ exists ring, inv ps s N m' (upd_ring R RFree ring) (l1 ++ (Pages k :: rest_of k n) ++ l2).
Proof using HG HI Hk.
  destruct take_ring as (m1 & ring & E1 & HR1 & (la & lb & El & Ering) & Hsl & Hpv & Ns & Ps & K1 & HNs & HPs & HxN & HxP).
  assert (Hok := start_ok ps s N m R segs HI x (Free n) take_start). pose proof Hok as (_ & Hslab & Hin & _). fold (slen (Free n)) in Hin.
  assert (Hcell : forall i, 0 <= i < n -> page_at x i ∈ dom m) by (intros i Hi; by apply (seg_cell_dom N m x (Free n) i Hok)).
  unfold take_pages. erewrite run_slb; [|exact Hslab]. erewrite run_bind; [|exact E1].
  assert (Hxd : x ∈ dom m1) by (fld; rewrite <- (page_at_0 x); apply Hcell; lia). write (m2 & E & C2 & K2). rewrite run_modify.
  rewrite busy_fill. match goal with |- context [fill_cells _ _ _ ?s'] => set (s2 := s') end.
  destruct (fill_spec (mk_sp NGX_SLAB_PAGE_BUSY SNULL NGX_SLAB_PAGE) (Z.to_nat (k - 1)) (page_at x 1) s2) as (m3 & E3 & C3 & K3).
  { intros i Hi. cbn. fld. rewrite page_at_add. apply Hcell. lia. }
  rewrite E3. exists m3. split; [done|]. exists ring. cbn in K3. rewrite Z2Nat.id in C3, K3 by lia.
  set (L := descs (page_at x 1) (k - 1)) in *.
  assert (HL : forall y, y ∈ L -> exists i, 1 <= i < k /\ y = page_at x i).
  { intros y (i & Hi & ->)%elem_of_descs. exists (1 + i). rewrite page_at_add. split; [lia|done]. }
  assert (HxL : x ∉ L) by (intros (i & Hi & E)%HL; symmetry in E; apply page_at_self in E; lia).
  assert (HkL : forall i, k <= i -> page_at x i ∉ x :: L).
  { intros i Hi [E|(j & Hj & E)%HL]%elem_of_cons; [apply page_at_self in E; lia|apply page_at_inj in E; lia]. }
  assert (K23 : keeps m1 m3 (x :: L) (x :: L) (x :: L)) by (eapply keeps_sub; [by eapply keeps_trans|done..]).
  assert (K13 : keeps m m3 (Ns ++ x :: L) (Ps ++ x :: L) ((if k <? n then [page_at x k] else []) ++ x :: L)) by (by eapply keeps_trans).
  set (touched y := y ∈ p_free s :: R RFree \/ exists i, 0 <= i < n /\ y = page_at x i).
  assert (HT : forall y, y ∈ Ns ++ x :: L \/ y ∈ Ps ++ x :: L -> touched y).
  { intros y Hy. rewrite !elem_of_app, !elem_of_cons in Hy. unfold touched.
    destruct Hy as [[[?|[? ->]]%HNs|[->|(i & Hi & ->)%HL]]|[[?|[? [-> | ->]]]%HPs|[->|(i & Hi & ->)%HL]]]; try (by left); right;
      try (exists 0; rewrite page_at_0; split; [lia|done]); eexists; (split; [|done]); lia. }
  assert (Hout : forall y, y ∈ x :: L -> y ∉ p_free s :: ring).
  { assert (Hnd := dr_nodup _ _ _ _ (i_ring _ _ _ _ _ _ HI RFree I)). cbn in Hnd. rewrite El in Hnd.
    assert (Hp : p_free s :: la ++ x :: lb ≡ₚ x :: p_free s :: la ++ lb) by solve_Permutation. rewrite Hp in Hnd. apply NoDup_cons in Hnd as [Hxn _].
    assert (Hring : forall y, y ∈ p_free s :: ring -> y ∈ p_free s :: la ++ lb \/ y = page_at x k).
    { intros y. rewrite Ering, !elem_of_cons, !elem_of_app. destruct (k <? n); rewrite ?list_elem_of_singleton, ?elem_of_nil; tauto. }
    intros y [->|(i & Hi & ->)%HL]%elem_of_cons [Hy|Hy]%Hring; [done|symmetry in Hy; apply page_at_self in Hy; lia| |apply page_at_inj in Hy; lia].
    apply (take_cell i RFree I); [lia|lia|]. rewrite El. cbn [rhead]. revert Hy. rewrite !elem_of_cons, !elem_of_app, elem_of_cons. tauto. }
  eapply (inv_ring_step ps s N HG m R segs HI RFree l1 [Free n] (Pages k :: rest_of k n) l2 m3 ring (la ++ lb) _ _ _ eq_refl I K13).
  - intros y. rewrite elem_of_app, elem_of_cons. cbn [total slen]. intros [Hy|[->|(i & Hi & ->)%HL]].
    + destruct (Z.ltb_spec k n); [|by apply elem_of_nil in Hy]. apply list_elem_of_singleton in Hy as ->. exists k. split; [lia|done].
    + exists 0. rewrite page_at_0. split; [lia|done].
    + exists i. split; [lia|done].
  - intros y Hy. cbn [total slen]. destruct (HT y Hy) as [?|(i & Hi & ->)]; [by left|right; exists i; split; [lia|done]].
  - constructor; [by right|constructor].
  - unfold rest_of. constructor; [by left|]. destruct (k <? n); constructor; [by right|constructor].
  - unfold rest_of. cbn. destruct (Z.ltb_spec k n); cbn; lia.
  - unfold laid, rest_of. cbn [starts slen]. apply Forall_cons. split.
    + cbn. split; [lia|]. split; [by eapply keeps_cell; [exact K3|..|exact C2]|]. intros i Hi.
      replace i with (1 + (i - 1)) by lia. rewrite <- page_at_add. apply C3. lia.
    + destruct (Z.ltb_spec k n) as [Hlt|]; [|constructor]. constructor; [|constructor]. cbn [fst snd seg_ok].
      assert (Hne : forall i, page_at x i = page_at x k -> i = k) by (intros i Hi; by apply page_at_inj in Hi).
      split_and!; [lia|rewrite (k_slb _ _ _ _ _ K23); [by apply Hsl|apply HkL; lia]| |].
      * intros i Hi. rewrite page_at_add. destruct (Hin (k + i)) as (I1 & I2 & v & I3 & I4); [cbn; lia|].
        rewrite (k_slb _ _ _ _ _ K23), (k_nxt _ _ _ _ _ K23), (k_prv _ _ _ _ _ K23) by (apply HkL; lia).
        assert (Hnr : page_at x (k + i) ∉ p_free s :: R RFree) by (apply (take_cell (k + i) RFree I); lia).
        split; [rewrite (k_slb _ _ _ _ _ K1); [done|]; rewrite list_elem_of_singleton; intros E%Hne; lia|].
        split; [rewrite (k_nxt _ _ _ _ _ K1); [done|]; intros [?|[_ E%Hne]]%HNs; [done|lia]|].
        destruct (decide (k + i = n - 1)) as [->|Hni].
        -- exists (page_at x k). rewrite Hpv by lia. split; [done|]. do 2 apply page_align. apply (g_palign _ _ _ HG).
        -- exists v. rewrite (k_prv _ _ _ _ _ K1); [done|]. intros [?|[_ [E%Hne|E]]]%HPs; [done|lia|apply page_at_inj in E; lia].
      * intros Hn. rewrite page_at_add. replace (k + (n - k - 1)) with (n - 1) by lia. rewrite (k_prv _ _ _ _ _ K23); [apply Hpv; lia|apply HkL; lia].
  - cbn [rtag rhead]. eapply dring_keeps; [exact HR1|exact K23|exact Hout|]. intros y Hy Hin'. apply (Hout y Hy). by right.
  - rewrite El. cbn. solve_Permutation.
  - rewrite Ering. unfold rest_of. cbn [starts slen]. rewrite !members_cons. cbn.
    destruct (Z.ltb_spec k n); cbn [starts]; rewrite ?members_cons; cbn; solve_Permutation.
Qed.
End Take.

Lemma starts_elem a l g : g ∈ l -> exists x, (x, g) ∈ starts a l.
Proof.
  intros (l1 & l2 & ->)%list_elem_of_split. exists (page_at a (total l1)). apply starts_mem.
Qed.

Lemma alloc_loop s N m R segs k fuel la lb :
  p_desc s = m -> geom ps s N -> inv ps s N m R segs -> R RFree = la ++ lb -> (length lb < fuel)%nat ->
  (alloc_pages_loop fuel (default (p_free s) (head lb)) k s = Some (SNULL, s) /\ forall y n, y ∈ lb -> (y, Free n) ∈ starts (p_pages s) segs -> n < k)
  \/ exists l1 n l2, let x := page_at (p_pages s) (total l1) in segs = l1 ++ Free n :: l2 /\ k <= n
      /\ alloc_pages_loop fuel (default (p_free s) (head lb)) k s = (take_pages x k;; mret x) s.
Proof.
  intros Em HG HI. revert fuel la; induction lb as [|x lb IH]; intros fuel la El Hf; (destruct fuel as [|fuel]; [cbn in Hf; lia|]); cbn [alloc_pages_loop].
  { left. rewrite run_gets. cbn [head default]. rewrite Z.eqb_refl. split; [done|]. by intros y n ?%elem_of_nil. }
  rewrite run_gets. cbn [head default]. change (id x) with x.
  assert (Hx : x ∈ R RFree) by (rewrite El; apply elem_of_app; right; by left).
  assert (HR := i_ring _ _ _ _ _ _ HI RFree I). cbn in HR. assert (Hxh : x <> p_free s).
  { intros ->. assert (Hnd := dr_nodup _ _ _ _ HR). by apply NoDup_cons in Hnd as [? _]. }
  rewrite (proj2 (Z.eqb_neq _ _) Hxh). destruct (ring_start ps s N m R segs HI RFree x I Hx) as (g & Hg & Hgr).
  destruct g as [n|n|sh b|sh|n]; cbn in Hgr; try done; [|by destruct (_ =? _)].
  assert (Hok := start_ok ps s N m R segs HI x (Free n) Hg). destruct Hok as (_ & Hslab & _). rewrite <- Em in Hslab.
  erewrite run_slb; [|exact Hslab]. destruct (Z.leb_spec k n) as [Hle|Hlt].
  - right. destruct (starts_at _ _ _ _ (inv_lens ps s N m R segs HI) Hg) as (l1 & l2 & -> & -> & _). by exists l1, n, l2.
  - rewrite El in HR. destruct (dring_at _ _ _ _ _ _ HR) as (_ & Hn & _). rewrite <- Em in Hn. erewrite run_nxt; [|exact Hn].
    destruct (IH fuel (la ++ [x])) as [[E Hall]|Hex]; [by rewrite El, <- app_assoc|cbn in Hf; lia|left|by right].
    split; [done|]. intros y n' [->|Hy]%elem_of_cons Hs; [|by eapply Hall].
    destruct (starts_tile _ _ _ _ 0 _ _ (inv_lens ps s N m R segs HI) Hg ltac:(pose proof (start_len ps s N m R segs HI _ _ Hg); lia) Hs (eq_sym (page_at_0 x))) as (_ & _ & [= <-]). done.
Qed.

Lemma alloc_pages_spec s N R segs k :
  geom ps s N -> inv ps s N (p_desc s) R segs -> 1 <= k ->
  (ngx_slab_alloc_pages k s = Some (SNULL, s) /\ forall n, Free n ∈ segs -> n < k)
  \/ exists l1 n l2 m' ring, let x := page_at (p_pages s) (total l1) in segs = l1 ++ Free n :: l2 /\ k <= n /\ x <> SNULL
      /\ ngx_slab_alloc_pages k s = Some (x, less_free s m' k)
      /\ inv ps s N m' (upd_ring R RFree ring) (l1 ++ (Pages k :: rest_of k n) ++ l2).
Proof.
  intros HG HI Hk. unfold ngx_slab_alloc_pages. rewrite !run_gets. assert (HR := i_ring _ _ _ _ _ _ HI RFree I). cbn in HR.
  erewrite run_nxt; [|exact (dlinked_head _ _ _ _ _ (dr_links _ _ _ _ HR))].
  assert (Hsz : (length (R RFree) < size (p_desc s))%nat).
  { change (length (p_free s :: R RFree) <= size (p_desc s))%nat. apply NoDup_subset_size; [by eapply dr_nodup|]. intros x. by apply (dring_dom _ _ _ _ _ HR). }
  destruct (alloc_loop s N _ R segs k _ [] (R RFree) eq_refl HG HI eq_refl Hsz) as [[E Hall]|(l1 & n & l2 & Es & Hn & E)]; rewrite E; [left|right].
  - split; [done|]. intros n Hin. destruct (starts_elem (p_pages s) segs _ Hin) as [x Hx]. apply (Hall x n); [|done].
    by eapply (start_ring ps s N _ R segs HI RFree x (Free n)).
  - subst segs. destruct (take_spec s N HG R l1 l2 n k HI ltac:(lia)) as (m' & Et & ring & HI'). exists l1, n, l2, m', ring.
    split; [done|]. split; [done|]. split; [|split; [by erewrite run_bind|done]].
    assert (Hb := rhead_bounds ps s N HG RFree I). assert (HP := inv_lens _ _ _ _ _ _ HI). unfold positive_lens in HP. rewrite Forall_app in HP.
    destruct HP as [HP _]. pose proof (total_nonneg _ HP). unfold page_at, SIZEOF_PAGE, SNULL. cbn in Hb. lia.
Qed.
End Runs.
