(* ===== verification/SlabFree.v ===== *)
(** * Taking back runs of pages

    [ngx_slab_free_pages]: the run becomes loose, it is joined to a free run
    after it and to one before it, and goes to the ring of free runs. *)

From stdpp Require Import gmap.
From S2P Require Import Prelude Slab SlabRing SlabPages SlabRuns.

Definition clean (g : seg) : Prop := match g with Free _ | Pages _ | Chunks _ _ => True | Spent _ | Loose _ => False end.

Section Free.
Context (ps : Z).

Definition seg_tag (g : seg) : Z := match g with Chunks sh _ => page_kind ps sh | _ => NGX_SLAB_PAGE end.

Section State.
Context (s : slab_pool) (N : Z) (HG : geom ps s N) (m : mem) (R : rid -> list Z) (segs : list seg) (HI : inv ps s N m R segs).
#[local] Abbreviation P0 := (p_pages s).

Lemma ring_positive r y : valid_rid ps r -> y ∈ rhead s r :: R r -> 0 < y.
Proof using HG HI.
  intros Hr [->|Hy]%elem_of_cons; [by apply (rhead_bounds ps s N HG r)|]. destruct (ring_start ps s N m R segs HI r y Hr Hy) as (g & Hg & _).
  destruct (start_bounds ps s N HG m R segs HI _ _ Hg) as [Hb _]. assert (H := rhead_bounds ps s N HG r Hr). lia.
Qed.

(** What a ring says of one of its segments. *)
Lemma ring_fields r y g : (y, g) ∈ starts P0 segs -> ring_of ps g = Some r ->
  exists la lb v w, R r = la ++ y :: lb /\ prv m y = Some v /\ Z.land v NGX_SLAB_PAGE_MASK = rtag ps r /\ nxt m y = Some w /\ 0 < w /\ (4 | y).
Proof using HG HI.
  intros Hy Hg. assert (Hr := seg_ring_valid ps s N m R segs HI y g r Hy Hg). assert (HR := i_ring _ _ _ _ _ _ HI r Hr).
  assert (Hin := start_ring ps s N m R segs HI r y g Hr Hy Hg). destruct (list_elem_of_split _ _ Hin) as (la & lb & El). rewrite El in HR.
  destruct (dring_at _ _ _ _ _ _ HR) as (Hp & Hn & _ & _ & Ha). eexists la, lb, _, _. split; [done|]. split; [exact Hp|].
  split; [by apply tag_type; [|apply rtag_range]|]. split; [exact Hn|]. split; [|by apply (start_bounds ps s N HG m R segs HI y g)].
  apply (ring_positive r _ Hr). rewrite El. assert (H := head_elem (rhead s r) lb). revert H. rewrite !elem_of_cons, elem_of_app, elem_of_cons. tauto.
Qed.

(** The first descriptor of a segment tells its type and whether it is free. *)
Lemma seg_first y g : (y, g) ∈ starts P0 segs -> clean g ->
  exists v w, prv m y = Some v /\ Z.land v NGX_SLAB_PAGE_MASK = seg_tag g /\ nxt m y = Some w /\ (w =? SNULL) = bool_decide (ring_of ps g = None).
Proof using HG HI.
  intros Hy Hc. assert (Hok := start_ok ps s N m R segs HI y g Hy). destruct (ring_of ps g) as [r|] eqn:Hr.
  - destruct (ring_fields r y g Hy Hr) as (la & lb & v & w & _ & Hp & Ht & Hn & Hw & _). exists v, w. split; [done|]. split; [|split; [done|]].
    + rewrite Ht. destruct g as [n|n|sh b|sh|n]; cbn in Hr |- *; try done; [by injection Hr as <-|]. destruct (b =? _); [done|]. by injection Hr as <-.
    + rewrite bool_decide_eq_false_2 by done. apply Z.eqb_neq. unfold SNULL. lia.
  - destruct g as [n|n|sh b|sh|n]; cbn in Hr, Hok, Hc; try done.
    + destruct Hok as (_ & H & _). apply cell_fields in H as (_ & Hn & Hp). eexists _, _. split; [exact Hp|]. split; [done|]. split; [exact Hn|done].
    + destruct (Z.eqb_spec b (Z.ones (chunks ps sh))) as [Hf|]; [|done]. destruct Hok as (_ & _ & H). destruct (H Hf) as [Hn Hp].
      eexists _, _. split; [exact Hp|]. split; [|split; [exact Hn|done]]. rewrite <- (Z.lor_0_l (page_kind ps sh)).
      rewrite tag_type; [done|by exists 0|apply (rtag_range ps (RSlot sh))].
Qed.
End State.

(** ** Joining *)

Section Join.
Context (s : slab_pool) (N : Z) (HG : geom ps s N) (R : rid -> list Z) (l1 l2 : list seg) (n : Z).
#[local] Abbreviation m := (p_desc s).
#[local] Abbreviation P0 := (p_pages s).
#[local] Abbreviation segs := (l1 ++ Loose n :: l2).
#[local] Abbreviation x := (page_at (p_pages s) (total l1)).
Context (HI : inv ps s N m R segs) (Hc1 : Forall clean l1) (Hc2 : Forall clean l2).

Lemma loose_ok : 1 <= n /\ slb m x = Some n /\ x ∈ dom m /\ inner m x n.
Proof using HI. apply (start_ok ps s N m R segs HI x (Loose n)). apply starts_mem. Qed.

Lemma loose_total : total l1 + n + total l2 = N /\ 0 <= total l1 /\ 0 <= total l2.
Proof using HI.
  assert (Ht := i_total _ _ _ _ _ _ HI). rewrite total_app in Ht. cbn in Ht. assert (HP := inv_lens _ _ _ _ _ _ HI).
  unfold positive_lens in HP. rewrite Forall_app, Forall_cons in HP. destruct HP as (HP1 & _ & HP2).
  pose proof (total_nonneg _ HP1). pose proof (total_nonneg _ HP2). lia.
Qed.

(** The free run [k] at [y] leaves the ring and becomes part of the loose run;
    [z] is the first descriptor of both, [w] the one in the middle. *)
Lemma join_ring {A} (a : A) old k y z w ka kb :
  old = [Loose n; Free k] /\ y = w \/ old = [Free k; Loose n] /\ y = z -> l1 ++ Loose n :: l2 = ka ++ old ++ kb ->
  z = page_at P0 (total ka) -> w = page_at z (match old with g :: _ => slen g | [] => 0 end) ->
  exists m', (set_slab z (n + k);; unlink y;; sput w (fun _ => mk_sp NGX_SLAB_PAGE_FREE SNULL NGX_SLAB_PAGE);; mret a) s = Some (a, with_desc s m')
    /\ exists R', inv ps s N m' R' (ka ++ Loose (n + k) :: kb).
Proof using HG HI.
  intros Hold Es Ez Ew.
  assert (HI' := HI). rewrite Es in HI'.
  assert (Hyf : (y, Free k) ∈ starts P0 (ka ++ old ++ kb)).
  { rewrite !starts_app, !elem_of_app. right. left. rewrite <- Ez. destruct Hold as [[-> ->]|[-> ->]]; cbn; [rewrite Ew; cbn; right; by left|by left]. }
  assert (Hlo : exists x', (x', Loose n) ∈ starts P0 (ka ++ old ++ kb) /\ ((y = w /\ x' = z) \/ (y = z /\ x' = w))).
  { destruct Hold as [[-> ->]|[-> ->]].
    - exists z. split; [|by left]. rewrite !starts_app, !elem_of_app. right. left. rewrite <- Ez. by left.
    - exists w. split; [|by right]. rewrite !starts_app, !elem_of_app. right. left. rewrite <- Ez, Ew. cbn. right. by left. }
  destruct Hlo as (x' & Hx' & Hxy).
  assert (Hfok := start_ok ps s N m R _ HI' _ _ Hyf). assert (Hlok := start_ok ps s N m R _ HI' _ _ Hx').
  destruct (ring_fields s N HG m R _ HI' RFree y (Free k) Hyf eq_refl) as (la & lb & v & u & El & _).
  assert (HR := i_ring _ _ _ _ _ _ HI' RFree I). cbn in HR. rewrite El in HR. cbn in Hfok, Hlok. destruct Hfok as (Hk & Hfs & Hfi & _). destruct Hlok as (Hn & Hls & Hld & Hli).
  assert (Hlen : total old = n + k) by (destruct Hold as [[-> _]|[-> _]]; cbn; lia).
  assert (Hpos : 1 <= match old with g :: _ => slen g | [] => 0 end < n + k) by (destruct Hold as [[-> _]|[-> _]]; cbn; lia).
  assert (Hwz : w <> z) by (rewrite Ew; intros E; apply page_at_self in E; lia).
  assert (Hyd : y ∈ dom m) by (by eapply slb_dom). assert (Hzd : z ∈ dom m) by (destruct Hxy as [[-> ->]|[-> ->]]; [by eapply slb_dom|done]).
  assert (Hwd : w ∈ dom m) by (destruct Hxy as [[-> ->]|[-> ->]]; done).
  write (m1 & E & S1 & K1).
  assert (HR1 : dring m1 0 (p_free s) (la ++ y :: lb)) by (eapply dring_keeps; [exact HR|exact K1|by intros ? ?%elem_of_nil..]).
  destruct (unlink_spec (with_desc s m1) 0 (p_free s) la y lb HR1) as (m2 & E2 & HR2 & K2); [done|]. erewrite run_bind; [|exact E2]. cbn in K2.
  change (with_desc (with_desc s m1) m2) with (with_desc s m2). write (m3 & E & C3 & K3). exists m3. split; [done|].
  destruct (dring_at _ _ _ _ _ _ HR) as (_ & _ & Hne1 & Hne2 & _). destruct (dring_around s _ _ _ _ _ HR) as (_ & _ & _ & Hpr & Hqr).
  set (p := default (p_free s) (last la)) in *. set (q := default (p_free s) (head lb)) in *.
  assert (K13 : keeps m m3 [p; w] [q; w] [z; w]) by (eapply keeps_sub; [eapply keeps_trans; [exact K1|eapply keeps_trans; [exact K2|exact K3]]|incl..]).
  assert (Hwr : y = w \/ w ∉ p_free s :: la ++ y :: lb).
  { destruct Hxy as [[-> _]|[-> ->]]; [by left|right]. rewrite <- El, <- (page_at_0 w).
    apply (cell_not_ring ps s N HG m R _ HI' RFree w (Loose n) 0 I Hx'); [cbn; lia|by right]. }
  assert (Hwr2 : w ∉ p_free s :: la ++ lb).
  { destruct Hwr as [<-|Hw].
    - assert (Hnd := dr_nodup _ _ _ _ HR). assert (Hp : p_free s :: la ++ y :: lb ≡ₚ y :: p_free s :: la ++ lb) by solve_Permutation.
      rewrite Hp in Hnd. by apply NoDup_cons in Hnd as [? _].
    - intros Hin. apply Hw. revert Hin. rewrite !elem_of_cons, !elem_of_app, elem_of_cons. tauto. }
  exists (fun r => if decide (r = RFree) then la ++ lb else R r).
  eapply (inv_ring_step ps s N HG m R _ HI' RFree ka old [Loose (n + k)] kb m3 (la ++ lb) (la ++ lb) _ _ _ eq_refl I K13); rewrite <- ?Ez.
  - rewrite Hlen. intros b [->|[->|[]%elem_of_nil]%elem_of_cons]%elem_of_cons; [exists 0; rewrite page_at_0; split; [lia|done]|].
    eexists. split; [|exact Ew]. lia.
  - rewrite Hlen. cbn [rhead]. rewrite El. intros b Ha. rewrite !elem_of_cons, !elem_of_nil in Ha.
    assert (b = p \/ b = q \/ b = w) as [->|[->| ->]] by tauto; [by left|by left|]. right. eexists. split; [|exact Ew]. lia.
  - destruct Hold as [[-> _]|[-> _]]; repeat (constructor; [by (left + right)|]); constructor.
  - constructor; [by left|constructor].
  - cbn. lia.
  - constructor; [|constructor]. cbn [fst snd seg_ok]. split_and!; [lia|fld|fld|].
    intros i Hi. assert (Hzi : page_at z i <> z) by (intros E; apply page_at_self in E; lia).
    destruct (decide (page_at z i = w)) as [->|Hiw].
    + apply cell_fields in C3 as (S3 & N3 & P3). cbn in S3, N3, P3. split; [done|]. split; [done|]. exists 0. split; [done|by exists 0].
    + assert (Hin : slb m (page_at z i) = Some 0 /\ nxt m (page_at z i) = Some 0 /\ (exists v0, prv m (page_at z i) = Some v0 /\ (4 | v0))).
      { set (c := match old with g :: _ => slen g | [] => 0 end) in *. destruct (decide (i < c)) as [Hic|Hic].
        - destruct Hold as [[-> Ey]|[-> Ey]]; cbn in c; subst c; destruct Hxy as [[Hy1 Hx1]|[Hy1 Hx1]]; try congruence;
            [rewrite Hx1 in Hli; apply Hli|rewrite Hy1 in Hfi; apply Hfi]; lia.
        - assert (i <> c) by (intros ->; done). replace i with (c + (i - c)) by lia. rewrite <- page_at_add, <- Ew.
          destruct Hold as [[-> Ey]|[-> Ey]]; cbn in c; subst c; destruct Hxy as [[Hy1 Hx1]|[Hy1 Hx1]]; try congruence;
            [rewrite Hy1 in Hfi; apply Hfi|rewrite Hx1 in Hli; apply Hli]; lia. }
      assert (Hri : page_at z i ∉ p_free s :: la ++ y :: lb).
      { rewrite <- El. destruct (cell_of (page_at P0 (total ka)) old i) as (y0 & g & j & Hy0 & Hj & Ei).
        - destruct Hold as [[-> _]|[-> _]]; repeat (constructor; [cbn; lia|]); constructor.
        - lia.
        - rewrite <- Ez in Ei. rewrite Ei. apply (cell_not_ring ps s N HG m R _ HI' RFree y0 g j I); [|done|].
          + rewrite !starts_app, !elem_of_app. right. by left.
          + left. intros ->. rewrite page_at_0 in Ei. rewrite <- Ez in Hy0. destruct Hold as [[-> _]|[-> _]]; cbn in Hy0, Ew;
              rewrite !elem_of_cons, elem_of_nil in Hy0; destruct Hy0 as [[= E0 _]|[[= E0 _]|[]]]; rewrite Ei in *; congruence. }
      destruct Hin as (I1 & I2 & v0 & I3 & I4).
      assert (page_at z i <> p) by (intros E; rewrite E in Hri; done). assert (page_at z i <> q) by (intros E; rewrite E in Hri; done).
      rewrite (k_slb _ _ _ _ _ K13), (k_nxt _ _ _ _ _ K13), (k_prv _ _ _ _ _ K13) by notin. split; [done|]. split; [done|]. by exists v0.
  - cbn [rtag rhead]. eapply dring_keeps; [exact HR2|exact K3|..]; intros b ->%list_elem_of_singleton; [done|]. intros Hin. apply Hwr2. by right.
  - rewrite El. destruct Hold as [[-> ->]|[-> ->]]; cbn [starts slen]; rewrite !members_cons; cbn in Ew |- *; [rewrite <- Ew|]; solve_Permutation.
  - cbn. done.
Qed.
End Join.

Lemma with_desc_id s : with_desc s (p_desc s) = s.
Proof. by destruct s. Qed.

Definition not_free (o : option seg) : Prop := match o with Some (Free _) => False | _ => True end.

Lemma join_next_spec s N R l1 l2 n :
  let x := page_at (p_pages s) (total l1) in
  geom ps s N -> inv ps s N (p_desc s) R (l1 ++ Loose n :: l2) -> Forall clean l2 ->
  exists n' l2' m' R', join_next x (n - 1) s = Some (n' - 1, with_desc s m') /\ inv ps s N m' R' (l1 ++ Loose n' :: l2')
    /\ (n' = n /\ l2' = l2 /\ not_free (head l2) \/ exists k, l2 = Free k :: l2' /\ n' = n + k).
Proof.
  intros x HG HI Hc2. set (m := p_desc s) in *. destruct (loose_ok s N R l1 l2 n HI) as (Hn & Hs & Hxd & _).
  destruct (loose_total s N R l1 l2 n HI) as (Ht & Ht1 & Ht2).
  assert (Ej : page_at x n = page_at (p_pages s) (total l1 + n)) by (unfold x; by rewrite page_at_add).
  unfold join_next. read. cbv zeta. rewrite run_gets, (g_last _ _ _ HG), Ej. clear Ej.
  assert (Hsame : not_free (head l2) -> exists n' l2' m' R', Some (n - 1, s) = Some (n' - 1, with_desc s m') /\ inv ps s N m' R' (l1 ++ Loose n' :: l2')
    /\ (n' = n /\ l2' = l2 /\ not_free (head l2) \/ exists k, l2 = Free k :: l2' /\ n' = n + k)).
  { intros Hf. exists n, l2, m, R. unfold m. rewrite with_desc_id. split; [done|]. split; [done|by left]. }
  destruct l2 as [|g l2'].
  { cbn in Ht. replace (total l1 + n) with N by lia. rewrite Z.ltb_irrefl. by apply Hsame. }
  assert (Hg : (page_at (p_pages s) (total l1 + n), g) ∈ starts (p_pages s) (l1 ++ Loose n :: g :: l2')).
  { rewrite starts_app, elem_of_app. right. cbn. rewrite page_at_add. right. by left. }
  assert (Hlt : page_at (p_pages s) (total l1 + n) < page_at (p_pages s) N).
  { assert (Hl := start_len ps s N m R _ HI _ _ Hg). assert (HP := inv_lens _ _ _ _ _ _ HI). unfold positive_lens in HP.
    rewrite Forall_app, !Forall_cons in HP. destruct HP as (_ & _ & _ & HP). pose proof (total_nonneg _ HP). cbn in Ht.
    unfold page_at, SIZEOF_PAGE. lia. }
  rewrite (proj2 (Z.ltb_lt _ _) Hlt). apply Forall_cons in Hc2 as [Hcg _].
  destruct (seg_first s N HG m R _ HI _ _ Hg Hcg) as (v & w & Hv & Htag & Hw & Hw0). unfold ngx_slab_page_type.
  rewrite run_assoc. read. rewrite run_ret, Htag. destruct g as [k|k|sh b|sh|k]; cbn in Hcg, Hw0 |- *; try done.
  - read. rewrite Hw0. cbn. assert (Hfok := start_ok ps s N m R _ HI _ _ Hg). destruct Hfok as (_ & Hfs & _). read.
    destruct (join_ring s N HG R l1 (Free k :: l2') n HI (n - 1 + k) [Loose n; Free k] k (page_at (p_pages s) (total l1 + n)) x (page_at (p_pages s) (total l1 + n)) l1 l2')
      as (m' & E & R' & HI'); [left; done|done|done|cbn; unfold x; by rewrite page_at_add|].
    exists (n + k), l2', m', R'. split; [|split; [done|right; by exists k]]. replace (n + k - 1) with (n - 1 + k) by lia. exact E.
  - read. rewrite Hw0. cbn. by apply Hsame.
  - pose proof (page_kind_pos ps sh) as Hk. unfold NGX_SLAB_PAGE. rewrite (proj2 (Z.eqb_neq _ _) Hk). by apply Hsame.
Qed.

(** The last descriptor of a segment: its type, and the start of a free run. *)
Lemma seg_end s N R segs y g : let m := p_desc s in
  geom ps s N -> inv ps s N m R segs -> (y, g) ∈ starts (p_pages s) segs -> clean g -> slen g < N ->
  exists v c, let e := page_at y (slen g - 1) in
    prv m e = Some v /\ Z.land v NGX_SLAB_PAGE_MASK = seg_tag g /\ slb m e = Some c
    /\ match g with
       | Free k => nxt m y <> Some SNULL /\ (c = NGX_SLAB_PAGE_FREE /\ Z.land v (Z.lnot NGX_SLAB_PAGE_MASK) = y \/ c <> NGX_SLAB_PAGE_FREE /\ e = y)
       | Pages k => c <> NGX_SLAB_PAGE_FREE /\ nxt m e = Some SNULL
       | _ => True
       end.
Proof.
  intros m HG HI Hy Hc HltN. assert (Hok := start_ok ps s N m R segs HI y g Hy). destruct (seg_first s N HG m R segs HI y g Hy Hc) as (v & w & Hv & Ht & Hw & Hw0).
  assert (Hal : (4 | y)) by (by apply (start_bounds ps s N HG m R segs HI y g)). assert (Hlen := seg_ok_len _ _ _ _ _ Hok).
  destruct (decide (slen g = 1)) as [E1|Hne].
  - replace (slen g - 1) with 0 by lia. rewrite page_at_0. destruct g as [k|k|sh b|sh|k]; cbn in Hok, Hc, E1, Hw0; try done.
    + exists v, k. destruct Hok as (_ & Hs & _). split_and!; try done; [|right; split; [unfold NGX_SLAB_PAGE_FREE; lia|done]].
      rewrite Hw. intros [= ->]. done.
    + destruct Hok as (_ & Hcell & _). apply cell_fields in Hcell as (Hs & Hn & Hp). cbn in Hs, Hn, Hp. rewrite Hp in Hv. injection Hv as <-.
      eexists _, _. split_and!; [done..| |done]. rewrite E1. done.
    + destruct Hok as (_ & Hs & _). eexists _, _. split_and!; done.
  - destruct g as [k|k|sh b|sh|k]; cbn in Hok, Hc, Hne, Hlen, Hw0, HltN; try done.
    + destruct Hok as (_ & _ & Hi & Hp). destruct (Hi (k - 1)) as (I1 & _); [lia|]. exists y, 0. cbn [slen]. split_and!; [apply Hp; lia| |done| |left; split; [done|]].
      * cbn. rewrite <- (Z.lor_0_r y). by rewrite tag_type.
      * rewrite Hw. intros [= ->]. done.
      * rewrite <- (Z.lor_0_r y) at 1. by rewrite tag_ptr.
    + destruct Hok as (_ & _ & Hi). specialize (Hi (k - 1) ltac:(lia)). apply cell_fields in Hi as (Hs & Hn & Hp). cbn in Hs, Hn, Hp.
      eexists _, _. cbn [slen]. split_and!; [exact Hp|done|exact Hs|done|done].
Qed.

Lemma join_prev_spec s N R l1 l2 n :
  let x := page_at (p_pages s) (total l1) in
  geom ps s N -> inv ps s N (p_desc s) R (l1 ++ Loose n :: l2) -> Forall clean l1 ->
  exists n' l1' m' R', join_prev x (n - 1) s = Some ((page_at (p_pages s) (total l1'), n' - 1), with_desc s m')
    /\ inv ps s N m' R' (l1' ++ Loose n' :: l2)
    /\ (n' = n /\ l1' = l1 /\ not_free (last l1) \/ exists k, l1 = l1' ++ [Free k] /\ n' = k + n).
Proof.
  intros x HG HI Hc1. set (m := p_desc s) in *. destruct (loose_ok s N R l1 l2 n HI) as (Hn & Hs & Hxd & _).
  assert (Hsame : not_free (last l1) -> exists n' l1' m' R', Some ((x, n - 1), s) = Some ((page_at (p_pages s) (total l1'), n' - 1), with_desc s m')
    /\ inv ps s N m' R' (l1' ++ Loose n' :: l2) /\ (n' = n /\ l1' = l1 /\ not_free (last l1) \/ exists k, l1 = l1' ++ [Free k] /\ n' = k + n)).
  { intros Hf. exists n, l1, m, R. unfold m. rewrite with_desc_id. split; [done|]. split; [done|by left]. }
  unfold join_prev. rewrite run_gets. destruct l1 as [|g l1' _] using rev_ind.
  { unfold x. cbn [total]. rewrite page_at_0, Z.ltb_irrefl. unfold x in Hsame. cbn [total] in Hsame. rewrite page_at_0 in Hsame. by apply Hsame. }
  rewrite last_snoc in Hsame |- *. assert (Hg : (page_at (p_pages s) (total l1'), g) ∈ starts (p_pages s) ((l1' ++ [g]) ++ Loose n :: l2)) by (rewrite <- app_assoc; apply starts_mem).
  set (z := page_at (p_pages s) (total l1')) in *. assert (Hlen := start_len ps s N m R _ HI _ _ Hg).
  assert (Ex : x = page_at z (slen g)) by (unfold x, z; rewrite total_app, page_at_add; cbn; f_equal; lia).
  assert (Hlt : p_pages s < x).
  { assert (HP := inv_lens _ _ _ _ _ _ HI). unfold positive_lens in HP. rewrite !Forall_app in HP. destruct HP as ((HP & _) & _).
    pose proof (total_nonneg _ HP). rewrite Ex. unfold z, page_at, SIZEOF_PAGE. lia. }
  rewrite (proj2 (Z.ltb_lt _ _) Hlt). cbv zeta.
  assert (Ee : x - SIZEOF_PAGE = page_at z (slen g - 1)) by (rewrite Ex; unfold page_at, SIZEOF_PAGE; lia). rewrite Ee.
  apply Forall_app in Hc1 as (_ & [Hcg _]%Forall_cons).
  assert (HltN : slen g < N).
  { assert (Ht := i_total _ _ _ _ _ _ HI). assert (HP := inv_lens _ _ _ _ _ _ HI). unfold positive_lens in HP. rewrite !Forall_app in HP. destruct HP as ((HP1 & _) & HP2).
    apply Forall_cons in HP2 as [_ HP2]. pose proof (total_nonneg _ HP1). pose proof (total_nonneg _ HP2). rewrite !total_app in Ht. cbn in Ht. lia. }
  destruct (seg_end s N R _ z g HG HI Hg Hcg HltN) as (v & c & Hv & Ht & Hs' & Hrest). unfold ngx_slab_page_type. rewrite run_assoc.
  erewrite run_prv; [|exact Hv]. rewrite run_ret, Ht. destruct g as [k|k|sh b|sh|k]; cbn in Hcg; try done; cbn [seg_tag].
  - rewrite Z.eqb_refl. erewrite run_slb; [|exact Hs']. destruct Hrest as [Hnz Hrest]. assert (Hfok := start_ok ps s N m R _ HI _ _ Hg). destruct Hfok as (_ & Hfs & _).
    assert (Hjoin : forall (f : Z -> SM (Z * Z)), ((if c =? NGX_SLAB_PAGE_FREE then ngx_slab_page_prev (page_at z (slen (Free k) - 1)) else mret (page_at z (slen (Free k) - 1))) ≫= f) s = f z s).
    { intros f. destruct Hrest as [[-> Hptr]|[Hc0 He]].
      - rewrite Z.eqb_refl. unfold ngx_slab_page_prev. rewrite run_assoc. erewrite run_prv; [|exact Hv]. by rewrite run_ret, Hptr.
      - rewrite (proj2 (Z.eqb_neq _ _) Hc0), run_ret. by rewrite He. }
    rewrite Hjoin. destruct (seg_first s N HG m R _ HI _ _ Hg I) as (v0 & w & _ & _ & Hw & Hw0). erewrite run_nxt; [|exact Hw].
    rewrite Hw0. rewrite bool_decide_eq_false_2 by done. cbn [negb]. erewrite run_slb; [|exact Hfs]. read. rewrite (Z.add_comm k n).
    rewrite <- app_assoc in HI. cbn [app] in HI.
    destruct (join_ring s N HG R (l1' ++ [Free k]) l2 n ltac:(rewrite <- app_assoc; exact HI) (z, n - 1 + k) [Free k; Loose n] k z z x l1' l2) as (m' & E & R' & HI');
      [by right|by rewrite <- app_assoc|done|exact Ex|].
    exists (k + n), l1', m', R'. split; [|split; [by rewrite (Z.add_comm k n)|right; by exists k]]. fold z. replace (k + n - 1) with (n - 1 + k) by lia. exact E.
  - rewrite Z.eqb_refl. erewrite run_slb; [|exact Hs']. destruct Hrest as [Hc0 Hn0]. rewrite (proj2 (Z.eqb_neq _ _) Hc0), run_ret.
    erewrite run_nxt; [|exact Hn0]. cbn [negb Z.eqb SNULL]. by apply Hsame.
  - pose proof (page_kind_pos ps sh) as Hk. unfold NGX_SLAB_PAGE. rewrite (proj2 (Z.eqb_neq _ _) Hk). by apply Hsame.
Qed.

(** ** Into the ring of free runs *)

Lemma place_spec s N R l1 l2 n :
  let x := page_at (p_pages s) (total l1) in
  geom ps s N -> inv ps s N (p_desc s) R (l1 ++ Loose n :: l2) ->
  exists m' R', ((if negb (n - 1 =? 0) then set_sprev (page_at x (n - 1)) x else mret tt);; link_run x) s = Some (tt, with_desc s m')
    /\ inv ps s N m' R' (l1 ++ Free n :: l2).
Proof.
  intros x HG HI. set (m := p_desc s) in *. destruct (loose_ok s N R l1 l2 n HI) as (Hn & Hs & Hxd & Hin). fold x in Hs, Hxd, Hin. fold m in Hs, Hxd, Hin.
  assert (Hst : (x, Loose n) ∈ starts (p_pages s) (l1 ++ Loose n :: l2)) by apply starts_mem.
  assert (Hnr : forall i, 0 <= i < n -> page_at x i ∉ p_free s :: R RFree).
  { intros i Hi. apply (cell_not_ring ps s N HG m R _ HI RFree x (Loose n) i I Hst Hi). by right. }
  assert (Hal : (4 | x)) by (apply page_align, (g_palign _ _ _ HG)). assert (HR := i_ring _ _ _ _ _ _ HI RFree I). cbn in HR.
  assert (Hpre : exists m1, (if negb (n - 1 =? 0) then set_sprev (page_at x (n - 1)) x else mret tt) s = Some (tt, with_desc s m1)
    /\ (1 < n -> prv m1 (page_at x (n - 1)) = Some x) /\ keeps m m1 [] [page_at x (n - 1)] []).
  { destruct (Z.eqb_spec (n - 1) 0) as [E|Hne]; cbn [negb].
    - exists m. unfold m. rewrite with_desc_id. split; [done|]. split; [lia|apply keeps_refl].
    - assert (Hd : page_at x (n - 1) ∈ dom (p_desc s)) by (eapply slb_dom, (Hin (n - 1)); lia). rewrite <- run_ret_r.
      write (m1 & E & P1 & K1). by exists m1. }
  destruct Hpre as (m1 & E1 & P1 & K1). erewrite run_bind; [|exact E1].
  assert (HR1 : dring m1 0 (p_free s) (R RFree)).
  { eapply dring_keeps; [exact HR|exact K1|by intros ? ?%elem_of_nil|]. intros y ->%list_elem_of_singleton Hy. apply (Hnr (n - 1)); [lia|by right]. }
  assert (Hx0 := Hnr 0 ltac:(lia)). rewrite page_at_0 in Hx0.
  destruct (link_spec (with_desc s m1) (R RFree) x HR1 Hx0) as (m2 & E2 & HR2 & K2); [fld|done|]. cbn in K2.
  exists m2, (fun r => if decide (r = RFree) then x :: R RFree else R r). split; [exact E2|].
  set (q := default (p_free s) (head (R RFree))) in *. assert (Hq : q ∈ p_free s :: R RFree) by apply head_elem.
  assert (K12 : keeps m m2 [p_free s; x] [page_at x (n - 1); q; x] []) by (eapply keeps_step; [exact K1|exact K2|incl..]).
  assert (Hcellq : forall i, 0 <= i < n -> page_at x i <> q /\ page_at x i <> p_free s).
  { intros i Hi. split; intros E; apply (Hnr i Hi); rewrite E; [done|by left]. }
  apply (inv_ring_step ps s N HG m R _ HI RFree l1 [Loose n] [Free n] l2 m2 (x :: R RFree) (R RFree) _ _ _ eq_refl I K12); cbn [total slen]; fold x.
  - by intros y ?%elem_of_nil.
  - intros y Hy. rewrite !elem_of_cons, !elem_of_nil in Hy. cbn [rhead].
    assert (y = p_free s \/ y = x \/ y = page_at x (n - 1) \/ y = q) as [->|[->|[->| ->]]] by tauto.
    + left. by left.
    + right. exists 0. rewrite page_at_0. split; [lia|done].
    + right. exists (n - 1). split; [lia|done].
    + by left.
  - constructor; [by left|constructor].
  - constructor; [by right|constructor].
  - done.
  - constructor; [|constructor]. cbn [fst snd seg_ok]. split_and!; [done|fld| |].
    + intros i Hi. destruct (Hcellq i ltac:(lia)) as [H1 H2]. assert (Hxi : page_at x i <> x) by (intros E; apply page_at_self in E; lia).
      destruct (Hin i Hi) as (I1 & I2 & v & I3 & I4). split; [fld|]. split; [fld|]. destruct (decide (i = n - 1)) as [->|Hne].
      * exists x. split; [|done]. rewrite (k_prv _ _ _ _ _ K2) by notin. apply P1. lia.
      * exists v. split; [|done]. assert (page_at x i <> page_at x (n - 1)) by (intros E; by apply page_at_inj in E). fld.
    + intros Hn1. destruct (Hcellq (n - 1) ltac:(lia)) as [H1 H2]. assert (Hxi : page_at x (n - 1) <> x) by (intros E; apply page_at_self in E; lia).
      rewrite (k_prv _ _ _ _ _ K2) by notin. apply P1; lia.
  - exact HR2.
  - done.
  - done.
Qed.

(** ** Out of its ring *)

Definition released (n : Z) (g : seg) : Prop := match g with Pages k => k = n | Spent _ => n = 1 | _ => False end.

Lemma loosen_spec s N R l1 g l2 n :
  let x := page_at (p_pages s) (total l1) in
  geom ps s N -> inv ps s N (p_desc s) R (l1 ++ g :: l2) -> released n g ->
  exists m' R', (forall {A} (k : unit -> SM A), (set_slab x n;; zero_loop (Z.to_nat (n - 1)) (page_at x 1);; w ← sget sp_next x;
      (if negb (w =? SNULL) then unlink x else mret tt) ≫= k) s = k tt (with_desc s m'))
    /\ inv ps s N m' R' (l1 ++ Loose n :: l2).
Proof.
  intros x HG HI Hrel. set (m := p_desc s) in *. assert (Hst : (x, g) ∈ starts (p_pages s) (l1 ++ g :: l2)) by apply starts_mem.
  assert (Hok := start_ok ps s N m R _ HI _ _ Hst). assert (Hcd : forall i, 0 <= i < slen g -> page_at x i ∈ dom m) by (intros i Hi; by eapply seg_cell_dom).
  assert (Hxd : x ∈ dom (p_desc s)) by (rewrite <- (page_at_0 x); apply Hcd; apply seg_ok_len in Hok; lia).
  assert (Hset : exists m1, set_slab x n s = Some (tt, with_desc s m1) /\ slb m1 x = Some n /\ keeps m m1 [] [] [x]).
  { rewrite <- run_ret_r. write (m1 & E & S1 & K1). by exists m1. }
  destruct Hset as (m1 & E1 & S1 & K1). destruct g as [k|k|sh b|sh|k]; cbn in Hrel; try done.
  - subst k. cbn in Hok. destruct Hok as (Hn & Hc & Hcs). apply cell_fields in Hc as (_ & Hnx & _). cbn in Hnx.
    destruct (fill_spec zero_page (Z.to_nat (n - 1)) (page_at x 1) (with_desc s m1)) as (m2 & E2 & C2 & K2).
    { intros i Hi. fld. rewrite page_at_add. apply Hcd. cbn. lia. }
    cbn in K2. rewrite Z2Nat.id in C2, K2 by lia. set (L := descs (page_at x 1) (n - 1)) in *.
    assert (HxL : x ∉ L).
    { intros (i & Hi & E)%elem_of_descs. rewrite page_at_add in E. symmetry in E. apply page_at_self in E. lia. }
    assert (K12 : keeps m m2 L L (x :: L)) by (eapply keeps_sub; [by eapply keeps_trans|done..]).
    exists m2, (fun r => if decide (r = RFree) then R RFree else R r). split.
    { intros A k. erewrite run_bind; [|exact E1]. rewrite zero_fill. erewrite run_bind; [|exact E2].
      erewrite run_nxt; [|cbn; rewrite (k_nxt _ _ _ _ _ K12) by done; exact Hnx]. done. }
    assert (HL : forall y, y ∈ L -> exists i, 1 <= i < n /\ y = page_at x i).
    { intros y (i & Hi & ->)%elem_of_descs. exists (1 + i). rewrite page_at_add. split; [lia|done]. }
    apply (inv_ring_step ps s N HG m R _ HI RFree l1 [Pages n] [Loose n] l2 m2 (R RFree) (R RFree) _ _ _ eq_refl I K12); cbn [total slen]; fold x.
    + intros y [->|(i & Hi & ->)%HL]%elem_of_cons; [exists 0; rewrite page_at_0; split; [lia|done]|exists i; split; [lia|done]].
    + intros y Hy. right. destruct Hy as [(i & Hi & ->)%HL|(i & Hi & ->)%HL]; exists i; (split; [lia|done]).
    + constructor; [by left|constructor].
    + constructor; [by left|constructor].
    + done.
    + constructor; [|constructor]. cbn [fst snd seg_ok]. split_and!; [done|by rewrite (k_slb _ _ _ _ _ K2)|fld|].
      intros i Hi. replace i with (1 + (i - 1)) by lia. rewrite <- page_at_add. specialize (C2 (i - 1) ltac:(lia)).
      apply cell_fields in C2 as (? & ? & ?). split; [done|]. split; [done|]. exists 0. split; [done|by exists 0].
    + eapply dring_keeps; [by apply (i_ring _ _ _ _ _ _ HI RFree)|exact K12|..].
      all: intros y (i & Hi & ->)%HL Hin; apply (cell_not_ring ps s N HG m R _ HI RFree x (Pages n) i I Hst); [cbn; lia|left; lia|]; try done; by right.
    + done.
    + done.
  - subst n. assert (Hsh : 3 <= sh < ps) by apply Hok. destruct (ring_fields s N HG m R _ HI (RSlot sh) x (Spent sh) Hst eq_refl) as (la & lb & v & w & El & _ & _ & Hw & Hwp & _).
    assert (HR := i_ring _ _ _ _ _ _ HI (RSlot sh) Hsh). rewrite El in HR. assert (HR1 : dring m1 (rtag ps (RSlot sh)) (rhead s (RSlot sh)) (la ++ x :: lb)).
    { eapply dring_keeps; [exact HR|exact K1|by intros ? ?%elem_of_nil..]. }
    destruct (unlink_spec (with_desc s m1) _ _ la x lb HR1 (rtag_range ps (RSlot sh))) as (m2 & E2 & HR2 & K2). cbn [p_desc with_desc upd] in K2.
    destruct (dring_at _ _ _ _ _ _ HR) as (_ & _ & Hne1 & Hne2 & _). destruct (dring_around s _ _ _ _ _ HR) as (_ & _ & _ & Hpr & Hqr).
    set (p := default _ (last la)) in *. set (q := default _ (head lb)) in *.
    assert (K12 : keeps m m2 [p] [q] [x]) by (eapply keeps_step; [exact K1|exact K2|incl..]).
    exists m2, (fun r => if decide (r = RSlot sh) then la ++ lb else R r). split.
    { intros A k. erewrite run_bind; [|exact E1]. change (zero_loop (Z.to_nat (1 - 1)) (page_at x 1)) with (mret tt : SM unit). rewrite run_ret.
      erewrite run_nxt; [|cbn; rewrite (k_nxt _ _ _ _ _ K1); [exact Hw|apply not_elem_of_nil]]. rewrite (proj2 (Z.eqb_neq _ _)) by (unfold SNULL; lia).
      cbn [negb]. erewrite run_bind; [|exact E2]. done. }
    apply (inv_ring_step ps s N HG m R _ HI (RSlot sh) l1 [Spent sh] [Loose 1] l2 m2 (la ++ lb) (la ++ lb) _ _ _ eq_refl Hsh K12); cbn [total slen]; fold x.
    + intros y ->%list_elem_of_singleton. exists 0. rewrite page_at_0. split; [lia|done].
    + rewrite El. intros y [->%list_elem_of_singleton| ->%list_elem_of_singleton]; by left.
    + constructor; [by right|constructor].
    + constructor; [by left|constructor].
    + done.
    + constructor; [|constructor]. cbn [fst snd seg_ok]. split_and!; [done|by rewrite (k_slb _ _ _ _ _ K2) by notin|fld|]. intros i Hi. lia.
    + exact HR2.
    + rewrite El. cbn [starts]. rewrite members_cons, decide_True by done. cbn. solve_Permutation.
    + cbn. done.
Qed.

Lemma geom_same s s' N : p_addr s' = p_addr s -> p_pages s' = p_pages s -> p_last s' = p_last s -> p_min_shift s' = p_min_shift s ->
  p_min_size s' = p_min_size s -> p_start s' = p_start s -> p_end s' = p_end s -> geom ps s N -> geom ps s' N.
Proof.
  intros E1 E2 E3 E4 E5 E6 E7 [H1 H2 H3 H4 H5 H6 H7 H8 H9 H10 H11].
  split; unfold ngx_slab_slots in *; rewrite ?E1, ?E2, ?E3, ?E4, ?E5, ?E6, ?E7; done.
Qed.

(** ** The whole *)

Definition more_free (s : slab_pool) (m : mem) (n : Z) : slab_pool := (with_desc s m) <| p_pfree := u64 (p_pfree s + n) |>.

(** A released run of [n] pages between [l1] and [l2]. *)
Definition joined (l1 : list seg) (n : Z) (l2 segs : list seg) : Prop :=
  exists l1' pre post l2', l1 = l1' ++ pre /\ l2 = post ++ l2' /\ segs = l1' ++ Free (total pre + n + total post) :: l2'
    /\ (pre = [] /\ not_free (last l1) \/ exists k, pre = [Free k]) /\ (post = [] /\ not_free (head l2) \/ exists k, post = [Free k]).

Lemma free_pages_spec s N R l1 g l2 n :
  let x := page_at (p_pages s) (total l1) in
  geom ps s N -> inv ps s N (p_desc s) R (l1 ++ g :: l2) -> released n g -> Forall clean l1 -> Forall clean l2 ->
  exists m' R' segs, ngx_slab_free_pages x n s = Some (tt, more_free s m' n) /\ inv ps s N m' R' segs /\ joined l1 n l2 segs.
Proof.
  intros x HG HI Hrel Hc1 Hc2. unfold ngx_slab_free_pages. rewrite run_modify. set (s0 := s <| p_pfree := u64 (p_pfree s + n) |>).
  assert (HG0 : forall m, geom ps (with_desc s0 m) N) by (intros m; by apply (geom_same s)).
  assert (HI0 : inv ps s0 N (p_desc s0) R (l1 ++ g :: l2)) by (by apply (inv_same ps s)).
  destruct (loosen_spec s0 N R l1 g l2 n ltac:(rewrite <- (with_desc_id s0); apply HG0) HI0 Hrel) as (m1 & R1 & E1 & HI1). change (p_pages s0) with (p_pages s) in E1. fold x in E1.
  cbv zeta. rewrite E1. clear E1.
  destruct (join_next_spec (with_desc s0 m1) N R1 l1 l2 n (HG0 m1)) as (n2 & l2' & m2 & R2 & E2 & HI2 & Hj2); [by apply (inv_same ps s0)|done|].
  change (p_pages (with_desc s0 m1)) with (p_pages s) in E2. fold x in E2. erewrite run_bind; [|exact E2]. clear E2.
  destruct (join_prev_spec (with_desc s0 m2) N R2 l1 l2' n2 (HG0 m2)) as (n3 & l1' & m3 & R3 & E3 & HI3 & Hj3); [by apply (inv_same ps (with_desc s0 m1))|done|].
  change (p_pages (with_desc s0 m2)) with (p_pages s) in E3. fold x in E3. erewrite run_bind; [|exact E3]. clear E3. cbv beta iota.
  destruct (place_spec (with_desc s0 m3) N R3 l1' l2' n3 (HG0 m3)) as (m4 & R4 & E4 & HI4); [by apply (inv_same ps (with_desc s0 m2))|].
  change (p_pages (with_desc s0 m3)) with (p_pages s) in E4. exists m4, R4, (l1' ++ Free n3 :: l2'). split; [exact E4|]. split; [by apply (inv_same ps (with_desc s0 m3))|].
  destruct Hj3 as [(-> & -> & Hf1)|(k1 & -> & ->)], Hj2 as [(-> & -> & Hf2)|(k2 & -> & ->)].
  - exists l1, [], [], l2. rewrite app_nil_r. cbn. split_and!; try done; [f_equal; f_equal; f_equal; lia|by left|by left].
  - exists l1, [], [Free k2], l2'. rewrite app_nil_r. cbn. split_and!; try done; [f_equal; f_equal; f_equal; lia|by left|right; by exists k2].
  - exists l1', [Free k1], [], l2. cbn. split_and!; try done; [f_equal; f_equal; f_equal; lia|right; by exists k1|by left].
  - exists l1', [Free k1], [Free k2], l2'. cbn. split_and!; try done; [f_equal; f_equal; f_equal; lia|right; by exists k1|right; by exists k2].
Qed.
End Free.
