(* ===== verification/SlabChunk.v ===== *)
(** * Pages of chunks

    What the code on a page of chunks does to its descriptor and its ring; a
    page is [Spent] while its bitmap is being changed. *)

From stdpp Require Import gmap.
From S2P Require Import Prelude Slab SlabRing SlabPages SlabRuns SlabFree.

Section Chunk.
Context (ps : Z).

Lemma ring_of_chunks sh b : ~ full ps sh b -> ring_of ps (Chunks sh b) = Some (RSlot sh).
Proof. unfold full. cbn. destruct (Z.eqb_spec b (Z.ones (chunks ps sh))); done. Qed.

Lemma ring_of_full sh b : full ps sh b -> ring_of ps (Chunks sh b) = None.
Proof. unfold full. intros ->. cbn. by rewrite Z.eqb_refl. Qed.

Section State.
Context (s : slab_pool) (N : Z) (HG : geom ps s N) (l1 l2 : list seg).
#[local] Abbreviation x := (page_at (p_pages s) (total l1)).

(** The same ring, another description. *)
Lemma reseg m R g g' : inv ps s N m R (l1 ++ g :: l2) -> ring_of ps g' = ring_of ps g -> slen g' = slen g -> seg_ok ps N m x g' ->
  inv ps s N m R (l1 ++ g' :: l2).
Proof using HG.
  intros HI Hr Hl Hok. apply (inv_subst ps s N HG m R _ HI l1 [g] [g'] l2 m R [] [] [] eq_refl (keeps_refl m [] [] [])).
  - by intros ? ?%elem_of_nil.
  - by intros ? [?%elem_of_nil|?%elem_of_nil].
  - cbn. lia.
  - constructor; [done|constructor].
  - apply (i_ring _ _ _ _ _ _ HI).
  - intros r Hr'. exists (members ps r (starts (p_pages s) l1) ++ members ps r (starts (page_at x (slen g)) l2)).
    cbn [starts]. rewrite !members_cons, Hr. cbn [members filter fmap].
    assert (E : R r ≡ₚ (if decide (ring_of ps g = Some r) then [x] else []) ++ members ps r (starts (p_pages s) l1) ++ members ps r (starts (page_at x (slen g)) l2)).
    { rewrite (i_mem _ _ _ _ _ _ HI r Hr'), starts_app, members_app. cbn [starts]. rewrite members_cons. solve_Permutation. }
    rewrite E. split; cbn; solve_Permutation.
Qed.

Lemma spend m R sh b : inv ps s N m R (l1 ++ Chunks sh b :: l2) -> ~ full ps sh b -> inv ps s N m R (l1 ++ Spent sh :: l2).
Proof using HG.
  intros HI Hf. assert (Hok := start_ok ps s N m R _ HI x (Chunks sh b) (starts_mem _ _ _ _)). destruct Hok as (Hc & Hs & _).
  eapply reseg; [exact HI|by rewrite ring_of_chunks|done|]. cbn. split; [by apply co_shift in Hc|by eapply slb_dom].
Qed.

Lemma settle m R sh b : inv ps s N m R (l1 ++ Spent sh :: l2) -> slb m x = Some (slab_code ps sh b) -> chunk_ok ps sh b -> ~ full ps sh b ->
  inv ps s N m R (l1 ++ Chunks sh b :: l2).
Proof using HG. intros HI Hs Hc Hf. eapply reseg; [exact HI|by rewrite ring_of_chunks|done|]. cbn. by split_and!. Qed.

Context (R : rid -> list Z).
#[local] Abbreviation m := (p_desc s).

Lemma spent_slab sh v : inv ps s N m R (l1 ++ Spent sh :: l2) ->
  exists m', (forall {A} (k : unit -> SM A), (set_slab x v ≫= k) s = k tt (with_desc s m')) /\ slb m' x = Some v /\ inv ps s N m' R (l1 ++ Spent sh :: l2).
Proof using HG.
  intros HI. assert (Hok := start_ok ps s N m R _ HI x (Spent sh) (starts_mem _ _ _ _)). destruct Hok as (Hsh & Hd).
  assert (Hset : exists m1, set_slab x v s = Some (tt, with_desc s m1) /\ slb m1 x = Some v /\ keeps m m1 [] [] [x]).
  { rewrite <- run_ret_r. write (m1 & E & S1 & K1). by exists m1. }
  destruct Hset as (m' & E & S' & K). exists m'. split; [intros A k; by erewrite run_bind|]. split; [done|].
  apply (inv_subst ps s N HG m R _ HI l1 [Spent sh] [Spent sh] l2 m' R [] [] [x] eq_refl K).
  - intros y ->%list_elem_of_singleton. exists 0. rewrite page_at_0. split; [cbn; lia|done].
  - by intros ? [?%elem_of_nil|?%elem_of_nil].
  - done.
  - constructor; [|constructor]. cbn. split; [done|fld].
  - intros r Hr. eapply dring_keeps; [by apply (i_ring _ _ _ _ _ _ HI)|exact K|by intros ? ?%elem_of_nil..].
  - intros r Hr. exists (members ps r (starts (p_pages s) l1) ++ members ps r (starts (page_at x 1) l2)).
    assert (E' : R r ≡ₚ members ps r (starts x [Spent sh]) ++ members ps r (starts (p_pages s) l1) ++ members ps r (starts (page_at x 1) l2)).
    { rewrite (i_mem _ _ _ _ _ _ HI r Hr), starts_app, members_app. cbn [starts slen]. rewrite !members_cons. cbn [members filter fmap]. solve_Permutation. }
    by rewrite E'.
Qed.

(** A full page leaves its ring. *)
Lemma close_page_spec sh b : inv ps s N m R (l1 ++ Spent sh :: l2) -> slb m x = Some (slab_code ps sh b) -> chunk_ok ps sh b -> full ps sh b ->
  exists m' R', close_page x (page_kind ps sh) s = Some (tt, with_desc s m') /\ inv ps s N m' R' (l1 ++ Chunks sh b :: l2).
Proof using HG.
  intros HI Hs Hc Hf. assert (Hst : (x, Spent sh) ∈ starts (p_pages s) (l1 ++ Spent sh :: l2)) by apply starts_mem.
  assert (Hok := start_ok ps s N m R _ HI x (Spent sh) Hst). destruct Hok as (Hsh & Hd).
  destruct (ring_fields ps s N HG m R _ HI (RSlot sh) x (Spent sh) Hst eq_refl) as (la & lb & _ & _ & El & _).
  assert (HR := i_ring _ _ _ _ _ _ HI (RSlot sh) Hsh). rewrite El in HR.
  destruct (unlink_spec s _ _ la x lb HR (rtag_range ps (RSlot sh))) as (m1 & E1 & HR1 & K1).
  destruct (dring_around s _ _ _ _ _ HR) as (_ & _ & _ & Hpr & Hqr). set (p := default _ (last la)) in *. set (q := default _ (head lb)) in *.
  unfold close_page. erewrite run_bind; [|exact E1]. rewrite <- run_ret_r.
  destruct (run_put x (fun c => c <| sp_next := SNULL |> <| sp_prev := page_kind ps sh |>) mret (with_desc s m1)) as (c & Hc1 & E2); [fld|]. cbn in Hc1.
  rewrite E2. set (c' := c <| sp_next := _ |> <| sp_prev := _ |>). set (m2 := <[x := c']> m1).
  assert (K2 : keeps m1 m2 [x] [x] []).
  { eapply keeps_sub; [by apply (keeps_insert m1 x c c')|..]; cbn; intros y; repeat case_bool_decide; try done; by intros ?%elem_of_nil. }
  assert (C2 : m2 !! x = Some c') by (unfold m2; by rewrite lookup_insert_eq).
  assert (K12 : keeps m m2 [p; x] [q; x] []) by (eapply keeps_step; [exact K1|exact K2|incl..]).
  assert (Hxr : x ∉ rhead s (RSlot sh) :: la ++ lb).
  { assert (Hnd := dr_nodup _ _ _ _ HR). assert (Hp : rhead s (RSlot sh) :: la ++ x :: lb ≡ₚ x :: rhead s (RSlot sh) :: la ++ lb) by solve_Permutation.
    rewrite Hp in Hnd. by apply NoDup_cons in Hnd as [? _]. }
  exists m2, (fun r => if decide (r = RSlot sh) then la ++ lb else R r). split; [done|].
  apply (inv_ring_step ps s N HG m R _ HI (RSlot sh) l1 [Spent sh] [Chunks sh b] l2 m2 (la ++ lb) (la ++ lb) _ _ _ eq_refl Hsh K12); cbn [total slen].
  - by intros ? ?%elem_of_nil.
  - rewrite El. intros y Hy. rewrite !elem_of_cons, !elem_of_nil in Hy.
    assert (y = p \/ y = q \/ y = x) as [->|[->| ->]] by tauto; [by left|by left|]. right. exists 0. rewrite page_at_0. split; [lia|done].
  - constructor; [by right|constructor].
  - constructor; [by left; apply ring_of_full|constructor].
  - done.
  - constructor; [|constructor]. cbn [fst snd seg_ok]. split; [done|]. split; [fld|]. intros _. apply cell_fields in C2 as (_ & N2 & P2). done.
  - eapply dring_keeps; [exact HR1|exact K2|..]; intros y ->%list_elem_of_singleton; [done|]. intros Hin. apply Hxr. by right.
  - rewrite El. cbn [starts]. rewrite members_cons, decide_True by done. cbn. solve_Permutation.
  - cbn [starts]. rewrite members_cons, ring_of_full by done. done.
Qed.

(** A full page with a released chunk goes back to its ring. *)
Lemma reopen_full sh b : inv ps s N m R (l1 ++ Chunks sh b :: l2) -> full ps sh b ->
  exists m' R', (forall {A} (k : unit -> SM A), (reopen_page x (sh - 3) (page_kind ps sh) ≫= k) s = k tt (with_desc s m'))
    /\ inv ps s N m' R' (l1 ++ Spent sh :: l2) /\ slb m' x = slb m x.
Proof using HG.
  intros HI Hf. assert (Hst : (x, Chunks sh b) ∈ starts (p_pages s) (l1 ++ Chunks sh b :: l2)) by apply starts_mem.
  assert (Hok := start_ok ps s N m R _ HI x (Chunks sh b) Hst). destruct Hok as (Hc & Hs & _). assert (Hsh := co_shift _ _ _ Hc).
  assert (HR := i_ring _ _ _ _ _ _ HI (RSlot sh) Hsh).
  assert (Hx : x ∉ rhead s (RSlot sh) :: R (RSlot sh)).
  { rewrite <- (page_at_0 x). apply (cell_not_ring ps s N HG m R _ HI (RSlot sh) x (Chunks sh b) 0 Hsh Hst); [cbn; lia|right; by rewrite ring_of_full]. }
  destruct (reopen_spec s (sh - 3) _ (R (RSlot sh)) x HR Hx) as (m' & E & HR' & K); [by eapply slb_dom|apply page_align, (g_palign _ _ _ HG)|].
  exists m', (fun r => if decide (r = RSlot sh) then x :: R (RSlot sh) else R r). split; [intros A k; by erewrite run_bind|].
  split; [|rewrite (k_slb _ _ _ _ _ K); [done|apply not_elem_of_nil]].
  apply (inv_ring_step ps s N HG m R _ HI (RSlot sh) l1 [Chunks sh b] [Spent sh] l2 m' (x :: R (RSlot sh)) (R (RSlot sh)) _ _ _ eq_refl Hsh K); cbn [total slen].
  - by intros ? ?%elem_of_nil.
  - intros y Hy. assert (Hq := head_elem (rhead s (RSlot sh)) (R (RSlot sh))). rewrite !elem_of_cons, !elem_of_nil in Hy. cbn [rhead] in *.
    destruct Hy as [[->|[->|[]]]|[->|[->|[]]]]; try (by left); try (left; by left); right; exists 0; rewrite page_at_0; (split; [lia|done]).
  - constructor; [left; by apply ring_of_full|constructor].
  - constructor; [by right|constructor].
  - done.
  - constructor; [|constructor]. cbn. split; [done|]. rewrite (k_dom _ _ _ _ _ K). by eapply slb_dom.
  - exact HR'.
  - cbn [starts]. rewrite members_cons, ring_of_full by done. done.
  - cbn [starts]. rewrite members_cons, decide_True by done. done.
Qed.

(** A page becomes a page of chunks. *)
Lemma open_pages sh v : inv ps s N m R (l1 ++ Pages 1 :: l2) -> 3 <= sh < ps -> R (RSlot sh) = [] ->
  exists m' R', (forall {A} (k : unit -> SM A), (open_page x v (rhead s (RSlot sh)) (page_kind ps sh) ≫= k) s = k tt (with_desc s m'))
    /\ inv ps s N m' R' (l1 ++ Spent sh :: l2) /\ slb m' x = Some v.
Proof using HG.
  intros HI Hsh HRn. assert (Hst : (x, Pages 1) ∈ starts (p_pages s) (l1 ++ Pages 1 :: l2)) by apply starts_mem.
  assert (Hok := start_ok ps s N m R _ HI x (Pages 1) Hst). destruct Hok as (_ & Hc & _).
  assert (HR := i_ring _ _ _ _ _ _ HI (RSlot sh) Hsh). rewrite HRn in HR.
  assert (Hx : x ∉ rhead s (RSlot sh) :: R (RSlot sh)).
  { rewrite <- (page_at_0 x). apply (cell_not_ring ps s N HG m R _ HI (RSlot sh) x (Pages 1) 0 Hsh Hst); [cbn; lia|by right]. }
  apply not_elem_of_cons in Hx as [Hxh _].
  destruct (open_spec s _ _ x v HR Hxh) as (m' & E & HR' & S' & K); [by eapply elem_of_dom_2|apply page_align, (g_palign _ _ _ HG)|].
  exists m', (fun r => if decide (r = RSlot sh) then [x] else R r). split; [intros A k; by erewrite run_bind|]. split; [|done].
  apply (inv_ring_step ps s N HG m R _ HI (RSlot sh) l1 [Pages 1] [Spent sh] l2 m' [x] [] _ _ _ eq_refl Hsh K); cbn [total slen].
  - intros y ->%list_elem_of_singleton. exists 0. rewrite page_at_0. split; [lia|done].
  - intros y Hy. rewrite !elem_of_cons, !elem_of_nil in Hy.
    assert (y = rhead s (RSlot sh) \/ y = x) as [->| ->] by tauto; [left; by left|]. right. exists 0. rewrite page_at_0. split; [lia|done].
  - constructor; [by left|constructor].
  - constructor; [by right|constructor].
  - done.
  - constructor; [|constructor]. cbn. split; [done|]. by eapply slb_dom.
  - exact HR'.
  - by rewrite HRn.
  - cbn [starts]. rewrite members_cons, decide_True by done. done.
Qed.
End State.
End Chunk.
