(* ===== verification/SlabBits.v ===== *)
(** * Sizes and bitmaps of pages of chunks

    Arithmetic of the chunk sizes for pages of 4 to 64 kilobytes, and the loops
    that look for a free bit. *)

From stdpp Require Import gmap list_numbers.
From S2P Require Import Prelude Slab SlabRing SlabPages.

(** ** Sizes *)

Section Sizes.
Context (ps : Z) (Hps : 12 <= ps <= 16).

Lemma enum_ps (P : Z -> bool) : forallb P (seqZ 12 5) = true -> P ps = true.
Proof using Hps. rewrite forallb_forall. intros H. apply H, list_elem_of_In, elem_of_seqZ. lia. Qed.

(** A property of all chunk sizes by checking each of them. *)
Lemma enum_sh (P : Z -> Z -> bool) sh : 3 <= sh < ps -> forallb (fun p => forallb (P p) (seqZ 3 (p - 3))) (seqZ 12 5) = true -> P ps sh = true.
Proof using Hps.
  intros Hsh H. assert (H' := enum_ps _ H). cbn beta in H'. rewrite forallb_forall in H'. apply H', list_elem_of_In, elem_of_seqZ. lia.
Qed.

Lemma exact_shift_eq : ngx_slab_exact_shift ps = exact ps.
Proof using Hps. apply Z.eqb_eq. apply (enum_ps (fun ps => ngx_slab_exact_shift ps =? exact ps)). by vm_compute. Qed.

Lemma exact_size_eq : ngx_slab_exact_size ps = 2 ^ exact ps.
Proof using Hps. apply Z.eqb_eq. apply (enum_ps (fun ps => ngx_slab_exact_size ps =? 2 ^ exact ps)). by vm_compute. Qed.

Lemma max_size_eq : ngx_slab_max_size ps = 2 ^ (ps - 1).
Proof using Hps. apply Z.eqb_eq. apply (enum_ps (fun ps => ngx_slab_max_size ps =? 2 ^ (ps - 1))). by vm_compute. Qed.

Lemma shiftr_pagesize sh : 3 <= sh < ps -> Z.shiftr (ngx_pagesize ps) sh = chunks ps sh.
Proof using Hps. intros Hsh. apply Z.eqb_eq. apply (enum_sh (fun ps sh => Z.shiftr (ngx_pagesize ps) sh =? chunks ps sh) sh Hsh). by vm_compute. Qed.

(** What the bitmap of a small page needs. *)
Definition small_facts (ps sh : Z) : bool :=
  if sh <? exact ps then
    (chunks ps sh =? 64 * bitmap_words ps sh) && (2 <=? bitmap_words ps sh) && (1 <=? bitmap_chunks ps sh) && (bitmap_chunks ps sh + 1 <? chunks ps sh)
    && (8 * bitmap_words ps sh <=? bitmap_chunks ps sh * 2 ^ sh) && (bitmap_chunks ps sh * 2 ^ sh <=? 2 ^ (ps - 6))
    && ((bitmap_chunks ps sh + 1) / 64 <? bitmap_words ps sh) && (sh <? 16)
  else if sh =? exact ps then chunks ps sh =? 64
  else (2 <=? chunks ps sh) && (chunks ps sh <=? 32) && (sh <? 16).

Lemma small_sizes sh : 3 <= sh < ps -> sh < exact ps ->
  chunks ps sh = 64 * bitmap_words ps sh /\ 2 <= bitmap_words ps sh /\ 1 <= bitmap_chunks ps sh /\ bitmap_chunks ps sh + 1 < chunks ps sh
  /\ 8 * bitmap_words ps sh <= bitmap_chunks ps sh * 2 ^ sh /\ bitmap_chunks ps sh * 2 ^ sh <= 2 ^ (ps - 6)
  /\ (bitmap_chunks ps sh + 1) / 64 < bitmap_words ps sh.
Proof using Hps.
  intros Hsh Hlt. assert (H : small_facts ps sh = true) by (apply enum_sh; [done|by vm_compute]). unfold small_facts in H.
  rewrite (proj2 (Z.ltb_lt _ _) Hlt) in H. lia.
Qed.

Lemma exact_sizes : chunks ps (exact ps) = 64.
Proof using Hps.
  assert (H : small_facts ps (exact ps) = true) by (apply enum_sh; [unfold exact; lia|by vm_compute]). unfold small_facts in H.
  rewrite Z.ltb_irrefl, Z.eqb_refl in H. lia.
Qed.

Lemma big_sizes sh : 3 <= sh < ps -> exact ps < sh -> 2 <= chunks ps sh <= 32.
Proof using Hps.
  intros Hsh Hlt. assert (H : small_facts ps sh = true) by (apply enum_sh; [done|by vm_compute]). unfold small_facts in H.
  rewrite (proj2 (Z.ltb_ge _ _)), (proj2 (Z.eqb_neq _ _)) in H by lia. lia.
Qed.

Lemma meta_bounds sh : 3 <= sh < ps -> 0 <= meta ps sh /\ meta ps sh + 1 < chunks ps sh /\ meta ps sh * 2 ^ sh <= 2 ^ (ps - 6).
Proof using Hps.
  intros Hsh. unfold meta. destruct (Z.ltb_spec sh (exact ps)) as [Hlt|Hge].
  - destruct (small_sizes sh Hsh Hlt) as (_ & _ & ? & ? & _ & ? & _). lia.
  - assert (0 < 2 ^ (ps - 6)) by (apply Z.pow_pos_nonneg; lia). destruct (decide (sh = exact ps)) as [->|Hne].
    + rewrite exact_sizes. lia.
    + assert (Hb := big_sizes sh Hsh ltac:(lia)). lia.
Qed.

Lemma chunks_bytes sh : 3 <= sh < ps -> chunks ps sh * 2 ^ sh = 2 ^ ps.
Proof using Hps. intros Hsh. unfold chunks. rewrite <- Z.pow_add_r by lia. f_equal. lia. Qed.

End Sizes.

(** ** Bits *)

Lemma land_pow2_zero a i : 0 <= i -> (Z.land a (2 ^ i) =? 0) = negb (Z.testbit a i).
Proof.
  intros Hi. destruct (Z.testbit a i) eqn:E; cbn.
  - apply Z.eqb_neq. intros H. assert (H1 : Z.testbit (Z.land a (2 ^ i)) i = true) by (rewrite Z.land_spec, E, Z.pow2_bits_true by done; done).
    by rewrite H, Z.bits_0 in H1.
  - apply Z.eqb_eq. apply Z.bits_inj'. intros j Hj. rewrite Z.land_spec, Z.bits_0. destruct (decide (i = j)) as [->|Hne]; [by rewrite E|].
    rewrite Z.pow2_bits_false by done. apply andb_false_r.
Qed.

Lemma lor_pow2_range a i n : 0 <= i < n -> 0 <= a < 2 ^ n -> 0 <= Z.lor a (2 ^ i) < 2 ^ n.
Proof.
  intros Hi Ha. assert (0 <= Z.lor a (2 ^ i)) by (apply Z.lor_nonneg; split; [lia|apply Z.pow_nonneg; lia]). split; [done|].
  destruct (decide (Z.lor a (2 ^ i) = 0)) as [->|Hne]; [apply Z.pow_pos_nonneg; lia|]. apply Z.log2_lt_pow2; [lia|].
  rewrite Z.log2_lor by (lia || apply Z.pow_nonneg; lia). apply Z.max_lub_lt; [|rewrite Z.log2_pow2; lia].
  destruct (decide (a = 0)) as [->|]; [cbn; lia|]. apply Z.log2_lt_pow2; lia.
Qed.

(** Bits below [n] decide a number below [2 ^ n]. *)
Lemma testbit_high a n i : 0 <= a < 2 ^ n -> n <= i -> Z.testbit a i = false.
Proof.
  intros Ha Hi. destruct (Z.lt_ge_cases n 0) as [Hn|Hn]; [rewrite Z.pow_neg_r in Ha by done; lia|].
  rewrite <- (Z.mod_small a (2 ^ n)) by done. by apply Z.mod_pow2_bits_high.
Qed.

Lemma eq_bits a b n : 0 <= a < 2 ^ n -> 0 <= b < 2 ^ n -> (forall i, 0 <= i < n -> Z.testbit a i = Z.testbit b i) -> a = b.
Proof.
  intros Ha Hb H. apply Z.bits_inj'. intros i Hi. destruct (Z.lt_ge_cases i n); [by apply H|]. by rewrite !(testbit_high _ n).
Qed.

Lemma ones_range n : 0 <= n -> 0 <= Z.ones n < 2 ^ n.
Proof. intros Hn. rewrite Z.ones_equiv. assert (0 < 2 ^ n) by (by apply Z.pow_pos_nonneg). lia. Qed.

Lemma is_ones a n : 0 <= n -> 0 <= a < 2 ^ n -> a = Z.ones n <-> forall i, 0 <= i < n -> Z.testbit a i = true.
Proof.
  intros Hn Ha. split; [intros -> i Hi; by apply Z.ones_spec_low|]. intros H. apply (eq_bits _ _ n); [done|by apply ones_range|].
  intros i Hi. rewrite H, Z.ones_spec_low by lia. done.
Qed.

(** ** The loop over the bits of a word *)

Lemma u64_pow2 i : 0 <= i <= 64 -> u64 (Z.shiftl (u64 (2 ^ i)) 1) = u64 (2 ^ (i + 1)).
Proof.
  intros Hi. rewrite Z.shiftl_mul_pow2 by lia. unfold u64. rewrite Zmult_mod_idemp_l. f_equal. rewrite Z.pow_add_r by lia. done.
Qed.

Lemma free_bit_spec word off c fuel i :
  0 <= off -> 0 <= c -> off + c <= 64 -> 0 <= i <= c -> (Z.to_nat (c - i) < fuel)%nat ->
  (exists j, i <= j < c /\ Z.testbit word (off + j) = false
    /\ free_bit fuel word (Z.shiftl (Z.ones c) off) (u64 (2 ^ (off + i))) i = Some (2 ^ (off + j), j))
  \/ free_bit fuel word (Z.shiftl (Z.ones c) off) (u64 (2 ^ (off + i))) i = None /\ forall j, i <= j < c -> Z.testbit word (off + j) = true.
Proof.
  intros Ho Hc Hoc. revert i; induction fuel as [|fuel IH]; intros i Hi Hf; [lia|]. cbn [free_bit].
  destruct (decide (i = c)) as [->|Hne].
  - right. split; [|lia]. assert (E : Z.land (u64 (2 ^ (off + c))) (Z.shiftl (Z.ones c) off) = 0); [|by rewrite E].
    apply Z.bits_inj'. intros j Hj. rewrite Z.land_spec, Z.bits_0. destruct (decide (j < off + c)) as [Hlt|Hge].
    + unfold u64. destruct (Z.lt_ge_cases j 64); [|lia]. rewrite Z.mod_pow2_bits_low by lia. rewrite Z.pow2_bits_false by lia. done.
    + rewrite Z.shiftl_spec by lia. rewrite Z.ones_spec_high by lia. apply andb_false_r.
  - assert (Hlt : off + i < 64) by lia. assert (Eu : u64 (2 ^ (off + i)) = 2 ^ (off + i)).
    { apply u64_small. split; [apply Z.pow_nonneg; lia|apply Z.pow_lt_mono_r; lia]. }
    rewrite Eu. rewrite Z.land_comm, (land_pow2_zero _ (off + i)) by lia. rewrite Z.shiftl_spec by lia.
    replace (off + i - off) with i by lia. rewrite Z.ones_spec_low by lia. cbn [negb]. rewrite (land_pow2_zero word) by lia. rewrite negb_involutive.
    destruct (Z.testbit word (off + i)) eqn:Ew.
    + rewrite <- Eu, u64_pow2 by lia. replace (off + i + 1) with (off + (i + 1)) by lia.
      destruct (IH (i + 1) ltac:(lia) ltac:(lia)) as [(j & Hj & H1 & H2)|[H1 H2]].
      * left. exists j. split; [lia|done].
      * right. split; [done|]. intros j Hj. destruct (decide (j = i)) as [->|]; [done|]. apply H2. lia.
    + left. exists i. split; [lia|done].
Qed.

(** A whole word. *)
Lemma free_bit_word word : 0 <= word < 2 ^ 64 ->
  (word = NGX_SLAB_BUSY /\ free_bit 65 word NGX_SLAB_BUSY 1 0 = None)
  \/ exists j, 0 <= j < 64 /\ Z.testbit word j = false /\ free_bit 65 word NGX_SLAB_BUSY 1 0 = Some (2 ^ j, j).
Proof.
  intros Hw. destruct (free_bit_spec word 0 64 65 0) as [(j & Hj & H1 & H2)|[H1 H2]]; [lia..| |].
  - right. exists j. split; [lia|]. rewrite Z.add_0_l in *. by split.
  - left. split; [|exact H1]. change NGX_SLAB_BUSY with (Z.ones 64). apply is_ones; [lia|done|]. intros i Hi. specialize (H2 i ltac:(lia)). by rewrite Z.add_0_l in H2.
Qed.

Lemma busy_not_free word j : word = NGX_SLAB_BUSY -> 0 <= j < 64 -> Z.testbit word j = true.
Proof. intros -> Hj. change NGX_SLAB_BUSY with (Z.ones 64). by apply Z.ones_spec_low. Qed.

(** ** Words of a bitmap *)

Definition wd (b n : Z) : Z := Z.shiftr b (64 * n) mod 2 ^ 64.

Lemma wd_range b n : 0 <= wd b n < 2 ^ 64.
Proof. unfold wd. by apply Z.mod_pos_bound. Qed.

Lemma wd_bit b n j : 0 <= n -> 0 <= j < 64 -> Z.testbit (wd b n) j = Z.testbit b (64 * n + j).
Proof. intros Hn Hj. unfold wd. rewrite Z.mod_pow2_bits_low by lia. rewrite Z.shiftr_spec by lia. f_equal. lia. Qed.

Lemma bit_wd b i : 0 <= i -> Z.testbit b i = Z.testbit (wd b (i / 64)) (i mod 64).
Proof. intros Hi. rewrite wd_bit; [|apply Z.div_pos; lia|apply Z.mod_pos_bound; lia]. f_equal. apply Z.div_mod. lia. Qed.

Lemma wd_eq b v n : 0 <= n -> 0 <= v < 2 ^ 64 -> (forall j, 0 <= j < 64 -> Z.testbit v j = Z.testbit b (64 * n + j)) -> v = wd b n.
Proof. intros Hn Hv H. apply (eq_bits _ _ 64); [done|apply wd_range|]. intros j Hj. rewrite wd_bit by done. by apply H. Qed.
