(* ===== verification/SlabMark.v ===== *)
(** * Taking a chunk of a page

    The three kinds of pages: bitmap at the start of the page, bitmap that
    fills the descriptor's [slab], bitmap in its upper half. *)

From stdpp Require Import gmap.
From S2P Require Import Prelude Slab SlabRing SlabPages SlabRuns SlabFree SlabChunk SlabBits.

(** What the code never changes. *)
Record same_pool (s s' : slab_pool) : Prop := {
  sp_addr : p_addr s' = p_addr s;
  sp_pages : p_pages s' = p_pages s;
  sp_last : p_last s' = p_last s;
  sp_shift : p_min_shift s' = p_min_shift s;
  sp_size : p_min_size s' = p_min_size s;
  sp_start : p_start s' = p_start s;
  sp_end : p_end s' = p_end s
}.

Lemma same_refl s : same_pool s s.
Proof. done. Qed.

Lemma same_trans s1 s2 s3 : same_pool s1 s2 -> same_pool s2 s3 -> same_pool s1 s3.
Proof. intros [] []. split; congruence. Qed.

Section Mark.
Context (ps : Z).

Lemma geom_pool s s' N : same_pool s s' -> geom ps s N -> geom ps s' N.
Proof. intros []. by apply geom_same. Qed.

Lemma inv_pool s s' N m R segs : same_pool s s' -> inv ps s N m R segs -> inv ps s' N m R segs.
Proof. intros []. by apply inv_same. Qed.

Definition base (s : slab_pool) (i : Z) : Z := p_start s + i * 2 ^ ps.

Lemma run_page_addr s N i {A} (k : Z -> SM A) : geom ps s N -> (ngx_slab_page_addr ps (page_at (p_pages s) i) ≫= k) s = k (base s i) s.
Proof.
  intros HG. unfold ngx_slab_page_addr. rewrite run_gets. f_equal. assert (Hp := g_ps _ _ _ HG). unfold base.
  replace ((page_at (p_pages s) i - p_pages s) / SIZEOF_PAGE) with i.
  - rewrite Z.shiftl_mul_pow2 by lia. lia.
  - unfold page_at, SIZEOF_PAGE. replace (p_pages s + 24 * i - p_pages s) with (i * 24) by lia. by rewrite Z.div_mul.
Qed.

Definition words_ok (w : Z -> Z) (a sh b : Z) : Prop := forall n, 0 <= n < bitmap_words ps sh -> w (a + 8 * n) = wd b n.

(** ** The bitmap with one more bit *)

Definition set_bit (b i : Z) : Z := Z.lor b (2 ^ i).

Lemma set_bit_spec b i j : 0 <= i -> 0 <= j -> Z.testbit (set_bit b i) j = Z.testbit b j || (j =? i).
Proof.
  intros Hi Hj. unfold set_bit. rewrite Z.lor_spec. f_equal. destruct (Z.eqb_spec j i) as [->|Hne]; [apply Z.pow2_bits_true; lia|apply Z.pow2_bits_false; lia].
Qed.

Section Bit.
Context (sh b i : Z) (Hc : chunk_ok ps sh b) (Hi : 0 <= i < chunks ps sh) (Hb : Z.testbit b i = false).

Lemma new_bit_meta : meta ps sh <= i.
Proof using Hc Hi Hb.
  destruct (Z.lt_ge_cases i (meta ps sh)) as [Hlt|]; [|done]. rewrite (co_meta _ _ _ Hc) in Hb; [done|lia].
Qed.

Lemma set_bit_ok : chunk_ok ps sh (set_bit b i).
Proof using Hc Hi Hb.
  split; [by apply co_shift in Hc|apply lor_pow2_range; [lia|by apply co_range]| |].
  - intros j Hj. rewrite set_bit_spec by lia. by rewrite (co_meta _ _ _ Hc).
  - exists i. split; [pose proof new_bit_meta; lia|]. rewrite set_bit_spec by lia. rewrite Z.eqb_refl. apply orb_true_r.
Qed.
End Bit.

(** ** The descriptor after the bit is set *)

Lemma finish_mark s N R l1 l2 sh b (c : bool) :
  let x := page_at (p_pages s) (total l1) in
  geom ps s N -> inv ps s N (p_desc s) R (l1 ++ Spent sh :: l2) -> slb (p_desc s) x = Some (slab_code ps sh b) -> chunk_ok ps sh b ->
  (c = true <-> full ps sh b) ->
  exists m' R', (if c then close_page x (page_kind ps sh) else mret tt) s = Some (tt, with_desc s m') /\ inv ps s N m' R' (l1 ++ Chunks sh b :: l2).
Proof.
  intros x HG HI Hs Hc Hcf. destruct c.
  - apply (close_page_spec ps s N HG l1 l2 R sh b HI Hs Hc). by apply Hcf.
  - exists (p_desc s), R. rewrite with_desc_id. split; [done|]. apply settle; [done..|]. intros Hf. by apply Hcf in Hf.
Qed.

(** What the allocation of a chunk leaves: the bit [i] of the page is set. *)
Definition marked (s : slab_pool) (N : Z) (l1 l2 : list seg) (sh b : Z) (r : option Z) (s' : slab_pool) : Prop :=
  exists i R', 0 <= i < chunks ps sh /\ Z.testbit b i = false /\ r = Some (base s (total l1) + i * 2 ^ sh)
    /\ same_pool s s' /\ p_pfree s' = p_pfree s /\ inv ps s N (p_desc s') R' (l1 ++ Chunks sh (set_bit b i) :: l2)
    /\ (sh < exact ps -> words_ok (p_words s) (base s (total l1)) sh b -> words_ok (p_words s') (base s (total l1)) sh (set_bit b i))
    /\ (forall a, p_words s' a <> p_words s a -> sh < exact ps /\ base s (total l1) <= a < base s (total l1) + 8 * bitmap_words ps sh).

Section Kinds.
Context (s : slab_pool) (N : Z) (HG : geom ps s N) (R : rid -> list Z) (l1 l2 : list seg) (sh b slot : Z).
#[local] Abbreviation x := (page_at (p_pages s) (total l1)).
Context (HI : inv ps s N (p_desc s) R (l1 ++ Chunks sh b :: l2)) (Hf : ~ full ps sh b).

Lemma page_chunks : chunk_ok ps sh b /\ slb (p_desc s) x = Some (slab_code ps sh b).
Proof using HI. assert (Hok := start_ok ps s N _ R _ HI x (Chunks sh b) (starts_mem _ _ _ _)). by destruct Hok as (? & ? & _). Qed.

(** A bitmap in the descriptor: its new value, and the end of the code. *)
Lemma mark_slab i (c : Z -> bool) :
  0 <= i < chunks ps sh -> Z.testbit b i = false -> ~ sh < exact ps ->
  (c (slab_code ps sh (set_bit b i)) = true <-> full ps sh (set_bit b i)) ->
  exists r s', (set_slab x (slab_code ps sh (set_bit b i));; slab ← sget sp_slab x; (if c slab then close_page x (page_kind ps sh) else mret tt);;
      a ← ngx_slab_page_addr ps x; stat_add slot used_inc;; mret (Some (a + Z.shiftl i sh))) s = Some (r, s') /\ marked s N l1 l2 sh b r s'.
Proof using HG HI Hf.
  intros Hi Hb Hex Hcf. destruct page_chunks as [Hc Hs]. assert (Hsp := spend ps s N HG l1 l2 _ R sh b HI Hf).
  destruct (spent_slab ps s N HG l1 l2 R sh (slab_code ps sh (set_bit b i)) Hsp) as (m1 & E1 & S1 & HI1). rewrite E1.
  erewrite run_slb; [|exact S1]. set (s1 := with_desc s m1). assert (Hsame : same_pool s s1) by done.
  destruct (finish_mark s1 N R l1 l2 sh (set_bit b i) (c (slab_code ps sh (set_bit b i))) (geom_pool _ _ _ Hsame HG) (inv_pool _ _ _ _ _ _ Hsame HI1) S1
    (set_bit_ok sh b i Hc Hi Hb) Hcf) as (m2 & R2 & E2 & HI2). change (p_pages s1) with (p_pages s) in E2. erewrite run_bind; [|exact E2].
  change (with_desc s1 m2) with (with_desc s m2). change (p_pages s) with (p_pages (with_desc s m2)). rewrite (run_page_addr _ N) by (by eapply geom_pool; [|exact HG]).
  unfold stat_add. rewrite run_modify. eexists _, _. split; [done|]. exists i, R2. cbn. split_and!; try done; try lia.
  - f_equal. change (base (with_desc s m2)) with (base s). rewrite Z.shiftl_mul_pow2; [done|]. apply co_shift in Hc. lia.
  - by apply (inv_pool s1).
Qed.

Lemma exact_spec : sh = exact ps -> exists r s', exact_page ps x sh slot s = Some (r, s') /\ marked s N l1 l2 sh b r s'.
Proof using HG HI Hf.
  intros Esh. destruct page_chunks as [Hc Hs]. assert (Hps := g_ps _ _ _ HG). assert (H64 := exact_sizes ps Hps).
  assert (Hcode : forall b, slab_code ps sh b = b) by (intros b'; unfold slab_code; by rewrite Esh, Z.ltb_irrefl, Z.eqb_refl).
  assert (Hr := co_range _ _ _ Hc). rewrite Esh, H64 in Hr. unfold exact_page. erewrite run_slb; [|exact Hs]. rewrite Hcode.
  destruct (free_bit_word b Hr) as [[Eb _]|(i & Hi & Hb & E)].
  { destruct Hf. unfold full. by rewrite Eb, Esh, H64. }
  rewrite E. assert (Hi' : 0 <= i < chunks ps sh) by (rewrite Esh, H64; lia).
  assert (Hk : page_kind ps sh = NGX_SLAB_EXACT) by (unfold page_kind; by rewrite Esh, Z.ltb_irrefl, Z.eqb_refl).
  destruct (mark_slab i (fun v => v =? NGX_SLAB_BUSY) Hi' Hb) as (r & s' & E' & HM); [lia| |].
  { rewrite Hcode, Z.eqb_eq. unfold full. by rewrite Esh, H64. }
  rewrite Hcode, Hk in E'. by exists r, s'.
Qed.

Lemma big_mask_eq : 3 <= sh < ps -> exact ps < sh -> big_mask ps sh = Z.shiftl (Z.ones (chunks ps sh)) 32.
Proof using HG.
  intros Hsh Hlt. assert (Hps := g_ps _ _ _ HG). apply Z.eqb_eq.
  assert (H : (if exact ps <? sh then big_mask ps sh =? Z.shiftl (Z.ones (chunks ps sh)) 32 else true) = true).
  { apply (enum_sh ps Hps (fun ps sh => if exact ps <? sh then big_mask ps sh =? Z.shiftl (Z.ones (chunks ps sh)) 32 else true) sh Hsh). by vm_compute. }
  by rewrite (proj2 (Z.ltb_lt _ _) Hlt) in H.
Qed.
End Kinds.

Lemma shiftl_inj a b n : 0 <= n -> Z.shiftl a n = Z.shiftl b n -> a = b.
Proof. intros Hn. rewrite !Z.shiftl_mul_pow2 by done. assert (0 < 2 ^ n) by (by apply Z.pow_pos_nonneg). nia. Qed.

(** The upper half of [slab]. *)
Section Big.
Context (Hps : 12 <= ps <= 16) (sh : Z) (Hsh : 3 <= sh < ps) (Hex : exact ps < sh).

Lemma big_code b : slab_code ps sh b = Z.lor (Z.shiftl b 32) sh.
Proof using Hex. unfold slab_code. by rewrite (proj2 (Z.ltb_ge _ _)), (proj2 (Z.eqb_neq _ _)) by lia. Qed.

Lemma big_code_bit b j : 0 <= j -> Z.testbit (slab_code ps sh b) (32 + j) = Z.testbit b j.
Proof using Hps Hsh Hex.
  intros Hj. rewrite big_code, Z.lor_spec, Z.shiftl_spec by lia. replace (32 + j - 32) with j by lia.
  rewrite (testbit_high sh 32); [apply orb_false_r| |lia]. split; [lia|]. change (2 ^ 32) with 4294967296. lia.
Qed.

Lemma big_code_set b j : 0 <= j -> Z.lor (slab_code ps sh b) (2 ^ (32 + j)) = slab_code ps sh (set_bit b j).
Proof using Hex.
  intros Hj. rewrite !big_code. unfold set_bit. rewrite Z.shiftl_lor. replace (2 ^ (32 + j)) with (Z.shiftl (2 ^ j) 32).
  - rewrite <- !Z.lor_assoc. f_equal. apply Z.lor_comm.
  - rewrite Z.shiftl_mul_pow2, Z.pow_add_r by lia. lia.
Qed.

Lemma big_code_map b : 0 <= b < 2 ^ chunks ps sh -> Z.land (slab_code ps sh b) NGX_SLAB_MAP_MASK = Z.shiftl b 32.
Proof using Hps Hsh Hex.
  intros Hb. assert (Hc := big_sizes ps Hps sh Hsh Hex). assert (Hb32 : 0 <= b < 2 ^ 32).
  { split; [lia|]. eapply Z.lt_le_trans; [apply Hb|]. apply Z.pow_le_mono_r; lia. }
  apply Z.bits_inj'. intros i Hi. change NGX_SLAB_MAP_MASK with (Z.shiftl (Z.ones 32) 32). rewrite Z.land_spec, big_code, Z.lor_spec.
  rewrite !Z.shiftl_spec by lia. destruct (Z.lt_ge_cases i 32) as [Hlt|Hge].
  - rewrite (Z.testbit_neg_r (Z.ones 32)), (Z.testbit_neg_r b) by lia. by rewrite andb_false_r.
  - rewrite (testbit_high sh 32), orb_false_r; [|split; [lia|change (2 ^ 32) with 4294967296; lia]|lia].
    destruct (Z.lt_ge_cases i 64).
    + rewrite Z.ones_spec_low by lia. apply andb_true_r.
    + rewrite (testbit_high b 32) by lia. done.
Qed.
End Big.

Lemma big_spec s N R l1 l2 sh b slot :
  let x := page_at (p_pages s) (total l1) in
  geom ps s N -> inv ps s N (p_desc s) R (l1 ++ Chunks sh b :: l2) -> ~ full ps sh b -> exact ps < sh ->
  exists r s', big_page ps x sh slot s = Some (r, s') /\ marked s N l1 l2 sh b r s'.
Proof.
  intros x HG HI Hf Hex. destruct (page_chunks s N R l1 l2 sh b HI) as [Hc Hs]. assert (Hsh := co_shift _ _ _ Hc). assert (Hps := g_ps _ _ _ HG).
  assert (Hn := big_sizes ps Hps sh Hsh Hex). unfold big_page. rewrite (big_mask_eq s N HG sh Hsh Hex). cbv zeta. fold x in Hs. erewrite run_slb; [|exact Hs].
  destruct (free_bit_spec (slab_code ps sh b) 32 (chunks ps sh) 65 0) as [(i & Hi & Hb & E)|[_ Hall]]; [lia..| |].
  - change (u64 (2 ^ (32 + 0))) with (Z.shiftl 1 NGX_SLAB_MAP_SHIFT) in E. rewrite E. rewrite big_code_bit in Hb by (done || lia).
    assert (Hk : page_kind ps sh = NGX_SLAB_BIG) by (unfold page_kind; by rewrite (proj2 (Z.ltb_ge _ _)), (proj2 (Z.eqb_neq _ _)) by lia).
    destruct (mark_slab s N HG R l1 l2 sh b slot HI Hf i (fun v => Z.land v NGX_SLAB_MAP_MASK =? Z.shiftl (Z.ones (chunks ps sh)) 32) ltac:(lia) Hb) as (r & s' & E' & HM).
    + lia.
    + assert (Hok := set_bit_ok sh b i Hc ltac:(lia) Hb). rewrite big_code_map by (done || by apply co_range). rewrite Z.eqb_eq. unfold full.
      split; [|by intros ->]. by apply shiftl_inj.
    + rewrite <- big_code_set in E' by lia. rewrite Hk in E'. by exists r, s'.
  - destruct Hf. unfold full. apply is_ones; [lia|by apply co_range|]. intros i Hi. rewrite <- (big_code_bit Hps sh Hsh Hex) by lia. apply Hall. lia.
Qed.
End Mark.
