(* ===== verification/SlabSmall.v ===== *)
(** * Pages of small chunks

    Their bitmap is at the start of the page: the loops over its words, and the
    bitmap that they make of it. *)

From stdpp Require Import gmap.
From S2P Require Import Prelude Slab SlabRing SlabPages SlabRuns SlabFree SlabChunk SlabBits SlabMark.

(** ** Words and bits *)

Lemma full_words b w : 0 <= w -> 0 <= b < 2 ^ (64 * w) -> b = Z.ones (64 * w) <-> forall n, 0 <= n < w -> wd b n = NGX_SLAB_BUSY.
Proof.
  intros Hw Hb. rewrite is_ones by lia. change NGX_SLAB_BUSY with (Z.ones 64). split.
  - intros H n Hn. apply is_ones; [lia|apply wd_range|]. intros i Hi. rewrite wd_bit by lia. apply H. lia.
  - intros H i Hi. rewrite bit_wd by lia. rewrite H by (split; [apply Z.div_pos; lia|apply Z.div_lt_upper_bound; lia]).
    apply Z.ones_spec_low, Z.mod_pos_bound. lia.
Qed.

Lemma wd_set_eq b n i : 0 <= n -> 0 <= i < 64 -> Z.lor (wd b n) (2 ^ i) = wd (set_bit b (64 * n + i)) n.
Proof.
  intros Hn Hi. apply wd_eq; [done|apply lor_pow2_range; [lia|apply wd_range]|]. intros j Hj. rewrite set_bit_spec by lia.
  fold (set_bit (wd b n) i). rewrite set_bit_spec by lia. rewrite wd_bit by lia. f_equal. apply eq_true_iff_eq. rewrite !Z.eqb_eq. lia.
Qed.

Lemma wd_set_ne b n i k : 0 <= n -> 0 <= i < 64 -> 0 <= k -> k <> n -> wd (set_bit b (64 * n + i)) k = wd b k.
Proof.
  intros Hn Hi Hk Hne. symmetry. apply wd_eq; [done|apply wd_range|]. intros j Hj. rewrite set_bit_spec by lia. rewrite wd_bit by lia.
  rewrite (proj2 (Z.eqb_neq _ _)) by lia. by rewrite orb_false_r.
Qed.

Lemma run_word {A} a (k : Z -> SM A) s : (word a ≫= k) s = k (p_words s a) s.
Proof. done. Qed.

Definition put_word (a v : Z) (w : Z -> Z) : Z -> Z := fun x => if x =? a then v else w x.

Lemma put_word_eq a v w : put_word a v w a = v.
Proof. unfold put_word. by rewrite Z.eqb_refl. Qed.

Lemma put_word_ne a v w x : x <> a -> put_word a v w x = w x.
Proof. intros H. unfold put_word. by rewrite (proj2 (Z.eqb_neq _ _) H). Qed.

Section Small.
Context (ps : Z).

Lemma words_set w a sh b n i : 0 <= n < bitmap_words ps sh -> 0 <= i < 64 -> words_ok ps w a sh b ->
  words_ok ps (put_word (a + 8 * n) (Z.lor (wd b n) (2 ^ i)) w) a sh (set_bit b (64 * n + i)).
Proof.
  intros Hn Hi Hw k Hk. destruct (decide (k = n)) as [->|Hne].
  - rewrite put_word_eq. apply wd_set_eq; lia.
  - rewrite put_word_ne, wd_set_ne by lia. by apply Hw.
Qed.

(** ** The loops that compare words *)

Lemma rest_busy_spec s a sh b fuel n : words_ok ps (p_words s) a sh b -> 0 <= n <= bitmap_words ps sh -> (Z.to_nat (bitmap_words ps sh - n) < fuel)%nat ->
  exists c, rest_busy fuel a (bitmap_words ps sh) n s = Some (c, s) /\ (c = true <-> forall k, n <= k < bitmap_words ps sh -> wd b k = NGX_SLAB_BUSY).
Proof.
  intros Hw. revert n; induction fuel as [|fuel IH]; intros n Hn Hf; [lia|]. cbn [rest_busy]. destruct (Z.ltb_spec n (bitmap_words ps sh)) as [Hlt|Hge].
  - rewrite run_word, (Hw n) by lia. destruct (Z.eqb_spec (wd b n) NGX_SLAB_BUSY) as [E|Hne]; cbn [negb].
    + destruct (IH (n + 1) ltac:(lia) ltac:(lia)) as (c & Ec & Hc). exists c. split; [done|]. rewrite Hc. split; intros H k Hk; [|apply H; lia].
      destruct (decide (k = n)) as [->|]; [done|]. apply H. lia.
    + exists false. split; [done|]. split; [done|]. intros H. by rewrite (H n) in Hne by lia.
  - exists true. split; [done|]. split; [lia|done].
Qed.

Lemma rest_free_spec s a sh b fuel n : words_ok ps (p_words s) a sh b -> 0 <= n -> (Z.to_nat (bitmap_words ps sh - n) < fuel)%nat ->
  exists c, rest_free fuel a (bitmap_words ps sh) n s = Some (c, s) /\ (c = true <-> forall k, n <= k < bitmap_words ps sh -> wd b k = 0).
Proof.
  intros Hw. revert n; induction fuel as [|fuel IH]; intros n Hn Hf; [lia|]. cbn [rest_free]. destruct (Z.ltb_spec n (bitmap_words ps sh)) as [Hlt|Hge].
  - rewrite run_word, (Hw n) by lia. destruct (Z.eqb_spec (wd b n) 0) as [E|Hne]; cbn [negb].
    + destruct (IH (n + 1) ltac:(lia) ltac:(lia)) as (c & Ec & Hc). exists c. split; [done|]. rewrite Hc. split; intros H k Hk; [|apply H; lia].
      destruct (decide (k = n)) as [->|]; [done|]. apply H. lia.
    + exists false. split; [done|]. split; [done|]. intros H. by rewrite (H n) in Hne by lia.
  - exists true. split; [done|]. split; [lia|done].
Qed.

(** ** Taking a chunk *)

Section Take.
Context (s : slab_pool) (N : Z) (HG : geom ps s N) (R : rid -> list Z) (l1 l2 : list seg) (sh b slot : Z).
#[local] Abbreviation x := (page_at (p_pages s) (total l1)).
#[local] Abbreviation a := (base ps s (total l1)).
#[local] Abbreviation W := (bitmap_words ps sh).
Context (HI : inv ps s N (p_desc s) R (l1 ++ Chunks sh b :: l2)) (Hf : ~ full ps sh b) (Hsm : sh < exact ps) (Hw : words_ok ps (p_words s) a sh b).

Lemma small_shift : 3 <= sh < ps.
Proof using HI. destruct (page_chunks ps s N R l1 l2 sh b HI) as [Hc _]. by apply co_shift in Hc. Qed.

Lemma small_full b' : chunk_ok ps sh b' -> full ps sh b' <-> forall n, 0 <= n < W -> wd b' n = NGX_SLAB_BUSY.
Proof using HG HI Hsm.
  intros Hc. assert (Hps := g_ps _ _ _ HG). destruct (small_sizes ps Hps sh small_shift Hsm) as (Ech & HW & _). unfold full.
  assert (Hr := co_range _ _ _ Hc). rewrite Ech in *. apply full_words; [lia|done].
Qed.

(** The bit is set and the page closed when no bit is left. *)
Lemma small_mark fuel n i : 0 <= n < W -> 0 <= i < 64 -> Z.testbit (wd b n) i = false -> (forall k, 0 <= k < n -> wd b k = NGX_SLAB_BUSY) ->
  (Z.to_nat (W - n) <= fuel)%nat ->
  exists r s', (set_word (a + 8 * n) (Z.lor (wd b n) (2 ^ i));; let p := a + Z.shiftl (n * 64 + i) sh in stat_add slot used_inc;;
      w ← word (a + 8 * n);
      (if w =? NGX_SLAB_BUSY then all ← rest_busy fuel a W (n + 1); if all : bool then close_page x NGX_SLAB_SMALL else mret tt else mret tt);;
      mret (Some p)) s = Some (r, s') /\ marked ps s N l1 l2 sh b r s'.
Proof using HG HI Hf Hsm Hw.
  intros Hn Hi Hb Hpre Hfuel. assert (Hps := g_ps _ _ _ HG). assert (Hsh := small_shift). destruct (small_sizes ps Hps sh Hsh Hsm) as (Ech & HW & _).
  destruct (page_chunks ps s N R l1 l2 sh b HI) as [Hc Hs]. rewrite wd_bit in Hb by lia. set (j := 64 * n + i) in *.
  assert (Hj : 0 <= j < chunks ps sh) by lia. assert (Hc' := set_bit_ok ps sh b j Hc Hj Hb).
  assert (Hw' := words_set _ _ _ _ n i Hn Hi Hw). fold j in Hw'. unfold set_word, stat_add, word. rewrite run_modify. cbv zeta. rewrite run_modify, run_gets.
  set (s1 := _ <| p_stats := _ |>). assert (Hsame : same_pool s s1) by done. assert (Hw1 : words_ok ps (p_words s1) a sh (set_bit b j)) by exact Hw'.
  rewrite (Hw1 n) by lia. assert (Hcl : exists c, (c = true <-> full ps sh (set_bit b j)) /\
    forall k : unit -> SM (option Z), ((if wd (set_bit b j) n =? NGX_SLAB_BUSY then all ← rest_busy fuel a W (n + 1); if all : bool then close_page x NGX_SLAB_SMALL else mret tt else mret tt) ≫= k) s1
      = ((if c : bool then close_page x NGX_SLAB_SMALL else mret tt) ≫= k) s1).
  { assert (Hfull := small_full _ Hc'). assert (Hpre' : forall k, 0 <= k < n -> wd (set_bit b j) k = NGX_SLAB_BUSY).
    { intros k Hk. unfold j. rewrite wd_set_ne by lia. by apply Hpre. }
    destruct (Z.eqb_spec (wd (set_bit b j) n) NGX_SLAB_BUSY) as [E|Hne].
    - destruct (rest_busy_spec s1 a sh (set_bit b j) fuel (n + 1) Hw1 ltac:(lia) ltac:(lia)) as (c & Ec & Hcc). exists c. split.
      + rewrite Hcc, Hfull. split; intros H k Hk; [|apply H; lia]. destruct (Z.lt_trichotomy k n) as [|[->|]]; [apply Hpre'; lia|done|apply H; lia].
      + intros k. rewrite run_assoc. erewrite run_bind; [|exact Ec]. done.
    - exists false. split; [|done]. rewrite Hfull. split; [done|]. intros H. by rewrite H in Hne. }
  destruct Hcl as (c & Hcc & Ecl). rewrite Ecl. clear Ecl.
  assert (Hk : page_kind ps sh = NGX_SLAB_SMALL) by (unfold page_kind; by rewrite (proj2 (Z.ltb_lt _ _) Hsm)).
  assert (Hcode : slab_code ps sh (set_bit b j) = slab_code ps sh b) by (unfold slab_code; by rewrite (proj2 (Z.ltb_lt _ _) Hsm)).
  destruct (finish_mark ps s1 N R l1 l2 sh (set_bit b j) c (geom_pool ps _ _ _ Hsame HG)) as (m2 & R2 & E2 & HI2); [|by rewrite Hcode|done|done|].
  { apply (inv_pool ps s); [done|]. by eapply spend. }
  rewrite Hk in E2. change (p_pages s1) with (p_pages s) in E2. erewrite run_bind; [|exact E2]. eexists _, _. split; [done|]. exists j, R2. cbn.
  split_and!; try done; try lia.
  - f_equal. rewrite Z.shiftl_mul_pow2 by lia. unfold j. f_equal. f_equal. lia.
  - by apply (inv_pool ps s1).
  - intros y Hy. split; [done|]. destruct (Z.eqb_spec y (a + 8 * n)) as [E|]; [rewrite E; lia|done].
Qed.

Lemma small_words_spec fuel n : 0 <= n <= W -> (forall k, 0 <= k < n -> wd b k = NGX_SLAB_BUSY) -> (Z.to_nat (W - n) < fuel)%nat ->
  exists r s', small_words fuel x sh slot a W n s = Some (r, s') /\ marked ps s N l1 l2 sh b r s'.
Proof using HG HI Hf Hsm Hw.
  revert n; induction fuel as [|fuel IH]; intros n Hn Hpre Hfuel; [lia|]. cbn [small_words]. destruct (page_chunks ps s N R l1 l2 sh b HI) as [Hc _].
  destruct (Z.ltb_spec n W) as [Hlt|Hge].
  - rewrite run_word, (Hw n) by lia. destruct (free_bit_word (wd b n) (wd_range b n)) as [[E _]|(i & Hi & Hb & E)].
    + rewrite E, Z.eqb_refl. apply IH; [lia| |lia]. intros k Hk. destruct (decide (k = n)) as [->|]; [done|]. apply Hpre. lia.
    + rewrite (proj2 (Z.eqb_neq _ _)), E; [|intros E'; by rewrite (busy_not_free _ i E' Hi) in Hb]. apply (small_mark fuel n i); [lia|done..|lia].
  - destruct Hf. apply small_full; [done|]. intros k Hk. apply Hpre. lia.
Qed.

Lemma small_spec : exists r s', small_page ps x sh slot s = Some (r, s') /\ marked ps s N l1 l2 sh b r s'.
Proof using HG HI Hf Hsm Hw.
  unfold small_page. rewrite (run_page_addr ps s N) by done. assert (Hps := g_ps _ _ _ HG). destruct (small_sizes ps Hps sh small_shift Hsm) as (_ & HW & _).
  apply small_words_spec; lia.
Qed.
End Take.
End Small.
