(* ===== verification/SlabNew.v ===== *)
(** * A new page of chunks

    Its bitmap has the bits of its own chunks and of the first chunk given
    out. *)

From stdpp Require Import gmap.
From S2P Require Import Prelude Slab SlabRing SlabPages SlabRuns SlabFree SlabChunk SlabBits SlabMark SlabSmall.

Definition with_words (s : slab_pool) (w : Z -> Z) : slab_pool := s <| p_words := w |>.

Lemma fill_words_spec n a i v s : exists w, fill_words n a i v s = Some (tt, with_words s w)
  /\ (forall k, i <= k < i + Z.of_nat n -> w (a + 8 * k) = v)
  /\ (forall y, (forall k, i <= k < i + Z.of_nat n -> y <> a + 8 * k) -> w y = p_words s y).
Proof.
  revert i s; induction n as [|n IH]; intros i s; cbn [fill_words].
  - exists (p_words s). split; [by destruct s|]. split; [lia|done].
  - unfold set_word. rewrite run_modify. destruct (IH (i + 1) (with_words s (put_word (a + 8 * i) v (p_words s)))) as (w & E & H1 & H2).
    exists w. split; [exact E|]. split.
    + intros k Hk. destruct (decide (k = i)) as [->|]; [|apply H1; lia]. rewrite H2 by lia. apply put_word_eq.
    + intros y Hy. rewrite H2 by (intros k Hk; apply Hy; lia). apply put_word_ne, Hy. lia.
Qed.

(** Words of the bitmap of a new page. *)
Lemma wd_ones c n v : 0 <= n -> 0 <= c -> 0 <= v < 2 ^ 64 -> (forall j, 0 <= j < 64 -> Z.testbit v j = bool_decide (64 * n + j < c)) -> v = wd (Z.ones c) n.
Proof.
  intros Hn Hc Hv H. apply wd_eq; [done|done|]. intros j Hj. rewrite H by done. rewrite Z.testbit_ones_nonneg by lia. by case_bool_decide; symmetry; [apply Z.ltb_lt|apply Z.ltb_ge; lia].
Qed.

Section New.
Context (ps : Z).

Definition first_bits (sh : Z) : Z := Z.ones (meta ps sh + 1).

Lemma first_bit (Hps : 12 <= ps <= 16) sh i : 3 <= sh < ps -> 0 <= i -> Z.testbit (first_bits sh) i = (i <=? meta ps sh).
Proof.
  intros Hsh Hi. destruct (meta_bounds ps Hps sh Hsh) as (? & _). unfold first_bits. rewrite Z.testbit_ones_nonneg by lia.
  apply eq_true_iff_eq. rewrite Z.ltb_lt, Z.leb_le. lia.
Qed.

Lemma first_ok (Hps : 12 <= ps <= 16) sh : 3 <= sh < ps -> chunk_ok ps sh (first_bits sh) /\ ~ full ps sh (first_bits sh).
Proof.
  intros Hsh. destruct (meta_bounds ps Hps sh Hsh) as (H0 & H1 & _). split; [split|].
  - done.
  - assert (Hr := ones_range (meta ps sh + 1) ltac:(lia)). unfold first_bits. split; [lia|]. eapply Z.lt_le_trans; [apply Hr|]. apply Z.pow_le_mono_r; lia.
  - intros i Hi. rewrite first_bit by (done || lia). lia.
  - exists (meta ps sh). split; [lia|]. rewrite first_bit by (done || lia). lia.
  - unfold full. intros E. assert (Hb : Z.testbit (first_bits sh) (meta ps sh + 1) = true) by (rewrite E; apply Z.ones_spec_low; lia).
    rewrite first_bit in Hb by (done || lia). lia.
Qed.

Definition opened (s : slab_pool) (N : Z) (l1 l2 : list seg) (sh r : Z) (s' : slab_pool) : Prop :=
  exists R', r = base ps s (total l1) + meta ps sh * 2 ^ sh /\ same_pool s s' /\ p_pfree s' = p_pfree s
    /\ inv ps s N (p_desc s') R' (l1 ++ Chunks sh (first_bits sh) :: l2)
    /\ (sh < exact ps -> words_ok ps (p_words s') (base ps s (total l1)) sh (first_bits sh))
    /\ (forall a, p_words s' a <> p_words s a -> sh < exact ps /\ base ps s (total l1) <= a < base ps s (total l1) + 8 * bitmap_words ps sh).

Section Page.
Context (s : slab_pool) (N : Z) (HG : geom ps s N) (R : rid -> list Z) (l1 l2 : list seg) (sh slot : Z).
#[local] Abbreviation x := (page_at (p_pages s) (total l1)).
#[local] Abbreviation a := (base ps s (total l1)).
#[local] Abbreviation head := (rhead s (RSlot sh)).
Context (HI : inv ps s N (p_desc s) R (l1 ++ Pages 1 :: l2)) (Hsh : 3 <= sh < ps) (HR : R (RSlot sh) = []).

(** The end of the three kinds of code: the descriptor and the counters. *)
Lemma new_page_spec w c off : off = meta ps sh * 2 ^ sh ->
  (sh < exact ps -> words_ok ps w a sh (first_bits sh)) ->
  (forall y, w y <> p_words s y -> sh < exact ps /\ a <= y < a + 8 * bitmap_words ps sh) ->
  exists r s', (open_page x (slab_code ps sh (first_bits sh)) head (page_kind ps sh);; stat_add slot (total_add c);;
    b ← ngx_slab_page_addr ps x; stat_add slot used_inc;; mret (b + off)) (with_words s w) = Some (r, s') /\ opened s N l1 l2 sh r s'.
Proof using HG HI Hsh HR.
  intros Hoff Hw1 Hw2. assert (Hps := g_ps _ _ _ HG). set (s1 := with_words s w). assert (Hsame : same_pool s s1) by done.
  destruct (open_pages ps s1 N (geom_pool ps _ _ _ Hsame HG) l1 l2 R sh (slab_code ps sh (first_bits sh)) (inv_pool ps _ _ _ _ _ _ Hsame HI) Hsh HR) as (m' & R' & E & HI' & S').
  change (p_pages s1) with (p_pages s) in E. change (rhead s1 (RSlot sh)) with head in E. rewrite E. unfold stat_add. rewrite run_modify.
  set (s2 := _ <| p_stats := _ |>). assert (Hsame2 : same_pool s s2) by done. change x with (page_at (p_pages s2) (total l1)).
  rewrite (run_page_addr ps s2 N) by (by apply (geom_pool ps s)). rewrite run_modify. eexists _, _. split; [done|]. exists R'. cbn. split_and!; try done.
  - rewrite Hoff. done.
  - destruct (first_ok Hps sh Hsh) as [Hc Hnf]. apply settle; [done|by apply (inv_pool ps s1)|done|done|done].
Qed.

Lemma new_exact_spec : sh = exact ps -> exists r s', new_exact ps x slot head s = Some (r, s') /\ opened s N l1 l2 sh r s'.
Proof using HG HI Hsh HR.
  intros Esh. assert (Hm : meta ps sh = 0) by (unfold meta; by rewrite Esh, Z.ltb_irrefl).
  destruct (new_page_spec (p_words s) 64 0) as (r & s' & E & HO); [lia|lia|done|].
  exists r, s'. split; [|done]. rewrite <- E. replace (with_words s (p_words s)) with s by (by destruct s). unfold new_exact, slab_code, page_kind, first_bits.
  rewrite Hm, Esh, Z.ltb_irrefl, Z.eqb_refl. change (Z.ones (0 + 1)) with 1. unfold ngx_slab_page_addr, stat_add, gets, modify, mbind, SM_bind, mret, SM_ret.
  destruct (open_page _ _ _ _ s) as [[[] s1]|]; [|done]. by rewrite Z.add_0_r.
Qed.

Lemma new_big_spec : exact ps < sh -> exists r s', new_big ps x sh slot head s = Some (r, s') /\ opened s N l1 l2 sh r s'.
Proof using HG HI Hsh HR.
  intros Hlt. assert (Hm : meta ps sh = 0) by (unfold meta; by rewrite (proj2 (Z.ltb_ge _ _)) by lia).
  destruct (new_page_spec (p_words s) (Z.shiftr (ngx_pagesize ps) sh) 0) as (r & s' & E & HO); [lia|lia|done|].
  exists r, s'. split; [|done]. rewrite <- E. replace (with_words s (p_words s)) with s by (by destruct s). unfold new_big, slab_code, page_kind, first_bits.
  rewrite Hm, (proj2 (Z.ltb_ge _ _)), (proj2 (Z.eqb_neq _ _)) by lia. change (Z.ones (0 + 1)) with 1. unfold ngx_slab_page_addr, stat_add, gets, modify, mbind, SM_bind, mret, SM_ret.
  destruct (open_page _ _ _ _ s) as [[[] s1]|]; [|done]. by rewrite Z.add_0_r.
Qed.

(** The three loops that fill the bitmap. *)
Lemma new_words : sh < exact ps -> let n := bitmap_chunks ps sh in let f := (n + 1) / 64 in
  exists w, (forall {A} (k : unit -> SM A), (fill_words (Z.to_nat f) a 0 NGX_SLAB_BUSY;; set_word (a + 8 * f) (u64 (Z.shiftl 1 ((n + 1) mod 64) - 1));;
      fill_words (Z.to_nat (bitmap_words ps sh - (f + 1))) a (f + 1) 0 ≫= k) s = k tt (with_words s w))
    /\ words_ok ps w a sh (first_bits sh) /\ (forall y, w y <> p_words s y -> a <= y < a + 8 * bitmap_words ps sh).
Proof using HG Hsh.
  intros Hsm n f. assert (Hps := g_ps _ _ _ HG). destruct (small_sizes ps Hps sh Hsh Hsm) as (_ & HW & Hn & _ & _ & _ & Hf). fold n in Hn, Hf. fold f in Hf.
  assert (Hm : meta ps sh = n) by (unfold meta; by rewrite (proj2 (Z.ltb_lt _ _) Hsm)). assert (Hd := Z.div_mod (n + 1) 64 ltac:(lia)). fold f in Hd.
  assert (Hr := Z.mod_pos_bound (n + 1) 64 ltac:(lia)). set (r := (n + 1) mod 64) in *. assert (Hf0 : 0 <= f) by (apply Z.div_pos; lia).
  set (v := u64 (Z.shiftl 1 r - 1)).
  assert (Hv : v = Z.ones r). { unfold v. rewrite Z.shiftl_1_l, Z.ones_equiv, <- Z.sub_1_r. apply u64_small. assert (0 < 2 ^ r) by (apply Z.pow_pos_nonneg; lia).
    assert (2 ^ r < 2 ^ 64) by (apply Z.pow_lt_mono_r; lia).
    clearbody r. clear -H H0. split; [lia|]. eapply Z.le_lt_trans; [|exact H0]. lia. }
  destruct (fill_words_spec (Z.to_nat f) a 0 NGX_SLAB_BUSY s) as (w1 & E1 & A1 & B1). rewrite Z2Nat.id in A1, B1 by lia.
  set (s2 := with_words s (put_word (a + 8 * f) v w1)).
  destruct (fill_words_spec (Z.to_nat (bitmap_words ps sh - (f + 1))) a (f + 1) 0 s2) as (w3 & E3 & A3 & B3). rewrite Z2Nat.id in A3, B3 by lia.
  exists w3. split_and!.
  - intros A k. erewrite run_bind; [|exact E1]. unfold set_word. rewrite run_modify. erewrite run_bind; [|exact E3]. done.
  - assert (H64 : 0 <= NGX_SLAB_BUSY < 2 ^ 64) by done. unfold first_bits. rewrite Hm. intros k Hk. destruct (Z.lt_trichotomy k f) as [Hlt|[->|Hgt]].
    + rewrite B3 by lia. cbn. rewrite put_word_ne, A1 by lia. apply wd_ones; [lia|lia|done|]. intros j Hj. rewrite bool_decide_eq_true_2 by lia.
      change NGX_SLAB_BUSY with (Z.ones 64). by apply Z.ones_spec_low.
    + rewrite B3 by lia. cbn. rewrite put_word_eq, Hv. apply wd_ones; [lia|lia| |].
      * assert (Hor := ones_range r ltac:(lia)). split; [lia|]. eapply Z.lt_trans; [apply Hor|]. apply Z.pow_lt_mono_r; lia.
      * intros j Hj. rewrite Z.testbit_ones_nonneg by lia. by case_bool_decide; [apply Z.ltb_lt; lia|apply Z.ltb_ge; lia].
    + rewrite A3 by lia. apply wd_ones; [lia|lia|done|]. intros j Hj. rewrite Z.bits_0, bool_decide_eq_false_2; [done|lia].
  - intros y Hy. destruct (decide (a <= y < a + 8 * bitmap_words ps sh)) as [|Hout]; [done|]. destruct Hy. rewrite B3 by lia. cbn. rewrite put_word_ne, B1 by lia. done.
Qed.

Lemma new_small_spec : sh < exact ps -> exists r s', new_small ps x sh slot head s = Some (r, s') /\ opened s N l1 l2 sh r s'.
Proof using HG HI Hsh HR.
  intros Hsm. destruct (new_words Hsm) as (w & E & Hw & Hfr). assert (Hm : meta ps sh = bitmap_chunks ps sh) by (unfold meta; by rewrite (proj2 (Z.ltb_lt _ _) Hsm)).
  unfold new_small. rewrite (run_page_addr ps s N) by done. cbv zeta. rewrite E.
  destruct (new_page_spec w (Z.shiftr (ngx_pagesize ps) sh - bitmap_chunks ps sh) (Z.shiftl (bitmap_chunks ps sh) sh)) as (r & s' & E' & HO).
  - rewrite Hm. apply Z.shiftl_mul_pow2. lia.
  - done.
  - intros y Hy. split; [done|]. by apply Hfr.
  - exists r, s'. split; [|done]. rewrite <- E'. unfold slab_code, page_kind. by rewrite (proj2 (Z.ltb_lt _ _) Hsm).
Qed.
End Page.
End New.
