(* ===== verification/SlabHeap.v ===== *)
(** * The blocks of a pool

    What the users of the allocator hold: the blocks that the segments of the
    pool describe, and the invariant of the pool between two calls. *)

From stdpp Require Import gmap.
From S2P Require Import Prelude Slab SlabRing SlabPages SlabRuns SlabFree SlabChunk SlabBits SlabMark SlabSmall SlabNew.

Section Heap.
Context (ps : Z).

(** ** Blocks *)

(** The block of [c] bytes at [p] in a segment that starts at [a]. *)
Definition block_in (a : Z) (g : seg) (p c : Z) : Prop :=
  match g with
  | Pages n => p = a /\ c = n * 2 ^ ps
  | Chunks sh b => c = 2 ^ sh /\ exists i, meta ps sh <= i < chunks ps sh /\ Z.testbit b i = true /\ p = a + i * 2 ^ sh
  | Free _ | Spent _ | Loose _ => False
  end.

Fixpoint live (a : Z) (l : list seg) (p c : Z) : Prop :=
  match l with [] => False | g :: l' => block_in a g p c \/ live (a + slen g * 2 ^ ps) l' p c end.

(** The bitmaps of pages of small chunks. *)
Fixpoint bitmaps (w : Z -> Z) (a : Z) (l : list seg) : Prop :=
  match l with
  | [] => True
  | g :: l' => (match g with Chunks sh b => sh < exact ps -> words_ok ps w a sh b | _ => True end) /\ bitmaps w (a + slen g * 2 ^ ps) l'
  end.

(** The address is in the part of a page that its bitmap takes. *)
Definition bitmap_in (a : Z) (g : seg) (p : Z) : Prop := match g with Chunks sh b => a <= p < a + meta ps sh * 2 ^ sh | _ => False end.

Fixpoint bitmap_at (a : Z) (l : list seg) (p : Z) : Prop :=
  match l with [] => False | g :: l' => bitmap_in a g p \/ bitmap_at (a + slen g * 2 ^ ps) l' p end.

Definition wf (g : seg) : Prop := match g with Free n | Pages n => 1 <= n | Chunks sh b => chunk_ok ps sh b | Spent _ | Loose _ => False end.

Fixpoint frees (l : list seg) : Z := match l with [] => 0 | Free n :: l' => n + frees l' | _ :: l' => frees l' end.

(** No two free runs are neighbours. *)
Fixpoint sep (l : list seg) : Prop :=
  match l with [] => True | Free _ :: l' => not_free (head l') /\ sep l' | _ :: l' => sep l' end.

Lemma live_app a l1 l2 p c : live a (l1 ++ l2) p c <-> live a l1 p c \/ live (a + total l1 * 2 ^ ps) l2 p c.
Proof.
  revert a; induction l1 as [|g l1 IH]; intros a; cbn [app live total]; [replace (a + 0 * 2 ^ ps) with a by lia; tauto|]. rewrite IH.
  replace (a + slen g * 2 ^ ps + total l1 * 2 ^ ps) with (a + (slen g + total l1) * 2 ^ ps) by lia. tauto.
Qed.

Lemma bitmap_at_app a l1 l2 p : bitmap_at a (l1 ++ l2) p <-> bitmap_at a l1 p \/ bitmap_at (a + total l1 * 2 ^ ps) l2 p.
Proof.
  revert a; induction l1 as [|g l1 IH]; intros a; cbn [app bitmap_at total]; [replace (a + 0 * 2 ^ ps) with a by lia; tauto|]. rewrite IH.
  replace (a + slen g * 2 ^ ps + total l1 * 2 ^ ps) with (a + (slen g + total l1) * 2 ^ ps) by lia. tauto.
Qed.

Lemma bitmaps_app w a l1 l2 : bitmaps w a (l1 ++ l2) <-> bitmaps w a l1 /\ bitmaps w (a + total l1 * 2 ^ ps) l2.
Proof.
  revert a; induction l1 as [|g l1 IH]; intros a; cbn [app bitmaps total]; [replace (a + 0 * 2 ^ ps) with a by lia; tauto|]. rewrite IH.
  replace (a + slen g * 2 ^ ps + total l1 * 2 ^ ps) with (a + (slen g + total l1) * 2 ^ ps) by lia. tauto.
Qed.

Lemma frees_app l1 l2 : frees (l1 ++ l2) = frees l1 + frees l2.
Proof. induction l1 as [|[] l1 IH]; cbn; lia. Qed.

Lemma sep_app l1 l2 : sep (l1 ++ l2) <-> sep l1 /\ sep l2 /\ (not_free (last l1) \/ not_free (head l2)).
Proof.
  induction l1 as [|g l1 IH]; [cbn; tauto|]. rewrite last_cons. destruct l1 as [|h l1].
  - destruct g; cbn; tauto.
  - destruct (last (h :: l1)) as [k|] eqn:El; [|by apply last_None in El]. cbn [app] in *. destruct g; cbn in *; tauto.
Qed.

Lemma wf_len g : wf g -> 1 <= slen g.
Proof. destruct g; cbn; intuition lia. Qed.

Lemma wf_lens l : Forall wf l -> positive_lens l.
Proof. intros H. eapply Forall_impl; [exact H|]. apply wf_len. Qed.

Section Bounds.
Context (Hps : 12 <= ps <= 16).

Lemma pow_ps : 0 < 2 ^ ps.
Proof using Hps. apply Z.pow_pos_nonneg; lia. Qed.

Lemma block_bounds a g p c : wf g -> block_in a g p c -> a <= p /\ p + c <= a + slen g * 2 ^ ps /\ 8 <= c /\ (8 | p - a).
Proof using Hps.
  assert (H8 : 2 ^ 3 <= 2 ^ ps) by (apply Z.pow_le_mono_r; lia). destruct g as [n|n|sh b|sh|n]; cbn; try done.
  - intros Hn [-> ->]. split_and!; [lia|lia|nia|]. exists 0. lia.
  - intros Hc (-> & i & Hi & _ & ->). assert (Hsh := co_shift _ _ _ Hc). assert (Hb := chunks_bytes ps Hps sh Hsh). destruct (meta_bounds ps Hps sh Hsh) as (Hm & _).
    assert (2 ^ 3 <= 2 ^ sh) by (apply Z.pow_le_mono_r; lia). split_and!; [nia|nia|lia|]. exists (i * 2 ^ (sh - 3)).
    replace (2 ^ sh) with (2 ^ (sh - 3) * 2 ^ 3) by (rewrite <- Z.pow_add_r by lia; f_equal; lia). change (2 ^ 3) with 8. lia.
Qed.

Lemma live_bounds a l p c : Forall wf l -> live a l p c -> a <= p /\ p + c <= a + total l * 2 ^ ps /\ 8 <= c.
Proof using Hps.
  intros H. revert a; induction H as [|g l Hg H IH]; intros a; cbn; [done|]. assert (Hp := pow_ps). assert (Hl := wf_len _ Hg). assert (Ht := total_nonneg l (wf_lens _ H)).
  intros [Hb|Hb]; [apply block_bounds in Hb; [|done]; split_and!; [lia|nia|lia]|]. apply IH in Hb. nia.
Qed.

Lemma live_align a l p c : Forall wf l -> (8 | a) -> live a l p c -> (8 | p).
Proof using Hps.
  intros H. revert a; induction H as [|g l Hg H IH]; intros a Ha; cbn; [done|]. intros [Hb|Hb].
  - apply block_bounds in Hb; [|done]. destruct Ha as [z Hz], Hb as (_ & _ & _ & [y Hy]). exists (z + y). lia.
  - apply IH in Hb; [done|]. destruct Ha as [z Hz]. exists (z + slen g * 2 ^ (ps - 3)). replace (2 ^ ps) with (2 ^ (ps - 3) * 2 ^ 3) by (rewrite <- Z.pow_add_r by lia; f_equal; lia).
    change (2 ^ 3) with 8. lia.
Qed.

Lemma bitmap_in_bounds a g p : wf g -> bitmap_in a g p -> a <= p < a + 2 ^ (ps - 6) /\ slen g = 1.
Proof using Hps.
  destruct g as [n|n|sh b|sh|n]; cbn; try done. intros Hc Hp. destruct (meta_bounds ps Hps sh (co_shift _ _ _ Hc)) as (_ & _ & H). lia.
Qed.

Lemma page_64th : 64 * 2 ^ (ps - 6) = 2 ^ ps.
Proof using Hps. change 64 with (2 ^ 6). rewrite <- Z.pow_add_r by lia. f_equal. lia. Qed.

Lemma bitmap_at_bounds a l p : Forall wf l -> bitmap_at a l p -> a <= p < a + total l * 2 ^ ps.
Proof using Hps.
  intros H. revert a; induction H as [|g l Hg H IH]; intros a; cbn; [done|]. assert (Hp := pow_ps). assert (Hl := wf_len _ Hg). assert (Ht := total_nonneg l (wf_lens _ H)). assert (H64 := page_64th).
  intros [Hb|Hb]; [apply bitmap_in_bounds in Hb; [|done]; nia|]. apply IH in Hb. nia.
Qed.

(** It is in the first 64th of a page. *)
Lemma bitmap_at_64th a l p : Forall wf l -> (2 ^ ps | a) -> bitmap_at a l p -> 64 * (p mod 2 ^ ps) < 2 ^ ps.
Proof using Hps.
  intros H. revert a; induction H as [|g l Hg H IH]; intros a [z Hz]; cbn; [done|]. assert (H64 := page_64th). assert (Hp := pow_ps).
  intros [Hb|Hb]; [|apply IH in Hb; [done|exists (z + slen g); lia]]. apply bitmap_in_bounds in Hb as [Hb _]; [|done]. replace p with ((p - a) + z * 2 ^ ps) by lia.
  rewrite Z.mod_add, Z.mod_small by lia. lia.
Qed.

Lemma block_disjoint a g p c p' c' : wf g -> block_in a g p c -> block_in a g p' c' -> (p = p' /\ c = c') \/ p + c <= p' \/ p' + c' <= p.
Proof using Hps.
  destruct g as [n|n|sh b|sh|n]; cbn; try done; [lia|]. intros Hc (-> & i & _ & _ & ->) (-> & i' & _ & _ & ->).
  assert (0 < 2 ^ sh) by (apply Z.pow_pos_nonneg; [lia|apply co_shift in Hc; lia]). destruct (Z.lt_trichotomy i i') as [|[->|]]; [right; left; nia|by left|right; right; nia].
Qed.

Lemma live_disjoint a l p c p' c' : Forall wf l -> live a l p c -> live a l p' c' -> (p = p' /\ c = c') \/ p + c <= p' \/ p' + c' <= p.
Proof using Hps.
  intros H. revert a; induction H as [|g l Hg H IH]; intros a; cbn; [done|]. intros [H1|H1] [H2|H2].
  - by eapply block_disjoint.
  - apply block_bounds in H1; [|done]. apply live_bounds in H2; [|done]. lia.
  - apply block_bounds in H2; [|done]. apply live_bounds in H1; [|done]. lia.
  - by eapply IH.
Qed.

Lemma bitmap_fits sh b : wf (Chunks sh b) -> sh < exact ps -> 8 * bitmap_words ps sh <= 2 ^ ps.
Proof using Hps.
  intros Hc Hlt. assert (Hsh := co_shift _ _ _ Hc). destruct (small_sizes ps Hps sh Hsh Hlt) as (_ & _ & _ & H1 & H2 & _). assert (Hb := chunks_bytes ps Hps sh Hsh).
  assert (0 < 2 ^ sh) by (apply Z.pow_pos_nonneg; lia). nia.
Qed.

Lemma bitmaps_frame w w' a l : Forall wf l -> bitmaps w a l -> (forall y, a <= y < a + total l * 2 ^ ps -> w' y = w y) -> bitmaps w' a l.
Proof using Hps.
  intros H. revert a; induction H as [|g l Hg H IH]; intros a; cbn; [done|]. intros [H1 H2] Hy. assert (Hp := pow_ps). assert (Hl := wf_len _ Hg).
  assert (Ht := total_nonneg l (wf_lens _ H)). split.
  - destruct g as [n|n|sh b|sh|n]; try done. intros Hlt n Hn. rewrite Hy; [by apply H1|]. assert (Hf := bitmap_fits sh b Hg Hlt). cbn [slen]. nia.
  - apply IH; [done|]. intros y Hyy. apply Hy. nia.
Qed.

(** A run of pages without blocks is part of a free run. *)
Lemma first_page_block a g : wf g -> not_free (Some g) -> exists p c, block_in a g p c /\ p < a + 2 ^ ps /\ forall i, 0 <= i < slen g -> i * 2 ^ ps < p - a + c.
Proof using Hps.
  assert (Hp := pow_ps). destruct g as [n|n|sh b|sh|n]; cbn; try done; intros Hw _.
  - exists a, (n * 2 ^ ps). split_and!; [done|done|lia|]. intros i Hi. nia.
  - destruct (co_used _ _ _ Hw) as (i & Hi & Hb). exists (a + i * 2 ^ sh), (2 ^ sh). assert (Hblk : block_in a (Chunks sh b) (a + i * 2 ^ sh) (2 ^ sh)) by (cbn; eauto).
    apply block_bounds in Hblk; [|done]. cbn in Hblk. split_and!; [done|eauto|lia|]. intros j Hj. replace j with 0 by lia. lia.
Qed.

Lemma free_run a l i k : Forall wf l -> sep l -> 1 <= k -> 0 <= i -> i + k <= total l ->
  (exists p c, live a l p c /\ p < a + (i + k) * 2 ^ ps /\ a + i * 2 ^ ps < p + c) \/ exists n, Free n ∈ l /\ k <= n.
Proof using Hps.
  intros H. assert (Hp := pow_ps). revert a i; induction H as [|g l Hg H IH]; intros a i Hs Hk Hi Hik; cbn in *; [lia|]. assert (Hl := wf_len _ Hg).
  destruct (Z.le_gt_cases (slen g) i) as [Hge|Hlt].
  - destruct (IH (a + slen g * 2 ^ ps) (i - slen g)) as [(p & c & Hlv & H1 & H2)|(n & Hn & Hkn)]; [destruct g; tauto|lia..| |right; exists n; split; [by right|done]].
    left. exists p, c. split; [by right|]. nia.
  - assert (not_free (Some g) \/ exists n, g = Free n) as [Hnf|(n & ->)] by (destruct g; cbn; eauto).
    + left. destruct (first_page_block a g Hg Hnf) as (p & c & Hb & Hpa & Hpc). exists p, c. split; [by left|]. specialize (Hpc i ltac:(lia)). split; [nia|lia].
    + cbn in *. destruct (Z.le_gt_cases k n) as [|Hgt]; [right; exists n; split; [by left|done]|]. left.
      destruct H as [|h l Hh H]; [cbn in *; lia|]. cbn in Hs. destruct (first_page_block (a + n * 2 ^ ps) h Hh ltac:(tauto)) as (p & c & Hb & Hpa & Hpc).
      exists p, c. split; [right; by left|]. assert (Hh' := wf_len _ Hh). specialize (Hpc 0 ltac:(lia)). nia.
Qed.
End Bounds.
End Heap.
