(* ===== verification/SlabAlloc.v ===== *)
(** * Allocation

    [ngx_slab_alloc_locked] keeps the invariant of the pool and adds one block,
    or finds no room. *)

From stdpp Require Import gmap.
From S2P Require Import Prelude Slab SlabRing SlabPages SlabRuns SlabFree SlabChunk SlabBits SlabMark SlabSmall SlabNew SlabHeap.

Section Alloc.
Context (ps : Z).

(** ** The pool between two calls *)

Record pool_ok (s : slab_pool) (N : Z) (segs : list seg) : Prop := {
  po_geom : geom ps s N;
  po_inv : exists R, inv ps s N (p_desc s) R segs;
  po_clean : Forall clean segs;
  po_sep : sep segs;
  po_pfree : p_pfree s = frees segs;
  po_words : bitmaps ps (p_words s) (p_start s) segs
}.

Definition blocks (s : slab_pool) (segs : list seg) (p c : Z) : Prop := live ps (p_start s) segs p c.

Lemma laid_wf w m a l : laid ps w m a l -> Forall clean l -> Forall (wf ps) l.
Proof.
  intros HL HC. revert a HL; induction HC as [|g l Hg HC IH]; intros a HL; [constructor|]. apply Forall_cons in HL as [H1 H2]. constructor; [|by eapply IH].
  destruct g; cbn in *; naive_solver.
Qed.

Lemma pool_wf s N segs : pool_ok s N segs -> Forall (wf ps) segs.
Proof. intros HP. destruct (po_inv _ _ _ HP) as [R HI]. eapply laid_wf; [apply (i_laid _ _ _ _ _ _ HI)|apply (po_clean _ _ _ HP)]. Qed.

Lemma pool_total s N segs : pool_ok s N segs -> total segs = N.
Proof. intros HP. destruct (po_inv _ _ _ HP) as [R HI]. apply (i_total _ _ _ _ _ _ HI). Qed.

Lemma pool_same s s' N segs : same_pool s s' -> p_desc s' = p_desc s -> p_words s' = p_words s -> p_pfree s' = p_pfree s -> pool_ok s N segs -> pool_ok s' N segs.
Proof.
  intros Hs E1 E2 E3 [H1 [R H2] H3 H4 H5 H6]. assert (Est := sp_start _ _ Hs). split; [by eapply geom_pool| |done|done|congruence|by rewrite E2, Est].
  exists R. rewrite E1. by eapply inv_pool.
Qed.

(** A part of the segments changes, and words of its pages only. *)
Lemma pool_step s N l1 old l2 s' R' new :
  pool_ok s N (l1 ++ old ++ l2) -> same_pool s s' -> inv ps s N (p_desc s') R' (l1 ++ new ++ l2) -> total new = total old -> Forall clean new ->
  sep (l1 ++ new ++ l2) -> p_pfree s' = frees (l1 ++ new ++ l2) ->
  bitmaps ps (p_words s') (base ps s (total l1)) new ->
  (forall y, p_words s' y <> p_words s y -> base ps s (total l1) <= y < base ps s (total l1) + total old * 2 ^ ps) ->
  pool_ok s' N (l1 ++ new ++ l2).
Proof.
  intros HP Hsame HI Htot Hnew Hsep Hpf Hbm Hfr. assert (HG := po_geom _ _ _ HP). assert (Hps := g_ps _ _ _ HG). assert (Hwf := pool_wf _ _ _ HP).
  assert (HC := po_clean _ _ _ HP). assert (HB := po_words _ _ _ HP). rewrite !Forall_app in HC, Hwf. rewrite !bitmaps_app in HB. destruct HC as (C1 & _ & C2).
  destruct Hwf as (W1 & Wo & W2). destruct HB as (B1 & _ & B2). unfold base in *. assert (H1 := total_nonneg _ (wf_lens _ _ W1)). assert (Ho := total_nonneg _ (wf_lens _ _ Wo)).
  assert (Hp := pow_ps _ Hps). assert (Hsamew : forall y, ~ (p_start s + total l1 * 2 ^ ps <= y < p_start s + total l1 * 2 ^ ps + total old * 2 ^ ps) -> p_words s' y = p_words s y).
  { intros y Hy. destruct (decide (p_words s' y = p_words s y)) as [|Hne]; [done|]. by apply Hfr in Hne. }
  split; [by eapply geom_pool|exists R'; by eapply inv_pool|by rewrite !Forall_app|done|done|].
  rewrite (sp_start _ _ Hsame), !bitmaps_app. split_and!; [|done|].
  - eapply bitmaps_frame; [exact Hps|done|exact B1|]. intros y Hy. apply Hsamew. lia.
  - rewrite Htot. eapply bitmaps_frame; [exact Hps|done|exact B2|]. intros y Hy. apply Hsamew. lia.
Qed.

(** ** What an allocation gives *)

(** Words that change are in no block. *)
Definition words_kept (s s' : slab_pool) (segs : list seg) : Prop :=
  forall y, p_words s' y <> p_words s y -> forall q d, blocks s segs q d -> ~ (q <= y < q + d).

Record gave (s : slab_pool) (N : Z) (segs : list seg) (p c : Z) (s' : slab_pool) (segs' : list seg) : Prop := {
  gv_ok : pool_ok s' N segs';
  gv_same : same_pool s s';
  gv_new : ~ blocks s segs p c;
  gv_blocks : forall q d, blocks s segs' q d <-> blocks s segs q d \/ (q = p /\ d = c);
  gv_words : words_kept s s' segs'
}.

(** Blocks of a list with one segment of interest. *)
Lemma blocks_mid s l1 l l2 p c : blocks s (l1 ++ l ++ l2) p c <->
  live ps (base ps s (total l1)) l p c \/ blocks s l1 p c \/ live ps (base ps s (total l1 + total l)) l2 p c.
Proof.
  unfold blocks, base. rewrite !live_app. replace (p_start s + (total l1 + total l) * 2 ^ ps) with (p_start s + total l1 * 2 ^ ps + total l * 2 ^ ps) by lia. tauto.
Qed.

(** The words of the bitmap of a page are in no block. *)
Lemma bitmap_kept s s' l1 sh b l2 : 12 <= ps <= 16 -> Forall (wf ps) (l1 ++ Chunks sh b :: l2) ->
  (forall y, p_words s' y <> p_words s y -> sh < exact ps /\ base ps s (total l1) <= y < base ps s (total l1) + 8 * bitmap_words ps sh) ->
  words_kept s s' (l1 ++ Chunks sh b :: l2).
Proof.
  intros Hps Hwf Hfr y Hy q d Hb Hin. apply Hfr in Hy as [Hlt Hy]. apply Forall_app in Hwf as [W1 W2]. apply Forall_cons in W2 as [Wc W2].
  assert (Hfit := bitmap_fits ps Hps sh b Wc Hlt). change (Chunks sh b :: l2) with ([Chunks sh b] ++ l2) in Hb. apply blocks_mid in Hb as [Hb|[Hb|Hb]].
  - cbn in Hb. destruct Hb as [(-> & i & Hi & _ & ->)|[]]. assert (Hsh := co_shift _ _ _ Wc). destruct (small_sizes ps Hps sh Hsh Hlt) as (_ & _ & _ & _ & Hm & _).
    assert (0 < 2 ^ sh) by (apply Z.pow_pos_nonneg; lia). unfold meta in Hi. rewrite (proj2 (Z.ltb_lt _ _) Hlt) in Hi. nia.
  - apply live_bounds in Hb; [|done..]. unfold base in *. lia.
  - apply live_bounds in Hb; [|done..]. unfold base in *. cbn [total slen] in Hb. lia.
Qed.

(** ** The three ways *)

(** How the segments change: a run is given out, a page becomes a page of chunks
    because no page of its size has a free one, or a page gives a chunk. *)
Definition is_open (sh : Z) (g : seg) : Prop := ring_of ps g = Some (RSlot sh).

Inductive grew (size : Z) : list seg -> list seg -> Prop :=
| GPages l1 n l2 : 2 ^ (ps - 1) < size -> 1 <= pages_for ps size <= n ->
    grew size (l1 ++ Free n :: l2) (l1 ++ (Pages (pages_for ps size) :: rest_of (pages_for ps size) n) ++ l2)
| GNew l1 n sh l2 : 3 <= sh < ps -> 2 ^ sh = 8 \/ 2 ^ sh < 2 * size -> 1 <= n -> Forall (fun g => ~ is_open sh g) (l1 ++ Free n :: l2) ->
    grew size (l1 ++ Free n :: l2) (l1 ++ (Chunks sh (first_bits ps sh) :: rest_of 1 n) ++ l2)
| GOld l1 sh b i l2 : chunk_ok ps sh b -> ~ full ps sh b -> meta ps sh <= i < chunks ps sh -> Z.testbit b i = false ->
    grew size (l1 ++ Chunks sh b :: l2) (l1 ++ Chunks sh (set_bit b i) :: l2).

Section Ways.
Context (s : slab_pool) (N : Z).

Lemma gave_marked l1 l2 sh b r s' : pool_ok s N (l1 ++ Chunks sh b :: l2) -> marked ps s N l1 l2 sh b r s' ->
  exists p i, r = Some p /\ meta ps sh <= i < chunks ps sh /\ Z.testbit b i = false
    /\ gave s N (l1 ++ Chunks sh b :: l2) p (2 ^ sh) s' (l1 ++ Chunks sh (set_bit b i) :: l2).
Proof.
  intros HP (i & R' & Hi & Hb & -> & Hsame & Hpf & HI & Hw & Hfr). assert (HG := po_geom _ _ _ HP). assert (Hps := g_ps _ _ _ HG). assert (Hwf := pool_wf _ _ _ HP).
  assert (HPs := po_sep _ _ _ HP). assert (Hbm := po_words _ _ _ HP). set (b' := set_bit b i) in *. set (p := base ps s (total l1) + i * 2 ^ sh).
  assert (Hc : chunk_ok ps sh b) by (apply Forall_app in Hwf as [_ [Hwf _]%Forall_cons]; exact Hwf). assert (Hpos : 0 < 2 ^ sh) by (apply Z.pow_pos_nonneg; [lia|apply co_shift in Hc; lia]).
  assert (Hmeta := new_bit_meta ps sh b i Hc Hi Hb).
  assert (HP' : pool_ok s' N (l1 ++ [Chunks sh b'] ++ l2)).
  { eapply (pool_step s N l1 [Chunks sh b] l2 s' R'); try done.
    - constructor; [done|constructor].
    - rewrite !sep_app in *. cbn in *. tauto.
    - rewrite Hpf, (po_pfree _ _ _ HP), !frees_app. done.
    - cbn. split; [|done]. intros Hlt. apply Hw; [done|]. rewrite bitmaps_app in Hbm. cbn in Hbm. by apply Hbm.
    - intros y Hy. apply Hfr in Hy as [Hlt Hy]. assert (Hfit := bitmap_fits ps Hps sh b Hc Hlt). cbn. lia. }
  exists p, i. split; [done|]. split; [lia|]. split; [done|]. split; [done|done| | |by apply bitmap_kept; [|by apply (pool_wf s' N)|]].
  - intros Hbl. apply (blocks_mid s l1 [Chunks sh b]) in Hbl. rewrite Forall_app, Forall_cons in Hwf. destruct Hwf as (W1 & Wc & W2).
    assert (Hbd : block_in ps (base ps s (total l1)) (Chunks sh b') p (2 ^ sh)).
    { cbn. split; [done|]. exists i. split; [lia|]. split; [|done]. unfold b'. rewrite set_bit_spec, Z.eqb_refl by lia. apply orb_true_r. }
    apply block_bounds in Hbd; [|done|by apply set_bit_ok]. destruct Hbl as [[(_ & j & Hj & Hbj & E)|[]]|[Hbl|Hbl]].
    + assert (j = i) by (unfold p in E; nia). congruence.
    + apply live_bounds in Hbl; [|done..]. unfold base in *. lia.
    + apply live_bounds in Hbl; [|done..]. unfold base in *. cbn [total slen] in *. lia.
  - intros q d. change (Chunks sh b :: l2) with ([Chunks sh b] ++ l2). change (Chunks sh (set_bit b i) :: l2) with ([Chunks sh b'] ++ l2). rewrite !blocks_mid. cbn [total slen live]. assert (Hblk : block_in ps (base ps s (total l1)) (Chunks sh b') q d <->
      block_in ps (base ps s (total l1)) (Chunks sh b) q d \/ (q = p /\ d = 2 ^ sh)); [|tauto].
    cbn. split.
    + intros (-> & j & Hj & Hbj & ->). unfold b' in Hbj. rewrite set_bit_spec in Hbj by (pose proof (meta_bounds ps Hps sh (co_shift _ _ _ Hc)); lia).
      destruct (Z.eqb_spec j i) as [->|Hne]; [by right|]. rewrite orb_false_r in Hbj. left. eauto.
    + intros [(-> & j & Hj & Hbj & ->)|[-> ->]]; (split; [done|]).
      * exists j. split; [done|]. split; [|done]. unfold b'. rewrite set_bit_spec, Hbj by (pose proof (meta_bounds ps Hps sh (co_shift _ _ _ Hc)); lia). done.
      * exists i. split; [lia|]. split; [|done]. unfold b'. rewrite set_bit_spec, Z.eqb_refl by lia. apply orb_true_r.
Qed.

Lemma rest_sep l1 g k n l2 : sep (l1 ++ Free n :: l2) -> not_free (Some g) -> sep (l1 ++ (g :: rest_of k n) ++ l2).
Proof.
  rewrite !sep_app. intros (H1 & H2 & _) Hg. assert (Hsep : sep (g :: rest_of k n) <-> sep (rest_of k n)) by (by destruct g). rewrite Hsep. unfold rest_of.
  cbn in H2. destruct (k <? n); cbn; split_and!; try done; try tauto; by right.
Qed.

Lemma rest_total k n : k <= n -> total (rest_of k n) = n - k /\ frees (rest_of k n) = n - k.
Proof. intros Hk. unfold rest_of. destruct (Z.ltb_spec k n); cbn; lia. Qed.

Lemma rest_live a k n p c : ~ live ps a (rest_of k n) p c.
Proof. unfold rest_of. destruct (k <? n); cbn; tauto. Qed.

(** A run with one block. *)
Lemma gave_run l1 n l2 R' g p c s' :
  pool_ok s N (l1 ++ Free n :: l2) -> same_pool s s' -> inv ps s N (p_desc s') R' (l1 ++ (g :: rest_of (slen g) n) ++ l2) ->
  slen g <= n -> clean g -> not_free (Some g) -> p_pfree s' = u64 (p_pfree s - slen g) ->
  (forall q d, block_in ps (base ps s (total l1)) g q d <-> q = p /\ d = c) ->
  bitmaps ps (p_words s') (base ps s (total l1)) [g] ->
  (forall y, p_words s' y <> p_words s y -> base ps s (total l1) <= y < base ps s (total l1) + slen g * 2 ^ ps) ->
  words_kept s s' (l1 ++ (g :: rest_of (slen g) n) ++ l2) ->
  gave s N (l1 ++ Free n :: l2) p c s' (l1 ++ (g :: rest_of (slen g) n) ++ l2).
Proof.
  intros HP Hsame HI Hn Hcl Hnf Hpf Hblk Hbm Hfr Hkept. assert (HG := po_geom _ _ _ HP). assert (Hps := g_ps _ _ _ HG). assert (Hwf := pool_wf _ _ _ HP).
  assert (Hlen : 1 <= slen g) by (eapply (start_len ps s N); [exact HI|]; apply (starts_mem _ l1)). destruct (rest_total (slen g) n Hn) as [Ht Hf].
  assert (Htot := pool_total _ _ _ HP). assert (Hpow := pow_ps _ Hps). assert (HN := g_size _ _ _ HG). assert (Hfg : frees [g] = 0) by (by destruct g).
  assert (Hfree : 0 <= frees l1 /\ 0 <= frees l2 /\ frees l1 + n + frees l2 <= N).
  { rewrite Forall_app, Forall_cons in Hwf. destruct Hwf as (W1 & _ & W2). assert (HB : forall l, Forall (wf ps) l -> 0 <= frees l <= total l).
    { intros l Hl. induction Hl as [|h l Hh Hl IH]; [done|]. apply wf_len in Hh. destruct h; cbn in *; lia. }
    rewrite total_app in Htot. cbn in Htot. specialize (HB _ W1) as HB1. specialize (HB _ W2) as HB2. lia. }
  assert (HP' : pool_ok s' N (l1 ++ (g :: rest_of (slen g) n) ++ l2)).
  { eapply (pool_step s N l1 [Free n] l2 s' R'); try done.
    - cbn [total]. change (slen (Free n)) with n. lia.
    - constructor; [done|]. unfold rest_of. destruct (_ <? _); repeat constructor.
    - apply rest_sep; [apply (po_sep _ _ _ HP)|done].
    - rewrite Hpf, (po_pfree _ _ _ HP). change (g :: rest_of (slen g) n) with ([g] ++ rest_of (slen g) n). rewrite !frees_app, Hf, Hfg. cbn [frees].
      rewrite u64_small; [lia|]. change (2 ^ 48) with 281474976710656 in HN. unfold in_u64. change (2 ^ 64) with 18446744073709551616. lia.
    - change (g :: rest_of (slen g) n) with ([g] ++ rest_of (slen g) n). rewrite bitmaps_app. split; [done|]. unfold rest_of. destruct (_ <? _); cbn; done.
    - intros y Hy. apply Hfr in Hy. cbn. nia. }
  split; [done|done| | |done].
  - intros Hbl. apply (blocks_mid s l1 [Free n]) in Hbl. rewrite Forall_app, Forall_cons in Hwf. destruct Hwf as (W1 & Wf & W2).
    assert (Hwf' := pool_wf _ _ _ HP'). rewrite !Forall_app, Forall_cons in Hwf'. destruct Hwf' as (_ & (Wg & _) & _).
    assert (Hb := proj2 (Hblk p c) (conj eq_refl eq_refl)). apply block_bounds in Hb; [|done..]. destruct Hbl as [[[]|[]]|[Hbl|Hbl]].
    + apply live_bounds in Hbl; [|done..]. unfold base in *. lia.
    + apply live_bounds in Hbl; [|done..]. unfold base in *. cbn [total slen] in Hbl. nia.
  - intros q d. change (Free n :: l2) with ([Free n] ++ l2). rewrite !blocks_mid. cbn [live total slen]. rewrite Hblk, Ht. cbn [block_in].
    replace (slen g + (n - slen g)) with (n + 0) by lia. pose proof (rest_live (base ps s (total l1) + slen g * 2 ^ ps) (slen g) n q d). tauto.
Qed.

Lemma gave_pages l1 n l2 k m' ring R : pool_ok s N (l1 ++ Free n :: l2) -> 1 <= k <= n ->
  inv ps s N m' (upd_ring R RFree ring) (l1 ++ (Pages k :: rest_of k n) ++ l2) ->
  gave s N (l1 ++ Free n :: l2) (base ps s (total l1)) (k * 2 ^ ps) (less_free s m' k) (l1 ++ (Pages k :: rest_of k n) ++ l2).
Proof.
  intros HP Hk HI. apply (gave_run l1 n l2 (upd_ring R RFree ring) (Pages k)); try done.
  - apply Hk.
  - intros y Hy. by destruct Hy.
Qed.

Lemma gave_opened l1 n l2 sh m' r s' : pool_ok s N (l1 ++ Free n :: l2) -> 1 <= n -> 3 <= sh < ps ->
  opened ps (less_free s m' 1) N l1 (rest_of 1 n ++ l2) sh r s' ->
  gave s N (l1 ++ Free n :: l2) r (2 ^ sh) s' (l1 ++ (Chunks sh (first_bits ps sh) :: rest_of 1 n) ++ l2).
Proof.
  intros HP Hn Hsh (R' & -> & Hsame & Hpf & HI & Hw & Hfr). assert (Hps := g_ps _ _ _ (po_geom _ _ _ HP)). destruct (first_ok ps Hps sh Hsh) as [Hc _].
  assert (Hsame' : same_pool s s') by (by eapply same_trans; [|exact Hsame]). assert (Hpow := pow_ps _ Hps). destruct (meta_bounds ps Hps sh Hsh) as (Hm0 & Hm1 & _).
  assert (HI' : inv ps s N (p_desc s') R' (l1 ++ (Chunks sh (first_bits ps sh) :: rest_of 1 n) ++ l2)) by (by apply (inv_pool ps (less_free s m' 1))).
  assert (Hcl : Forall clean (l1 ++ (Chunks sh (first_bits ps sh) :: rest_of 1 n) ++ l2)).
  { assert (HC := po_clean _ _ _ HP). rewrite !Forall_app, !Forall_cons in *. split_and!; try tauto. unfold rest_of. destruct (_ <? _); repeat constructor. }
  eapply (gave_run l1 n l2 R' (Chunks sh (first_bits ps sh))); try done.
  - intros q d. cbn. split.
    + intros (-> & i & Hi & Hb & ->). rewrite first_bit in Hb by (done || lia). assert (i = meta ps sh) as -> by lia. done.
    + intros [-> ->]. split; [done|]. exists (meta ps sh). split; [lia|]. split; [|done]. rewrite first_bit by (done || lia). lia.
  - intros y Hy. apply Hfr in Hy as [Hlt Hy]. assert (Hfit := bitmap_fits ps Hps sh (first_bits ps sh) Hc Hlt). change (base ps (less_free s m' 1)) with (base ps s) in Hy. cbn. lia.
  - apply (bitmap_kept s s' l1 sh (first_bits ps sh) (rest_of 1 n ++ l2)); [done| |done]. apply (laid_wf N (p_desc s') (p_pages s)); [apply (i_laid _ _ _ _ _ _ HI')|done].
Qed.

Lemma gave_pos segs p c s' segs' : geom ps s N -> gave s N segs p c s' segs' -> p <> 0.
Proof.
  intros HG HV. assert (Hb : blocks s segs' p c) by (apply (gv_blocks _ _ _ _ _ _ _ HV); by right). apply live_bounds in Hb; [|apply (g_ps _ _ _ HG)|by apply (pool_wf s' N), (gv_ok _ _ _ _ _ _ _ HV)].
  assert (Hs := g_start _ _ _ HG). lia.
Qed.

Lemma gave_same s0 segs p c s' segs' : same_pool s0 s -> p_words s = p_words s0 -> gave s N segs p c s' segs' -> gave s0 N segs p c s' segs'.
Proof.
  intros Hs Ew [H1 H2 H3 H4 H5]. assert (Est := sp_start _ _ Hs). unfold words_kept, blocks in *. rewrite Est, Ew in *. split; [done|by eapply same_trans|done|done|done].
Qed.
End Ways.

(** ** Sizes *)

Lemma halvings_log2 fuel n : 0 < n < 2 ^ Z.of_nat fuel -> halvings fuel n = Z.log2 n.
Proof.
  revert n; induction fuel as [|fuel IH]; intros n Hn; [change (2 ^ Z.of_nat 0) with 1 in Hn; lia|]. cbn [halvings]. rewrite Z.shiftr_div_pow2 by lia. change (2 ^ 1) with 2.
  rewrite Nat2Z.inj_succ, Z.pow_succ_r in Hn by lia. destruct (Z.eqb_spec (n / 2) 0) as [E|Hne].
  - assert (n = 1) as -> by (pose proof (Z.div_mod n 2); pose proof (Z.mod_pos_bound n 2); lia). done.
  - assert (Hd := Z.div_mod n 2 ltac:(lia)). assert (Hm := Z.mod_pos_bound n 2 ltac:(lia)). rewrite IH by (split; [|apply Z.div_lt_upper_bound]; lia).
    destruct (Z.eq_dec (n mod 2) 0) as [E0|]; [replace n with (2 * (n / 2)) at 2 by lia; rewrite Z.log2_double; lia|].
    replace n with (2 * (n / 2) + 1) at 2 by lia. rewrite Z.log2_succ_double; lia.
Qed.

Lemma shift_spec size : 12 <= ps <= 16 -> 0 <= size <= 2 ^ (ps - 1) ->
  exists sh, slab_shift 8 3 size = (sh, sh - 3) /\ 3 <= sh < ps /\ size <= 2 ^ sh < size + 2 ^ ps /\ (2 ^ sh = 8 \/ 2 ^ sh < 2 * size).
Proof.
  intros Hps Hsz. assert (Hpp : 2 ^ ps = 2 * 2 ^ (ps - 1)) by (rewrite <- Z.pow_succ_r by lia; f_equal; lia). assert (H8 : 2 ^ 3 <= 2 ^ (ps - 1)) by (apply Z.pow_le_mono_r; lia).
  unfold slab_shift. destruct (Z.ltb_spec 8 size) as [Hlt|Hge].
  - assert (H64 : 2 ^ (ps - 1) < 2 ^ 64) by (apply Z.pow_lt_mono_r; lia). assert (Hl := Z.log2_spec (size - 1) ltac:(lia)). set (l := Z.log2 (size - 1)) in *.
    rewrite halvings_log2 by (change (Z.of_nat 64) with 64; lia). fold l. exists (1 + l). assert (Hl3 : 3 <= l) by (apply (Z.log2_le_mono 8); lia).
    assert (Hlp : l < ps - 1) by (apply (Z.pow_lt_mono_r_iff 2); lia). rewrite <- Z.add_1_l in Hl. rewrite (Z.pow_add_r 2 1 l) in * by lia. change (2 ^ 1) with 2 in *.
    split_and!; [done|lia..|]. right. lia.
  - exists 3. change (2 ^ 3) with 8 in *. split_and!; [done|lia..|]. by left.
Qed.

Lemma pages_spec size : 12 <= ps <= 16 -> 2 ^ (ps - 1) < size ->
  1 <= pages_for ps size /\ size <= pages_for ps size * 2 ^ ps < size + 2 ^ ps /\ pages_for ps size * 2 ^ ps < 2 * size.
Proof.
  intros Hps Hsz. assert (Hp := pow_ps ps Hps). unfold pages_for, ngx_pagesize. rewrite Z.shiftr_div_pow2 by lia. assert (Hd := Z.div_mod size (2 ^ ps) ltac:(lia)).
  assert (Hm := Z.mod_pos_bound size (2 ^ ps) ltac:(lia)). assert (Hh : 2 ^ ps = 2 * 2 ^ (ps - 1)) by (rewrite <- Z.pow_succ_r by lia; f_equal; lia).
  assert (H0 : 0 <= size / 2 ^ ps) by (apply Z.div_pos; lia). set (q := size / 2 ^ ps) in *. set (r := size mod 2 ^ ps) in *. destruct (Z.eqb_spec r 0) as [E|Hne].
  - assert (1 <= q) by nia. nia.
  - destruct (Z.eq_dec q 0) as [E|]; [rewrite E in *; lia|]. nia.
Qed.

(** ** The code *)

(** The pages an allocation takes when no chunk is at hand. *)
Definition need (size : Z) : Z := if ngx_slab_max_size ps <? size then pages_for ps size else 1.

Definition failed (s : slab_pool) (N : Z) (segs : list seg) (k p : Z) (s' : slab_pool) : Prop :=
  p = 0 /\ pool_ok s' N segs /\ same_pool s s' /\ p_words s' = p_words s /\ forall n, Free n ∈ segs -> n < k.

Lemma run_stat {A} slot f (k : unit -> SM A) s : (stat_add slot f ≫= k) s = k tt (s <| p_stats := alter f (Z.to_nat slot) (p_stats s) |>).
Proof. done. Qed.

Section Code.
Context (s : slab_pool) (N : Z) (segs : list seg) (HP : pool_ok s N segs).

Lemma alloc_fresh sh slot : 3 <= sh < ps -> (exists R, inv ps s N (p_desc s) R segs /\ R (RSlot sh) = []) ->
  exists p s', (page ← ngx_slab_alloc_pages 1;
    if negb (page =? SNULL) then
      if sh <? ngx_slab_exact_shift ps then new_small ps page sh slot (rhead s (RSlot sh))
      else if sh =? ngx_slab_exact_shift ps then new_exact ps page slot (rhead s (RSlot sh))
      else new_big ps page sh slot (rhead s (RSlot sh))
    else stat_add slot fails_inc;; mret 0) s = Some (p, s') /\ (failed s N segs 1 p s' \/ exists segs', gave s N segs p (2 ^ sh) s' segs'
      /\ forall size, 2 ^ sh = 8 \/ 2 ^ sh < 2 * size -> grew size segs segs').
Proof using HP.
  intros Hsh (R & HI & HR). assert (HG := po_geom _ _ _ HP). assert (Hps := g_ps _ _ _ HG). rewrite exact_shift_eq by done.
  destruct (alloc_pages_spec ps s N R segs 1 HG HI ltac:(lia)) as [[E Hno]|(l1 & n & l2 & m' & ring & Es & Hn & Hx & E & HI')].
  - erewrite run_bind; [|exact E]. rewrite Z.eqb_refl. cbn [negb]. unfold stat_add. rewrite run_modify. eexists _, _. split; [done|]. left. split_and!; try done. by apply (pool_same s).
  - erewrite run_bind; [|exact E]. rewrite (proj2 (Z.eqb_neq _ _) Hx). cbn [negb]. set (s1 := less_free s m' 1). assert (Hsame : same_pool s s1) by done.
    assert (HG1 := geom_pool ps _ _ _ Hsame HG). assert (HI1 := inv_pool ps _ _ _ _ _ _ Hsame HI').
    assert (HR1 : upd_ring R RFree ring (RSlot sh) = []) by (by rewrite upd_ring_ne).
    assert (Hnew : exists r s', (if sh <? exact ps then new_small ps (page_at (p_pages s) (total l1)) sh slot (rhead s (RSlot sh))
      else if sh =? exact ps then new_exact ps (page_at (p_pages s) (total l1)) slot (rhead s (RSlot sh))
      else new_big ps (page_at (p_pages s) (total l1)) sh slot (rhead s (RSlot sh))) s1 = Some (r, s') /\ opened ps s1 N l1 (rest_of 1 n ++ l2) sh r s').
    { destruct (Z.ltb_spec sh (exact ps)); [|destruct (Z.eqb_spec sh (exact ps))].
      - by apply (new_small_spec ps s1 N HG1 _ l1 (rest_of 1 n ++ l2) sh slot HI1).
      - by apply (new_exact_spec ps s1 N HG1 _ l1 (rest_of 1 n ++ l2) sh slot HI1).
      - apply (new_big_spec ps s1 N HG1 _ l1 (rest_of 1 n ++ l2) sh slot HI1); [done..|lia]. }
    destruct Hnew as (r & s' & E' & HO). exists r, s'. split; [exact E'|]. right. rewrite Es in HP |- *. eexists. split; [by eapply gave_opened|]. intros size Hw.
    constructor; [done|done|lia|]. rewrite <- Es. apply Forall_forall. intros g Hg Ho. destruct (starts_elem (p_pages s) segs g Hg) as [y Hy].
    assert (Hin := start_ring ps s N _ R segs HI (RSlot sh) y g Hsh Hy Ho). rewrite HR in Hin. by apply elem_of_nil in Hin.
Qed.

Lemma alloc_old sh slot l1 b l2 R : 3 <= sh < ps -> segs = l1 ++ Chunks sh b :: l2 -> ~ full ps sh b -> inv ps s N (p_desc s) R segs ->
  let x := page_at (p_pages s) (total l1) in
  exists p s' segs', (if sh <? ngx_slab_exact_shift ps then small_page ps x sh slot else if sh =? ngx_slab_exact_shift ps then exact_page ps x sh slot
      else big_page ps x sh slot) s = Some (Some p, s') /\ gave s N segs p (2 ^ sh) s' segs' /\ forall size, grew size segs segs'.
Proof using HP.
  intros Hsh Es Hf HI x. assert (HG := po_geom _ _ _ HP). assert (Hps := g_ps _ _ _ HG). rewrite exact_shift_eq by done. rewrite Es in HI.
  assert (Hmk : exists r s', (if sh <? exact ps then small_page ps x sh slot else if sh =? exact ps then exact_page ps x sh slot
      else big_page ps x sh slot) s = Some (r, s') /\ marked ps s N l1 l2 sh b r s').
  { destruct (Z.ltb_spec sh (exact ps)) as [Hlt|]; [|destruct (Z.eqb_spec sh (exact ps))].
    - eapply small_spec; try done. assert (Hbm := po_words _ _ _ HP). rewrite Es, bitmaps_app in Hbm. cbn in Hbm. by apply Hbm.
    - by eapply exact_spec.
    - eapply big_spec; try done. lia. }
  destruct Hmk as (r & s' & E & HM). rewrite Es in HP. destruct (gave_marked s N l1 l2 sh b r s' HP HM) as (p & i & -> & Hi & Hb & HV). exists p, s'. eexists. split; [done|]. rewrite Es. split; [exact HV|].
  intros size. constructor; [|done..]. assert (Hwf := pool_wf _ _ _ HP). by apply Forall_app in Hwf as [_ [Hwf _]%Forall_cons].
Qed.
End Code.

Lemma alloc_chunk_spec s N segs size : pool_ok s N segs -> 0 <= size <= 2 ^ (ps - 1) ->
  exists p s', alloc_chunk ps size s = Some (p, s') /\ (failed s N segs 1 p s' \/ exists c segs', size <= c < size + 2 ^ ps /\ (c = 8 \/ c < 2 * size) /\ gave s N segs p c s' segs' /\ grew size segs segs').
Proof.
  intros HP Hsz. assert (HG := po_geom _ _ _ HP). assert (Hps := g_ps _ _ _ HG). destruct (shift_spec size Hps Hsz) as (sh & Esh & Hsh & Hcap & Hwaste).
  unfold alloc_chunk. rewrite !run_gets. destruct (g_min _ _ _ HG) as [-> ->]. rewrite Esh. cbv beta iota zeta. rewrite run_stat, run_gets.
  set (s0 := s <| p_stats := _ |>). assert (Hsame : same_pool s s0) by done. assert (HP0 : pool_ok s0 N segs) by (by apply (pool_same s)).
  destruct (po_inv _ _ _ HP0) as [R HI]. assert (HR := i_ring _ _ _ _ _ _ HI (RSlot sh) Hsh).
  change (page_at (ngx_slab_slots s0) (sh - 3)) with (rhead s0 (RSlot sh)). set (h := rhead s0 (RSlot sh)) in *. assert (HL := dr_links _ _ _ _ HR).
  erewrite run_nxt; [|exact (dlinked_head _ _ _ _ _ HL)]. destruct (R (RSlot sh)) as [|x l] eqn:ER; cbn [head default].
  - erewrite run_nxt; [|exact (dlinked_head _ _ _ _ _ HL)]. cbn [head default]. rewrite Z.eqb_refl. cbn [negb]. rewrite run_ret.
    destruct (alloc_fresh s0 N segs HP0 sh (sh - 3) Hsh) as (p & s' & E & Hres); [by exists R|]. exists p, s'. split; [exact E|].
    destruct Hres as [(-> & H1 & H2 & H3 & H4)|(segs' & HV & HW)]; [left; split_and!; try done; by eapply same_trans|right; exists (2 ^ sh), segs'; split; [done|]; split; [done|]; split; [by eapply gave_same|by apply HW]].
  - change (id x) with x. destruct (dring_at _ _ _ [] x l HR) as (_ & Hnx & _ & Hne & _). erewrite run_nxt; [|exact Hnx]. rewrite (proj2 (Z.eqb_neq _ _) Hne). cbn [negb].
    destruct (ring_start ps s0 N _ R segs HI (RSlot sh) x Hsh) as (g & Hx & Hg); [rewrite ER; by left|].
    assert (HC := po_clean _ _ _ HP0). rewrite Forall_forall in HC. destruct (starts_at _ _ _ _ (inv_lens ps s0 N _ R segs HI) Hx) as (l1 & l2 & Es & Ex & _).
    assert (Hcg : clean g) by (apply HC; rewrite Es; apply elem_of_app; right; by left).
    assert (exists b, g = Chunks sh b /\ ~ full ps sh b) as (b & -> & Hf).
    { destruct g as [n|n|sh' b|sh'|n]; cbn in Hg; try done. destruct (Z.eqb_spec b (Z.ones (chunks ps sh'))) as [|Hb]; [done|]. injection Hg as ->. by exists b. }
    destruct (alloc_old s0 N segs HP0 sh (sh - 3) l1 b l2 R Hsh Es Hf HI) as (p & s' & segs' & E & HV & HW). rewrite Ex. erewrite run_bind; [|exact E].
    exists p, s'. split; [done|]. right. exists (2 ^ sh), segs'. split; [done|]. split; [done|]. split; [by eapply gave_same|apply HW].
Qed.

Lemma alloc_spec s N segs size : pool_ok s N segs -> 0 <= size ->
  exists p s', ngx_slab_alloc_locked ps size s = Some (p, s')
    /\ (failed s N segs (need size) p s' \/ exists c segs', size <= c < size + 2 ^ ps /\ (c = 8 \/ c < 2 * size) /\ gave s N segs p c s' segs' /\ grew size segs segs').
Proof.
  intros HP Hsz. assert (HG := po_geom _ _ _ HP). assert (Hps := g_ps _ _ _ HG). unfold ngx_slab_alloc_locked, need. rewrite max_size_eq by done.
  destruct (Z.ltb_spec (2 ^ (ps - 1)) size) as [Hlt|Hge]; [|apply alloc_chunk_spec; [done|lia]]. destruct (pages_spec size Hps Hlt) as (Hk & Hcap & Hwaste).
  set (k := pages_for ps size) in *. destruct (po_inv _ _ _ HP) as [R HI].
  destruct (alloc_pages_spec ps s N R segs k HG HI Hk) as [[E Hno]|(l1 & n & l2 & m' & ring & Es & Hn & Hx & E & HI')].
  - erewrite run_bind; [|exact E]. rewrite Z.eqb_refl. eexists _, _. split; [done|]. left. split_and!; done.
  - erewrite run_bind; [|exact E]. rewrite (proj2 (Z.eqb_neq _ _) Hx). cbn [negb]. rewrite <- run_ret_r. change (page_at (p_pages s)) with (page_at (p_pages (less_free s m' k))).
    rewrite (run_page_addr ps _ N) by (by apply (geom_pool ps s)). eexists _, _. split; [done|]. right. exists (k * 2 ^ ps). eexists. split; [done|]. split; [by right|].
    change (base ps (less_free s m' k)) with (base ps s). rewrite Es in HP |- *. split; [eapply gave_pages; [done|lia|exact HI']|]. constructor; [done|lia].
Qed.
End Alloc.
