(* ===== verification/SlabTake.v ===== *)
(** * Back to the free runs

    What a release leaves of the blocks: a page that keeps chunks, or pages that
    join the free runs beside them. *)

From stdpp Require Import gmap.
From S2P Require Import Prelude Slab SlabRing SlabPages SlabRuns SlabFree SlabChunk SlabBits SlabMark SlabSmall SlabNew SlabHeap SlabAlloc.

(** ** The bitmap with one bit less *)

Definition clear_bit (b i : Z) : Z := Z.land b (Z.lnot (2 ^ i)).

Lemma clear_bit_spec b i j : 0 <= i -> 0 <= j -> Z.testbit (clear_bit b i) j = Z.testbit b j && negb (j =? i).
Proof.
  intros Hi Hj. unfold clear_bit. rewrite Z.land_spec, Z.lnot_spec by done. f_equal. f_equal. destruct (Z.eqb_spec j i) as [->|Hne]; [apply Z.pow2_bits_true; lia|apply Z.pow2_bits_false; lia].
Qed.

Lemma clear_bit_range b i n : 0 <= b < 2 ^ n -> 0 <= i -> 0 <= clear_bit b i < 2 ^ n.
Proof.
  intros Hb Hi. assert (H0 : 0 <= clear_bit b i) by (apply Z.land_nonneg; left; lia). split; [done|]. destruct (Z.lt_ge_cases n 0) as [Hn|Hn]; [rewrite Z.pow_neg_r in Hb by done; lia|].
  destruct (decide (clear_bit b i = 0)) as [->|Hne]; [apply Z.pow_pos_nonneg; lia|].
  apply Z.log2_lt_pow2; [lia|]. apply Z.nle_gt. intros Hge. assert (Hbit := Z.bit_log2 (clear_bit b i) ltac:(lia)).
  rewrite clear_bit_spec in Hbit by (done || apply Z.log2_nonneg). by rewrite (testbit_high b n _ Hb Hge) in Hbit.
Qed.

Lemma wd_clear_eq b n i : 0 <= n -> 0 <= i < 64 -> Z.land (wd b n) (Z.lnot (2 ^ i)) = wd (clear_bit b (64 * n + i)) n.
Proof.
  intros Hn Hi. fold (clear_bit (wd b n) i). apply wd_eq; [done|apply clear_bit_range; [apply wd_range|lia]|]. intros j Hj. rewrite !clear_bit_spec by lia.
  rewrite wd_bit by lia. f_equal. f_equal. apply eq_true_iff_eq. rewrite !Z.eqb_eq. lia.
Qed.

Lemma wd_clear_ne b n i k : 0 <= n -> 0 <= i < 64 -> 0 <= k -> k <> n -> wd (clear_bit b (64 * n + i)) k = wd b k.
Proof.
  intros Hn Hi Hk Hne. symmetry. apply wd_eq; [done|apply wd_range|]. intros j Hj. rewrite clear_bit_spec by lia. rewrite wd_bit by lia.
  rewrite (proj2 (Z.eqb_neq _ _)) by lia. by rewrite andb_true_r.
Qed.

Section Take.
Context (ps : Z).

Lemma words_clear w a sh b n i : 0 <= n < bitmap_words ps sh -> 0 <= i < 64 -> words_ok ps w a sh b ->
  words_ok ps (put_word (a + 8 * n) (Z.land (wd b n) (Z.lnot (2 ^ i))) w) a sh (clear_bit b (64 * n + i)).
Proof.
  intros Hn Hi Hw k Hk. destruct (decide (k = n)) as [->|Hne].
  - rewrite put_word_eq. apply wd_clear_eq; lia.
  - rewrite put_word_ne, wd_clear_ne by lia. by apply Hw.
Qed.

(** ** What a release leaves *)

Record took (s : slab_pool) (N : Z) (segs : list seg) (p : Z) (s' : slab_pool) (segs' : list seg) : Prop := {
  tk_ok : pool_ok ps s' N segs';
  tk_same : same_pool s s';
  tk_blocks : forall q d, blocks ps s segs' q d <-> blocks ps s segs q d /\ q <> p;
  tk_words : words_kept ps s s' segs';
  tk_bitmap : ~ bitmap_at ps (p_start s) segs' p
}.

Section State.
Context (s : slab_pool) (N : Z).

(** Pages whose only block goes, with the free runs beside them. *)
Lemma took_joined l1 g l2 s' R' segs' p c :
  pool_ok ps s N (l1 ++ g :: l2) -> same_pool s s' -> inv ps s N (p_desc s') R' segs' -> joined l1 (slen g) l2 segs' -> not_free (Some g) ->
  p_pfree s' = u64 (p_pfree s + slen g) -> (forall q d, block_in ps (base ps s (total l1)) g q d <-> q = p /\ d = c) ->
  (forall y, p_words s' y <> p_words s y -> base ps s (total l1) <= y < base ps s (total l1) + slen g * 2 ^ ps) ->
  took s N (l1 ++ g :: l2) p s' segs'.
Proof.
  intros HP Hsame HI (l1' & pre & post & l2' & E1 & E2 & -> & Hpre & Hpost) Hg Hpf Hblk Hfr.
  assert (HG := po_geom _ _ _ _ HP). assert (Hps := g_ps _ _ _ HG). assert (Hwf := pool_wf _ _ _ _ HP). assert (Hpow := pow_ps _ Hps).
  assert (Htot := pool_total _ _ _ _ HP). assert (HN := g_size _ _ _ HG). assert (HS := po_sep _ _ _ _ HP). assert (Hpf0 := po_pfree _ _ _ _ HP).
  assert (Hrun : forall l, l = [] \/ (exists k, l = [Free k]) -> frees l = total l /\ (forall a q d, ~ live ps a l q d)).
  { intros l [->|(k & ->)]; cbn; (split; [lia|tauto]). }
  destruct (Hrun pre ltac:(naive_solver)) as [Fpre Lpre]. destruct (Hrun post ltac:(naive_solver)) as [Fpost Lpost]. clear Hrun.
  set (n := total pre + slen g + total post) in *.
  assert (Es : l1 ++ g :: l2 = l1' ++ (pre ++ [g] ++ post) ++ l2') by (rewrite E1, E2, <- !app_assoc; done).
  assert (Et : total l1 = total l1' + total pre) by (rewrite E1; apply total_app). assert (Etot : total (pre ++ [g] ++ post) = n) by (rewrite !total_app; cbn; unfold n; lia).
  assert (Hwf0 := Hwf). rewrite Es in Hwf. rewrite !Forall_app in Hwf. destruct Hwf as (W1 & (Wpre & Wg & Wpost) & W2). apply Forall_cons in Wg as [Wg _].
  assert (T1 := total_nonneg _ (wf_lens _ _ Wpre)). assert (T2 := total_nonneg _ (wf_lens _ _ Wpost)). assert (Tg := wf_len _ _ Wg).
  assert (Hb : block_in ps (base ps s (total l1)) g p c) by (by apply Hblk). apply block_bounds in Hb; [|done..].
  assert (HB : forall l, Forall (wf ps) l -> 0 <= frees l <= total l).
  { intros l Hl. induction Hl as [|h l Hh Hl IH]; [done|]. apply wf_len in Hh. destruct h; cbn in *; lia. }
  assert (B1 := HB _ W1). assert (B2 := HB _ W2). assert (Hfg : frees [g] = 0) by (by destruct g). rewrite Es, !total_app in Htot. cbn [total] in Htot.
  assert (Hpf' : p_pfree s' = frees (l1' ++ [Free n] ++ l2')).
  { rewrite Hpf, Hpf0, Es, !frees_app, Hfg, Fpre, Fpost. cbn [frees]. rewrite u64_small; [unfold n; lia|]. change (2 ^ 48) with 281474976710656 in HN.
    unfold in_u64. change (2 ^ 64) with 18446744073709551616. lia. }
  assert (Hsep : sep (l1' ++ [Free n] ++ l2')).
  { assert (Hx1 : sep l1' /\ not_free (last l1')).
    { rewrite E1, <- app_assoc, sep_app in HS. split; [tauto|]. destruct Hpre as [[-> Hl]|(k & ->)]; [by rewrite E1, app_nil_r in Hl|]. cbn in HS. destruct HS as (_ & _ & [H|H]); [done|destruct H]. }
    assert (Hx2 : sep l2' /\ not_free (head l2')).
    { rewrite E2, sep_app in HS. destruct HS as (_ & HS & _). destruct Hpost as [[-> Hl]|(k & ->)]; [rewrite E2 in Hl; cbn in *; destruct g; tauto|]. cbn in HS. destruct g; cbn in HS; tauto. }
    rewrite !sep_app. cbn. tauto. }
  assert (HP' : pool_ok ps s' N (l1' ++ [Free n] ++ l2')).
  { rewrite Es in HP. eapply (pool_step ps s N l1' _ l2' s' R'); try done.
    - rewrite Etot. cbn. lia.
    - constructor; [done|constructor].
    - intros y Hy. apply Hfr in Hy. rewrite Etot. unfold base, n in *. rewrite Et in Hy. nia. }
  split; [done|done| | |].
  - intros q d. rewrite Es. change (Free n :: l2') with ([Free n] ++ l2'). rewrite !blocks_mid, Etot. cbn [live total slen block_in]. rewrite !live_app. cbn [live]. fold (base ps s (total l1')).
    assert (Ebase : base ps s (total l1') + total pre * 2 ^ ps = base ps s (total l1)) by (unfold base; rewrite Et; lia). rewrite Ebase, Hblk.
    replace (total l1' + (n + 0)) with (total l1' + n) by lia. specialize (Lpre (base ps s (total l1')) q d).
    match goal with |- context [live ps ?a post q d] => specialize (Lpost a q d) end.
    assert (Hne1 : blocks ps s l1' q d -> q <> p) by (intros H%live_bounds; [unfold base in *; nia|done..]).
    assert (Hne2 : live ps (base ps s (total l1' + n)) l2' q d -> q <> p) by (intros H%live_bounds; [unfold base, n in *; nia|done..]).
    clear -Lpre Lpost Hne1 Hne2. tauto.
  - intros y Hy q d Hq Hin. apply Hfr in Hy. apply (blocks_mid ps s l1' [Free n]) in Hq as [[[]|[]]|[Hq|Hq]]; apply live_bounds in Hq; try done.
    + unfold base in *. nia.
    + cbn [total slen] in Hq. unfold base, n in *. nia.
  - change (Free n :: l2') with ([Free n] ++ l2'). rewrite !bitmap_at_app. intros [H|[[[]|[]]|H]]; (apply bitmap_at_bounds in H; [|done|done]).
    + unfold base in *. nia.
    + cbn [total slen] in H. unfold base, n in *. nia.
Qed.
End State.
End Take.
