(* ===== verification/SlabRelease.v ===== *)
(** * Releasing a chunk

    The three kinds of pages: a wrong address and a chunk that is free change
    nothing, a chunk in use goes. *)

From stdpp Require Import gmap list_numbers.
From S2P Require Import Prelude Slab SlabRing SlabPages SlabRuns SlabFree SlabChunk SlabBits SlabMark SlabSmall SlabNew SlabHeap SlabAlloc SlabTake.

Lemma bits_dec b lo hi : (forall j, lo <= j < hi -> Z.testbit b j = false) \/ exists j, lo <= j < hi /\ Z.testbit b j = true.
Proof.
  destruct (decide (Exists (fun j => Z.testbit b j = true) (seqZ lo (hi - lo)))) as [H|H].
  - right. apply Exists_exists in H as (j & Hj%elem_of_seqZ & Hb). exists j. split; [lia|done].
  - left. intros j Hj. apply not_true_is_false. intros Hb. apply H, Exists_exists. exists j. split; [apply elem_of_seqZ; lia|done].
Qed.

Section Release.
Context (ps : Z).

Section Chunk.
Context (s : slab_pool) (N : Z) (l1 l2 : list seg) (sh b : Z) (HP : pool_ok ps s N (l1 ++ Chunks sh b :: l2)).
#[local] Abbreviation x := (page_at (p_pages s) (total l1)).
#[local] Abbreviation a := (base ps s (total l1)).

Lemma rel_ps : 12 <= ps <= 16.
Proof using HP. exact (g_ps _ _ _ (po_geom _ _ _ _ HP)). Qed.

Lemma rel_chunk : chunk_ok ps sh b.
Proof using HP. assert (Hwf := pool_wf _ _ _ _ HP). by apply Forall_app in Hwf as [_ [Hwf _]%Forall_cons]. Qed.

Lemma rel_meta : 0 <= meta ps sh.
Proof using HP. destruct (meta_bounds ps rel_ps sh (co_shift _ _ _ rel_chunk)); lia. Qed.

(** A full page is back in its ring. *)
Lemma unfull R (c : bool) : inv ps s N (p_desc s) R (l1 ++ Chunks sh b :: l2) -> (c = true <-> full ps sh b) ->
  exists m1 R1, (forall {A} (k : unit -> SM A), ((if c then reopen_page x (sh - 3) (page_kind ps sh) else mret tt) ≫= k) s = k tt (with_desc s m1))
    /\ inv ps s N m1 R1 (l1 ++ Spent sh :: l2) /\ slb m1 x = Some (slab_code ps sh b).
Proof using HP.
  intros HI Hcf. assert (HG := po_geom _ _ _ _ HP). destruct (page_chunks ps s N R l1 l2 sh b HI) as [_ Hs]. destruct c.
  - destruct (reopen_full ps s N HG l1 l2 R sh b HI) as (m1 & R1 & E & HI1 & S1); [by apply Hcf|]. exists m1, R1. split; [exact E|]. split; [done|]. by rewrite S1.
  - exists (p_desc s), R. rewrite with_desc_id. split; [done|]. split; [|done]. apply (spend ps s N HG l1 l2 _ R sh b HI). intros Hf. by apply Hcf in Hf.
Qed.

Section End_.
Context (i : Z) (Hi : meta ps sh <= i < chunks ps sh) (Hb : Z.testbit b i = true).
#[local] Abbreviation b' := (clear_bit b i).
Context (s1 : slab_pool) (R1 : rid -> list Z) (Hsame : same_pool s s1) (Hpf : p_pfree s1 = p_pfree s) (HI1 : inv ps s N (p_desc s1) R1 (l1 ++ Spent sh :: l2)).
Context (HS1 : slb (p_desc s1) x = Some (slab_code ps sh b')) (Hw1 : sh < exact ps -> words_ok ps (p_words s1) a sh b').
Context (Hfr : forall y, p_words s1 y <> p_words s y -> sh < exact ps /\ a <= y < a + 8 * bitmap_words ps sh).

Lemma rel_frame y : p_words s1 y <> p_words s y -> a <= y < a + 2 ^ ps.
Proof using HP Hfr. intros Hy. apply Hfr in Hy as [Hlt Hy]. assert (Hfit := bitmap_fits ps rel_ps sh b rel_chunk Hlt). clear -Hy Hfit. lia. Qed.

Lemma release_far b0 : ~ bitmap_at ps (p_start s) (l1 ++ Chunks sh b0 :: l2) (a + i * 2 ^ sh).
Proof using HP Hi Hb.
  assert (Hps := rel_ps). assert (Hc := rel_chunk). assert (Hwf := pool_wf _ _ _ _ HP). rewrite Forall_app, Forall_cons in Hwf. destruct Hwf as (W1 & Wc & W2).
  assert (Hsh := co_shift _ _ _ Hc). assert (Hp : 0 < 2 ^ sh) by (apply Z.pow_pos_nonneg; lia). assert (Hcb := chunks_bytes ps Hps sh Hsh).
  assert (Hm := rel_meta). rewrite bitmap_at_app. cbn [bitmap_at bitmap_in slen]. intros [H|[H|H]].
  - apply bitmap_at_bounds in H; [|done|done]. unfold base in H. nia.
  - unfold base in H. nia.
  - apply bitmap_at_bounds in H; [|done|done]. unfold base in H. nia.
Qed.

(** Some chunk is left. *)
Lemma release_some slot : (exists j, meta ps sh <= j < chunks ps sh /\ Z.testbit b' j = true) ->
  exists s' segs', (stat_add slot used_dec;; mret FreeDone) s1 = Some (FreeDone, s') /\ took ps s N (l1 ++ Chunks sh b :: l2) (a + i * 2 ^ sh) s' segs'.
Proof using HP Hi Hb Hsame Hpf HI1 HS1 Hw1 Hfr.
  intros (j & Hj & Hbj). assert (Hps := rel_ps). assert (Hc := rel_chunk). assert (Hm := rel_meta). assert (HG := po_geom _ _ _ _ HP). assert (Hsh := co_shift _ _ _ Hc).
  assert (Hc' : chunk_ok ps sh b').
  { split; [done|apply clear_bit_range; [by apply co_range|lia]| |by exists j]. intros k Hk. rewrite clear_bit_spec, (co_meta _ _ _ Hc) by lia. lia. }
  assert (Hnf : ~ full ps sh b').
  { intros Hf. assert (Hbi : Z.testbit b' i = true) by (rewrite Hf; apply Z.ones_spec_low; lia). rewrite clear_bit_spec, Z.eqb_refl in Hbi by lia. by rewrite andb_false_r in Hbi. }
  rewrite run_stat. set (s' := s1 <| p_stats := _ |>). assert (Hsame' : same_pool s s') by (by eapply same_trans).
  assert (HI' : inv ps s N (p_desc s') R1 (l1 ++ Chunks sh b' :: l2)) by (by apply settle). exists s', (l1 ++ [Chunks sh b'] ++ l2). split; [done|].
  assert (HP' : pool_ok ps s' N (l1 ++ [Chunks sh b'] ++ l2)).
  { assert (HPs := po_sep _ _ _ _ HP). eapply (pool_step ps s N l1 [Chunks sh b] l2 s' R1); try done.
    - constructor; [done|constructor].
    - rewrite !sep_app in *. cbn in *. tauto.
    - cbn. rewrite Hpf, (po_pfree _ _ _ _ HP), !frees_app. done.
    - intros y Hy. apply rel_frame in Hy. cbn. lia. }
  split; [done|done| |apply bitmap_kept; [done|by apply (pool_wf ps s' N)|done]|by apply release_far].
  intros q d. change (Chunks sh b :: l2) with ([Chunks sh b] ++ l2). rewrite !blocks_mid. cbn [total slen live]. set (p := a + i * 2 ^ sh).
  assert (Hwf := pool_wf _ _ _ _ HP). rewrite Forall_app, Forall_cons in Hwf. destruct Hwf as (W1 & Wc & W2).
  assert (Hbd : block_in ps a (Chunks sh b) p (2 ^ sh)) by (cbn; eauto). apply block_bounds in Hbd; [|done..]. cbn [slen] in Hbd. assert (0 < 2 ^ sh) by (apply Z.pow_pos_nonneg; lia).
  assert (Hne1 : blocks ps s l1 q d -> q <> p) by (intros H'%live_bounds; [unfold base in *; nia|done..]).
  assert (Hne2 : live ps (base ps s (total l1 + (1 + 0))) l2 q d -> q <> p) by (intros H'%live_bounds; [unfold base in *; nia|done..]).
  assert (Hblk : block_in ps a (Chunks sh b') q d <-> block_in ps a (Chunks sh b) q d /\ q <> p); [|clear -Hblk Hne1 Hne2; tauto].
  cbn. split.
  - intros (-> & k & Hk & Hbk & ->). rewrite clear_bit_spec in Hbk by lia. apply andb_true_iff in Hbk as [Hbk Hki]. apply negb_true_iff, Z.eqb_neq in Hki.
    split; [eauto|]. unfold p. nia.
  - intros ((-> & k & Hk & Hbk & ->) & Hne). split; [done|]. exists k. split; [done|]. split; [|done]. rewrite clear_bit_spec, Hbk by lia. apply negb_true_iff, Z.eqb_neq.
    intros ->. by apply Hne.
Qed.

(** It was the last chunk. *)
Lemma release_last slot f : (forall j, meta ps sh <= j < chunks ps sh -> Z.testbit b' j = false) ->
  exists s' segs', (ngx_slab_free_pages x 1;; stat_add slot f;; stat_add slot used_dec;; mret FreeDone) s1 = Some (FreeDone, s')
    /\ took ps s N (l1 ++ Chunks sh b :: l2) (a + i * 2 ^ sh) s' segs'.
Proof using HP Hi Hb Hsame Hpf HI1 Hfr.
  intros Hall. assert (HG := po_geom _ _ _ _ HP). assert (HC := po_clean _ _ _ _ HP). rewrite Forall_app, Forall_cons in HC. destruct HC as (C1 & _ & C2). assert (Hm := rel_meta).
  destruct (free_pages_spec ps s1 N R1 l1 (Spent sh) l2 1) as (m' & R' & segs' & E & HI' & HJ); [by eapply geom_pool|by eapply inv_pool|done..|].
  rewrite (sp_pages _ _ Hsame) in E. erewrite run_bind; [|exact E]. rewrite !run_stat. eexists _, segs'. split; [done|].
  eapply (took_joined ps s N l1 (Chunks sh b) l2 _ R' segs' _ (2 ^ sh)); try done.
  - destruct Hsame. by split.
  - cbn. apply (inv_pool ps s1); [|done]. destruct Hsame. by split.
  - cbn. by rewrite Hpf.
  - intros q d. cbn. split.
    + intros (-> & k & Hk & Hbk & ->). destruct (decide (k = i)) as [->|Hne]; [done|]. specialize (Hall k Hk). rewrite clear_bit_spec, Hbk in Hall by lia.
      apply negb_false_iff, Z.eqb_eq in Hall. lia.
    + intros [-> ->]. eauto.
  - intros y Hy. apply rel_frame in Hy. cbn. lia.
Qed.

Lemma release_end slot f (c : bool) : (c = true <-> forall j, meta ps sh <= j < chunks ps sh -> Z.testbit b' j = false) ->
  exists s' segs', (if c then ngx_slab_free_pages x 1;; stat_add slot f;; stat_add slot used_dec;; mret FreeDone else stat_add slot used_dec;; mret FreeDone) s1 = Some (FreeDone, s')
    /\ took ps s N (l1 ++ Chunks sh b :: l2) (a + i * 2 ^ sh) s' segs'.
Proof using HP Hi Hb Hsame Hpf HI1 HS1 Hw1 Hfr.
  intros Hc. destruct c; [by apply release_last, Hc|]. apply release_some. destruct (bits_dec b' (meta ps sh) (chunks ps sh)) as [H|H]; [by apply Hc in H|done].
Qed.
End End_.
End Chunk.
End Release.
