(* ===== verification/SlabFreeChunk.v ===== *)
(** * [ngx_slab_free_locked] on pages of chunks *)

From stdpp Require Import gmap list_numbers.
From S2P Require Import Prelude Slab SlabRing SlabPages SlabRuns SlabFree SlabChunk SlabBits SlabMark SlabSmall SlabNew SlabHeap SlabAlloc SlabTake SlabRelease.

(** ** Addresses in a page *)

Lemma land_low p n : 0 <= n -> Z.land p (2 ^ n - 1) = p mod 2 ^ n.
Proof. intros Hn. rewrite <- Z.land_ones by done. by rewrite Z.ones_equiv, <- Z.sub_1_r. Qed.

Lemma land_high p n : 0 <= n -> Z.land p (Z.lnot (2 ^ n - 1)) = p - p mod 2 ^ n.
Proof.
  intros Hn. rewrite <- Z.ldiff_land. replace (2 ^ n - 1) with (Z.ones n) by (by rewrite Z.ones_equiv, <- Z.sub_1_r). rewrite Z.ldiff_ones_r by done.
  rewrite Z.shiftl_mul_pow2, Z.shiftr_div_pow2 by done. assert (0 < 2 ^ n) by (by apply Z.pow_pos_nonneg). pose proof (Z.div_mod p (2 ^ n)). lia.
Qed.

Lemma land_above w r : 0 <= r <= 64 -> 0 <= w < 2 ^ 64 -> Z.land w (Z.lnot (2 ^ r - 1)) = 0 <-> forall j, r <= j < 64 -> Z.testbit w j = false.
Proof.
  intros Hr Hw. replace (2 ^ r - 1) with (Z.ones r) by (by rewrite Z.ones_equiv, <- Z.sub_1_r). split.
  - intros E j Hj. assert (Hb : Z.testbit (Z.land w (Z.lnot (Z.ones r))) j = false) by (rewrite E; apply Z.bits_0). rewrite Z.land_spec, Z.lnot_spec, Z.ones_spec_high in Hb by lia.
    by rewrite andb_true_r in Hb.
  - intros H. apply Z.bits_inj'. intros j Hj. rewrite Z.land_spec, Z.lnot_spec, Z.bits_0 by lia. destruct (Z.lt_ge_cases j r) as [Hlt|Hge].
    + rewrite Z.ones_spec_low by lia. apply andb_false_r.
    + destruct (Z.lt_ge_cases j 64); [by rewrite H by lia|]. by rewrite (testbit_high w 64) by done.
Qed.

Lemma zero_word b k : 0 <= k -> wd b k = 0 <-> forall j, 0 <= j < 64 -> Z.testbit b (64 * k + j) = false.
Proof.
  intros Hk. split; [intros E j Hj; rewrite <- wd_bit by lia; rewrite E; apply Z.bits_0|]. intros H. symmetry. apply wd_eq; [done|done|]. intros j Hj. by rewrite H, Z.bits_0.
Qed.

Section FreeChunk.
Context (ps : Z).

Section Chunk.
Context (s : slab_pool) (N : Z) (l1 l2 : list seg) (sh b : Z) (HP : pool_ok ps s N (l1 ++ Chunks sh b :: l2)).
#[local] Abbreviation x := (page_at (p_pages s) (total l1)).
#[local] Abbreviation a := (base ps s (total l1)).
Context (off : Z) (Hoff : 0 <= off < 2 ^ ps).

(** What the code on a page of chunks does with the address [a + off]. *)
Definition chunk_result (code : SM free_res) : Prop :=
  (off mod 2 ^ sh <> 0 -> code s = Some (WrongChunk, s))
  /\ forall i, off = i * 2 ^ sh -> (Z.testbit b i = false -> code s = Some (ChunkFree, s))
      /\ (Z.testbit b i = true -> meta ps sh <= i -> exists s' segs', code s = Some (FreeDone, s') /\ took ps s N (l1 ++ Chunks sh b :: l2) (a + off) s' segs').

Lemma base_mod k : 0 <= k <= ps -> (a + off) mod 2 ^ k = off mod 2 ^ k.
Proof using HP.
  intros Hk. assert (HG := po_geom _ _ _ _ HP). destruct (g_salign _ _ _ HG) as [z Hz]. unfold base. rewrite Hz.
  replace (2 ^ ps) with (2 ^ (ps - k) * 2 ^ k) by (rewrite <- Z.pow_add_r by lia; f_equal; lia).
  replace (z * (2 ^ (ps - k) * 2 ^ k) + total l1 * (2 ^ (ps - k) * 2 ^ k) + off) with (off + ((z + total l1) * 2 ^ (ps - k)) * 2 ^ k) by lia.
  apply Z.mod_add. assert (0 < 2 ^ k) by (apply Z.pow_pos_nonneg; lia). lia.
Qed.

Lemma off_page : Z.land (a + off) (ngx_pagesize ps - 1) = off.
Proof using HP Hoff.
  assert (Hps := rel_ps ps s N l1 l2 sh b HP). unfold ngx_pagesize. rewrite land_low by lia. rewrite base_mod by lia. by apply Z.mod_small.
Qed.

Lemma off_base : Z.land (a + off) (Z.lnot (ngx_pagesize ps - 1)) = a.
Proof using HP Hoff.
  assert (Hps := rel_ps ps s N l1 l2 sh b HP). unfold ngx_pagesize. rewrite land_high by lia. rewrite base_mod, Z.mod_small by lia. lia.
Qed.

Lemma off_chunk : 3 <= sh < ps -> Z.land (a + off) (Z.shiftl 1 sh - 1) = off mod 2 ^ sh.
Proof using HP. intros Hsh. rewrite Z.shiftl_1_l, land_low by lia. apply base_mod. lia. Qed.

Lemma off_index i : 3 <= sh < ps -> off = i * 2 ^ sh -> off mod 2 ^ sh = 0 /\ Z.shiftr off sh = i /\ 0 <= i < chunks ps sh.
Proof using HP Hoff.
  intros Hsh Eoff. assert (Hps := rel_ps ps s N l1 l2 sh b HP). assert (Hcb := chunks_bytes ps Hps sh Hsh). assert (Hp : 0 < 2 ^ sh) by (apply Z.pow_pos_nonneg; lia).
  rewrite Z.shiftr_div_pow2 by lia. rewrite Eoff. rewrite Z.mod_mul, Z.div_mul by lia. split_and!; [done|done|nia|nia].
Qed.

(** ** Exact *)

Lemma free_exact_spec : sh = exact ps -> chunk_result (free_exact ps x b (a + off)).
Proof using HP Hoff.
  intros Esh. assert (Hps := rel_ps ps s N l1 l2 sh b HP). assert (Hc := rel_chunk ps s N l1 l2 sh b HP). assert (HG := po_geom _ _ _ _ HP). assert (Hsh := co_shift _ _ _ Hc).
  assert (H64 := exact_sizes ps Hps). rewrite <- Esh in H64. unfold chunk_result, free_exact. rewrite exact_shift_eq, exact_size_eq, <- Esh, off_page by done.
  rewrite (land_low (a + off) sh), base_mod by lia. split; [intros Hne; by rewrite (proj2 (Z.eqb_neq _ _) Hne)|]. intros i Eoff. destruct (off_index i Hsh Eoff) as (-> & -> & Hi).
  cbn [negb Z.eqb]. rewrite Z.shiftl_1_l, land_pow2_zero, negb_involutive by lia. split; intros Hb; rewrite Hb; [done|]. intros Hmi.
  rewrite run_gets. destruct (g_min _ _ _ HG) as [-> _]. destruct (po_inv _ _ _ _ HP) as [R HI].
  assert (Hcode : forall b, slab_code ps sh b = b) by (intros b0; unfold slab_code; by rewrite Esh, Z.ltb_irrefl, Z.eqb_refl).
  assert (Hk : page_kind ps sh = NGX_SLAB_EXACT) by (unfold page_kind; by rewrite Esh, Z.ltb_irrefl, Z.eqb_refl).
  assert (Hm0 : meta ps sh = 0) by (unfold meta; by rewrite Esh, Z.ltb_irrefl).
  destruct (unfull ps s N l1 l2 sh b HP R (b =? NGX_SLAB_BUSY) HI) as (m1 & R1 & E1 & HI1 & S1); [rewrite Z.eqb_eq; unfold full; by rewrite H64|].
  rewrite Hk in E1. rewrite E1. set (s1 := with_desc s m1). assert (Hsame : same_pool s s1) by done.
  destruct (spent_slab ps s1 N (geom_pool ps _ _ _ Hsame HG) l1 l2 R1 sh (clear_bit b i) (inv_pool ps _ _ _ _ _ _ Hsame HI1)) as (m2 & E2 & S2 & HI2).
  change (p_pages s1) with (p_pages s) in E2. unfold clear_bit in E2 at 1. rewrite E2. erewrite run_slb; [|exact S2].
  destruct (release_end ps s N l1 l2 sh b HP i ltac:(lia) Hb (with_desc s m2) R1) with (slot := sh - 3) (f := total_sub 64) (c := clear_bit b i =? 0) as (s' & segs' & E & HT);
    try done; [by apply (inv_pool ps s1)|by rewrite Hcode|lia| |].
  { rewrite Z.eqb_eq. split; [intros -> j Hj; apply Z.bits_0|]. intros H. apply (eq_bits _ _ (chunks ps sh)); [apply clear_bit_range; [by apply co_range|lia]|split; [lia|apply Z.pow_pos_nonneg; lia]|].
    intros j Hj. rewrite H, Z.bits_0 by lia. done. }
  exists s', segs'. rewrite Eoff. split; [|done]. change (with_desc s1 m2) with (with_desc s m2). destruct (clear_bit b i =? 0); exact E.
Qed.

(** ** Big *)

Lemma code_shift : 3 <= sh < ps -> ~ sh = exact ps -> Z.land (slab_code ps sh b) NGX_SLAB_SHIFT_MASK = sh.
Proof using HP.
  intros Hsh Hne. assert (Hps := rel_ps ps s N l1 l2 sh b HP). change NGX_SLAB_SHIFT_MASK with (Z.ones 4). rewrite Z.land_ones by lia.
  unfold slab_code. destruct (Z.ltb_spec sh (exact ps)); [apply Z.mod_small; change (2 ^ 4) with 16; lia|]. rewrite (proj2 (Z.eqb_neq _ _) Hne).
  apply (eq_bits _ _ 4); [by apply Z.mod_pos_bound|change (2 ^ 4) with 16; lia|]. intros i Hi. rewrite Z.mod_pow2_bits_low, Z.lor_spec, Z.shiftl_spec_low by (unfold NGX_SLAB_MAP_SHIFT; lia). done.
Qed.

Lemma big_code_clear i : exact ps < sh -> 3 <= sh < ps -> 0 <= i -> Z.land (slab_code ps sh b) (Z.lnot (2 ^ (i + 32))) = slab_code ps sh (clear_bit b i).
Proof using HP.
  intros Hlt Hsh Hi. assert (Hps := rel_ps ps s N l1 l2 sh b HP). rewrite !big_code by done. apply Z.bits_inj'. intros j Hj. rewrite Z.land_spec, !Z.lor_spec, Z.lnot_spec by done.
  rewrite !Z.shiftl_spec by done. destruct (Z.lt_ge_cases j 32) as [Hj32|Hj32].
  - rewrite !(Z.testbit_neg_r _ (j - 32)) by lia. rewrite Z.pow2_bits_false by lia. apply andb_true_r.
  - rewrite clear_bit_spec by lia. rewrite (testbit_high sh 32), !orb_false_r; [|split; [lia|change (2 ^ 32) with 4294967296; lia]|lia]. f_equal. f_equal.
    destruct (Z.eqb_spec (j - 32) i) as [<-|Hne]; [replace (j - 32 + 32) with j by lia; by apply Z.pow2_bits_true|apply Z.pow2_bits_false; lia].
Qed.

Lemma free_big_spec : exact ps < sh -> chunk_result (free_big ps x (slab_code ps sh b) (a + off)).
Proof using HP Hoff.
  intros Hlt. assert (Hps := rel_ps ps s N l1 l2 sh b HP). assert (Hc := rel_chunk ps s N l1 l2 sh b HP). assert (HG := po_geom _ _ _ _ HP). assert (Hsh := co_shift _ _ _ Hc).
  unfold chunk_result, free_big. rewrite code_shift by lia. cbv zeta. rewrite off_chunk, off_page by done.
  split; [intros Hne; by rewrite (proj2 (Z.eqb_neq _ _) Hne)|]. intros i Eoff. destruct (off_index i Hsh Eoff) as (-> & -> & Hi).
  cbn [negb Z.eqb]. unfold NGX_SLAB_MAP_SHIFT. rewrite Z.shiftl_1_l, land_pow2_zero, negb_involutive, (Z.add_comm i 32), big_code_bit by (done || lia).
  split; intros Hb; rewrite Hb; [done|]. intros Hmi. rewrite run_gets. destruct (g_min _ _ _ HG) as [-> _]. destruct (po_inv _ _ _ _ HP) as [R HI].
  assert (Hk : page_kind ps sh = NGX_SLAB_BIG) by (unfold page_kind; by rewrite (proj2 (Z.ltb_ge _ _)), (proj2 (Z.eqb_neq _ _)) by lia).
  assert (Hm0 : meta ps sh = 0) by (unfold meta; by rewrite (proj2 (Z.ltb_ge _ _)) by lia).
  destruct (seg_first ps s N HG _ R _ HI x (Chunks sh b) (starts_mem _ _ _ _) I) as (v & w & _ & _ & Hw & Hw0). erewrite run_nxt; [|exact Hw].
  destruct (unfull ps s N l1 l2 sh b HP R (w =? SNULL) HI) as (m1 & R1 & E1 & HI1 & S1).
  { rewrite Hw0, bool_decide_eq_true. unfold full. cbn. destruct (Z.eqb_spec b (Z.ones (chunks ps sh))); naive_solver. }
  rewrite Hk in E1. rewrite E1. set (s1 := with_desc s m1). assert (Hsame : same_pool s s1) by done. rewrite (Z.add_comm 32 i), big_code_clear by lia.
  destruct (spent_slab ps s1 N (geom_pool ps _ _ _ Hsame HG) l1 l2 R1 sh (slab_code ps sh (clear_bit b i)) (inv_pool ps _ _ _ _ _ _ Hsame HI1)) as (m2 & E2 & S2 & HI2).
  change (p_pages s1) with (p_pages s) in E2. rewrite E2. erewrite run_slb; [|exact S2].
  assert (Hrange : 0 <= clear_bit b i < 2 ^ chunks ps sh) by (apply clear_bit_range; [by apply co_range|lia]). rewrite big_code_map by done.
  assert (Hz : (Z.shiftl (clear_bit b i) 32 =? 0) = (clear_bit b i =? 0)).
  { apply eq_true_iff_eq. rewrite !Z.eqb_eq, Z.shiftl_mul_pow2 by lia. change (2 ^ 32) with 4294967296. lia. }
  rewrite Hz.
  destruct (release_end ps s N l1 l2 sh b HP i ltac:(lia) Hb (with_desc s m2) R1) with (slot := sh - 3) (f := total_sub (Z.shiftr (ngx_pagesize ps) sh)) (c := clear_bit b i =? 0) as (s' & segs' & E & HT);
    try done; [by apply (inv_pool ps s1)|lia| |].
  { rewrite Z.eqb_eq. split; [intros -> j Hj; apply Z.bits_0|]. intros H. apply (eq_bits _ _ (chunks ps sh)); [done|split; [lia|apply Z.pow_pos_nonneg; lia]|].
    intros j Hj. rewrite H, Z.bits_0 by lia. done. }
  exists s', segs'. rewrite Eoff. split; [|done]. change (with_desc s1 m2) with (with_desc s m2). destruct (clear_bit b i =? 0); exact E.
Qed.

(** ** Small *)

(** The test for chunks in use. *)
Lemma small_empty c0 c1 b' : sh < exact ps -> (c0 = true <-> Z.land (wd b' (bitmap_chunks ps sh / 64)) (Z.lnot (Z.shiftl 1 (bitmap_chunks ps sh mod 64) - 1)) = 0) ->
  (c1 = true <-> forall k, bitmap_chunks ps sh / 64 + 1 <= k < bitmap_words ps sh -> wd b' k = 0) ->
  (c0 && c1 = true <-> forall j, meta ps sh <= j < chunks ps sh -> Z.testbit b' j = false).
Proof using HP.
  intros Hlt H0 H1. assert (Hps := rel_ps ps s N l1 l2 sh b HP). assert (Hsh := co_shift _ _ _ (rel_chunk ps s N l1 l2 sh b HP)). destruct (small_sizes ps Hps sh Hsh Hlt) as (Ech & HW & Hn & Hn1 & _).
  unfold meta. rewrite (proj2 (Z.ltb_lt _ _) Hlt). set (n := bitmap_chunks ps sh) in *. assert (Hd := Z.div_mod n 64 ltac:(lia)). assert (Hr := Z.mod_pos_bound n 64 ltac:(lia)).
  rewrite andb_true_iff, H0, H1, Z.shiftl_1_l, land_above by (lia || apply wd_range). assert (Hq : 0 <= n / 64) by (apply Z.div_pos; lia). set (q := n / 64) in *. set (r := n mod 64) in *. split.
  - intros [A B] j Hj. assert (Hdj := Z.div_mod j 64 ltac:(lia)). assert (Hrj := Z.mod_pos_bound j 64 ltac:(lia)). set (qj := j / 64) in *. set (rj := j mod 64) in *. destruct (decide (qj = q)) as [E|Hne].
    + replace j with (64 * q + rj) by lia. rewrite <- wd_bit by lia. apply A. lia.
    + replace j with (64 * qj + rj) by lia. apply zero_word; [lia|apply B; lia|lia].
  - intros A. split; [intros j Hj; rewrite wd_bit by lia; apply A; lia|]. intros k Hk. apply zero_word; [lia|]. intros j Hj. apply A. lia.
Qed.

Lemma free_small_spec : sh < exact ps -> chunk_result (free_small ps x sh (a + off)).
Proof using HP Hoff.
  intros Hlt. assert (Hps := rel_ps ps s N l1 l2 sh b HP). assert (Hc := rel_chunk ps s N l1 l2 sh b HP). assert (HG := po_geom _ _ _ _ HP). assert (Hsh := co_shift _ _ _ Hc).
  assert (Hcode : forall b, slab_code ps sh b = sh) by (intros b0; unfold slab_code; by rewrite (proj2 (Z.ltb_lt _ _) Hlt)).
  assert (Hms := code_shift Hsh ltac:(lia)). rewrite Hcode in Hms. unfold chunk_result, free_small. rewrite Hms. cbv zeta. rewrite off_chunk, off_page, off_base by done.
  split; [intros Hne; by rewrite (proj2 (Z.eqb_neq _ _) Hne)|]. intros i Eoff. destruct (off_index i Hsh Eoff) as (-> & -> & Hi). cbn [negb Z.eqb].
  destruct (small_sizes ps Hps sh Hsh Hlt) as (Ech & HW & Hn & Hn1 & _). assert (Hbm := po_words _ _ _ _ HP). rewrite bitmaps_app in Hbm. destruct Hbm as (_ & Hw & _). specialize (Hw Hlt). fold (base ps s (total l1)) in Hw.
  assert (Hd := Z.div_mod i 64 ltac:(lia)). assert (Hr := Z.mod_pos_bound i 64 ltac:(lia)). assert (Hq : 0 <= i / 64 < bitmap_words ps sh) by (split; [apply Z.div_pos; lia|apply Z.div_lt_upper_bound; lia]).
  rewrite run_word, (Hw _ Hq), Z.shiftl_1_l, land_pow2_zero, <- bit_wd, negb_involutive by lia. split; intros Hb; rewrite Hb; [done|]. intros Hmi.
  rewrite run_gets. destruct (g_min _ _ _ HG) as [-> _]. destruct (po_inv _ _ _ _ HP) as [R HI].
  assert (Hk : page_kind ps sh = NGX_SLAB_SMALL) by (unfold page_kind; by rewrite (proj2 (Z.ltb_lt _ _) Hlt)).
  destruct (seg_first ps s N HG _ R _ HI x (Chunks sh b) (starts_mem _ _ _ _) I) as (v & w & _ & _ & Hnw & Hw0). erewrite run_nxt; [|exact Hnw].
  destruct (unfull ps s N l1 l2 sh b HP R (w =? SNULL) HI) as (m1 & R1 & E1 & HI1 & S1).
  { rewrite Hw0, bool_decide_eq_true. unfold full. cbn. destruct (Z.eqb_spec b (Z.ones (chunks ps sh))); naive_solver. }
  rewrite Hk in E1. rewrite E1. unfold set_word. rewrite run_modify. set (b' := clear_bit b i). set (s2 := _ <| p_words := _ |>). assert (Hsame : same_pool s s2) by done.
  assert (Hw2 : words_ok ps (p_words s2) a sh b').
  { assert (H := words_clear ps _ _ _ _ (i / 64) (i mod 64) Hq Hr Hw). rewrite <- Hd in H. exact H. }
  assert (Hq0 : 0 <= bitmap_chunks ps sh / 64 < bitmap_words ps sh) by (split; [apply Z.div_pos; lia|apply Z.div_lt_upper_bound; lia]). rewrite run_word, (Hw2 _ Hq0).
  destruct (rest_free_spec ps s2 a sh b' (S (Z.to_nat (bitmap_words ps sh))) (bitmap_chunks ps sh / 64 + 1) Hw2) as (c1 & Ec1 & Hc1); [lia|lia|].
  set (c0 := Z.land _ _ =? 0). assert (Hc0 : c0 = true <-> Z.land (wd b' (bitmap_chunks ps sh / 64)) (Z.lnot (Z.shiftl 1 (bitmap_chunks ps sh mod 64) - 1)) = 0) by apply Z.eqb_eq.
  destruct (release_end ps s N l1 l2 sh b HP i ltac:(lia) Hb s2 R1) with (slot := sh - 3) (f := total_sub (Z.shiftr (ngx_pagesize ps) sh - bitmap_chunks ps sh)) (c := c0 && c1) as (s' & segs' & E & HT);
    try done; [by rewrite Hcode, <- (Hcode b)| |by apply small_empty|].
  { intros y Hy. split; [done|]. cbn in Hy. destruct (Z.eqb_spec y (a + 8 * (i / 64))) as [Ey|]; [rewrite Ey; lia|done]. }
  exists s', segs'. rewrite Eoff. split; [|done]. destruct c0; cbn [negb andb] in *; [|exact E]. erewrite run_bind; [|exact Ec1]. destruct c1; exact E.
Qed.
End Chunk.
End FreeChunk.
