(* ===== verification/SlabFreeSpec.v ===== *)
(** * [ngx_slab_free_locked]

    A block in use goes; any other address is an error that changes nothing. *)

From stdpp Require Import gmap.
From S2P Require Import Prelude Slab SlabRing SlabPages SlabRuns SlabFree SlabChunk SlabBits SlabMark SlabSmall SlabNew SlabHeap SlabAlloc SlabTake SlabRelease SlabFreeChunk.

(** ** Descriptors of runs *)

Lemma start_bit n : 0 <= n < 2 ^ 48 -> Z.land n NGX_SLAB_PAGE_START = 0 /\ Z.land (Z.lor n NGX_SLAB_PAGE_START) NGX_SLAB_PAGE_START <> 0
  /\ Z.lor n NGX_SLAB_PAGE_START <> NGX_SLAB_PAGE_BUSY /\ Z.land (Z.lor n NGX_SLAB_PAGE_START) (Z.lnot NGX_SLAB_PAGE_START) = n.
Proof.
  intros Hn. change NGX_SLAB_PAGE_START with (2 ^ 63). assert (Hh : forall j, 48 <= j -> Z.testbit n j = false) by (intros j Hj; by apply (testbit_high n 48)).
  assert (E0 : Z.land n (2 ^ 63) = 0) by (apply Z.eqb_eq; rewrite land_pow2_zero, Hh by lia; done). split_and!.
  - done.
  - apply Z.eqb_neq. rewrite land_pow2_zero, Z.lor_spec, Z.pow2_bits_true, orb_true_r by lia. done.
  - intros E. assert (Hb : Z.testbit (Z.lor n (2 ^ 63)) 50 = true) by (rewrite E; change NGX_SLAB_PAGE_BUSY with (Z.ones 64); apply Z.ones_spec_low; lia).
    rewrite Z.lor_spec, Hh, Z.pow2_bits_false in Hb by lia. done.
  - apply Z.bits_inj'. intros j Hj. rewrite Z.land_spec, Z.lor_spec, Z.lnot_spec by done. destruct (decide (j = 63)) as [->|Hne].
    + rewrite Hh, Z.pow2_bits_true by lia. done.
    + rewrite Z.pow2_bits_false by lia. by rewrite orb_false_r, andb_true_r.
Qed.

Section FreeSpec.
Context (ps : Z).

Lemma blocks_seg s segs p c : blocks ps s segs p c -> exists l1 g l2, segs = l1 ++ g :: l2 /\ block_in ps (base ps s (total l1)) g p c.
Proof.
  unfold blocks, base. generalize (p_start s). induction segs as [|g l IH]; intros a; cbn; [done|]. intros [Hb|Hb].
  - exists [], g, l. split; [done|]. cbn. by replace (a + 0 * 2 ^ ps) with a by lia.
  - destruct (IH _ Hb) as (l1 & h & l2 & -> & Hh). exists (g :: l1), h, l2. split; [done|]. cbn [total]. by replace (a + (slen g + total l1) * 2 ^ ps) with (a + slen g * 2 ^ ps + total l1 * 2 ^ ps) by lia.
Qed.

Section State.
Context (s : slab_pool) (N : Z) (segs : list seg) (HP : pool_ok ps s N segs).

(** The start of the code: the descriptor of the page with the address. *)
Lemma free_entry i off v t : 0 <= i < N -> 0 <= off < 2 ^ ps -> slb (p_desc s) (page_at (p_pages s) i) = Some v -> prv (p_desc s) (page_at (p_pages s) i) = Some t ->
  ngx_slab_free_locked ps (base ps s i + off) s =
    (let page := page_at (p_pages s) i in let type := Z.land t NGX_SLAB_PAGE_MASK in
     if type =? NGX_SLAB_SMALL then free_small ps page v (base ps s i + off) else if type =? NGX_SLAB_EXACT then free_exact ps page v (base ps s i + off)
     else if type =? NGX_SLAB_BIG then free_big ps page v (base ps s i + off) else free_page ps page v (base ps s i + off)) s.
Proof using HP.
  intros Hi Hoff Hv Ht. assert (HG := po_geom _ _ _ _ HP). assert (Hps := g_ps _ _ _ HG). assert (Hp := pow_ps ps Hps). assert (He := g_end _ _ _ HG).
  unfold ngx_slab_free_locked. rewrite !run_gets. assert (Hin : (base ps s i + off <? p_start s) || (p_end s <? base ps s i + off) = false).
  { apply orb_false_iff. rewrite !Z.ltb_ge. unfold base. nia. }
  rewrite Hin, run_gets. assert (Hix : Z.shiftr (base ps s i + off - p_start s) ps = i).
  { unfold base. rewrite Z.shiftr_div_pow2 by lia. replace (p_start s + i * 2 ^ ps + off - p_start s) with (off + i * 2 ^ ps) by lia. rewrite Z.div_add, Z.div_small by lia. lia. }
  rewrite Hix. cbv zeta. erewrite run_slb; [|exact Hv]. unfold ngx_slab_page_type. rewrite run_assoc. erewrite run_prv; [|exact Ht]. by rewrite run_ret.
Qed.

(** ** Pages of chunks *)

Lemma free_chunk_page l1 l2 sh b off : segs = l1 ++ Chunks sh b :: l2 -> 0 <= off < 2 ^ ps ->
  chunk_result ps s N l1 l2 sh b off (ngx_slab_free_locked ps (base ps s (total l1) + off)).
Proof using HP.
  intros Es Hoff. pose proof HP as HP0. rewrite Es in HP0. assert (HG := po_geom _ _ _ _ HP0). destruct (po_inv _ _ _ _ HP0) as [R HI]. assert (Hps := g_ps _ _ _ HG).
  destruct (seg_first ps s N HG _ R _ HI _ (Chunks sh b) (starts_mem _ _ _ _) I) as (t & w & Ht & Htag & _). destruct (page_chunks ps s N R l1 l2 sh b HI) as [Hc Hv].
  destruct (starts_at _ _ _ _ (inv_lens ps s N _ R _ HI) (starts_mem (p_pages s) l1 (Chunks sh b) l2)) as (k1 & k2 & _ & Ek & H1 & H2). apply page_at_inj in Ek.
  rewrite (i_total _ _ _ _ _ _ HI) in H2. cbn [slen] in H2. rewrite <- Ek in *.
  assert (Hrun : exists code, ngx_slab_free_locked ps (base ps s (total l1) + off) s = code s /\ chunk_result ps s N l1 l2 sh b off code).
  { eexists. split; [apply (free_entry (total l1) off (slab_code ps sh b) t); [lia|done|exact Hv|exact Ht]|]. rewrite Htag. cbv zeta. cbn [seg_tag]. unfold page_kind, slab_code.
    destruct (Z.ltb_spec sh (exact ps)) as [Hlt|Hge]; [by apply free_small_spec|]. destruct (Z.eqb_spec sh (exact ps)) as [Heq|Hne]; [by apply free_exact_spec|].
    change (Z.lor (Z.shiftl b NGX_SLAB_MAP_SHIFT) sh) with (Z.lor (Z.shiftl b 32) sh). rewrite <- (big_code ps sh) by lia. apply free_big_spec; [done..|lia]. }
  destruct Hrun as (code & E & HR). unfold chunk_result in *. by rewrite E.
Qed.

(** ** Runs *)

Lemma free_run_page i off v t : 0 <= i < N -> 0 <= off < 2 ^ ps -> slb (p_desc s) (page_at (p_pages s) i) = Some v -> prv (p_desc s) (page_at (p_pages s) i) = Some t ->
  Z.land t NGX_SLAB_PAGE_MASK = 0 ->
  ngx_slab_free_locked ps (base ps s i + off) s =
    (if negb (off =? 0) then mret WrongChunk else if Z.land v NGX_SLAB_PAGE_START =? 0 then mret PageFree else if v =? NGX_SLAB_PAGE_BUSY then mret WrongPage
     else ngx_slab_free_pages (page_at (p_pages s) i) (Z.land v (Z.lnot NGX_SLAB_PAGE_START));; mret FreeDone) s.
Proof using HP.
  intros Hi Hoff Hv Ht Htag. rewrite (free_entry i off v t) by done. cbv zeta. rewrite Htag. cbn [Z.eqb NGX_SLAB_SMALL NGX_SLAB_EXACT NGX_SLAB_BIG]. unfold free_page.
  assert (HG := po_geom _ _ _ _ HP). assert (Hps := g_ps _ _ _ HG). replace (Z.land (base ps s i + off) (ngx_pagesize ps - 1)) with off; [done|].
  unfold ngx_pagesize. rewrite land_low by lia. destruct (g_salign _ _ _ HG) as [z Hz]. unfold base. rewrite Hz. replace (z * 2 ^ ps + i * 2 ^ ps + off) with (off + (z + i) * 2 ^ ps) by lia.
  assert (Hp := pow_ps ps Hps). rewrite Z.mod_add, Z.mod_small by lia. done.
Qed.

Lemma free_live_pages l1 n l2 : segs = l1 ++ Pages n :: l2 ->
  exists s' segs', ngx_slab_free_locked ps (base ps s (total l1)) s = Some (FreeDone, s') /\ took ps s N segs (base ps s (total l1)) s' segs'.
Proof using HP.
  intros Es. pose proof HP as HP0. rewrite Es in HP0. assert (HG := po_geom _ _ _ _ HP). destruct (po_inv _ _ _ _ HP0) as [R HI]. assert (Hps := g_ps _ _ _ HG). assert (Hp := pow_ps ps Hps).
  destruct (starts_at _ _ _ _ (inv_lens ps s N _ R _ HI) (starts_mem (p_pages s) l1 (Pages n) l2)) as (k1 & k2 & _ & Ek & H1 & H2). apply page_at_inj in Ek.
  rewrite (i_total _ _ _ _ _ _ HI) in H2. cbn [slen] in H2. rewrite <- Ek in *. assert (HN := g_size _ _ _ HG).
  assert (Hok := start_ok ps s N _ R _ HI _ (Pages n) (starts_mem _ _ _ _)). destruct Hok as (Hn & Hcell & _). apply cell_fields in Hcell as (Hv & _ & Ht). cbn [sp_slab sp_prev] in Hv, Ht.
  destruct (start_bit n) as (_ & B1 & B2 & B3); [change (2 ^ 48) with 281474976710656 in *; lia|].
  assert (E0 := free_run_page (total l1) 0 _ _ ltac:(lia) ltac:(lia) Hv Ht eq_refl). rewrite Z.add_0_r in E0. rewrite E0. clear E0.
  cbn [negb Z.eqb]. rewrite (proj2 (Z.eqb_neq _ _) B1), (proj2 (Z.eqb_neq _ _) B2), B3. assert (HC := po_clean _ _ _ _ HP0). rewrite Forall_app, Forall_cons in HC. destruct HC as (C1 & _ & C2).
  destruct (free_pages_spec ps s N R l1 (Pages n) l2 n HG HI eq_refl C1 C2) as (m' & R' & segs' & E & HI' & HJ). erewrite run_bind; [|exact E].
  eexists _, segs'. split; [done|]. rewrite Es. eapply (took_joined ps s N l1 (Pages n) l2 _ R' segs' _ (n * 2 ^ ps)); done.
Qed.

(** ** Both *)

Lemma free_live p c : blocks ps s segs p c -> exists s' segs', ngx_slab_free_locked ps p s = Some (FreeDone, s') /\ took ps s N segs p s' segs'.
Proof using HP.
  intros (l1 & g & l2 & Es & Hb)%blocks_seg. destruct g as [n|n|sh b|sh|n]; cbn in Hb; try done.
  - destruct Hb as [-> _]. by apply (free_live_pages l1 n l2).
  - destruct Hb as (_ & i & Hi & Hbi & ->). assert (Hwf := pool_wf _ _ _ _ HP). rewrite Es, Forall_app, Forall_cons in Hwf. destruct Hwf as (_ & Hc & _).
    assert (Hsh := co_shift _ _ _ Hc). assert (HG := po_geom _ _ _ _ HP). assert (Hps := g_ps _ _ _ HG). assert (Hcb := chunks_bytes ps Hps sh Hsh). destruct (meta_bounds ps Hps sh Hsh) as (Hm & _).
    assert (Hp : 0 < 2 ^ sh) by (apply Z.pow_pos_nonneg; lia). destruct (free_chunk_page l1 l2 sh b (i * 2 ^ sh) Es) as [_ HR]; [nia|].
    rewrite Es. apply (HR i); (done || lia).
Qed.

(** An address of no block. *)
Lemma free_wrong p : p_start s <= p < p_start s + N * 2 ^ ps -> (forall c, ~ blocks ps s segs p c) -> ~ bitmap_at ps (p_start s) segs p ->
  exists e, ngx_slab_free_locked ps p s = Some (e, s) /\ e <> FreeDone.
Proof using HP.
  intros Hp Hno Hbm. assert (HG := po_geom _ _ _ _ HP). assert (Hps := g_ps _ _ _ HG). assert (Hpow := pow_ps ps Hps). destruct (po_inv _ _ _ _ HP) as [R HI]. assert (HPos := inv_lens ps s N _ R segs HI).
  set (i := (p - p_start s) / 2 ^ ps). set (off := (p - p_start s) mod 2 ^ ps). assert (Hd := Z.div_mod (p - p_start s) (2 ^ ps) ltac:(lia)). fold i off in Hd.
  assert (Hoff := Z.mod_pos_bound (p - p_start s) (2 ^ ps) Hpow). fold off in Hoff. assert (Hi : 0 <= i < N) by nia. assert (Ep : p = base ps s i + off) by (unfold base; lia). rewrite Ep. rewrite Ep in Hno, Hbm.
  destruct (cell_of (p_pages s) segs i HPos) as (y & g & j & Hy & Hj & Ec); [by rewrite (i_total _ _ _ _ _ _ HI)|]. assert (Hok := start_ok ps s N _ R segs HI y g Hy).
  destruct (starts_at _ _ _ _ HPos Hy) as (l1 & l2 & Es & Ey & H1 & H2). rewrite Ey, page_at_add in Ec. apply page_at_inj in Ec. assert (HN := g_size _ _ _ HG). rewrite (i_total _ _ _ _ _ _ HI) in H2.
  assert (Hcell : page_at (p_pages s) i = page_at y j) by (by rewrite Ey, page_at_add, Ec).
  assert (HC := po_clean _ _ _ _ HP). rewrite Es, Forall_app, Forall_cons in HC. destruct HC as (_ & Hcg & _). destruct g as [n|n|sh b|sh|n]; try done.
  - assert (Hgen : exists v t, slb (p_desc s) (page_at y j) = Some v /\ prv (p_desc s) (page_at y j) = Some t /\ Z.land t NGX_SLAB_PAGE_MASK = 0 /\ 0 <= v < 2 ^ 48).
    { destruct Hok as (Hn & Hs & Hin & _). cbn [slen] in *. destruct (decide (j = 0)) as [->|Hne].
      - destruct (seg_first ps s N HG _ R _ HI y (Free n) Hy I) as (t & w & Ht & Htag & _). rewrite page_at_0. exists n, t. split_and!; try done; lia.
      - destruct (Hin j ltac:(lia)) as (I1 & _ & t & I3 & [z Hz]). exists 0, t. split_and!; try done. rewrite Hz. change NGX_SLAB_PAGE_MASK with (Z.ones 2). rewrite Z.land_ones by lia. by apply Z.mod_mul. }
    destruct Hgen as (v & t & Hv & Ht & Htag & Hvr). rewrite <- Hcell in Hv, Ht. rewrite (free_run_page i off v t) by done. destruct (start_bit v Hvr) as (-> & _).
    destruct (off =? 0); cbn [negb Z.eqb]; eexists; done.
  - cbn [slen] in *. destruct Hok as (Hn & Hc0 & Hcs). destruct (decide (j = 0)) as [->|Hne].
    + rewrite page_at_0 in Hcell. rewrite <- Hcell in Hc0. apply cell_fields in Hc0 as (Hv & _ & Ht). rewrite (free_run_page i off _ _ Hi Hoff Hv Ht eq_refl).
      destruct (Z.eqb_spec off 0) as [E0|]; cbn [negb]; [|by eexists]. exfalso. apply (Hno (n * 2 ^ ps)). rewrite Es. apply (blocks_mid ps s l1 [Pages n]). left. left. cbn. split; [|done].
      rewrite E0, Ec. unfold base. lia.
    + specialize (Hcs j ltac:(lia)). rewrite <- Hcell in Hcs. apply cell_fields in Hcs as (Hv & _ & Ht). rewrite (free_run_page i off _ _ Hi Hoff Hv Ht eq_refl).
      destruct (off =? 0); cbn [negb]; by eexists.
  - cbn [slen] in *. assert (j = 0) as -> by lia. replace i with (total l1) in * by lia. destruct (free_chunk_page l1 l2 sh b off Es Hoff) as [HW HR]. destruct (decide (off mod 2 ^ sh = 0)) as [E0|Hne].
    + destruct Hok as (Hc & _). assert (Hsh := co_shift _ _ _ Hc). assert (Hps2 : 0 < 2 ^ sh) by (apply Z.pow_pos_nonneg; lia). assert (Eoff : off = (off / 2 ^ sh) * 2 ^ sh) by (rewrite (Z.div_mod off (2 ^ sh)) at 1 by lia; lia).
      assert (Hq : 0 <= off / 2 ^ sh < chunks ps sh). { assert (Hcb := chunks_bytes ps Hps sh Hsh). split; [apply Z.div_pos; lia|apply Z.div_lt_upper_bound; lia]. }
      destruct (HR _ Eoff) as [HF _]. destruct (Z.testbit b (off / 2 ^ sh)) eqn:Eb; [|eexists; split; [by apply HF|done]]. exfalso. destruct (Z.lt_ge_cases (off / 2 ^ sh) (meta ps sh)) as [Hlt|Hge].
      * apply Hbm. rewrite Es, bitmap_at_app. right. left. cbn. unfold base. nia.
      * apply (Hno (2 ^ sh)). rewrite Es. apply (blocks_mid ps s l1 [Chunks sh b]). left. left. cbn. split; [done|]. exists (off / 2 ^ sh). split_and!; (done || lia || congruence).
    + eexists. split; [by apply HW|done].
Qed.
End State.
End FreeSpec.
