(* ===== verification/SlabInit.v ===== *)
(** * A new pool

    [ngx_slab_init] gives one free run of all pages. *)

From stdpp Require Import gmap.
From S2P Require Import Prelude Slab SlabRing SlabPages SlabRuns SlabFree SlabChunk SlabBits SlabMark SlabSmall SlabNew SlabHeap SlabAlloc SlabTake SlabRelease SlabFreeChunk SlabFreeSpec.

Lemma lookup_cells (f : Z -> slab_page) l x : list_to_map (M := mem) ((fun a => (a, f a)) <$> l) !! x = if decide (x ∈ l) then Some (f x) else None.
Proof.
  induction l as [|a l IH]; cbn; [by rewrite lookup_empty|]. destruct (decide (x = a)) as [->|Hne].
  - rewrite lookup_insert_eq, decide_True by (by left). done.
  - rewrite lookup_insert_ne, IH by done. destruct (decide (x ∈ l)) as [H|H]; [rewrite decide_True by (by right); done|]. rewrite decide_False; [done|]. intros [?|?]%elem_of_cons; done.
Qed.

Lemma align_facts ps p : 0 <= ps -> (2 ^ ps | ngx_align_ptr p (ngx_pagesize ps)) /\ p <= ngx_align_ptr p (ngx_pagesize ps) < p + 2 ^ ps.
Proof.
  intros Hps. assert (Hp : 0 < 2 ^ ps) by (by apply Z.pow_pos_nonneg). unfold ngx_align_ptr, ngx_pagesize. rewrite land_high by done. set (v := p + (2 ^ ps - 1)).
  assert (Hd := Z.div_mod v (2 ^ ps) ltac:(lia)). assert (Hm := Z.mod_pos_bound v (2 ^ ps) Hp). split; [exists (v / 2 ^ ps); lia|]. unfold v in *. lia.
Qed.

(** A zone that [ngx_init_zone_pool] may pass: pages of 4 to 64 kilobytes, three
    of them at least. *)
Record zone_ok (ps addr end_ : Z) : Prop := {
  z_ps : 12 <= ps <= 16;
  z_addr : 0 < addr;
  z_align : (4 | addr);
  z_size : addr + 3 * 2 ^ ps <= end_;
  z_end : end_ < 2 ^ 60
}.

Section Init.
Context (ps addr end_ : Z) (words : Z -> Z) (HZ : zone_ok ps addr end_).

#[local] Abbreviation slots := (addr + SIZEOF_POOL).
#[local] Abbreviation n := (ps - 3).
#[local] Abbreviation first := (slots + n * SIZEOF_PAGE + n * SIZEOF_STAT).
#[local] Abbreviation pages := ((end_ - slots - n * (SIZEOF_PAGE + SIZEOF_STAT)) / (ngx_pagesize ps + SIZEOF_PAGE)).
#[local] Abbreviation start := (ngx_align_ptr (first + pages * SIZEOF_PAGE) (ngx_pagesize ps)).
#[local] Abbreviation count := (let m := i64 (pages - u64 (end_ - start) / ngx_pagesize ps) in if 0 <? m then pages - m else pages).
#[local] Abbreviation s := (ngx_slab_init ps addr end_ 3 words).

Lemma page_big : 4096 <= 2 ^ ps <= 65536.
Proof using HZ. assert (H := z_ps _ _ _ HZ). split; [apply (Z.pow_le_mono_r 2 12)|apply (Z.pow_le_mono_r 2 ps 16)]; lia. Qed.

Lemma pages_facts : 2 <= pages /\ pages * (2 ^ ps + 24) <= end_ - first < (pages + 1) * (2 ^ ps + 24).
Proof using HZ.
  assert (H1 := page_big). assert (H2 := z_ps _ _ _ HZ). assert (H3 := z_size _ _ _ HZ). unfold ngx_pagesize, SIZEOF_PAGE, SIZEOF_STAT, SIZEOF_POOL.
  set (sz := end_ - (addr + 200) - (ps - 3) * (24 + 32)). assert (Hd := Z.div_mod sz (2 ^ ps + 24) ltac:(lia)). assert (Hm := Z.mod_pos_bound sz (2 ^ ps + 24) ltac:(lia)).
  set (q := sz / (2 ^ ps + 24)) in *. assert (2 <= q) by (apply Z.div_le_lower_bound; lia). nia.
Qed.

Lemma start_facts : (2 ^ ps | start) /\ first + pages * 24 <= start < first + pages * 24 + 2 ^ ps.
Proof using HZ. apply align_facts. assert (H := z_ps _ _ _ HZ). lia. Qed.

(** As many pages as fit. *)
Lemma count_facts : 1 <= count < 2 ^ 48 /\ pages - 1 <= count <= pages /\ start + count * 2 ^ ps <= end_.
Proof using HZ.
  assert (H1 := page_big). assert (H2 := z_ps _ _ _ HZ). destruct pages_facts as (H3 & H4). destruct start_facts as (_ & H5). assert (H6 := z_end _ _ _ HZ). assert (H7 := z_addr _ _ _ HZ).
  change (ngx_pagesize ps) with (2 ^ ps) in *. set (q := (_ - _ - _) / (2 ^ ps + SIZEOF_PAGE)) in *. set (st := ngx_align_ptr _ _) in *. change (2 ^ 60) with 1152921504606846976 in H6.
  assert (Hf : addr < first) by (unfold SIZEOF_POOL, SIZEOF_PAGE, SIZEOF_STAT; lia). set (f := first) in *.
  assert (Hse : (q - 1) * 2 ^ ps < end_ - st) by nia. assert (Hs0 : 0 <= end_ - st < 2 ^ 64) by (change (2 ^ 64) with 18446744073709551616; nia). rewrite u64_small by done.
  assert (Hd := Z.div_mod (end_ - st) (2 ^ ps) ltac:(lia)). assert (Hm := Z.mod_pos_bound (end_ - st) (2 ^ ps) ltac:(lia)). set (r := (end_ - st) / 2 ^ ps) in *.
  assert (Hr : q - 1 <= r) by nia. assert (Hq : q < 2 ^ 48) by (change (2 ^ 48) with 281474976710656; nia). change (2 ^ 48) with 281474976710656 in *.
  assert (Hrr : r < 2 ^ 62) by (change (2 ^ 62) with 4611686018427387904; nia). change (2 ^ 62) with 4611686018427387904 in Hrr.
  cbv zeta. rewrite i64_small by (change (2 ^ 63) with 9223372036854775808; lia). destruct (Z.ltb_spec 0 (q - r)) as [Hlt|Hge]; [assert (r = q - 1) by lia|]; nia.
Qed.

Lemma init_geom : geom ps s count.
Proof using HZ.
  destruct count_facts as (H1 & H2 & H3). destruct start_facts as (H4 & H5). destruct pages_facts as (H6 & _). assert (H7 := z_ps _ _ _ HZ). assert (H8 := z_addr _ _ _ HZ). assert (H9 := z_end _ _ _ HZ).
  destruct (z_align _ _ _ HZ) as [z Hz]. split; try done.
  - exact (z_align _ _ _ HZ).
  - exists (z + 50 + (ps - 3) * 14). change (first = (z + 50 + (ps - 3) * 14) * 4). unfold SIZEOF_POOL, SIZEOF_PAGE, SIZEOF_STAT. lia.
  - change (slots + SIZEOF_PAGE * (ps - 3) <= first). unfold SIZEOF_POOL, SIZEOF_PAGE, SIZEOF_STAT. lia.
  - assert (addr < first) by (unfold SIZEOF_POOL, SIZEOF_PAGE, SIZEOF_STAT; lia). eapply Z.lt_le_trans; [|apply H5]. nia.
  - split; [exact H3|]. eapply Z.lt_trans; [exact H9|]. by apply Z.pow_lt_mono_r.
Qed.

(** ** Descriptors *)

#[local] Abbreviation m := (p_desc s).
#[local] Abbreviation free := (addr + FREE_OFFSET).

Lemma init_first : m !! first = Some (mk_sp count free free).
Proof. cbn [p_desc ngx_slab_init]. apply lookup_insert_eq. Qed.

Lemma init_free : m !! free = Some (mk_sp 0 first 0).
Proof using HZ.
  assert (H := z_ps _ _ _ HZ). cbn [p_desc ngx_slab_init]. rewrite lookup_insert_ne; [apply lookup_insert_eq|]. unfold FREE_OFFSET, SIZEOF_POOL, SIZEOF_PAGE, SIZEOF_STAT. lia.
Qed.

Lemma init_cell i : 1 <= i < pages -> m !! page_at first i = Some zero_page.
Proof using HZ.
  intros Hi. assert (H := z_ps _ _ _ HZ). cbn [p_desc ngx_slab_init]. rewrite !lookup_insert_ne by (unfold page_at, FREE_OFFSET, SIZEOF_POOL, SIZEOF_PAGE, SIZEOF_STAT; lia).
  apply lookup_union_Some_l. rewrite (lookup_cells (fun _ => zero_page)), decide_True; [done|]. apply elem_of_descs. exists i. split; [lia|done].
Qed.

Lemma init_slot k : 3 <= k < ps -> m !! page_at slots (k - 3) = Some (mk_sp 0 (page_at slots (k - 3)) 0).
Proof using HZ.
  intros Hk. cbn [p_desc ngx_slab_init]. rewrite !lookup_insert_ne by (unfold page_at, FREE_OFFSET, SIZEOF_POOL, SIZEOF_PAGE, SIZEOF_STAT; lia).
  rewrite lookup_union_r.
  - rewrite (lookup_cells (fun a => mk_sp 0 a 0)), decide_True; [done|]. apply elem_of_descs. exists (k - 3). split; [lia|done].
  - rewrite (lookup_cells (fun _ => zero_page)), decide_False; [done|]. intros (i & Hi & E)%elem_of_descs. unfold page_at, SIZEOF_POOL, SIZEOF_PAGE, SIZEOF_STAT in E. lia.
Qed.

Lemma init_inv : inv ps s count m (fun r => match r with RFree => [first] | RSlot _ => [] end) [Free count].
Proof using HZ.
  assert (HG := init_geom). destruct count_facts as (Hc1 & Hc2 & _). destruct (proj1 (cell_fields _ _ _) init_first) as (S1 & N1 & P1). destruct (proj1 (cell_fields _ _ _) init_free) as (_ & N2 & _).
  cbn [sp_slab sp_next sp_prev] in *. split.
  - intros r Hr. assert (Hal := rhead_align ps s count HG r Hr). assert (Hb := rhead_bounds ps s count HG r Hr). destruct r as [|k].
    + cbn [rhead rtag]. split.
      * apply NoDup_cons. split; [|apply NoDup_singleton]. intros E%list_elem_of_singleton. change (p_pages s) with first in Hb. cbn [rhead] in Hb. lia.
      * cbn [dlinked]. split; [exact N2|]. split; [by rewrite Z.lor_0_r|exact N1].
      * intros x [->| ->%list_elem_of_singleton]%elem_of_cons; [done|]. apply (g_palign _ _ _ HG).
    + destruct (proj1 (cell_fields _ _ _) (init_slot k Hr)) as (_ & N3 & _). split; [apply NoDup_singleton|exact N3|]. by intros x ->%list_elem_of_singleton.
  - intros [|k] Hr; cbn [starts]; rewrite members_cons; [by rewrite decide_True|by rewrite decide_False].
  - constructor; [|constructor]. cbn [fst snd seg_ok]. split_and!; [lia|exact S1| |lia]. intros i Hi.
    destruct (proj1 (cell_fields _ _ _) (init_cell i ltac:(lia))) as (A & B & C). split; [exact A|]. split; [exact B|]. exists 0. split; [exact C|]. by exists 0.
  - cbn [total slen]. lia.
Qed.

Lemma init_pool : pool_ok ps s count [Free count].
Proof using HZ.
  split; [apply init_geom|eexists; apply init_inv|by constructor|done| |done]. cbn [frees]. symmetry. apply Z.add_0_r.
Qed.
End Init.
