(* ===== verification/SlabSafe.v ===== *)
(** * What the allocator of shared memory promises

    A heap is a map from the addresses of blocks to the sizes asked for.  The
    calls of the users of a zone, with their writes to their own blocks, refine
    the steps of such a heap. *)

From stdpp Require Import gmap.
From S2P Require Import Prelude Slab SlabRing SlabPages SlabRuns SlabFree SlabChunk SlabBits SlabMark SlabSmall SlabNew SlabHeap SlabAlloc SlabTake SlabRelease SlabFreeChunk SlabFreeSpec SlabInit.

(** ** Calls *)

Inductive slab_op : Set :=
| SAlloc (size : Z)
| SCalloc (size : Z)
| SFree (p : Z)
| SWrite (a v : Z).

Inductive slab_res : Set := ResPtr (p : Z) | ResFree (e : free_res) | ResUnit.

Definition run_slab_op (ps : Z) (op : slab_op) : SM slab_res :=
  match op with
  | SAlloc size => p ← ngx_slab_alloc_locked ps size; mret (ResPtr p)
  | SCalloc size => p ← ngx_slab_calloc_locked ps size; mret (ResPtr p)
  | SFree p => e ← ngx_slab_free_locked ps p; mret (ResFree e)
  | SWrite a v => set_word a v;; mret ResUnit
  end.

Abbreviation heap := (gmap Z Z).

Definition next_heap (op : slab_op) (r : slab_res) (h : heap) : heap :=
  match op, r with
  | (SAlloc size | SCalloc size), ResPtr p => if p =? 0 then h else <[p := size]> h
  | SFree p, ResFree FreeDone => delete p h
  | _, _ => h
  end.

(** A word inside a block. *)
Definition in_heap (h : heap) (a : Z) : Prop := exists q n, h !! q = Some n /\ q <= a /\ a + 8 <= q + n.

(** Users release blocks they hold, and write aligned words of them. *)
Definition allowed (h : heap) (op : slab_op) : Prop :=
  match op with
  | SAlloc size | SCalloc size => 0 <= size
  | SFree p => is_Some (h !! p)
  | SWrite a v => in_heap h a /\ (8 | a) /\ 0 <= v < 2 ^ 64
  end.

(** ** A heap between two addresses *)

Record room (h : heap) (lo hi p size : Z) : Prop := {
  rm_pos : p <> 0;
  rm_align : (8 | p);
  rm_in : lo <= p /\ p + size <= hi;
  rm_new : h !! p = None;
  rm_apart : forall q n, h !! q = Some n -> q + n <= p \/ p + size <= q
}.

Definition kept (h : heap) (w w' : Z -> Z) : Prop := forall q n a, h !! q = Some n -> q <= a < q + n -> w' a = w a.

Inductive heap_step (lo hi : Z) (h : heap) (w : Z -> Z) : slab_op -> slab_res -> heap -> (Z -> Z) -> Prop :=
| HAlloc size p w' : room h lo hi p size -> kept h w w' -> heap_step lo hi h w (SAlloc size) (ResPtr p) (<[p := size]> h) w'
| HCalloc size p w' : room h lo hi p size -> kept h w w' -> (forall a, p <= a -> a + 8 <= p + size -> w' a = 0) ->
    heap_step lo hi h w (SCalloc size) (ResPtr p) (<[p := size]> h) w'
| HFail op w' : (exists size, op = SAlloc size \/ op = SCalloc size) -> kept h w w' -> heap_step lo hi h w op (ResPtr 0) h w'
| HFree p w' : is_Some (h !! p) -> kept (delete p h) w w' -> heap_step lo hi h w (SFree p) (ResFree FreeDone) (delete p h) w'
| HWrite a v : in_heap h a -> heap_step lo hi h w (SWrite a v) ResUnit h (put_word a v w).

(** ** Runs *)

Inductive reach (ps addr end_ : Z) (words : Z -> Z) : slab_pool -> heap -> Prop :=
| reach_init : reach ps addr end_ words (ngx_slab_init ps addr end_ 3 words) ∅
| reach_step s h op r s' : reach ps addr end_ words s h -> allowed h op -> run_slab_op ps op s = Some (r, s') -> reach ps addr end_ words s' (next_heap op r h).

(** ** Words that users write *)

Section Words.
Context (ps : Z).

Lemma bitmaps_forall w a l : bitmaps ps w a l <-> forall l1 sh b l2, l = l1 ++ Chunks sh b :: l2 -> sh < exact ps -> words_ok ps w (a + total l1 * 2 ^ ps) sh b.
Proof.
  split.
  - intros H l1 sh b l2 ->. rewrite bitmaps_app in H. cbn in H. tauto.
  - revert a; induction l as [|g l IH]; intros a H; cbn; [done|]. split.
    + destruct g as [n|n|sh b|sh|n]; try done. intros Hlt. specialize (H [] sh b l eq_refl Hlt). cbn in H. by rewrite Z.add_0_r in H.
    + apply IH. intros l1 sh b l2 -> Hlt. specialize (H (g :: l1) sh b l2 eq_refl Hlt). cbn [total] in H. by replace (a + slen g * 2 ^ ps + total l1 * 2 ^ ps) with (a + (slen g + total l1) * 2 ^ ps) by lia.
Qed.

Context (Hps : 12 <= ps <= 16).

Lemma bitmap_off_blocks s l1 sh b l2 y q c : Forall (wf ps) (l1 ++ Chunks sh b :: l2) -> sh < exact ps -> base ps s (total l1) <= y < base ps s (total l1) + 8 * bitmap_words ps sh ->
  blocks ps s (l1 ++ Chunks sh b :: l2) q c -> ~ (q <= y < q + c).
Proof using Hps.
  intros Hwf Hlt Hy Hb. eapply (bitmap_kept ps s (with_words s (put_word y (p_words s y + 1) (p_words s))) l1 sh b l2 Hps Hwf); [|cbn; rewrite put_word_eq; lia|done].
  intros z Hz. split; [done|]. cbn in Hz. destruct (decide (z = y)) as [->|Hne]; [done|]. by rewrite put_word_ne in Hz.
Qed.

Lemma pool_words s N segs w' : pool_ok ps s N segs -> (forall y, w' y <> p_words s y -> exists q c, blocks ps s segs q c /\ q <= y < q + c) ->
  pool_ok ps (with_words s w') N segs.
Proof using Hps.
  intros HP Hw. assert (Hwf := pool_wf _ _ _ _ HP). destruct HP as [H1 [R H2] H3 H4 H5 H6]. split; [by apply (geom_pool ps s)|exists R; by apply (inv_pool ps s)|done|done|done|].
  cbn. apply bitmaps_forall. intros l1 sh b l2 Es Hlt n Hn. assert (E := proj1 (bitmaps_forall _ _ _) H6 l1 sh b l2 Es Hlt n Hn). rewrite <- E.
  destruct (decide (w' (p_start s + total l1 * 2 ^ ps + 8 * n) = p_words s (p_start s + total l1 * 2 ^ ps + 8 * n))) as [|Hne]; [done|]. exfalso.
  destruct (Hw _ Hne) as (q & c & Hb & Hq). rewrite Es in Hwf, Hb. eapply (bitmap_off_blocks s l1 sh b l2 _ q c Hwf Hlt); [|exact Hb|exact Hq]. unfold base. lia.
Qed.
End Words.

(** ** Simulation *)

Section Sim.
Context (ps : Z) (s0 : slab_pool) (N : Z).

(** The blocks of the pool are those of the heap, with less than a page to
    spare. *)
Record sim (s : slab_pool) (h : heap) (segs : list seg) : Prop := {
  sm_ok : pool_ok ps s N segs;
  sm_same : same_pool s0 s;
  sm_blocks : forall q c, blocks ps s segs q c -> exists n, h !! q = Some n /\ 0 <= n <= c /\ c < n + 2 ^ ps;
  sm_heap : forall q n, h !! q = Some n -> exists c, blocks ps s segs q c
}.

Lemma sim_ps s h segs : sim s h segs -> 12 <= ps <= 16.
Proof. intros HS. exact (g_ps _ _ _ (po_geom _ _ _ _ (sm_ok _ _ _ HS))). Qed.

Lemma blocks_same s s' segs q c : same_pool s s' -> blocks ps s' segs q c <-> blocks ps s segs q c.
Proof. intros Hs. unfold blocks. by rewrite (sp_start _ _ Hs). Qed.

Lemma sim_cap s h segs q n : sim s h segs -> h !! q = Some n -> exists c, blocks ps s segs q c /\ 0 <= n <= c.
Proof.
  intros HS Hq. destruct (sm_heap _ _ _ HS q n Hq) as (c & Hb). destruct (sm_blocks _ _ _ HS q c Hb) as (n' & Hq' & Hn & _). exists c. split; [done|]. by simplify_eq.
Qed.

Lemma kept_words s s' h segs : (forall q n, h !! q = Some n -> exists c, blocks ps s segs q c /\ n <= c) -> words_kept ps s s' segs -> kept h (p_words s) (p_words s').
Proof.
  intros Hh Hk q n a Hq Ha. destruct (Hh q n Hq) as (c & Hb & Hc). destruct (decide (p_words s' a = p_words s a)) as [|Hne]; [done|]. exfalso. apply (Hk a Hne q c Hb). lia.
Qed.

Lemma sim_gave s h segs p c s' segs' size : sim s h segs -> gave ps s N segs p c s' segs' -> 0 <= size -> size <= c < size + 2 ^ ps ->
  sim s' (<[p := size]> h) segs' /\ room h (p_start s0) (p_end s0) p size /\ kept h (p_words s) (p_words s').
Proof.
  intros HS HV Hsz Hcap. assert (Hps := sim_ps _ _ _ HS). assert (HP' := gv_ok _ _ _ _ _ _ _ _ HV). assert (Hsame := gv_same _ _ _ _ _ _ _ _ HV). assert (Hss := sm_same _ _ _ HS).
  assert (HG := po_geom _ _ _ _ (sm_ok _ _ _ HS)). assert (Hwf := pool_wf _ _ _ _ HP'). assert (Hnew : blocks ps s segs' p c) by (apply (gv_blocks _ _ _ _ _ _ _ _ HV); by right).
  assert (Hold : forall q n, h !! q = Some n -> exists d, blocks ps s segs' q d /\ n <= d /\ (q + d <= p \/ p + c <= q)).
  { intros q n Hq. destruct (sim_cap _ _ _ _ _ HS Hq) as (d & Hd & Hn). assert (Hd' : blocks ps s segs' q d) by (apply (gv_blocks _ _ _ _ _ _ _ _ HV); by left). exists d. split; [done|]. split; [lia|].
    destruct (live_disjoint ps Hps _ _ _ _ _ _ Hwf Hd' Hnew) as [[-> ->]|]; [|done]. by destruct (gv_new _ _ _ _ _ _ _ _ HV). }
  assert (Hb := live_bounds ps Hps _ _ _ _ Hwf Hnew). assert (Hnone : h !! p = None).
  { destruct (h !! p) as [n|] eqn:E; [|done]. exfalso. destruct (Hold p n E) as (d & Hd & _ & Hap). apply live_bounds in Hd; [|done|done]. lia. }
  split_and!; [split|split|].
  - done.
  - by eapply same_trans.
  - intros q d Hq. rewrite (blocks_same s) in Hq by done. destruct (proj1 (gv_blocks _ _ _ _ _ _ _ _ HV q d) Hq) as [Hq'|[-> ->]].
    + destruct (sm_blocks _ _ _ HS q d Hq') as (n & Hn & Hd). exists n. split; [|done]. rewrite lookup_insert_ne; [done|]. intros ->. by rewrite Hnone in Hn.
    + exists size. rewrite lookup_insert_eq. split; [done|lia].
  - intros q n Hq. setoid_rewrite (blocks_same s s' segs' _ _ Hsame). destruct (decide (q = p)) as [->|Hne]; [by exists c|].
    rewrite lookup_insert_ne in Hq by done. destruct (Hold q n Hq) as (d & Hd & _). by exists d.
  - by eapply gave_pos.
  - apply (live_align ps Hps _ _ _ _ Hwf) in Hnew; [done|]. destruct (g_salign _ _ _ HG) as [z Hz]. exists (z * 2 ^ (ps - 3)). rewrite Hz.
    replace (2 ^ ps) with (2 ^ (ps - 3) * 2 ^ 3) by (rewrite <- Z.pow_add_r by lia; f_equal; lia). change (2 ^ 3) with 8. lia.
  - assert (He := g_end _ _ _ HG). assert (Ht := pool_total _ _ _ _ HP'). rewrite Ht in Hb. rewrite <- (sp_start _ _ Hss), <- (sp_end _ _ Hss). lia.
  - done.
  - intros q n Hq. destruct (Hold q n Hq) as (d & _ & Hn & Hap). lia.
  - eapply kept_words; [|apply (gv_words _ _ _ _ _ _ _ _ HV)]. intros q n Hq. destruct (Hold q n Hq) as (d & Hd & Hn & _). by exists d.
Qed.

Lemma sim_took s h segs p s' segs' : sim s h segs -> took ps s N segs p s' segs' -> sim s' (delete p h) segs' /\ kept (delete p h) (p_words s) (p_words s').
Proof.
  intros HS HT. assert (Hsame := tk_same _ _ _ _ _ _ _ HT).
  assert (Hold : forall q n, delete p h !! q = Some n -> exists d, blocks ps s segs' q d /\ n <= d).
  { intros q n [Hne Hq]%lookup_delete_Some. destruct (sim_cap _ _ _ _ _ HS Hq) as (d & Hd & Hn). exists d. split; [|lia]. by apply (tk_blocks _ _ _ _ _ _ _ HT). }
  split; [split|].
  - apply (tk_ok _ _ _ _ _ _ _ HT).
  - eapply same_trans; [apply (sm_same _ _ _ HS)|done].
  - intros q c Hq. rewrite (blocks_same s) in Hq by done. destruct (proj1 (tk_blocks _ _ _ _ _ _ _ HT q c) Hq) as [Hq' Hne].
    destruct (sm_blocks _ _ _ HS q c Hq') as (n & Hn & Hc). exists n. by rewrite lookup_delete_ne.
  - intros q n Hq. setoid_rewrite (blocks_same s s' segs' _ _ Hsame). destruct (Hold q n Hq) as (d & Hd & _). by exists d.
  - eapply kept_words; [exact Hold|apply (tk_words _ _ _ _ _ _ _ HT)].
Qed.

Lemma sim_failed s h segs k p s' : sim s h segs -> failed ps s N segs k p s' -> p = 0 /\ sim s' h segs /\ p_words s' = p_words s.
Proof.
  intros HS (-> & H1 & H2 & H3 & _). split; [done|]. split; [|done]. split; [done|eapply same_trans; [apply (sm_same _ _ _ HS)|done]|..].
  - intros q c Hq. rewrite (blocks_same s) in Hq by done. by apply (sm_blocks _ _ _ HS).
  - intros q n Hq. setoid_rewrite (blocks_same s s' segs _ _ H2). by eapply (sm_heap _ _ _ HS).
Qed.

(** Words in blocks may change. *)
Lemma sim_words s h segs w' : sim s h segs -> (forall y, w' y <> p_words s y -> exists q n, h !! q = Some n /\ q <= y < q + n) -> sim (with_words s w') h segs.
Proof.
  intros HS Hw. split; [|by eapply same_trans; [apply (sm_same _ _ _ HS)|]|exact (sm_blocks _ _ _ HS)|exact (sm_heap _ _ _ HS)].
  apply pool_words; [by eapply sim_ps|apply (sm_ok _ _ _ HS)|]. intros y Hy. destruct (Hw y Hy) as (q & n & Hq & Hyq). destruct (sim_cap _ _ _ _ _ HS Hq) as (c & Hc & Hn). exists q, c. split; [done|lia].
Qed.
End Sim.

(** ** One call *)

Section Ops.
Context (ps : Z) (s0 : slab_pool) (N : Z).

Lemma memzero_out p size w a : ~ (p <= a < p + size) -> memzero p size w a = w a.
Proof. intros H. unfold memzero. rewrite !(proj2 (andb_false_iff _ _)); [done|lia|lia]. Qed.

Lemma memzero_in p size w a : p <= a -> a + 8 <= p + size -> memzero p size w a = 0.
Proof. intros H1 H2. unfold memzero. by rewrite (proj2 (andb_true_iff _ _)) by lia. Qed.

Lemma sim_alloc s h segs size : sim ps s0 N s h segs -> 0 <= size ->
  exists p s', ngx_slab_alloc_locked ps size s = Some (p, s')
    /\ ((p = 0 /\ sim ps s0 N s' h segs /\ p_words s' = p_words s)
        \/ exists segs', sim ps s0 N s' (<[p := size]> h) segs' /\ room h (p_start s0) (p_end s0) p size /\ kept h (p_words s) (p_words s')).
Proof.
  intros HS Hsz. destruct (alloc_spec ps s N segs size (sm_ok _ _ _ _ _ _ HS) Hsz) as (p & s' & E & [HF|(c & segs' & Hcap & _ & HV & _)]); exists p, s'; (split; [done|]).
  - left. by eapply sim_failed.
  - right. exists segs'. by eapply sim_gave.
Qed.

Lemma sim_calloc s h segs size : sim ps s0 N s h segs -> 0 <= size ->
  exists p s', ngx_slab_calloc_locked ps size s = Some (p, s')
    /\ ((p = 0 /\ sim ps s0 N s' h segs /\ p_words s' = p_words s)
        \/ exists segs', sim ps s0 N s' (<[p := size]> h) segs' /\ room h (p_start s0) (p_end s0) p size /\ kept h (p_words s) (p_words s')
            /\ forall a, p <= a -> a + 8 <= p + size -> p_words s' a = 0).
Proof.
  intros HS Hsz. destruct (sim_alloc s h segs size HS Hsz) as (p & s' & E & Hres). unfold ngx_slab_calloc_locked. erewrite run_bind; [|exact E].
  destruct Hres as [(-> & H1 & H2)|(segs' & H1 & H2 & H3)].
  - cbn [Z.eqb negb]. exists 0, s'. split; [done|]. by left.
  - rewrite (proj2 (Z.eqb_neq _ _) (rm_pos _ _ _ _ _ H2)). cbn [negb]. rewrite run_modify. exists p, (with_words s' (memzero p size (p_words s'))). split; [done|]. right. exists segs'. split_and!; [|done| |].
    + apply sim_words; [done|]. intros y Hy. exists p, size. rewrite lookup_insert_eq. split; [done|]. destruct (decide (p <= y < p + size)) as [|Hout]; [done|]. by rewrite memzero_out in Hy.
    + intros q n a Hq Ha. cbn. rewrite memzero_out; [by eapply H3|]. destruct (rm_apart _ _ _ _ _ H2 q n Hq); lia.
    + intros a Ha1 Ha2. by apply memzero_in.
Qed.

Lemma sim_free s h segs p : sim ps s0 N s h segs -> is_Some (h !! p) ->
  exists s' segs', ngx_slab_free_locked ps p s = Some (FreeDone, s') /\ sim ps s0 N s' (delete p h) segs' /\ kept (delete p h) (p_words s) (p_words s')
    /\ ~ bitmap_at ps (p_start s') segs' p.
Proof.
  intros HS [n Hn]. destruct (sm_heap _ _ _ _ _ _ HS p n Hn) as (c & Hb). destruct (free_live ps s N segs (sm_ok _ _ _ _ _ _ HS) p c Hb) as (s' & segs' & E & HT).
  exists s', segs'. split; [done|]. destruct (sim_took _ _ _ _ _ _ _ _ _ HS HT) as [H1 H2]. split; [done|]. split; [done|]. rewrite (sp_start _ _ (tk_same _ _ _ _ _ _ _ HT)). apply (tk_bitmap _ _ _ _ _ _ _ HT).
Qed.

Lemma sim_op s h segs op : sim ps s0 N s h segs -> allowed h op ->
  exists r s' segs', run_slab_op ps op s = Some (r, s') /\ sim ps s0 N s' (next_heap op r h) segs'
    /\ heap_step (p_start s0) (p_end s0) h (p_words s) op r (next_heap op r h) (p_words s').
Proof.
  intros HS Hal. destruct op as [size|size|p|a v]; cbn [run_slab_op allowed] in *.
  - destruct (sim_alloc s h segs size HS Hal) as (p & s' & E & Hres). exists (ResPtr p), s'. destruct Hres as [(-> & H1 & H2)|(segs' & H1 & H2 & H3)].
    + exists segs. split; [by erewrite run_bind|]. split; [done|]. apply HFail; [eauto|by rewrite H2].
    + exists segs'. split; [by erewrite run_bind|]. cbn [next_heap]. rewrite (proj2 (Z.eqb_neq _ _) (rm_pos _ _ _ _ _ H2)). split; [done|]. by constructor.
  - destruct (sim_calloc s h segs size HS Hal) as (p & s' & E & Hres). exists (ResPtr p), s'. destruct Hres as [(-> & H1 & H2)|(segs' & H1 & H2 & H3 & H4)].
    + exists segs. split; [by erewrite run_bind|]. split; [done|]. apply HFail; [eauto|by rewrite H2].
    + exists segs'. split; [by erewrite run_bind|]. cbn [next_heap]. rewrite (proj2 (Z.eqb_neq _ _) (rm_pos _ _ _ _ _ H2)). split; [done|]. by constructor.
  - destruct (sim_free s h segs p HS Hal) as (s' & segs' & E & H1 & H2 & _). exists (ResFree FreeDone), s', segs'. split; [by erewrite run_bind|]. split; [done|]. by constructor.
  - destruct Hal as (Hin & _ & _). exists ResUnit, (with_words s (put_word a v (p_words s))), segs. split; [done|]. split; [|by constructor]. apply sim_words; [done|].
    intros y Hy. destruct (decide (y = a)) as [->|Hne]; [|by rewrite put_word_ne in Hy]. destruct Hin as (q & n & Hq & Ha). exists q, n. split; [done|lia].
Qed.
End Ops.

Section Reach.
Context (ps addr end_ : Z) (words : Z -> Z) (HZ : zone_ok ps addr end_).
#[local] Abbreviation s0 := (ngx_slab_init ps addr end_ 3 words).
#[local] Abbreviation N := (p_pfree s0).

Lemma reach_sim s h : reach ps addr end_ words s h -> exists segs, sim ps s0 N s h segs.
Proof using HZ.
  induction 1 as [|s h op r s' HR [segs IH] Hal E].
  - exists [Free N]. split; [exact (init_pool ps addr end_ words HZ)|done| |done]. intros q c [[]|[]].
  - destruct (sim_op ps s0 N s h segs op IH Hal) as (r' & s'' & segs' & E' & HS & _). rewrite E in E'. simplify_eq. by exists segs'.
Qed.
End Reach.
