(* ===== verification/SlabClaims.v ===== *)
(** * Theorems on the allocator of shared memory

    For a zone of [end_ - addr] bytes, in pages of 4 to 64 kilobytes, and any
    sequence of calls of its users. *)

From stdpp Require Import gmap.
From S2P Require Import Prelude Slab SlabRing SlabPages SlabRuns SlabFree SlabChunk SlabBits SlabMark SlabSmall SlabNew SlabHeap SlabAlloc SlabTake SlabRelease SlabFreeChunk SlabFreeSpec SlabInit SlabSafe.

(** Some block has bytes in the page [j]. *)
Definition page_used (ps lo : Z) (h : heap) (j : Z) : Prop :=
  exists q n, h !! q = Some n /\ q < lo + (j + 1) * 2 ^ ps /\ lo + j * 2 ^ ps < q + Z.max n 1.

(** ** Helpers *)

Section Helpers.
Context (ps : Z) (s0 : slab_pool) (N : Z).

Lemma all_free s segs : pool_ok ps s N segs -> (forall q c, ~ blocks ps s segs q c) -> segs = [Free N].
Proof.
  intros HP Hno. assert (Hps := g_ps _ _ _ (po_geom _ _ _ _ HP)). assert (HN := g_size _ _ _ (po_geom _ _ _ _ HP)). assert (Hwf := pool_wf _ _ _ _ HP). assert (Hs := po_sep _ _ _ _ HP). assert (Ht := pool_total _ _ _ _ HP).
  assert (Hfree : forall l1 g l2, segs = l1 ++ g :: l2 -> exists n, g = Free n).
  { intros l1 g l2 E. rewrite E, Forall_app, Forall_cons in Hwf. destruct Hwf as (_ & Wg & _). assert (not_free (Some g) \/ exists n, g = Free n) as [Hnf|]; [destruct g; cbn; eauto| |done]. exfalso.
    destruct (first_page_block ps Hps (base ps s (total l1)) g Wg Hnf) as (p & c & Hb & _). apply (Hno p c). rewrite E. apply (blocks_mid ps s l1 [g]). left. by left. }
  destruct segs as [|g l]; [cbn in Ht; lia|]. destruct (Hfree [] g l eq_refl) as [n ->]. destruct l as [|g l]; [cbn in Ht; do 2 f_equal; lia|].
  destruct (Hfree [Free n] g l eq_refl) as [k ->]. by destruct Hs as [[] _].
Qed.

(** A block with bytes in a run of pages has bytes of its own in one of them. *)
Lemma block_page s h segs i k q c : sim ps s0 N s h segs -> blocks ps s segs q c -> 0 <= i -> 1 <= k -> q < base ps s (i + k) -> base ps s i < q + c ->
  exists j, i <= j < i + k /\ page_used ps (p_start s) h j.
Proof.
  intros HS Hb Hi Hk H1 H2. assert (Hps := sim_ps _ _ _ _ _ _ HS). assert (Hp := pow_ps ps Hps). destruct (sm_blocks _ _ _ _ _ _ HS q c Hb) as (n & Hq & Hn & Hc).
  destruct (blocks_seg ps s segs q c Hb) as (l1 & g & l2 & Es & Hg). unfold base in *. set (lo := p_start s) in *. destruct (Z.le_gt_cases (lo + i * 2 ^ ps) q) as [Hle|Hgt].
  - assert (Hd := Z.div_mod (q - lo) (2 ^ ps) ltac:(lia)). assert (Hm := Z.mod_pos_bound (q - lo) (2 ^ ps) Hp). set (j := (q - lo) / 2 ^ ps) in *. exists j. split; [nia|].
    exists q, n. split; [done|]. split; nia.
  - exists i. split; [lia|]. exists q, n. split; [done|]. split; [nia|]. assert (Hwf := pool_wf _ _ _ _ (sm_ok _ _ _ _ _ _ HS)). rewrite Es, Forall_app, Forall_cons in Hwf. destruct Hwf as (_ & Wg & _).
    destruct g as [k0|k0|sh b|sh|k0]; try done.
    + destruct Hg as [Eq Ec]. fold lo in Eq. assert (i + 1 <= total l1 + k0) by nia. nia.
    + exfalso. apply block_bounds in Hg; [|done|done]. fold lo in Hg. cbn [slen] in Hg. assert (total l1 < i) by nia. nia.
Qed.
End Helpers.

(** ** Refinement *)

(** C14: a zone of shared memory is a heap.  Whatever blocks are held, every
    [ngx_slab_alloc_locked], [ngx_slab_calloc_locked] and [ngx_slab_free_locked]
    of a held block, and every write of a user to a word of a held block,
    terminates without reading or writing a wrong descriptor and is a step of
    the abstract heap: a new block is aligned, inside the zone, as large as
    asked for and apart from all others; the words of the other blocks keep
    their values; a block from [calloc] is zero; a released block is the only
    one that goes. *)
Theorem slab_refines_heap ps addr end_ words s h op :
  zone_ok ps addr end_ -> reach ps addr end_ words s h -> allowed h op ->
  exists r s', run_slab_op ps op s = Some (r, s')
    /\ heap_step (p_start (ngx_slab_init ps addr end_ 3 words)) end_ h (p_words s) op r (next_heap op r h) (p_words s').
Proof.
  intros HZ HR Hal. destruct (reach_sim ps addr end_ words HZ s h HR) as [segs HS]. destruct (sim_op _ _ _ _ _ _ _ HS Hal) as (r & s' & segs' & E & _ & Hstep). by exists r, s'.
Qed.

(** C16: an allocation fails only when the zone has no room: then among any
    pages in a row of the number that the size takes (one page, for at most
    half a page) some page has bytes of a held block.  Released pages are thus
    always joined, and a page without chunks in use is never lost. *)
Theorem slab_out_of_memory ps addr end_ words s h size s' i :
  zone_ok ps addr end_ -> reach ps addr end_ words s h -> 0 <= size -> ngx_slab_alloc_locked ps size s = Some (0, s') ->
  0 <= i -> i + need ps size <= p_pfree (ngx_slab_init ps addr end_ 3 words) ->
  exists j, i <= j < i + need ps size /\ page_used ps (p_start (ngx_slab_init ps addr end_ 3 words)) h j.
Proof.
  intros HZ HR Hsz E Hi Hik. destruct (reach_sim ps addr end_ words HZ s h HR) as [segs HS]. assert (HP := sm_ok _ _ _ _ _ _ HS). assert (Hps := sim_ps _ _ _ _ _ _ HS).
  rewrite <- (sp_start _ _ (sm_same _ _ _ _ _ _ HS)). destruct (alloc_spec ps s _ segs size HP Hsz) as (p & s1 & E' & Hres). rewrite E in E'. simplify_eq.
  destruct Hres as [(_ & _ & _ & _ & Hno)|(c & segs' & _ & _ & HV & _)]; [|by eapply gave_pos in HV; [|exact (po_geom _ _ _ _ HP)]].
  assert (Hk : 1 <= need ps size) by (unfold need; rewrite max_size_eq by done; destruct (Z.ltb_spec (2 ^ (ps - 1)) size); [by apply pages_spec|lia]).
  destruct (free_run ps Hps (p_start s) segs i (need ps size)) as [(q & c & Hb & H1 & H2)|(n & Hn & Hkn)];
    [by apply pool_wf in HP|apply (po_sep _ _ _ _ HP)|done|done|by rewrite (pool_total _ _ _ _ HP)| |by specialize (Hno n Hn); lia].
  by apply (block_page ps _ _ s h segs i (need ps size) q c HS Hb).
Qed.

(** C15: no memory leaks.  When all blocks were released, whatever the order,
    the pages are one free run again: an allocation of all the pages of the zone
    succeeds, at its first page. *)
Theorem slab_no_leak ps addr end_ words s :
  zone_ok ps addr end_ -> reach ps addr end_ words s ∅ ->
  let s0 := ngx_slab_init ps addr end_ 3 words in
  p_pfree s = p_pfree s0 /\ exists s', ngx_slab_alloc_locked ps (p_pfree s0 * 2 ^ ps) s = Some (p_start s0, s').
Proof.
  intros HZ HR s0. destruct (reach_sim ps addr end_ words HZ s ∅ HR) as [segs HS]. assert (HP := sm_ok _ _ _ _ _ _ HS). assert (Hps := sim_ps _ _ _ _ _ _ HS). fold s0 in HP, HS. set (N := p_pfree s0) in *.
  assert (HN := g_size _ _ _ (po_geom _ _ _ _ HP)). assert (Hp := pow_ps ps Hps). assert (Hsegs : segs = [Free N]).
  { apply (all_free ps N s); [done|]. intros q c Hb. by destruct (sm_blocks _ _ _ _ _ _ HS q c Hb) as (n & Hn & _). }
  subst segs. split; [rewrite (po_pfree _ _ _ _ HP); cbn; lia|].
  assert (Hh : 2 ^ ps = 2 * 2 ^ (ps - 1)) by (rewrite <- Z.pow_succ_r by lia; f_equal; lia). destruct (alloc_spec ps s N [Free N] (N * 2 ^ ps) HP ltac:(nia)) as (p & s' & E & Hres).
  exists s'. rewrite E. do 2 f_equal. destruct Hres as [(_ & _ & _ & _ & Hno)|(c & segs' & Hc & _ & HV & _)].
  - exfalso. specialize (Hno N ltac:(by left)). unfold need in Hno. rewrite max_size_eq, (proj2 (Z.ltb_lt _ _)) in Hno by (done || nia).
    unfold pages_for, ngx_pagesize in Hno. rewrite Z.shiftr_div_pow2, Z.div_mul, Z.mod_mul in Hno by lia. cbn in Hno. lia.
  - assert (Hb : blocks ps s segs' p c) by (apply (gv_blocks _ _ _ _ _ _ _ _ HV); by right). assert (HP' := gv_ok _ _ _ _ _ _ _ _ HV).
    apply live_bounds in Hb; [|done|by apply pool_wf in HP']. rewrite (pool_total _ _ _ _ HP') in Hb. rewrite <- (sp_start _ _ (sm_same _ _ _ _ _ _ HS)). lia.
Qed.

(** C17: most wrong releases are refused.  [ngx_slab_free_locked] changes nothing
    and logs an error for an address below the pages or above the end of the
    zone, for an address in a page, beyond the first 64th of it, where the
    bitmap of small chunks may be, that is no held block, and for a block that
    was just released.  The exceptions are real: the end of the zone itself
    passes the test ([slab_free_end_unchecked]), and so does the bitmap
    ([slab_free_bitmap_accepted]). *)
Theorem slab_free_refused ps addr end_ words s h p :
  zone_ok ps addr end_ -> reach ps addr end_ words s h ->
  let lo := p_start (ngx_slab_init ps addr end_ 3 words) in
  (p < lo \/ end_ < p -> ngx_slab_free_locked ps p s = Some (OutsideOfPool, s))
  /\ (lo <= p < lo + p_pfree (ngx_slab_init ps addr end_ 3 words) * 2 ^ ps -> h !! p = None -> 2 ^ ps <= 64 * (p mod 2 ^ ps) ->
      exists e, ngx_slab_free_locked ps p s = Some (e, s) /\ e <> FreeDone)
  /\ (is_Some (h !! p) -> exists s' e, ngx_slab_free_locked ps p s = Some (FreeDone, s') /\ ngx_slab_free_locked ps p s' = Some (e, s') /\ e <> FreeDone).
Proof.
  intros HZ HR lo. destruct (reach_sim ps addr end_ words HZ s h HR) as [segs HS]. assert (HP := sm_ok _ _ _ _ _ _ HS). assert (Hps := sim_ps _ _ _ _ _ _ HS). assert (Hsame := sm_same _ _ _ _ _ _ HS).
  assert (Elo := sp_start _ _ Hsame). assert (Eend := sp_end _ _ Hsame). fold lo in Elo. change (p_end (ngx_slab_init ps addr end_ 3 words)) with end_ in Eend. split_and!.
  - intros Hout. unfold ngx_slab_free_locked. rewrite !run_gets, Elo, Eend. by rewrite (proj2 (orb_true_iff _ _)) by lia.
  - intros Hin Hno H64. apply (free_wrong ps s _ segs HP); [by rewrite Elo| |].
    + intros c Hb. destruct (sm_blocks _ _ _ _ _ _ HS p c Hb) as (n & Hn & _). by rewrite Hno in Hn.
    + intros Hbm. apply bitmap_at_64th in Hbm; [lia|done|by apply pool_wf in HP|apply (g_salign _ _ _ (po_geom _ _ _ _ HP))].
  - intros [n Hn]. destruct (sim_free _ _ _ s h segs p HS) as (s' & segs' & E & HS' & _ & Hbm); [by eexists|]. exists s'. assert (HP' := sm_ok _ _ _ _ _ _ HS').
    destruct (sm_heap _ _ _ _ _ _ HS p n Hn) as (c & Hb). apply live_bounds in Hb; [|done|by apply pool_wf in HP]. rewrite (pool_total _ _ _ _ HP) in Hb.
    destruct (free_wrong ps s' _ segs' HP' p) as (e & E' & He); [rewrite (sp_start _ _ (sm_same _ _ _ _ _ _ HS')), <- (sp_start _ _ Hsame); lia| |done|by exists e].
    intros c' Hb'. destruct (sm_blocks _ _ _ _ _ _ HS' p c' Hb') as (n' & Hn' & _). by rewrite lookup_delete_eq in Hn'.
Qed.

(** ** Runs on a small zone *)

(** Six pages at 65536: five of them are for blocks, from 69632. *)
Definition zone0 : slab_pool := ngx_slab_init 12 65536 90112 3 (fun _ => 0).

Definition after (op : slab_op) (s : slab_pool) : slab_pool := match run_slab_op 12 op s with Some (_, s') => s' | None => s end.

Lemma zone0_ok : zone_ok 12 65536 90112.
Proof. split; [lia|lia|by exists 16384|vm_compute; congruence|done]. Qed.

Lemma reach_after s h op r : reach 12 65536 90112 (fun _ => 0) s h -> allowed h op -> fst <$> run_slab_op 12 op s = Some r ->
  reach 12 65536 90112 (fun _ => 0) (after op s) (next_heap op r h).
Proof.
  intros HR Hal E. unfold after. destruct (run_slab_op 12 op s) as [[r' s']|] eqn:Er; [|done]. injection E as ->. exact (reach_step _ _ _ _ _ _ _ _ _ HR Hal Er).
Qed.

(** One block of 100 bytes, a chunk of 128. *)
Definition s_one : slab_pool := after (SAlloc 100) zone0.

Lemma reach_one : reach 12 65536 90112 (fun _ => 0) s_one {[69632 := 100]}.
Proof. apply (reach_after zone0 ∅ (SAlloc 100) (ResPtr 69632)); [apply reach_init|done|by vm_compute]. Qed.

Lemma slab_refines_heap_witness :
  exists r s', run_slab_op 12 (SFree 69632) s_one = Some (r, s')
    /\ heap_step (p_start zone0) 90112 {[69632 := 100]} (p_words s_one) (SFree 69632) r (next_heap (SFree 69632) r {[69632 := 100]}) (p_words s').
Proof. apply (slab_refines_heap 12 65536 90112 (fun _ => 0) s_one _ (SFree 69632) zone0_ok reach_one). by eexists. Defined.

(** All five pages taken: not even 8 bytes are left. *)
Definition s_full : slab_pool := after (SAlloc 20480) zone0.

Lemma reach_full : reach 12 65536 90112 (fun _ => 0) s_full {[69632 := 20480]}.
Proof. apply (reach_after zone0 ∅ (SAlloc 20480) (ResPtr 69632)); [apply reach_init|done|by vm_compute]. Qed.

Lemma slab_out_of_memory_witness : exists j, 3 <= j < 4 /\ page_used 12 (p_start zone0) {[69632 := 20480]} j.
Proof.
  apply (slab_out_of_memory 12 65536 90112 (fun _ => 0) s_full {[69632 := 20480]} 8 (after (SAlloc 8) s_full) 3 zone0_ok reach_full); [lia|by vm_compute|lia|vm_compute; congruence].
Defined.

(** Two blocks come and go. *)
Definition s_back : slab_pool := after (SFree 69632) (after (SFree 73728) (after (SCalloc 5000) s_one)).

Lemma reach_back : reach 12 65536 90112 (fun _ => 0) s_back ∅.
Proof.
  assert (E1 : (∅ : heap) = next_heap (SFree 69632) (ResFree FreeDone) {[69632 := 100]}) by (symmetry; apply delete_singleton_eq).
  assert (E2 : ({[69632 := 100]} : heap) = next_heap (SFree 73728) (ResFree FreeDone) (<[73728 := 5000]> {[69632 := 100]})) by (symmetry; by apply delete_insert_id).
  rewrite E1. apply (reach_after (after (SFree 73728) (after (SCalloc 5000) s_one)) {[69632 := 100]} (SFree 69632) (ResFree FreeDone)); [|by eexists|by vm_compute].
  rewrite E2. apply (reach_after (after (SCalloc 5000) s_one) (<[73728 := 5000]> {[69632 := 100]}) (SFree 73728) (ResFree FreeDone)); [|by eexists|by vm_compute].
  apply (reach_after s_one {[69632 := 100]} (SCalloc 5000) (ResPtr 73728)); [apply reach_one|done|by vm_compute].
Qed.

Lemma slab_no_leak_witness : p_pfree s_back = 5 /\ exists s', ngx_slab_alloc_locked 12 20480 s_back = Some (69632, s').
Proof. apply (slab_no_leak 12 65536 90112 (fun _ => 0) s_back zone0_ok reach_back). Defined.

Lemma slab_free_refused_witness :
  ngx_slab_free_locked 12 4096 s_one = Some (OutsideOfPool, s_one)
  /\ (exists e, ngx_slab_free_locked 12 (69632 + 256) s_one = Some (e, s_one) /\ e <> FreeDone)
  /\ exists s' e, ngx_slab_free_locked 12 69632 s_one = Some (FreeDone, s') /\ ngx_slab_free_locked 12 69632 s' = Some (e, s') /\ e <> FreeDone.
Proof.
  split_and!.
  - apply (slab_free_refused 12 65536 90112 (fun _ => 0) s_one {[69632 := 100]} 4096 zone0_ok reach_one). left. by vm_compute.
  - apply (slab_free_refused 12 65536 90112 (fun _ => 0) s_one {[69632 := 100]} (69632 + 256) zone0_ok reach_one); [by vm_compute|done|vm_compute; congruence].
  - apply (slab_free_refused 12 65536 90112 (fun _ => 0) s_one {[69632 := 100]} 69632 zone0_ok reach_one). by eexists.
Defined.

(** ** Limits of the checks of [ngx_slab_free_locked] *)

(** The test against [pool->end] lets the end itself pass: the code then reads
    the descriptor of a page that does not exist. *)
Lemma slab_free_end_unchecked : ngx_slab_free_locked 12 (p_end zone0) zone0 = None /\ p_last zone0 = page_at (p_pages zone0) (Z.shiftr (p_end zone0 - p_start zone0) 12).
Proof. by vm_compute. Qed.

(** The chunks of the bitmap itself pass as chunks in use: after the release of
    the start of a page of small chunks, an allocation gives out the bitmap. *)
Lemma slab_free_bitmap_accepted :
  let s := after (SAlloc 8) zone0 in
  fst <$> run_slab_op 12 (SAlloc 8) zone0 = Some (ResPtr 69696) /\ fst <$> run_slab_op 12 (SFree 69632) s = Some (ResFree FreeDone)
  /\ fst <$> run_slab_op 12 (SAlloc 8) (after (SFree 69632) s) = Some (ResPtr 69632).
Proof. by vm_compute. Qed.
