(* ===== verification/SlabGrow.v ===== *)
(** * Room for many small blocks

    Pages in use when blocks are only allocated: at most one page of each size
    of chunks is not full. *)

From stdpp Require Import gmap.
From S2P Require Import Prelude Slab SlabRing SlabPages SlabRuns SlabFree SlabChunk SlabBits SlabMark SlabSmall SlabNew SlabHeap SlabAlloc.

(** ** Bits of a bitmap *)

Fixpoint ones_in (b lo : Z) (n : nat) : Z := match n with O => 0 | S n => Z.b2z (Z.testbit b lo) + ones_in b (lo + 1) n end.

Lemma ones_in_ext b b' lo n : (forall i, lo <= i < lo + Z.of_nat n -> Z.testbit b i = Z.testbit b' i) -> ones_in b lo n = ones_in b' lo n.
Proof. revert lo; induction n as [|n IH]; intros lo H; [done|]. cbn [ones_in]. rewrite H by lia. f_equal. apply IH. intros i Hi. apply H. lia. Qed.

Lemma ones_in_set b i lo n : 0 <= lo <= i -> i < lo + Z.of_nat n -> Z.testbit b i = false -> ones_in (set_bit b i) lo n = ones_in b lo n + 1.
Proof.
  revert lo; induction n as [|n IH]; intros lo Hlo Hi Hb; [lia|]. cbn [ones_in]. rewrite set_bit_spec by lia. destruct (Z.eqb_spec lo i) as [->|Hne].
  - rewrite Hb, (ones_in_ext _ b); [cbn; lia|]. intros j Hj. rewrite set_bit_spec by lia. rewrite (proj2 (Z.eqb_neq _ _)) by lia. apply orb_false_r.
  - rewrite orb_false_r, IH by (done || lia). lia.
Qed.

Lemma ones_in_none b lo n : (forall i, lo <= i < lo + Z.of_nat n -> Z.testbit b i = false) -> ones_in b lo n = 0.
Proof. revert lo; induction n as [|n IH]; intros lo H; [done|]. cbn [ones_in]. rewrite H, IH; [done|intros i Hi; apply H; lia|lia]. Qed.

Lemma ones_in_all b lo n : (forall i, lo <= i < lo + Z.of_nat n -> Z.testbit b i = true) -> ones_in b lo n = Z.of_nat n.
Proof. revert lo; induction n as [|n IH]; intros lo H; [done|]. cbn [ones_in]. rewrite H, IH; [cbn; lia|intros i Hi; apply H; lia|lia]. Qed.

Section Grow.
Context (ps : Z) (Hps : 12 <= ps <= 16).

(** ** Pages and chunks of a list of segments *)

(** Chunks of at most 128 bytes that are taken. *)
Definition used (g : seg) : Z :=
  match g with Chunks sh b => if sh <=? 7 then ones_in b (meta ps sh) (Z.to_nat (chunks ps sh - meta ps sh)) else 0 | _ => 0 end.

(** Pages that are runs or have larger chunks. *)
Definition heavy (g : seg) : Z := match g with Pages n => n | Chunks sh b => if sh <=? 7 then 0 else 1 | _ => 0 end.

Definition is_full (g : seg) : Z := match g with Chunks sh b => if (sh <=? 7) && (b =? Z.ones (chunks ps sh)) then 1 else 0 | _ => 0 end.

Definition open_of (sh : Z) (g : seg) : Z := if decide (ring_of ps g = Some (RSlot sh)) then 1 else 0.

Fixpoint sum (f : seg -> Z) (l : list seg) : Z := match l with [] => 0 | g :: l' => f g + sum f l' end.

Lemma sum_app f l1 l2 : sum f (l1 ++ l2) = sum f l1 + sum f l2.
Proof. induction l1; cbn; lia. Qed.

Lemma sum_zero f l : Forall (fun g => f g = 0) l -> sum f l = 0.
Proof. induction 1; cbn; lia. Qed.

Lemma frees_sum l : frees l = sum (fun g => match g with Free n => n | _ => 0 end) l.
Proof. induction l as [|[] l IH]; cbn; lia. Qed.

(** A page of small chunks has at least 32 of them. *)
Lemma small_capacity sh : 3 <= sh <= 7 -> 32 <= chunks ps sh - meta ps sh.
Proof using Hps.
  intros Hsh. assert (H : (if sh <=? 7 then 32 <=? chunks ps sh - meta ps sh else true) = true).
  { apply (enum_sh ps Hps (fun ps sh => if sh <=? 7 then 32 <=? chunks ps sh - meta ps sh else true) sh); [lia|by vm_compute]. }
  rewrite (proj2 (Z.leb_le _ _)) in H by lia. lia.
Qed.

Lemma full_used g : wf ps g -> 32 * is_full g <= used g.
Proof using Hps.
  intros Hg. assert (Hnn : forall b lo n, 0 <= ones_in b lo n) by (intros b lo n; revert lo; induction n as [|n IH]; intros lo; cbn [ones_in]; [done|]; specialize (IH (lo + 1)); destruct (Z.testbit b lo); cbn; lia).
  destruct g as [n|n|sh b|sh|n]; cbn [is_full used]; try lia. destruct (Z.leb_spec sh 7) as [Hle|]; cbn [andb]; [|lia].
  assert (Hsh := co_shift _ _ _ Hg). assert (Hcap := small_capacity sh ltac:(lia)). destruct (meta_bounds ps Hps sh Hsh) as (Hm & _). destruct (Z.eqb_spec b (Z.ones (chunks ps sh))) as [->|]; [|specialize (Hnn b (meta ps sh) (Z.to_nat (chunks ps sh - meta ps sh))); lia].
  rewrite ones_in_all; [lia|]. intros i Hi. apply Z.ones_spec_low. lia.
Qed.

(** Every page is free, heavy, full, or open in one of five sizes. *)
Lemma page_kinds g : wf ps g -> slen g <= (match g with Free n => n | _ => 0 end) + heavy g + is_full g + (open_of 3 g + open_of 4 g + open_of 5 g + open_of 6 g + open_of 7 g).
Proof using Hps.
  intros Hg. assert (Ho : forall sh, 0 <= open_of sh g <= 1) by (intros sh; unfold open_of; case_decide; lia).
  assert (O3 := Ho 3). assert (O4 := Ho 4). assert (O5 := Ho 5). assert (O6 := Ho 6). assert (O7 := Ho 7).
  destruct g as [n|n|sh b|sh|n]; cbn [slen heavy is_full]; [lia|lia| |done|done]. destruct (Z.leb_spec sh 7) as [Hle|]; cbn [andb]; [|lia].
  destruct (Z.eqb_spec b (Z.ones (chunks ps sh))) as [|Hb]; [lia|]. assert (Hopen : open_of sh (Chunks sh b) = 1) by (unfold open_of; rewrite decide_True; [done|by apply ring_of_chunks]).
  assert (Hsh := co_shift _ _ _ Hg). assert (sh = 3 \/ sh = 4 \/ sh = 5 \/ sh = 6 \/ sh = 7) as [->|[->|[->|[->| ->]]]] by lia; lia.
Qed.

Record counted (T k : Z) (l : list seg) : Prop := {
  ct_heavy : sum heavy l <= T;
  ct_used : sum used l <= k;
  ct_open : forall sh, sum (open_of sh) l <= 1
}.

Lemma counted_full T k l : Forall (wf ps) l -> counted T k l -> total l <= frees l + T + k / 32 + 5.
Proof using Hps.
  intros Hwf [H1 H2 H3]. assert (Ht : total l <= frees l + sum heavy l + sum is_full l + (sum (open_of 3) l + sum (open_of 4) l + sum (open_of 5) l + sum (open_of 6) l + sum (open_of 7) l)).
  { rewrite frees_sum. clear -Hwf Hps. induction Hwf as [|g l Hg Hwf IH]; [done|]. apply page_kinds in Hg. cbn [total sum]. lia. }
  assert (Hf : 32 * sum is_full l <= sum used l) by (clear -Hwf Hps; induction Hwf as [|g l Hg Hwf IH]; [done|]; apply full_used in Hg; cbn [sum]; lia).
  assert (sum is_full l <= k / 32) by (apply Z.div_le_lower_bound; lia). pose proof (H3 3). pose proof (H3 4). pose proof (H3 5). pose proof (H3 6). pose proof (H3 7). lia.
Qed.

(** ** An allocation *)

Lemma rest_sums f k n : (forall m, f (Free m) = 0) -> sum f (rest_of k n) = 0.
Proof. intros Hf. unfold rest_of. destruct (k <? n); cbn; rewrite ?Hf; lia. Qed.

Lemma open_free sh n : open_of sh (Free n) = 0.
Proof. unfold open_of. by rewrite decide_False. Qed.

Lemma grew_first size l N : grew ps size [Free N] l -> 0 <= size -> counted (need ps size) 1 l.
Proof using Hps.
  intros HG Hsz. inversion HG as [l1 n l2 H1 H2 E1|l1 n sh l2 H1 H2 H3 H4 E1|l1 sh b i l2 H1 H2 H3 H4 E1].
  all: destruct l1 as [|g [|? ?]]; try discriminate E1; injection E1 as E1 E2; try discriminate E1. 
  - subst. rewrite app_nil_r. assert (Hn : need ps size = pages_for ps size) by (unfold need; rewrite max_size_eq by done; by rewrite (proj2 (Z.ltb_lt _ _) H1)). rewrite Hn.
    split; cbn [app sum heavy used]; rewrite ?rest_sums by (done || apply open_free); [lia|lia|]. intros sh. cbn [app sum]. rewrite rest_sums by apply open_free. unfold open_of. rewrite decide_False by done. lia.
  - subst. rewrite app_nil_r. assert (Hn : 1 <= need ps size) by (unfold need; rewrite max_size_eq by done; destruct (Z.ltb_spec (2 ^ (ps - 1)) size); [by apply pages_spec|lia]).
    destruct (meta_bounds ps Hps sh H1) as (Hm0 & Hm1 & _). split; cbn [app sum heavy used]; rewrite ?rest_sums by (done || apply open_free).
    + destruct (sh <=? 7); lia.
    + destruct (sh <=? 7); [|lia]. destruct (Z.to_nat (chunks ps sh - meta ps sh)) as [|k] eqn:Ek; [lia|]. cbn [ones_in]. rewrite first_bit, ones_in_none by (done || lia || (intros i Hi; rewrite first_bit by (done || lia); lia)).
      rewrite Z.leb_refl. cbn. lia.
    + intros sh'. cbn [app sum]. rewrite rest_sums by apply open_free. unfold open_of. case_decide; lia.
Qed.

Lemma set_open sh sh' b i : open_of sh' (Chunks sh (set_bit b i)) <= open_of sh' (Chunks sh b) \/ full ps sh b.
Proof.
  destruct (Z.eqb_spec b (Z.ones (chunks ps sh))) as [E|Hne]; [by right|]. left. unfold open_of. rewrite (ring_of_chunks ps sh b) by done.
  cbn [ring_of]. destruct (set_bit b i =? Z.ones (chunks ps sh)); [|lia]. rewrite decide_False by done. case_decide; lia.
Qed.

Lemma grew_small size T k l l' : grew ps size l l' -> size <= 128 -> counted T k l -> counted T (k + 1) l'.
Proof using Hps.
  intros HG Hsz [C1 C2 C3]. assert (Hp : 2 ^ 8 <= 2 ^ (ps - 1)) by (apply Z.pow_le_mono_r; lia). change (2 ^ 8) with 256 in Hp. destruct HG as [l1 n l2 H1 H2|l1 n sh l2 H1 H2 H3 H4|l1 sh b i l2 H1 H2 H3 H4]; [lia| |].
  - assert (Hsh : sh <= 7). { destruct (Z.le_gt_cases sh 7) as [|Hgt]; [done|]. assert (2 ^ 8 <= 2 ^ sh) by (apply Z.pow_le_mono_r; lia). change (2 ^ 8) with 256 in *. lia. }
    destruct (meta_bounds ps Hps sh H1) as (Hm0 & Hm1 & _). split; [| |intros sh'; specialize (C3 sh')]; rewrite !sum_app in *; cbn [sum heavy used] in *; rewrite ?rest_sums by (done || apply open_free).
    + rewrite (proj2 (Z.leb_le _ _) Hsh). lia.
    + rewrite (proj2 (Z.leb_le _ _) Hsh). destruct (Z.to_nat (chunks ps sh - meta ps sh)) as [|q] eqn:Ek; [lia|]. cbn [ones_in].
      rewrite first_bit, ones_in_none by (done || lia || (intros i Hi; rewrite first_bit by (done || lia); lia)). rewrite Z.leb_refl. cbn [Z.b2z]. lia.
    + rewrite open_free in C3. unfold open_of at 2. destruct (first_ok ps Hps sh H1) as [_ Hnf]. rewrite ring_of_chunks by done. case_decide as Hd; [|lia]. injection Hd as <-.
      assert (Hz : forall l, Forall (fun g => ~ is_open ps sh g) l -> sum (open_of sh) l = 0) by (intros l Hl; apply sum_zero; eapply Forall_impl; [exact Hl|]; intros g Hg; unfold open_of; by rewrite decide_False).
      rewrite Forall_app, Forall_cons in H4. destruct H4 as (Hl1 & _ & Hl2). rewrite (Hz l1 Hl1), (Hz l2 Hl2). lia.
  - destruct (meta_bounds ps Hps sh (co_shift _ _ _ H1)) as (Hm0 & Hm1 & _). split; [| |intros sh'; specialize (C3 sh')]; rewrite !sum_app in *; cbn [sum heavy used] in *.
    + lia.
    + destruct (sh <=? 7); [|lia]. rewrite ones_in_set by (done || lia). lia.
    + destruct (set_open sh sh' b i) as [Ho|Hf]; [lia|done].
Qed.
End Grow.
