(* ===== verification/CheckZone.v ===== *)
(** * The zone of the health checker

    [init_shm_zone] allocates the table of shared peers and the address of
    every peer in a new zone of [check_shm_size] bytes, at least a megabyte.
    [CheckShm] has the outcome of these allocations as an argument; here they
    run on the allocator of [Slab]. *)

From stdpp Require Import gmap.
From S2P Require Import Prelude CheckTypes CheckWorker Slab SlabRing SlabPages SlabRuns SlabFree SlabChunk SlabBits SlabMark SlabSmall SlabNew SlabHeap SlabAlloc SlabTake SlabRelease SlabFreeChunk SlabFreeSpec SlabInit SlabSafe SlabGrow.

(** [sizeof(ngx_upstream_check_peer_shm_t)], with a mutex of 64 and a lock of 16
    bytes, and [sizeof(ngx_upstream_check_peers_shm_t)]; the peers start at
    [PEERS_OFFSET]. *)
Definition SIZEOF_PEER_SHM : Z := 224.
Definition SIZEOF_PEERS_SHM : Z := 248.
Definition PEERS_OFFSET : Z := 24.

Definition table_size (number : Z) : Z := SIZEOF_PEERS_SHM + number * SIZEOF_PEER_SHM.

(** The value of bytes in memory, the lowest first. *)
Fixpoint le_value (l : bytes) : Z := match l with [] => 0 | b :: l' => b + 256 * le_value l' end.

(** [ngx_memcpy(a, l, ..)] on words. *)
Definition memcpy (a : Z) (l : bytes) (w : Z -> Z) (x : Z) : Z :=
  if (a <=? x) && (x <? a + Z.of_nat (length l)) then
    let part := take 8 (drop (Z.to_nat (x - a)) l) in
    Z.lor (Z.land (w x) (Z.lnot (Z.ones (8 * Z.of_nat (length part))))) (le_value part)
  else w x.

(** The loop over the peers; [image i] is what the code writes of the shared
    peer [i].  [false] is the failure of an allocation. *)
Fixpoint peers_allocs (ps : Z) (image : nat -> bytes) (table : Z) (i : nat) (l : list ngx_upstream_check_peer_t) : SM bool :=
  match l with
  | [] => mret true
  | p :: l' =>
    a ← ngx_slab_alloc_locked ps (socklen (peer_addr p));
    if a =? 0 then mret false
    else
      modify (fun s => s <| p_words := memcpy a (take (Z.to_nat (socklen (peer_addr p))) (sockaddr (peer_addr p))) (p_words s) |>);;
      modify (fun s => s <| p_words := memcpy (table + PEERS_OFFSET + Z.of_nat i * SIZEOF_PEER_SHM) (image i) (p_words s) |>);;
      peers_allocs ps image table (S i) l'
  end.

Definition zone_allocs (ps : Z) (image : nat -> bytes) (generation checksum : Z) (l : list ngx_upstream_check_peer_t) : SM bool :=
  let number := Z.of_nat (length l) in
  let size := table_size number in
  p ← ngx_slab_alloc_locked ps size;
  if p =? 0 then mret false
  else
    modify (fun s => s <| p_words := memzero p size (p_words s) |>);;
    set_word p generation;;
    set_word (p + 8) checksum;;
    set_word (p + 16) number;;
    peers_allocs ps image p 0 l.

(** ** Proofs *)

Lemma memcpy_out a l w x : ~ (a <= x < a + Z.of_nat (length l)) -> memcpy a l w x = w x.
Proof. intros H. unfold memcpy. by rewrite (proj2 (andb_false_iff _ _)) by lia. Qed.

Section Fits.
Context (ps : Z) (s0 : slab_pool) (N T : Z) (image : nat -> bytes) (Himg : forall i, Z.of_nat (length (image i)) <= SIZEOF_PEER_SHM).

(** A small block fits while there are pages. *)
Lemma small_fits s h segs k size : sim ps s0 N s h segs -> counted ps T k segs -> 0 <= size <= 128 -> T + k / 32 + 5 < N ->
  exists p s' segs', ngx_slab_alloc_locked ps size s = Some (p, s') /\ p <> 0 /\ h !! p = None /\ sim ps s0 N s' (<[p := size]> h) segs' /\ counted ps T (k + 1) segs'.
Proof.
  intros HS HC Hsz Hroom. assert (Hps := sim_ps _ _ _ _ _ _ HS). assert (HP := sm_ok _ _ _ _ _ _ HS). assert (Hwf := pool_wf _ _ _ _ HP).
  destruct (alloc_spec ps s N segs size HP ltac:(lia)) as (p & s' & E & [HF|(c & segs' & Hcap & _ & HV & HW)]).
  - exfalso. destruct HF as (_ & _ & _ & _ & Hno). assert (Hp : 2 ^ 8 <= 2 ^ (ps - 1)) by (apply Z.pow_le_mono_r; lia). change (2 ^ 8) with 256 in Hp.
    unfold need in Hno. rewrite max_size_eq, (proj2 (Z.ltb_ge _ _)) in Hno by (done || lia). assert (Hz : frees segs = 0).
    { rewrite frees_sum. apply sum_zero, Forall_forall. intros g Hg. destruct g as [n|n|sh b|sh|n]; try done. specialize (Hno n Hg). rewrite Forall_forall in Hwf. specialize (Hwf _ Hg). cbn in Hwf. lia. }
    assert (Hfull := counted_full ps Hps T k segs Hwf HC). rewrite (pool_total _ _ _ _ HP), Hz in Hfull. lia.
  - destruct (sim_gave _ _ _ _ _ _ _ _ _ _ size HS HV ltac:(lia) Hcap) as (HS' & Hrm & _). exists p, s', segs'. split; [done|]. split; [exact (rm_pos _ _ _ _ _ Hrm)|]. split; [exact (rm_new _ _ _ _ _ Hrm)|].
    split; [done|]. eapply grew_small; [exact Hps|exact HW|lia|exact HC].
Qed.

Lemma sim_memcpy s h segs a l q n : sim ps s0 N s h segs -> h !! q = Some n -> q <= a -> a + Z.of_nat (length l) <= q + n -> sim ps s0 N (with_words s (memcpy a l (p_words s))) h segs.
Proof.
  intros HS Hq H1 H2. apply sim_words; [done|]. intros y Hy. exists q, n. split; [done|]. destruct (decide (a <= y < a + Z.of_nat (length l))) as [|Hout]; [lia|]. by rewrite memcpy_out in Hy.
Qed.

Lemma sim_set_word s h segs a v q n : sim ps s0 N s h segs -> h !! q = Some n -> q <= a -> a + 8 <= q + n -> sim ps s0 N (with_words s (put_word a v (p_words s))) h segs.
Proof.
  intros HS Hq H1 H2. apply sim_words; [done|]. intros y Hy. exists q, n. split; [done|]. destruct (decide (y = a)) as [->|Hne]; [lia|]. by rewrite put_word_ne in Hy.
Qed.

Lemma peers_fit l : forall s h segs k i table number, sim ps s0 N s h segs -> counted ps T k segs ->
  Forall (fun p => 0 <= socklen (peer_addr p) <= 128) l -> h !! table = Some (table_size number) -> Z.of_nat (i + length l) <= number -> T + (k + Z.of_nat (length l)) / 32 + 5 < N ->
  exists s', peers_allocs ps image table i l s = Some (true, s').
Proof using Himg.
  induction l as [|p l IH]; intros s h segs k i table number HS HC Hl Ht Hi Hroom; [by exists s|]. apply Forall_cons in Hl as [Hp Hl]. cbn [peers_allocs length] in *.
  assert (Hk : k / 32 <= (k + Z.of_nat (S (length l))) / 32) by (apply Z.div_le_mono; lia).
  destruct (small_fits s h segs k _ HS HC Hp ltac:(lia)) as (a & s1 & segs1 & E & Ha & Hnew & HS1 & HC1). erewrite run_bind; [|exact E]. rewrite (proj2 (Z.eqb_neq _ _) Ha), !run_modify.
  assert (HS2 : sim ps s0 N (with_words s1 (memcpy a (take (Z.to_nat (socklen (peer_addr p))) (sockaddr (peer_addr p))) (p_words s1))) (<[a := socklen (peer_addr p)]> h) segs1).
  { eapply (sim_memcpy _ _ _ _ _ a); [done|apply lookup_insert_eq|lia|]. rewrite length_take. lia. }
  assert (Ht' : <[a := socklen (peer_addr p)]> h !! table = Some (table_size number)) by (rewrite lookup_insert_ne; [done|]; intros ->; congruence).
  assert (HS3 := sim_memcpy _ _ _ (table + PEERS_OFFSET + Z.of_nat i * SIZEOF_PEER_SHM) (image i) _ _ HS2 Ht').
  eapply IH; [apply HS3|exact HC1|done|exact Ht'|lia|by replace (k + 1 + Z.of_nat (length l)) with (k + Z.of_nat (S (length l))) by lia].
  - unfold PEERS_OFFSET, SIZEOF_PEER_SHM. lia.
  - specialize (Himg i). unfold table_size, PEERS_OFFSET, SIZEOF_PEER_SHM, SIZEOF_PEERS_SHM in *. lia.
Qed.
End Fits.

Lemma zone_fits ps addr end_ words image generation checksum l :
  zone_ok ps addr end_ -> (forall i, Z.of_nat (length (image i)) <= SIZEOF_PEER_SHM) -> Forall (fun p => 0 <= socklen (peer_addr p) <= 128) l ->
  let s0 := ngx_slab_init ps addr end_ 3 words in let number := Z.of_nat (length l) in
  need ps (table_size number) + (number + 1) / 32 + 5 < p_pfree s0 ->
  exists s', zone_allocs ps image generation checksum l s0 = Some (true, s').
Proof.
  intros HZ Himg Hl s0 number Hroom. set (N := p_pfree s0) in *. assert (HP : pool_ok ps s0 N [Free N]) by exact (init_pool ps addr end_ words HZ).
  assert (HS : sim ps s0 N s0 ∅ [Free N]) by (split; [done|done|intros q c [[]|[]]|done]). assert (Hps := sim_ps _ _ _ _ _ _ HS). set (size := table_size number) in *.
  assert (Hsz : 0 <= size) by (unfold size, table_size, SIZEOF_PEERS_SHM, SIZEOF_PEER_SHM; lia). unfold zone_allocs. fold number. cbv zeta. fold size.
  destruct (alloc_spec ps s0 N [Free N] size HP Hsz) as (p & s1 & E & [HF|(c & segs' & Hcap & _ & HV & HW)]).
  { exfalso. destruct HF as (_ & _ & _ & _ & Hno). specialize (Hno N ltac:(by left)). assert (0 <= (number + 1) / 32) by (apply Z.div_pos; lia). lia. }
  destruct (sim_gave _ _ _ _ _ _ _ _ _ _ size HS HV Hsz Hcap) as (HS1 & Hrm & _). erewrite run_bind; [|exact E]. rewrite (proj2 (Z.eqb_neq _ _) (rm_pos _ _ _ _ _ Hrm)).
  unfold set_word. rewrite !run_modify. set (h := <[p := size]> ∅) in *. assert (Hh : h !! p = Some size) by apply lookup_insert_eq. assert (Hs24 : 24 <= size) by (unfold size, table_size, SIZEOF_PEERS_SHM, SIZEOF_PEER_SHM; lia).
  assert (HS2 : sim ps s0 N (with_words s1 (memzero p size (p_words s1))) h segs').
  { apply sim_words; [done|]. intros y Hy. exists p, size. split; [done|]. destruct (decide (p <= y < p + size)) as [|Hout]; [done|]. by rewrite memzero_out in Hy. }
  assert (HS3 := sim_set_word _ _ _ _ _ _ p generation _ _ HS2 Hh ltac:(lia) ltac:(lia)). assert (HS4 := sim_set_word _ _ _ _ _ _ (p + 8) checksum _ _ HS3 Hh ltac:(lia) ltac:(lia)).
  assert (HS5 := sim_set_word _ _ _ _ _ _ (p + 16) number _ _ HS4 Hh ltac:(lia) ltac:(lia)). assert (HC := grew_first ps Hps size segs' N HW Hsz).
  eapply (peers_fit ps s0 N (need ps size) image Himg l _ h segs' 1 0 p number HS5 HC Hl Hh); [lia|]. fold number. by rewrite (Z.add_comm 1).
Qed.

(** C18: the default zone of the health checker is large enough.  With pages of
    4 kilobytes and a zone of at least a megabyte, all allocations that
    [init_shm_zone] makes for up to 2000 servers succeed, whatever their
    addresses: the load never ends with "check_shm_size is too small". *)
Theorem check_zone_fits addr shm_size words image generation checksum l :
  0 < addr -> (4096 | addr) -> 1048576 <= shm_size -> addr + shm_size < 2 ^ 60 -> (forall i, Z.of_nat (length (image i)) <= SIZEOF_PEER_SHM) ->
  Forall (fun p => 0 <= socklen (peer_addr p) <= 128) l -> (length l <= 2000)%nat ->
  exists s', zone_allocs 12 image generation checksum l (ngx_slab_init 12 addr (addr + shm_size) 3 words) = Some (true, s').
Proof.
  intros Ha [z Hz] Hsize Hend Himg Hl Hn. assert (HZ : zone_ok 12 addr (addr + shm_size)) by (split; [lia|done|exists (1024 * z); lia|change (2 ^ 12) with 4096; lia|done]).
  apply (zone_fits 12 addr (addr + shm_size) words image generation checksum l HZ Himg Hl). destruct (count_facts 12 addr (addr + shm_size) HZ) as (_ & [Hc _] & _).
  destruct (pages_facts 12 addr (addr + shm_size) HZ) as (_ & Hp). cbn [p_pfree ngx_slab_init]. eapply Z.lt_le_trans; [|exact Hc]. clear Hc.
  set (q := _ / (ngx_pagesize 12 + SIZEOF_PAGE)) in *. unfold SIZEOF_POOL, SIZEOF_PAGE, SIZEOF_STAT in Hp. change (2 ^ 12) with 4096 in Hp. assert (Hq : 254 <= q) by lia.
  set (n := Z.of_nat (length l)). assert (Hn' : 0 <= n <= 2000) by lia. assert (Hd : (n + 1) / 32 < 63) by (apply Z.div_lt_upper_bound; lia).
  assert (Hneed : need 12 (table_size n) <= 110).
  { unfold need. change (ngx_slab_max_size 12) with 2048. destruct (Z.ltb_spec 2048 (table_size n)) as [Hlt|]; [|lia]. destruct (pages_spec 12 (table_size n) ltac:(lia) Hlt) as (_ & [_ H] & _).
    change (2 ^ 12) with 4096 in H. unfold table_size, SIZEOF_PEERS_SHM, SIZEOF_PEER_SHM in *. lia. }
  lia.
Qed.

(** 2000 servers at IPv4 addresses. *)
Definition many_peers : list ngx_upstream_check_peer_t := replicate 2000 ex_peer.

Lemma check_zone_fits_witness :
  exists s', zone_allocs 12 (fun _ => replicate 224 0) 1 7 many_peers (ngx_slab_init 12 65536 (65536 + 1048576) 3 (fun _ => 0)) = Some (true, s').
Proof.
  apply check_zone_fits; [lia|by exists 16|lia|done|intros i; rewrite length_replicate; done| |unfold many_peers; rewrite length_replicate; lia].
  apply Forall_forall. intros p Hp. apply elem_of_replicate in Hp as [-> _]. vm_compute. split; congruence.
Defined.
