(* ===== verification/HttpArgs.v ===== *)
(** * Arguments of a request

    [ngx_http_arg] of [src/http/ngx_http_parse.c], which finds a parameter in
    the query string of a request, and the search [ngx_strlcasestrn] of
    [src/core/ngx_string.c] it is built on.  A pointer into the query string
    is an offset. *)

From S2P Require Import Prelude NgxString.

(** ** The search *)

(** The two nested loops: [s] are the bytes from [s1] on and [left] is
    [last - s1], after [last -= n]. *)
Fixpoint strlcasestrn_loop (s : bytes) (left c2 : Z) (s2 : bytes) (n : nat) : option nat :=
  match s with
  | [] => None
  | c :: s' =>
    if left <=? 0 then None
    else if (to_low c =? c2) && (ngx_strncasecmp s' s2 n =? 0) then Some 0%nat
    else S <$> strlcasestrn_loop s' (left - 1) c2 s2 n
  end.

(** [ngx_strlcasestrn(s1, last, s2, n)] with [size = last - s1]. *)
Definition ngx_strlcasestrn (s : bytes) (size : Z) (s2 : bytes) (n : nat) : option nat :=
  strlcasestrn_loop s (size - Z.of_nat n) (to_low (hd 0 s2)) (tl s2) n.

(** ** The parameter *)

Definition AMP : Z := ch "&".

(** [for ( ; p < last; p++)]; a round that goes on moves [p], so the length of
    the query string is enough fuel. *)
Fixpoint http_arg_loop (fuel : nat) (args name : bytes) (p : nat) : option bytes :=
  match fuel with
  | O => None
  | S fuel' =>
    if (length args <=? p)%nat then None
    else match ngx_strlcasestrn (drop p args) (blen args - 1 - Z.of_nat p) name (length name - 1) with
         | None => None
         | Some k =>
           let p := (p + k)%nat in
           if ((p =? 0)%nat || (nth (p - 1) args 0 =? AMP)) && (nth (p + length name) args 0 =? ch "=") then
             let data := (p + length name + 1)%nat in
             let e := match ngx_strlchr (drop p args) AMP with Some j => (p + j)%nat | None => length args end in
             Some (take (e - data) (drop data args))
           else http_arg_loop fuel' args name (p + 1)
         end
  end.

(** [NGX_DECLINED] is [None], [NGX_OK] the value. *)
Definition ngx_http_arg (args name : bytes) : option bytes :=
  if blen args =? 0 then None else http_arg_loop (S (length args)) args name 0.

Example http_arg_ex :
  (ngx_http_arg (s2b "xformat=csv&FORMAT=json&status=up") (s2b "format"),
   ngx_http_arg (s2b "format=json&status=") (s2b "status"),
   ngx_http_arg (s2b "format") (s2b "format")) = (Some (s2b "json"), Some [], None).
Proof. reflexivity. Qed.

(** ** Specification

    The query string is cut at every ampersand; the value is that of the first
    parameter whose name is the one asked for, in any case. *)

Fixpoint params (s : bytes) : list bytes :=
  match s with
  | [] => [[]]
  | c :: s' =>
    if c =? AMP then [] :: params s'
    else match params s' with
         | q :: qs => (c :: q) :: qs
         | [] => [[c]]
         end
  end.

Definition param_value (name q : bytes) : option bytes :=
  if bool_decide (to_low <$> take (length name) q = to_low <$> name)
     && (nth (length name) q 0 =? ch "=")
  then Some (drop (length name + 1) q) else None.

Fixpoint first_some {A B} (f : A -> option B) (l : list A) : option B :=
  match l with
  | [] => None
  | x :: l' => match f x with Some y => Some y | None => first_some f l' end
  end.

(** The parameter [s] starts with. *)
Definition first_param (s : bytes) : bytes :=
  match ngx_strlchr s AMP with Some j => take j s | None => s end.

(** What the loop does from a position on: [b] tells whether a parameter may
    start here. *)
Fixpoint arg_scan (name : bytes) (b : bool) (s : bytes) : option bytes :=
  match s with
  | [] => None
  | c :: s' =>
    if b then match param_value name (first_param s) with
              | Some v => Some v
              | None => arg_scan name (c =? AMP) s'
              end
    else arg_scan name (c =? AMP) s'
  end.

Lemma strncasecmp_zero s s2 :
  nul_free s2 ->
  ngx_strncasecmp s s2 (length s2) = 0 <-> to_low <$> take (length s2) s = to_low <$> s2.
Proof.
  revert s; induction s2 as [|c2 s2 IH]; intros s H; [done|].
  apply Forall_cons in H as [Hc H]. pose proof (to_low_zero c2 Hc).
  destruct s as [|c s]; cbn [length ngx_strncasecmp hd tl take fmap list_fmap].
  - replace (to_low 0) with 0 by done. destruct (Z.eqb_spec 0 (to_low c2)); [lia|]. split; [lia|done].
  - destruct (Z.eqb_spec (to_low c) (to_low c2)) as [E|E]; [|split; [lia|by intros [=]]].
    rewrite E. destruct (Z.eqb_spec (to_low c2) 0); [done|].
    rewrite IH by done. split; [by intros ->|by intros [=]].
Qed.

Lemma first_param_cons c s : first_param (c :: s) = if c =? AMP then [] else c :: first_param s.
Proof.
  unfold first_param. cbn [ngx_strlchr]. destruct (c =? AMP); [done|].
  by destruct (ngx_strlchr s AMP).
Qed.

Lemma params_cons s : exists qs, params s = first_param s :: qs.
Proof.
  induction s as [|c s [qs IH]]; [by exists []|]. rewrite first_param_cons. cbn [params].
  destruct (c =? AMP); [by exists (params s)|]. rewrite IH. by exists qs.
Qed.

Section Named.
Context (name : bytes) (Hne : name <> []) (Hnul : nul_free name) (Hamp : AMP ∉ name).

Lemma param_value_nil : param_value name [] = None.
Proof. unfold param_value. by destruct name. Qed.

(** The scan looks at the parameters in turn. *)
Lemma scan_params s :
  arg_scan name true s = first_some (param_value name) (params s) /\
  arg_scan name false s = first_some (param_value name) (tl (params s)).
Proof.
  induction s as [|c s [IH1 IH2]]; [cbn; by rewrite param_value_nil|].
  destruct (params_cons (c :: s)) as [qs E]. destruct (params_cons s) as [qs' E'].
  assert (Hf : arg_scan name (c =? AMP) s = first_some (param_value name) (tl (params (c :: s)))).
  { cbn [params]. destruct (c =? AMP); [done|]. by rewrite IH2, E'. }
  cbn [arg_scan]. rewrite Hf. split; [|done]. by rewrite E.
Qed.

(** The search finds the first place where the name is followed by anything. *)
Definition name_at (s : bytes) : bool :=
  bool_decide (to_low <$> take (length name) s = to_low <$> name) && (length name <? length s)%nat.

Abbreviation search s := (ngx_strlcasestrn s (blen s - 1) name (length name - 1)).

Lemma search_cons c s : search (c :: s) = if name_at (c :: s) then Some 0%nat else S <$> search s.
Proof.
  unfold name_at. destruct name as [|c2 n]; [done|]. unfold ngx_strlcasestrn.
  apply Forall_cons in Hnul as [_ Hn].
  cbn [length hd tl strlcasestrn_loop take fmap list_fmap]. rewrite Nat.sub_succ, Nat.sub_0_r, blen_cons.
  destruct (Z.leb_spec (1 + blen s - 1 - Z.of_nat (length n)) 0) as [Hl|Hl].
  - destruct (Nat.ltb_spec (S (length n)) (S (length s))) as [Hlt|_]; [unfold blen in Hl; lia|].
    rewrite andb_false_r. destruct s; [done|]. cbn [strlcasestrn_loop].
    by destruct (Z.leb_spec (blen (z :: s) - 1 - Z.of_nat (length n)) 0); [|lia].
  - destruct (Nat.ltb_spec (S (length n)) (S (length s))) as [_|Hlt]; [|unfold blen in Hl; lia].
    rewrite andb_true_r.
    replace (1 + blen s - 1 - Z.of_nat (length n) - 1) with (blen s - 1 - Z.of_nat (length n)) by lia.
    replace (bool_decide (to_low c :: (to_low <$> take (length n) s) = to_low c2 :: (to_low <$> n)))
      with ((to_low c =? to_low c2) && (ngx_strncasecmp s n (length n) =? 0)); [done|].
    apply eq_bool_prop_intro. rewrite bool_decide_spec, andb_True, !Is_true_true, !Z.eqb_eq, strncasecmp_zero by done.
    split; [by intros [-> ->]|by intros [=]].
Qed.

(** Case does not turn another byte into one below the letters. *)
Lemma to_low_below c k : to_low c = k -> 0 <= k < 64 -> c = k.
Proof.
  unfold to_low. destruct (_ && _)%bool eqn:E; [|done].
  apply andb_prop in E as [E1 E2]. apply Z.leb_le in E1, E2.
  change (ch "A") with 65 in E1. change (ch "Z") with 90 in E2. intros H Hk.
  assert (Hb : Z.testbit (Z.lor c 32) 6 = false).
  { rewrite H, Z.testbit_odd, Z.shiftr_div_pow2 by done. by replace (k / 2 ^ 6) with 0 by dlia. }
  rewrite Z.lor_spec, Z.testbit_odd, Z.shiftr_div_pow2 in Hb by done.
  replace (c / 2 ^ 6) with 1 in Hb by dlia. done.
Qed.

Lemma to_low_amp c : to_low c = AMP -> c = AMP.
Proof. intros H. by apply to_low_below. Qed.

(** Where the name stands, it is the beginning of the first parameter. *)
Lemma first_param_name n s :
  AMP ∉ n -> to_low <$> take (length n) s = to_low <$> n ->
  first_param s = take (length n) s ++ first_param (drop (length n) s).
Proof.
  revert s; induction n as [|c n IH]; intros s Ha E; [done|].
  destruct s as [|c' s]; [done|]. cbn [length take drop fmap list_fmap] in *. injection E as Ec E.
  rewrite first_param_cons. destruct (Z.eqb_spec c' AMP) as [->|_].
  - destruct Ha. apply elem_of_cons. left. symmetry. apply to_low_amp. by rewrite <- Ec.
  - rewrite (IH s); [done| |done]. intros ?. apply Ha. apply elem_of_cons. by right.
Qed.

Lemma first_param_hd s : (nth 0 (first_param s) 0 =? ch "=") = (nth 0 s 0 =? ch "=").
Proof.
  destruct s as [|c s]; [done|]. rewrite first_param_cons. by destruct (Z.eqb_spec c AMP) as [->|_].
Qed.

Lemma first_param_prefix s : exists r, s = first_param s ++ r.
Proof.
  induction s as [|c s [r IH]]; [by exists []|]. rewrite first_param_cons.
  destruct (c =? AMP); [by exists (c :: s)|]. exists r. cbn. by rewrite <- IH.
Qed.

(** The test the loop makes at a place the search found. *)
Lemma param_value_found s :
  name_at s = true ->
  param_value name (first_param s) =
  if nth (length name) s 0 =? ch "=" then Some (drop (length name + 1) (first_param s)) else None.
Proof.
  unfold name_at. rewrite andb_true_iff, bool_decide_eq_true, Nat.ltb_lt. intros [E Hl].
  unfold param_value. rewrite (first_param_name name s) by done.
  assert (Ht : length (take (length name) s) = length name) by (rewrite length_take; lia).
  rewrite take_app_le, take_ge, E, bool_decide_eq_true_2 by (done || lia). cbn [andb].
  rewrite app_nth2 by lia. rewrite Ht, Nat.sub_diag, first_param_hd.
  replace (nth 0 (drop (length name) s) 0) with (nth (length name) s 0); [done|].
  rewrite <- (take_drop (length name) s) at 1. rewrite app_nth2 by lia. by rewrite Ht, Nat.sub_diag.
Qed.

Lemma param_value_absent s : name_at s = false -> param_value name (first_param s) = None.
Proof.
  intros Hf. unfold param_value. destruct (_ && _)%bool eqn:E; [|done]. exfalso.
  apply andb_prop in E as [E1 E2]. apply bool_decide_eq_true in E1. apply Z.eqb_eq in E2.
  assert (Hl : (length name < length (first_param s))%nat).
  { destruct (Nat.lt_ge_cases (length name) (length (first_param s))); [done|]. by rewrite nth_overflow in E2. }
  destruct (first_param_prefix s) as [r Hr].
  assert (E : name_at s = true); [|congruence]. unfold name_at. rewrite Hr, length_app.
  rewrite take_app_le, E1, bool_decide_eq_true_2 by (done || lia). apply Nat.ltb_lt. lia.
Qed.

(** Places without the name do not matter to the scan. *)
Lemma scan_search b s :
  match search s with
  | None => arg_scan name b s = None
  | Some k => (k < length s)%nat /\ name_at (drop k s) = true /\
              arg_scan name b s = arg_scan name (if decide (k = 0%nat) then b else nth (k - 1) s 0 =? AMP) (drop k s)
  end.
Proof.
  revert b; induction s as [|c s IH]; intros b; [done|]. rewrite search_cons.
  destruct (name_at (c :: s)) eqn:E; [cbn [drop length]; split_and!; [lia|done|by case_decide]|].
  assert (Hs : arg_scan name b (c :: s) = arg_scan name (c =? AMP) s).
  { cbn [arg_scan]. rewrite param_value_absent by done. by destruct b. }
  specialize (IH (c =? AMP)). destruct (search s) as [k|]; cbn [fmap option_fmap option_map]; [|by rewrite Hs].
  destruct IH as (Hk & Hat & IH). cbn [drop length]. split_and!; [lia|done|]. rewrite Hs, IH.
  destruct k as [|k]; [done|]. case_decide; [lia|]. case_decide; [lia|]. cbn [nth]. by rewrite !Nat.sub_succ, !Nat.sub_0_r.
Qed.

(** May a parameter start at [p]? *)
Definition starts (args : bytes) (p : nat) : bool := (p =? 0)%nat || (nth (p - 1) args 0 =? AMP).

Lemma starts_shift args p k :
  starts args (p + k) = if decide (k = 0%nat) then starts args p else nth (k - 1) (drop p args) 0 =? AMP.
Proof.
  case_decide as H; [by rewrite H, Nat.add_0_r|]. unfold starts.
  destruct (Nat.eqb_spec (p + k) 0); [lia|]. rewrite nth_skipn. cbn [orb]. do 2 f_equal. lia.
Qed.

(** The value ends where the first parameter ends. *)
Lemma value_slice args q :
  take (match ngx_strlchr (drop q args) AMP with Some j => q + j | None => length args end
        - (q + length name + 1)) (drop (q + length name + 1) args)
  = drop (length name + 1) (first_param (drop q args)).
Proof.
  unfold first_param. replace (q + length name + 1)%nat with (q + (length name + 1))%nat by lia.
  rewrite <- drop_drop. destruct (ngx_strlchr (drop q args) AMP) as [j|].
  - rewrite skipn_firstn_comm. f_equal. lia.
  - apply take_ge. rewrite !length_drop. lia.
Qed.

Lemma loop_scan fuel args p :
  (length args - p < fuel)%nat ->
  http_arg_loop fuel args name p = arg_scan name (starts args p) (drop p args).
Proof.
  revert p; induction fuel as [|fuel IH]; intros p Hf; [lia|]. cbn [http_arg_loop].
  destruct (Nat.leb_spec (length args) p) as [Hp|Hp]; [by rewrite drop_ge by done|].
  replace (blen args - 1 - Z.of_nat p) with (blen (drop p args) - 1)
    by (unfold blen; rewrite length_drop; lia).
  pose proof (scan_search (starts args p) (drop p args)) as Hs.
  destruct (search (drop p args)) as [k|]; [|done]. destruct Hs as (Hk & Hat & ->).
  rewrite drop_drop in *. rewrite <- starts_shift. rewrite length_drop in Hk.
  set (q := (p + k)%nat) in *. cbv zeta. fold (starts args q).
  destruct (drop q args) as [|c s'] eqn:Ed; [apply (f_equal length) in Ed; rewrite length_drop in Ed; cbn in Ed; lia|].
  rewrite <- Ed in *.
  assert (Hn : arg_scan name (c =? AMP) s' = http_arg_loop fuel args name (q + 1)).
  { rewrite IH by lia. replace (drop (q + 1) args) with s' by (rewrite <- drop_drop, Ed; done).
    f_equal. unfold starts. destruct (Nat.eqb_spec (q + 1) 0); [lia|]. rewrite Nat.add_sub.
    replace (nth q args 0) with (nth 0 (drop q args) 0) by (rewrite nth_skipn; f_equal; lia). by rewrite Ed. }
  rewrite (value_slice args q).
  rewrite Ed at 2. cbn [arg_scan]. rewrite Hn, <- Ed, (param_value_found _ Hat), nth_skipn.
  destruct (starts args q); [|done]. cbn [andb]. by destruct (nth (q + length name) args 0 =? ch "=").
Qed.

Lemma http_arg_params args : ngx_http_arg args name = first_some (param_value name) (params args).
Proof.
  unfold ngx_http_arg. destruct (Z.eqb_spec (blen args) 0) as [E|E].
  - destruct args; [cbn; by rewrite param_value_nil|]. rewrite blen_cons in E. pose proof (blen_nonneg args). lia.
  - rewrite loop_scan by lia. rewrite drop_0. apply scan_params.
Qed.

End Named.

(** [ngx_http_arg] finds a parameter of the query string: it answers the
    value of the first of the [&]-separated parameters that begins with the
    name, in any case, and an equals sign, and [NGX_DECLINED] when there is
    none.  A name inside another name or inside a value is not taken for it. *)
Theorem ngx_http_arg_spec name args :
  name <> [] -> nul_free name -> AMP ∉ name ->
  ngx_http_arg args name = first_some (param_value name) (params args).
Proof. intros Hn Hz Ha. by apply http_arg_params. Qed.

Lemma ngx_http_arg_spec_witness :
  ngx_http_arg (s2b "a=format=csv&Format=json&format=html") (s2b "format") = Some (s2b "json").
Proof.
  rewrite (ngx_http_arg_spec (s2b "format") (s2b "a=format=csv&Format=json&format=html"));
    [reflexivity|discriminate| |].
  - unfold nul_free. repeat constructor.
  - intros H. repeat (apply elem_of_cons in H as [H|H]; [discriminate|]). by apply elem_of_nil in H.
Defined.
