(* ===== verification/StatusPage.v ===== *)
(** * Status pages

    The two pages that show the state of the peers: [ngx_healthcheck_status.c]
    (directive [healthcheck_status], peers of both modules) in [Module Status],
    and the one of the http module (directive [check_status]) in
    [Module HttpStatus].  What they share (directive, arguments of the request,
    handler) is the section [Page], with the formats as its argument.

    A format function appends to a buffer with a sequence of [ngx_snprintf]
    calls; here it gives the list of these calls and [print] performs them.
    The peers are walked several times.  Other workers change the shared
    memory meanwhile: what a function sees of the peers is given for each walk
    by its number ([walks]). *)

From S2P Require Import Prelude NgxString StatusLine CheckTypes CheckProto CheckCore.
From S2P Require Import HttpArgs CheckConf.

(** ** Text *)

(** A C string literal.  A backquote stands for the double quote. *)
Definition lit (s : string) : bytes := (fun c => if c =? ch "`" then 34 else c) <$> s2b s.

(** Adjacent literals that each end in a newline. *)
Definition lines (l : list string) : bytes := concat ((fun s => lit s ++ [LF]) <$> l).

(** ** The buffer *)

(** The format and the arguments of one
    [b->last = ngx_snprintf(b->last, b->end - b->last, fmt, ...)]. *)
Definition call : Type := bytes * list fmt_arg.

(** The calls in order; [b] is what is between [b->pos] and [b->last]. *)
Fixpoint print (size : nat) (calls : list call) (b : bytes) : option bytes :=
  match calls with
  | [] => Some b
  | (fmt, args) :: calls' =>
    out ← ngx_snprintf (size - length b) fmt args; print size calls' (b ++ out)
  end.

(** [#define ngx_align(d, a)] *)
Definition ngx_align (d a : Z) : Z := Z.land (u64 (d + (a - 1))) (Z.lnot (a - 1)).

(** A quarter of a page for each of [n] records. *)
Definition buffer_size (n pagesize : Z) : Z :=
  u64 (ngx_align (u64 (n * pagesize) / 4) pagesize + pagesize).

(** ** Peers *)

(** [peer[i]] and [*peer[i].shm] *)
Definition row : Type := nat * cell.

Definition row_of (ps : ngx_upstream_check_peers_t) (i : nat) (p : ngx_upstream_check_peer_t) : option row :=
  k ← shm p; sh ← peers_shm ps; s ← sh_peers sh !! k; Some (i, (p, s)).

(** One walk over [peers->peers]; [None] is a null dereference. *)
Definition walk (ps : ngx_upstream_check_peers_t) : option (list row) :=
  mapM (fun ip => row_of ps (fst ip) (snd ip)) (imap pair (peers ps)).

(** The peers context at the successive walks. *)
Definition walks : Type := nat -> ngx_upstream_check_peers_t.

Definition is_down (r : row) : bool := negb (down (snd (snd r)) =? 0).

Definition NGX_CHECK_STATUS_DOWN : Z := 1.
Definition NGX_CHECK_STATUS_UP : Z := 2.

(** The condition under which the loops do not [continue]. *)
Definition shown (flag : Z) (r : row) : bool :=
  if negb (Z.land flag NGX_CHECK_STATUS_DOWN =? 0) then is_down r
  else if negb (Z.land flag NGX_CHECK_STATUS_UP =? 0) then negb (is_down r)
  else true.

(** [count++] for every element. *)
Definition count {A} (l : list A) : Z := Z.of_nat (length l).

Definition shown_rows (flag : Z) (l : list row) : list row := List.filter (shown flag) l.

Definition up_rows (l : list row) : list row := List.filter (fun r => negb (is_down r)) l.

(** What is printed of a peer. *)
Definition a_index (r : row) : fmt_arg := AInt (Z.of_nat (fst r)).
Definition a_upstream (r : row) : fmt_arg := AStr (upstream_name (fst (snd r))).
Definition a_name (r : row) : fmt_arg := AStr (addr_name (peer_addr (fst (snd r)))).
Definition a_status (r : row) : fmt_arg := ACstr (lit (if is_down r then "down" else "up")).
Definition a_rise (r : row) : fmt_arg := AInt (rise_count (snd (snd r))).
Definition a_fall (r : row) : fmt_arg := AInt (fall_count (snd (snd r))).
Definition a_port (r : row) : fmt_arg := AInt (port (conf (fst (snd r)))).
Definition a_color (r : row) : fmt_arg := ACstr (lit (if is_down r then " bgcolor=`#FF0000`" else "")).

(** [&peer[i].conf->check_type_conf->name] *)
Definition a_check_type (r : row) : option fmt_arg :=
  t ← check_type (conf (fst (snd r))); Some (AStr (name t)).

(** ** Lines of a page *)

Definition html_row (r : row) : option call :=
  t ← a_check_type r;
  Some (lines ["  <tr%s>"; "    <td>%ui</td>"; "    <td>%V</td>"; "    <td>%V</td>"; "    <td>%s</td>";
               "    <td>%ui</td>"; "    <td>%ui</td>"; "    <td>%V</td>"; "    <td>%ui</td>"; "  </tr>"],
        [a_color r; a_index r; a_upstream r; a_name r; a_status r; a_rise r; a_fall r; t; a_port r]).

Definition html_table_head : bytes :=
  lines ["<table style=`background-color:white` cellspacing=`0`        cellpadding=`3` border=`1`>";
         "  <tr bgcolor=`#C0C0C0`>"; "    <th>Index</th>"; "    <th>Upstream</th>"; "    <th>Name</th>";
         "    <th>Status</th>"; "    <th>Rise counts</th>"; "    <th>Fall counts</th>";
         "    <th>Check type</th>"; "    <th>Check port</th>"; "  </tr>"].

(** [sep] is the comma, or nothing. *)
Definition json_row (sep : bytes) (r : row) : option call :=
  t ← a_check_type r;
  Some (lit "    {`index`: %ui, `upstream`: `%V`, `name`: `%V`, `status`: `%s`, `rise`: %ui, `fall`: %ui, `type`: `%V`, `port`: %ui}%s"
          ++ [LF],
        [a_index r; a_upstream r; a_name r; a_status r; a_rise r; a_fall r; t; a_port r; ACstr sep]).

(** The loop that prints the listed peers. *)
Definition print_rows (line : row -> option call) (flag : Z) (l : list row) : option (list call) :=
  mapM line (shown_rows flag l).

(** ** Requests *)

Inductive method_t : Set := NGX_HTTP_GET | NGX_HTTP_HEAD | method_other.

Record request := mk_request { rq_method : method_t; rq_args : bytes }.

Definition NGX_HTTP_OK : Z := 200.
Definition NGX_HTTP_NOT_ALLOWED : Z := 405.
Definition NGX_HTTP_INTERNAL_SERVER_ERROR : Z := 500.

(** What the http framework answers: [ngx_http_discard_request_body], the
    allocations of the context and of the buffer, the return code of each
    [ngx_http_send_header] with [r->header_only] after it, and
    [ngx_http_output_filter]. *)
Record framework := mk_framework {
  fw_discard : Z; fw_ctx : bool; fw_buf : bool;
  fw_head : Z * bool; fw_header : Z * bool; fw_output : Z
}.

(** A header that was sent. *)
Record header := mk_header { h_status : Z; h_type : bytes; h_length : option Z }.

(** The headers and the body handed to the output filter, and the return code. *)
Record answer := mk_answer { an_rc : Z; an_headers : list header; an_body : option bytes }.

Section Page.
Context {output_pt : Set}.

Record ngx_check_status_conf_t := mk_status_conf {
  sc_format : bytes;
  sc_content_type : bytes;
  sc_output : output_pt
}.

(** [ngx_check_status_formats] without the null entry at its end. *)
Context (ngx_check_status_formats : list ngx_check_status_conf_t).

Fixpoint get_format (l : list ngx_check_status_conf_t) (str : bytes) : option ngx_check_status_conf_t :=
  match l with
  | [] => None
  | f :: l' =>
    if negb (blen str =? blen (sc_format f)) then get_format l' str
    else if ngx_strncmp str (sc_format f) (length str) =? 0 then Some f
    else get_format l' str
  end.

Definition get_check_status_format_conf : bytes -> option ngx_check_status_conf_t :=
  get_format ngx_check_status_formats.

(** *** The directive *)

(** The part of a location the module sets: [clcf->handler] and [uclcf->format]. *)
Record check_loc_conf_t := mk_loc_conf {
  lc_handler : bool;
  lc_format : cptr ngx_check_status_conf_t
}.

(** [ok] tells whether the memory is there. *)
Definition check_create_loc_conf (ok : bool) : option check_loc_conf_t :=
  if ok then Some (mk_loc_conf false Unset) else None.

(** [args] are the arguments after the directive's name. *)
Definition check_status (args : list bytes) (lc : check_loc_conf_t) : conf_rc * check_loc_conf_t :=
  match args with
  | [v] =>
    match get_check_status_format_conf v with
    | Some f => (NGX_CONF_OK, mk_loc_conf true (Ptr f))
    | None => (NGX_CONF_ERROR, mk_loc_conf true Null)
    end
  | _ => (NGX_CONF_OK, mk_loc_conf true (lc_format lc))
  end.

(** [ngx_conf_merge_ptr_value(conf->format, prev->format, ...("html"))] *)
Definition check_merge_loc_conf (prev lc : check_loc_conf_t) : check_loc_conf_t :=
  if is_unset (lc_format lc) then
    mk_loc_conf (lc_handler lc)
      (if is_unset (lc_format prev) then
         match get_check_status_format_conf (s2b "html") with Some f => Ptr f | None => Null end
       else lc_format prev)
  else lc.

(** *** The arguments *)

Record status_ctx_t := mk_status_ctx {
  ctx_format : option ngx_check_status_conf_t;
  ctx_flag : Z
}.

(** The commands change the context also when they answer [NGX_ERROR], which
    is only logged. *)
Definition status_command_format (ctx : status_ctx_t) (value : bytes) : status_ctx_t :=
  mk_status_ctx (get_check_status_format_conf value) (ctx_flag ctx).

Definition status_command_status (ctx : status_ctx_t) (value : bytes) : status_ctx_t :=
  if (blen value =? 4) && (ngx_strncasecmp value (s2b "down") (length value) =? 0) then
    mk_status_ctx (ctx_format ctx) (Z.lor (ctx_flag ctx) NGX_CHECK_STATUS_DOWN)
  else if (blen value =? 2) && (ngx_strncasecmp value (s2b "up") (length value) =? 0) then
    mk_status_ctx (ctx_format ctx) (Z.lor (ctx_flag ctx) NGX_CHECK_STATUS_UP)
  else ctx.

(** [ngx_check_status_commands] *)
Definition ngx_check_status_commands : list (bytes * (status_ctx_t -> bytes -> status_ctx_t)) :=
  [(s2b "format", status_command_format); (s2b "status", status_command_status)].

Definition status_parse_args (args : bytes) (ctx : status_ctx_t) : status_ctx_t :=
  if blen args =? 0 then ctx
  else fold_left (fun ctx cmd =>
         match ngx_http_arg args (fst cmd) with
         | Some value => snd cmd ctx value
         | None => ctx
         end) ngx_check_status_commands ctx.

(** *** The handler *)

(** Does the handler return after this [ngx_http_send_header]? *)
Definition stop_after (rc : Z) (header_only : bool) : bool := (rc =? -1) || (0 <? rc) || header_only.

(** [size] is the computation of the size of the buffer: a null dereference,
    an answer without peers, or the size; [output] are the format functions.
    [None] is a null dereference. *)
Definition status_handler (size : option (option Z)) (output : output_pt -> Z -> option (list call))
    (lc : check_loc_conf_t) (fw : framework) (r : request) : option answer :=
  match rq_method r with
  | method_other => Some (mk_answer NGX_HTTP_NOT_ALLOWED [] None)
  | m =>
    if negb (fw_discard fw =? 0) then Some (mk_answer (fw_discard fw) [] None)
    else if negb (fw_ctx fw) then Some (mk_answer NGX_HTTP_INTERNAL_SERVER_ERROR [] None)
    else
      let ctx := status_parse_args (rq_args r) (mk_status_ctx None 0) in
      f ← match ctx_format ctx with
          | Some f => Some f
          | None => match lc_format lc with Ptr f => Some f | _ => None end
          end;
      let '(done, hs) :=
        match m with
        | NGX_HTTP_HEAD =>
          (stop_after (fst (fw_head fw)) (snd (fw_head fw)), [mk_header NGX_HTTP_OK (sc_content_type f) None])
        | _ => (false, [])
        end in
      if done : bool then Some (mk_answer (fst (fw_head fw)) hs None)
      else
        n ← size;
        match n with
        | None => Some (mk_answer NGX_HTTP_INTERNAL_SERVER_ERROR hs None)
        | Some n =>
          if negb (fw_buf fw) then Some (mk_answer NGX_HTTP_INTERNAL_SERVER_ERROR hs None)
          else
            calls ← output (sc_output f) (ctx_flag ctx);
            b ← print (Z.to_nat n) calls [];
            let hs := hs ++ [mk_header NGX_HTTP_OK (sc_content_type f) (Some (blen b))] in
            if stop_after (fst (fw_header fw)) (snd (fw_header fw) || (blen b =? 0))
            then Some (mk_answer (fst (fw_header fw)) hs None)
            else Some (mk_answer (fw_output fw) hs (Some b))
        end
  end.

End Page.

Arguments ngx_check_status_conf_t : clear implicits.
Arguments check_loc_conf_t : clear implicits.
Arguments status_ctx_t : clear implicits.

(** ** [ngx_healthcheck_status.c] *)
Module Status.

Inductive output_pt : Set := html_format | csv_format | json_format | prometheus_format.

Definition ngx_check_status_formats : list (ngx_check_status_conf_t output_pt) :=
  [mk_status_conf (s2b "html") (s2b "text/html") html_format;
   mk_status_conf (s2b "csv") (s2b "text/plain") csv_format;
   mk_status_conf (s2b "json") (s2b "application/json") json_format;
   mk_status_conf (s2b "prometheus") (s2b "text/plain") prometheus_format].

(** [http_peers_ctx] and [stream_peers_ctx], which is null without a stream
    upstream, [ngx_stream_upstream_check_shm_generation], and [flag]. *)
Section Formats.
Context (http : walks) (stream : option walks) (generation flag : Z).

(** A walk over the stream peers, if there are any. *)
Definition stream_walk (k : nat) : option (list row) :=
  match stream with None => Some [] | Some w => walk (w k) end.

Definition html_counts (title : string) (l : list row) : call :=
  let up := count (up_rows l) in
  (lit title ++ lines ["</h2> up: %ui down: %ui total: %ui"] ++ html_table_head,
   [AInt up; AInt (count l - up); AInt (count l)]).

Definition status_html_format : option (list call) :=
  ls ← stream_walk 0;
  lh ← walk (http 1%nat);
  lh' ← walk (http 2%nat);
  http_rows ← print_rows html_row flag lh';
  ls' ← stream_walk 3;
  stream_rows ← print_rows html_row flag ls';
  Some ([(lines ["<!DOCTYPE html PUBLIC `-//W3C//DTD XHTML 1.0 Strict//EN";
                 "`http://www.w3.org/TR/xhtml1/DTD/xhtml1-strict.dtd`>";
                 "<html xmlns=`http://www.w3.org/1999/xhtml`>"; "<head>";
                 "  <title>Nginx upstream status checker</title>"; "</head>"; "<body>";
                 "<h1  align=`center`>Nginx upstream status monitor</h1>"], [])]
        ++ [html_counts "<h2>http upstream servers " lh] ++ http_rows ++ [(lines ["</table>"], [])]
        ++ [html_counts "<h2>stream upstream servers " ls] ++ stream_rows
        ++ [(lines ["</table>"; "<h2>total servers(check enabled): %ui </h2>"; "</body></html>"],
             [AInt (count ls + count lh)])]).

Definition csv_row (upstream_type : string) (r : row) : option call :=
  t ← a_check_type r;
  Some (lit "%ui," ++ lit upstream_type ++ lit ",%V,%V,%ui,%ui,%V,%ui,%s" ++ [LF],
        [a_index r; a_upstream r; a_name r; a_rise r; a_fall r; t; a_port r; a_status r]).

Definition status_csv_format : option (list call) :=
  lh ← walk (http 0%nat);
  http_rows ← print_rows (csv_row "http") flag lh;
  ls ← stream_walk 1;
  stream_rows ← print_rows (csv_row "stream") flag ls;
  Some ([(lines ["index,upstream_type,upstream_name,host,rise,fall,check_type,check_port,status"], [])]
        ++ http_rows ++ stream_rows).

(** [count++] and the comma unless [count] is the number of listed peers
    counted before. *)
Fixpoint json_rows (total n : Z) (l : list row) : option (list call) :=
  match l with
  | [] => Some []
  | r :: l' =>
    let n := u64 (n + 1) in
    c ← json_row (if n =? total then [] else lit ",") r;
    cs ← json_rows total n l';
    Some (c :: cs)
  end.

Definition status_json_format : option (list call) :=
  ls ← stream_walk 0;
  let stream_count := count (shown_rows flag ls) in
  lh ← walk (http 1%nat);
  let http_count := count (shown_rows flag lh) in
  lh' ← walk (http 2%nat);
  http_rows ← json_rows http_count 0 (shown_rows flag lh');
  ls' ← stream_walk 3;
  stream_rows ← json_rows stream_count 0 (shown_rows flag ls');
  Some ([(lines ["{`servers`: {"; "  `total`: %ui,"; "  `generation`: %ui,"; "  `http`: ["],
          [AInt (stream_count + http_count); AInt generation])]
        ++ http_rows ++ [(lines ["  ],"; "  `stream`: ["], [])]
        ++ stream_rows ++ [(lines ["  ]"], []); (lines ["}}"], [])]).

(** [upstream_type] and [upstream_peers]: a walk over both, with the number of
    the walk. *)
Definition both_walks (k : nat) : option (list (bytes * list row)) :=
  lh ← walk (http k);
  ls ← stream_walk k;
  Some [(s2b "http", lh); (s2b "stream", ls)].

(** The lines of one metric. *)
Definition metric_rows (line : bytes -> row -> option call) (l : list (bytes * list row)) : option (list call) :=
  (@concat call) <$> mapM (fun tl => print_rows (line (fst tl)) flag (snd tl)) l.

Definition counter_row (metric : string) (v : row -> fmt_arg) (upstream_type : bytes) (r : row) : option call :=
  t ← a_check_type r;
  Some (lit metric ++ lit "{index=`%ui`,upstream_type=`%V`,upstream=`%V`,name=`%V`,status=`%s`,type=`%V`,port=`%ui`} %ui"
          ++ [LF],
        [a_index r; AStr upstream_type; a_upstream r; a_name r; a_status r; t; a_port r; v r]).

Definition active_row (upstream_type : bytes) (r : row) : option call :=
  t ← a_check_type r;
  Some (lit "nginx_upstream_server_active{index=`%ui`,upstream_type=`%V`,upstream=`%V`,name=`%V`,type=`%V`,port=`%ui`} %ui"
          ++ [LF],
        [a_index r; AStr upstream_type; a_upstream r; a_name r; t; a_port r; AInt (if is_down r then 0 else 1)]).

Definition status_prometheus_format : option (list call) :=
  l ← both_walks 0;
  let listed := shown_rows flag (concat (snd <$> l)) in
  l1 ← both_walks 1;
  rise_rows ← metric_rows (counter_row "nginx_upstream_server_rise" a_rise) l1;
  l2 ← both_walks 2;
  fall_rows ← metric_rows (counter_row "nginx_upstream_server_fall" a_fall) l2;
  l3 ← both_walks 3;
  active_rows ← metric_rows active_row l3;
  Some ([(lines ["# HELP nginx_upstream_count_total Nginx total number of servers";
                 "# TYPE nginx_upstream_count_total gauge"; "nginx_upstream_count_total %ui";
                 "# HELP nginx_upstream_count_up Nginx total number of servers that are UP";
                 "# TYPE nginx_upstream_count_up gauge"; "nginx_upstream_count_up %ui";
                 "# HELP nginx_upstream_count_down Nginx total number of servers that are DOWN";
                 "# TYPE nginx_upstream_count_down gauge"; "nginx_upstream_count_down %ui";
                 "# HELP nginx_upstream_count_generation Nginx generation";
                 "# TYPE nginx_upstream_count_generation gauge"; "nginx_upstream_count_generation %ui"],
          [AInt (count listed); AInt (count (up_rows listed));
           AInt (count (List.filter is_down listed)); AInt generation])]
        ++ [(lines ["# HELP nginx_upstream_server_rise Nginx rise counter";
                    "# TYPE nginx_upstream_server_rise counter"], [])] ++ rise_rows
        ++ [(lines ["# HELP nginx_upstream_server_fall Nginx fall counter";
                    "# TYPE nginx_upstream_server_fall counter"], [])] ++ fall_rows
        ++ [(lines ["# HELP nginx_upstream_server_active Nginx active 1 for UP / 0 for DOWN";
                    "# TYPE nginx_upstream_server_active gauge"], [])] ++ active_rows).

Definition output (f : output_pt) : option (list call) :=
  match f with
  | html_format => status_html_format
  | csv_format => status_csv_format
  | json_format => status_json_format
  | prometheus_format => status_prometheus_format
  end.

End Formats.

Definition ngx_http_get_check_status_format_conf := get_check_status_format_conf ngx_check_status_formats.
Definition ngx_upstream_check_create_loc_conf : bool -> option (check_loc_conf_t output_pt) := check_create_loc_conf.
Definition ngx_upstream_check_merge_loc_conf := check_merge_loc_conf ngx_check_status_formats.
Definition ngx_upstream_check_status := check_status ngx_check_status_formats.
Definition ngx_upstream_check_status_command_format := status_command_format ngx_check_status_formats.
Definition ngx_upstream_check_status_command_status := status_command_status (output_pt := output_pt).
Definition ngx_upstream_check_status_parse_args := status_parse_args ngx_check_status_formats.

(** The size of the buffer; [http_peers_ctx] is not checked for null. *)
Definition page_size (pagesize : Z) (http stream : option walks) : option (option Z) :=
  h ← http;
  let nh := count (peers (h 0%nat)) in
  Some (Some (buffer_size (match stream with None => nh | Some s => count (peers (s 0%nat)) + nh end) pagesize)).

Definition ngx_upstream_check_status_handler (pagesize generation : Z) (http stream : option walks)
    (lc : check_loc_conf_t output_pt) (fw : framework) (r : request) : option answer :=
  status_handler ngx_check_status_formats (page_size pagesize http stream)
    (fun f flag => h ← http; output h stream generation flag f) lc fw r.

End Status.

(** ** The page of the http module *)
Module HttpStatus.

Inductive output_pt : Set := html_format | csv_format | json_format.

Definition ngx_check_status_formats : list (ngx_check_status_conf_t output_pt) :=
  [mk_status_conf (s2b "html") (s2b "text/html") html_format;
   mk_status_conf (s2b "csv") (s2b "text/plain") csv_format;
   mk_status_conf (s2b "json") (s2b "application/json") json_format].

(** [peers], [ngx_http_upstream_check_shm_generation] and [flag]. *)
Section Formats.
Context (http : walks) (generation flag : Z).

Definition status_html_format : option (list call) :=
  l ← walk (http 0%nat);
  l' ← walk (http 1%nat);
  rows ← print_rows html_row flag l';
  Some ([(lines ["<!DOCTYPE html PUBLIC `-//W3C//DTD XHTML 1.0 Strict//EN";
                 "`http://www.w3.org/TR/xhtml1/DTD/xhtml1-strict.dtd`>";
                 "<html xmlns=`http://www.w3.org/1999/xhtml`>"; "<head>";
                 "  <title>Nginx http upstream check status</title>"; "</head>"; "<body>";
                 "<h1>Nginx http upstream check status</h1>";
                 "<h2>Check upstream server number: %ui, generation: %ui</h2>"] ++ html_table_head,
          [AInt (count (shown_rows flag l)); AInt generation])]
        ++ rows ++ [(lines ["</table>"; "</body>"; "</html>"], [])]).

Definition csv_row (r : row) : option call :=
  t ← a_check_type r;
  Some (lit "%ui,%V,%V,%s,%ui,%ui,%V,%ui" ++ [LF],
        [a_index r; a_upstream r; a_name r; a_status r; a_rise r; a_fall r; t; a_port r]).

Definition status_csv_format : option (list call) :=
  l ← walk (http 0%nat); print_rows csv_row flag l.

(** The comma is left out when [i == last], the index of the last peer,
    listed or not. *)
Definition status_json_format : option (list call) :=
  l ← walk (http 0%nat);
  l' ← walk (http 1%nat);
  let last := u64 (count l' - 1) in
  rows ← print_rows (fun r => json_row (if Z.of_nat (fst r) =? last then [] else lit ",") r) flag l';
  Some ([(lines ["{`servers`: {"; "  `total`: %ui,"; "  `generation`: %ui,"; "  `server`: ["],
          [AInt (count (shown_rows flag l)); AInt generation])]
        ++ rows ++ [(lines ["  ]"], []); (lines ["}}"], [])]).

Definition output (f : output_pt) : option (list call) :=
  match f with
  | html_format => status_html_format
  | csv_format => status_csv_format
  | json_format => status_json_format
  end.

End Formats.

Definition ngx_http_get_check_status_format_conf := get_check_status_format_conf ngx_check_status_formats.
Definition ngx_http_upstream_check_create_loc_conf : bool -> option (check_loc_conf_t output_pt) := check_create_loc_conf.
Definition ngx_http_upstream_check_merge_loc_conf := check_merge_loc_conf ngx_check_status_formats.
Definition ngx_http_upstream_check_status := check_status ngx_check_status_formats.
Definition ngx_http_upstream_check_status_command_format := status_command_format ngx_check_status_formats.
Definition ngx_http_upstream_check_status_command_status := status_command_status (output_pt := output_pt).
Definition ngx_http_upstream_check_status_parse_args := status_parse_args ngx_check_status_formats.

Definition page_size (pagesize : Z) (http : option walks) : option (option Z) :=
  match http with
  | None => Some None
  | Some h => Some (Some (buffer_size (count (peers (h 0%nat))) pagesize))
  end.

Definition ngx_http_upstream_check_status_handler (pagesize generation : Z) (http : option walks)
    (lc : check_loc_conf_t output_pt) (fw : framework) (r : request) : option answer :=
  status_handler ngx_check_status_formats (page_size pagesize http)
    (fun f flag => h ← http; output h generation flag f) lc fw r.

End HttpStatus.
