(* ===== verification/PrintText.v ===== *)
(** * The text of formatted output

    The formats of the status pages use literal bytes and the conversions
    [%ui], [%V] and [%s] only.  For such a format [text] is what the call
    prints into a buffer without end; into a smaller buffer goes the beginning
    of it ([print_text]).  [fmt_cost] bounds its length. *)

From S2P Require Import Prelude NgxString StatusLine CheckTypes CheckProto CheckCore.
From S2P Require Import HttpArgs CheckConf StatusPage.

Inductive piece : Set := PByte (c : Z) | PUi | PStr | PCstr.

Fixpoint pieces (fmt : bytes) : option (list piece) :=
  match fmt with
  | [] => Some []
  | c :: fmt1 =>
    if c =? ch "%" then
      match fmt1 with
      | [] => None
      | k :: fmt2 =>
        if k =? ch "V" then cons PStr <$> pieces fmt2
        else if k =? ch "s" then cons PCstr <$> pieces fmt2
        else if k =? ch "u" then
          match fmt2 with
          | [] => None
          | i :: fmt3 => if i =? ch "i" then cons PUi <$> pieces fmt3 else None
          end
        else None
      end
    else cons (PByte c) <$> pieces fmt1
  end.

Fixpoint render (ps : list piece) (args : list fmt_arg) : option bytes :=
  match ps, args with
  | [], _ => Some []
  | PByte c :: ps', _ => cons c <$> render ps' args
  | PUi :: ps', AInt z :: args' => app (num_text (u64 z) 0) <$> render ps' args'
  | PStr :: ps', AStr v :: args' => app v <$> render ps' args'
  | PCstr :: ps', ACstr v :: args' => app v <$> render ps' args'
  | _, _ => None
  end.

Definition text (c : call) : option bytes := ps ← pieces (fst c); render ps (snd c).

(** ** Printing *)

Lemma take_app_len {A} r (v t : list A) : take r (v ++ t) = take r v ++ take (r - length (take r v)) t.
Proof. rewrite take_app, length_take. f_equal. f_equal. lia. Qed.

(** One conversion, when there is room. *)
Lemma loop_conv fuel r k v fmt args args' t :
  (forall r, fmt_conv (S r) k (mk_spec 32 0 true 0 false None) args = Some (take (S r) v, args')) ->
  (forall r, vslprintf_loop fuel r fmt args' = Some (take r t)) ->
  match fmt_conv (S r) k (mk_spec 32 0 true 0 false None) args with
  | Some (out, args3) => app out <$> vslprintf_loop fuel (S r - length out) fmt args3
  | None => None
  end = Some (take (S r) (v ++ t)).
Proof.
  intros Hc Ht. rewrite Hc, Ht. cbn [fmap option_fmap option_map]. by rewrite take_app_len.
Qed.

Lemma take_min_len {A} r (v : list A) : take (Nat.min r (length v)) v = take r v.
Proof.
  destruct (Nat.min_spec r (length v)) as [[_ ->]|[? ->]]; [done|]. by rewrite !take_ge by lia.
Qed.

Lemma loop_text fuel r fmt args ps t :
  (length fmt <= fuel)%nat -> pieces fmt = Some ps -> render ps args = Some t ->
  vslprintf_loop fuel r fmt args = Some (take r t).
Proof.
  revert r fmt args ps t; induction fuel as [|fuel IH]; intros r fmt args ps t Hf Hp Hr.
  { destruct fmt; [|cbn in Hf; lia]. destruct r; simplify_eq/=; by rewrite ?take_nil. }
  destruct fmt as [|c fmt]; [destruct r; simplify_eq/=; by rewrite ?take_nil|].
  destruct r as [|r]; [done|]. cbn [vslprintf_loop pieces length] in *.
  destruct (Z.eqb_spec c (ch "%")) as [->|Hc].
  2:{ apply fmap_Some in Hp as (ps' & Hp & ->). cbn [render] in Hr.
      apply fmap_Some in Hr as (t' & Hr & ->). rewrite Nat.sub_succ, Nat.sub_0_r.
      by rewrite (IH r fmt args ps' t') by (done || lia). }
  destruct fmt as [|k fmt]; [done|]. cbn [length] in Hf.
  destruct (Z.eqb_spec k (ch "V")) as [->|Hv]; [|destruct (Z.eqb_spec k (ch "s")) as [->|Hs];
    [|destruct (Z.eqb_spec k (ch "u")) as [->|Hu]; [|done]]].
  - apply fmap_Some in Hp as (ps' & Hp & ->). destruct args as [|[|v|] args]; try done. cbn [render] in Hr.
    apply fmap_Some in Hr as (t' & Hr & ->). apply (loop_conv fuel r (ch "V") v fmt (AStr v :: args) args t').
    + intros r'. cbn. by rewrite <- (take_min_len (S r') v).
    + intros r'. apply (IH r' fmt args ps' t'); (done || lia).
  - apply fmap_Some in Hp as (ps' & Hp & ->). destruct args as [|[| |v] args]; try done. cbn [render] in Hr.
    apply fmap_Some in Hr as (t' & Hr & ->). apply (loop_conv fuel r (ch "s") v fmt (ACstr v :: args) args t').
    + done.
    + intros r'. apply (IH r' fmt args ps' t'); (done || lia).
  - destruct fmt as [|i fmt]; [done|]. destruct (Z.eqb_spec i (ch "i")) as [->|]; [|done].
    apply fmap_Some in Hp as (ps' & Hp & ->). destruct args as [|[z| |] args]; try done. cbn [render] in Hr.
    apply fmap_Some in Hr as (t' & Hr & ->).
    change (app (ngx_sprintf_num (S r) (u64 z) 32 0 0)
              <$> vslprintf_loop fuel (S r - length (ngx_sprintf_num (S r) (u64 z) 32 0 0)) fmt args
            = Some (take (S r) (num_text (u64 z) 0 ++ t'))).
    rewrite sprintf_num_take, Nat.sub_0_l. cbn [replicate app].
    rewrite (IH _ fmt args ps' t') by (done || (cbn [length] in Hf; lia)). cbn [fmap option_fmap option_map].
    by rewrite take_app_len.
Qed.

Lemma snprintf_text r c t : text c = Some t -> ngx_snprintf r (fst c) (snd c) = Some (take r t).
Proof.
  unfold text. intros H. apply bind_Some in H as (ps & Hp & Hr). by apply (loop_text _ _ _ _ ps).
Qed.

(** The texts of a list of calls. *)
Definition texts (calls : list call) (ts : list bytes) : Prop := Forall2 (fun c t => text c = Some t) calls ts.

(** The page is the beginning of the whole text. *)
Lemma print_text size calls ts b :
  texts calls ts -> print size calls (take size b) = Some (take size (b ++ concat ts)).
Proof.
  intros H. revert b; induction H as [|[fmt args] t calls ts Ht H IH]; intros b.
  - cbn. by rewrite app_nil_r.
  - cbn [print concat].
    pose proof (snprintf_text (size - length (take size b)) _ _ Ht) as E. cbn [fst snd] in E. rewrite E.
    cbn [mbind option_bind]. rewrite <- take_app_len, app_assoc. apply IH.
Qed.

Lemma print_texts size calls ts : texts calls ts -> print size calls [] = Some (take size (concat ts)).
Proof. intros H. rewrite <- (take_nil size), <- (app_nil_l (concat ts)). by apply print_text. Qed.

(** ** Lengths *)

Definition piece_cost (p : piece) : nat := match p with PByte _ => 1 | PUi => 20 | _ => 0 end.

(** Literal bytes, and 20 for each number. *)
Definition fmt_cost (fmt : bytes) : option nat := (fun ps => sum_list_with piece_cost ps) <$> pieces fmt.

Definition arg_cost (a : fmt_arg) : nat := match a with AInt _ => 0 | AStr s | ACstr s => length s end.

Lemma length_render ps args t :
  render ps args = Some t -> (length t <= sum_list_with piece_cost ps + sum_list_with arg_cost args)%nat.
Proof.
  revert args t; induction ps as [|p ps IH]; intros args t H; [destruct args; simplify_eq/=; lia|].
  destruct p, args as [|[z|v|v] args]; cbn [render] in H; try done;
    apply fmap_Some in H as (t' & H & ->); specialize (IH _ _ H);
    cbn [sum_list_with piece_cost arg_cost length] in *; rewrite ?length_app; try lia.
  pose proof (length_num_text_dec (u64 z)). lia.
Qed.

Lemma length_text c t n :
  fmt_cost (fst c) = Some n -> text c = Some t -> (length t <= n + sum_list_with arg_cost (snd c))%nat.
Proof.
  unfold fmt_cost, text. intros Hc Ht. apply bind_Some in Ht as (ps & Hp & Hr).
  rewrite Hp in Hc. simplify_eq/=. by apply length_render.
Qed.
