(* ===== verification/StatusBounds.v ===== *)
(** * The buffer of the status pages

    "1/4 pagesize for each record": the buffer the handlers allocate holds the
    whole page in every format, as long as the two names of a peer together
    have at most 160 bytes (the Prometheus page has three lines for a peer). *)

From S2P Require Import Prelude NgxString StatusLine CheckTypes CheckProto CheckCore.
From S2P Require Import HttpArgs CheckConf StatusPage PrintText.

(** ** What the handlers find in memory *)

Definition row_ok (r : row) : Prop :=
  exists t, check_type (conf (fst (snd r))) = Some t /\ (length (name t) <= 9)%nat
    /\ (length (upstream_name (fst (snd r))) + length (addr_name (peer_addr (fst (snd r)))) <= 160)%nat.

(** At each walk there are [n] peers, with their shared part. *)
Definition walks_ok (w : walks) (n : nat) : Prop :=
  forall k, exists l, walk (w k) = Some l /\ length l = n /\ Forall row_ok l.

Definition stream_ok (stream : option walks) (m : nat) : Prop :=
  match stream with None => m = 0%nat | Some w => walks_ok w m end.

(** ** Texts of bounded length *)

Definition fits (n : nat) (c : call) : Prop := exists t, text c = Some t /\ (length t <= n)%nat.

Definition page_fits (n : nat) (calls : list call) : Prop :=
  exists ts, texts calls ts /\ (length (concat ts) <= n)%nat.

Definition arg_kind (a : fmt_arg) : piece := match a with AInt _ => PUi | AStr _ => PStr | ACstr _ => PCstr end.

(** The conversions of a format, without the literal bytes. *)
Definition slots (ps : list piece) : list piece :=
  List.filter (fun p => match p with PByte _ => false | _ => true end) ps.

Lemma render_slots ps args : slots ps = arg_kind <$> args -> is_Some (render ps args).
Proof.
  revert args; induction ps as [|p ps IH]; intros args H; [by eexists|].
  destruct p; [cbn [render]; by apply fmap_is_Some, IH| | |];
    destruct args as [|[]]; try done; injection H as H; cbn [render]; by apply fmap_is_Some, IH.
Qed.

(** The kinds of the arguments a format takes, and its cost. *)
Definition fmt_shape (fmt : bytes) : option (list piece * nat) :=
  (fun ps => (slots ps, sum_list_with piece_cost ps)) <$> pieces fmt.

Lemma fits_call fmt args ks m n :
  fmt_shape fmt = Some (ks, m) -> ks = arg_kind <$> args -> (m + sum_list_with arg_cost args <= n)%nat ->
  fits n (fmt, args).
Proof.
  unfold fmt_shape. intros H Hk Hn. apply fmap_Some in H as (ps & Hp & [= -> ->]).
  destruct (render_slots ps args Hk) as [t Ht]. exists t. unfold text. cbn [fst snd]. rewrite Hp. split; [done|].
  apply length_render in Ht. lia.
Qed.

Lemma page_one n c : fits n c -> page_fits n [c].
Proof.
  intros (t & Ht & Hn). exists [t]. split; [by repeat constructor|]. cbn. rewrite app_nil_r. done.
Qed.

Lemma page_app n m a b : page_fits n a -> page_fits m b -> page_fits (n + m) (a ++ b).
Proof.
  intros (ta & Ha & Hn) (tb & Hb & Hm). exists (ta ++ tb). split; [by apply Forall2_app|].
  rewrite concat_app, length_app. lia.
Qed.

Lemma page_rows R n cs : Forall (fits R) cs -> (length cs <= n)%nat -> page_fits (R * n) cs.
Proof.
  intros H. revert n; induction H as [|c cs Hc H IH]; intros n Hn; [exists []; split; [constructor|cbn; lia]|].
  destruct n as [|n]; [cbn in Hn; lia|]. rewrite Nat.mul_succ_r, Nat.add_comm.
  apply (page_app _ _ [c]); [by apply page_one|apply IH; cbn in Hn; lia].
Qed.

Lemma page_weaken n m cs : (n <= m)%nat -> page_fits n cs -> page_fits m cs.
Proof. intros Hn (ts & H & Hl). exists ts. split; [done|lia]. Qed.

(** ** Lines *)

(** A line function that prints every peer in at most [R] bytes. *)
Definition line_fits (R : nat) (line : row -> option call) : Prop :=
  forall r, row_ok r -> exists c, line r = Some c /\ fits R c.

Lemma shown_ok flag l : Forall row_ok l -> Forall row_ok (shown_rows flag l).
Proof.
  induction 1 as [|r l Hr H IH]; [constructor|]. cbn. destruct (shown flag r); [by constructor|done].
Qed.

Lemma shown_length flag l : (length (shown_rows flag l) <= length l)%nat.
Proof. apply filter_length_le. Qed.

Lemma lines_fit R line l :
  line_fits R line -> Forall row_ok l -> exists cs, mapM line l = Some cs /\ page_fits (R * length l) cs.
Proof.
  intros HR H.
  assert (E : exists cs, mapM line l = Some cs /\ Forall (fits R) cs).
  { induction H as [|r l Hr H (cs & E & IH)]; [by exists []|].
    destruct (HR r Hr) as (c & Ec & Hc). exists (c :: cs). cbn. rewrite Ec. cbn. rewrite E. split; [done|by constructor]. }
  destruct E as (cs & E & Hcs). exists cs. split; [done|]. apply page_rows; [done|].
  apply length_mapM in E. lia.
Qed.

Lemma print_rows_fit R line flag l :
  line_fits R line -> Forall row_ok l ->
  exists cs, print_rows line flag l = Some cs /\ page_fits (R * length l) cs.
Proof.
  intros HR H. destruct (lines_fit R line (shown_rows flag l) HR (shown_ok flag l H)) as (cs & E & Hcs).
  exists cs. split; [done|]. apply (page_weaken (R * length (shown_rows flag l))); [|done].
  apply Nat.mul_le_mono_l, shown_length.
Qed.

Lemma a_status_cost r : (arg_cost (a_status r) <= 4)%nat.
Proof. unfold a_status. destruct (is_down r); cbn; lia. Qed.

Lemma a_color_cost r : (arg_cost (a_color r) <= 18)%nat.
Proof. unfold a_color. destruct (is_down r); cbn; lia. Qed.

(** Every line function: the check type is there, the format takes these
    arguments, and the sum of the lengths is small enough. *)
Ltac line_fits_tac :=
  let r := fresh "r" in let t := fresh "t" in let Et := fresh "Et" in let Ht := fresh "Ht" in let Hn := fresh "Hn" in
  intros r (t & Et & Ht & Hn); pose proof (a_status_cost r); pose proof (a_color_cost r);
  eexists; split; [unfold a_check_type; rewrite Et; cbn [mbind option_bind]; reflexivity|];
  eapply fits_call; [vm_compute; reflexivity|reflexivity|];
  cbn [sum_list_with a_upstream a_name a_index a_rise a_fall a_port arg_cost] in *; try lia.

Lemma html_row_fits : line_fits 398 html_row.
Proof. unfold html_row. line_fits_tac. Qed.

Lemma json_row_fits sep : sep = [] \/ sep = lit "," -> line_fits 398 (json_row sep).
Proof. intros [-> | ->]; unfold json_row; line_fits_tac; cbn [length lit s2b fmap list_fmap]; lia. Qed.

Lemma csv_row_fits ty : ty = "http"%string \/ ty = "stream"%string -> line_fits 398 (Status.csv_row ty).
Proof. intros [-> | ->]; unfold Status.csv_row; line_fits_tac. Qed.

Lemma http_csv_row_fits : line_fits 398 HttpStatus.csv_row.
Proof. unfold HttpStatus.csv_row. line_fits_tac. Qed.

(** The three lines of the Prometheus page. *)
Lemma counter_row_fits metric v ty :
  metric = "nginx_upstream_server_rise"%string /\ v = a_rise
  \/ metric = "nginx_upstream_server_fall"%string /\ v = a_fall ->
  (length ty <= 6)%nat -> line_fits 340 (Status.counter_row metric v ty).
Proof.
  intros [[-> ->]|[-> ->]] Hty; unfold Status.counter_row; line_fits_tac.
Qed.

Lemma active_row_fits ty : (length ty <= 6)%nat -> line_fits 340 (Status.active_row ty).
Proof. intros Hty. unfold Status.active_row. line_fits_tac. Qed.

Lemma json_rows_fit total n l :
  Forall row_ok l -> exists cs, Status.json_rows total n l = Some cs /\ page_fits (398 * length l) cs.
Proof.
  intros H. assert (E : exists cs, Status.json_rows total n l = Some cs /\ Forall (fits 398) cs /\ length cs = length l).
  { revert n; induction H as [|r l Hr H IH]; intros n; [by exists []|]. cbn [Status.json_rows].
    destruct (IH (u64 (n + 1))) as (cs & -> & Hcs & Hl).
    destruct (json_row_fits (if u64 (n + 1) =? total then [] else lit ",")
                ltac:(destruct (_ =? _); [by left|by right]) r Hr) as (c & -> & Hc).
    exists (c :: cs). cbn [mbind option_bind length]. split; [done|]. split; [by constructor|lia]. }
  destruct E as (cs & E & Hcs & Hl). exists cs. split; [done|]. apply page_rows; [done|lia].
Qed.

Lemma metric_rows_fit flag line lh ls :
  (forall ty, (length ty <= 6)%nat -> line_fits 340 (line ty)) -> Forall row_ok lh -> Forall row_ok ls ->
  exists cs, Status.metric_rows flag line [(s2b "http", lh); (s2b "stream", ls)] = Some cs
    /\ page_fits (340 * length lh + 340 * length ls) cs.
Proof.
  intros Hline Hh Hs.
  destruct (print_rows_fit 340 (line (s2b "http")) flag lh) as (ch & Eh & Fh); [apply Hline; cbn; lia|done|].
  destruct (print_rows_fit 340 (line (s2b "stream")) flag ls) as (cs & Es & Fs); [apply Hline; cbn; lia|done|].
  exists (ch ++ cs). split; [|by apply page_app]. unfold Status.metric_rows.
  rewrite (mapM_Some_2 _ _ [ch; cs]) by (repeat constructor; done). cbn. by rewrite app_nil_r.
Qed.

(** ** Pages *)

(** A call without peers. *)
Ltac head_fits := apply page_one; eapply fits_call; [vm_compute; reflexivity|reflexivity|cbn; lia].

Section Pages.
Context (http : walks) (stream : option walks) (n m : nat) (generation flag : Z).
Context (Hh : walks_ok http n) (Hs : stream_ok stream m).

Lemma stream_walk_ok k : exists l, Status.stream_walk stream k = Some l /\ length l = m /\ Forall row_ok l.
Proof.
  unfold Status.stream_walk. unfold stream_ok in Hs. destruct stream as [w|]; [apply Hs|]. by exists [].
Qed.

Lemma html_counts_fits title l :
  title = "<h2>http upstream servers "%string \/ title = "<h2>stream upstream servers "%string ->
  page_fits 500 [Status.html_counts title l].
Proof. intros [-> | ->]; unfold Status.html_counts; head_fits. Qed.

(** Take the walk number [k] from the hypothesis [H]. *)
Ltac take_walk H l E Hl Hok := destruct H as (l & E & Hl & Hok); rewrite E; cbn [mbind option_bind].

Lemma html_page_fits :
  exists cs, Status.status_html_format http stream flag = Some cs /\ page_fits (4096 + 1024 * (n + m)) cs.
Proof.
  unfold Status.status_html_format.
  take_walk (stream_walk_ok 0) ls Es Ls Os. take_walk (Hh 1%nat) lh Eh Lh Oh. take_walk (Hh 2%nat) lh' Eh' Lh' Oh'.
  destruct (print_rows_fit _ _ flag lh' html_row_fits Oh') as (ch & -> & Fh). cbn [mbind option_bind].
  take_walk (stream_walk_ok 3) ls' Es' Ls' Os'.
  destruct (print_rows_fit _ _ flag ls' html_row_fits Os') as (cs & -> & Fs). cbn [mbind option_bind].
  eexists. split; [reflexivity|].
  apply (page_weaken (500 + (500 + (398 * length lh' + (500 + (500 + (398 * length ls' + 500))))))); [lia|].
  apply page_app; [head_fits|]. apply page_app; [apply html_counts_fits; by left|]. apply page_app; [done|].
  apply page_app; [head_fits|]. apply page_app; [apply html_counts_fits; by right|]. apply page_app; [done|]. head_fits.
Qed.

Lemma csv_page_fits :
  exists cs, Status.status_csv_format http stream flag = Some cs /\ page_fits (4096 + 1024 * (n + m)) cs.
Proof.
  unfold Status.status_csv_format. take_walk (Hh 0%nat) lh Eh Lh Oh.
  destruct (print_rows_fit _ _ flag lh (csv_row_fits "http" ltac:(by left)) Oh) as (ch & -> & Fh). cbn [mbind option_bind].
  take_walk (stream_walk_ok 1) ls Es Ls Os.
  destruct (print_rows_fit _ _ flag ls (csv_row_fits "stream" ltac:(by right)) Os) as (cs & -> & Fs). cbn [mbind option_bind].
  eexists. split; [reflexivity|]. apply (page_weaken (500 + (398 * length lh + 398 * length ls))); [lia|].
  apply page_app; [head_fits|]. by apply page_app.
Qed.

Lemma json_page_fits :
  exists cs, Status.status_json_format http stream generation flag = Some cs /\ page_fits (4096 + 1024 * (n + m)) cs.
Proof.
  unfold Status.status_json_format.
  take_walk (stream_walk_ok 0) ls Es Ls Os. take_walk (Hh 1%nat) lh Eh Lh Oh. take_walk (Hh 2%nat) lh' Eh' Lh' Oh'.
  destruct (json_rows_fit (count (shown_rows flag lh)) 0 (shown_rows flag lh')) as (ch & -> & Fh); [by apply shown_ok|].
  cbn [mbind option_bind]. take_walk (stream_walk_ok 3) ls' Es' Ls' Os'.
  destruct (json_rows_fit (count (shown_rows flag ls)) 0 (shown_rows flag ls')) as (cs & -> & Fs); [by apply shown_ok|].
  cbn [mbind option_bind]. eexists. split; [reflexivity|].
  pose proof (shown_length flag lh'). pose proof (shown_length flag ls').
  apply (page_weaken (500 + (398 * length (shown_rows flag lh') + (500 + (398 * length (shown_rows flag ls') + (500 + 500)))))); [lia|].
  apply page_app; [head_fits|]. apply page_app; [done|]. apply page_app; [head_fits|]. apply page_app; [done|].
  apply (page_app _ _ [_] [_]); head_fits.
Qed.

Lemma prometheus_page_fits :
  exists cs, Status.status_prometheus_format http stream generation flag = Some cs
    /\ page_fits (4096 + 1024 * (n + m)) cs.
Proof.
  unfold Status.status_prometheus_format, Status.both_walks.
  take_walk (Hh 0%nat) lh Eh Lh Oh. take_walk (stream_walk_ok 0) ls Es Ls Os. 
  take_walk (Hh 1%nat) lh1 Eh1 Lh1 Oh1. take_walk (stream_walk_ok 1) ls1 Es1 Ls1 Os1.
  destruct (metric_rows_fit flag (Status.counter_row "nginx_upstream_server_rise" a_rise) lh1 ls1
              ltac:(intros; apply counter_row_fits; [by left|done]) Oh1 Os1) as (c1 & -> & F1). cbn [mbind option_bind].
  take_walk (Hh 2%nat) lh2 Eh2 Lh2 Oh2. take_walk (stream_walk_ok 2) ls2 Es2 Ls2 Os2.
  destruct (metric_rows_fit flag (Status.counter_row "nginx_upstream_server_fall" a_fall) lh2 ls2
              ltac:(intros; apply counter_row_fits; [by right|done]) Oh2 Os2) as (c2 & -> & F2). cbn [mbind option_bind].
  take_walk (Hh 3%nat) lh3 Eh3 Lh3 Oh3. take_walk (stream_walk_ok 3) ls3 Es3 Ls3 Os3.
  destruct (metric_rows_fit flag Status.active_row lh3 ls3 active_row_fits Oh3 Os3) as (c3 & -> & F3). cbn [mbind option_bind].
  eexists. split; [reflexivity|].
  apply (page_weaken (1000 + (500 + ((340 * length lh1 + 340 * length ls1) + (500 + ((340 * length lh2 + 340 * length ls2)
           + (500 + (340 * length lh3 + 340 * length ls3)))))))); [lia|].
  apply page_app; [head_fits|]. apply page_app; [head_fits|]. apply page_app; [done|]. apply page_app; [head_fits|].
  apply page_app; [done|]. apply page_app; [head_fits|]. done.
Qed.

Lemma output_fits f :
  exists cs, Status.output http stream generation flag f = Some cs /\ page_fits (4096 + 1024 * (n + m)) cs.
Proof.
  destruct f; [apply html_page_fits|apply csv_page_fits|apply json_page_fits|apply prometheus_page_fits].
Qed.

End Pages.

(** The pages of the http module. *)
Section HttpPages.
Context (http : walks) (n : nat) (generation flag : Z) (Hh : walks_ok http n).

Ltac take_walk H l E Hl Hok := destruct H as (l & E & Hl & Hok); rewrite E; cbn [mbind option_bind].

Lemma http_json_line_fits last :
  line_fits 398 (fun r => json_row (if Z.of_nat (fst r) =? last then [] else lit ",") r).
Proof. intros r Hr. apply json_row_fits; [|done]. destruct (_ =? _); [by left|by right]. Qed.

Lemma http_output_fits f :
  exists cs, HttpStatus.output http generation flag f = Some cs /\ page_fits (4096 + 1024 * n) cs.
Proof.
  destruct f; cbn [HttpStatus.output].
  - unfold HttpStatus.status_html_format. take_walk (Hh 0%nat) l E Hl Hok. take_walk (Hh 1%nat) l' E' Hl' Hok'.
    destruct (print_rows_fit _ _ flag l' html_row_fits Hok') as (cs & -> & F). cbn [mbind option_bind].
    eexists. split; [reflexivity|]. apply (page_weaken (1000 + (398 * length l' + 500))); [lia|].
    apply page_app; [head_fits|]. apply page_app; [done|]. head_fits.
  - unfold HttpStatus.status_csv_format. take_walk (Hh 0%nat) l E Hl Hok.
    destruct (print_rows_fit _ _ flag l http_csv_row_fits Hok) as (cs & -> & F).
    eexists. split; [reflexivity|]. apply (page_weaken (398 * length l)); [lia|done].
  - unfold HttpStatus.status_json_format. take_walk (Hh 0%nat) l E Hl Hok. take_walk (Hh 1%nat) l' E' Hl' Hok'.
    destruct (print_rows_fit _ _ flag l' (http_json_line_fits (u64 (count l' - 1))) Hok') as (cs & -> & F). cbn [mbind option_bind].
    eexists. split; [reflexivity|]. apply (page_weaken (500 + (398 * length l' + (500 + 500)))); [lia|].
    apply page_app; [head_fits|]. apply page_app; [done|]. apply (page_app _ _ [_] [_]); head_fits.
Qed.

End HttpPages.

(** ** The size *)

Lemma ngx_align_pow2 d k : 0 <= k -> 0 <= d + (2 ^ k - 1) < 2 ^ 64 -> ngx_align d (2 ^ k) = (d + (2 ^ k - 1)) / 2 ^ k * 2 ^ k.
Proof.
  intros Hk Hd. unfold ngx_align. rewrite u64_small by done.
  replace (2 ^ k - 1) with (Z.ones k) by (rewrite Z.ones_equiv; lia).
  rewrite <- Z.ldiff_land, Z.ldiff_ones_r, Z.shiftl_mul_pow2, Z.shiftr_div_pow2 by done. done.
Qed.

Lemma buffer_size_ge n k :
  12 <= k <= 60 -> 0 <= n -> n * 2 ^ k < 2 ^ 62 -> 4096 + 1024 * n <= buffer_size n (2 ^ k).
Proof.
  intros Hk Hn Hb.
  assert (E : 2 ^ k = 4096 * 2 ^ (k - 12)) by (change 4096 with (2 ^ 12); rewrite <- Z.pow_add_r by lia; f_equal; lia).
  assert (Hp : 0 < 2 ^ (k - 12)) by (apply Z.pow_pos_nonneg; lia).
  assert (Hk60 : 2 ^ k <= 2 ^ 60) by (apply Z.pow_le_mono_r; lia).
  set (ps := 2 ^ k) in *.
  assert (Hps : 4096 <= ps) by lia. assert (Hnp : 0 <= n * ps) by nia.
  unfold buffer_size. rewrite (u64_small (n * ps)) by (unfold in_u64; lia).
  assert (Hd : 1024 * n <= n * ps / 4) by (apply Z.div_le_lower_bound; nia).
  assert (Hd' : n * ps / 4 <= 2 ^ 62) by (apply Z.div_le_upper_bound; lia).
  unfold ps at 2. rewrite ngx_align_pow2 by (fold ps; lia). fold ps.
  set (d := n * ps / 4) in *.
  assert (Hal : d <= (d + (ps - 1)) / ps * ps <= d + (ps - 1)).
  { pose proof (Z.mod_pos_bound (d + (ps - 1)) ps). pose proof (Z.div_mod (d + (ps - 1)) ps). lia. }
  rewrite u64_small by (unfold in_u64; lia). lia.
Qed.

(** A page that starts with a literal byte is not empty. *)
Definition headed (calls : list call) : Prop :=
  exists c fmt args cs, calls = (c :: fmt, args) :: cs /\ (c =? ch "%") = false.

Lemma headed_text calls ts : headed calls -> texts calls ts -> exists c t, concat ts = c :: t.
Proof.
  intros (c & fmt & args & cs & -> & Hc) H. inversion H as [|? t ? ts' Ht H']; subst. unfold text in Ht. cbn [fst snd pieces] in Ht.
  rewrite Hc in Ht. apply bind_Some in Ht as (ps & Hp & Hr). apply fmap_Some in Hp as (ps' & _ & ->).
  cbn [render] in Hr. apply fmap_Some in Hr as (t' & _ & ->). cbn. by eexists _, _.
Qed.

(** Unfold the steps before the list of calls. *)
Ltac headed_tac :=
  let H := fresh "H" in intros H;
  repeat (apply bind_Some in H as (? & _ & H)); injection H as <-;
  eexists _, _, _, _; split; [cbn; reflexivity|reflexivity].

Lemma output_headed http stream generation flag f cs :
  Status.output http stream generation flag f = Some cs -> headed cs.
Proof. destruct f; cbn [Status.output]; headed_tac. Qed.

(** A page that fits is printed in full. *)
Lemma page_printed size n cs :
  page_fits n cs -> (n <= size)%nat -> headed cs ->
  exists page, page <> [] /\ forall larger, (size <= larger)%nat -> print larger cs [] = Some page.
Proof.
  intros (ts & Ht & Hl) Hn Hd. destruct (headed_text cs ts Hd Ht) as (c & t & E).
  exists (concat ts). split; [by rewrite E|]. intros larger Hlarge. rewrite (print_texts larger cs ts Ht).
  by rewrite take_ge by lia.
Qed.

Lemma peers_count w n : walks_ok w n -> count (peers (w 0%nat)) = Z.of_nat n.
Proof.
  intros H. destruct (H 0%nat) as (l & E & <- & _). unfold walk in E. apply length_mapM in E.
  unfold count. rewrite length_imap in E. by rewrite E.
Qed.

(** The status page is never cut off.  With a page size that is a power of
    two of at least 4096 and peers whose upstream and server names together
    have at most 160 bytes, all four formats of [ngx_healthcheck_status.c]
    print a page that fits the buffer the handler allocates, whatever state
    other workers leave the peers in between the loops: a larger buffer would
    hold the same page. *)
Lemma page_complete http stream n m generation flag k f size :
  walks_ok http n -> stream_ok stream m -> 12 <= k <= 60 -> Z.of_nat (n + m) * 2 ^ k < 2 ^ 62 ->
  Status.page_size (2 ^ k) (Some http) stream = Some (Some size) ->
  exists calls page, Status.output http stream generation flag f = Some calls
    /\ print (Z.to_nat size) calls [] = Some page /\ page <> []
    /\ forall larger, (Z.to_nat size <= larger)%nat -> print larger calls [] = Some page.
Proof.
  intros Hh Hs Hk Hb Hsize. unfold Status.page_size in Hsize. cbn [mbind option_bind] in Hsize.
  rewrite (peers_count http n Hh) in Hsize.
  assert (E : size = buffer_size (Z.of_nat (n + m)) (2 ^ k)).
  { destruct stream as [w|]; cbn [stream_ok] in Hs.
    - rewrite (peers_count w m Hs) in Hsize. injection Hsize as <-. f_equal. lia.
    - injection Hsize as <-. f_equal. lia. }
  pose proof (buffer_size_ge (Z.of_nat (n + m)) k Hk ltac:(lia) Hb) as Hge. rewrite <- E in Hge.
  destruct (output_fits http stream n m generation flag Hh Hs f) as (cs & Ecs & Hfit).
  destruct (page_printed (Z.to_nat size) _ cs Hfit) as (page & Hne & Hpage); [lia|by eapply output_headed|].
  exists cs, page. split_and!; [done|by apply Hpage|done|]. intros larger Hl. by apply Hpage.
Qed.

(** Two servers of one upstream, one of them down. *)
Definition ex_walk (down2 : Z) : ngx_upstream_check_peers_t :=
  let cf := (srv_conf_unset (Ptr [])) <| check_type_conf := Ptr (nth 0 Stream.ngx_check_types check_conf_end) |> <| port := 0 |> in
  let peer k a := (peer_zero cf (s2b "backend") (mk_addr [] 0 (s2b a))) <| shm := Some k |> in
  mk_peers [] 0 [peer 0%nat "10.0.0.1:80"; peer 1%nat "10.0.0.2:80"]
    (Some (mk_peers_shm 1 0 2 [peer_shm_zero <| rise_count := 7 |>; peer_shm_zero <| fall_count := 3 |> <| down := down2 |>])).

Lemma ex_walks_ok (w : walks) : (forall k, exists d, w k = ex_walk d) -> walks_ok w 2.
Proof.
  intros H k. destruct (H k) as [d ->]. eexists. split; [reflexivity|]. split; [reflexivity|].
  repeat constructor; eexists; (split; [reflexivity|]); cbn; lia.
Qed.
