(* ===== verification/StatusText.v ===== *)
(** * The text of the status pages

    What the four pages of [ngx_healthcheck_status.c] are to say, written
    without the code's format strings, loops and tests: the peers that are
    asked for, a line of text for each, and the lines around them
    ([page_text]).  Numbers are printed by the decimal printer of the library.
    The lemmas show that the calls of the format functions print this text. *)

From stdpp Require Import pretty.
From S2P Require Import Prelude NgxString StatusLine CheckTypes CheckProto CheckCore.
From S2P Require Import HttpArgs CheckConf StatusPage PrintText StatusBounds.

(** ** The peers *)

(** The rows [l] show the peers in their order, each with its index and its
    shared state. *)
Definition sees (ps : ngx_upstream_check_peers_t) (l : list row) : Prop :=
  length l = length (peers ps)
  /\ forall i r, l !! i = Some r ->
     fst r = i /\ peers ps !! i = Some (fst (snd r))
     /\ exists k sh, shm (fst (snd r)) = Some k /\ peers_shm ps = Some sh /\ sh_peers sh !! k = Some (snd (snd r)).

Lemma walk_sees ps l : sees ps l -> walk ps = Some l.
Proof.
  intros [Hl H]. unfold walk. apply mapM_Some_2, Forall2_same_length_lookup. rewrite length_imap. split; [done|].
  intros i [j p] r Hp Hr. rewrite list_lookup_imap in Hp. destruct (H i r Hr) as (Ei & Ep & k & sh & E1 & E2 & E3).
  rewrite Ep in Hp. injection Hp as <- <-. unfold row_of. cbn [fst snd]. rewrite E1. cbn [mbind option_bind]. rewrite E2.
  cbn [mbind option_bind]. rewrite E3. cbn [mbind option_bind]. by destruct r as [? []]; cbn in *; subst.
Qed.

Inductive peers_asked : Set := DownPeers | UpPeers | AllPeers.

Definition wanted (a : peers_asked) (r : row) : Prop :=
  match a with DownPeers => down (snd (snd r)) <> 0 | UpPeers => down (snd (snd r)) = 0 | AllPeers => True end.

#[export] Instance wanted_dec a r : Decision (wanted a r).
Proof. destruct a; cbn; apply _. Defined.

Definition listed (a : peers_asked) (l : list row) : list row := filter (wanted a) l.

Definition flag_of (a : peers_asked) : Z :=
  match a with DownPeers => NGX_CHECK_STATUS_DOWN | UpPeers => NGX_CHECK_STATUS_UP | AllPeers => 0 end.

Lemma filter_listed a (f : row -> bool) l : (forall r, f r = bool_decide (wanted a r)) -> List.filter f l = listed a l.
Proof.
  intros H. unfold listed. induction l as [|r l IH]; [done|]. cbn [List.filter]. rewrite filter_cons, H, IH.
  destruct (decide (wanted a r)); [by rewrite bool_decide_eq_true_2|by rewrite bool_decide_eq_false_2].
Qed.

Lemma is_down_wanted r : is_down r = bool_decide (wanted DownPeers r).
Proof. unfold is_down, wanted. destruct (Z.eqb_spec (down (snd (snd r))) 0); cbn [negb]; case_bool_decide; congruence. Qed.

Lemma is_up_wanted r : negb (is_down r) = bool_decide (wanted UpPeers r).
Proof. unfold is_down, wanted. rewrite negb_involutive. destruct (Z.eqb_spec (down (snd (snd r))) 0); case_bool_decide; congruence. Qed.

Lemma shown_listed a l : shown_rows (flag_of a) l = listed a l.
Proof.
  apply filter_listed. intros r. destruct a; unfold shown; cbn [flag_of].
  - apply is_down_wanted.
  - apply is_up_wanted.
  - by rewrite bool_decide_eq_true_2.
Qed.

Lemma up_listed l : up_rows l = listed UpPeers l.
Proof. apply filter_listed, is_up_wanted. Qed.

Lemma down_listed l : List.filter is_down l = listed DownPeers l.
Proof. apply filter_listed, is_down_wanted. Qed.

(** A peer is up or down. *)
Lemma listed_split l : (length (listed UpPeers l) + length (listed DownPeers l) = length l)%nat.
Proof.
  unfold listed. induction l as [|r l IH]; [done|]. destruct (decide (down (snd (snd r)) = 0)) as [E|E].
  - rewrite filter_cons_True, filter_cons_False by (cbn; tauto). cbn [length]. lia.
  - rewrite filter_cons_False, filter_cons_True by done. cbn [length]. lia.
Qed.

(** ** The parts of a line *)

(** A 64-bit number in decimal digits. *)
Definition number (z : Z) : bytes := s2b (pretty (Z.to_N (u64 z))).

Definition state_text (r : row) : bytes := s2b (if decide (down (snd (snd r)) = 0) then "up" else "down").

Definition index_text (r : row) : bytes := number (Z.of_nat (fst r)).
Definition upstream_text (r : row) : bytes := upstream_name (fst (snd r)).
Definition name_text (r : row) : bytes := addr_name (peer_addr (fst (snd r))).
Definition rise_text (r : row) : bytes := number (rise_count (snd (snd r))).
Definition fall_text (r : row) : bytes := number (fall_count (snd (snd r))).
Definition port_text (r : row) : bytes := number (port (conf (fst (snd r)))).

Definition type_text (r : row) : bytes :=
  match check_type (conf (fst (snd r))) with Some t => name t | None => [] end.

Fixpoint join (sep : bytes) (l : list bytes) : bytes :=
  match l with [] => [] | [x] => x | x :: l' => x ++ sep ++ join sep l' end.

Definition line (t : bytes) : bytes := t ++ [LF].

(** ** Lines *)

Definition td (x : bytes) : bytes := line (lit "    <td>" ++ x ++ lit "</td>").

Definition html_line (r : row) : bytes :=
  line (lit "  <tr" ++ (if decide (down (snd (snd r)) = 0) then [] else lit " bgcolor=`#FF0000`") ++ lit ">")
  ++ concat (td <$> [index_text r; upstream_text r; name_text r; state_text r; rise_text r; fall_text r; type_text r; port_text r])
  ++ line (lit "  </tr>").

Definition csv_line (upstream_type : string) (r : row) : bytes :=
  line (join (lit ",") [index_text r; s2b upstream_type; upstream_text r; name_text r; rise_text r; fall_text r; type_text r;
                        port_text r; state_text r]).

Definition json_string (s : bytes) : bytes := lit "`" ++ s ++ lit "`".

Definition json_line (comma : bool) (r : row) : bytes :=
  line (lit "    {"
    ++ join (lit ", ") ((fun kv => json_string (s2b (fst kv)) ++ lit ": " ++ snd kv) <$>
         [("index"%string, index_text r); ("upstream"%string, json_string (upstream_text r)); ("name"%string, json_string (name_text r));
          ("status"%string, json_string (state_text r)); ("rise"%string, rise_text r); ("fall"%string, fall_text r);
          ("type"%string, json_string (type_text r)); ("port"%string, port_text r)])
    ++ lit "}" ++ if comma then lit "," else []).

(** A line of the Prometheus page: a metric, its labels and its value. *)
Definition metric_line (metric : string) (labels : list (string * bytes)) (value : bytes) : bytes :=
  line (s2b metric ++ lit "{" ++ join (lit ",") ((fun kv => s2b (fst kv) ++ lit "=" ++ json_string (snd kv)) <$> labels)
        ++ lit "} " ++ value).

Definition counter_line (metric : string) (value : row -> bytes) (upstream_type : bytes) (r : row) : bytes :=
  metric_line metric
    [("index"%string, index_text r); ("upstream_type"%string, upstream_type); ("upstream"%string, upstream_text r);
     ("name"%string, name_text r); ("status"%string, state_text r); ("type"%string, type_text r); ("port"%string, port_text r)]
    (value r).

Definition active_line (upstream_type : bytes) (r : row) : bytes :=
  metric_line "nginx_upstream_server_active"
    [("index"%string, index_text r); ("upstream_type"%string, upstream_type); ("upstream"%string, upstream_text r);
     ("name"%string, name_text r); ("type"%string, type_text r); ("port"%string, port_text r)]
    (s2b (if decide (down (snd (snd r)) = 0) then "1" else "0")).

(** What introduces a metric. *)
Definition metric_head (metric help type : string) : bytes :=
  line (s2b "# HELP " ++ s2b metric ++ s2b " " ++ s2b help) ++ line (s2b "# TYPE " ++ s2b metric ++ s2b " " ++ s2b type).

(** ** Pages *)

Definition len_text {A} (l : list A) : bytes := number (Z.of_nat (length l)).

Section Pages.
(** The peers of the http and of the stream module at the successive walks. *)
Context (generation : Z) (a : peers_asked) (H S : nat -> list row).

Definition html_table (title : string) (l : list row) (rows : list row) : bytes :=
  line (s2b "<h2>" ++ s2b title ++ s2b " upstream servers </h2> up: " ++ len_text (listed UpPeers l)
        ++ s2b " down: " ++ len_text (listed DownPeers l) ++ s2b " total: " ++ len_text l)
  ++ line (lit "<table style=`background-color:white` cellspacing=`0`        cellpadding=`3` border=`1`>")
  ++ line (lit "  <tr bgcolor=`#C0C0C0`>")
  ++ concat ((fun h => line (lit "    <th>" ++ s2b h ++ lit "</th>")) <$>
       ["Index"; "Upstream"; "Name"; "Status"; "Rise counts"; "Fall counts"; "Check type"; "Check port"]%string)
  ++ line (lit "  </tr>") ++ concat (html_line <$> rows) ++ line (lit "</table>").

Definition html_page : bytes :=
  line (lit "<!DOCTYPE html PUBLIC `-//W3C//DTD XHTML 1.0 Strict//EN")
  ++ line (lit "`http://www.w3.org/TR/xhtml1/DTD/xhtml1-strict.dtd`>")
  ++ line (lit "<html xmlns=`http://www.w3.org/1999/xhtml`>") ++ line (lit "<head>")
  ++ line (lit "  <title>Nginx upstream status checker</title>") ++ line (lit "</head>") ++ line (lit "<body>")
  ++ line (lit "<h1  align=`center`>Nginx upstream status monitor</h1>")
  ++ html_table "http" (H 1) (listed a (H 2)) ++ html_table "stream" (S 0) (listed a (S 3))
  ++ line (lit "<h2>total servers(check enabled): " ++ len_text (S 0 ++ H 1) ++ lit " </h2>") ++ line (lit "</body></html>").

Definition csv_page : bytes :=
  line (s2b "index,upstream_type,upstream_name,host,rise,fall,check_type,check_port,status")
  ++ concat (csv_line "http" <$> listed a (H 0)) ++ concat (csv_line "stream" <$> listed a (S 1)).

(** A comma after each but the one that was the last when they were counted. *)
Definition json_lines (counted l : list row) : bytes :=
  concat (imap (fun j r => json_line (negb (bool_decide (Datatypes.S j = length (listed a counted)))) r) (listed a l)).

Definition json_page : bytes :=
  line (lit "{`servers`: {") ++ line (lit "  `total`: " ++ len_text (listed a (S 0) ++ listed a (H 1)) ++ lit ",")
  ++ line (lit "  `generation`: " ++ number generation ++ lit ",")
  ++ line (lit "  `http`: [") ++ json_lines (H 1) (H 2) ++ line (lit "  ],")
  ++ line (lit "  `stream`: [") ++ json_lines (S 0) (S 3) ++ line (lit "  ]") ++ line (lit "}}").

Definition gauge (metric help : string) (v : bytes) : bytes :=
  metric_head metric help "gauge" ++ line (s2b metric ++ lit " " ++ v).

(** The lines of a metric for the peers of both modules, at walk [k]. *)
Definition metric_lines (f : bytes -> row -> bytes) (k : nat) : bytes :=
  concat (f (s2b "http") <$> listed a (H k)) ++ concat (f (s2b "stream") <$> listed a (S k)).

Definition prometheus_page : bytes :=
  let l := listed a (H 0 ++ S 0) in
  gauge "nginx_upstream_count_total" "Nginx total number of servers" (len_text l)
  ++ gauge "nginx_upstream_count_up" "Nginx total number of servers that are UP" (len_text (listed UpPeers l))
  ++ gauge "nginx_upstream_count_down" "Nginx total number of servers that are DOWN" (len_text (listed DownPeers l))
  ++ gauge "nginx_upstream_count_generation" "Nginx generation" (number generation)
  ++ metric_head "nginx_upstream_server_rise" "Nginx rise counter" "counter"
  ++ metric_lines (counter_line "nginx_upstream_server_rise" rise_text) 1
  ++ metric_head "nginx_upstream_server_fall" "Nginx fall counter" "counter"
  ++ metric_lines (counter_line "nginx_upstream_server_fall" fall_text) 2
  ++ metric_head "nginx_upstream_server_active" "Nginx active 1 for UP / 0 for DOWN" "gauge"
  ++ metric_lines active_line 3.

Definition page_text (f : Status.output_pt) : bytes :=
  match f with
  | Status.html_format => html_page
  | Status.csv_format => csv_page
  | Status.json_format => json_page
  | Status.prometheus_format => prometheus_page
  end.

End Pages.

(** ** Numbers *)

Lemma digit_char d : 0 <= d < 10 -> d + ch "0" = ch (pretty_N_char (Z.to_N d)).
Proof.
  intros Hd. assert (d = 0 \/ d = 1 \/ d = 2 \/ d = 3 \/ d = 4 \/ d = 5 \/ d = 6 \/ d = 7 \/ d = 8 \/ d = 9) as H by lia.
  by repeat (destruct H as [->|H]; [reflexivity|]); subst.
Qed.

Lemma num_loop_pretty fuel x s :
  0 <= x < 10 ^ Z.of_nat fuel -> (0 < fuel)%nat ->
  num_loop fuel 10 (fun d => d + ch "0") x (s2b s)
  = s2b (if decide (x = 0) then String "0" s else pretty_N_go (Z.to_N x) s).
Proof.
  revert x s; induction fuel as [|fuel IH]; intros x s Hx Hf; [lia|]. cbn [num_loop].
  pose proof (Z.mod_pos_bound x 10 ltac:(lia)) as Hm. pose proof (Z.div_mod x 10 ltac:(lia)) as Hdm.
  rewrite digit_char by done. change (ch ?c :: s2b s) with (s2b (String c s)).
  rewrite Nat2Z.inj_succ, Z.pow_succ_r in Hx by lia.
  destruct (decide (x = 0)) as [->|Hx0]; [done|]. rewrite pretty_N_go_step by lia.
  replace (Z.to_N x `mod` 10)%N with (Z.to_N (x mod 10)) by (rewrite Z2N.inj_mod by lia; done).
  replace (Z.to_N x `div` 10)%N with (Z.to_N (x / 10)) by (rewrite Z2N.inj_div by lia; done).
  destruct (Z.eqb_spec (x / 10) 0) as [->|Hd]; [done|].
  assert (Hdr : 0 <= x / 10 < 10 ^ Z.of_nat fuel) by (split; [apply Z.div_pos; lia|apply Z.div_lt_upper_bound; lia]).
  destruct fuel as [|fuel]; [change (10 ^ Z.of_nat 0) with 1 in Hdr; lia|].
  rewrite IH by (done || lia). by rewrite decide_False.
Qed.

Lemma num_text_number z : num_text (u64 z) 0 = number z.
Proof.
  pose proof (u64_range z) as Hz. unfold in_u64 in Hz. unfold num_text, number. change (0 =? 0) with true. cbv iota.
  change (@nil Z) with (s2b ""). unfold NGX_INT64_LEN. rewrite num_loop_pretty by (change (10 ^ Z.of_nat 20) with 100000000000000000000; lia).
  f_equal. unfold pretty, pretty_N. destruct (decide (u64 z = 0)) as [->|Hne]; [done|]. by rewrite decide_False by lia.
Qed.

(** ** One line *)

Lemma a_status_text r : a_status r = ACstr (state_text r).
Proof. unfold a_status, state_text. rewrite is_down_wanted. cbn [wanted]. case_bool_decide; by case_decide. Qed.

Lemma a_color_text r : a_color r = ACstr (if decide (down (snd (snd r)) = 0) then [] else lit " bgcolor=`#FF0000`").
Proof. unfold a_color. rewrite is_down_wanted. cbn [wanted]. case_bool_decide; by case_decide. Qed.

(** Evaluate a format on its arguments. *)
Ltac text_tac :=
  unfold text; cbn [fst snd];
  match goal with |- (ps ← pieces ?f; _) = _ => let v := eval vm_compute in (pieces f) in change (pieces f) with v end;
  cbn [mbind option_bind render fmap option_fmap option_map]; rewrite ?num_text_number; apply (f_equal Some).

(** Put concatenations into one shape. *)
Ltac app_shape :=
  unfold line, lines; cbn [lit s2b fmap list_fmap concat join fst snd];
  repeat first [rewrite <- !app_assoc | rewrite app_nil_r | progress (cbn [app])]; try reflexivity.

(** A line function prints the line [f r]. *)
Definition prints (c : row -> option call) (f : row -> bytes) : Prop :=
  forall r, row_ok r -> exists x, c r = Some x /\ text x = Some (f r).

Ltac prints_tac :=
  let r := fresh "r" in let t := fresh "t" in let Et := fresh "Et" in
  intros r (t & Et & _); eexists; cbv beta; split; [unfold a_check_type; rewrite Et; reflexivity|];
  rewrite ?a_status_text, ?a_color_text; unfold a_index, a_upstream, a_name, a_rise, a_fall, a_port; text_tac;
  unfold index_text, upstream_text, name_text, rise_text, fall_text, port_text, type_text; rewrite Et.

Lemma html_row_prints : prints html_row html_line.
Proof. unfold html_row, html_line, td. prints_tac. app_shape. Qed.

Lemma csv_row_prints ty : ty = "http"%string \/ ty = "stream"%string -> prints (Status.csv_row ty) (csv_line ty).
Proof. intros [-> | ->]; unfold Status.csv_row, csv_line; prints_tac; app_shape. Qed.

Definition sep_text (comma : bool) : bytes := if comma then lit "," else [].

Lemma json_row_prints comma : prints (json_row (sep_text comma)) (json_line comma).
Proof. unfold json_row, json_line, json_string. fold (sep_text comma). prints_tac. app_shape. Qed.

Lemma counter_row_prints metric v w ty :
  metric = "nginx_upstream_server_rise"%string /\ v = a_rise /\ w = rise_text
  \/ metric = "nginx_upstream_server_fall"%string /\ v = a_fall /\ w = fall_text ->
  prints (Status.counter_row metric v ty) (counter_line metric w ty).
Proof.
  intros [(-> & -> & ->)|(-> & -> & ->)]; unfold Status.counter_row, counter_line, metric_line, json_string; prints_tac; app_shape.
Qed.

Lemma active_row_prints ty : prints (Status.active_row ty) (active_line ty).
Proof.
  unfold Status.active_row, active_line, metric_line, json_string. prints_tac.
  assert (En : number (if is_down r then 0 else 1) = s2b (if decide (down (snd (snd r)) = 0) then "1" else "0")).
  { rewrite is_down_wanted. cbn [wanted]. case_bool_decide; by case_decide. }
  rewrite En. app_shape.
Qed.

(** ** Several lines *)

Lemma listed_ok a l : Forall row_ok l -> Forall row_ok (listed a l).
Proof. intros H. rewrite <- shown_listed. by apply shown_ok. Qed.

Lemma listed_length a l : (length (listed a l) <= length l)%nat.
Proof. rewrite <- shown_listed. apply shown_length. Qed.

Lemma mapM_prints c f l : prints c f -> Forall row_ok l -> exists cs, mapM c l = Some cs /\ texts cs (f <$> l).
Proof.
  intros Hp H. induction H as [|r l Hr H (cs & E & IH)]; [exists []; split; [done|constructor]|].
  destruct (Hp r Hr) as (x & Ex & Hx). exists (x :: cs). cbn. rewrite Ex. cbn. rewrite E. split; [done|by constructor].
Qed.

Lemma print_rows_text a c f l :
  prints c f -> Forall row_ok l -> exists cs, print_rows c (flag_of a) l = Some cs /\ texts cs (f <$> listed a l).
Proof. intros Hp H. unfold print_rows. rewrite shown_listed. apply mapM_prints; [done|by apply listed_ok]. Qed.

Lemma json_rows_text total n l :
  Forall row_ok l -> Z.of_nat (n + length l) < 2 ^ 62 ->
  exists cs, Status.json_rows (Z.of_nat total) (Z.of_nat n) l = Some cs
    /\ texts cs (imap (fun j r => json_line (negb (bool_decide (S (n + j) = total))) r) l).
Proof.
  intros H. revert n; induction H as [|r l Hr H IH]; intros n Hn; [exists []; split; [done|constructor]|]. cbn [Status.json_rows].
  cbn [length] in Hn. rewrite u64_small by (unfold in_u64; lia). replace (Z.of_nat n + 1) with (Z.of_nat (S n)) by lia.
  destruct (IH (S n) ltac:(lia)) as (cs & E & Hcs). set (comma := negb (bool_decide (S (n + 0) = total))).
  destruct (json_row_prints comma r Hr) as (x & Ex & Hx).
  replace (if Z.of_nat (S n) =? Z.of_nat total then [] else lit ",") with (sep_text comma).
  2:{ unfold sep_text, comma. rewrite Nat.add_0_r. case_bool_decide; cbn [negb]; [by rewrite (proj2 (Z.eqb_eq _ _)) by lia|by rewrite (proj2 (Z.eqb_neq _ _)) by lia]. }
  rewrite (bind_some _ _ _ Ex). rewrite (bind_some _ _ _ E). exists (x :: cs). split; [done|]. cbn [imap]. constructor; [exact Hx|].
  erewrite imap_ext; [exact Hcs|]. intros j r' _. cbn. by rewrite Nat.add_succ_r.
Qed.

Lemma texts_app c1 c2 t1 t2 : texts c1 t1 -> texts c2 t2 -> texts (c1 ++ c2) (t1 ++ t2).
Proof. apply Forall2_app. Qed.

Lemma texts_one c t : text c = Some t -> texts [c] [t].
Proof. intros H. by repeat constructor. Qed.

Lemma count_number {A} (l : list A) : number (count l) = len_text l.
Proof. done. Qed.

(** ** The pages *)

Section Output.
Context (http : walks) (stream : option walks) (generation : Z) (a : peers_asked) (H S : nat -> list row).
Context (HH : forall k, walk (http k) = Some (H k) /\ Forall row_ok (H k)).
Context (HS : forall k, Status.stream_walk stream k = Some (S k) /\ Forall row_ok (S k)).
Context (Hlen : forall k, Z.of_nat (length (H k)) < 2 ^ 62 /\ Z.of_nat (length (S k)) < 2 ^ 62).

(** The calls [cs] print the text [t]. *)
Definition page_is (cs : list call) (t : bytes) : Prop := exists ts, texts cs ts /\ concat ts = t.

Lemma page_is_app c1 c2 t1 t2 : page_is c1 t1 -> page_is c2 t2 -> page_is (c1 ++ c2) (t1 ++ t2).
Proof. intros (u & Hu & <-) (v & Hv & <-). exists (u ++ v). split; [by apply texts_app|apply concat_app]. Qed.

Lemma page_is_one c t : text c = Some t -> page_is [c] t.
Proof. intros E. exists [t]. split; [by apply texts_one|]. cbn. apply app_nil_r. Qed.

Lemma page_is_rows cs l : texts cs l -> page_is cs (concat l).
Proof. intros E. by exists l. Qed.

Ltac at_walk E := rewrite (bind_some _ _ _ (proj1 E)).

Ltac rows_tac c f l Hok cs F :=
  let E := fresh "E" in
  destruct (print_rows_text a c f l) as (cs & E & F); [|exact Hok|]; [|rewrite (bind_some _ _ _ E)].

Lemma csv_text : exists cs, Status.status_csv_format http stream (flag_of a) = Some cs /\ page_is cs (csv_page a H S).
Proof.
  unfold Status.status_csv_format. at_walk (HH 0).
  rows_tac (Status.csv_row "http") (csv_line "http") (H 0%nat) (proj2 (HH 0)) rh Fh; [apply csv_row_prints; by left|].
  at_walk (HS 1). rows_tac (Status.csv_row "stream") (csv_line "stream") (S 1%nat) (proj2 (HS 1)) rs Fs; [apply csv_row_prints; by right|].
  eexists. split; [reflexivity|]. unfold csv_page. apply page_is_app; [apply page_is_one; text_tac; app_shape|].
  apply page_is_app; by apply page_is_rows.
Qed.

Lemma page_is_eq cs t t' : page_is cs t -> t = t' -> page_is cs t'.
Proof. by intros ? <-. Qed.

(** A call without peers, with the text the format gives. *)
Ltac call_tac := apply page_is_one; text_tac; reflexivity.

Lemma html_text : exists cs, Status.status_html_format http stream (flag_of a) = Some cs /\ page_is cs (html_page a H S).
Proof.
  unfold Status.status_html_format. at_walk (HS 0). at_walk (HH 1). at_walk (HH 2).
  rows_tac html_row html_line (H 2%nat) (proj2 (HH 2)) rh Fh; [apply html_row_prints|].
  at_walk (HS 3). rows_tac html_row html_line (S 3%nat) (proj2 (HS 3)) rs Fs; [apply html_row_prints|].
  assert (Hdn : forall l, number (count l - count (listed UpPeers l)) = len_text (listed DownPeers l)).
  { intros l. unfold len_text. f_equal. unfold count. pose proof (listed_split l). lia. }
  eexists. split; [reflexivity|]. eapply page_is_eq.
  - apply page_is_app; [call_tac|]. apply page_is_app; [unfold Status.html_counts; cbv zeta; call_tac|].
    apply page_is_app; [by apply page_is_rows|]. apply page_is_app; [call_tac|].
    apply page_is_app; [unfold Status.html_counts; cbv zeta; call_tac|]. apply page_is_app; [by apply page_is_rows|call_tac].
  - rewrite !up_listed, !Hdn, !count_number. unfold html_page, html_table.
    replace (number (count (S 0%nat) + count (H 1%nat))) with (len_text (S 0%nat ++ H 1%nat)) by (unfold len_text, count; rewrite length_app; f_equal; lia).
    app_shape.
Qed.

Lemma json_text : exists cs, Status.status_json_format http stream generation (flag_of a) = Some cs /\ page_is cs (json_page generation a H S).
Proof.
  unfold Status.status_json_format. at_walk (HS 0). cbv zeta. at_walk (HH 1). at_walk (HH 2). rewrite !shown_listed.
  destruct (json_rows_text (length (listed a (H 1%nat))) 0 (listed a (H 2%nat))) as (rh & Eh & Fh).
  { apply listed_ok, HH. } { pose proof (listed_length a (H 2%nat)). destruct (Hlen 2). lia. }
  unfold count at 1. rewrite (bind_some _ _ _ Eh). at_walk (HS 3). rewrite shown_listed.
  destruct (json_rows_text (length (listed a (S 0%nat))) 0 (listed a (S 3%nat))) as (rs & Es & Fs).
  { apply listed_ok, HS. } { pose proof (listed_length a (S 3%nat)). destruct (Hlen 3). lia. }
  unfold count at 1. rewrite (bind_some _ _ _ Es). eexists. split; [reflexivity|]. eapply page_is_eq.
  - apply page_is_app; [call_tac|]. apply page_is_app; [by apply page_is_rows|]. apply page_is_app; [call_tac|].
    apply page_is_app; [by apply page_is_rows|]. apply (page_is_app [_] [_]); call_tac.
  - unfold json_page, json_lines, len_text, count. rewrite length_app, Nat2Z.inj_add. app_shape.
Qed.

Lemma metric_rows_text c f k :
  (forall ty, prints (c ty) (f ty)) ->
  exists cs, Status.metric_rows (flag_of a) c [(s2b "http", H k); (s2b "stream", S k)] = Some cs /\ page_is cs (metric_lines a H S f k).
Proof.
  intros Hp. destruct (print_rows_text a (c (s2b "http")) (f (s2b "http")) (H k)) as (rh & Eh & Fh); [done|apply HH|].
  destruct (print_rows_text a (c (s2b "stream")) (f (s2b "stream")) (S k)) as (rs & Es & Fs); [done|apply HS|].
  exists (rh ++ rs). split; [|by apply page_is_app; apply page_is_rows]. unfold Status.metric_rows.
  rewrite (mapM_Some_2 _ _ [rh; rs]) by (repeat constructor; done). cbn. by rewrite app_nil_r.
Qed.

Lemma both_walks_rows k : Status.both_walks http stream k = Some [(s2b "http", H k); (s2b "stream", S k)].
Proof. unfold Status.both_walks. at_walk (HH k). at_walk (HS k). done. Qed.

Lemma prometheus_text :
  exists cs, Status.status_prometheus_format http stream generation (flag_of a) = Some cs /\ page_is cs (prometheus_page generation a H S).
Proof.
  unfold Status.status_prometheus_format. rewrite (bind_some _ _ _ (both_walks_rows 0)). cbv zeta. cbn [fmap list_fmap concat snd].
  rewrite app_nil_r, shown_listed, up_listed, down_listed.
  rewrite (bind_some _ _ _ (both_walks_rows 1)).
  destruct (metric_rows_text (Status.counter_row "nginx_upstream_server_rise" a_rise) (counter_line "nginx_upstream_server_rise" rise_text) 1)
    as (c1 & E1 & F1); [intros ty; apply counter_row_prints; by left|]. rewrite (bind_some _ _ _ E1), (bind_some _ _ _ (both_walks_rows 2)).
  destruct (metric_rows_text (Status.counter_row "nginx_upstream_server_fall" a_fall) (counter_line "nginx_upstream_server_fall" fall_text) 2)
    as (c2 & E2 & F2); [intros ty; apply counter_row_prints; by right|]. rewrite (bind_some _ _ _ E2), (bind_some _ _ _ (both_walks_rows 3)).
  destruct (metric_rows_text Status.active_row active_line 3) as (c3 & E3 & F3); [apply active_row_prints|]. rewrite (bind_some _ _ _ E3).
  eexists. split; [reflexivity|]. eapply page_is_eq.
  - apply page_is_app; [call_tac|]. apply page_is_app; [call_tac|]. apply page_is_app; [exact F1|]. apply page_is_app; [call_tac|].
    apply page_is_app; [exact F2|]. apply page_is_app; [call_tac|exact F3].
  - rewrite !count_number. unfold prometheus_page, gauge, metric_head. cbv zeta. app_shape.
Qed.

Lemma output_text f :
  exists cs, Status.output http stream generation (flag_of a) f = Some cs /\ page_is cs (page_text generation a H S f).
Proof. destruct f; [apply html_text|apply csv_text|apply json_text|apply prometheus_text]. Qed.
End Output.
