(* ===== verification/StatusHandler.v ===== *)
(** * Answers of the status handler

    What a request to a location with [healthcheck_status] is answered: the
    page in the format the query string or the directive asks for, with the
    peers the query string asks for. *)

From S2P Require Import Prelude NgxString StatusLine CheckTypes CheckProto CheckCore.
From S2P Require Import HttpArgs CheckConf StatusPage PrintText StatusBounds StatusText.

(** ** Specification *)

(** The value of a parameter of the query string. *)
Definition query (args : bytes) (n : string) : option bytes :=
  first_some (param_value (s2b n)) (params args).

Section Spec.
Context {output_pt : Set} (formats : list (ngx_check_status_conf_t output_pt)).

Definition format_named (v : bytes) : option (ngx_check_status_conf_t output_pt) :=
  List.find (fun f => bool_decide (sc_format f = v)) formats.

(** The format of a request: the one it names if that exists, or the location's. *)
Definition format_asked (args : bytes) (f0 : ngx_check_status_conf_t output_pt) : ngx_check_status_conf_t output_pt :=
  default f0 (v ← query args "format"; format_named v).

(** Only peers that are down, only peers that are up, or all. *)
Definition flag_asked (args : bytes) : Z :=
  match query args "status" with
  | Some v => if bool_decide (to_low <$> v = s2b "down") then NGX_CHECK_STATUS_DOWN
              else if bool_decide (to_low <$> v = s2b "up") then NGX_CHECK_STATUS_UP else 0
  | None => 0
  end.

(** ** The routines meet it *)

Context (Hf : Forall (fun f => nul_free (sc_format f)) formats).

Lemma strncmp_eq a b :
  nul_free b -> length a = length b -> (ngx_strncmp a b (length a) =? 0) = bool_decide (a = b).
Proof.
  revert b; induction a as [|x a IH]; intros [|y b] Hb Hl; try done.
  apply Forall_cons in Hb as [Hy Hb]. cbn [length ngx_strncmp hd tl] in *.
  destruct (Z.eqb_spec x y) as [->|Hxy].
  - destruct (Z.eqb_spec y 0); [lia|]. rewrite IH by (done || lia). apply bool_decide_ext. naive_solver.
  - rewrite bool_decide_eq_false_2 by naive_solver. destruct (Z.eqb_spec (x - y) 0); [lia|done].
Qed.

Lemma get_format_named v : get_check_status_format_conf formats v = format_named v.
Proof.
  unfold get_check_status_format_conf, format_named. induction Hf as [|f l Hn H IH]; [done|]. cbn [get_format List.find].
  specialize (IH H). destruct (Z.eqb_spec (blen v) (blen (sc_format f))) as [E|E]; cbn [negb].
  - rewrite strncmp_eq by (done || (unfold blen in E; lia)). rewrite IH.
    do 2 case_bool_decide; congruence.
  - rewrite IH. rewrite bool_decide_eq_false_2; [done|]. by intros <-.
Qed.

Lemma same_word v w : nul_free w -> to_low <$> w = w ->
  ((blen v =? blen w) && (ngx_strncasecmp v w (length v) =? 0)) = bool_decide (to_low <$> v = w).
Proof.
  intros Hw Hlow. destruct (Z.eqb_spec (blen v) (blen w)) as [E|E]; cbn [andb].
  - assert (El : length v = length w) by (unfold blen in E; lia). rewrite El.
    pose proof (strncasecmp_zero v w Hw) as H. rewrite Hlow, take_ge in H by lia.
    case_bool_decide as Hd; [by apply Z.eqb_eq, H|]. apply Z.eqb_neq. by rewrite H.
  - rewrite bool_decide_eq_false_2; [done|]. intros <-. unfold blen in E. by rewrite length_fmap in E.
Qed.

Lemma word_nul_free : nul_free (s2b "format") /\ nul_free (s2b "status") /\ nul_free (s2b "down") /\ nul_free (s2b "up").
Proof. split_and!; repeat (constructor; [by compute|]); constructor. Qed.

Lemma amp_free : (AMP ∉ s2b "format") /\ (AMP ∉ s2b "status").
Proof. split; intros H; repeat (apply elem_of_cons in H as [H|H]; [discriminate|]); by apply elem_of_nil in H. Qed.

Lemma parse_args_spec args :
  status_parse_args formats args (mk_status_ctx None 0)
  = mk_status_ctx (v ← query args "format"; format_named v) (flag_asked args).
Proof.
  unfold status_parse_args. destruct word_nul_free as (Wf & Ws & Wd & Wu), amp_free as [Af As].
  destruct (Z.eqb_spec (blen args) 0) as [E|_].
  { destruct args; [done|]. rewrite blen_cons in E. pose proof (blen_nonneg args). lia. }
  cbn [fold_left ngx_check_status_commands fst snd].
  rewrite !http_arg_params by done. fold (query args "format"). fold (query args "status").
  assert (Hst : forall ctx, ctx_flag ctx = 0 ->
            match query args "status" with Some v => status_command_status ctx v | None => ctx end
            = mk_status_ctx (output_pt := output_pt) (ctx_format ctx) (flag_asked args)).
  { intros [cf fl]. cbn [ctx_flag ctx_format]. intros ->. unfold flag_asked. destruct (query args "status") as [v|]; [|done].
    unfold status_command_status. cbn [ctx_flag ctx_format].
    pose proof (same_word v _ Wd eq_refl) as Ed. change (blen (s2b "down")) with 4 in Ed. rewrite Ed.
    pose proof (same_word v _ Wu eq_refl) as Eu. change (blen (s2b "up")) with 2 in Eu. rewrite Eu.
    by repeat case_bool_decide. }
  rewrite Hst by by destruct (query args "format"). f_equal.
  destruct (query args "format") as [v|]; [|done]. cbn. by rewrite get_format_named.
Qed.

(** A request that is answered with a page. *)
Lemma handler_get size output lc fw args n f0 :
  lc_format lc = Ptr f0 -> size = Some (Some n) ->
  fw_discard fw = 0 -> fw_ctx fw = true -> fw_buf fw = true ->
  stop_after (fst (fw_header fw)) (snd (fw_header fw)) = false ->
  let f := format_asked args f0 in
  forall calls page, output (sc_output f) (flag_asked args) = Some calls ->
  print (Z.to_nat n) calls [] = Some page -> page <> [] ->
  status_handler formats size output lc fw (mk_request NGX_HTTP_GET args)
  = Some (mk_answer (fw_output fw) [mk_header NGX_HTTP_OK (sc_content_type f) (Some (blen page))] (Some page)).
Proof.
  intros Elc -> Ed Ec Eb Hstop f calls page Eo Ep Hne. unfold status_handler. cbn [rq_method rq_args].
  rewrite Ed, Ec. cbn [negb Z.eqb]. rewrite parse_args_spec. cbn [ctx_format ctx_flag]. rewrite Elc.
  replace (match v ← query args "format"; format_named v with Some f => Some f | None => Some f0 end)
    with (Some f) by (unfold f, format_asked; by destruct (v ← query args "format"; format_named v)).
  cbn [mbind option_bind]. rewrite Eb. cbn [negb]. rewrite Eo. cbn [mbind option_bind]. rewrite Ep. cbn [mbind option_bind app].
  destruct (Z.eqb_spec (blen page) 0) as [E|_].
  { destruct page; [done|]. rewrite blen_cons in E. pose proof (blen_nonneg page). lia. }
  by rewrite orb_false_r, Hstop.
Qed.

End Spec.

(** ** [ngx_healthcheck_status.c] *)

Lemma status_formats_nul_free : Forall (fun f => nul_free (sc_format f)) Status.ngx_check_status_formats.
Proof. repeat (constructor; [repeat (constructor; [by compute|]); constructor|]). constructor. Qed.

(** The location's format: the directive's argument, or html. *)
Definition location_format (dargs : list bytes) : option (ngx_check_status_conf_t Status.output_pt) :=
  match dargs with
  | [v] => format_named Status.ngx_check_status_formats v
  | _ => format_named Status.ngx_check_status_formats (s2b "html")
  end.

Lemma location_format_ptr dargs lc lc1 :
  Status.ngx_upstream_check_create_loc_conf true = Some lc ->
  Status.ngx_upstream_check_status dargs lc = (NGX_CONF_OK, lc1) ->
  exists f0, location_format dargs = Some f0
    /\ lc_format (Status.ngx_upstream_check_merge_loc_conf lc lc1) = Ptr f0 /\ lc_handler lc1 = true.
Proof.
  intros [= <-]. unfold Status.ngx_upstream_check_status, check_status, location_format.
  rewrite <- !(get_format_named _ status_formats_nul_free).
  destruct dargs as [|v [|v' dargs]]; [| |]; try (intros [= <-]; eexists; by split_and!).
  rewrite <- (get_format_named _ status_formats_nul_free).
  destruct (get_check_status_format_conf Status.ngx_check_status_formats v) as [f|]; [|done].
  intros [= <-]. exists f. by split_and!.
Qed.

(** *** What is asked for *)

Definition format_name (f : Status.output_pt) : bytes :=
  s2b match f with Status.html_format => "html" | Status.csv_format => "csv" | Status.json_format => "json"
                 | Status.prometheus_format => "prometheus" end.

Definition content_type (f : Status.output_pt) : bytes :=
  s2b match f with Status.html_format => "text/html" | Status.json_format => "application/json" | _ => "text/plain" end.

Definition known_format (v : bytes) : option Status.output_pt :=
  List.find (fun f => bool_decide (format_name f = v))
    [Status.html_format; Status.csv_format; Status.json_format; Status.prometheus_format].

(** The format the query string names, else the one of the directive, else html. *)
Definition format_wanted (dargs : list bytes) (args : bytes) : Status.output_pt :=
  match query args "format" ≫= known_format with
  | Some f => f
  | None => match dargs with [v] => default Status.html_format (known_format v) | _ => Status.html_format end
  end.

(** The peers the query string asks for, in any case. *)
Definition peers_wanted (args : bytes) : peers_asked :=
  match query args "status" with
  | Some v => if decide (to_low <$> v = s2b "down") then DownPeers else if decide (to_low <$> v = s2b "up") then UpPeers else AllPeers
  | None => AllPeers
  end.

Definition conf_of (f : Status.output_pt) : ngx_check_status_conf_t Status.output_pt :=
  mk_status_conf (format_name f) (content_type f) f.

Lemma format_named_known v : format_named Status.ngx_check_status_formats v = conf_of <$> known_format v.
Proof.
  change Status.ngx_check_status_formats with (conf_of <$> [Status.html_format; Status.csv_format; Status.json_format; Status.prometheus_format]).
  unfold format_named, known_format. induction [Status.html_format; _; _; _] as [|f l IH]; [done|]. cbn [fmap list_fmap List.find].
  rewrite IH. cbn [conf_of sc_format]. by destruct (bool_decide _).
Qed.

Lemma format_asked_wanted dargs args f0 :
  location_format dargs = Some f0 -> format_asked Status.ngx_check_status_formats args f0 = conf_of (format_wanted dargs args).
Proof.
  intros Hf. assert (f0 = conf_of (match dargs with [v] => default Status.html_format (known_format v) | _ => Status.html_format end)) as ->.
  { unfold location_format in Hf. assert (Hh : known_format (s2b "html") = Some Status.html_format) by reflexivity.
    destruct dargs as [|v [|]]; rewrite format_named_known in Hf; try (rewrite Hh in Hf; by injection Hf as <-).
    destruct (known_format v); [by injection Hf as <-|done]. }
  unfold format_asked, format_wanted. destruct (query args "format") as [v|]; cbn [mbind option_bind]; [|done].
  rewrite format_named_known. by destruct (known_format v).
Qed.

Lemma flag_asked_wanted args : flag_asked args = flag_of (peers_wanted args).
Proof.
  unfold flag_asked, peers_wanted. destruct (query args "status") as [v|]; [|done].
  repeat case_bool_decide; repeat case_decide; done || congruence.
Qed.

(** C39: what a request for the status is answered.  In a location whose
    [healthcheck_status] directive was accepted, a GET request gets the status
    200, the content type of the format and the whole page, with its length in
    the header.  The format is the one the parameter [format] of the query
    string names if there is one of that name, else the directive's, else
    html; the peers are those that are down for [status=down], those that are
    up for [status=up], in any case, and all otherwise; nothing else in the
    query string matters.  The page is, byte for byte, the text [page_text]
    specifies: for every peer asked for a line (for Prometheus one per metric)
    with its index, names, state, counters, check type and port, as the shared
    memory has them when the line's loop passes, and the counts of peers.  The
    http framework does its part, pages have a power of two of at least 4096
    bytes, and the names of an upstream and a server together have at most 160
    bytes: the buffer has a quarter of a page for each peer. *)
Theorem status_request_answered http stream H S n m generation k dargs lc lc1 fw args :
  (forall j, sees (http j) (H j) /\ length (H j) = n /\ Forall row_ok (H j)) ->
  (forall j, match stream with Some w => sees (w j) (S j) | None => S j = [] end /\ length (S j) = m /\ Forall row_ok (S j)) ->
  12 <= k <= 60 -> Z.of_nat (n + m) * 2 ^ k < 2 ^ 62 ->
  Status.ngx_upstream_check_create_loc_conf true = Some lc ->
  Status.ngx_upstream_check_status dargs lc = (NGX_CONF_OK, lc1) ->
  fw_discard fw = 0 -> fw_ctx fw = true -> fw_buf fw = true ->
  stop_after (fst (fw_header fw)) (snd (fw_header fw)) = false ->
  let f := format_wanted dargs args in
  let page := page_text generation (peers_wanted args) H S f in
  Status.ngx_upstream_check_status_handler (2 ^ k) generation (Some http) stream
    (Status.ngx_upstream_check_merge_loc_conf lc lc1) fw (mk_request NGX_HTTP_GET args)
  = Some (mk_answer (fw_output fw) [mk_header NGX_HTTP_OK (content_type f) (Some (blen page))] (Some page)).
Proof.
  intros HH HS Hk Hb Hlc Hdir Ed Ec Eb Hstop f page.
  destruct (location_format_ptr dargs lc lc1 Hlc Hdir) as (f0 & Ef0 & Elc & _).
  assert (Hh : walks_ok http n) by (intros j; destruct (HH j) as (E%walk_sees & ? & ?); by exists (H j)).
  assert (HSw : forall j, Status.stream_walk stream j = Some (S j)).
  { intros j. destruct (HS j) as (E & _). unfold Status.stream_walk. destruct stream; [by apply walk_sees|by rewrite E]. }
  assert (Hs : stream_ok stream m).
  { unfold stream_ok. destruct stream as [w|]; [intros j; destruct (HS j) as (E%walk_sees & ? & ?); by exists (S j)|].
    destruct (HS 0%nat) as (E & <- & _). by rewrite E. }
  assert (Hp : 2 ^ 12 <= 2 ^ k) by (apply Z.pow_le_mono_r; lia).
  destruct (output_text http stream generation (peers_wanted args) H S) with (f := f) as (calls' & Eo' & ts & Ht & Ets).
  { intros j. destruct (HH j) as (E%walk_sees & _ & ?). done. } { intros j. split; [apply HSw|apply HS]. }
  { intros j. destruct (HH j) as (_ & -> & _), (HS j) as (_ & -> & _). nia. }
  destruct (page_complete http stream n m generation (flag_asked args) k f _ Hh Hs Hk Hb eq_refl)
    as (calls & page' & Eo & Ep & Hne & Hl).
  rewrite flag_asked_wanted, Eo' in Eo. injection Eo as <-.
  assert (page' = page) as ->.
  { specialize (Hl (Nat.max _ (length (concat ts))) (Nat.le_max_l _ _)).
    rewrite (print_texts _ _ _ Ht), take_ge in Hl by lia. injection Hl as <-. exact Ets. }
  pose proof (format_asked_wanted dargs args f0 Ef0) as Efw. fold f in Efw.
  unfold Status.ngx_upstream_check_status_handler.
  pose proof (handler_get _ status_formats_nul_free (Status.page_size (2 ^ k) (Some http) stream)
    (fun f flag => h ← Some http; Status.output h stream generation flag f) _ fw args _ f0 Elc eq_refl Ed Ec Eb Hstop calls' page) as Hg.
  cbv zeta in Hg. rewrite Efw in Hg. cbn [sc_output sc_content_type conf_of] in Hg. rewrite flag_asked_wanted in Hg. by apply Hg.
Qed.

Definition ex_framework : framework := mk_framework 0 true true (0, true) (0, false) 0.

Definition ex_seen (d : Z) : list row := default [] (walk (ex_walk d)).

Lemma ex_sees d : sees (ex_walk d) (ex_seen d) /\ length (ex_seen d) = 2%nat /\ Forall row_ok (ex_seen d).
Proof.
  split; [|split; [reflexivity|repeat constructor; eexists; (split; [reflexivity|]); cbn; lia]]. split; [reflexivity|].
  intros [|[|i]] r [= <-]; (split; [reflexivity|split; [reflexivity|]]); eexists _, _; (split; [reflexivity|split; reflexivity]).
Qed.

(** One of two servers is down; the query string asks for it in CSV. *)
Lemma status_request_answered_witness :
  let page := lines ["index,upstream_type,upstream_name,host,rise,fall,check_type,check_port,status";
                     "1,http,backend,10.0.0.2:80,0,3,tcp,0,down"] in
  Status.ngx_upstream_check_status_handler (2 ^ 12) 1 (Some (fun _ => ex_walk 1)) None
    (Status.ngx_upstream_check_merge_loc_conf (mk_loc_conf false Unset)
       (snd (Status.ngx_upstream_check_status [s2b "json"] (mk_loc_conf false Unset))))
    ex_framework (mk_request NGX_HTTP_GET (s2b "Format=csv&status=DOWN"))
  = Some (mk_answer 0 [mk_header 200 (s2b "text/plain") (Some (blen page))] (Some page)).
Proof.
  apply (status_request_answered (fun _ => ex_walk 1) None (fun _ => ex_seen 1) (fun _ => []) 2 0 1 12 [s2b "json"] (mk_loc_conf false Unset) _
           ex_framework (s2b "Format=csv&status=DOWN"));
    [intros _; apply ex_sees|intros _; split; [reflexivity|split; [reflexivity|constructor]]|lia|lia|reflexivity|reflexivity|reflexivity|reflexivity|reflexivity|reflexivity].
Defined.
