(* ===== verification/Json.v ===== *)
(** * A reader of JSON

    The specification of the JSON pages: a reader of the part of JSON they
    use, that is objects, arrays, strings without escapes and natural numbers.
    It takes what RFC 8259 takes: white space between tokens, no comma before
    a closing bracket, no leading zeros, no control characters in strings. *)

From S2P Require Import Prelude NgxString.

#[local] Unset Elimination Schemes.
Inductive json : Set :=
| JNum (n : Z)
| JStr (s : bytes)
| JArr (l : list json)
| JObj (l : list (bytes * json)).
#[local] Set Elimination Schemes.

Definition QUOTE : Z := 34.

Definition is_ws (c : Z) : bool := (c =? SP) || (c =? LF) || (c =? CR) || (c =? 9).

Fixpoint skip_ws (s : bytes) : bytes :=
  match s with
  | c :: s' => if is_ws c then skip_ws s' else s
  | [] => []
  end.

(** The rest of a string after the opening quote. *)
Fixpoint read_string (s : bytes) : option (bytes * bytes) :=
  match s with
  | [] => None
  | c :: s' =>
    if c =? QUOTE then Some ([], s')
    else if (c =? 92) || (c <? 32) then None
    else '(v, r) ← read_string s'; Some (c :: v, r)
  end.

Definition digitb (c : Z) : bool := (ch "0" <=? c) && (c <=? ch "9").

Fixpoint read_digits (s : bytes) (v : Z) : Z * bytes :=
  match s with
  | c :: s' => if digitb c then read_digits s' (v * 10 + (c - ch "0")) else (v, s)
  | [] => (v, [])
  end.

Definition read_number (s : bytes) : option (Z * bytes) :=
  match s with
  | c :: s' =>
    if c =? ch "0" then
      if digitb (hd 0 s') then None else Some (0, s')
    else if digitb c then Some (read_digits s 0) else None
  | [] => None
  end.

Fixpoint read_value (fuel : nat) (s : bytes) : option (json * bytes) :=
  match fuel with
  | O => None
  | S fuel =>
    match skip_ws s with
    | [] => None
    | c :: r =>
      if c =? QUOTE then '(v, r) ← read_string r; Some (JStr v, r)
      else if c =? ch "[" then
        match skip_ws r with
        | d :: r' => if d =? ch "]" then Some (JArr [], r') else '(l, r) ← read_elems fuel r; Some (JArr l, r)
        | [] => None
        end
      else if c =? ch "{" then
        match skip_ws r with
        | d :: r' => if d =? ch "}" then Some (JObj [], r') else '(l, r) ← read_members fuel r; Some (JObj l, r)
        | [] => None
        end
      else '(n, r) ← read_number (c :: r); Some (JNum n, r)
    end
  end
with read_elems (fuel : nat) (s : bytes) : option (list json * bytes) :=
  match fuel with
  | O => None
  | S fuel =>
    '(v, r) ← read_value fuel s;
    match skip_ws r with
    | c :: r =>
      if c =? ch "," then '(l, r) ← read_elems fuel r; Some (v :: l, r)
      else if c =? ch "]" then Some ([v], r) else None
    | [] => None
    end
  end
with read_members (fuel : nat) (s : bytes) : option (list (bytes * json) * bytes) :=
  match fuel with
  | O => None
  | S fuel =>
    match skip_ws s with
    | c :: r =>
      if c =? QUOTE then
        '(k, r) ← read_string r;
        match skip_ws r with
        | c :: r =>
          if c =? ch ":" then
            '(v, r) ← read_value fuel r;
            match skip_ws r with
            | c :: r =>
              if c =? ch "," then '(l, r) ← read_members fuel r; Some ((k, v) :: l, r)
              else if c =? ch "}" then Some ([(k, v)], r) else None
            | [] => None
            end
          else None
        | [] => None
        end
      else None
    | [] => None
    end
  end.

(** A whole text; every byte costs at most one unit of fuel. *)
Definition json_parse (s : bytes) : option json :=
  '(v, r) ← read_value (S (length s)) s;
  match skip_ws r with [] => Some v | _ => None end.

(** ** Tokens *)

Definition ws (w : bytes) : Prop := Forall (fun c => is_ws c = true) w.

(** Bytes a string needs no escape for. *)
Definition plain (s : bytes) : Prop := Forall (fun c => c <> QUOTE /\ c <> 92 /\ 32 <= c) s.

Lemma skip_ws_app w s : ws w -> skip_ws (w ++ s) = skip_ws s.
Proof. induction 1 as [|c w Hc H IH]; [done|]. cbn. by rewrite Hc. Qed.

Lemma skip_ws_stop c s : is_ws c = false -> skip_ws (c :: s) = c :: s.
Proof. intros H. cbn. by rewrite H. Qed.

Lemma read_string_plain s r : plain s -> read_string (s ++ QUOTE :: r) = Some (s, r).
Proof.
  induction 1 as [|c s (Hq & Hb & Hc) H IH]; [done|]. cbn [read_string app].
  destruct (Z.eqb_spec c QUOTE); [done|]. destruct (Z.eqb_spec c 92); [done|].
  destruct (Z.ltb_spec c 32); [lia|]. by rewrite IH.
Qed.

Lemma digitb_spec c : digitb c = true <-> is_digit c.
Proof. unfold digitb, is_digit. rewrite andb_true_iff, !Z.leb_le. done. Qed.

Lemma read_digits_app ds v c r :
  Forall is_digit ds -> digitb c = false -> read_digits (ds ++ c :: r) v = (dec_from v ds, c :: r).
Proof.
  intros H Hc. revert v; induction H as [|d ds Hd H IH]; intros v; cbn [read_digits app]; [by rewrite Hc|].
  apply digitb_spec in Hd. rewrite Hd, IH. f_equal.
Qed.

(** Printed numbers have no leading zero. *)
Lemma num_loop_lead fuel x p :
  0 < x < 10 ^ Z.of_nat fuel -> exists d l, num_loop fuel 10 (fun d => d + ch "0") x p = d :: l /\ d <> ch "0".
Proof.
  revert x p; induction fuel as [|fuel IH]; intros x p Hx; [cbn in Hx; lia|]. cbn [num_loop].
  destruct (Z.eqb_spec (x / 10) 0) as [E|E].
  - eexists _, _. split; [done|]. dlia.
  - apply IH. rewrite Nat2Z.inj_succ, Z.pow_succ_r in Hx by lia. set (b := 10 ^ Z.of_nat fuel) in *. dlia.
Qed.

Lemma read_number_text n c r : in_u64 n -> digitb c = false -> read_number (num_text n 0 ++ c :: r) = Some (n, c :: r).
Proof.
  intros Hn Hc. destruct (decide (n = 0)) as [->|Hz].
  { change (num_text 0 0) with [ch "0"]. cbn [app read_number hd]. by rewrite Z.eqb_refl, Hc. }
  destruct (num_loop_lead 20 n []) as (d & l & E & Hd); [unfold in_u64 in Hn; cbn; lia|].
  destruct (num_text_dec n Hn) as (ds & Eds & _ & Hdig & Hv).
  assert (E' : ds = d :: l) by by rewrite <- Eds. rewrite Eds, E' in *. cbn [app read_number].
  destruct (Z.eqb_spec d (ch "0")); [done|].
  assert (Hdd : digitb d = true) by (apply digitb_spec; by apply Forall_cons in Hdig as [? _]).
  rewrite Hdd. rewrite app_comm_cons, read_digits_app by done. fold (dec_value (d :: l)). by rewrite Hv.
Qed.

(** ** Values

    [reads F t v]: with [F] units of fuel the reader reads [t] as [v], or
    rejects it when [v] is [None], whatever follows. *)

Definition reads (F : nat) (t : bytes) (v : option json) : Prop :=
  forall f c rest, (F <= f)%nat -> digitb c = false ->
  read_value f (t ++ c :: rest) = (fun v => (v, c :: rest)) <$> v.

Lemma reads_weaken F G t v : (F <= G)%nat -> reads F t v -> reads G t v.
Proof. intros H Hr f c rest Hf. apply Hr. lia. Qed.

Lemma reads_str w s : ws w -> plain s -> reads 1 (w ++ QUOTE :: s ++ [QUOTE]) (Some (JStr s)).
Proof.
  intros Hw Hs f c rest Hf _. destruct f as [|f]; [lia|]. cbn [read_value].
  rewrite <- app_assoc, skip_ws_app, <- app_comm_cons, skip_ws_stop by done.
  rewrite Z.eqb_refl, <- app_assoc. cbn [app]. by rewrite read_string_plain.
Qed.

Lemma digit_token d : is_digit d ->
  is_ws d = false /\ (d =? QUOTE) = false /\ (d =? ch "[") = false /\ (d =? ch "{") = false.
Proof.
  unfold is_digit. change (ch "0") with 48. change (ch "9") with 57. intros H.
  unfold is_ws, SP, LF, CR, QUOTE. change (ch "[") with 91. change (ch "{") with 123.
  rewrite !orb_false_iff, !Z.eqb_neq. lia.
Qed.

Lemma reads_num w n : ws w -> reads 1 (w ++ num_text (u64 n) 0) (Some (JNum (u64 n))).
Proof.
  intros Hw f c rest Hf Hc. destruct f as [|f]; [lia|]. cbn [read_value]. rewrite <- app_assoc, skip_ws_app by done.
  pose proof (read_number_text (u64 n) c rest (u64_range n) Hc) as Hr.
  destruct (num_text_dec (u64 n) (u64_range n)) as (ds & Eds & Hne & Hd & _). rewrite Eds in *.
  destruct ds as [|d ds]; [done|]. apply Forall_cons in Hd as [Hd _].
  destruct (digit_token d Hd) as (H1 & H2 & H3 & H4). rewrite <- app_comm_cons, skip_ws_stop, H2, H3, H4 by done.
  rewrite app_comm_cons, Hr. done.
Qed.

(** *** Objects *)

Record member := mk_member { m_lead : bytes; m_key : bytes; m_text : bytes; m_tail : bytes; m_val : option json }.

Definition member_ok (F : nat) (m : member) : Prop :=
  ws (m_lead m) /\ plain (m_key m) /\ ws (m_tail m) /\ reads F (m_text m) (m_val m).

Definition member_text (m : member) : bytes :=
  m_lead m ++ QUOTE :: m_key m ++ QUOTE :: ch ":" :: m_text m ++ m_tail m.

Fixpoint members_text (l : list member) : bytes :=
  match l with
  | [] => []
  | [m] => member_text m
  | m :: l' => member_text m ++ ch "," :: members_text l'
  end.

(** The value of an object with these members. *)
Definition members_val (l : list member) : option (list (bytes * json)) :=
  mapM (fun m => pair (m_key m) <$> m_val m) l.

Lemma members_val_cons m l :
  members_val (m :: l) = v ← m_val m; vs ← members_val l; Some ((m_key m, v) :: vs).
Proof. unfold members_val. cbn. by destruct (m_val m). Qed.

Lemma ws_not_digit c : is_ws c = true -> digitb c = false.
Proof.
  unfold is_ws, digitb, SP, LF, CR. change (ch "0") with 48. change (ch "9") with 57.
  rewrite !orb_true_iff, !Z.eqb_eq. intros H. apply andb_false_iff. rewrite !Z.leb_gt. lia.
Qed.

(** White space, then a byte that is no digit. *)
Lemma reads_tail F t v w f c rest :
  reads F t v -> ws w -> (F <= f)%nat -> digitb c = false ->
  read_value f (t ++ w ++ c :: rest) = (fun v => (v, w ++ c :: rest)) <$> v.
Proof.
  intros Hr Hw Hf Hc. destruct Hw as [|d w Hd Hw]; [by apply Hr|].
  rewrite <- app_comm_cons. apply Hr; [done|by apply ws_not_digit].
Qed.

Lemma read_member F m f c rest :
  member_ok F m -> (F <= f)%nat -> c = ch "," \/ c = ch "}" ->
  read_members (S f) (member_text m ++ c :: rest)
  = v ← m_val m;
    if c =? ch "," then '(l, r) ← read_members f rest; Some ((m_key m, v) :: l, r)
    else Some ([(m_key m, v)], rest).
Proof.
  intros (Hl & Hk & Ht & Hr) Hf Hc.
  assert (Hd : digitb c = false /\ is_ws c = false) by (destruct Hc as [-> | ->]; done). destruct Hd as [Hd Hs].
  unfold member_text. rewrite <- app_assoc. cbn [read_members]. rewrite skip_ws_app by done.
  cbn [app]. rewrite skip_ws_stop, Z.eqb_refl by done.
  replace ((m_key m ++ QUOTE :: ch ":" :: m_text m ++ m_tail m) ++ c :: rest)
    with (m_key m ++ QUOTE :: ch ":" :: m_text m ++ m_tail m ++ c :: rest) by (by rewrite <- !app_assoc; cbn; rewrite <- app_assoc).
  rewrite read_string_plain by done. cbn [mbind option_bind]. rewrite skip_ws_stop, Z.eqb_refl by done.
  rewrite (reads_tail F _ (m_val m)) by done. destruct (m_val m) as [v|]; [|done].
  cbn [fmap option_fmap option_map mbind option_bind]. rewrite skip_ws_app, skip_ws_stop by done.
  destruct Hc as [-> | ->]; done.
Qed.

Lemma read_members_text F l f rest :
  l <> [] -> Forall (member_ok F) l -> (length l + F <= f)%nat ->
  read_members f (members_text l ++ ch "}" :: rest) = (fun vs => (vs, rest)) <$> members_val l.
Proof.
  intros Hne H. revert f; induction H as [|m l Hm H IH]; intros f Hf; [done|]. cbn [length] in Hf.
  destruct f as [|f]; [lia|]. destruct l as [|m' l].
  - cbn [members_text members_val]. rewrite (read_member F) by (done || lia || by right).
    unfold members_val. cbn. by destruct (m_val m).
  - change (members_text (m :: m' :: l)) with (member_text m ++ ch "," :: members_text (m' :: l)).
    rewrite <- app_assoc, <- app_comm_cons, (read_member F) by (done || lia || by left). rewrite Z.eqb_refl.
    rewrite IH, (members_val_cons m) by (done || lia).
    destruct (m_val m) as [v|]; [|done]. cbn [mbind option_bind]. by destruct (members_val (m' :: l)).
Qed.

Lemma reads_obj w F l :
  ws w -> l <> [] -> Forall (member_ok F) l ->
  reads (S (length l + F)) (w ++ ch "{" :: members_text l ++ [ch "}"]) (JObj <$> members_val l).
Proof.
  intros Hw Hne H f c rest Hf _. destruct f as [|f]; [lia|]. cbn [read_value].
  rewrite <- app_assoc, skip_ws_app by done. rewrite <- app_comm_cons, skip_ws_stop by done.
  change (ch "{" =? QUOTE) with false. change (ch "{" =? ch "[") with false. rewrite Z.eqb_refl. cbn match.
  rewrite <- app_assoc. cbn [app].
  assert (Hq : exists t, skip_ws (members_text l ++ ch "}" :: c :: rest) = QUOTE :: t).
  { destruct H as [|m l (Hl & _) H]; [done|].
    destruct l; [eexists; cbn [members_text]|eexists; cbn [members_text]; rewrite <- app_assoc];
      unfold member_text; rewrite <- app_assoc, skip_ws_app by done; rewrite <- app_comm_cons; by apply skip_ws_stop. }
  destruct Hq as [t Et]. rewrite Et. change (QUOTE =? ch "}") with false. cbn match.
  rewrite (read_members_text F l f (c :: rest)) by (done || lia). by destruct (members_val l).
Qed.

(** *** Arrays

    An element per line, each with a comma after it or without. *)

Record element := mk_element { e_text : bytes; e_comma : bool; e_val : json }.

Definition elements_text (l : list element) : bytes :=
  concat ((fun e => e_text e ++ (if e_comma e then [ch ","] else []) ++ [LF]) <$> l).

(** A comma after every element but the last. *)
Fixpoint commas_ok (l : list bool) : bool :=
  match l with
  | [] => false
  | [b] => negb b
  | b :: l' => b && commas_ok l'
  end.

Definition elements_val (l : list element) : option json :=
  match l with
  | [] => Some (JArr [])
  | _ => if commas_ok (e_comma <$> l) then Some (JArr (e_val <$> l)) else None
  end.

(** Objects, possibly indented. *)
Definition element_ok (F : nat) (e : element) : Prop :=
  reads F (e_text e) (Some (e_val e)) /\ exists t, forall r, skip_ws (e_text e ++ r) = ch "{" :: t ++ r.

Lemma read_close f w rest : ws w -> read_elems f (w ++ ch "]" :: rest) = None.
Proof.
  intros Hw. destruct f as [|[|f]]; [done|done|]. cbn [read_elems read_value].
  rewrite skip_ws_app, skip_ws_stop by done. done.
Qed.

Lemma read_elems_lf f s : read_elems f (LF :: s) = read_elems f s.
Proof. by destruct f as [|[|f]]. Qed.

Lemma elements_start F l w rest :
  l <> [] -> Forall (element_ok F) l -> exists t, skip_ws (elements_text l ++ w ++ ch "]" :: rest) = ch "{" :: t.
Proof.
  intros Hne H. destruct H as [|e l [_ [t Ht]] H]; [done|]. unfold elements_text. cbn [fmap list_fmap concat].
  rewrite <- !app_assoc. rewrite Ht. by eexists.
Qed.

Lemma read_elems_text F l w f rest :
  l <> [] -> Forall (element_ok F) l -> ws w -> (length l + F <= f)%nat ->
  read_elems f (elements_text l ++ w ++ ch "]" :: rest)
  = if commas_ok (e_comma <$> l) then Some (e_val <$> l, rest) else None.
Proof.
  intros Hne H Hw. revert f; induction H as [|e l [Hr Ht] H IH]; intros f Hf; [done|]. cbn [length] in Hf.
  destruct f as [|f]; [lia|]. unfold elements_text. cbn [fmap list_fmap concat read_elems].
  change (concat ((fun e => e_text e ++ (if e_comma e then [ch ","] else []) ++ [LF]) <$> l)) with (elements_text l).
  set (tail := elements_text l ++ w ++ ch "]" :: rest).
  assert (E : (e_text e ++ (if e_comma e then [ch ","] else []) ++ [LF]) ++ elements_text l
              = e_text e ++ (if e_comma e then [ch ","] else []) ++ LF :: elements_text l) by by rewrite <- !app_assoc.
  rewrite E, <- !app_assoc, <- app_comm_cons. fold tail. destruct (e_comma e) eqn:Ec; cbn [app].
  - rewrite Hr by (done || lia). cbn [fmap option_fmap option_map mbind option_bind]. rewrite skip_ws_stop, Z.eqb_refl, read_elems_lf by done.
    destruct l as [|e' l]; [unfold tail; cbn [elements_text fmap list_fmap concat app]; rewrite read_close by done; done|].
    unfold tail. rewrite IH by (done || lia). cbn [commas_ok fmap list_fmap andb].
    by destruct (match e_comma <$> l with [] => _ | _ :: _ => _ end).
  - rewrite Hr by (done || lia). cbn [fmap option_fmap option_map mbind option_bind].
    change (skip_ws (LF :: tail)) with (skip_ws tail).
    destruct l as [|e' l].
    + unfold tail. cbn [elements_text fmap list_fmap concat app]. rewrite skip_ws_app, skip_ws_stop by done. done.
    + destruct (elements_start F (e' :: l) w rest) as [t Et]; [done|done|]. unfold tail. rewrite Et. done.
Qed.

Lemma reads_arr w w' F l :
  ws w -> ws w' -> Forall (element_ok F) l ->
  reads (S (length l + F)) (w ++ ch "[" :: LF :: elements_text l ++ w' ++ [ch "]"]) (elements_val l).
Proof.
  intros Hw Hw' H f c rest Hf _. destruct f as [|f]; [lia|]. cbn [read_value].
  rewrite <- app_assoc, skip_ws_app by done. rewrite <- app_comm_cons, skip_ws_stop by done.
  change (ch "[" =? QUOTE) with false. rewrite Z.eqb_refl. cbn match.
  assert (E : (LF :: elements_text l ++ w' ++ [ch "]"]) ++ c :: rest = [LF] ++ elements_text l ++ w' ++ ch "]" :: c :: rest)
    by (cbn; by rewrite <- !app_assoc).
  rewrite E, skip_ws_app by (by repeat constructor).
  destruct l as [|e l].
  - cbn [elements_text fmap list_fmap concat app]. rewrite skip_ws_app, skip_ws_stop by done. done.
  - destruct (elements_start F (e :: l) w' (c :: rest)) as [t Et]; [done|done|]. rewrite Et.
    change (ch "{" =? ch "]") with false. cbn match.
    cbn [app]. rewrite read_elems_lf, (read_elems_text F) by (done || lia). unfold elements_val. by destruct (commas_ok _).
Qed.

(** A text that is one value and white space. *)
Lemma json_parse_reads F t v c w :
  reads F t v -> ws (c :: w) -> (F <= length t)%nat -> json_parse (t ++ c :: w) = v.
Proof.
  intros Hr Hw Hf. unfold json_parse. inversion Hw as [|? ? Hc]; subst.
  rewrite Hr; [|rewrite length_app; lia|by apply ws_not_digit]. destruct v as [v|]; [|done].
  cbn [fmap option_fmap option_map mbind option_bind]. rewrite <- (app_nil_r (c :: w)), skip_ws_app by done. done.
Qed.
