(* ===== verification/StatusJson.v ===== *)
(** * The JSON pages

    Read by the reader of [Json.v], the JSON page of
    [ngx_healthcheck_status.c] gives back the listed peers when the loop that
    counts them and the loop that prints them see the same number; the page of
    the http module does when the last peer is listed. *)

From S2P Require Import Prelude NgxString StatusLine CheckTypes CheckProto CheckCore.
From S2P Require Import HttpArgs CheckConf StatusPage PrintText StatusBounds StatusText Json.

(** ** One peer *)

(** Names that need no escapes. *)
Definition plain_row (r : row) : Prop :=
  plain (upstream_name (fst (snd r))) /\ plain (addr_name (peer_addr (fst (snd r)))) /\ plain (type_text r).

(** The object that stands for a peer. *)
Definition row_json (r : row) : json :=
  JObj [(s2b "index", JNum (u64 (Z.of_nat (fst r))));
        (s2b "upstream", JStr (upstream_name (fst (snd r))));
        (s2b "name", JStr (addr_name (peer_addr (fst (snd r)))));
        (s2b "status", JStr (s2b (if is_down r then "down" else "up")));
        (s2b "rise", JNum (u64 (rise_count (snd (snd r)))));
        (s2b "fall", JNum (u64 (fall_count (snd (snd r)))));
        (s2b "type", JStr (type_text r));
        (s2b "port", JNum (u64 (port (conf (fst (snd r))))))].

Definition num_member (lead : bytes) (k : string) (z : Z) : member :=
  mk_member lead (s2b k) ([SP] ++ num_text (u64 z) 0) [] (Some (JNum (u64 z))).

Definition str_member (k : string) (s : bytes) : member :=
  mk_member [SP] (s2b k) ([SP] ++ QUOTE :: s ++ [QUOTE]) [] (Some (JStr s)).

Definition row_members (r : row) : list member :=
  [num_member [] "index" (Z.of_nat (fst r));
   str_member "upstream" (upstream_name (fst (snd r)));
   str_member "name" (addr_name (peer_addr (fst (snd r))));
   str_member "status" (s2b (if is_down r then "down" else "up"));
   num_member [SP] "rise" (rise_count (snd (snd r)));
   num_member [SP] "fall" (fall_count (snd (snd r)));
   str_member "type" (type_text r);
   num_member [SP] "port" (port (conf (fst (snd r))))].

Definition row_text (r : row) : bytes := lit "    " ++ ch "{" :: members_text (row_members r) ++ [ch "}"].

(** Put concatenations into one shape. *)
Ltac app_norm := repeat first [rewrite <- !app_assoc | rewrite app_nil_r | progress (cbn [app])].

Lemma json_row_text sep r c :
  json_row sep r = Some c -> text c = Some (row_text r ++ sep ++ [LF]).
Proof.
  unfold json_row, a_check_type, row_text, row_members, type_text. intros H.
  apply bind_Some in H as (a & Ha & H). apply bind_Some in Ha as (t & Et & Ha). rewrite Et.
  injection Ha as <-. injection H as <-.
  unfold a_index, a_upstream, a_name, a_status, a_rise, a_fall, a_port.
  replace (lit (if is_down r then "down" else "up")) with (s2b (if is_down r then "down" else "up")) by (by destruct (is_down r)).
  set (st := s2b (if is_down r then "down" else "up")).
  unfold text. cbn [fst snd].
  match goal with |- (ps ← pieces ?f; _) = _ => let v := eval vm_compute in (pieces f) in change (pieces f) with v end.
  cbn [mbind option_bind render fmap option_fmap option_map]. f_equal.
  cbn [members_text]. unfold member_text, num_member, str_member.
  cbn [m_lead m_key m_text m_tail lit s2b fmap list_fmap].
  app_norm. reflexivity.
Qed.

Lemma ws_sp : ws [SP].
Proof. by repeat constructor. Qed.

Lemma num_member_ok lead k z : ws lead -> plain (s2b k) -> member_ok 1 (num_member lead k z).
Proof. intros Hl Hk. split_and!; [done|done|constructor|]. apply reads_num, ws_sp. Qed.

Lemma str_member_ok k s : plain (s2b k) -> plain s -> member_ok 1 (str_member k s).
Proof. intros Hk Hs. split_and!; [apply ws_sp|done|constructor|]. by apply reads_str; [apply ws_sp|]. Qed.

Ltac plain_tac := repeat (constructor; [split_and!; vm_compute; congruence|]); constructor.

Lemma reads_row r : plain_row r -> reads 10 (row_text r) (Some (row_json r)).
Proof.
  intros (Hu & Hn & Ht).
  assert (H : Forall (member_ok 1) (row_members r)).
  { unfold row_members. repeat (apply Forall_cons; split); [..|apply Forall_nil; done];
      first [apply num_member_ok | apply str_member_ok]; try done; try apply ws_sp; try plain_tac; try constructor.
    destruct (is_down r); plain_tac. }
  apply (reads_obj (lit "    ") 1 (row_members r)); [by repeat constructor|done|done].
Qed.

(** ** The list of peers *)

(** The printed peers with the commas after them. *)
Definition row_elements (commas : list bool) (l : list row) : list element :=
  zip_with (fun b r => mk_element (row_text r) b (row_json r)) commas l.

Definition row_line (b : bool) : row -> option call := json_row (if b then lit "," else []).

Lemma row_elements_ok commas l : Forall plain_row l -> Forall (element_ok 10) (row_elements commas l).
Proof.
  intros H. revert commas; induction H as [|r l Hr H IH]; intros [|b commas]; [constructor..|]. constructor; [|apply IH].
  split; [by apply reads_row|]. eexists. intros rest. cbn [e_text]. unfold row_text. rewrite <- app_assoc.
  rewrite skip_ws_app by (by repeat constructor). rewrite <- app_comm_cons. by apply skip_ws_stop.
Qed.

(** The calls print these elements. *)
Lemma row_lines_texts commas l cs :
  Forall2 (fun br c => row_line (fst br) (snd br) = Some c) (zip commas l) cs ->
  texts cs ((fun e => e_text e ++ (if e_comma e then [ch ","] else []) ++ [LF]) <$> row_elements commas l).
Proof.
  revert commas cs; induction l as [|r l IH]; intros [|b commas] cs H; try by (inversion H; constructor).
  inversion H as [|? c ? cs' Hc H']; subst. constructor; [|by apply IH].
  cbn [fst snd e_text e_comma] in *. apply json_row_text in Hc. rewrite Hc. by destruct b.
Qed.

Lemma elements_val_rows commas l :
  length commas = length l ->
  elements_val (row_elements commas l)
  = if bool_decide (l = []) || commas_ok commas then Some (JArr (row_json <$> l)) else None.
Proof.
  intros Hl. destruct l as [|r l], commas as [|b commas]; try done. rewrite bool_decide_eq_false_2 by done. cbn [orb].
  unfold elements_val. change (row_elements (b :: commas) (r :: l)) with (mk_element (row_text r) b (row_json r) :: row_elements commas l).
  cbv iota. set (e := mk_element _ _ _).
  assert (E : e_comma <$> e :: row_elements commas l = b :: commas /\ e_val <$> e :: row_elements commas l = row_json <$> r :: l);
    [|by destruct E as [-> ->]].
  unfold e. clear e. injection Hl as Hl. cbn [fmap list_fmap e_comma e_val]. split; f_equal;
    revert commas Hl; induction l as [|r' l IH]; intros [|b' commas] Hl; try done; injection Hl as Hl; cbn; f_equal; by apply IH.
Qed.

(** *** [ngx_healthcheck_status.c] *)








Definition arr_text (l : list element) : bytes := [SP] ++ ch "[" :: LF :: elements_text l ++ [SP; SP] ++ [ch "]"].


Lemma length_elements l : (length l <= length (elements_text l))%nat.
Proof.
  induction l as [|e l IH]; [cbn; lia|]. unfold elements_text in *. cbn [fmap list_fmap concat length].
  rewrite !length_app. cbn [length]. lia.
Qed.

Lemma arr_member_ok F k l tail :
  plain (s2b k) -> ws tail -> Forall (element_ok 10) l -> (length l + 11 <= F)%nat ->
  member_ok F (mk_member [LF; SP; SP] (s2b k) (arr_text l) tail (elements_val l)).
Proof.
  intros Hk Ht Hl HF. split_and!; [by repeat constructor|done|done|].
  apply (reads_weaken (S (length l + 10))); [lia|]. apply reads_arr; [by repeat constructor|by repeat constructor|done].
Qed.

(** A page: one object with the member [servers]. *)
Lemma servers_page F ms p :
  ms <> [] -> Forall (member_ok F) ms -> p = lit "{`servers`: {" ++ members_text ms ++ lit "}}" ++ [LF] ->
  (length ms + F + 4 <= length p)%nat ->
  json_parse p = (fun v => JObj [(s2b "servers", JObj v)]) <$> members_val ms.
Proof.
  intros Hne Hms Ep Hl. set (inner := [SP] ++ ch "{" :: members_text ms ++ [ch "}"]).
  assert (Hin : reads (S (length ms + F)) inner (JObj <$> members_val ms)) by (apply reads_obj; [apply ws_sp|done|done]).
  set (top := [mk_member [] (s2b "servers") inner [] (JObj <$> members_val ms)]).
  assert (Htop : reads (S (length top + S (length ms + F))) ([] ++ ch "{" :: members_text top ++ [ch "}"]) (JObj <$> members_val top)).
  { apply reads_obj; [constructor|done|]. constructor; [|constructor]. split_and!; [constructor|plain_tac|constructor|done]. }
  set (t := [] ++ ch "{" :: members_text top ++ [ch "}"]) in *.
  assert (E : p = t ++ [LF]).
  { rewrite Ep. unfold t, top, inner. cbn [members_text]. unfold member_text. cbn [m_lead m_key m_text m_tail lit s2b fmap list_fmap].
    app_norm. reflexivity. }
  pose proof (f_equal length E) as El. rewrite length_app in El. cbn [length] in El.
  rewrite E, (json_parse_reads _ _ _ LF [] Htop); [|by repeat constructor|cbn [length top]; lia].
  unfold top. rewrite members_val_cons. cbn [m_val m_key]. by destruct (members_val ms).
Qed.

Lemma num_member_weaken F k z : plain (s2b k) -> (1 <= F)%nat -> member_ok F (num_member [LF; SP; SP] k z).
Proof.
  intros Hk HF. split_and!; [by repeat constructor|done|constructor|apply (reads_weaken 1); [lia|apply reads_num, ws_sp]].
Qed.


Lemma shown_plain flag l : Forall plain_row l -> Forall plain_row (shown_rows flag l).
Proof. induction 1 as [|r l Hr H IH]; [constructor|]. cbn. destruct (shown flag r); [by constructor|done]. Qed.



Lemma ex_plain d l : walk (ex_walk d) = Some l -> Forall plain_row l.
Proof. intros [= <-]. repeat (apply Forall_cons; split); [..|by apply Forall_nil]; split_and!; plain_tac. Qed.

Definition ex_rows (d : Z) : list row := default [] (walk (ex_walk d)).


(** ** The page of the http module *)

Definition http_commas (last : Z) (l : list row) : list bool := (fun r => negb (Z.of_nat (fst r) =? last)) <$> l.

Lemma http_rows_lines last l cs :
  mapM (fun r => json_row (if Z.of_nat (fst r) =? last then [] else lit ",") r) l = Some cs ->
  Forall2 (fun br c => row_line (fst br) (snd br) = Some c) (zip (http_commas last l) l) cs.
Proof.
  intros H. apply mapM_Some in H. induction H as [|r c l cs Hc H IH]; [constructor|].
  cbn. constructor; [|done]. cbn [fst snd]. unfold row_line. by destruct (Z.of_nat (fst r) =? last).
Qed.

(** The peers are numbered from 0. *)
Lemma walk_index ps l i r : walk ps = Some l -> l !! i = Some r -> fst r = i.
Proof.
  unfold walk. intros H Hi. apply mapM_Some in H. destruct (Forall2_lookup_r _ _ _ _ _ H Hi) as ([j p] & Hj & Hr).
  rewrite list_lookup_imap in Hj. apply fmap_Some in Hj as (p' & _ & [= -> ->]).
  unfold row_of in Hr. cbn [fst snd] in Hr. apply bind_Some in Hr as (? & _ & Hr). apply bind_Some in Hr as (? & _ & Hr).
  apply bind_Some in Hr as (? & _ & Hr). by injection Hr as <-.
Qed.

(** Is the last peer of the list listed? *)
Definition last_shown (flag : Z) (l : list row) : bool :=
  match last l with Some r => shown flag r | None => true end.

(** No comma after the last row and a comma after every other one. *)
Lemma http_commas_ok flag l n :
  (forall i r, l !! i = Some r -> fst r = (n + i)%nat) -> shown_rows flag l <> [] ->
  commas_ok (http_commas (Z.of_nat n + count l - 1) (shown_rows flag l)) = last_shown flag l.
Proof.
  revert n; induction l as [|r l IH]; intros n Hidx Hne; [done|].
  assert (Hr : fst r = n) by (rewrite (Hidx 0%nat r eq_refl); lia).
  assert (Hrest : forall i r', l !! i = Some r' -> fst r' = (S n + i)%nat) by (intros i r' E; rewrite (Hidx (S i) r' E); lia).
  specialize (IH (S n) Hrest).
  replace (Z.of_nat (S n) + count l - 1) with (Z.of_nat n + count (r :: l) - 1) in IH by (unfold count; cbn [length]; lia).
  destruct l as [|r2 l].
  - unfold last_shown. cbn [shown_rows List.filter last] in Hne |- *. destruct (shown flag r); [|done].
    cbn [http_commas fmap list_fmap commas_ok]. rewrite Hr, negb_involutive. apply Z.eqb_eq. unfold count. cbn [length]. lia.
  - change (last_shown flag (r :: r2 :: l)) with (last_shown flag (r2 :: l)).
    change (shown_rows flag (r :: r2 :: l)) with (if shown flag r then r :: shown_rows flag (r2 :: l) else shown_rows flag (r2 :: l)) in *.
    destruct (shown flag r) eqn:Es; [|by apply IH].
    destruct (shown_rows flag (r2 :: l)) as [|r3 rest] eqn:E3.
    + cbn. rewrite Hr, negb_involutive. 
      assert (Hl : last_shown flag (r2 :: l) = false).
      { unfold last_shown. destruct (last_is_Some (r2 :: l)) as [_ H]. destruct H as [x Hx]; [done|]. rewrite Hx.
        assert (Hin : x ∈ r2 :: l) by (apply last_Some_elem_of in Hx; done).
        destruct (shown flag x) eqn:Ex; [|done]. exfalso. apply list_elem_of_In in Hin.
        assert (Hf : In x (shown_rows flag (r2 :: l))) by (apply filter_In; done). rewrite E3 in Hf. done. }
      rewrite Hl. apply Z.eqb_neq. unfold count. cbn [length]. lia.
    + change (http_commas ?t (r :: r3 :: rest)) with (negb (Z.of_nat (fst r) =? t) :: http_commas t (r3 :: rest)).
      change (commas_ok (?b :: http_commas ?t (r3 :: rest))) with (b && commas_ok (http_commas t (r3 :: rest))).
      rewrite IH by done. rewrite Hr. destruct (Z.eqb_spec (Z.of_nat n) (Z.of_nat n + count (r :: r2 :: l) - 1)) as [E|_]; [|done].
      unfold count in E. cbn [length] in E. lia.
Qed.

Definition http_value (total generation : Z) (v : option json) : option json :=
  v ← v;
  Some (JObj [(s2b "servers", JObj [(s2b "total", JNum (u64 total)); (s2b "generation", JNum (u64 generation));
                                    (s2b "server", v)])]).

Lemma http_page_value total generation e :
  Forall (element_ok 10) e ->
  json_parse (lines ["{`servers`: {"] ++ lit "  `total`: " ++ num_text (u64 total) 0 ++ lines [","]
              ++ lit "  `generation`: " ++ num_text (u64 generation) 0 ++ lines [","] ++ lines ["  `server`: ["]
              ++ elements_text e ++ lines ["  ]"] ++ lines ["}}"])
  = http_value total generation (elements_val e).
Proof.
  intros H. set (F := (length e + 12)%nat).
  rewrite (servers_page F [num_member [LF; SP; SP] "total" total; num_member [LF; SP; SP] "generation" generation;
                           mk_member [LF; SP; SP] (s2b "server") (arr_text e) [LF] (elements_val e)]).
  - rewrite !members_val_cons. cbn [m_val m_key num_member mbind option_bind]. by destruct (elements_val e).
  - done.
  - repeat (apply Forall_cons; split); [| | |apply Forall_nil; done].
    + apply num_member_weaken; [plain_tac|lia].
    + apply num_member_weaken; [plain_tac|lia].
    + apply arr_member_ok; [plain_tac|by repeat constructor|done|lia].
  - unfold arr_text. cbn [members_text]. unfold member_text, num_member.
    cbn [m_lead m_key m_text m_tail]. unfold lines. cbn [lit s2b fmap list_fmap concat]. app_norm. reflexivity.
  - rewrite !length_app. pose proof (length_elements e).
    cbn [length lines lit s2b fmap list_fmap concat app]. unfold F. cbn [length]. lia.
Qed.

Lemma http_json_texts http generation flag l l' calls :
  walk (http 0%nat) = Some l -> walk (http 1%nat) = Some l' ->
  HttpStatus.status_json_format http generation flag = Some calls ->
  exists ts, texts calls ts /\
    concat ts = lines ["{`servers`: {"] ++ lit "  `total`: " ++ num_text (u64 (count (shown_rows flag l))) 0 ++ lines [","]
      ++ lit "  `generation`: " ++ num_text (u64 generation) 0 ++ lines [","] ++ lines ["  `server`: ["]
      ++ elements_text (row_elements (http_commas (u64 (count l' - 1)) (shown_rows flag l')) (shown_rows flag l'))
      ++ lines ["  ]"] ++ lines ["}}"].
Proof.
  intros E0 E1 H. unfold HttpStatus.status_json_format in H. rewrite E0, E1 in H. cbn [mbind option_bind] in H.
  apply bind_Some in H as (cs & Hs & H). injection H as <-.
  apply http_rows_lines, row_lines_texts in Hs. eexists. split.
  - apply Forall2_cons; split; [unfold text; cbn [fst snd]|].
    { match goal with |- (ps ← pieces ?f; _) = _ => let v := eval vm_compute in (pieces f) in change (pieces f) with v end.
      cbn [mbind option_bind render fmap option_fmap option_map]. reflexivity. }
    apply Forall2_app; [exact Hs|]. repeat (apply Forall2_cons; split; [reflexivity|]). by apply Forall2_nil.
  - cbn [concat]. rewrite concat_app. cbn [concat].
    fold (elements_text (row_elements (http_commas (u64 (count l' - 1)) (shown_rows flag l')) (shown_rows flag l'))).
    unfold lines. cbn [lit s2b fmap list_fmap concat]. app_norm. reflexivity.
Qed.

(** the JSON page of the http module is not JSON under a filter that hides
    the last peer.  The comma is left out after the peer with the last index,
    not after the last peer that is printed: the page reads back as the listed
    peers when the last peer of the configuration is among them or none is
    listed, and is no JSON otherwise. *)
Theorem http_json_trailing_comma http n generation flag k size l l' :
  walks_ok http n -> (0 < n)%nat -> 12 <= k <= 60 -> Z.of_nat n * 2 ^ k < 2 ^ 62 ->
  HttpStatus.page_size (2 ^ k) (Some http) = Some (Some size) ->
  walk (http 0%nat) = Some l -> walk (http 1%nat) = Some l' -> Forall plain_row l' ->
  exists calls page, HttpStatus.output http generation flag HttpStatus.json_format = Some calls
    /\ print (Z.to_nat size) calls [] = Some page
    /\ json_parse page
       = if bool_decide (shown_rows flag l' = []) || last_shown flag l'
         then http_value (count (shown_rows flag l)) generation (Some (JArr (row_json <$> shown_rows flag l')))
         else None.
Proof.
  intros Hh Hn Hk Hb Hsize E0 E1 Pl. unfold HttpStatus.page_size in Hsize. rewrite (peers_count http n Hh) in Hsize.
  injection Hsize as <-.
  pose proof (buffer_size_ge (Z.of_nat n) k Hk ltac:(lia) Hb) as Hge.
  destruct (http_output_fits http n generation flag Hh HttpStatus.json_format) as (calls & Eo & ts' & Ht' & Hl').
  destruct (http_json_texts http generation flag l l' calls E0 E1 Eo) as (ts & Ht & Ets).
  assert (E : ts' = ts).
  { clear -Ht Ht'. revert ts Ht; induction Ht' as [|c t cs ts' Hc H IH]; intros ts2 Ht; inversion Ht; subst; [done|].
    f_equal; [congruence|by apply IH]. }
  subst ts'. exists calls, (concat ts). split; [done|]. split; [rewrite (print_texts _ _ _ Ht), take_ge; [done|lia]|].
  rewrite Ets, http_page_value by (apply row_elements_ok; by apply shown_plain).
  rewrite elements_val_rows by (unfold http_commas; by rewrite length_fmap).
  destruct (Hh 1%nat) as (l2 & El & Hl2 & _). rewrite E1 in El. injection El as <-.
  assert (Hp : 2 ^ 12 <= 2 ^ k) by (apply Z.pow_le_mono_r; lia).
  rewrite u64_small by (unfold in_u64, count; nia).
  case_bool_decide as Ee; [done|]. cbn [orb].
  pose proof (http_commas_ok flag l' 0 (fun i r Hi => walk_index _ _ _ _ E1 Hi) Ee) as Hc.
  cbn [Z.of_nat] in Hc. rewrite Z.add_0_l in Hc. rewrite Hc. by destruct (last_shown flag l').
Qed.

Lemma http_json_trailing_comma_witness :
  exists calls page, HttpStatus.output (fun _ => ex_walk 0) 1 2 HttpStatus.json_format = Some calls
    /\ print (Z.to_nat 8192) calls [] = Some page /\ json_parse page <> None
    /\ exists calls' page', HttpStatus.output (fun _ => ex_walk 1) 1 2 HttpStatus.json_format = Some calls'
       /\ print (Z.to_nat 8192) calls' [] = Some page' /\ json_parse page' = None.
Proof.
  destruct (http_json_trailing_comma (fun _ => ex_walk 0) 2 1 2 12 8192 (ex_rows 0) (ex_rows 0)) as (calls & page & H1 & H2 & H3);
    [apply ex_walks_ok; intros; by eexists|lia|lia|lia|vm_compute; reflexivity|reflexivity|reflexivity|by apply (ex_plain 0)|].
  destruct (http_json_trailing_comma (fun _ => ex_walk 1) 2 1 2 12 8192 (ex_rows 1) (ex_rows 1)) as (calls' & page' & H1' & H2' & H3');
    [apply ex_walks_ok; intros; by eexists|lia|lia|lia|vm_compute; reflexivity|reflexivity|reflexivity|by apply (ex_plain 1)|].
  exists calls, page. split; [exact H1|]. split; [exact H2|]. split; [rewrite H3; discriminate|].
  exists calls', page'. split; [exact H1'|]. split; [exact H2'|exact H3'].
Defined.
