(* ===== verification/Shmtx.v ===== *)
(** * The mutex of shared memory

    [ngx_shmtx_lock], [ngx_shmtx_trylock], [ngx_shmtx_unlock] and
    [ngx_shmtx_wakeup] of [src/core/ngx_shmtx.c] (the build with atomic
    operations), which guard the shared state of a peer.  Each process is at a
    place of the code; a step is one access to shared memory: a read of the
    lock word, a compare-and-set, an addition to the counter of waiting
    processes, or an operation on the semaphore.

    The theorems: under every interleaving of any processes the mutex is one
    (a refinement of the abstract mutex), and no wakeup is lost: the processes
    never all sleep while the lock is free. *)

From S2P Require Import Prelude.

(** ** Lists of processes *)

Definition count_at {A} (f : A -> bool) (l : list A) : Z := foldr (fun q s => (if f q then 1 else 0) + s) 0 l.

Lemma insert_cases {A} (l : list A) i q' j q : <[i := q']> l !! j = Some q -> (j = i /\ q = q') \/ (j <> i /\ l !! j = Some q).
Proof. rewrite list_lookup_insert_Some. naive_solver. Qed.

Lemma count_insert {A} (f : A -> bool) l i q q' : l !! i = Some q ->
  count_at f (<[i := q']> l) = count_at f l - (if f q then 1 else 0) + (if f q' then 1 else 0).
Proof.
  unfold count_at. revert i; induction l as [|x l IH]; intros i; [done|]. destruct i as [|i].
  - intros [= ->]. change (<[O := q']> (q :: l)) with (q' :: l). cbn [foldr]. destruct (f q), (f q'); lia.
  - intros Hi. change ((x :: l) !! S i) with (l !! i) in Hi. change (<[S i := q']> (x :: l)) with (x :: <[i := q']> l). cbn [foldr]. rewrite (IH i Hi). lia.
Qed.

Lemma count_bounds {A} (f : A -> bool) l : 0 <= count_at f l <= Z.of_nat (length l).
Proof. unfold count_at. induction l as [|q l IH]; cbn [foldr length]; [lia|]. destruct (f q); lia. Qed.

Lemma count_pos {A} (f : A -> bool) l i q : l !! i = Some q -> f q = true -> 1 <= count_at f l.
Proof.
  revert i; induction l as [|x l IH]; intros i; [done|]. pose proof (count_bounds f l). unfold count_at in *. cbn [foldr]. destruct i as [|i].
  - intros [= ->] ->. lia.
  - intros Hi Hq. specialize (IH i Hi Hq). destruct (f x); lia.
Qed.

Lemma count_some {A} (f : A -> bool) l : 1 <= count_at f l -> exists i q, l !! i = Some q /\ f q = true.
Proof.
  unfold count_at. induction l as [|x l IH]; cbn [foldr]; [lia|]. destruct (f x) eqn:Hx; [intros _; by exists O, x|].
  intros H. destruct IH as (i & q & Hi & Hq); [lia|]. by exists (S i), q.
Qed.

Lemma count_replicate {A} (f : A -> bool) n q : f q = false -> count_at f (replicate n q) = 0.
Proof. unfold count_at. intros Hq. induction n as [|n IH]; cbn [replicate foldr]; [done|]. by rewrite Hq, IH. Qed.

(** ** The code *)

(** What [ngx_shmtx_t] points to: [*mtx->lock], [*mtx->wait] and the value of
    the semaphore. *)
Record mtx := mk_mtx { lock : Z; wait : Z; sem : nat }.

#[export] Instance eta_mtx : Eta mtx := fun r => mk_mtx (lock r) (wait r) (sem r).

(** Where a process is.  [Read k] and [Cas k] are the test of the lock with
    [k] more tests to come in the spin loop; [Read2] and [Cas2] the test after
    the process has announced itself; [Dec] takes the announcement back. *)
Inductive place : Set :=
  | Out
  | TryRead | TryCas
  | Read (k : nat) | Cas (k : nat) | Inc | Read2 | Cas2 | Dec | Sleep
  | Inside
  | Unlock | Wake | WakeCas (w : Z) | Post.

#[export] Instance place_eq_dec : EqDecision place.
Proof. solve_decision. Defined.

Section Code.
(** [mtx->semaphore], the number of tests in the spin loop (11 on several
    processors, 0 on one) and [ngx_pid] of the processes. *)
Context (semaphore : bool) (spins : nat) (pid : nat -> Z).

(** After a test that failed. *)
Definition failed (k : nat) : place :=
  match k with
  | S k => Read k
  | O => if semaphore then Inc else Read spins
  end.

(** [ngx_atomic_cmp_set] *)
Definition cmp_set (word old : Z) : bool := word =? old.

(** [ngx_shmtx_trylock] *)
Definition trylock_step (i : nat) (q : place) (m : mtx) : option (place * mtx) :=
  match q with
  | TryRead => Some (if lock m =? 0 then TryCas else Out, m)
  | TryCas => Some (if cmp_set (lock m) 0 then (Inside, m <| lock := pid i |>) else (Out, m))
  | _ => None
  end.

(** [ngx_shmtx_lock]; a process sleeps in [sem_wait], which can be interrupted
    but does not fail. *)
Definition lock_step (i : nat) (q : place) (m : mtx) : option (place * mtx) :=
  match q with
  | Read k => Some (if lock m =? 0 then Cas k else failed k, m)
  | Cas k => Some (if cmp_set (lock m) 0 then (Inside, m <| lock := pid i |>) else (failed k, m))
  | Inc => Some (Read2, m <| wait := u64 (wait m + 1) |>)
  | Read2 => Some (if lock m =? 0 then Cas2 else Sleep, m)
  | Cas2 => Some (if cmp_set (lock m) 0 then (Dec, m <| lock := pid i |>) else (Sleep, m))
  | Dec => Some (Inside, m <| wait := u64 (wait m - 1) |>)
  | Sleep => match sem m with S n => Some (Read spins, m <| sem := n |>) | O => None end
  | _ => None
  end.

(** [ngx_shmtx_unlock] up to the call of [ngx_shmtx_wakeup] *)
Definition unlock_step (i : nat) (q : place) (m : mtx) : option (place * mtx) :=
  match q with
  | Unlock => Some (if cmp_set (lock m) (pid i) then (Wake, m <| lock := 0 |>) else (Out, m))
  | _ => None
  end.

(** [ngx_shmtx_wakeup] *)
Definition wakeup_step (q : place) (m : mtx) : option (place * mtx) :=
  match q with
  | Wake => Some (if negb semaphore then Out else if i64 (wait m) <=? 0 then Out else WakeCas (wait m), m)
  | WakeCas w => Some (if cmp_set (wait m) w then (Post, m <| wait := u64 (w - 1) |>) else (Wake, m))
  | Post => Some (Out, m <| sem := S (sem m) |>)
  | _ => None
  end.

(** One step of process [i] at a place; [None] when it is not in the code of the
    mutex or sleeps. *)
Definition exec (i : nat) (q : place) (m : mtx) : option (place * mtx) :=
  match q with
  | Out | Inside => None
  | TryRead | TryCas => trylock_step i q m
  | Read _ | Cas _ | Inc | Read2 | Cas2 | Dec | Sleep => lock_step i q m
  | Unlock => unlock_step i q m
  | Wake | WakeCas _ | Post => wakeup_step q m
  end.

(** The places of the processes and the mutex. *)
Record state := mk_state { procs : list place; mem : mtx }.

(** [ngx_shmtx_lock], [ngx_shmtx_trylock] and [ngx_shmtx_unlock] start at these
    places. *)
Inductive shmtx_step : state -> state -> Prop :=
  | step_lock i l m : l !! i = Some Out -> shmtx_step (mk_state l m) (mk_state (<[i := Read spins]> l) m)
  | step_trylock i l m : l !! i = Some Out -> shmtx_step (mk_state l m) (mk_state (<[i := TryRead]> l) m)
  | step_unlock i l m : l !! i = Some Inside -> shmtx_step (mk_state l m) (mk_state (<[i := Unlock]> l) m)
  | step_exec i q q' l m m' : l !! i = Some q -> exec i q m = Some (q', m') -> shmtx_step (mk_state l m) (mk_state (<[i := q']> l) m').

(** Any number of processes outside and a fresh mutex. *)
Definition initial (n : nat) : state := mk_state (replicate n Out) (mk_mtx 0 0 0).

(** ** What the mutex promises *)

(** The abstract mutex: the process that has it. *)
Inductive mutex_step : option nat -> option nat -> Prop :=
  | mutex_acquire i : mutex_step None (Some i)
  | mutex_release i : mutex_step (Some i) None
  | mutex_stays o : mutex_step o o.

(** Places where a process has the lock. *)
Definition holds (q : place) : bool := match q with Inside | Dec | Unlock => true | _ => false end.

Fixpoint holder_from (k : nat) (l : list place) : option nat :=
  match l with [] => None | q :: l => if holds q then Some k else holder_from (S k) l end.

Definition holder (st : state) : option nat := holder_from 0 (procs st).

(** ** Places *)

(** Processes that have announced themselves and not taken it back, and
    processes about to post. *)
Definition announced (q : place) : bool := match q with Read2 | Cas2 | Dec | Sleep => true | _ => false end.
Definition posting (q : place) : bool := match q with Post => true | _ => false end.

(** Places that only a mutex with a semaphore leads to. *)
Definition uses_sem (q : place) : bool := announced q || match q with Inc => true | _ => false end.

End Code.

(** ** The invariant *)

(** Places of a process that will take a step by itself and look at the lock,
    or wake another one. *)
Definition active (q : place) : bool :=
  match q with Read _ | Cas _ | Inc | Read2 | Cas2 | Wake | WakeCas _ | Post => true | _ => false end.

Section Invariant.
Context (semaphore : bool) (spins : nat) (pid : nat -> Z).
Context (pid_inj : forall i j, pid i = pid j -> i = j) (pid_nz : forall i, pid i <> 0).
Context (n : nat) (Hn : Z.of_nat n < 2 ^ 62).

Record inv (st : state) : Prop := {
  inv_len : length (procs st) = n;
  inv_own i q : procs st !! i = Some q -> holds q = true -> lock (mem st) = pid i;
  inv_held : lock (mem st) <> 0 -> exists i q, procs st !! i = Some q /\ holds q = true;
  inv_wait : wait (mem st) = u64 (count_at announced (procs st) - Z.of_nat (sem (mem st)) - count_at posting (procs st));
  inv_posts : Z.of_nat (sem (mem st)) + count_at posting (procs st) <= Z.of_nat n;
  inv_sem i q : procs st !! i = Some q -> uses_sem q = true -> semaphore = true;
  inv_read i w : procs st !! i = Some (WakeCas w) -> 0 < i64 w;
  inv_wake : lock (mem st) = 0 -> sem (mem st) = O -> (exists i, procs st !! i = Some Sleep) ->
             exists j q, procs st !! j = Some q /\ active q = true
}.

Lemma inv_initial : inv (initial n).
Proof.
  split; cbn [initial procs mem lock wait sem].
  - apply length_replicate.
  - intros i q [-> _]%lookup_replicate. done.
  - done.
  - by rewrite !count_replicate.
  - rewrite count_replicate by done. lia.
  - intros i q [-> _]%lookup_replicate. done.
  - intros i w [? _]%lookup_replicate. done.
  - intros _ _ (i & [? _]%lookup_replicate). done.
Qed.

(** The signed value of the counter. *)
Lemma wait_signed st : inv st ->
  i64 (wait (mem st)) = count_at announced (procs st) - Z.of_nat (sem (mem st)) - count_at posting (procs st).
Proof.
  intros [Hl _ _ Hw Hp _ _ _]. rewrite Hw, i64_u64. pose proof (count_bounds announced (procs st)). pose proof (count_bounds posting (procs st)).
  apply i64_small. lia.
Qed.

Lemma inv_owner_unique st i j q q' :
  inv st -> procs st !! i = Some q -> holds q = true -> procs st !! j = Some q' -> holds q' = true -> i = j.
Proof. intros H Hi Hq Hj Hq'. apply pid_inj. by rewrite <- (inv_own st H i q), <- (inv_own st H j q'). Qed.

Definition b2z (b : bool) : Z := if b then 1 else 0.

(** One process moves from place [q] to [q']: what has to be seen for the
    invariant to hold afterwards. *)
Lemma inv_move l m i q q' m' :
  inv (mk_state l m) -> l !! i = Some q ->
  (lock m' = lock m /\ holds q' = holds q) \/ (lock m = 0 /\ lock m' = pid i /\ holds q' = true) \/ (lock m' = 0 /\ holds q = true /\ holds q' = false) ->
  wait m' = u64 (wait m + (b2z (announced q') - b2z (announced q)) - (Z.of_nat (sem m') - Z.of_nat (sem m)) - (b2z (posting q') - b2z (posting q))) ->
  Z.of_nat (sem m') + b2z (posting q') <= Z.of_nat (sem m) + b2z (posting q)
  \/ (Z.of_nat (sem m') + b2z (posting q') <= Z.of_nat (sem m) + b2z (posting q) + 1 /\ 0 < i64 (wait m)) ->
  (uses_sem q' = true -> semaphore = true) -> (forall w, q' = WakeCas w -> 0 < i64 w) ->
  (lock m' = 0 -> sem m' = O ->
     active q' = true \/ (active q = false /\ q' <> Sleep /\ lock m = 0 /\ sem m = O)
     \/ (posting q = false /\ q' <> Sleep /\ sem m = O /\ count_at announced l <= count_at posting l)) ->
  inv (mk_state (<[i := q']> l) m').
Proof.
  intros Hinv Hi HA HB HC HD HF HE. pose proof (wait_signed _ Hinv) as Hsig. destruct Hinv as [I1 I2 I3 I4 I5 I6 I8 I7]. cbn [procs mem] in *.
  pose proof (count_insert announced l i q q' Hi) as Ca. pose proof (count_insert posting l i q q' Hi) as Cp. fold (b2z (announced q)) (b2z (announced q')) in Ca.
  fold (b2z (posting q)) (b2z (posting q')) in Cp. pose proof (count_bounds announced l) as Ba. pose proof (count_bounds posting l) as Bp.
  assert (Hlt : (i < length l)%nat) by by apply lookup_lt_Some in Hi.
  split; cbn [procs mem].
  - by rewrite length_insert.
  - intros j p Hj Hp. destruct (insert_cases _ _ _ _ _ Hj) as [[-> ->]|[Hne Hj']].
    + destruct HA as [[-> HA]|[(_ & HA & _)|(_ & _ & HA)]]; [|done|congruence]. apply (I2 i q Hi). congruence.
    + specialize (I2 j p Hj' Hp) as Hl. destruct HA as [[-> _]|[(H0 & _)|(_ & Hq & _)]]; [done|by destruct (pid_nz j); rewrite <- Hl|].
      destruct Hne. apply pid_inj. by rewrite <- Hl, <- (I2 i q Hi Hq).
  - intros Hl. destruct HA as [[E HA]|[(_ & _ & HA)|(H0 & _)]]; [|exists i, q'; by rewrite list_lookup_insert_eq|done].
    destruct I3 as (j & p & Hj & Hp); [congruence|]. destruct (decide (j = i)) as [->|Hne].
    + exists i, q'. rewrite list_lookup_insert_eq by done. rewrite Hi in Hj. injection Hj as ->. by rewrite HA.
    + exists j, p. by rewrite list_lookup_insert_ne by done.
  - rewrite HB, I4, Ca, Cp. unfold u64. rewrite Zminus_mod, (Zminus_mod (_ mod _ + _)), Zplus_mod_idemp_l, <- (Zminus_mod (_ + _)), <- Zminus_mod. f_equal. lia.
  - rewrite Cp. lia.
  - intros j p Hj Hp. destruct (insert_cases _ _ _ _ _ Hj) as [[_ ->]|[_ Hj']]; [by apply HD|by eapply I6].
  - intros j w Hj. destruct (insert_cases _ _ _ _ _ Hj) as [[_ E]|[_ Hj']]; [by apply HF|by eapply I8].
  - intros H0 Hs (k & Hk). destruct (HE H0 Hs) as [Ha|[(Ha & Hns & Hl & Hs')|(Hp & Hns & Hs' & Hc)]].
    + exists i, q'. by rewrite list_lookup_insert_eq.
    + destruct (insert_cases _ _ _ _ _ Hk) as [[_ ?]|[_ Hk']]; [congruence|].
      destruct I7 as (j & p & Hj & Hpa); [done|done|by exists k|]. exists j, p. rewrite list_lookup_insert_ne; [done|]. intros ->. congruence.
    + destruct (insert_cases _ _ _ _ _ Hk) as [[_ ?]|[_ Hk']]; [congruence|].
      pose proof (count_pos announced l k Sleep Hk' eq_refl). destruct (count_some posting l) as (j & p & Hj & Hpp); [lia|].
      exists j, p. rewrite list_lookup_insert_ne; [by destruct p|]. intros ->. congruence.
Qed.

Lemma wait_same st x : inv st -> x = wait (mem st) -> wait (mem st) = u64 x.
Proof. intros H ->. rewrite (inv_wait st H). by rewrite u64_u64. Qed.

(** The simple moves: no counter changes. *)
Lemma inv_plain l m i q q' :
  inv (mk_state l m) -> l !! i = Some q -> holds q' = holds q -> announced q' = announced q -> posting q' = posting q ->
  (uses_sem q' = true -> semaphore = true) -> (forall w, q' = WakeCas w -> 0 < i64 w) ->
  (lock m = 0 -> active q' = true \/ active q = false /\ q' <> Sleep) -> inv (mk_state (<[i := q']> l) m).
Proof.
  intros Hinv Hi Hh Ha Hp Hu Hf Hw. apply (inv_move l m i q q' m Hinv Hi).
  - by left.
  - rewrite Ha, Hp. apply (wait_same _ _ Hinv). cbn [mem]. lia.
  - rewrite Hp. lia.
  - exact Hu.
  - exact Hf.
  - intros H0 Hs. destruct (Hw H0) as [?|[? ?]]; [by left|right; left]. done.
Qed.

(** A process takes the lock. *)
Lemma inv_take l m i q q' :
  inv (mk_state l m) -> l !! i = Some q -> lock m = 0 -> holds q' = true -> announced q' = announced q -> posting q' = posting q ->
  (uses_sem q' = true -> semaphore = true) -> inv (mk_state (<[i := q']> l) (m <| lock := pid i |>)).
Proof.
  intros Hinv Hi Hl Hh Ha Hp Hu. apply (inv_move l m i q q' _ Hinv Hi); cbn [lock wait sem upd].
  - right. left. done.
  - change (wait m = u64 (wait m + (b2z (announced q') - b2z (announced q)) - (Z.of_nat (sem m) - Z.of_nat (sem m)) - (b2z (posting q') - b2z (posting q)))).
    rewrite Ha, Hp. apply (wait_same _ _ Hinv). cbn [mem]. lia.
  - change (sem (m <| lock := pid i |>)) with (sem m). rewrite Hp. lia.
  - exact Hu.
  - intros w ->. done.
  - intros H0. by destruct (pid_nz i).
Qed.

Lemma failed_plain k : holds (failed semaphore spins k) = false /\ announced (failed semaphore spins k) = false
  /\ posting (failed semaphore spins k) = false /\ active (failed semaphore spins k) = true
  /\ (uses_sem (failed semaphore spins k) = true -> semaphore = true) /\ (forall w, failed semaphore spins k = WakeCas w -> 0 < i64 w).
Proof. unfold failed. by destruct k, semaphore. Qed.

(** [ngx_shmtx_wakeup] *)
Lemma inv_wakeup l m i q q' m' :
  inv (mk_state l m) -> l !! i = Some q -> (q = Wake \/ (exists w, q = WakeCas w) \/ q = Post) ->
  exec semaphore spins pid i q m = Some (q', m') -> inv (mk_state (<[i := q']> l) m').
Proof.
  intros Hinv Hi Hq E. pose proof (wait_signed _ Hinv) as Hsig. cbn [mem procs] in Hsig.
  destruct Hq as [->|[[w ->]| ->]]; cbn [exec trylock_step lock_step unlock_step wakeup_step] in E.
  - assert (Hout : (semaphore = false \/ i64 (wait m) <= 0) -> inv (mk_state (<[i := Out]> l) m)).
    { intros Hc. apply (inv_move l m i Wake Out m Hinv Hi); [by left| |by left|done|done|].
      - apply (wait_same _ _ Hinv). cbn. lia.
      - intros _ Hs. right. right. split_and!; try done. destruct Hc as [Hc|Hc]; [|rewrite Hs in Hsig; lia].
        destruct (Z.le_gt_cases 1 (count_at announced l)) as [Hge|Hlt]; [|pose proof (count_bounds posting l); lia].
        destruct (count_some announced l Hge) as (j & p & Hj & Hp). pose proof (inv_sem _ Hinv j p Hj) as Hx. unfold uses_sem in Hx. rewrite Hp in Hx. by rewrite Hx in Hc. }
    destruct semaphore; cbn [negb] in E; [|injection E as <- <-; apply Hout; by left].
    destruct (Z.leb_spec (i64 (wait m)) 0); injection E as <- <-; [apply Hout; by right|].
    apply (inv_plain l m i Wake); try done; [by intros ? [= <-]|by left].
  - unfold cmp_set in E. destruct (Z.eqb_spec (wait m) w) as [<-|Hw]; injection E as <- <-.
    + apply (inv_move l m i (WakeCas (wait m)) Post _ Hinv Hi).
      * by left.
      * cbn. f_equal. lia.
      * right. split; [cbn; lia|]. by apply (inv_read _ Hinv i).
      * done.
      * done.
      * intros _ _. by left.
    + apply (inv_plain l m i (WakeCas w)); try done. by left.
  - injection E as <- <-. apply (inv_move l m i Post Out _ Hinv Hi).
    + by left.
    + apply (wait_same _ _ Hinv). cbn. lia.
    + left. cbn. lia.
    + done.
    + done.
    + done.
Qed.

Lemma inv_exec l m i q q' m' :
  inv (mk_state l m) -> l !! i = Some q -> exec semaphore spins pid i q m = Some (q', m') -> inv (mk_state (<[i := q']> l) m').
Proof.
  intros Hinv Hi E. pose proof (inv_own _ Hinv i q Hi) as Hown. pose proof (inv_sem _ Hinv i q Hi) as Hsem. cbn [mem] in Hown.
  destruct q as [| | |k|k| | | | | | | | |w|]; cbn [exec trylock_step lock_step unlock_step wakeup_step] in E; try done.
  - injection E as <- <-. destruct (lock m =? 0); apply (inv_plain l m i TryRead); try done; intros _; by right.
  - unfold cmp_set in E. destruct (Z.eqb_spec (lock m) 0) as [Hl|Hl]; injection E as <- <-.
    + by apply (inv_take l m i TryCas).
    + by apply (inv_plain l m i TryCas).
  - destruct (failed_plain k) as (F1 & F2 & F3 & F4 & F5 & F6). destruct (Z.eqb_spec (lock m) 0) as [Hl|Hl]; injection E as <- <-.
    + apply (inv_plain l m i (Read k)); try done. by left.
    + by apply (inv_plain l m i (Read k)).
  - destruct (failed_plain k) as (F1 & F2 & F3 & F4 & F5 & F6). unfold cmp_set in E. destruct (Z.eqb_spec (lock m) 0) as [Hl|Hl]; injection E as <- <-.
    + by apply (inv_take l m i (Cas k)).
    + by apply (inv_plain l m i (Cas k)).
  - injection E as <- <-. apply (inv_move l m i Inc Read2 _ Hinv Hi).
    + by left.
    + cbn. f_equal. lia.
    + left. cbn. lia.
    + intros _. by apply Hsem.
    + done.
    + intros _ _. by left.
  - destruct (Z.eqb_spec (lock m) 0) as [Hl|Hl]; injection E as <- <-; apply (inv_plain l m i Read2); try done; try (intros _; by apply Hsem). by left.
  - unfold cmp_set in E. destruct (Z.eqb_spec (lock m) 0) as [Hl|Hl]; injection E as <- <-.
    + apply (inv_take l m i Cas2); try done; intros _; by apply Hsem.
    + apply (inv_plain l m i Cas2); try done; intros _; by apply Hsem.
  - injection E as <- <-. apply (inv_move l m i Dec Inside _ Hinv Hi).
    + by left.
    + cbn. f_equal. lia.
    + left. cbn. lia.
    + done.
    + done.
    + intros Hl. change (lock m = 0) in Hl. by rewrite (Hown eq_refl) in Hl; destruct (pid_nz i).
  - destruct (sem m) as [|c] eqn:Es; [done|]. injection E as <- <-. apply (inv_move l m i Sleep (Read spins) _ Hinv Hi).
    + by left.
    + apply (wait_same _ _ Hinv). cbn. lia.
    + left. cbn. lia.
    + done.
    + done.
    + intros _ _. by left.
  - unfold cmp_set in E. rewrite (Hown eq_refl), Z.eqb_refl in E. injection E as <- <-. apply (inv_move l m i Unlock Wake _ Hinv Hi).
    + right. right. done.
    + apply (wait_same _ _ Hinv). cbn. lia.
    + by left.
    + done.
    + done.
    + intros _ _. by left.
  - apply (inv_wakeup l m i Wake); [done..|by left|done].
  - apply (inv_wakeup l m i (WakeCas w)); [done..|right; left; by exists w|done].
  - apply (inv_wakeup l m i Post); [done..|by right; right|done].
Qed.

Lemma inv_step st st' : shmtx_step semaphore spins pid st st' -> inv st -> inv st'.
Proof.
  intros [i l m Hi|i l m Hi|i l m Hi|i q q' l m m' Hi E] Hinv.
  - apply (inv_plain l m i Out); try done. by left.
  - apply (inv_plain l m i Out); try done. by right.
  - apply (inv_plain l m i Inside); try done. intros H0. pose proof (inv_own _ Hinv i Inside Hi eq_refl) as Ho. cbn [mem] in Ho.
    rewrite H0 in Ho. by destruct (pid_nz i).
  - by eapply inv_exec.
Qed.

Lemma inv_reachable st : rtc (shmtx_step semaphore spins pid) (initial n) st -> inv st.
Proof.
  enough (H : forall s1 s2, rtc (shmtx_step semaphore spins pid) s1 s2 -> inv s1 -> inv s2) by (intros Hr; exact (H _ _ Hr inv_initial)).
  induction 1 as [|s1 s2 s3 Hs _ IH]; intros H; [done|]. by eapply IH, inv_step.
Qed.

(** ** The holder *)

Lemma holder_from_spec k l :
  match holder_from k l with
  | Some j => exists i q, j = (k + i)%nat /\ l !! i = Some q /\ holds q = true
  | None => forall i q, l !! i = Some q -> holds q = false
  end.
Proof.
  revert k; induction l as [|q l IH]; intros k; cbn [holder_from]; [by intros i q|]. destruct (holds q) eqn:Hq.
  - exists O, q. by rewrite Nat.add_0_r.
  - specialize (IH (S k)). destruct (holder_from (S k) l) as [j|].
    + destruct IH as (i & p & -> & Hi & Hp). exists (S i), p. split; [lia|done].
    + intros [|i] p; [by intros [= <-]|]. apply IH.
Qed.

Lemma holder_iff st i : inv st -> holder st = Some i <-> exists q, procs st !! i = Some q /\ holds q = true.
Proof.
  intros Hinv. unfold holder. pose proof (holder_from_spec 0 (procs st)) as H. destruct (holder_from 0 (procs st)) as [j|].
  - destruct H as (k & q & -> & Hk & Hq). cbn [Nat.add]. split; [intros [= <-]; by exists q|].
    intros (p & Hp & Hpp). f_equal. by eapply inv_owner_unique.
  - split; [done|]. intros (q & Hq & Hqq). by rewrite (H i q Hq) in Hqq.
Qed.

Lemma holder_lock st : inv st -> holder st = None <-> lock (mem st) = 0.
Proof.
  intros Hinv. split.
  - intros H. destruct (Z.eq_dec (lock (mem st)) 0) as [|Hne]; [done|]. destruct (inv_held _ Hinv Hne) as (i & q & Hi & Hq).
    assert (holder st = Some i) by (apply holder_iff; [done|by exists q]). congruence.
  - intros H. destruct (holder st) as [i|] eqn:E; [|done]. apply holder_iff in E as (q & Hq & Hh); [|done].
    pose proof (inv_own _ Hinv i q Hq Hh) as Ho. rewrite H in Ho. by destruct (pid_nz i).
Qed.

Lemma step_mutex st st' : shmtx_step semaphore spins pid st st' -> inv st -> mutex_step (holder st) (holder st').
Proof.
  intros Hs Hinv. pose proof (inv_step _ _ Hs Hinv) as Hinv'.
  destruct (holder st) as [i|] eqn:E; destruct (holder st') as [j|] eqn:E'; [|apply mutex_release|apply mutex_acquire|apply mutex_stays].
  enough (i = j) as -> by apply mutex_stays. apply pid_inj.
  apply holder_iff in E as (q & Hq & Hh); [|done]. apply holder_iff in E' as (p & Hp & Hk); [|done].
  rewrite <- (inv_own _ Hinv i q Hq Hh), <- (inv_own _ Hinv' j p Hp Hk).
  assert (Hl : lock (mem st) <> 0) by (rewrite (inv_own _ Hinv i q Hq Hh); apply pid_nz).
  assert (Hl' : lock (mem st') <> 0) by (rewrite (inv_own _ Hinv' j p Hp Hk); apply pid_nz).
  destruct Hs as [a l m Ha|a l m Ha|a l m Ha|a x x' l m m' Ha Ex]; cbn [mem] in *; try done.
  destruct x; cbn [exec trylock_step lock_step unlock_step wakeup_step] in Ex; unfold cmp_set in Ex;
    repeat match type of Ex with
           | context [if ?b then _ else _] => destruct b eqn:?
           | context [match sem m with _ => _ end] => destruct (sem m)
           end; try done; injection Ex as <- <-; cbn in *; try done; lia.
Qed.

End Invariant.

(** ** The theorems *)

(** The numbers of processes are those of the system: different and not 0. *)
Definition pids_ok (pid : nat -> Z) : Prop := (forall i j, pid i = pid j -> i = j) /\ forall i, pid i <> 0.

(** C8: the lock of shared memory is a mutex.  For any number of processes that
    lock, try to lock and unlock in any order, with every interleaving of the
    single accesses to shared memory, with or without the semaphore and with
    any number of spins: at most one process has the lock, every step is a
    step of the abstract mutex (it takes a free lock, releases its own lock, or
    changes nothing), and the lock word is 0 exactly when no process has it. *)
Theorem shmtx_refines_mutex semaphore spins pid n st :
  pids_ok pid -> Z.of_nat n < 2 ^ 62 -> rtc (shmtx_step semaphore spins pid) (initial n) st ->
  (forall i j q q', procs st !! i = Some q -> holds q = true -> procs st !! j = Some q' -> holds q' = true -> i = j)
  /\ (forall i, holder st = Some i <-> exists q, procs st !! i = Some q /\ holds q = true)
  /\ (holder st = None <-> lock (mem st) = 0)
  /\ forall st', shmtx_step semaphore spins pid st st' -> mutex_step (holder st) (holder st').
Proof.
  intros [Hinj Hnz] Hn Hr. pose proof (inv_reachable semaphore spins pid Hinj Hnz n Hn st Hr) as Hinv. split_and!.
  - intros i j q q'. by eapply inv_owner_unique.
  - intros i. by eapply holder_iff.
  - by eapply holder_lock.
  - intros st' Hs. by eapply step_mutex.
Qed.

(** C9: no wakeup is lost.  While the lock is free and some process sleeps on
    the semaphore, a wakeup is on its way: the semaphore can be taken, or a
    process is about to look at the lock or to wake another one.  So the
    processes never block each other: as long as some process uses the mutex,
    one of them is in its critical section or can take its next step. *)
Theorem shmtx_no_lost_wakeup semaphore spins pid n st :
  pids_ok pid -> Z.of_nat n < 2 ^ 62 -> rtc (shmtx_step semaphore spins pid) (initial n) st ->
  (forall i, lock (mem st) = 0 -> procs st !! i = Some Sleep ->
     (0 < sem (mem st))%nat \/ exists j q, procs st !! j = Some q /\ active q = true)
  /\ (forall i q, procs st !! i = Some q -> q <> Out ->
      exists j p, procs st !! j = Some p /\ (p = Inside \/ is_Some (exec semaphore spins pid j p (mem st)))).
Proof.
  intros [Hinj Hnz] Hn Hr. pose proof (inv_reachable semaphore spins pid Hinj Hnz n Hn st Hr) as Hinv.
  assert (Hwake : forall i, lock (mem st) = 0 -> procs st !! i = Some Sleep -> (0 < sem (mem st))%nat \/ exists j q, procs st !! j = Some q /\ active q = true).
  { intros i Hl Hi. destruct (sem (mem st)) eqn:Es; [right|left; lia]. by apply (inv_wake _ _ _ _ Hinv Hl Es); exists i. }
  split; [exact Hwake|]. intros i q Hi Hq.
  assert (Hen : forall j p, procs st !! j = Some p -> p <> Out -> p <> Sleep -> p <> Inside -> is_Some (exec semaphore spins pid j p (mem st))).
  { intros j p _ H1 H2 H3. destruct p; try done; by eexists. }
  destruct (decide (q = Sleep)) as [->|Hns].
  - destruct (Z.eq_dec (lock (mem st)) 0) as [Hl|Hl].
    + destruct (Hwake i Hl Hi) as [Hs|(j & p & Hj & Hp)].
      * exists i, Sleep. split; [done|]. right. cbn [exec trylock_step lock_step unlock_step wakeup_step]. destruct (sem (mem st)); [lia|by eexists].
      * exists j, p. split; [done|]. right. apply Hen; [done|..]; by intros ->.
    + destruct (inv_held _ _ _ _ Hinv Hl) as (j & p & Hj & Hp). exists j, p. split; [done|].
      destruct (decide (p = Inside)) as [|Hni]; [by left|right]. apply Hen; [done| |by intros ->|done]. by intros ->.
  - exists i, q. split; [done|]. destruct (decide (q = Inside)) as [|Hni]; [by left|right]. by apply Hen.
Qed.

(** ** Example runs *)

Inductive act : Set := ALock (i : nat) | ATry (i : nat) | AUnlock (i : nat) | AExec (i : nat).

Definition act_step (semaphore : bool) (spins : nat) (pid : nat -> Z) (a : act) (st : state) : option state :=
  let go (i : nat) (from to : place) := q ← procs st !! i; if bool_decide (q = from) then Some (mk_state (<[i := to]> (procs st)) (mem st)) else None in
  match a with
  | ALock i => go i Out (Read spins)
  | ATry i => go i Out TryRead
  | AUnlock i => go i Inside Unlock
  | AExec i => q ← procs st !! i; '(q', m') ← exec semaphore spins pid i q (mem st); Some (mk_state (<[i := q']> (procs st)) m')
  end.

Fixpoint run_acts (semaphore : bool) (spins : nat) (pid : nat -> Z) (l : list act) (st : state) : option state :=
  match l with [] => Some st | a :: l => st ← act_step semaphore spins pid a st; run_acts semaphore spins pid l st end.

Lemma act_step_sound semaphore spins pid a st st' : act_step semaphore spins pid a st = Some st' -> shmtx_step semaphore spins pid st st'.
Proof.
  destruct st as [l m]. destruct a as [i|i|i|i]; cbn [act_step procs mem]; (destruct (l !! i) as [q|] eqn:Hi; [|done]); cbn [mbind option_bind].
  1,2,3: case_bool_decide; [subst|done]; intros [= <-]; by constructor.
  destruct (exec semaphore spins pid i q m) as [[q' m']|] eqn:E; [|done]. intros [= <-]. by eapply step_exec.
Qed.

Lemma run_acts_sound semaphore spins pid l st st' : run_acts semaphore spins pid l st = Some st' -> rtc (shmtx_step semaphore spins pid) st st'.
Proof.
  revert st; induction l as [|a l IH]; intros st; cbn [run_acts]; [by intros [= <-]|].
  destruct (act_step semaphore spins pid a st) as [st1|] eqn:E; [|done]. intros H. eapply rtc_l; [by eapply act_step_sound|by apply IH].
Qed.

Definition ex_pid (i : nat) : Z := Z.of_nat i + 1.

Lemma ex_pids_ok : pids_ok ex_pid.
Proof. unfold ex_pid. split; intros; lia. Qed.

(** The second process sleeps, the first one has released the lock and not yet
    looked for waiting processes. *)
Definition ex_acts : list act := [ALock 0; AExec 0; AExec 0; ALock 1; AExec 1; AExec 1; AExec 1; AUnlock 0; AExec 0].

Definition ex_state : state := mk_state [Wake; Sleep] (mk_mtx 0 1 0).

Example ex_acts_run :
  run_acts true 0 ex_pid ex_acts (initial 2) = Some ex_state
  /\ run_acts true 0 ex_pid [AExec 0; AExec 0; AExec 0; AExec 1; AExec 1; AExec 1] ex_state = Some (mk_state [Out; Inside] (mk_mtx 2 0 0)).
Proof. vm_compute. by split. Qed.

Lemma ex_reached : rtc (shmtx_step true 0 ex_pid) (initial 2) ex_state.
Proof. apply (run_acts_sound true 0 ex_pid ex_acts). vm_compute. reflexivity. Qed.

Lemma shmtx_refines_mutex_witness :
  (forall i j q q', procs ex_state !! i = Some q -> holds q = true -> procs ex_state !! j = Some q' -> holds q' = true -> i = j)
  /\ (forall i, holder ex_state = Some i <-> exists q, procs ex_state !! i = Some q /\ holds q = true)
  /\ (holder ex_state = None <-> lock (mem ex_state) = 0)
  /\ forall st', shmtx_step true 0 ex_pid ex_state st' -> mutex_step (holder ex_state) (holder st').
Proof. apply (shmtx_refines_mutex true 0 ex_pid 2 ex_state ex_pids_ok); [reflexivity|exact ex_reached]. Defined.

Lemma shmtx_no_lost_wakeup_witness :
  (forall i, lock (mem ex_state) = 0 -> procs ex_state !! i = Some Sleep ->
     (0 < sem (mem ex_state))%nat \/ exists j q, procs ex_state !! j = Some q /\ active q = true)
  /\ (forall i q, procs ex_state !! i = Some q -> q <> Out ->
      exists j p, procs ex_state !! j = Some p /\ (p = Inside \/ is_Some (exec true 0 ex_pid j p (mem ex_state)))).
Proof. apply (shmtx_no_lost_wakeup true 0 ex_pid 2 ex_state ex_pids_ok); [reflexivity|exact ex_reached]. Defined.
