(* ===== verification/RwLock.v ===== *)
(** * The read-write lock of upstream zones

    [ngx_rwlock_wlock], [ngx_rwlock_rlock], [ngx_rwlock_unlock] and
    [ngx_rwlock_downgrade] of [src/core/ngx_rwlock.c], which guard the servers
    of an upstream in shared memory.  Steps are single accesses to the lock
    word.  The theorem: writers are alone, under every interleaving. *)

From S2P Require Import Prelude Shmtx.

(** ** The code *)

Definition NGX_RWLOCK_WLOCK : Z := u64 (-1).

(** Where a process is: [k] more tests are to come in the spin loop.  [UnlockRead
    w] is the first read of [ngx_rwlock_unlock] by a process that has the lock
    for writing or for reading. *)
Inductive rwplace : Set :=
  | Free
  | WRead (k : nat) | WCas (k : nat) | Writing
  | RRead (k : nat) | RCas (k : nat) (readers : Z) | Reading
  | UnlockRead (writer : bool) | UnlockWrite | UnlockCas (readers : Z) | UnlockAgain
  | DowngradeRead | DowngradeSet.

#[export] Instance rwplace_eq_dec : EqDecision rwplace.
Proof. solve_decision. Defined.

Section Code.
(** The number of tests in the spin loop. *)
Context (spins : nat).

Definition again {A} (place : nat -> A) (k : nat) : A := match k with S k => place k | O => place spins end.

(** [ngx_rwlock_wlock] *)
Definition rw_wlock_step (q : rwplace) (word : Z) : option (rwplace * Z) :=
  match q with
  | WRead k => Some (if word =? 0 then WCas k else again WRead k, word)
  | WCas k => Some (if cmp_set word 0 then (Writing, NGX_RWLOCK_WLOCK) else (again WRead k, word))
  | _ => None
  end.

(** [ngx_rwlock_rlock] *)
Definition rw_rlock_step (q : rwplace) (word : Z) : option (rwplace * Z) :=
  match q with
  | RRead k => Some (if negb (word =? NGX_RWLOCK_WLOCK) then RCas k word else again RRead k, word)
  | RCas k readers => Some (if cmp_set word readers then (Reading, u64 (readers + 1)) else (again RRead k, word))
  | _ => None
  end.

(** [ngx_rwlock_unlock] *)
Definition rw_unlock_step (q : rwplace) (word : Z) : option (rwplace * Z) :=
  match q with
  | UnlockRead _ => Some (if word =? NGX_RWLOCK_WLOCK then UnlockWrite else UnlockCas word, word)
  | UnlockWrite => Some (Free, if cmp_set word NGX_RWLOCK_WLOCK then 0 else word)
  | UnlockCas readers => Some (if cmp_set word readers then (Free, u64 (readers - 1)) else (UnlockAgain, word))
  | UnlockAgain => Some (UnlockCas word, word)
  | _ => None
  end.

(** [ngx_rwlock_downgrade] *)
Definition rw_downgrade_step (q : rwplace) (word : Z) : option (rwplace * Z) :=
  match q with
  | DowngradeRead => Some (if word =? NGX_RWLOCK_WLOCK then DowngradeSet else Reading, word)
  | DowngradeSet => Some (Reading, 1)
  | _ => None
  end.

(** One step of a process in the code of the lock. *)
Definition rw_exec (q : rwplace) (word : Z) : option (rwplace * Z) :=
  match q with
  | Free | Writing | Reading => None
  | WRead _ | WCas _ => rw_wlock_step q word
  | RRead _ | RCas _ _ => rw_rlock_step q word
  | UnlockRead _ | UnlockWrite | UnlockCas _ | UnlockAgain => rw_unlock_step q word
  | DowngradeRead | DowngradeSet => rw_downgrade_step q word
  end.

(** The places of the processes and the lock word. *)
Record rwstate := mk_rw { rwprocs : list rwplace; word : Z }.

(** The calls of the routines: for a free process to lock, for one that has the
    lock to unlock it, and for a writer to become a reader. *)
Inductive rw_call : rwplace -> rwplace -> Prop :=
  | call_wlock : rw_call Free (WRead spins)
  | call_rlock : rw_call Free (RRead spins)
  | call_wunlock : rw_call Writing (UnlockRead true)
  | call_runlock : rw_call Reading (UnlockRead false)
  | call_downgrade : rw_call Writing DowngradeRead.

Inductive rw_step : rwstate -> rwstate -> Prop :=
  | rw_step_call i q q' l w : l !! i = Some q -> rw_call q q' -> rw_step (mk_rw l w) (mk_rw (<[i := q']> l) w)
  | rw_step_exec i q q' l w w' : l !! i = Some q -> rw_exec q w = Some (q', w') -> rw_step (mk_rw l w) (mk_rw (<[i := q']> l) w').

Definition rw_initial (n : nat) : rwstate := mk_rw (replicate n Free) 0.

End Code.

(** ** Holders *)

Definition writes (q : rwplace) : bool :=
  match q with Writing | UnlockRead true | UnlockWrite | DowngradeRead | DowngradeSet => true | _ => false end.

Definition reads (q : rwplace) : bool := match q with Reading | UnlockRead false | UnlockCas _ | UnlockAgain => true | _ => false end.

Lemma count_two {A} (f : A -> bool) (l : list A) i j p q :
  i <> j -> l !! i = Some p -> f p = true -> l !! j = Some q -> f q = true -> 2 <= count_at f l.
Proof.
  unfold count_at. intros Hne. revert i j Hne; induction l as [|x l IH]; intros i j Hne Hi Hp Hj Hq; [done|]. cbn [foldr].
  destruct i as [|i], j as [|j]; [done| | |].
  - injection Hi as ->. rewrite Hp. pose proof (count_pos f l j q Hj Hq) as H. unfold count_at in H. lia.
  - injection Hj as ->. rewrite Hq. pose proof (count_pos f l i p Hi Hp) as H. unfold count_at in H. lia.
  - specialize (IH i j ltac:(congruence) Hi Hp Hj Hq). destruct (f x); lia.
Qed.

Section Exclusion.
Context (spins n : nat) (Hn : Z.of_nat n < 2 ^ 64 - 1).

(** The word counts the readers, or there is one writer and no reader. *)
Record rw_inv (st : rwstate) : Prop := {
  rw_len : length (rwprocs st) = n;
  rw_word : (count_at writes (rwprocs st) = 0 /\ word st = count_at reads (rwprocs st))
            \/ (count_at writes (rwprocs st) = 1 /\ count_at reads (rwprocs st) = 0 /\ word st = NGX_RWLOCK_WLOCK);
  rw_cas i k v : rwprocs st !! i = Some (RCas k v) -> v <> NGX_RWLOCK_WLOCK
}.

Lemma rw_inv_initial : rw_inv (rw_initial n).
Proof.
  split; cbn [rw_initial rwprocs word].
  - apply length_replicate.
  - left. by rewrite !count_replicate.
  - intros i k v [? _]%lookup_replicate. done.
Qed.

(** One process moves. *)
Lemma rw_move l w i q q' w' :
  rw_inv (mk_rw l w) -> l !! i = Some q -> (forall k v, q' = RCas k v -> v <> NGX_RWLOCK_WLOCK) ->
  (w' = w /\ writes q' = writes q /\ reads q' = reads q)
  \/ (w = 0 /\ w' = NGX_RWLOCK_WLOCK /\ writes q = false /\ reads q = false /\ writes q' = true /\ reads q' = false)
  \/ (w <> NGX_RWLOCK_WLOCK /\ w' = u64 (w + 1) /\ writes q = false /\ reads q = false /\ writes q' = false /\ reads q' = true)
  \/ (w' = 0 /\ writes q = true /\ writes q' = false /\ reads q' = false)
  \/ (w' = 1 /\ writes q = true /\ writes q' = false /\ reads q' = true)
  \/ (w' = u64 (w - 1) /\ reads q = true /\ writes q' = false /\ reads q' = false) ->
  rw_inv (mk_rw (<[i := q']> l) w').
Proof.
  intros [I1 I2 I3] Hi Hcas H. cbn [rwprocs word] in *.
  pose proof (count_insert writes l i q q' Hi) as Cw. pose proof (count_insert reads l i q q' Hi) as Cr.
  pose proof (count_bounds writes l) as Bw. pose proof (count_bounds reads l) as Br.
  pose proof (count_pos writes l i q Hi) as Pw. pose proof (count_pos reads l i q Hi) as Pr.
  assert (Hrw : reads q = true -> writes q = false) by (by destruct q as [| | | | | | |[]| | | | |]).
  assert (Hu : NGX_RWLOCK_WLOCK = 2 ^ 64 - 1) by reflexivity.
  split; cbn [rwprocs word]; [by rewrite length_insert| |].
  - destruct H as [(-> & E1 & E2)|[(-> & -> & E1 & E2 & E3 & E4)|[(Hne & -> & E1 & E2 & E3 & E4)|[(-> & E1 & E3 & E4)|[(-> & E1 & E3 & E4)|(-> & E2 & E3 & E4)]]]]].
    + rewrite E1 in Cw. rewrite E2 in Cr. destruct (writes q), (reads q); lia.
    + rewrite E1, E3 in Cw. rewrite E2, E4 in Cr. lia.
    + rewrite E1, E3 in Cw. rewrite E2, E4 in Cr. left. destruct I2 as [[W ->]|(_ & _ & ?)]; [|congruence]. rewrite u64_small by (unfold in_u64; lia). lia.
    + specialize (Pw E1). destruct (reads q) eqn:Er; [by rewrite (Hrw eq_refl) in E1|]. rewrite E1, E3 in Cw. rewrite E4 in Cr. left. lia.
    + specialize (Pw E1). destruct (reads q) eqn:Er; [by rewrite (Hrw eq_refl) in E1|]. rewrite E1, E3 in Cw. rewrite E4 in Cr. left. lia.
    + specialize (Pr E2). rewrite (Hrw E2), E3 in Cw. rewrite E2, E4 in Cr. left. destruct I2 as [[W ->]|(_ & ? & _)]; [|lia].
      rewrite u64_small by (unfold in_u64; lia). lia.
  - intros j k v Hj. destruct (decide (j = i)) as [->|Hne].
    + rewrite list_lookup_insert_eq in Hj by (by apply lookup_lt_Some in Hi). injection Hj as ->. by apply (Hcas k).
    + rewrite list_lookup_insert_ne in Hj by done. by apply (I3 j k).
Qed.

(** What the word is for a holder. *)
Lemma rw_writer l w i q : rw_inv (mk_rw l w) -> l !! i = Some q -> writes q = true -> w = NGX_RWLOCK_WLOCK.
Proof. intros [_ H _] Hi Hq. cbn [rwprocs word] in H. pose proof (count_pos writes l i q Hi Hq). lia. Qed.

Lemma rw_reader l w i q : rw_inv (mk_rw l w) -> l !! i = Some q -> reads q = true -> w <> NGX_RWLOCK_WLOCK.
Proof.
  intros [Hlen H _] Hi Hq. cbn [rwprocs word] in *. pose proof (count_pos reads l i q Hi Hq). pose proof (count_bounds reads l).
  change NGX_RWLOCK_WLOCK with (2 ^ 64 - 1). lia.
Qed.

Lemma again_out {A} (place : nat -> A) (P : A -> Prop) k : (forall j, P (place j)) -> P (again spins place k).
Proof. intros H. destruct k; apply H. Qed.

Lemma rw_inv_exec l w i q q' w' :
  rw_inv (mk_rw l w) -> l !! i = Some q -> rw_exec spins q w = Some (q', w') -> rw_inv (mk_rw (<[i := q']> l) w').
Proof.
  intros Hinv Hi E. pose proof (rw_writer l w i q Hinv Hi) as Hw. pose proof (rw_reader l w i q Hinv Hi) as Hr.
  assert (HW : forall k, writes (again spins WRead k) = false /\ reads (again spins WRead k) = false /\ forall j v, again spins WRead k = RCas j v -> v <> NGX_RWLOCK_WLOCK)
    by (intros k; by apply (again_out WRead (fun q => writes q = false /\ reads q = false /\ forall j v, q = RCas j v -> v <> NGX_RWLOCK_WLOCK))).
  assert (HR : forall k, writes (again spins RRead k) = false /\ reads (again spins RRead k) = false /\ forall j v, again spins RRead k = RCas j v -> v <> NGX_RWLOCK_WLOCK)
    by (intros k; by apply (again_out RRead (fun q => writes q = false /\ reads q = false /\ forall j v, q = RCas j v -> v <> NGX_RWLOCK_WLOCK))).
  destruct q as [|k|k| |k|k v| |b| |v| | |]; cbn [rw_exec rw_wlock_step rw_rlock_step rw_unlock_step rw_downgrade_step] in E; unfold cmp_set in E; try done; cbn [writes reads] in Hw, Hr.
  - destruct (HW k) as (W1 & W2 & W3). destruct (w =? 0); injection E as <- <-; apply (rw_move l w i (WRead k) _ _ Hinv Hi); try done; by left.
  - destruct (HW k) as (W1 & W2 & W3). destruct (Z.eqb_spec w 0); injection E as <- <-; apply (rw_move l w i (WCas k) _ _ Hinv Hi); try done; [by right; left|by left].
  - destruct (HR k) as (W1 & W2 & W3). destruct (Z.eqb_spec w NGX_RWLOCK_WLOCK); cbn [negb] in E; injection E as <- <-;
      apply (rw_move l w i (RRead k) _ _ Hinv Hi); try done; try (by left). by intros ? ? [= _ <-].
  - destruct (HR k) as (W1 & W2 & W3). pose proof (rw_cas _ Hinv i k v Hi) as Hv.
    destruct (Z.eqb_spec w v) as [->|]; injection E as <- <-; apply (rw_move l _ i (RCas k v) _ _ Hinv Hi); try done; [by right; right; left|by left].
  - assert (Eb : (w =? NGX_RWLOCK_WLOCK) = b) by (destruct b; [by apply Z.eqb_eq, Hw|by apply Z.eqb_neq, Hr]). rewrite Eb in E.
    destruct b; injection E as <- <-; apply (rw_move l w i _ _ _ Hinv Hi); try done; by left.
  - rewrite (Hw eq_refl), Z.eqb_refl in E. injection E as <- <-. apply (rw_move l w i UnlockWrite _ _ Hinv Hi); try done. right. right. right. by left.
  - destruct (Z.eqb_spec w v) as [->|]; injection E as <- <-; apply (rw_move l _ i (UnlockCas v) _ _ Hinv Hi); try done; [|by left].
    right. right. right. right. by right.
  - injection E as <- <-. apply (rw_move l w i UnlockAgain _ _ Hinv Hi); try done. by left.
  - rewrite (Hw eq_refl), Z.eqb_refl in E. injection E as <- <-. apply (rw_move l _ i DowngradeRead _ _ Hinv Hi); try done. left. by rewrite (Hw eq_refl).
  - injection E as <- <-. apply (rw_move l w i DowngradeSet _ _ Hinv Hi); try done. right. right. right. right. by left.
Qed.

Lemma rw_inv_step st st' : rw_step spins st st' -> rw_inv st -> rw_inv st'.
Proof.
  intros [i q q' l w Hi Hc|i q q' l w w' Hi E] Hinv; [|by eapply rw_inv_exec].
  apply (rw_move l w i q q' w Hinv Hi); [by destruct Hc|]. left. by destruct Hc.
Qed.

Lemma rw_reachable st : rtc (rw_step spins) (rw_initial n) st -> rw_inv st.
Proof.
  enough (H : forall s1 s2, rtc (rw_step spins) s1 s2 -> rw_inv s1 -> rw_inv s2) by (intros Hr; exact (H _ _ Hr rw_inv_initial)).
  induction 1 as [|s1 s2 s3 Hs _ IH]; intros H; [done|]. by eapply IH, rw_inv_step.
Qed.

End Exclusion.

(** C38: writers are alone.  For any number of processes that lock an upstream
    for reading or writing, unlock and downgrade in any order, with every
    interleaving of the single accesses to the lock word: a process that has
    the lock for writing excludes every other holder, and the word is the
    number of readers, or [NGX_RWLOCK_WLOCK] while a process writes. *)
Theorem rwlock_exclusive spins n st :
  Z.of_nat n < 2 ^ 64 - 1 -> rtc (rw_step spins) (rw_initial n) st ->
  (forall i j p q, rwprocs st !! i = Some p -> writes p = true -> rwprocs st !! j = Some q -> writes q || reads q = true -> i = j)
  /\ word st = (if bool_decide (count_at writes (rwprocs st) = 0) then count_at reads (rwprocs st) else NGX_RWLOCK_WLOCK).
Proof.
  intros Hn Hr. destruct (rw_reachable spins n Hn st Hr) as [_ H _]. split.
  - intros i j p q Hi Hp Hj Hq. destruct (decide (i = j)) as [|Hne]; [done|exfalso]. pose proof (count_pos writes _ i p Hi Hp).
    destruct (writes q) eqn:Hw; [pose proof (count_two writes _ i j p q Hne Hi Hp Hj Hw); lia|]. pose proof (count_pos reads _ j q Hj Hq). lia.
  - case_bool_decide; lia.
Qed.

(** ** Example *)

(** One process reads; a writer that has seen the lock free is too late. *)
Definition ex_rw : rwstate := mk_rw [Reading; WCas 0] 1.

Lemma ex_rw_reached : rtc (rw_step 0) (rw_initial 2) ex_rw.
Proof.
  eapply rtc_l; [apply (rw_step_call 0 1 Free (WRead 0)); [reflexivity|constructor]|].
  eapply rtc_l; [eapply (rw_step_exec 0 1 (WRead 0)); reflexivity|].
  eapply rtc_l; [eapply (rw_step_call 0 0 Free (RRead 0)); [reflexivity|constructor]|].
  eapply rtc_l; [eapply (rw_step_exec 0 0 (RRead 0)); reflexivity|].
  eapply rtc_l; [eapply (rw_step_exec 0 0 (RCas 0 0)); reflexivity|].
  apply rtc_refl.
Qed.

Example ex_rw_late : rw_exec 0 (WCas 0) (word ex_rw) = Some (WRead 0, 1).
Proof. reflexivity. Qed.

Lemma rwlock_exclusive_witness :
  (forall i j p q, rwprocs ex_rw !! i = Some p -> writes p = true -> rwprocs ex_rw !! j = Some q -> writes q || reads q = true -> i = j)
  /\ word ex_rw = (if bool_decide (count_at writes (rwprocs ex_rw) = 0) then count_at reads (rwprocs ex_rw) else NGX_RWLOCK_WLOCK).
Proof. apply (rwlock_exclusive 0 2 ex_rw); [reflexivity|exact ex_rw_reached]. Defined.
