(* ===== verification/Ownership.v ===== *)
(** * One checker at a time

    The workers share the state of a peer and decide in
    [ngx_http_upstream_check_begin_handler] (and its stream copy) which of them
    checks it: under the mutex of the peer they write their number to
    [shm->owner], and [clean_event] takes it back without the mutex.  Here each
    worker is at a place of that code and a step is one access to the shared
    memory; the mutex is the abstract one that [Shmtx] implements.

    The theorem: only one worker checks the peer, under every interleaving,
    unless a check outlives sixteen intervals or an idle connection is
    discarded; a run shows that the second exception is needed. *)

From S2P Require Import Prelude NgxString StatusLine CheckTypes CheckProto CheckCore Shmtx.

(** ** The code *)

(** Where a worker is in [begin_handler], and whether its check runs.  The
    interval is computed before the mutex is taken. *)
Inductive wplace : Set :=
  | Idle
  | Waiting (interval : Z)                (** at [ngx_shmtx_lock] *)
  | Locked (interval : Z)                 (** about to test *)
  | Taking                                (** about to write [owner] *)
  | TakingOver (now : Z)                  (** the same for an abandoned peer *)
  | Leaving                               (** at [ngx_shmtx_unlock] *)
  | After                                 (** about to read [owner] again *)
  | Checking.

#[export] Instance wplace_eq_dec : EqDecision wplace.
Proof. solve_decision. Defined.

(** [peer->shm] as far as the decision goes, and the process that has
    [peer->shm->mutex]. *)
Record shared := mk_shared { so_owner : Z; so_access : Z; so_mutex : option nat }.

#[export] Instance eta_shared : Eta shared := fun r => mk_shared (so_owner r) (so_access r) (so_mutex r).

(** Kinds of steps. *)
Inductive kind : Set :=
  | KNormal
  | KTakeover                             (** an owner that was silent for 16 intervals is replaced *)
  | KStuck                                (** stream: the connect fails and the owner is kept *)
  | KDiscard.                             (** [clean_event] of the discard handler of an idle connection *)

Section Code.
Context (pid : nat -> Z) (check_interval : Z) (generation_ok : bool).

(** Steps of worker [i]; [now] is its [ngx_current_msec], which may be any time. *)
Inductive wstep (i : nat) : kind -> wplace * shared -> wplace * shared -> Prop :=
  | w_busy s : so_owner s = pid i -> wstep i KNormal (Idle, s) (Idle, s)
  | w_begin now s : so_owner s <> pid i -> wstep i KNormal (Idle, s) (Waiting (u64 (now - so_access s)), s)
  | w_lock iv s : so_mutex s = None -> wstep i KNormal (Waiting iv, s) (Locked iv, s <| so_mutex := Some i |>)
  | w_old iv s : generation_ok = false -> wstep i KNormal (Locked iv, s) (Idle, s <| so_mutex := None |>)
  | w_free iv s :
      generation_ok = true -> check_interval <= iv -> so_owner s = NGX_INVALID_PID -> wstep i KNormal (Locked iv, s) (Taking, s)
  | w_silent now iv s :
      generation_ok = true -> (iv < check_interval \/ so_owner s <> NGX_INVALID_PID) -> u64 (Z.shiftl check_interval 4) <= iv ->
      wstep i KNormal (Locked iv, s) (TakingOver now, s)
  | w_other iv s :
      generation_ok = true -> (iv < check_interval \/ so_owner s <> NGX_INVALID_PID) -> iv < u64 (Z.shiftl check_interval 4) ->
      wstep i KNormal (Locked iv, s) (Leaving, s)
  | w_take s : wstep i KNormal (Taking, s) (Leaving, s <| so_owner := pid i |>)
  | w_takeover now s : wstep i KTakeover (TakingOver now, s) (Leaving, s <| so_owner := pid i |> <| so_access := now |>)
  | w_unlock s : wstep i KNormal (Leaving, s) (After, s <| so_mutex := None |>)
  | w_connect s : so_owner s = pid i -> wstep i KNormal (After, s) (Checking, s)
  | w_not_me s : so_owner s <> pid i -> wstep i KNormal (After, s) (Idle, s)
  | w_update now s : wstep i KNormal (Checking, s) (Checking, s <| so_access := now |>)
  | w_clean s : wstep i KNormal (Checking, s) (Idle, s <| so_owner := NGX_INVALID_PID |>)
  | w_stuck s : wstep i KStuck (Checking, s) (Idle, s)
  | w_discard s : wstep i KDiscard (Idle, s) (Idle, s <| so_owner := NGX_INVALID_PID |>).

Record ostate := mk_ostate { workers : list wplace; shm : shared }.

Inductive ostep : kind -> ostate -> ostate -> Prop :=
  | ostep_worker i k q q' l s s' : l !! i = Some q -> wstep i k (q, s) (q', s') -> ostep k (mk_ostate l s) (mk_ostate (<[i := q']> l) s').

(** Workers that have not begun; the peer is free or belongs to a worker of
    before. *)
Definition oinitial (n : nat) (s : shared) : ostate := mk_ostate (replicate n Idle) (s <| so_mutex := None |>).

Definition nobody_checks (st : ostate) : Prop := forall i, workers st !! i <> Some Checking.

(** Steps without the two exceptions: a peer is taken over only when its check
    does not run any more. *)
Definition regular (st st' : ostate) : Prop :=
  exists k, ostep k st st' /\ k <> KDiscard /\ (k = KTakeover -> nobody_checks st).

(** ** The invariant *)

Definition locked_place (q : wplace) : bool := match q with Locked _ | Taking | TakingOver _ | Leaving => true | _ => false end.

Record oinv (st : ostate) : Prop := {
  o_mutex i q : workers st !! i = Some q -> locked_place q = true -> so_mutex (shm st) = Some i;
  o_taking i : workers st !! i = Some Taking -> so_owner (shm st) = NGX_INVALID_PID;
  o_checking i : workers st !! i = Some Checking -> so_owner (shm st) = pid i
}.

Context (pid_inj : forall i j, pid i = pid j -> i = j) (pid_valid : forall i, pid i <> NGX_INVALID_PID).

Lemma oinv_initial n s : oinv (oinitial n s).
Proof. split; cbn [oinitial workers]; [intros i q [-> _]%lookup_replicate|intros i [? _]%lookup_replicate|intros i [? _]%lookup_replicate]; done. Qed.

(** One worker moves: what has to be seen. *)
Lemma oinv_move l s i q q' s' :
  oinv (mk_ostate l s) -> l !! i = Some q ->
  (so_mutex s' = so_mutex s /\ locked_place q' = locked_place q)
  \/ (so_mutex s = None /\ so_mutex s' = Some i) \/ (locked_place q = true /\ locked_place q' = false) ->
  (so_owner s' = so_owner s \/ so_owner s' = NGX_INVALID_PID \/ locked_place q = true) ->
  (q' = Taking -> so_owner s' = NGX_INVALID_PID) -> (q' = Checking -> so_owner s' = pid i) ->
  (forall j, j <> i -> l !! j = Some Checking -> so_owner s' = so_owner s) ->
  oinv (mk_ostate (<[i := q']> l) s').
Proof.
  intros [I1 I2 I3] Hi HM HO HT HC HR. cbn [workers shm] in *. assert (Hlt : (i < length l)%nat) by by apply lookup_lt_Some in Hi.
  split; cbn [workers shm].
  - intros j p Hj Hp. destruct (insert_cases _ _ _ _ _ Hj) as [[-> ->]|[Hne Hj']].
    + destruct HM as [[-> E]|[[_ ->]|[_ E]]]; [|done|congruence]. apply (I1 i q Hi). congruence.
    + specialize (I1 j p Hj' Hp) as Hm. destruct HM as [[-> _]|[[E _]|[E _]]]; [done|congruence|]. specialize (I1 i q Hi E). congruence.
  - intros j Hj. destruct (insert_cases _ _ _ _ _ Hj) as [[_ E]|[Hne Hj']]; [by apply HT|].
    destruct HO as [->|[->|E]]; [by apply (I2 j)|done|]. specialize (I1 j Taking Hj' eq_refl) as H1. specialize (I1 i q Hi E) as H2. congruence.
  - intros j Hj. destruct (insert_cases _ _ _ _ _ Hj) as [[-> E]|[Hne Hj']]; [by apply HC|]. rewrite (HR j Hne Hj'). by apply I3.
Qed.

Lemma oinv_step st st' : regular st st' -> oinv st -> oinv st'.
Proof.
  intros (k & [i k0 q q' l s s' Hi Hs] & Hd & Ht) Hinv. pose proof Hinv as [I1 I2 I3]. cbn [workers shm] in *.
  inversion Hs; subst; clear Hs; try done; apply (oinv_move l _ i _ _ _ Hinv Hi); cbn; try done; try (by left); try (by right; left); try (by right; right).
  - intros j Hne Hj. rewrite (I2 i Hi) in *. specialize (I3 j Hj). by destruct (pid_valid j).
  - intros j Hne Hj. by destruct (Ht eq_refl j).
  - intros _. by apply I3.
  - intros j Hne Hj. specialize (I3 j Hj) as H1. specialize (I3 i Hi) as H2. destruct Hne. apply pid_inj. congruence.
Qed.

Lemma oinv_reachable n s st : rtc regular (oinitial n s) st -> oinv st.
Proof.
  enough (H : forall s1 s2, rtc regular s1 s2 -> oinv s1 -> oinv s2) by (intros Hr; exact (H _ _ Hr (oinv_initial n s))).
  induction 1 as [|s1 s2 s3 Hs _ IH]; intros H; [done|]. by eapply IH, oinv_step.
Qed.

End Code.

(** ** The theorems *)

Definition workers_ok (pid : nat -> Z) : Prop := (forall i j, pid i = pid j -> i = j) /\ forall i, pid i <> NGX_INVALID_PID.

(** C7: only one worker checks a peer at a time.  Whatever the workers do, with
    every interleaving of their accesses to the shared memory, whatever their
    clocks say and whoever owned the peer before: as long as a peer is taken
    over only from a worker whose check does not run any more and no idle
    connection is discarded, at most one worker is in a check of the peer, and
    it is the owner. *)
Theorem one_checker pid check_interval generation_ok n s st :
  workers_ok pid -> rtc (regular pid check_interval generation_ok) (oinitial n s) st ->
  (forall i, workers st !! i = Some Checking -> so_owner (shm st) = pid i)
  /\ forall i j, workers st !! i = Some Checking -> workers st !! j = Some Checking -> i = j.
Proof.
  intros [Hinj Hv] Hr. pose proof (oinv_reachable pid check_interval generation_ok Hinj Hv n s st Hr) as [_ _ H].
  split; [exact H|]. intros i j Hi Hj. apply Hinj. by rewrite <- (H i Hi), <- (H j Hj).
Qed.

(** ** One worker alone *)

Definition shared_of (sh : ngx_upstream_check_peer_shm_t) : shared := mk_shared (owner sh) (access_time sh) None.

Definition alone (pid : nat -> Z) (check_interval : Z) (i : nat) : wplace * shared -> wplace * shared -> Prop :=
  fun x y => exists k, wstep pid check_interval true i k x y.

(** Without other workers the steps are those of [begin_check]: the owner is
    decided as [take_ownership] says, and the check begins for the owner. *)
Lemma begin_alone pid i now cf sh :
  owner sh <> pid i ->
  let sh' := take_ownership now (pid i) cf sh in
  rtc (alone pid (check_interval cf) i) (Idle, shared_of sh) (if owner sh' =? pid i then Checking else Idle, shared_of sh').
Proof.
  intros Ho sh'. set (iv := u64 (now - access_time sh)).
  eapply rtc_l; [exists KNormal; by apply (w_begin _ _ _ i now)|]. change (so_access (shared_of sh)) with (access_time sh). fold iv.
  eapply rtc_l; [exists KNormal; by apply w_lock|].
  assert (Hend : forall a b, rtc (alone pid (check_interval cf) i) (Leaving, mk_shared a b (Some i)) (if a =? pid i then Checking else Idle, mk_shared a b None)).
  { intros a b. eapply rtc_l; [exists KNormal; apply w_unlock|]. cbn. destruct (Z.eqb_spec a (pid i)) as [E|E].
    - eapply rtc_l; [exists KNormal; by apply w_connect|]. apply rtc_refl.
    - eapply rtc_l; [exists KNormal; by apply w_not_me|]. apply rtc_refl. }
  subst sh'. unfold take_ownership. fold iv. destruct (Z.leb_spec (check_interval cf) iv) as [Hi|Hi]; cbn [andb].
  - destruct (Z.eqb_spec (owner sh) NGX_INVALID_PID) as [E|E].
    + eapply rtc_l; [exists KNormal; by apply w_free|]. eapply rtc_l; [exists KNormal; apply w_take|]. apply (Hend (pid i) (access_time sh)).
    + destruct (Z.leb_spec (u64 (Z.shiftl (check_interval cf) 4)) iv).
      * eapply rtc_l; [exists KNormal; apply (w_silent _ _ _ i now); [done|by right|done]|]. eapply rtc_l; [exists KTakeover; apply w_takeover|]. apply (Hend (pid i) now).
      * eapply rtc_l; [exists KNormal; apply w_other; [done|by right|done]|]. apply (Hend (owner sh) (access_time sh)).
  - destruct (Z.leb_spec (u64 (Z.shiftl (check_interval cf) 4)) iv).
    + eapply rtc_l; [exists KNormal; apply (w_silent _ _ _ i now); [done|by left|done]|]. eapply rtc_l; [exists KTakeover; apply w_takeover|]. apply (Hend (pid i) now).
    + eapply rtc_l; [exists KNormal; apply w_other; [done|by left|done]|]. apply (Hend (owner sh) (access_time sh)).
Qed.

(** ** Runs *)

(** One step of a worker of a list that is known. *)
Lemma by_worker pid ci g k (P : kind -> ostate -> Prop) i q q' l s s' st :
  (P k (mk_ostate l s)) -> l !! i = Some q -> wstep pid ci g i k (q, s) (q', s') ->
  rtc (fun a b => exists k, ostep pid ci g k a b /\ P k a) (mk_ostate (<[i := q']> l) s') st ->
  rtc (fun a b => exists k, ostep pid ci g k a b /\ P k a) (mk_ostate l s) st.
Proof. intros HP Hi Hs Hr. eapply rtc_l; [|exact Hr]. exists k. split; [by econstructor|done]. Qed.

(** an idle connection that is discarded breaks the exclusion.  For any two
    workers and any interval there is a run, without takeovers, after which
    both check the peer at once: one of them began, the other one discards its
    idle connection of an earlier check, which clears the owner, and begins. *)
Theorem discard_two_checkers pid check_interval :
  workers_ok pid -> 0 <= check_interval < 2 ^ 60 ->
  exists st, rtc (fun a b => exists k, ostep pid check_interval true k a b /\ k <> KTakeover)
               (oinitial 2 (mk_shared NGX_INVALID_PID 0 None)) st
    /\ workers st = [Checking; Checking].
Proof.
  intros [Hinj Hv] Hci. set (ci := check_interval) in *. exists (mk_ostate [Checking; Checking] (mk_shared (pid 1%nat) 0 None)). split; [|reflexivity]. unfold oinitial. cbn [replicate]. set (P := fun (k : kind) (_ : ostate) => k <> KTakeover).
  assert (Hiv : ci <= u64 (ci - 0)) by (rewrite Z.sub_0_r, u64_small by (unfold in_u64; lia); lia).
  assert (H0 : pid 0%nat <> NGX_INVALID_PID) by apply Hv. assert (H1 : pid 1%nat <> NGX_INVALID_PID) by apply Hv.
  eapply (by_worker pid ci true KNormal P 0 Idle); [done|done|apply (w_begin _ _ _ 0 ci); cbn; congruence|].
  eapply (by_worker pid ci true KNormal P 0); [done|done|by apply w_lock|].
  eapply (by_worker pid ci true KNormal P 0); [done|done|by apply w_free|].
  eapply (by_worker pid ci true KNormal P 0); [done|done|by apply w_take|].
  eapply (by_worker pid ci true KNormal P 0); [done|done|by apply w_unlock|].
  eapply (by_worker pid ci true KNormal P 0); [done|done|by apply w_connect|].
  eapply (by_worker pid ci true KDiscard P 1); [done|done|by apply w_discard|].
  eapply (by_worker pid ci true KNormal P 1 Idle); [done|done|apply (w_begin _ _ _ 1 ci); cbn; congruence|].
  eapply (by_worker pid ci true KNormal P 1); [done|done|by apply w_lock|].
  eapply (by_worker pid ci true KNormal P 1); [done|done|by apply w_free|].
  eapply (by_worker pid ci true KNormal P 1); [done|done|by apply w_take|].
  eapply (by_worker pid ci true KNormal P 1); [done|done|by apply w_unlock|].
  eapply (by_worker pid ci true KNormal P 1); [done|done|by apply w_connect|].
  apply rtc_refl.
Qed.

Definition ex_wpid (i : nat) : Z := Z.of_nat i + 100.

Lemma ex_workers_ok : workers_ok ex_wpid.
Proof. split; unfold ex_wpid; intros; [lia|]. change NGX_INVALID_PID with (-1). lia. Qed.

Lemma discard_two_checkers_witness :
  exists st, rtc (fun a b => exists k, ostep ex_wpid 1000 true k a b /\ k <> KTakeover) (oinitial 2 (mk_shared NGX_INVALID_PID 0 None)) st
    /\ workers st = [Checking; Checking].
Proof. apply (discard_two_checkers ex_wpid 1000 ex_workers_ok). split; [discriminate|reflexivity]. Defined.

(** The interval is read before the mutex is taken: the second worker begins a
    check at time 5000 although the first one has just ended one at that time. *)
Lemma stale_interval_rechecks :
  rtc (regular ex_wpid 1000 true) (oinitial 2 (mk_shared NGX_INVALID_PID 0 None)) (mk_ostate [Idle; Checking] (mk_shared 101 5000 None)).
Proof.
  unfold regular, oinitial. cbn [replicate]. set (P := fun (k : kind) (a : ostate) => k <> KDiscard /\ (k = KTakeover -> nobody_checks a)).
  eapply (by_worker ex_wpid 1000 true KNormal P 1 Idle); [done|done|by apply (w_begin _ _ _ 1 5000)|].
  eapply (by_worker ex_wpid 1000 true KNormal P 0 Idle); [done|done|by apply (w_begin _ _ _ 0 5000)|].
  eapply (by_worker ex_wpid 1000 true KNormal P 0); [done|done|by apply w_lock|].
  eapply (by_worker ex_wpid 1000 true KNormal P 0); [done|done|by apply w_free|].
  eapply (by_worker ex_wpid 1000 true KNormal P 0); [done|done|by apply w_take|].
  eapply (by_worker ex_wpid 1000 true KNormal P 0); [done|done|by apply w_unlock|].
  eapply (by_worker ex_wpid 1000 true KNormal P 0); [done|done|by apply w_connect|].
  eapply (by_worker ex_wpid 1000 true KNormal P 0 Checking Checking); [done|done|by apply (w_update _ _ _ 0 5000)|].
  eapply (by_worker ex_wpid 1000 true KNormal P 0 Checking Idle); [done|done|by apply w_clean|].
  eapply (by_worker ex_wpid 1000 true KNormal P 1); [done|done|by apply w_lock|].
  eapply (by_worker ex_wpid 1000 true KNormal P 1); [done|done|by apply w_free|].
  eapply (by_worker ex_wpid 1000 true KNormal P 1); [done|done|by apply w_take|].
  eapply (by_worker ex_wpid 1000 true KNormal P 1); [done|done|by apply w_unlock|].
  eapply (by_worker ex_wpid 1000 true KNormal P 1); [done|done|by apply w_connect|].
  apply rtc_refl.
Qed.

Lemma one_checker_witness :
  (forall i, [Idle; Checking] !! i = Some Checking -> 101 = ex_wpid i)
  /\ forall i j, [Idle; Checking] !! i = Some Checking -> [Idle; Checking] !! j = Some Checking -> i = j.
Proof.
  apply (one_checker ex_wpid 1000 true 2 (mk_shared NGX_INVALID_PID 0 None) (mk_ostate [Idle; Checking] (mk_shared 101 5000 None)) ex_workers_ok).
  exact stale_interval_rechecks.
Defined.
