(* ===== verification/LeastConn.v ===== *)
(** * Least connections

    [src/http/modules/ngx_http_upstream_least_conn_module.c] and its copy in
    [src/stream]: a request goes to the server with the least connections for
    its weight; among equals the smooth round robin decides.  Servers the
    health checker has taken down are skipped.  [conns] is unsigned, so the
    products of the comparison wrap at 64 bits. *)

From S2P Require Import Prelude NgxString StatusLine CheckTypes CheckProto CheckCore CheckSafety CheckWorker.
From S2P Require Import Inet FastCgiRequest CheckConf AddPeer RoundRobin.

(** [peer->conns * best->weight] *)
Definition load_of (p q : rr_peer) : Z := u64 (conns p * weight q).

Section Least.
Context (now : Z) (check_down : Z -> bool).

(** The first loop: the best server with its position, and [many]. *)
Fixpoint least_loop (t : list Z) (i : nat) (best : option (nat * rr_peer)) (many : bool) (l : list rr_peer)
    : option (nat * rr_peer) * bool :=
  match l with
  | [] => (best, many)
  | p :: l' =>
    if skipped now check_down t i p then least_loop t (S i) best many l'
    else match best with
         | None => least_loop t (S i) (Some (i, p)) false l'
         | Some (_, b) =>
           if load_of p b <? load_of b p then least_loop t (S i) (Some (i, p)) false l'
           else if load_of p b =? load_of b p then least_loop t (S i) best true l'
           else least_loop t (S i) best many l'
         end
  end.

(** The second loop, over [k] servers from position [i] on; [bi] is the
    position of [best]. *)
Fixpoint many_loop (t : list Z) (k i bi : nat) (total : Z) (l : list rr_peer) : option (nat * Z * list rr_peer) :=
  match k with
  | O => Some (bi, total, l)
  | S k' =>
    p ← l !! i; b ← l !! bi;
    if skipped now check_down t i p || negb (load_of p b =? load_of b p) then many_loop t k' (S i) bi total l
    else
      let q := raise_weight p in
      let l := <[i := q]> l in
      b ← l !! bi;
      many_loop t k' (S i) (if current_weight b <? current_weight q then i else bi) (total + effective_weight p) l
  end.

(** What the chosen server pays. *)
Definition take_peer (total : Z) (b : rr_peer) : rr_peer :=
  let b := b <| current_weight := current_weight b - total |> in
  let b := if fail_timeout b <? now - rr_checked b then b <| rr_checked := now |> else b in
  b <| conns := u64 (conns b + 1) |>.

(** One group of several servers. *)
Definition least_group (ps : rr_peers) (t : list Z) : option (option nat * list Z * rr_peers) :=
  let l := rr_list ps in
  match least_loop t 0 None false l with
  | (None, _) => Some (None, t, ps)
  | (Some (p, _), many) =>
    '(p, total, l) ← (if many : bool then many_loop t (length l - p) p p 0 l else Some (p, 0, l));
    Some (Some p, set_tried t p, ps <| rr_list := alter (take_peer total) p l |>)
  end.

(** The call with [rrp->peers] the backup servers. *)
Definition get_least_conn_backup (rrp : rr_data) (us : rr_upstream) : option (ngx_rc * rr_data * rr_upstream) :=
  bs ← backup us;
  if single bs then get_round_robin_peer now check_down rrp us
  else
    '(r, t, bs) ← least_group bs (tried rrp);
    let us := us <| backup := Some bs |> in
    let rrp := rrp <| tried := t |> in
    match r with
    | Some i => Some (NGX_OK, rrp <| current := Some i |>, us)
    | None => Some (NGX_BUSY, rrp, us)
    end.

Definition get_least_conn_peer (rrp : rr_data) (us : rr_upstream) : option (ngx_rc * rr_data * rr_upstream) :=
  if on_backup rrp then get_least_conn_backup rrp us
  else if single (primary us) then get_round_robin_peer now check_down rrp us
  else
    '(r, t, ps) ← least_group (primary us) (tried rrp);
    let us := us <| primary := ps |> in
    let rrp := rrp <| tried := t |> in
    match r, backup us with
    | Some i, _ => Some (NGX_OK, rrp <| current := Some i |>, us)
    | None, None => Some (NGX_BUSY, rrp, us)
    | None, Some bs =>
      let n := words (number bs) in
      get_least_conn_backup (rrp <| on_backup := true |> <| tried := replicate n 0 ++ drop n (tried rrp) |>) us
    end.

End Least.

(** [init_least_conn_peer]: the data are those of the round robin. *)
Definition init_least_conn_peer : rr_upstream -> rr_data := init_round_robin_peer.

Definition ngx_http_upstream_get_least_conn_peer := get_least_conn_peer.
Definition ngx_stream_upstream_get_least_conn_peer := get_least_conn_peer.
Definition ngx_http_upstream_init_least_conn_peer := init_least_conn_peer.
Definition ngx_stream_upstream_init_least_conn_peer := init_least_conn_peer.

(** ** The least loaded servers *)

(** The connections for the weight of [p] are at most those of [q]. *)
Definition le_load (p q : rr_peer) : Prop := conns p * weight q <= conns q * weight p.

(** Weights are positive and the products do not wrap. *)
Definition loads_ok (l : list rr_peer) : Prop :=
  forall p q, p ∈ l -> q ∈ l -> 0 <= conns p /\ 0 < weight p /\ conns p * weight q < 2 ^ 64.

Lemma load_of_small l p q : loads_ok l -> p ∈ l -> q ∈ l -> load_of p q = conns p * weight q.
Proof.
  intros H Hp Hq. destruct (H p q Hp Hq) as (? & _ & ?). destruct (H q q Hq Hq) as (_ & ? & _).
  unfold load_of. apply u64_small. unfold in_u64. nia.
Qed.

Lemma le_load_trans p q r :
  0 <= conns p -> 0 <= conns r -> 0 < weight p -> 0 < weight q -> 0 < weight r ->
  le_load p q -> le_load q r -> le_load p r.
Proof.
  unfold le_load. intros. apply (Z.mul_le_mono_pos_r _ _ (weight q)); [done|].
  transitivity (conns q * weight p * weight r); nia.
Qed.

Lemma le_load_total p q : le_load p q \/ le_load q p.
Proof. unfold le_load. lia. Qed.

Section Chosen.
Context (now : Z) (check_down : Z -> bool) (t : list Z) (l : list rr_peer) (Hl : loads_ok l).

Abbreviation avail := (available now check_down t).

(** [best] is a least loaded server among the first [n]. *)
Definition least_of (n : nat) (best : option (nat * rr_peer)) : Prop :=
  match best with
  | None => forall k q, (k < n)%nat -> l !! k = Some q -> ~ avail k q
  | Some (i, p) => (i < n)%nat /\ l !! i = Some p /\ avail i p
                   /\ forall k q, (k < n)%nat -> l !! k = Some q -> avail k q -> le_load p q
  end.

Lemma least_of_next n best p :
  l !! n = Some p -> least_of n best ->
  (avail n p -> match best with Some (_, b) => le_load b p | None => False end) -> least_of (S n) best.
Proof.
  intros Hp H Hb. destruct best as [[i b]|]; cbn in *.
  - destruct H as (? & ? & ? & H). split_and!; [lia|done..|]. intros k q Hk Hq Ha.
    destruct (decide (k = n)) as [->|]; [|apply (H k); [lia|done..]]. rewrite Hp in Hq. injection Hq as <-. by apply Hb.
  - intros k q Hk Hq Ha. destruct (decide (k = n)) as [->|]; [|apply (H k q); [lia|done..]].
    rewrite Hp in Hq. injection Hq as <-. by apply Hb.
Qed.

Lemma least_of_take n best p :
  l !! n = Some p -> least_of n best -> avail n p ->
  match best with Some (_, b) => le_load p b | None => True end -> least_of (S n) (Some (n, p)).
Proof.
  intros Hp H Ha Hb. cbn. split_and!; [lia|done|done|]. intros k q Hk Hq Haq.
  destruct (decide (k = n)) as [->|]; [rewrite Hp in Hq; injection Hq as <-; unfold le_load; lia|].
  destruct best as [[i b]|]; cbn in *.
  - destruct H as (_ & Hib & Hav & H). specialize (H k q ltac:(lia) Hq Haq).
    assert (Hin : b ∈ l /\ p ∈ l /\ q ∈ l) by (split_and!; by eapply list_elem_of_lookup_2). destruct Hin as (Ib & Ip & Iq).
    destruct (Hl p q Ip Iq) as (? & ? & _), (Hl b q Ib Iq) as (? & ? & _), (Hl q q Iq Iq) as (? & ? & _).
    by apply (le_load_trans p b q).
  - exfalso. apply (H k q ltac:(lia) Hq Haq).
Qed.

Lemma least_loop_spec n best many :
  least_of n best -> least_of (length l) (fst (least_loop now check_down t n best many (drop n l))).
Proof.
  intros H. remember (drop n l) as r eqn:Er. revert n best many Er H.
  induction r as [|p r IH]; intros n best many Er H.
  { cbn. assert (Hn : (length l <= n)%nat) by (apply (f_equal length) in Er; rewrite length_drop in Er; cbn in Er; lia).
    destruct best as [[i b]|]; cbn in *.
    - destruct H as (_ & Hi & Ha & H). split_and!; [by eapply lookup_lt_Some|done|done|]. intros k q Hk. apply H. lia.
    - intros k q Hk. apply H. lia. }
  assert (Hp : l !! n = Some p) by (rewrite <- (Nat.add_0_r n), <- lookup_drop, <- Er; done).
  assert (Er' : r = drop (S n) l) by (rewrite <- Nat.add_1_r, <- drop_drop, <- Er; done).
  cbn [least_loop]. destruct (skipped now check_down t n p) eqn:Es.
  { apply IH; [done|]. apply (least_of_next n best p Hp H). intros Ha%skipped_available. congruence. }
  apply skipped_available in Es. destruct best as [[i b]|]; [|by apply IH; [|apply (least_of_take n None)]].
  assert (Hin : b ∈ l /\ p ∈ l) by (destruct H as (_ & ? & _); split; by eapply list_elem_of_lookup_2). destruct Hin as [Ib Ip].
  rewrite !(load_of_small l) by done.
  destruct (Z.ltb_spec (conns p * weight b) (conns b * weight p)).
  { apply IH; [done|]. apply (least_of_take n (Some (i, b))); [done..|]. unfold le_load. lia. }
  assert (Hnext : least_of (S n) (Some (i, b))) by (apply (least_of_next n _ p Hp H); intros; unfold le_load; lia).
  destruct (Z.eqb_spec (conns p * weight b) (conns b * weight p)); by apply IH.
Qed.

(** The second loop changes nothing but the weights of the competition. *)
Definition reweighed (p q : rr_peer) : Prop :=
  exists c e, q = p <| current_weight := c |> <| effective_weight := e |>.

Lemma reweighed_refl p : reweighed p p.
Proof. exists (current_weight p), (effective_weight p). by destruct p. Qed.

Lemma reweighed_raise p q : reweighed p q -> reweighed p (raise_weight q).
Proof. intros (c & e & ->). unfold raise_weight. destruct (_ <? _); by eexists _, _. Qed.

Lemma reweighed_skipped i p q : reweighed p q -> skipped now check_down t i q = skipped now check_down t i p.
Proof. by intros (c & e & ->). Qed.

Lemma reweighed_load p q p' q' : reweighed p p' -> reweighed q q' -> load_of p' q' = load_of p q.
Proof. by intros (c & e & ->) (c' & e' & ->). Qed.

(** A server as little loaded as the least loaded one. *)
Lemma least_equal i p b j :
  least_of (length l) (Some (j, b)) -> l !! i = Some p -> avail i p -> conns p * weight b = conns b * weight p ->
  least_of (length l) (Some (i, p)).
Proof.
  intros (_ & Hb & _ & H) Hp Ha E. split_and!; [by eapply lookup_lt_Some|done|done|]. intros k q Hk Hq Haq.
  specialize (H k q Hk Hq Haq).
  assert (Hin : b ∈ l /\ p ∈ l /\ q ∈ l) by (split_and!; by eapply list_elem_of_lookup_2). destruct Hin as (Ib & Ip & Iq).
  destruct (Hl p q Ip Iq) as (? & ? & _), (Hl b q Ib Iq) as (? & ? & _), (Hl q q Iq Iq) as (? & ? & _).
  apply (le_load_trans p b q); try done. unfold le_load. lia.
Qed.

Lemma many_loop_spec k i bi total l' b :
  Forall2 reweighed l l' -> (i + k <= length l)%nat -> least_of (length l) (Some (bi, b)) ->
  exists bi' b' total' l'', many_loop now check_down t k i bi total l' = Some (bi', total', l'')
    /\ Forall2 reweighed l l'' /\ least_of (length l) (Some (bi', b')).
Proof.
  revert i bi total l' b; induction k as [|k IH]; intros i bi total l' b Hf Hk Hb; [by eexists _, _, _, _|].
  cbn [many_loop]. destruct (lookup_lt_is_Some_2 l i ltac:(lia)) as [p Hp].
  destruct (Forall2_lookup_l _ _ _ _ _ Hf Hp) as (p' & Hp' & Rp).
  pose proof Hb as (_ & Hbi & _ & _). destruct (Forall2_lookup_l _ _ _ _ _ Hf Hbi) as (b' & Hb' & Rb).
  rewrite Hp', Hb'. cbn [mbind option_bind].
  rewrite (reweighed_skipped i p p') by done. rewrite (reweighed_load p b p' b'), (reweighed_load b p b' p') by done.
  destruct (skipped now check_down t i p) eqn:Es; [apply (IH (S i) bi total l' b); [done|lia|done]|]. cbn [orb].
  assert (Hin : b ∈ l /\ p ∈ l) by (split; by eapply list_elem_of_lookup_2). destruct Hin as [Ib Ip].
  rewrite !(load_of_small l) by done.
  destruct (Z.eqb_spec (conns p * weight b) (conns b * weight p)) as [E|E]; cbn [negb]; [|apply (IH (S i) bi total l' b); [done|lia|done]].
  apply skipped_available in Es.
  assert (Hf' : Forall2 reweighed l (<[i := raise_weight p']> l')).
  { rewrite <- (list_insert_id l i p) by done. apply Forall2_insert; [done|by apply reweighed_raise]. }
  destruct (Forall2_lookup_l _ _ _ _ _ Hf' Hbi) as (b'' & -> & _). cbn [mbind option_bind].
  destruct (current_weight b'' <? current_weight (raise_weight p')).
  - apply (IH (S i) i _ _ p); [done|lia|]. by apply (least_equal i p b bi).
  - apply (IH (S i) bi _ _ b); [done|lia|done].
Qed.

End Chosen.

(** ** One group *)

(** A usable server with the least connections for its weight. *)
Definition least_usable (now : Z) (check_down : Z -> bool) (ps : rr_peers) (i : nat) : Prop :=
  exists p, rr_list ps !! i = Some p /\ usable now check_down ps p
    /\ forall q, q ∈ rr_list ps -> usable now check_down ps q -> le_load p q.

Lemma usable_available now cd ps t i p :
  single ps = false -> all_clear t -> usable now cd ps p <-> available now cd t i p.
Proof. intros Hs Ht. unfold usable, available. rewrite Hs, (Ht i). naive_solver. Qed.

Lemma least_group_spec now cd ps t :
  single ps = false -> all_clear t -> loads_ok (rr_list ps) ->
  exists r t' ps', least_group now cd ps t = Some (r, t', ps')
    /\ match r with
       | Some i => least_usable now cd ps i
           /\ exists p p', rr_list ps !! i = Some p /\ rr_list ps' !! i = Some p' /\ conns p' = u64 (conns p + 1)
       | None => t' = t /\ ps' = ps /\ forall p, p ∈ rr_list ps -> ~ usable now cd ps p
       end.
Proof.
  intros Hs Ht Hl. unfold least_group. set (l := rr_list ps) in *.
  pose proof (least_loop_spec now cd t l Hl 0 None false) as H. rewrite drop_0 in H.
  specialize (H ltac:(intros k q Hk; lia)).
  destruct (least_loop now cd t 0 None false l) as [[[p b]|] many]; cbn [fst] in H.
  - assert (Hm : exists bi b' total l', (if many then many_loop now cd t (length l - p) p p 0 l else Some (p, 0, l)) = Some (bi, total, l')
                 /\ Forall2 reweighed l l' /\ least_of now cd t l (length l) (Some (bi, b'))).
    { assert (Hr : Forall2 reweighed l l) by apply Forall_Forall2_diag, Forall_true, reweighed_refl.
      destruct many; [|by exists p, b, 0, l].
      destruct (many_loop_spec now cd t l Hl (length l - p) p p 0 l b Hr) as (bi & b' & total & l' & ? & ? & ?); [|done|by exists bi, b', total, l'].
      destruct H as (? & _). lia. }
    destruct Hm as (bi & b' & total & l' & -> & Hf & (_ & Hbi & Ha & Hmin)). cbn [mbind option_bind].
    eexists _, _, _. split; [reflexivity|]. split.
    + exists b'. split; [done|]. split; [by apply (usable_available now cd ps t bi)|].
      intros q [k Hk]%list_elem_of_lookup Hq. apply (Hmin k); [by eapply lookup_lt_Some|done|].
      by apply (usable_available now cd ps t k).
    + destruct (Forall2_lookup_l _ _ _ _ _ Hf Hbi) as (c & Hc & (x & y & ->)).
      eexists b', _. split; [done|]. split; [cbn [rr_list upd]; by rewrite list_lookup_alter, decide_True, Hc by done|].
      cbn. unfold take_peer. cbn. by destruct (_ <? _).
  - eexists _, _, _. split; [reflexivity|]. split_and!; [done|done|].
    intros p [k Hk]%list_elem_of_lookup Hp. apply (H k p); [by eapply lookup_lt_Some|done|].
    by apply (usable_available now cd ps t k).
Qed.

Lemma backup_clear us n : all_clear (replicate n 0 ++ drop n (tried (init_round_robin_peer us))).
Proof.
  apply clear_words, Forall_drop. unfold init_round_robin_peer. cbn [tried].
  destruct (_ <=? 64); [by repeat constructor|by apply Forall_replicate].
Qed.

(** The only server of a group. *)
Lemma single_least now cd ps i p :
  group_wf ps -> single ps = true -> rr_list ps !! i = Some p -> usable now cd ps p -> least_usable now cd ps i.
Proof.
  intros Hw Hs Hp Hu. exists p. split_and!; [done|done|]. intros q Hq _. specialize (Hw Hs).
  destruct (rr_list ps) as [|x [|y l]]; try done. destruct i as [|i]; [|done]. injection Hp as <-.
  apply list_elem_of_singleton in Hq as ->. unfold le_load. lia.
Qed.

(** The backup servers, with a clean bitmap. *)
Lemma least_backup_spec now cd rrp us bs :
  backup us = Some bs -> on_backup rrp = true -> group_wf bs -> loads_ok (rr_list bs) -> all_clear (tried rrp) ->
  exists rc rrp' us', get_least_conn_backup now cd rrp us = Some (rc, rrp', us') /\ on_backup rrp' = true
    /\ ((rc = NGX_OK /\ exists i, current rrp' = Some i /\ least_usable now cd bs i)
        \/ rc = NGX_BUSY /\ forall p, p ∈ rr_list bs -> ~ usable now cd bs p).
Proof.
  intros Eb On Hw Hl Hc. unfold get_least_conn_backup. rewrite Eb. cbn [mbind option_bind].
  destruct (single bs) eqn:Hs.
  - unfold get_round_robin_peer. rewrite On.
    destruct (get_backup_spec now cd rrp us bs Eb Hw Hc) as (rc & rrp' & us' & -> & On' & H).
    exists rc, rrp', us'. split; [done|]. split; [congruence|].
    destruct H as [(-> & i & p & ? & Hi & Hu)|H]; [left|by right]. split; [done|]. exists i. split; [done|].
    by apply (single_least now cd bs i p).
  - destruct (least_group_spec now cd bs _ Hs Hc Hl) as (r & t & bs' & E & H). rewrite (bind_some _ _ _ E). cbn beta iota.
    destruct r as [i|]; eexists _, _, _; (split; [reflexivity|]); (split; [done|]).
    + left. split; [done|]. exists i. split; [done|]. apply H.
    + right. split; [done|]. apply H.
Qed.

Lemma least_conn_least now check_down us :
  group_wf (primary us) -> loads_ok (rr_list (primary us)) ->
  (forall bs, backup us = Some bs -> group_wf bs /\ loads_ok (rr_list bs)) ->
  exists rc rrp us', get_least_conn_peer now check_down (init_least_conn_peer us) us = Some (rc, rrp, us')
    /\ ((rc = NGX_OK /\ on_backup rrp = false
         /\ exists i, current rrp = Some i /\ least_usable now check_down (primary us) i)
        \/ (forall p, p ∈ rr_list (primary us) -> ~ usable now check_down (primary us) p)
           /\ ((rc = NGX_OK /\ on_backup rrp = true
                /\ exists bs i p, backup us = Some bs /\ current rrp = Some i /\ rr_list bs !! i = Some p
                     /\ usable now check_down bs p /\ (single (primary us) = false -> least_usable now check_down bs i))
               \/ rc = NGX_BUSY
                  /\ forall bs p, backup us = Some bs -> p ∈ rr_list bs -> ~ usable now check_down bs p)).
Proof.
  intros Hw Hl Hb. unfold get_least_conn_peer. change (on_backup (init_least_conn_peer us)) with false. cbn match.
  unfold init_least_conn_peer.
  destruct (single (primary us)) eqn:Hs.
  { destruct (request_usable now check_down us Hw (fun bs E => proj1 (Hb bs E))) as (rc & rrp & us' & -> & H).
    exists rc, rrp, us'. split; [done|]. destruct H as [(-> & On & i & p & ? & Hi & Hu)|(Hn & [(-> & On & bs & i & p & ? & ? & ? & ?)|H])].
    - left. split; [done|]. split; [done|]. exists i. split; [done|]. by apply (single_least now check_down _ i p).
    - right. split; [done|]. left. split; [done|]. split; [done|]. by exists bs, i, p.
    - right. split; [done|]. by right. }
  destruct (least_group_spec now check_down (primary us) (tried (init_round_robin_peer us)) Hs (fresh_clear us) Hl) as (r & t & ps & E & H).
  rewrite (bind_some _ _ _ E). cbn beta iota.
  change (backup (us <| primary := ps |>)) with (backup us). destruct r as [i|].
  { eexists _, _, _. split; [reflexivity|]. left. split; [done|]. split; [done|]. exists i. split; [done|]. apply H. }
  destruct H as (-> & -> & Hn). destruct (backup us) as [bs|] eqn:Eb.
  - destruct (Hb bs eq_refl) as [Hwb Hlb].
    match goal with |- context [get_least_conn_backup _ _ ?x ?y] =>
      destruct (least_backup_spec now check_down x y bs) as (rc & rrp & us' & -> & On & H) end;
      [done|done|done|done|apply backup_clear|].
    exists rc, rrp, us'. split; [done|]. right. split; [done|]. destruct H as [(-> & i & Ei & p & Hi & Hu & Hmin)|[-> H]].
    + left. split; [done|]. split; [done|]. exists bs, i, p. split_and!; try done. intros _. by exists p.
    + right. split; [done|]. intros bs0 p [= <-]. apply H.
  - eexists _, _, _. split; [reflexivity|]. right. split; [done|]. right. by split.
Qed.

(** C23: least connections.  A new request goes to a server of the upstream
    that may be used (not down in the configuration or for the health checker,
    not failed too often lately, below its connection limit) and that has the
    least connections for its weight among those, and is counted there; to a
    backup server of that kind only if no server of the upstream may be used
    (with the least connections unless the upstream has a single server, when
    round robin decides); and it gets [NGX_BUSY] exactly when no server and no
    backup server may be used. *)
Theorem least_conn_chooses_least now check_down us :
  group_wf (primary us) -> loads_ok (rr_list (primary us)) ->
  (forall bs, backup us = Some bs -> group_wf bs /\ loads_ok (rr_list bs)) ->
  exists rc rrp us', get_least_conn_peer now check_down (init_least_conn_peer us) us = Some (rc, rrp, us')
    /\ ((rc = NGX_OK /\ on_backup rrp = false
         /\ exists i, current rrp = Some i /\ least_usable now check_down (primary us) i)
        \/ (forall p, p ∈ rr_list (primary us) -> ~ usable now check_down (primary us) p)
           /\ ((rc = NGX_OK /\ on_backup rrp = true
                /\ exists bs i p, backup us = Some bs /\ current rrp = Some i /\ rr_list bs !! i = Some p
                     /\ usable now check_down bs p /\ (single (primary us) = false -> least_usable now check_down bs i))
               \/ rc = NGX_BUSY
                  /\ forall bs p, backup us = Some bs -> p ∈ rr_list bs -> ~ usable now check_down bs p)).
Proof. apply least_conn_least. Qed.

(** Three servers with weights 3, 1 and 2; the second one is down for the
    health checker, and the first one has more connections for its weight. *)
Definition ex_lc_us : rr_upstream :=
  ex_rr_us <| primary := (primary ex_rr_us) <| rr_list := alter (fun p => p <| conns := 4 |>) 0%nat (rr_list (primary ex_rr_us)) |> |>.

Example ex_lc_choice :
  (fun x => (fst (fst x), current (snd (fst x)))) <$> get_least_conn_peer 100 ex_check_down (init_least_conn_peer ex_lc_us) ex_lc_us
  = Some (NGX_OK, Some 2%nat).
Proof. vm_compute. reflexivity. Qed.

Lemma ex_loads_ok : loads_ok (rr_list (primary ex_lc_us)).
Proof.
  intros p q Hp Hq. repeat (apply elem_of_cons in Hp as [->|Hp]; [|]); try by apply elem_of_nil in Hp.
  all: repeat (apply elem_of_cons in Hq as [->|Hq]; [|]); try by apply elem_of_nil in Hq.
  all: vm_compute; split_and!; congruence.
Qed.

Lemma least_conn_chooses_least_witness :
  exists rc rrp us', get_least_conn_peer 100 ex_check_down (init_least_conn_peer ex_lc_us) ex_lc_us = Some (rc, rrp, us')
    /\ exists i, current rrp = Some i /\ least_usable 100 ex_check_down (primary ex_lc_us) i.
Proof.
  destruct (least_conn_chooses_least 100 ex_check_down ex_lc_us) as (rc & rrp & us' & E & H);
    [discriminate|apply ex_loads_ok|discriminate|].
  exists rc, rrp, us'. split; [exact E|]. vm_compute in E. injection E as <- <- <-.
  destruct H as [(_ & _ & H)|(_ & [(_ & H & _)|[H _]])]; [exact H|discriminate|discriminate].
Defined.
