(* ===== verification/Crc32.v ===== *)
(** * CRC-32 ([src/core/ngx_crc32.c], [src/core/ngx_crc32.h])

    The checksum the [hash] balancers are built on: the byte-wise and the
    nibble-wise routines with their tables.  Both compute the CRC-32 of the
    polynomial [0xedb88320], one bit at a time. *)

From S2P Require Import Prelude NgxString.

Definition ngx_crc32_table16 : list Z :=
  [0x00000000; 0x1db71064; 0x3b6e20c8; 0x26d930ac; 0x76dc4190; 0x6b6b51f4; 0x4db26158; 0x5005713c;
   0xedb88320; 0xf00f9344; 0xd6d6a3e8; 0xcb61b38c; 0x9b64c2b0; 0x86d3d2d4; 0xa00ae278; 0xbdbdf21c].

Definition ngx_crc32_table256 : list Z :=
  [0x00000000; 0x77073096; 0xee0e612c; 0x990951ba; 0x076dc419; 0x706af48f; 0xe963a535; 0x9e6495a3;
   0x0edb8832; 0x79dcb8a4; 0xe0d5e91e; 0x97d2d988; 0x09b64c2b; 0x7eb17cbd; 0xe7b82d07; 0x90bf1d91;
   0x1db71064; 0x6ab020f2; 0xf3b97148; 0x84be41de; 0x1adad47d; 0x6ddde4eb; 0xf4d4b551; 0x83d385c7;
   0x136c9856; 0x646ba8c0; 0xfd62f97a; 0x8a65c9ec; 0x14015c4f; 0x63066cd9; 0xfa0f3d63; 0x8d080df5;
   0x3b6e20c8; 0x4c69105e; 0xd56041e4; 0xa2677172; 0x3c03e4d1; 0x4b04d447; 0xd20d85fd; 0xa50ab56b;
   0x35b5a8fa; 0x42b2986c; 0xdbbbc9d6; 0xacbcf940; 0x32d86ce3; 0x45df5c75; 0xdcd60dcf; 0xabd13d59;
   0x26d930ac; 0x51de003a; 0xc8d75180; 0xbfd06116; 0x21b4f4b5; 0x56b3c423; 0xcfba9599; 0xb8bda50f;
   0x2802b89e; 0x5f058808; 0xc60cd9b2; 0xb10be924; 0x2f6f7c87; 0x58684c11; 0xc1611dab; 0xb6662d3d;
   0x76dc4190; 0x01db7106; 0x98d220bc; 0xefd5102a; 0x71b18589; 0x06b6b51f; 0x9fbfe4a5; 0xe8b8d433;
   0x7807c9a2; 0x0f00f934; 0x9609a88e; 0xe10e9818; 0x7f6a0dbb; 0x086d3d2d; 0x91646c97; 0xe6635c01;
   0x6b6b51f4; 0x1c6c6162; 0x856530d8; 0xf262004e; 0x6c0695ed; 0x1b01a57b; 0x8208f4c1; 0xf50fc457;
   0x65b0d9c6; 0x12b7e950; 0x8bbeb8ea; 0xfcb9887c; 0x62dd1ddf; 0x15da2d49; 0x8cd37cf3; 0xfbd44c65;
   0x4db26158; 0x3ab551ce; 0xa3bc0074; 0xd4bb30e2; 0x4adfa541; 0x3dd895d7; 0xa4d1c46d; 0xd3d6f4fb;
   0x4369e96a; 0x346ed9fc; 0xad678846; 0xda60b8d0; 0x44042d73; 0x33031de5; 0xaa0a4c5f; 0xdd0d7cc9;
   0x5005713c; 0x270241aa; 0xbe0b1010; 0xc90c2086; 0x5768b525; 0x206f85b3; 0xb966d409; 0xce61e49f;
   0x5edef90e; 0x29d9c998; 0xb0d09822; 0xc7d7a8b4; 0x59b33d17; 0x2eb40d81; 0xb7bd5c3b; 0xc0ba6cad;
   0xedb88320; 0x9abfb3b6; 0x03b6e20c; 0x74b1d29a; 0xead54739; 0x9dd277af; 0x04db2615; 0x73dc1683;
   0xe3630b12; 0x94643b84; 0x0d6d6a3e; 0x7a6a5aa8; 0xe40ecf0b; 0x9309ff9d; 0x0a00ae27; 0x7d079eb1;
   0xf00f9344; 0x8708a3d2; 0x1e01f268; 0x6906c2fe; 0xf762575d; 0x806567cb; 0x196c3671; 0x6e6b06e7;
   0xfed41b76; 0x89d32be0; 0x10da7a5a; 0x67dd4acc; 0xf9b9df6f; 0x8ebeeff9; 0x17b7be43; 0x60b08ed5;
   0xd6d6a3e8; 0xa1d1937e; 0x38d8c2c4; 0x4fdff252; 0xd1bb67f1; 0xa6bc5767; 0x3fb506dd; 0x48b2364b;
   0xd80d2bda; 0xaf0a1b4c; 0x36034af6; 0x41047a60; 0xdf60efc3; 0xa867df55; 0x316e8eef; 0x4669be79;
   0xcb61b38c; 0xbc66831a; 0x256fd2a0; 0x5268e236; 0xcc0c7795; 0xbb0b4703; 0x220216b9; 0x5505262f;
   0xc5ba3bbe; 0xb2bd0b28; 0x2bb45a92; 0x5cb36a04; 0xc2d7ffa7; 0xb5d0cf31; 0x2cd99e8b; 0x5bdeae1d;
   0x9b64c2b0; 0xec63f226; 0x756aa39c; 0x026d930a; 0x9c0906a9; 0xeb0e363f; 0x72076785; 0x05005713;
   0x95bf4a82; 0xe2b87a14; 0x7bb12bae; 0x0cb61b38; 0x92d28e9b; 0xe5d5be0d; 0x7cdcefb7; 0x0bdbdf21;
   0x86d3d2d4; 0xf1d4e242; 0x68ddb3f8; 0x1fda836e; 0x81be16cd; 0xf6b9265b; 0x6fb077e1; 0x18b74777;
   0x88085ae6; 0xff0f6a70; 0x66063bca; 0x11010b5c; 0x8f659eff; 0xf862ae69; 0x616bffd3; 0x166ccf45;
   0xa00ae278; 0xd70dd2ee; 0x4e048354; 0x3903b3c2; 0xa7672661; 0xd06016f7; 0x4969474d; 0x3e6e77db;
   0xaed16a4a; 0xd9d65adc; 0x40df0b66; 0x37d83bf0; 0xa9bcae53; 0xdebb9ec5; 0x47b2cf7f; 0x30b5ffe9;
   0xbdbdf21c; 0xcabac28a; 0x53b39330; 0x24b4a3a6; 0xbad03605; 0xcdd70693; 0x54de5729; 0x23d967bf;
   0xb3667a2e; 0xc4614ab8; 0x5d681b02; 0x2a6f2b94; 0xb40bbe37; 0xc30c8ea1; 0x5a05df1b; 0x2d02ef8d].

(** [ngx_crc32_table256[i]] *)
Definition table_at (table : list Z) (i : Z) : Z := nth (Z.to_nat i) table 0.

(** [ngx_crc32_update], with the checksum passed by value. *)
Definition crc32_byte (crc c : Z) : Z :=
  Z.lxor (table_at ngx_crc32_table256 (Z.land (Z.lxor crc c) 0xff)) (Z.shiftr crc 8).

Definition ngx_crc32_update (crc : Z) (p : bytes) : Z := fold_left crc32_byte p crc.

Definition ngx_crc32_init : Z := 0xffffffff.

Definition ngx_crc32_final (crc : Z) : Z := Z.lxor crc 0xffffffff.

Definition ngx_crc32_long (p : bytes) : Z := ngx_crc32_final (fold_left crc32_byte p ngx_crc32_init).

(** The two lines of the loop of [ngx_crc32_short]. *)
Definition crc32_nibbles (crc c : Z) : Z :=
  let crc := Z.lxor (table_at ngx_crc32_table16 (Z.land (Z.lxor crc (Z.land c 0xf)) 0xf)) (Z.shiftr crc 4) in
  Z.lxor (table_at ngx_crc32_table16 (Z.land (Z.lxor crc (Z.shiftr c 4)) 0xf)) (Z.shiftr crc 4).

Definition ngx_crc32_short (p : bytes) : Z := ngx_crc32_final (fold_left crc32_nibbles p ngx_crc32_init).

Example crc32_check :
  (ngx_crc32_long (s2b "123456789"), ngx_crc32_short (s2b "123456789")) = (0xcbf43926, 0xcbf43926).
Proof. vm_compute. reflexivity. Qed.

(** ** The reference

    One bit: shift right and add the polynomial when a one falls out. *)

Definition POLY : Z := 0xedb88320.

Definition crc_bit (x : Z) : Z := Z.lxor (Z.shiftr x 1) (if Z.testbit x 0 then POLY else 0).

Definition crc_bits (n : nat) (x : Z) : Z := Nat.iter n crc_bit x.

Definition crc_ref_byte (crc c : Z) : Z := crc_bits 8 (Z.lxor crc c).

Definition crc_ref (p : bytes) : Z := Z.lxor (fold_left crc_ref_byte p 0xffffffff) 0xffffffff.

(** ** Equivalence *)

Lemma crc_bit_lxor x y : crc_bit (Z.lxor x y) = Z.lxor (crc_bit x) (crc_bit y).
Proof.
  unfold crc_bit. rewrite Z.shiftr_lxor, Z.lxor_spec.
  destruct (Z.testbit x 0), (Z.testbit y 0); cbn [xorb]; rewrite ?Z.lxor_0_r.
  - rewrite (Z.lxor_comm (Z.shiftr y 1)), Z.lxor_assoc, <- (Z.lxor_assoc POLY POLY), Z.lxor_nilpotent. by rewrite Z.lxor_0_l.
  - by rewrite !Z.lxor_assoc, (Z.lxor_comm (Z.shiftr y 1)).
  - by rewrite Z.lxor_assoc.
  - done.
Qed.

Lemma crc_bits_lxor n x y : crc_bits n (Z.lxor x y) = Z.lxor (crc_bits n x) (crc_bits n y).
Proof. unfold crc_bits. induction n as [|n IH]; [done|]. rewrite !Nat.iter_succ, IH. apply crc_bit_lxor. Qed.

(** Zeros fall out without effect. *)
Lemma crc_bits_shift n x : crc_bits n (Z.shiftl x (Z.of_nat n)) = x.
Proof.
  revert x; induction n as [|n IH]; intros x; [apply Z.shiftl_0_r|].
  unfold crc_bits. rewrite Nat.iter_succ_r. unfold crc_bit at 2.
  assert (Z.testbit (Z.shiftl x (Z.of_nat (S n))) 0 = false) as -> by (rewrite Z.shiftl_spec_low; lia).
  rewrite Z.lxor_0_r, Z.shiftr_shiftl_l by lia. replace (Z.of_nat (S n) - 1) with (Z.of_nat n) by lia. apply IH.
Qed.

(** The low bits go through the table, the others are shifted. *)
Lemma crc_bits_split n x :
  crc_bits n x = Z.lxor (crc_bits n (Z.land x (Z.ones (Z.of_nat n)))) (Z.shiftr x (Z.of_nat n)).
Proof.
  assert (E : x = Z.lxor (Z.land x (Z.ones (Z.of_nat n))) (Z.shiftl (Z.shiftr x (Z.of_nat n)) (Z.of_nat n))).
  { rewrite <- Z.ldiff_ones_r by lia. apply Z.bits_inj'. intros i Hi. rewrite Z.lxor_spec, Z.land_spec, Z.ldiff_spec.
    by destruct (Z.testbit x i), (Z.testbit (Z.ones (Z.of_nat n)) i). }
  rewrite E at 1. by rewrite crc_bits_lxor, crc_bits_shift.
Qed.

(** The tables hold what the bits compute. *)
Lemma table_bits table n :
  table = (fun i => crc_bits n (Z.of_nat i)) <$> seq 0 (2 ^ n) ->
  forall x, table_at table (Z.land x (Z.ones (Z.of_nat n))) = crc_bits n (Z.land x (Z.ones (Z.of_nat n))).
Proof.
  intros Ht x. unfold table_at. rewrite Z.land_ones by lia.
  pose proof (Z.mod_pos_bound x (2 ^ Z.of_nat n) ltac:(lia)) as Hb. set (i := x mod 2 ^ Z.of_nat n) in *.
  assert (Hn : (Z.to_nat i < 2 ^ n)%nat) by (rewrite Nat2Z.inj_lt, Nat2Z.inj_pow, Z2Nat.id; lia).
  rewrite Ht, nth_lookup, list_lookup_fmap, lookup_seq_lt by done. cbn. by rewrite Z2Nat.id by lia.
Qed.

Lemma table256_bits x : table_at ngx_crc32_table256 (Z.land x 0xff) = crc_bits 8 (Z.land x 0xff).
Proof. apply (table_bits _ 8). vm_compute. reflexivity. Qed.

Lemma table16_bits x : table_at ngx_crc32_table16 (Z.land x 0xf) = crc_bits 4 (Z.land x 0xf).
Proof. apply (table_bits _ 4). vm_compute. reflexivity. Qed.

Lemma crc32_byte_ref crc c : is_byte c -> crc32_byte crc c = crc_ref_byte crc c.
Proof.
  intros Hc. unfold crc32_byte, crc_ref_byte. rewrite table256_bits.
  rewrite (crc_bits_split 8 (Z.lxor crc c)). change (Z.ones (Z.of_nat 8)) with 0xff. f_equal.
  rewrite Z.shiftr_lxor. rewrite (Z.shiftr_div_pow2 c) by lia. rewrite (Z.div_small c) by (unfold is_byte in Hc; cbn; lia).
  by rewrite Z.lxor_0_r.
Qed.

Lemma crc32_nibbles_ref crc c : is_byte c -> crc32_nibbles crc c = crc_ref_byte crc c.
Proof.
  intros Hc. unfold crc32_nibbles, crc_ref_byte.
  assert (Hlow : forall x y, Z.lxor (table_at ngx_crc32_table16 (Z.land (Z.lxor x (Z.land y 0xf)) 0xf)) (Z.shiftr x 4)
                 = crc_bits 4 (Z.lxor x (Z.land y 0xf))).
  { intros x y. rewrite table16_bits, (crc_bits_split 4 (Z.lxor x (Z.land y 0xf))). change (Z.ones (Z.of_nat 4)) with 0xf. f_equal.
    rewrite Z.shiftr_lxor. rewrite (Z.shiftr_div_pow2 (Z.land y 0xf)) by lia. change 0xf with (Z.ones 4).
    rewrite Z.land_ones, Z.div_small by (lia || apply Z.mod_pos_bound; lia). by rewrite Z.lxor_0_r. }
  rewrite Hlow.
  assert (Hhi : Z.shiftr c 4 = Z.land (Z.shiftr c 4) 0xf).
  { change 0xf with (Z.ones 4). rewrite Z.land_ones by lia. rewrite Z.mod_small; [done|].
    rewrite Z.shiftr_div_pow2 by lia. unfold is_byte in Hc. change (2 ^ 4) with 16. dlia. }
  rewrite Hhi, Hlow.
  assert (E : c = Z.lxor (Z.land c 0xf) (Z.shiftl (Z.land (Z.shiftr c 4) 0xf) 4)).
  { rewrite <- Hhi. change 0xf with (Z.ones 4). rewrite <- Z.ldiff_ones_r by lia. apply Z.bits_inj'. intros i Hi.
    rewrite Z.lxor_spec, Z.land_spec, Z.ldiff_spec. by destruct (Z.testbit c i), (Z.testbit (Z.ones 4) i). }
  assert (E8 : crc_bits 8 (Z.lxor crc c) = crc_bits 4 (crc_bits 4 (Z.lxor crc c)))
    by exact (Nat.iter_add 4 4 crc_bit (Z.lxor crc c)).
  assert (E2 : Z.lxor crc c = Z.lxor (Z.lxor crc (Z.land c 0xf)) (Z.shiftl (Z.land (Z.shiftr c 4) 0xf) (Z.of_nat 4)))
    by (rewrite Z.lxor_assoc; f_equal; exact E).
  by rewrite E8, E2, (crc_bits_lxor 4 (Z.lxor crc (Z.land c 0xf))), crc_bits_shift.
Qed.

Lemma fold_bytes (f g : Z -> Z -> Z) p crc :
  Forall is_byte p -> (forall x c, is_byte c -> f x c = g x c) -> fold_left f p crc = fold_left g p crc.
Proof. intros H E. revert crc; induction H as [|c p Hc H IH]; intros crc; [done|]. cbn. by rewrite E, IH. Qed.

(** both table-driven CRC routines, with the 256-entry and with the
    16-entry table, compute the bit-by-bit CRC-32 of every byte string. *)
Theorem crc32_reference p :
  Forall is_byte p -> ngx_crc32_long p = crc_ref p /\ ngx_crc32_short p = crc_ref p.
Proof.
  intros H. unfold ngx_crc32_long, ngx_crc32_short, crc_ref, ngx_crc32_final, ngx_crc32_init.
  rewrite (fold_bytes crc32_byte crc_ref_byte p), (fold_bytes crc32_nibbles crc_ref_byte p); auto using crc32_byte_ref, crc32_nibbles_ref.
Qed.

Lemma crc32_reference_witness :
  ngx_crc32_long (s2b "server1") = crc_ref (s2b "server1") /\ ngx_crc32_short (s2b "server1") = crc_ref (s2b "server1").
Proof. apply (crc32_reference (s2b "server1")). repeat (constructor; [split; vm_compute; congruence|]). constructor. Defined.
