(* ===== verification/HashPeer.v ===== *)
(** * The [hash] and [ip_hash] balancers

    [ngx_http_upstream_get_hash_peer] of
    [src/http/modules/ngx_http_upstream_hash_module.c] and its copy in
    [src/stream], and [src/http/modules/ngx_http_upstream_ip_hash_module.c].
    Both map a hash to a server by weight, try further hashes while the server
    cannot be used, at most 20 times, and then leave the choice to the round
    robin.

    With a [zone] in the upstream the servers live in shared memory and are
    locked one by one ([ngx_http_upstream_rr_peer_lock]).  [locks] are the
    positions of the servers that are write-locked between requests; a request
    that meets a locked server spins in [ngx_rwlock_wlock] until someone
    unlocks it. *)

From S2P Require Import Prelude NgxString StatusLine CheckTypes CheckProto CheckCore CheckSafety CheckWorker.
From S2P Require Import Inet FastCgiRequest CheckConf AddPeer RoundRobin Crc32.

(** A call either returns or waits for a lock. *)
Inductive outcome (A : Type) : Type := Returns (a : A) | Spins (p : nat).
Arguments Returns {A} a.
Arguments Spins {A} p.

(** ** From a number to a server *)

(** [while (w >= peer->weight)]; [None] when [peer] becomes null. *)
Fixpoint by_weight (w : Z) (p : nat) (l : list rr_peer) : option nat :=
  match l with
  | [] => None
  | q :: l' => if weight q <=? w then by_weight (w - weight q) (S p) l' else Some p
  end.

(** ** The loop *)

Inductive probe_res : Set := PSpin | PNext (locks : list nat) | PTake (locks : list nat).

Section Probe.
(** [peers->shpool], [ngx_time()] and the answer of [check_peer_down]. *)
Context (shared : bool) (now : Z) (check_down : Z -> bool).

(** [ngx_http_upstream_rr_peer_lock] and [.._unlock] *)
Definition lock_peer (p : nat) (locks : list nat) : list nat := if shared then p :: locks else locks.
Definition unlock_peer (p : nat) (locks : list nat) : list nat := if shared then filter (fun k => k <> p) locks else locks.

(** The tests of one server; the test for the health checker leaves the lock
    as it is. *)
Definition probe (t : list Z) (p : nat) (q : rr_peer) (locks : list nat) : probe_res :=
  if is_tried t p then PNext locks
  else if shared && bool_decide (p ∈ locks) then PSpin
  else
    let locks := lock_peer p locks in
    if negb (rr_down q =? 0) then PNext (unlock_peer p locks)
    else if check_down (check_index q) then PNext locks
    else if negb (max_fails q =? 0) && (max_fails q <=? fails q) && (now - rr_checked q <=? fail_timeout q)
    then PNext (unlock_peer p locks)
    else if negb (max_conns q =? 0) && (max_conns q <=? conns q) then PNext (unlock_peer p locks)
    else PTake locks.

(** [for ( ;; )]: [advance] computes the next hash.  The answer is the chosen
    server, if any, with the tries, the state of the hash and the locks.  Every
    round that goes on counts a try, so 21 rounds are enough. *)
Fixpoint hash_loop {St} (advance : St -> option (St * Z)) (t : list Z) (total : Z) (l : list rr_peer)
    (fuel : nat) (tries : Z) (st : St) (locks : list nat) : option (outcome (option nat * Z * St * list nat)) :=
  match fuel with
  | O => None
  | S fuel =>
    '(st, h) ← advance st;
    if total =? 0 then None
    else
      p ← by_weight (h mod total) 0 l;
      q ← l !! p;
      match probe t p q locks with
      | PSpin => Some (Spins p)
      | PTake locks => Some (Returns (Some p, tries, st, locks))
      | PNext locks =>
        if 20 <? tries + 1 then Some (Returns (None, tries + 1, st, locks))
        else hash_loop advance t total l fuel (tries + 1) st locks
      end
  end.

(** [peer->conns++] and [peer->checked] of the chosen server. *)
Definition use_peer (p : rr_peer) : rr_peer :=
  let p := p <| conns := u64 (conns p + 1) |> in
  if fail_timeout p <? now - rr_checked p then p <| rr_checked := now |> else p.

(** [rrp->peers] *)
Definition group_of (rrp : rr_data) (us : rr_upstream) : option rr_peers :=
  if on_backup rrp then backup us else Some (primary us).

Definition set_group (rrp : rr_data) (us : rr_upstream) (ps : rr_peers) : rr_upstream :=
  if on_backup rrp then us <| backup := Some ps |> else us <| primary := ps |>.

(** ** [hash] *)

(** [ngx_http_upstream_hash_peer_data_t] *)
Record hash_data := mk_hash { hp_rrp : rr_data; hp_key : bytes; hp_tries : Z; hp_rehash : Z; hp_hash : Z }.

(** The hash of one round, with [hp->hash] and [hp->rehash] after it. *)
Definition hash_advance (key : bytes) (st : Z * Z) : option ((Z * Z) * Z) :=
  let '(h, rehash) := st in
  crc ← (if 0 <? rehash then
           buf ← ngx_snprintf NGX_INT_T_LEN (s2b "%ui") [AInt rehash]; Some (ngx_crc32_update ngx_crc32_init buf)
         else Some ngx_crc32_init);
  let crc := ngx_crc32_final (ngx_crc32_update crc key) in
  let h := u32 (h + Z.land (Z.shiftr crc 16) 0x7fff) in
  Some ((h, u64 (rehash + 1)), h).

Definition get_hash_peer (hp : hash_data) (us : rr_upstream) (locks : list nat)
    : option (outcome (ngx_rc * hash_data * rr_upstream * list nat)) :=
  let fallback hp locks :=
    '(rc, rrp, us) ← get_round_robin_peer now check_down (hp_rrp hp) us;
    Some (Returns (rc, mk_hash rrp (hp_key hp) (hp_tries hp) (hp_rehash hp) (hp_hash hp), us, locks)) in
  ps ← group_of (hp_rrp hp) us;
  if (20 <? hp_tries hp) || single ps then fallback hp locks
  else
    r ← hash_loop (hash_advance (hp_key hp)) (tried (hp_rrp hp)) (total_weight ps) (rr_list ps)
          21 (hp_tries hp) (hp_hash hp, hp_rehash hp) locks;
    match r with
    | Spins p => Some (Spins p)
    | Returns (r, tries, (h, rehash), locks) =>
      let hp := mk_hash (hp_rrp hp) (hp_key hp) tries rehash h in
      match r with
      | None => fallback hp locks
      | Some p =>
        let us := set_group (hp_rrp hp) us (ps <| rr_list := alter use_peer p (rr_list ps) |>) in
        let rrp := (hp_rrp hp) <| current := Some p |> <| tried := set_tried (tried (hp_rrp hp)) p |> in
        Some (Returns (NGX_OK, mk_hash rrp (hp_key hp) tries rehash h, us, unlock_peer p locks))
      end
    end.

(** [init_hash_peer], with the evaluated key. *)
Definition init_hash_peer (us : rr_upstream) (key : bytes) : hash_data :=
  mk_hash (init_round_robin_peer us) key 0 0 0.

(** ** [ip_hash] *)

(** [ngx_http_upstream_ip_hash_peer_data_t] *)
Record ip_hash_data := mk_ip_hash { iphp_rrp : rr_data; iphp_hash : Z; iphp_addr : bytes; iphp_tries : Z }.

Definition ip_hash_advance (addr : bytes) (h : Z) : option (Z * Z) :=
  let h := fold_left (fun h a => u64 (h * 113 + a) mod 6271) addr h in Some (h, h).

(** [iphp->hash] is assigned when a server is chosen, [iphp->tries] always. *)
Definition get_ip_hash_peer (iphp : ip_hash_data) (us : rr_upstream) (locks : list nat)
    : option (outcome (ngx_rc * ip_hash_data * rr_upstream * list nat)) :=
  let fallback iphp locks :=
    '(rc, rrp, us) ← get_round_robin_peer now check_down (iphp_rrp iphp) us;
    Some (Returns (rc, mk_ip_hash rrp (iphp_hash iphp) (iphp_addr iphp) (iphp_tries iphp), us, locks)) in
  ps ← group_of (iphp_rrp iphp) us;
  if (20 <? iphp_tries iphp) || single ps then fallback iphp locks
  else
    r ← hash_loop (ip_hash_advance (iphp_addr iphp)) (tried (iphp_rrp iphp)) (total_weight ps) (rr_list ps)
          21 (iphp_tries iphp) (iphp_hash iphp) locks;
    match r with
    | Spins p => Some (Spins p)
    | Returns (None, tries, _, locks) =>
      fallback (mk_ip_hash (iphp_rrp iphp) (iphp_hash iphp) (iphp_addr iphp) tries) locks
    | Returns (Some p, tries, h, locks) =>
      let us := set_group (iphp_rrp iphp) us (ps <| rr_list := alter use_peer p (rr_list ps) |>) in
      let rrp := (iphp_rrp iphp) <| current := Some p |> <| tried := set_tried (tried (iphp_rrp iphp)) p |> in
      Some (Returns (NGX_OK, mk_ip_hash rrp h (iphp_addr iphp) tries, us, unlock_peer p locks))
    end.

(** [init_ip_hash_peer]: three bytes of an IPv4 address, all of an IPv6
    address, zeros otherwise. *)
Inductive client_addr : Set := addr_in (a : bytes) | addr_in6 (a : bytes) | addr_other.

Definition init_ip_hash_peer (us : rr_upstream) (a : client_addr) : ip_hash_data :=
  mk_ip_hash (init_round_robin_peer us) 89
    (match a with addr_in a => take 3 a | addr_in6 a => take 16 a | addr_other => [0; 0; 0] end) 0.

End Probe.

Definition ngx_http_upstream_get_hash_peer := get_hash_peer.
Definition ngx_stream_upstream_get_hash_peer := get_hash_peer.
Definition ngx_http_upstream_init_hash_peer := init_hash_peer.
Definition ngx_stream_upstream_init_hash_peer := init_hash_peer.
Definition ngx_http_upstream_get_ip_hash_peer := get_ip_hash_peer.
Definition ngx_http_upstream_init_ip_hash_peer := init_ip_hash_peer.

(** ** Shares *)

(** The sum of the weights. *)
Definition wsum (l : list rr_peer) : Z := foldr (fun p s => weight p + s) 0 l.

Definition weights_ok (ps : rr_peers) : Prop :=
  Forall (fun p => 0 <= weight p) (rr_list ps) /\ total_weight ps = wsum (rr_list ps) /\ 0 < total_weight ps.

Lemma wsum_nonneg l : Forall (fun p => 0 <= weight p) l -> 0 <= wsum l.
Proof. induction 1 as [|p l Hp H IH]; [done|]. unfold wsum in *. cbn. lia. Qed.

(** Server [i] has the numbers from the weights before it on. *)
Lemma by_weight_spec l w p i :
  Forall (fun p => 0 <= weight p) l -> 0 <= w ->
  by_weight w p l = Some (p + i)%nat <-> (i < length l)%nat /\ wsum (take i l) <= w < wsum (take (S i) l).
Proof.
  intros H. revert w p i; induction H as [|q l Hq H IH]; intros w p i Hw; cbn [by_weight length].
  { split; [done|]. intros [? _]. lia. }
  destruct (Z.leb_spec (weight q) w) as [Hle|Hlt].
  - destruct i as [|i].
    + change (wsum (take 1 (q :: l))) with (weight q + 0). change (wsum (take 0 (q :: l))) with 0.
      split; [|lia]. intros E. exfalso.
      assert (Hk : forall l w p k, by_weight w p l = Some k -> (p <= k)%nat).
      { clear. induction l as [|x l IH]; intros w p k; cbn; [done|]. destruct (_ <=? _); [|by intros [= <-]].
        intros E. apply IH in E. lia. }
      apply Hk in E. lia.
    + replace (p + S i)%nat with (S p + i)%nat by lia. rewrite IH by lia. cbn [take wsum foldr]. fold (wsum (take i l)). fold (wsum (take (S i) l)). lia.
  - destruct i as [|i].
    + change (wsum (take 1 (q :: l))) with (weight q + 0). change (wsum (take 0 (q :: l))) with 0.
      rewrite Nat.add_0_r. split; [intros _|done]. lia.
    + split; [intros [= E]; lia|]. cbn [take wsum foldr]. fold (wsum (take i l)).
      assert (0 <= wsum (take i l)) by by apply wsum_nonneg, Forall_take. lia.
Qed.

Lemma by_weight_found l w :
  Forall (fun p => 0 <= weight p) l -> 0 <= w < wsum l -> exists i q, by_weight w 0 l = Some i /\ l !! i = Some q.
Proof.
  intros H. assert (G : forall p, 0 <= w < wsum l -> exists i q, by_weight w p l = Some (p + i)%nat /\ l !! i = Some q);
    [|intros Hw; apply (G 0%nat Hw)].
  revert w; induction H as [|q l Hq H IH]; intros w p Hw; cbn in Hw; [lia|]. cbn [by_weight].
  destruct (Z.leb_spec (weight q) w).
  - destruct (IH (w - weight q) (S p)) as (i & x & E & Hi); [fold (wsum l) in Hw; lia|].
    exists (S i), x. split; [rewrite E; f_equal; lia|done].
  - exists 0%nat, q. split; [f_equal; lia|done].
Qed.

Lemma wsum_take_S l i p : l !! i = Some p -> wsum (take (S i) l) = wsum (take i l) + weight p.
Proof.
  revert i; induction l as [|q l IH]; intros [|i] E; [done..| |].
  - injection E as ->. change (wsum (take 1 (p :: l))) with (weight p + 0). change (wsum (take 0 (p :: l))) with 0. lia.
  - cbn [take wsum foldr]. fold (wsum (take (S i) l)) (wsum (take i l)). rewrite (IH i E). lia.
Qed.

Lemma wsum_take_le l i : Forall (fun p => 0 <= weight p) l -> wsum (take i l) <= wsum l.
Proof.
  intros H. rewrite <- (take_drop i l) at 2. unfold wsum. rewrite foldr_app. fold (wsum (drop i l)).
  assert (Hd : 0 <= wsum (drop i l)) by by apply wsum_nonneg, Forall_drop.
  assert (G : forall k s, 0 <= s -> foldr (fun p s => weight p + s) 0 k <= foldr (fun p s => weight p + s) s k)
    by (intros k s Hs; induction k; cbn; lia). by apply G.
Qed.

Lemma filter_none {A} (P : A -> Prop) `{forall x, Decision (P x)} (l : list A) :
  (forall x, x ∈ l -> ~ P x) -> filter P l = [].
Proof.
  induction l as [|x l IH]; intros H'; [done|]. rewrite filter_cons_False by (apply H'; left). apply IH.
  intros y Hy. apply H'. by right.
Qed.

Lemma filter_all {A} (P : A -> Prop) `{forall x, Decision (P x)} (l : list A) :
  (forall x, x ∈ l -> P x) -> filter P l = l.
Proof.
  induction l as [|x l IH]; intros H'; [done|]. rewrite filter_cons_True by (apply H'; left). f_equal. apply IH.
  intros y Hy. apply H'. by right.
Qed.

(** The numbers that lead to server [i]. *)
Definition numbers_of (ps : rr_peers) (i : nat) : list Z :=
  filter (fun w => by_weight w 0 (rr_list ps) = Some i) (seqZ 0 (total_weight ps)).

Lemma numbers_of_range ps i p :
  weights_ok ps -> rr_list ps !! i = Some p ->
  numbers_of ps i = seqZ (wsum (take i (rr_list ps))) (weight p).
Proof.
  intros (Hw & Ht & Hpos) Hi. unfold numbers_of. set (l := rr_list ps) in *.
  set (a := wsum (take i l)). pose proof (wsum_take_S l i p Hi) as Hs. fold a in Hs.
  assert (Ha : 0 <= a) by (by apply wsum_nonneg, Forall_take). assert (Hb : wsum (take (S i) l) <= wsum l) by by apply wsum_take_le.
  assert (Hp : 0 <= weight p) by by eapply (Forall_lookup_1 _ _ _ _ Hw Hi).
  rewrite Ht. replace (wsum l) with (a + (weight p + (wsum l - a - weight p))) by lia.
  rewrite !seqZ_app by lia. rewrite !filter_app.
  assert (Hin : forall w, 0 <= w -> by_weight w 0 l = Some i <-> a <= w < a + weight p).
  { intros w Hw0. rewrite (by_weight_spec l w 0 i Hw Hw0). fold a. rewrite Hs. apply lookup_lt_Some in Hi. lia. }
  rewrite Z.add_0_l.
  assert (F0 : filter (fun w => by_weight w 0 l = Some i) (seqZ 0 a) = []).
  { apply filter_none. intros w Hw1%elem_of_seqZ. rewrite Hin by lia. lia. }
  assert (F1 : filter (fun w => by_weight w 0 l = Some i) (seqZ a (weight p)) = seqZ a (weight p)).
  { apply filter_all. intros w Hw1%elem_of_seqZ. rewrite Hin by lia. lia. }
  assert (F2 : filter (fun w => by_weight w 0 l = Some i) (seqZ (a + weight p) (wsum l - a - weight p)) = []).
  { apply filter_none. intros w Hw1%elem_of_seqZ. rewrite Hin by lia. lia. }
  by rewrite F0, F1, F2, app_nil_r.
Qed.

(** ** Requests *)

(** No lock is left behind: the upstream has no zone, or the health checker
    has taken none of its servers down. *)
Definition no_leak (shared : bool) (check_down : Z -> bool) (l : list rr_peer) : Prop :=
  shared = false \/ forall p, p ∈ l -> check_down (check_index p) = false.

Section Loops.
Context (shared : bool) (now : Z) (check_down : Z -> bool).

Lemma unlock_lock p : unlock_peer shared p (lock_peer shared p []) = [].
Proof.
  unfold unlock_peer, lock_peer. destruct shared; [|done]. rewrite filter_cons_False by (intros H; by apply H). apply filter_nil.
Qed.

(** A server that can be used is taken, any other leads to the next hash. *)
Lemma probe_spec t l p q :
  no_leak shared check_down l -> l !! p = Some q ->
  (available now check_down t p q /\ probe shared now check_down t p q [] = PTake (lock_peer shared p []))
  \/ (~ available now check_down t p q /\ probe shared now check_down t p q [] = PNext []).
Proof.
  intros Hn Hp. unfold probe. destruct (is_tried t p) eqn:E1; [right; split; [by intros (? & _); congruence|done]|].
  rewrite bool_decide_eq_false_2, andb_false_r by apply not_elem_of_nil. rewrite unlock_lock.
  destruct (Z.eqb_spec (rr_down q) 0) as [E2|E2]; cbn [negb]; [|right; split; [by intros (_ & ? & _)|done]].
  destruct (check_down (check_index q)) eqn:E3.
  { right. split; [by intros (_ & _ & ? & _); congruence|]. destruct Hn as [Hs|Hn].
    - unfold lock_peer. by rewrite Hs.
    - rewrite (Hn q) in E3; [done|]. by eapply list_elem_of_lookup_2. }
  destruct (_ && _ && _) eqn:E4.
  { right. split; [|done]. rewrite !andb_true_iff, negb_true_iff, Z.eqb_neq, !Z.leb_le in E4. intros (_ & _ & _ & ? & _). lia. }
  destruct (negb (max_conns q =? 0) && (max_conns q <=? conns q)) eqn:E5.
  { right. split; [|done]. rewrite andb_true_iff, negb_true_iff, Z.eqb_neq, Z.leb_le in E5. intros (_ & _ & _ & _ & ?). lia. }
  left. split; [|done]. rewrite !andb_false_iff, negb_false_iff, Z.eqb_eq, !Z.leb_gt in E4.
  rewrite andb_false_iff, negb_false_iff, Z.eqb_eq, Z.leb_gt in E5. unfold available. tauto.
Qed.

Section Advance.
Context {St : Type} (advance : St -> option (St * Z)) (Hadv : forall st, is_Some (advance st)).
Context (t : list Z) (ps : rr_peers) (Hw : weights_ok ps) (Hn : no_leak shared check_down (rr_list ps)).

Abbreviation loop := (hash_loop shared now check_down advance t (total_weight ps) (rr_list ps)).

(** One round finds a server. *)
Lemma advance_server st :
  exists st' h p q, advance st = Some (st', h) /\ (total_weight ps =? 0) = false
    /\ by_weight (h mod total_weight ps) 0 (rr_list ps) = Some p /\ rr_list ps !! p = Some q.
Proof.
  destruct (Hadv st) as [[st' h] E]. destruct Hw as (Hl & Ht & Hpos).
  destruct (by_weight_found (rr_list ps) (h mod total_weight ps) Hl) as (p & q & Ep & Hq).
  { rewrite <- Ht. by apply Z.mod_pos_bound. }
  exists st', h, p, q. split_and!; [done|apply Z.eqb_neq; lia|done|done].
Qed.

Lemma hash_loop_spec fuel tries st :
  (21 - Z.to_nat tries <= fuel)%nat -> 0 <= tries <= 20 ->
  exists r tries' st', loop fuel tries st []
      = Some (Returns (r, tries', st', match r with Some p => lock_peer shared p [] | None => [] end))
    /\ forall p, r = Some p -> exists q, rr_list ps !! p = Some q /\ available now check_down t p q.
Proof.
  revert tries st; induction fuel as [|fuel IH]; intros tries st Hf Ht; [lia|]. cbn [hash_loop].
  destruct (advance_server st) as (st' & h & p & q & -> & -> & E & Hq). cbn [mbind option_bind]. rewrite E. cbn [mbind option_bind].
  rewrite Hq. cbn [mbind option_bind].
  destruct (probe_spec t (rr_list ps) p q Hn Hq) as [[Ha ->]|[Ha ->]].
  - eexists (Some p), _, _. split; [reflexivity|]. intros p0 [= <-]. by exists q.
  - destruct (Z.ltb_spec 20 (tries + 1)); [|apply IH; lia]. eexists None, _, _. by split.
Qed.

(** The server of the first hash is taken if it can be used. *)
Lemma hash_loop_first fuel tries st st' h p q :
  advance st = Some (st', h) -> by_weight (h mod total_weight ps) 0 (rr_list ps) = Some p -> rr_list ps !! p = Some q ->
  available now check_down t p q -> loop (S fuel) tries st [] = Some (Returns (Some p, tries, st', lock_peer shared p [])).
Proof.
  intros Ea Eb Hq Ha. cbn [hash_loop]. rewrite Ea. cbn [mbind option_bind].
  destruct Hw as (_ & _ & Hpos). destruct (Z.eqb_spec (total_weight ps) 0); [lia|]. rewrite Eb. cbn [mbind option_bind].
  rewrite Hq. cbn [mbind option_bind]. destruct (probe_spec t (rr_list ps) p q Hn Hq) as [[_ ->]|[? _]]; [done|by destruct H].
Qed.

End Advance.
End Loops.

(** What every such request is answered: a server that may be used, the home
    server if it is one, and [NGX_BUSY] exactly when no server may be used. *)
Definition served (now : Z) (check_down : Z -> bool) (ps : rr_peers) (home : option nat) (rc : ngx_rc) (cur : option nat) : Prop :=
  (rc = NGX_OK /\ (exists i p, cur = Some i /\ rr_list ps !! i = Some p /\ usable now check_down ps p)
   /\ forall i p, home = Some i -> rr_list ps !! i = Some p -> usable now check_down ps p -> cur = Some i)
  \/ (rc = NGX_BUSY /\ forall p, p ∈ rr_list ps -> ~ usable now check_down ps p).

(** The round robin a request falls back on. *)
Lemma fallback_spec now cd us :
  group_wf (primary us) -> backup us = None ->
  exists rc rrp us', get_round_robin_peer now cd (init_round_robin_peer us) us = Some (rc, rrp, us')
    /\ ((rc = NGX_OK /\ exists i p, current rrp = Some i /\ rr_list (primary us) !! i = Some p /\ usable now cd (primary us) p)
        \/ rc = NGX_BUSY /\ forall p, p ∈ rr_list (primary us) -> ~ usable now cd (primary us) p).
Proof.
  intros Hw Hb. destruct (request_usable now cd us Hw) as (rc & rrp & us' & E & H); [by rewrite Hb|].
  exists rc, rrp, us'. split; [done|]. destruct H as [(-> & _ & H)|(Hn & [(_ & _ & bs & _ & _ & H & _)|[-> _]])].
  - by left.
  - congruence.
  - by right.
Qed.

Lemma single_served now cd ps home rc cur :
  group_wf ps -> single ps = true ->
  ((rc = NGX_OK /\ exists i p, cur = Some i /\ rr_list ps !! i = Some p /\ usable now cd ps p)
   \/ rc = NGX_BUSY /\ forall p, p ∈ rr_list ps -> ~ usable now cd ps p) ->
  served now cd ps home rc cur.
Proof.
  intros Hw Hs [(-> & i & p & Ec & Hi & Hu)|H]; [left|by right]. split; [done|]. split; [by exists i, p|].
  intros j q _ Hj _. specialize (Hw Hs). destruct (rr_list ps) as [|x [|y l]]; try done.
  destruct i; [|done]. by destruct j.
Qed.

Lemma fresh_usable now cd us i p :
  single (primary us) = false ->
  usable now cd (primary us) p <-> available now cd (tried (init_round_robin_peer us)) i p.
Proof. intros Hs. unfold usable, available. rewrite Hs, (fresh_clear us i). naive_solver. Qed.

(** The loop and the fallback together, for both balancers. *)
Lemma loop_served shared now cd us {St} (advance : St -> option (St * Z)) st st1 h :
  (forall st, is_Some (advance st)) -> advance st = Some (st1, h) ->
  group_wf (primary us) -> single (primary us) = false -> weights_ok (primary us) -> backup us = None ->
  no_leak shared cd (rr_list (primary us)) ->
  let home := by_weight (h mod total_weight (primary us)) 0 (rr_list (primary us)) in
  exists r tries st', hash_loop shared now cd advance (tried (init_round_robin_peer us)) (total_weight (primary us))
      (rr_list (primary us)) 21 0 st [] = Some (Returns (r, tries, st', match r with Some p => lock_peer shared p [] | None => [] end))
    /\ match r with
       | Some p => served now cd (primary us) home NGX_OK (Some p)
       | None => exists rc rrp us', get_round_robin_peer now cd (init_round_robin_peer us) us = Some (rc, rrp, us')
                   /\ served now cd (primary us) home rc (current rrp)
       end.
Proof.
  intros Hadv Ea Hg Hs Hw Hb Hn home.
  destruct (hash_loop_spec shared now cd advance Hadv (tried (init_round_robin_peer us)) (primary us) Hw Hn 21 0 st) as (r & tries & st' & E & Hr);
    [cbn; lia|lia|].
  assert (Hhome : forall i p, home = Some i -> rr_list (primary us) !! i = Some p -> usable now cd (primary us) p -> r = Some i).
  { intros i p Ei Hi Hu. apply (fresh_usable now cd us i p Hs) in Hu.
    pose proof (hash_loop_first shared now cd advance (tried (init_round_robin_peer us)) (primary us) Hw Hn 20 0 st st1 h i p Ea Ei Hi Hu) as E'.
    rewrite E in E'. by injection E'. }
  exists r, tries, st'. split; [done|]. destruct r as [p|].
  - left. split; [done|]. destruct (Hr p eq_refl) as (q & Hq & Ha). split; [|done].
    exists p, q. split_and!; [done|done|]. by apply (fresh_usable now cd us p q Hs).
  - destruct (fallback_spec now cd us Hg Hb) as (rc & rrp & us' & E' & H). exists rc, rrp, us'. split; [done|].
    destruct H as [[-> H]|H]; [left|by right]. split; [done|]. split; [done|]. intros i p Ei Hi Hu.
    by specialize (Hhome i p Ei Hi Hu).
Qed.

(** The server the key of a request leads to. *)
Definition hash_home (key : bytes) (ps : rr_peers) : option nat :=
  by_weight (Z.land (Z.shiftr (ngx_crc32_long key) 16) 0x7fff mod total_weight ps) 0 (rr_list ps).

Lemma hash_advance_some key st : is_Some (hash_advance key st).
Proof.
  destruct st as [h rehash]. unfold hash_advance. destruct (0 <? rehash); [|by eexists].
  rewrite snprintf_ui by (unfold NGX_INT_T_LEN; lia). by eexists.
Qed.

Lemma hash_advance_first key :
  exists st, hash_advance key (0, 0) = Some (st, Z.land (Z.shiftr (ngx_crc32_long key) 16) 0x7fff).
Proof.
  assert (H : forall x, 0 <= Z.land x 0x7fff < 2 ^ 32).
  { intros x. change 0x7fff with (Z.ones 15). rewrite Z.land_ones by lia.
    pose proof (Z.mod_pos_bound x (2 ^ 15) ltac:(lia)). lia. }
  eexists. unfold hash_advance. cbn [Z.ltb Z.compare mbind option_bind]. rewrite Z.add_0_l.
  unfold u32. rewrite Z.mod_small by apply H. reflexivity.
Qed.

Lemma hash_served shared now check_down us key :
  group_wf (primary us) -> weights_ok (primary us) -> backup us = None ->
  no_leak shared check_down (rr_list (primary us)) ->
  exists rc hp us', get_hash_peer shared now check_down (init_hash_peer us key) us [] = Some (Returns (rc, hp, us', []))
    /\ served now check_down (primary us) (hash_home key (primary us)) rc (current (hp_rrp hp)).
Proof.
  intros Hg Hw Hb Hn. unfold get_hash_peer.
  change (group_of (hp_rrp (init_hash_peer us key)) us) with (Some (primary us)). cbn [mbind option_bind init_hash_peer hp_tries hp_rrp hp_key hp_hash hp_rehash].
  destruct (single (primary us)) eqn:Hs.
  { destruct (fallback_spec now check_down us Hg Hb) as (rc & rrp & us' & E & H). cbn [orb Z.ltb Z.compare].
    rewrite (bind_some _ _ _ E). eexists _, _, _. split; [reflexivity|]. by apply single_served. }
  cbn [orb Z.ltb Z.compare]. destruct (hash_advance_first key) as [st1 Ea].
  destruct (loop_served shared now check_down us (hash_advance key) (0, 0) st1 _ (hash_advance_some key) Ea Hg Hs Hw Hb Hn)
    as (r & tries & [h rehash] & E & H). rewrite (bind_some _ _ _ E). cbn beta iota. destruct r as [p|].
  - eexists _, _, _. rewrite unlock_lock. split; [reflexivity|]. exact H.
  - destruct H as (rc & rrp & us' & E' & H). rewrite (bind_some _ _ _ E'). eexists _, _, _. split; [reflexivity|]. exact H.
Qed.

(** requests by hash.  A new request with any key returns, gets the server
    its key leads to whenever that server may be used, another server that may
    be used otherwise, and [NGX_BUSY] exactly when no server may be used; no
    lock stays behind.  The upstream has no zone, or no server of it is down
    for the health checker (see [hash_lock_leaked]). *)
Theorem hash_request_served shared now check_down us key :
  group_wf (primary us) -> weights_ok (primary us) -> backup us = None ->
  no_leak shared check_down (rr_list (primary us)) ->
  exists rc hp us', get_hash_peer shared now check_down (init_hash_peer us key) us [] = Some (Returns (rc, hp, us', []))
    /\ served now check_down (primary us) (hash_home key (primary us)) rc (current (hp_rrp hp)).
Proof. apply hash_served. Qed.

(** The server a client address leads to. *)
Definition ip_hash_home (addr : bytes) (ps : rr_peers) : option nat :=
  by_weight (fold_left (fun h a => u64 (h * 113 + a) mod 6271) addr 89 mod total_weight ps) 0 (rr_list ps).

Definition hash_bytes (a : client_addr) : bytes :=
  match a with addr_in a => take 3 a | addr_in6 a => take 16 a | addr_other => [0; 0; 0] end.

(** requests by client address.  A new request returns and gets the server
    its client's address leads to whenever that may be used, another usable
    one otherwise, and [NGX_BUSY] exactly when no server may be used.  Clients
    of the same IPv4 network of 256 addresses share their server. *)
Lemma ip_hash_served shared now check_down us a :
  group_wf (primary us) -> weights_ok (primary us) -> backup us = None ->
  no_leak shared check_down (rr_list (primary us)) ->
  exists rc iphp us', get_ip_hash_peer shared now check_down (init_ip_hash_peer us a) us [] = Some (Returns (rc, iphp, us', []))
    /\ served now check_down (primary us) (ip_hash_home (hash_bytes a) (primary us)) rc (current (iphp_rrp iphp)).
Proof.
  intros Hg Hw Hb Hn. unfold get_ip_hash_peer.
  change (group_of (iphp_rrp (init_ip_hash_peer us a)) us) with (Some (primary us)).
  cbn [mbind option_bind init_ip_hash_peer iphp_tries iphp_rrp iphp_addr iphp_hash]. fold (hash_bytes a).
  destruct (single (primary us)) eqn:Hs.
  { destruct (fallback_spec now check_down us Hg Hb) as (rc & rrp & us' & E & H). cbn [orb Z.ltb Z.compare].
    rewrite (bind_some _ _ _ E). eexists _, _, _. split; [reflexivity|]. by apply single_served. }
  cbn [orb Z.ltb Z.compare].
  destruct (loop_served shared now check_down us (ip_hash_advance (hash_bytes a)) 89 _ _ ltac:(by eexists) eq_refl Hg Hs Hw Hb Hn)
    as (r & tries & h & E & H). rewrite (bind_some _ _ _ E). cbn beta iota. destruct r as [p|].
  - eexists _, _, _. rewrite unlock_lock. split; [reflexivity|]. exact H.
  - destruct H as (rc & rrp & us' & E' & H). rewrite (bind_some _ _ _ E'). eexists _, _, _. split; [reflexivity|]. exact H.
Qed.

(** ** The lock left behind *)

Section Leak.
Context (now : Z) (check_down : Z -> bool) {St : Type} (advance : St -> option (St * Z)) (t : list Z) (total : Z) (l : list rr_peer).

Abbreviation loop := (hash_loop true now check_down advance t total l).

(** A locked server stays locked and is not chosen. *)
Lemma probe_keeps i p q locks :
  i ∈ locks ->
  match probe true now check_down t p q locks with
  | PSpin => True
  | PNext locks' => i ∈ locks'
  | PTake locks' => i ∈ locks' /\ p <> i
  end.
Proof.
  intros Hi. unfold probe. destruct (is_tried t p); [done|]. cbn [andb]. case_bool_decide as Hp; [done|].
  assert (Hne : i <> p) by (intros ->; done).
  assert (Hu : i ∈ unlock_peer true p (lock_peer true p locks)).
  { unfold unlock_peer, lock_peer. apply list_elem_of_filter. split; [done|by right]. }
  assert (Hl : i ∈ lock_peer true p locks) by by right.
  destruct (negb (rr_down q =? 0)); [exact Hu|]. destruct (check_down (check_index q)); [exact Hl|].
  destruct (negb (max_fails q =? 0) && (max_fails q <=? fails q) && (now - rr_checked q <=? fail_timeout q)); [exact Hu|].
  destruct (negb (max_conns q =? 0) && (max_conns q <=? conns q)); [exact Hu|]. split; [exact Hl|congruence].
Qed.

Lemma hash_loop_keeps i fuel tries st locks :
  i ∈ locks ->
  match loop fuel tries st locks with
  | Some (Returns (r, _, _, locks')) => i ∈ locks' /\ r <> Some i
  | _ => True
  end.
Proof.
  revert tries st locks; induction fuel as [|fuel IH]; intros tries st locks Hi; [done|]. cbn [hash_loop].
  destruct (advance st) as [[st' h]|]; [|done]. cbn [mbind option_bind]. destruct (total =? 0); [done|].
  destruct (by_weight (h mod total) 0 l) as [p|]; [|done]. cbn [mbind option_bind]. destruct (l !! p) as [q|]; [|done]. cbn [mbind option_bind].
  pose proof (probe_keeps i p q locks Hi) as Hp. destruct (probe true now check_down t p q locks) as [|locks'|locks']; [done| |].
  - destruct (20 <? tries + 1); [done|]. by apply IH.
  - destruct Hp as [Hp Hne]. split; [done|]. by intros [= ->].
Qed.

(** The first hash leads to a server that is locked. *)
Lemma hash_loop_spins i fuel tries st st1 h q locks :
  advance st = Some (st1, h) -> total <> 0 -> by_weight (h mod total) 0 l = Some i -> l !! i = Some q ->
  is_tried t i = false -> i ∈ locks -> loop (S fuel) tries st locks = Some (Spins i).
Proof.
  intros Ea Ht Eb Hq Htr Hi. cbn [hash_loop]. rewrite Ea. cbn [mbind option_bind].
  destruct (Z.eqb_spec total 0); [done|]. rewrite Eb. cbn [mbind option_bind]. rewrite Hq. cbn [mbind option_bind].
  unfold probe. rewrite Htr. cbn [andb]. by rewrite bool_decide_eq_true_2.
Qed.

(** The first hash leads to a server that is down for the health checker. *)
Lemma hash_loop_leaks i fuel st st1 h q :
  advance st = Some (st1, h) -> total <> 0 -> by_weight (h mod total) 0 l = Some i -> l !! i = Some q ->
  is_tried t i = false -> rr_down q = 0 -> check_down (check_index q) = true ->
  loop (S fuel) 0 st [] = loop fuel 1 st1 [i].
Proof.
  intros Ea Ht Eb Hq Htr Hd Hc. cbn [hash_loop]. rewrite Ea. cbn [mbind option_bind].
  destruct (Z.eqb_spec total 0); [done|]. rewrite Eb. cbn [mbind option_bind]. rewrite Hq. cbn [mbind option_bind].
  unfold probe. rewrite Htr, Hd, Hc. rewrite bool_decide_eq_false_2 by apply not_elem_of_nil. done.
Qed.

Lemma hash_loop_total fuel tries st locks :
  (forall st, is_Some (advance st)) -> total = wsum l -> 0 < total -> Forall (fun p => 0 <= weight p) l ->
  (21 - Z.to_nat tries <= fuel)%nat -> 0 <= tries <= 20 -> is_Some (loop fuel tries st locks).
Proof.
  intros Hadv Ht Hpos Hl. revert tries st locks; induction fuel as [|fuel IH]; intros tries st locks Hf Hr; [lia|]. cbn [hash_loop].
  destruct (Hadv st) as [[st' h] ->]. cbn [mbind option_bind]. destruct (Z.eqb_spec total 0); [lia|].
  destruct (by_weight_found l (h mod total) Hl) as (p & q & -> & Hq); [rewrite <- Ht; by apply Z.mod_pos_bound|].
  cbn [mbind option_bind]. rewrite Hq. cbn [mbind option_bind].
  destruct (probe true now check_down t p q locks) as [|locks'|locks']; [by eexists| |by eexists].
  destruct (Z.ltb_spec 20 (tries + 1)); [by eexists|]. apply IH; lia.
Qed.

End Leak.

(** Two states of an upstream with the same servers. *)
Definition same_servers (us us2 : rr_upstream) : Prop :=
  single (primary us2) = single (primary us) /\ total_weight (primary us2) = total_weight (primary us)
  /\ weight <$> rr_list (primary us2) = weight <$> rr_list (primary us).

Lemma by_weight_ext w p l l2 : weight <$> l2 = weight <$> l -> by_weight w p l2 = by_weight w p l.
Proof.
  revert w p l2; induction l as [|q l IH]; intros w p [|q2 l2] E; try done. injection E as E1 E2.
  cbn. rewrite E1. destruct (_ <=? _); [by apply IH|done].
Qed.

Lemma same_servers_lookup us us2 i p :
  same_servers us us2 -> rr_list (primary us) !! i = Some p -> exists q, rr_list (primary us2) !! i = Some q.
Proof.
  intros (_ & _ & E) Hi. apply lookup_lt_is_Some_2. apply lookup_lt_Some in Hi.
  apply (f_equal length) in E. rewrite !length_fmap in E. lia.
Qed.

(** C24: the [hash] balancer leaves the lock of a server behind when the health
    checker has taken the server down.  In an upstream with a zone, a request
    whose key leads to such a server either spins on that lock at once or
    leaves it locked: from then on every request with this key, in any worker
    and also after the server is up again, spins for ever in
    [ngx_rwlock_wlock]. *)
Theorem hash_lock_leaked now check_down us key i p :
  group_wf (primary us) -> single (primary us) = false -> weights_ok (primary us) -> backup us = None ->
  hash_home key (primary us) = Some i -> rr_list (primary us) !! i = Some p ->
  rr_down p = 0 -> check_down (check_index p) = true ->
  exists o, get_hash_peer true now check_down (init_hash_peer us key) us [] = Some o
    /\ ((exists k, o = Spins k)
        \/ exists rc hp us' locks, o = Returns (rc, hp, us', locks)
           /\ forall now' check_down' us2, same_servers us us2 ->
              get_hash_peer true now' check_down' (init_hash_peer us2 key) us2 locks = Some (Spins i)).
Proof.
  intros Hg Hs Hw Hb Hhome Hi Hd Hc. pose proof Hw as (Hl & Ht & Hpos). destruct (hash_advance_first key) as [st1 Ea].
  assert (Hnz : total_weight (primary us) <> 0) by lia.
  unfold hash_home in Hhome.
  assert (Hlater : forall locks, i ∈ locks -> forall now' cd' us2, same_servers us us2 ->
            get_hash_peer true now' cd' (init_hash_peer us2 key) us2 locks = Some (Spins i)).
  { intros locks Hin now' cd' us2 Hsame. pose proof Hsame as (Es & Et & Ew).
    destruct (same_servers_lookup us us2 i p Hsame Hi) as [q Hq]. unfold get_hash_peer.
    change (group_of (hp_rrp (init_hash_peer us2 key)) us2) with (Some (primary us2)).
    cbn [mbind option_bind init_hash_peer hp_tries hp_rrp hp_key hp_hash hp_rehash]. rewrite Es, Hs. cbn [orb Z.ltb Z.compare].
    rewrite (hash_loop_spins now' cd' (hash_advance key) (tried (init_round_robin_peer us2)) (total_weight (primary us2)) (rr_list (primary us2))
               i 20 0 (0, 0) st1 _ q locks Ea); [done|lia| |done|apply fresh_clear|done].
    rewrite Et, (by_weight_ext _ _ _ _ Ew). done. }
  unfold get_hash_peer. change (group_of (hp_rrp (init_hash_peer us key)) us) with (Some (primary us)).
  cbn [mbind option_bind init_hash_peer hp_tries hp_rrp hp_key hp_hash hp_rehash]. rewrite Hs. cbn [orb Z.ltb Z.compare].
  set (loop := hash_loop true now check_down (hash_advance key) (tried (init_round_robin_peer us)) (total_weight (primary us)) (rr_list (primary us))).
  assert (E : loop 21%nat 0 (0, 0) [] = loop 20%nat 1 st1 [i])
    by (by apply (hash_loop_leaks now check_down (hash_advance key) _ _ _ i 20 (0, 0) st1 _ p Ea Hnz Hhome Hi (fresh_clear us i) Hd Hc)).
  rewrite E.
  destruct (hash_loop_total now check_down (hash_advance key) (tried (init_round_robin_peer us)) (total_weight (primary us)) (rr_list (primary us))
              20 1 st1 [i] (hash_advance_some key) Ht Hpos Hl ltac:(lia) ltac:(lia)) as [r Er].
  pose proof (hash_loop_keeps now check_down (hash_advance key) (tried (init_round_robin_peer us)) (total_weight (primary us)) (rr_list (primary us))
                i 20 1 st1 [i] ltac:(left)) as Hk.
  fold loop in Er, Hk. rewrite Er in *. cbn [mbind option_bind]. destruct r as [[[[r tries] [h rehash]] locks]|k].
  - destruct Hk as [Hk Hne]. destruct r as [k|].
    + eexists. split; [reflexivity|]. right. eexists _, _, _, _. split; [reflexivity|]. apply Hlater.
      unfold unlock_peer. apply list_elem_of_filter. split; [|done]. by intros ->.
    + destruct (fallback_spec now check_down us Hg Hb) as (rc & rrp & us' & E' & _). cbn [hp_rrp]. rewrite (bind_some _ _ _ E').
      eexists. split; [reflexivity|]. right. eexists _, _, _, _. split; [reflexivity|]. by apply Hlater.
  - eexists. split; [reflexivity|]. left. by exists k.
Qed.

(** ** Examples *)

(** Keys of the example upstream of three servers; the health checker has
    taken the second server down. *)
Example ex_homes :
  (fun k => hash_home (s2b k) (primary ex_rr_us)) <$> ["/a"; "/d"; "/k"]%string = [Some 2; Some 0; Some 1]%nat.
Proof. vm_compute. reflexivity. Qed.

(** What requests with these keys get: the server, or the lock they wait for. *)
Definition ex_answer (shared : bool) (key : string) (locks : list nat) : option (outcome (option nat * list nat)) :=
  r ← get_hash_peer shared 100 ex_check_down (init_hash_peer ex_rr_us (s2b key)) ex_rr_us locks;
  Some (match r with
        | Returns (rc, hp, _, locks) => Returns (current (hp_rrp hp), locks)
        | Spins k => Spins k
        end).

Example ex_answers :
  ex_answer false "/a" [] = Some (Returns (Some 2%nat, [])) /\ ex_answer false "/k" [] = Some (Returns (Some 0%nat, []))
  /\ ex_answer true "/k" [] = Some (Returns (Some 0%nat, [1%nat])) /\ ex_answer true "/l" [1%nat] = Some (Spins 1).
Proof. vm_compute. split_and!; reflexivity. Qed.

Lemma ex_weights_ok : weights_ok (primary ex_rr_us).
Proof. split_and!; [repeat constructor; discriminate|reflexivity|reflexivity]. Qed.

Lemma hash_request_served_witness :
  exists rc hp us', get_hash_peer false 100 ex_check_down (init_hash_peer ex_rr_us (s2b "/k")) ex_rr_us []
      = Some (Returns (rc, hp, us', []))
    /\ served 100 ex_check_down (primary ex_rr_us) (hash_home (s2b "/k") (primary ex_rr_us)) rc (current (hp_rrp hp)).
Proof.
  apply (hash_request_served false 100 ex_check_down ex_rr_us (s2b "/k")).
  - discriminate.
  - exact ex_weights_ok.
  - reflexivity.
  - left. reflexivity.
Defined.

Lemma ip_hash_served_witness :
  exists rc iphp us', get_ip_hash_peer false 100 ex_check_down (init_ip_hash_peer ex_rr_us (addr_in [10; 1; 2; 3])) ex_rr_us []
      = Some (Returns (rc, iphp, us', []))
    /\ served 100 ex_check_down (primary ex_rr_us) (ip_hash_home [10; 1; 2] (primary ex_rr_us)) rc (current (iphp_rrp iphp)).
Proof.
  apply (ip_hash_served false 100 ex_check_down ex_rr_us (addr_in [10; 1; 2; 3])).
  - discriminate.
  - exact ex_weights_ok.
  - reflexivity.
  - left. reflexivity.
Defined.

Lemma hash_lock_leaked_witness :
  exists o, get_hash_peer true 100 ex_check_down (init_hash_peer ex_rr_us (s2b "/k")) ex_rr_us [] = Some o
    /\ ((exists k, o = Spins k)
        \/ exists rc hp us' locks, o = Returns (rc, hp, us', locks)
           /\ forall now' check_down' us2, same_servers ex_rr_us us2 ->
              get_hash_peer true now' check_down' (init_hash_peer us2 (s2b "/k")) us2 locks = Some (Spins 1)).
Proof.
  apply (hash_lock_leaked 100 ex_check_down ex_rr_us (s2b "/k") 1%nat (ex_rr 1 1)).
  - discriminate.
  - reflexivity.
  - exact ex_weights_ok.
  - reflexivity.
  - vm_compute. reflexivity.
  - reflexivity.
  - reflexivity.
  - reflexivity.
Defined.
