(* ===== verification/ConsistentHash.v ===== *)
(** * The consistent [hash] balancer

    The second half of [src/http/modules/ngx_http_upstream_hash_module.c] and
    of its copy in [src/stream]: 160 points per unit of weight on a ring of
    32-bit numbers, sorted once when the configuration is loaded; a key goes
    to the server of the next point.  The order of equal points after [qsort]
    is unspecified, so [qsort] is a parameter with the contract of the C
    library ([QSortOk]).

    The theorems: the ring is strictly sorted and complete, the binary search
    finds the next point, removing a server moves no key but its own, and a
    request walks the ring from its key to the first server that may be used. *)

From stdpp Require Import sorting.
From S2P Require Import Prelude NgxString StatusLine CheckTypes CheckProto CheckCore CheckSafety CheckWorker.
From S2P Require Import Inet FastCgiRequest CheckConf AddPeer RoundRobin Crc32 HashPeer.

(** ** The ring *)

(** [ngx_http_upstream_chash_point_t] *)
Record chash_point := mk_point { pt_hash : Z; pt_server : bytes }.

#[export] Instance chash_point_eq_dec : EqDecision chash_point.
Proof. solve_decision. Defined.

(** The digits at the end of a server name, read backwards up to a colon: the
    length of the port.  [l] is the rest of the reversed name, [j] the number
    of digits read. *)
Fixpoint port_scan (l : bytes) (j : nat) : option nat :=
  match l with
  | [] => None
  | c :: l' => if c =? ch ":" then Some j else if (c <? ch "0") || (ch "9" <? c) then None else port_scan l' (S j)
  end.

Definition chash_host_port (server : bytes) : bytes * bytes :=
  if (5 <=? blen server) && (ngx_strncasecmp server (s2b "unix:") 5 =? 0) then (drop 5 server, [])
  else match port_scan (rev server) 0 with
       | Some j => (take (length server - j - 1) server, drop (length server - j) server)
       | None => (server, [])
       end.

Definition chash_base (server : bytes) : Z :=
  let '(host, port) := chash_host_port server in
  ngx_crc32_update (ngx_crc32_update (ngx_crc32_update ngx_crc32_init host) [0]) port.

(** [prev_hash.byte] *)
Definition hash_byte4 (v : Z) : bytes :=
  [Z.land v 0xff; Z.land (Z.shiftr v 8) 0xff; Z.land (Z.shiftr v 16) 0xff; Z.land (Z.shiftr v 24) 0xff].

Fixpoint server_points (n : nat) (base prev : Z) (server : bytes) : list chash_point :=
  match n with
  | O => []
  | S n =>
    let hash := ngx_crc32_final (ngx_crc32_update base (hash_byte4 prev)) in
    mk_point hash server :: server_points n base hash server
  end.

Definition peer_points (p : rr_peer) : list chash_point :=
  server_points (Z.to_nat (weight p * 160)) (chash_base (rr_server p)) 0 (rr_server p).

Definition raw_points (l : list rr_peer) : list chash_point := flat_map peer_points l.

Definition chash_cmp_points (first second : chash_point) : Z :=
  if pt_hash first <? pt_hash second then -1
  else if pt_hash second <? pt_hash first then 1
  else 0.

(** The loop that removes equal hashes in place, [k] rounds from [j] on; the
    answer is the last [i] and the array. *)
Fixpoint dedupe_loop (k i j : nat) (pts : list chash_point) : option (nat * list chash_point) :=
  match k with
  | O => Some (i, pts)
  | S k =>
    a ← pts !! i; b ← pts !! j;
    if pt_hash a =? pt_hash b then dedupe_loop k i (S j) pts
    else dedupe_loop k (S i) (S j) (<[S i := b]> pts)
  end.

(** The first point not below [hash], by bisection between [i] and [j]. *)
Fixpoint find_loop (fuel : nat) (pts : list chash_point) (hash : Z) (i j : nat) : option nat :=
  match fuel with
  | O => None
  | S fuel =>
    if (j <=? i)%nat then Some i
    else
      let k := ((i + j) / 2)%nat in
      q ← pts !! k;
      if pt_hash q <? hash then find_loop fuel pts hash (S k) j
      else if hash <? pt_hash q then find_loop fuel pts hash i k
      else Some k
  end.

(** Every round halves the range, the fuel is its length and one more. *)
Definition find_chash_point (pts : list chash_point) (hash : Z) : option nat :=
  find_loop (S (length pts)) pts hash 0 (length pts).

Section Chash.
Context (qsort : (chash_point -> chash_point -> Z) -> list chash_point -> list chash_point).

(** [init_chash] after [init_round_robin]: [hcf->points].  Without a point the
    code reads memory it has not written. *)
Definition init_chash (ps : rr_peers) : option (list chash_point) :=
  let pts := qsort chash_cmp_points (raw_points (rr_list ps)) in
  if (length pts =? 0)%nat then None
  else '(i, pts) ← dedupe_loop (length pts - 1) 0 1 pts; Some (take (S i) pts).

End Chash.

(** [init_chash_peer] *)
Definition init_chash_peer (points : list chash_point) (us : rr_upstream) (key : bytes) : option hash_data :=
  let hp := init_hash_peer us key in
  i ← find_chash_point points (ngx_crc32_long key);
  Some (mk_hash (hp_rrp hp) (hp_key hp) (hp_tries hp) (hp_rehash hp) (u32 (Z.of_nat i))).

(** ** A request *)

Section Get.
Context (now : Z) (check_down : Z -> bool) (points : list chash_point).

(** [peer->server] is [server]. *)
Definition named (server : bytes) (p : rr_peer) : bool :=
  (blen (rr_server p) =? blen server) && (ngx_strncmp (rr_server p) server (length server) =? 0).

(** The loop over the servers for one point. *)
Fixpoint chash_loop (server : bytes) (t : list Z) (i : nat) (best : option (nat * Z)) (total : Z) (l : list rr_peer)
    : list rr_peer * option (nat * Z) * Z :=
  match l with
  | [] => ([], best, total)
  | p :: l' =>
    if skipped now check_down t i p || negb (named server p) then
      let '(l', best, total) := chash_loop server t (S i) best total l' in (p :: l', best, total)
    else
      let q := raise_weight p in
      let total := total + effective_weight p in
      let best :=
        match best with
        | Some (_, b) => if b <? current_weight q then Some (i, current_weight q) else best
        | None => Some (i, current_weight q)
        end in
      let '(l', best, total) := chash_loop server t (S i) best total l' in (q :: l', best, total)
  end.

(** [best->current_weight -= total] and the updates after [found]. *)
Definition found_peer (total : Z) (b : rr_peer) : rr_peer :=
  let b := b <| current_weight := current_weight b - total |> in
  let b := b <| conns := u64 (conns b + 1) |> in
  if fail_timeout b <? now - rr_checked b then b <| rr_checked := now |> else b.

(** [for ( ;; )]: the chosen server, [hp->hash], [hp->tries] and the servers. *)
Fixpoint ring_loop (fuel : nat) (t : list Z) (hash tries : Z) (l : list rr_peer)
    : option (option nat * Z * Z * list rr_peer) :=
  match fuel with
  | O => None
  | S fuel =>
    pt ← points !! Z.to_nat (hash mod Z.of_nat (length points));
    match chash_loop (pt_server pt) t 0 None 0 l with
    | (l, Some (p, _), total) => Some (Some p, hash, tries, alter (found_peer total) p l)
    | (l, None, _) =>
      let hash := u32 (hash + 1) in
      let tries := tries + 1 in
      if 20 <? tries then Some (None, hash, tries, l) else ring_loop fuel t hash tries l
    end
  end.

Definition get_chash_peer (hp : hash_data) (us : rr_upstream) : option (ngx_rc * hash_data * rr_upstream) :=
  let fallback hp us :=
    '(rc, rrp, us) ← get_round_robin_peer now check_down (hp_rrp hp) us;
    Some (rc, mk_hash rrp (hp_key hp) (hp_tries hp) (hp_rehash hp) (hp_hash hp), us) in
  ps ← group_of (hp_rrp hp) us;
  if (20 <? hp_tries hp) || single ps then fallback hp us
  else
    '(r, hash, tries, l) ← ring_loop 21 (tried (hp_rrp hp)) (hp_hash hp) (hp_tries hp) (rr_list ps);
    let us := set_group (hp_rrp hp) us (ps <| rr_list := l |>) in
    let hp := mk_hash (hp_rrp hp) (hp_key hp) tries (hp_rehash hp) hash in
    match r with
    | None => fallback hp us
    | Some p =>
      let rrp := (hp_rrp hp) <| current := Some p |> <| tried := set_tried (tried (hp_rrp hp)) p |> in
      Some (NGX_OK, mk_hash rrp (hp_key hp) (hp_tries hp) (hp_rehash hp) (hp_hash hp), us)
    end.

End Get.

Definition ngx_http_upstream_init_chash := init_chash.
Definition ngx_stream_upstream_init_chash := init_chash.
Definition ngx_http_upstream_chash_cmp_points := chash_cmp_points.
Definition ngx_stream_upstream_chash_cmp_points := chash_cmp_points.
Definition ngx_http_upstream_find_chash_point := find_chash_point.
Definition ngx_stream_upstream_find_chash_point := find_chash_point.
Definition ngx_http_upstream_init_chash_peer := init_chash_peer.
Definition ngx_stream_upstream_init_chash_peer := init_chash_peer.
Definition ngx_http_upstream_get_chash_peer := get_chash_peer.
Definition ngx_stream_upstream_get_chash_peer := get_chash_peer.

(** ** The contract of [qsort] *)

(** A comparison [qsort] may be called with. *)
Definition cmp_ok (cmp : chash_point -> chash_point -> Z) : Prop :=
  (forall a b, cmp a b <= 0 \/ cmp b a <= 0) /\ forall a b c, cmp a b <= 0 -> cmp b c <= 0 -> cmp a c <= 0.

(** The array is reordered so that no element compares greater than a later
    one. *)
Class QSortOk (qsort : (chash_point -> chash_point -> Z) -> list chash_point -> list chash_point) : Prop := {
  qsort_permutation cmp l : cmp_ok cmp -> qsort cmp l ≡ₚ l;
  qsort_sorted cmp l : cmp_ok cmp -> StronglySorted (fun a b => cmp a b <= 0) (qsort cmp l)
}.

(** A sort that keeps the contract. *)
Definition sort_points (cmp : chash_point -> chash_point -> Z) : list chash_point -> list chash_point :=
  @merge_sort _ (fun a b => cmp a b <= 0) (fun a b => decide (cmp a b <= 0)).

#[export] Instance sort_points_ok : QSortOk sort_points.
Proof.
  split; intros cmp l [Ht Htr]; unfold sort_points; [apply merge_sort_Permutation|].
  apply StronglySorted_merge_sort; [exact Htr|exact Ht].
Qed.

Lemma cmp_points_le a b : chash_cmp_points a b <= 0 <-> pt_hash a <= pt_hash b.
Proof. unfold chash_cmp_points. destruct (Z.ltb_spec (pt_hash a) (pt_hash b)); [lia|]. destruct (Z.ltb_spec (pt_hash b) (pt_hash a)); lia. Qed.

Lemma cmp_points_ok : cmp_ok chash_cmp_points.
Proof. split; intros; rewrite !cmp_points_le in *; lia. Qed.

(** ** The ring is sorted *)

Definition hash_lt (a b : chash_point) : Prop := pt_hash a < pt_hash b.

(** The points that follow one of hash [last], without repetitions. *)
Fixpoint uniq (last : Z) (l : list chash_point) : list chash_point :=
  match l with
  | [] => []
  | b :: l => if last =? pt_hash b then uniq last l else b :: uniq (pt_hash b) l
  end.

Lemma dedupe_loop_spec k i j pts a :
  (i < j)%nat -> (j + k)%nat = length pts -> pts !! i = Some a ->
  exists i' pts', dedupe_loop k i j pts = Some (i', pts')
    /\ take (S i') pts' = take (S i) pts ++ uniq (pt_hash a) (drop j pts).
Proof.
  revert i j pts a; induction k as [|k IH]; intros i j pts a Hij Hk Ha.
  { exists i, pts. split; [done|]. rewrite drop_ge by lia. cbn [uniq]. by rewrite app_nil_r. }
  destruct (lookup_lt_is_Some_2 pts j) as [b Hb]; [lia|].
  cbn [dedupe_loop]. rewrite Ha, Hb. cbn [mbind option_bind]. rewrite (drop_S _ _ _ Hb). cbn [uniq].
  destruct (Z.eqb_spec (pt_hash a) (pt_hash b)) as [E|E].
  - destruct (IH i (S j) pts a) as (i' & pts' & E1 & E2); [lia..|done|]. by exists i', pts'.
  - assert (Hi : <[S i := b]> pts !! S i = Some b) by (apply list_lookup_insert_eq; lia).
    destruct (IH (S i) (S j) (<[S i := b]> pts) b) as (i' & pts' & E1 & E2); [lia|rewrite length_insert; lia|done|].
    exists i', pts'. split; [done|]. rewrite E2, drop_insert_lt by lia.
    rewrite (take_S_r _ _ _ Hi), take_insert_ge by lia. by rewrite <- app_assoc.
Qed.

Lemma uniq_in a l q : q ∈ uniq a l -> q ∈ l.
Proof.
  revert a; induction l as [|b l IH]; intros a; cbn [uniq]; [done|]. destruct (_ =? _); [intros H; right; by eapply IH|].
  rewrite elem_of_cons. intros [->|H]; [left|right; by eapply IH].
Qed.

(** Every hash stays. *)
Lemma uniq_hashes a l q : q ∈ l -> pt_hash q = a \/ exists r, r ∈ uniq a l /\ pt_hash r = pt_hash q.
Proof.
  revert a; induction l as [|b l IH]; intros a; [by intros ?%not_elem_of_nil|]. cbn [uniq]. rewrite elem_of_cons. intros H.
  destruct (Z.eqb_spec a (pt_hash b)) as [E|E].
  - destruct H as [->|H]; [by left|by apply IH].
  - right. destruct H as [->|H]; [exists b; split; [left|done]|].
    destruct (IH (pt_hash b) H) as [Hq|(r & Hr & Eq)]; [exists b; split; [left|done]|exists r; split; [by right|done]].
Qed.

Lemma uniq_sorted a l :
  StronglySorted (fun x y => chash_cmp_points x y <= 0) (a :: l) -> StronglySorted hash_lt (a :: uniq (pt_hash a) l).
Proof.
  revert a; induction l as [|b l IH]; intros a H; cbn [uniq]; [by repeat constructor|].
  apply StronglySorted_inv in H as [H Ha]. pose proof H as Hbl. apply StronglySorted_inv in H as [Hl Hb].
  apply Forall_cons in Ha as [Hab Ha]. rewrite cmp_points_le in Hab.
  destruct (Z.eqb_spec (pt_hash a) (pt_hash b)) as [E|E]; [apply IH; by constructor|].
  specialize (IH b Hbl). constructor; [done|]. apply StronglySorted_inv in IH as [_ IH].
  constructor; [unfold hash_lt; lia|]. eapply Forall_impl; [exact IH|]. unfold hash_lt. intros x Hx. lia.
Qed.

(** What [init_chash] promises of the ring of the servers [l]. *)
Record ring_of (l : list rr_peer) (pts : list chash_point) : Prop := {
  ring_nonempty : pts <> [];
  ring_sorted : StronglySorted hash_lt pts;
  ring_points q : q ∈ pts -> q ∈ raw_points l;
  ring_complete q : q ∈ raw_points l -> exists r, r ∈ pts /\ pt_hash r = pt_hash q
}.

(** An upstream has points when some server has a weight. *)
Lemma raw_points_nonempty l p : p ∈ l -> 0 < weight p -> raw_points l <> [].
Proof.
  intros Hp Hw E. assert (H : peer_points p = []).
  { apply elem_of_nil_inv. intros q Hq. apply (not_elem_of_nil q). rewrite <- E. unfold raw_points.
    apply list_elem_of_In, in_flat_map. exists p. by rewrite <- !list_elem_of_In. }
  unfold peer_points in H. destruct (Z.to_nat (weight p * 160)) eqn:En; [lia|done].
Qed.

Section Ring.
Context (qsort : (chash_point -> chash_point -> Z) -> list chash_point -> list chash_point) `{Hq : !QSortOk qsort}.

Lemma init_chash_spec ps p :
  p ∈ rr_list ps -> 0 < weight p -> exists pts, init_chash qsort ps = Some pts /\ ring_of (rr_list ps) pts.
Proof.
  intros Hp Hw. pose proof (raw_points_nonempty _ _ Hp Hw) as Hne. unfold init_chash.
  pose proof (qsort_permutation chash_cmp_points (raw_points (rr_list ps)) cmp_points_ok) as Hperm.
  pose proof (qsort_sorted chash_cmp_points (raw_points (rr_list ps)) cmp_points_ok) as Hs.
  destruct (qsort chash_cmp_points (raw_points (rr_list ps))) as [|a l] eqn:E; [by apply Permutation_nil_l in Hperm|].
  destruct (dedupe_loop_spec (length (a :: l) - 1) 0 1 (a :: l) a) as (i & pts & E1 & E2); [lia|cbn [length]; lia|done|].
  change (length (a :: l) =? 0)%nat with false. rewrite E1. cbn [mbind option_bind]. exists (a :: uniq (pt_hash a) l).
  split; [by rewrite E2|]. split; [done|by apply uniq_sorted| |]; intros q Hin.
  - rewrite <- Hperm. apply elem_of_cons in Hin as [->|Hin]; [left|right; by eapply uniq_in].
  - rewrite <- Hperm in Hin. apply elem_of_cons in Hin as [->|Hin]; [exists a; split; [left|done]|].
    destruct (uniq_hashes (pt_hash a) l q Hin) as [Eq|(r & Hr & Eq)]; [exists a; split; [left|done]|exists r; split; [by right|done]].
Qed.

End Ring.

(** ** The search *)

Lemma sorted_lookup pts i j a b :
  StronglySorted hash_lt pts -> pts !! i = Some a -> pts !! j = Some b -> (i < j)%nat -> pt_hash a < pt_hash b.
Proof.
  intros H. revert i j; induction H as [|x l H IH Hx]; intros [|i] [|j] Ha Hb Hij; try (done || lia).
  - injection Ha as <-. rewrite Forall_forall in Hx. apply (Hx b). by eapply list_elem_of_lookup_2.
  - apply (IH i j); [done..|lia].
Qed.

Lemma find_loop_spec pts h fuel i j :
  StronglySorted hash_lt pts -> (i <= j <= length pts)%nat -> (j - i < fuel)%nat ->
  (forall k q, pts !! k = Some q -> ((k < i)%nat -> pt_hash q < h) /\ ((j <= k)%nat -> h <= pt_hash q)) ->
  exists r, find_loop fuel pts h i j = Some r /\ (r <= length pts)%nat
    /\ forall k q, pts !! k = Some q -> (k < r)%nat <-> pt_hash q < h.
Proof.
  intros Hs. revert i j; induction fuel as [|fuel IH]; intros i j Hij Hf Hinv; [lia|]. cbn [find_loop].
  destruct (Nat.leb_spec j i) as [Hle|Hlt].
  { exists i. split; [done|]. split; [lia|]. intros k q Hk. destruct (Hinv k q Hk) as [H1 H2]. split; [done|]. intros Hq.
    destruct (Nat.lt_ge_cases k i); [done|]. specialize (H2 ltac:(lia)). lia. }
  set (k := ((i + j) / 2)%nat). assert (Hk : (i <= k < j)%nat).
  { unfold k. split; [apply Nat.div_le_lower_bound; lia|apply Nat.Div0.div_lt_upper_bound; lia]. }
  destruct (lookup_lt_is_Some_2 pts k) as [q Hq]; [lia|]. rewrite Hq. cbn [mbind option_bind].
  assert (Hbelow : forall m r, pts !! m = Some r -> (m < k)%nat -> pt_hash r < pt_hash q) by (intros; by eapply sorted_lookup).
  assert (Habove : forall m r, pts !! m = Some r -> (k < m)%nat -> pt_hash q < pt_hash r) by (intros; by eapply sorted_lookup).
  assert (Hat : forall r, pts !! k = Some r -> r = q) by (intros; congruence).
  destruct (Z.ltb_spec (pt_hash q) h) as [Hqh|Hqh]; [|destruct (Z.ltb_spec h (pt_hash q)) as [Hhq|Hhq]].
  - apply IH; [lia..|]. intros m r Hm. destruct (Hinv m r Hm) as [H1 H2]. split; [|done]. intros Hmk.
    destruct (decide (m = k)) as [->|]; [by rewrite (Hat r Hm)|]. specialize (Hbelow m r Hm ltac:(lia)). lia.
  - apply IH; [lia..|]. intros m r Hm. destruct (Hinv m r Hm) as [H1 H2]. split; [done|]. intros Hmk.
    destruct (decide (m = k)) as [->|]; [rewrite (Hat r Hm); lia|]. specialize (Habove m r Hm ltac:(lia)). lia.
  - exists k. split; [done|]. split; [lia|]. intros m r Hm. split; [intros Hmk; specialize (Hbelow m r Hm Hmk); lia|].
    intros Hr. destruct (Nat.lt_trichotomy m k) as [?|[->|?]]; [done|rewrite (Hat r Hm) in Hr; lia|].
    specialize (Habove m r Hm ltac:(lia)). lia.
Qed.

Lemma find_chash_point_next pts h :
  StronglySorted hash_lt pts ->
  exists i, find_chash_point pts h = Some i /\ (i <= length pts)%nat
    /\ forall k q, pts !! k = Some q -> (k < i)%nat <-> pt_hash q < h.
Proof.
  intros Hs. apply find_loop_spec; [done|lia|lia|]. intros k q Hk. split; [lia|]. apply lookup_lt_Some in Hk. lia.
Qed.

(** ** The home of a key *)

(** The next point of the ring from [h] on. *)
Definition is_next (l : list chash_point) (h : Z) (q : chash_point) : Prop :=
  q ∈ l /\ ((h <= pt_hash q /\ forall r, r ∈ l -> h <= pt_hash r -> pt_hash q <= pt_hash r)
            \/ (forall r, r ∈ l -> pt_hash r < h) /\ forall r, r ∈ l -> pt_hash q <= pt_hash r).

Lemma is_next_hash l h q q' : is_next l h q -> is_next l h q' -> pt_hash q = pt_hash q'.
Proof.
  intros [Hq [[H1 H2]|[H1 H2]]] [Hq' [[H1' H2']|[H1' H2']]].
  - specialize (H2 q' Hq' H1'). specialize (H2' q Hq H1). lia.
  - specialize (H1' q Hq). lia.
  - specialize (H1 q' Hq'). lia.
  - specialize (H2 q' Hq'). specialize (H2' q Hq). lia.
Qed.

Lemma is_next_sub l l' h q : is_next l h q -> (forall r, r ∈ l' -> r ∈ l) -> q ∈ l' -> is_next l' h q.
Proof. intros [_ H] Hsub Hq. split; [done|]. destruct H as [[H1 H2]|[H1 H2]]; [left|right]; split; auto. Qed.

(** The point a key leads to. *)
Definition chash_home (pts : list chash_point) (key : bytes) : option chash_point :=
  i ← find_chash_point pts (ngx_crc32_long key); pts !! (i mod length pts)%nat.

Lemma chash_home_next pts key :
  pts <> [] -> StronglySorted hash_lt pts -> exists q, chash_home pts key = Some q /\ is_next pts (ngx_crc32_long key) q.
Proof.
  intros Hne Hs. unfold chash_home. set (h := ngx_crc32_long key). destruct (find_chash_point_next pts h Hs) as (i & -> & Hi & Hk).
  cbn [mbind option_bind]. assert (Hpos : (0 < length pts)%nat) by (destruct pts; [done|cbn; lia]).
  destruct (decide (i = length pts)) as [->|Hlt].
  - rewrite Nat.Div0.mod_same. destruct (lookup_lt_is_Some_2 pts 0%nat Hpos) as [q Hq]. exists q. split; [done|].
    split; [by eapply list_elem_of_lookup_2|right]. split; intros r [k Hr]%list_elem_of_lookup.
    + apply (Hk k r Hr). by eapply lookup_lt_Some.
    + destruct k as [|k]; [by simplify_eq|]. specialize (sorted_lookup pts 0 (S k) q r Hs Hq Hr ltac:(lia)). lia.
  - rewrite Nat.mod_small by lia. destruct (lookup_lt_is_Some_2 pts i) as [q Hq]; [lia|]. exists q. split; [done|].
    split; [by eapply list_elem_of_lookup_2|left]. assert (Hqh : ~ pt_hash q < h) by (rewrite <- (Hk i q Hq); lia).
    split; [lia|]. intros r [k Hr]%list_elem_of_lookup Hh. assert (Hki : ~ (k < i)%nat) by (rewrite (Hk k r Hr); lia).
    destruct (decide (k = i)) as [->|]; [by simplify_eq|]. specialize (sorted_lookup pts i k q r Hs Hq Hr ltac:(lia)). lia.
Qed.

(** On the ring of a list of servers the home is the next of all points. *)
Lemma ring_home_next l pts key :
  ring_of l pts -> exists q, chash_home pts key = Some q /\ is_next (raw_points l) (ngx_crc32_long key) q.
Proof.
  intros [Hne Hs Hin Hall]. destruct (chash_home_next pts key Hne Hs) as (q & E & Hq & H). exists q. split; [done|].
  split; [by apply Hin|]. destruct H as [[H1 H2]|[H1 H2]]; [left; split; [done|]|right; split].
  - intros r (r' & Hr' & Er)%Hall Hh. rewrite <- Er in *. by apply H2.
  - intros r (r' & Hr' & Er)%Hall. rewrite <- Er. by apply H1.
  - intros r (r' & Hr' & Er)%Hall. rewrite <- Er. by apply H2.
Qed.

Lemma server_points_server n base prev server q : q ∈ server_points n base prev server -> pt_server q = server.
Proof.
  revert prev; induction n as [|n IH]; intros prev; cbn [server_points]; [by intros ?%not_elem_of_nil|].
  rewrite elem_of_cons. intros [->|H]; [done|by eapply IH].
Qed.

Lemma raw_points_in l q : q ∈ raw_points l <-> exists p, p ∈ l /\ q ∈ peer_points p.
Proof. unfold raw_points. rewrite list_elem_of_In, in_flat_map. by setoid_rewrite <- list_elem_of_In. Qed.

Section Consistent.
Context (qsort : (chash_point -> chash_point -> Z) -> list chash_point -> list chash_point) `{Hq : !QSortOk qsort}.

(** the ring.  [init_chash] keeps a strictly sorted ring in which every
    hash of every server's points is present, and the bisection of
    [find_chash_point] leads each key to the next of these points, clockwise,
    whatever order [qsort] gives to equal points. *)
Theorem chash_ring_next ps p key :
  p ∈ rr_list ps -> 0 < weight p ->
  exists pts q, init_chash qsort ps = Some pts /\ ring_of (rr_list ps) pts
    /\ chash_home pts key = Some q /\ is_next (raw_points (rr_list ps)) (ngx_crc32_long key) q.
Proof.
  intros Hp Hw. destruct (init_chash_spec qsort ps p Hp Hw) as (pts & E & Hr).
  destruct (ring_home_next _ pts key Hr) as (q & Eq & Hn). by exists pts, q.
Qed.

(** C25: the hash is consistent.  The ring of an upstream exists, a key leads
    to the next point of the ring, and when a server is taken out of the
    upstream (all addresses of its name) every key of another server keeps its
    place on the ring: the point it then leads to has the same hash.  It is the
    same point, of the same server, unless points of two servers share just
    that hash; nothing is assumed about other collisions, or about servers with
    several addresses, whose points are all equal. *)
Theorem chash_consistent ps ps' s key p :
  rr_list ps' = filter (fun q => rr_server q <> s) (rr_list ps) -> p ∈ rr_list ps' -> 0 < weight p ->
  exists pts pts' q q', init_chash qsort ps = Some pts /\ init_chash qsort ps' = Some pts'
    /\ chash_home pts key = Some q /\ chash_home pts' key = Some q'
    /\ is_next (raw_points (rr_list ps)) (ngx_crc32_long key) q
    /\ (pt_server q <> s -> pt_hash q' = pt_hash q
        /\ ((forall r, r ∈ raw_points (rr_list ps) -> pt_hash r = pt_hash q -> pt_server r = pt_server q) -> q' = q)).
Proof.
  intros El Hp Hw. assert (Hsub : forall r, r ∈ rr_list ps' -> r ∈ rr_list ps) by (intros r; rewrite El; by intros [_ ?]%list_elem_of_filter).
  destruct (init_chash_spec qsort ps p (Hsub p Hp) Hw) as (pts & E & Hr). destruct (init_chash_spec qsort ps' p Hp Hw) as (pts' & E' & Hr').
  destruct (ring_home_next _ pts key Hr) as (q & Eq & Hq0). destruct (ring_home_next _ pts' key Hr') as (q' & Eq' & Hq').
  exists pts, pts', q, q'. split_and!; [done..|]. intros Hs.
  assert (Hraw : forall r, r ∈ raw_points (rr_list ps') -> r ∈ raw_points (rr_list ps)).
  { intros r (x & Hx & Hrx)%raw_points_in. apply raw_points_in. exists x. auto. }
  assert (Hin : q ∈ raw_points (rr_list ps')).
  { destruct Hq0 as [(x & Hx & Hqx)%raw_points_in _]. apply raw_points_in. exists x. split; [|done]. rewrite El.
    apply list_elem_of_filter. split; [|done]. by rewrite <- (server_points_server _ _ _ _ _ Hqx). }
  assert (Eh : pt_hash q' = pt_hash q) by (eapply is_next_hash; [done|]; by eapply is_next_sub).
  split; [done|]. intros Hno. assert (Es := Hno q' (Hraw _ (proj1 Hq')) Eh). destruct q, q'. cbn in *. congruence.
Qed.

End Consistent.

(** ** A request on the ring *)

Lemma named_eq s p : nul_free s -> named s p = bool_decide (rr_server p = s).
Proof.
  intros Hs. unfold named. destruct (Z.eqb_spec (blen (rr_server p)) (blen s)) as [E|E]; cbn [andb].
  - assert (El : length (rr_server p) = length s) by (unfold blen in E; lia). revert El. generalize (rr_server p). clear E.
    revert Hs; induction s as [|x s IH]; intros Hs [|y u] El; try done. cbn [length ngx_strncmp hd tl] in *.
    apply Forall_cons in Hs as [Hx Hs]. destruct (Z.eqb_spec y x) as [->|Hyx].
    + destruct (Z.eqb_spec x 0); [lia|]. rewrite (IH Hs u) by lia. apply bool_decide_ext. naive_solver.
    + rewrite bool_decide_eq_false_2 by naive_solver. apply Z.eqb_neq. lia.
  - rewrite bool_decide_eq_false_2; [done|]. by intros <-.
Qed.

Section Walk.
Context (now : Z) (check_down : Z -> bool) (points : list chash_point) (t : list Z).

(** The servers a point offers. *)
Definition offers (s : bytes) (i : nat) (p : rr_peer) : Prop := available now check_down t i p /\ named s p = true.

Lemma chash_skip s i p : skipped now check_down t i p || negb (named s p) = false <-> offers s i p.
Proof. unfold offers. by rewrite orb_false_iff, negb_false_iff, skipped_available. Qed.

Lemma chash_loop_spec s i best total l :
  match chash_loop now check_down s t i best total l with
  | (l', None, _) => best = None /\ l' = l /\ forall k p, l !! k = Some p -> ~ offers s (i + k) p
  | (_, Some (j, b), _) => best = Some (j, b) \/ exists k p, j = (i + k)%nat /\ l !! k = Some p /\ offers s (i + k) p
  end.
Proof.
  revert i best total; induction l as [|p l IH]; intros i best total; cbn [chash_loop].
  { destruct best as [[j b]|]; [by left|]. by split_and!. }
  destruct (skipped now check_down t i p || negb (named s p)) eqn:Es.
  - assert (Hp : ~ offers s i p) by (rewrite <- chash_skip; congruence). specialize (IH (S i) best total).
    destruct (chash_loop now check_down s t (S i) best total l) as [[l' [[j b]|]] total'].
    + destruct IH as [->|(k & q & -> & Hk & Ho)]; [by left|right]. exists (S k), q. rewrite Nat.add_succ_r. by split_and!.
    + destruct IH as (-> & -> & H). split_and!; [done..|]. intros [|k] q; cbn; [rewrite Nat.add_0_r; by intros [= <-]|].
      rewrite Nat.add_succ_r. apply H.
  - apply chash_skip in Es. set (best1 := match best with Some (_, b) => _ | None => _ end).
    assert (Hb1 : exists j b, best1 = Some (j, b) /\ (best = Some (j, b) \/ j = i)).
    { unfold best1. destruct best as [[j b]|]; [destruct (_ <? _)|]; eexists _, _; split; [reflexivity|auto..]; reflexivity. }
    destruct Hb1 as (j1 & b1 & E1 & H1). specialize (IH (S i) best1 (total + effective_weight p)). rewrite E1 in *.
    destruct (chash_loop now check_down s t (S i) (Some (j1, b1)) (total + effective_weight p) l) as [[l' [[j b]|]] total']; [|by destruct IH].
    destruct IH as [[= <- <-]|(k & q & -> & Hk & Ho)]; [destruct H1 as [->| ->]; [by left|]|]; right.
    + exists 0%nat, p. rewrite Nat.add_0_r. by split_and!.
    + exists (S k), q. rewrite Nat.add_succ_r. by split_and!.
Qed.

(** The point [k] steps after position [i]. *)
Definition point_at (i : nat) (k : nat) : option chash_point := points !! ((i + k) mod length points)%nat.

Definition offered (i k : nat) (l : list rr_peer) : Prop :=
  exists pt j p, point_at i k = Some pt /\ l !! j = Some p /\ offers (pt_server pt) j p.

Lemma ring_loop_spec i fuel k l :
  points <> [] -> Z.of_nat (i + 21) < 2 ^ 32 -> (k <= 20)%nat -> (21 - k <= fuel)%nat ->
  (forall m, (m < k)%nat -> ~ offered i m l) ->
  exists r hash tries l', ring_loop now check_down points fuel t (Z.of_nat (i + k)) (Z.of_nat k) l = Some (r, hash, tries, l')
    /\ match r with
       | Some j => exists m pt p, (m <= 20)%nat /\ point_at i m = Some pt /\ l !! j = Some p /\ offers (pt_server pt) j p
                     /\ forall m', (m' < m)%nat -> ~ offered i m' l
       | None => l' = l /\ forall m, (m <= 20)%nat -> ~ offered i m l
       end.
Proof.
  intros Hne Hi. assert (Hpos : (0 < length points)%nat) by (destruct points; [done|cbn; lia]).
  revert k; induction fuel as [|fuel IH]; intros k Hk Hf Hb; [lia|]. cbn [ring_loop].
  rewrite <- Nat2Z.inj_mod, Nat2Z.id. fold (point_at i k).
  assert (Hpt : is_Some (point_at i k)) by (apply lookup_lt_is_Some_2, Nat.mod_upper_bound; lia).
  destruct Hpt as [pt Ept]. rewrite Ept. cbn [mbind option_bind].
  pose proof (chash_loop_spec (pt_server pt) 0 None 0 l) as H.
  destruct (chash_loop now check_down (pt_server pt) t 0 None 0 l) as [[l' [[j b]|]] total].
  - destruct H as [?|(j' & p & -> & Hj & Ho)]; [done|]. cbn [Nat.add] in *. eexists (Some j'), _, _, _. split; [reflexivity|].
    exists k, pt, p. by split_and!.
  - destruct H as (_ & -> & H). cbn [Nat.add] in H. assert (Hk' : forall m, (m < S k)%nat -> ~ offered i m l).
    { intros m Hm. destruct (decide (m = k)) as [->|]; [|apply Hb; lia]. intros (pt' & j & p & E & Hj & Ho). simplify_eq. by apply (H j p). }
    replace (u32 (Z.of_nat (i + k) + 1)) with (Z.of_nat (i + S k)) by (unfold u32; rewrite Z.mod_small by lia; lia).
    replace (Z.of_nat k + 1) with (Z.of_nat (S k)) by lia.
    destruct (Z.ltb_spec 20 (Z.of_nat (S k))).
    + eexists None, _, _, _. split; [reflexivity|]. split; [done|]. intros m Hm. apply Hk'. lia.
    + apply IH; [lia..|done].
Qed.

End Walk.

(** Server [j] of the group may be used and is the server of point [pt]. *)
Definition serves (now : Z) (check_down : Z -> bool) (ps : rr_peers) (pt : chash_point) (j : nat) : Prop :=
  exists p, rr_list ps !! j = Some p /\ rr_server p = pt_server pt /\ usable now check_down ps p.

(** What a request that starts at position [i] of the ring gets: the server of
    the first of 21 points that has one; otherwise what the round robin finds. *)
Definition walks (now : Z) (check_down : Z -> bool) (ps : rr_peers) (pts : list chash_point) (i : nat)
    (rc : ngx_rc) (cur : option nat) : Prop :=
  (exists m pt j, (m <= 20)%nat /\ point_at pts i m = Some pt /\ rc = NGX_OK /\ cur = Some j /\ serves now check_down ps pt j
     /\ forall m' pt' j', (m' < m)%nat -> point_at pts i m' = Some pt' -> ~ serves now check_down ps pt' j')
  \/ (forall m pt j, (m <= 20)%nat -> point_at pts i m = Some pt -> ~ serves now check_down ps pt j)
     /\ served now check_down ps None rc cur.

Lemma ring_nul_free l pts i k pt :
  ring_of l pts -> Forall (fun p => nul_free (rr_server p)) l -> point_at pts i k = Some pt -> nul_free (pt_server pt).
Proof.
  intros Hr Hl Hpt. assert (Hin : pt ∈ raw_points l) by (eapply ring_points; [done|]; by eapply list_elem_of_lookup_2).
  apply raw_points_in in Hin as (p & Hp & Hq). rewrite (server_points_server _ _ _ _ _ Hq).
  rewrite Forall_forall in Hl. by apply Hl.
Qed.

Lemma offers_serves now cd us pts i k pt j p :
  single (primary us) = false -> ring_of (rr_list (primary us)) pts ->
  Forall (fun p => nul_free (rr_server p)) (rr_list (primary us)) -> point_at pts i k = Some pt -> rr_list (primary us) !! j = Some p ->
  offers now cd (tried (init_round_robin_peer us)) (pt_server pt) j p <-> serves now cd (primary us) pt j.
Proof.
  intros Hs Hr Hn Hpt Hj. unfold offers, serves. rewrite <- (fresh_usable now cd us j p Hs).
  rewrite named_eq by by eapply ring_nul_free. rewrite bool_decide_eq_true. split; [intros [? ?]; by exists p|].
  intros (p' & Hp' & ? & ?). by simplify_eq.
Qed.

Lemma set_same_list us : us <| primary := (primary us) <| rr_list := rr_list (primary us) |> |> = us.
Proof. by destruct us as [[] ?]. Qed.

Lemma walks_from now cd us pts i key :
  ring_of (rr_list (primary us)) pts -> (i <= length pts)%nat -> Z.of_nat (length pts) + 21 < 2 ^ 32 ->
  Forall (fun p => nul_free (rr_server p)) (rr_list (primary us)) ->
  group_wf (primary us) -> single (primary us) = false -> backup us = None ->
  exists rc hp' us', get_chash_peer now cd pts (mk_hash (init_round_robin_peer us) key 0 0 (u32 (Z.of_nat i))) us = Some (rc, hp', us')
    /\ walks now cd (primary us) pts i rc (current (hp_rrp hp')).
Proof.
  intros Hr Hi Hlen Hn Hg Hs Hb. unfold get_chash_peer. cbn [hp_rrp hp_key hp_tries hp_rehash hp_hash].
  change (group_of (init_round_robin_peer us) us) with (Some (primary us)). cbn [mbind option_bind]. rewrite Hs. cbn [orb Z.ltb Z.compare].
  replace (u32 (Z.of_nat i)) with (Z.of_nat (i + 0)) by (unfold u32; rewrite Z.mod_small by lia; lia).
  destruct (ring_loop_spec now cd pts (tried (init_round_robin_peer us)) i 21 0 (rr_list (primary us)))
    as (r & hash & tries & l' & E & H); [by eapply ring_nonempty|lia..|]. rewrite (bind_some _ _ _ E). cbn beta iota.
  assert (Hno : forall m pt j, ~ offered now cd pts (tried (init_round_robin_peer us)) i m (rr_list (primary us)) ->
            point_at pts i m = Some pt -> ~ serves now cd (primary us) pt j).
  { intros m pt j Hm Hpt Hsv. pose proof Hsv as (p & Hj & _). apply Hm. exists pt, j, p. split_and!; [done..|]. by eapply offers_serves. }
  destruct r as [j|].
  - destruct H as (m & pt & p & Hm & Hpt & Hj & Ho & Hb4). eexists _, _, _. split; [reflexivity|]. left. exists m, pt, j.
    split_and!; [done..|by eapply offers_serves|]. intros m' pt' j' Hlt Hpt'. by apply (Hno m'); [apply Hb4|].
  - destruct H as [-> H]. change (set_group (init_round_robin_peer us) us ?ps) with (us <| primary := ps |>). rewrite set_same_list.
    destruct (fallback_spec now cd us Hg Hb) as (rc & rrp & us' & E' & Hf). cbn [hp_rrp hp_key hp_tries hp_rehash hp_hash].
    rewrite (bind_some _ _ _ E'). eexists _, _, _. split; [reflexivity|]. right. split.
    + intros m pt j Hm. apply Hno. by apply H.
    + destruct Hf as [[-> Hf]|Hf]; [left|by right]. by split_and!.
Qed.

Lemma chash_walks now check_down us pts key :
  ring_of (rr_list (primary us)) pts -> Z.of_nat (length pts) + 21 < 2 ^ 32 ->
  Forall (fun p => nul_free (rr_server p)) (rr_list (primary us)) ->
  group_wf (primary us) -> single (primary us) = false -> backup us = None ->
  exists i hp rc hp' us', find_chash_point pts (ngx_crc32_long key) = Some i /\ init_chash_peer pts us key = Some hp
    /\ get_chash_peer now check_down pts hp us = Some (rc, hp', us')
    /\ walks now check_down (primary us) pts i rc (current (hp_rrp hp')).
Proof.
  intros Hr Hlen Hn Hg Hs Hb. destruct (find_chash_point_next pts (ngx_crc32_long key) (ring_sorted _ _ Hr)) as (i & Ei & Hi & _).
  destruct (walks_from now check_down us pts i key Hr Hi Hlen Hn Hg Hs Hb) as (rc & hp' & us' & E & H).
  eexists i, _, rc, hp', us'. split_and!; [done| |exact E|exact H]. unfold init_chash_peer. by rewrite Ei.
Qed.

(** C26: requests on the ring.  A new request returns; it starts at the next
    point of its key, walks at most 20 points further and gets a server of the
    first point that has one it may use, whatever the state of the servers
    of other points; if there is none the round robin serves it. *)
Theorem chash_request_walks now check_down us pts key :
  ring_of (rr_list (primary us)) pts -> Z.of_nat (length pts) + 21 < 2 ^ 32 ->
  Forall (fun p => nul_free (rr_server p)) (rr_list (primary us)) ->
  group_wf (primary us) -> single (primary us) = false -> backup us = None ->
  exists i hp rc hp' us', find_chash_point pts (ngx_crc32_long key) = Some i /\ init_chash_peer pts us key = Some hp
    /\ get_chash_peer now check_down pts hp us = Some (rc, hp', us')
    /\ walks now check_down (primary us) pts i rc (current (hp_rrp hp')).
Proof. apply chash_walks. Qed.

(** ** Examples *)

Example ex_host_port :
  chash_host_port (s2b "10.0.0.1:8080") = (s2b "10.0.0.1", s2b "8080") /\ chash_host_port (s2b "unix:/run/a") = (s2b "/run/a", [])
  /\ chash_host_port (s2b "backend") = (s2b "backend", []) /\ chash_host_port (s2b "[::1]:80") = (s2b "[::1]", s2b "80").
Proof. vm_compute. split_and!; reflexivity. Qed.

(** Two servers; the health checker has taken the second one down. *)
Definition ex_ch (name : string) (idx : Z) : rr_peer := mk_rr ex_addr (s2b name) 0 1 1 0 0 0 0 0 1 10 idx 0.

Definition ex_ch_us : rr_upstream :=
  mk_rr_upstream (mk_rr_peers 2 2 false false (s2b "u") [ex_ch "a:80" 0; ex_ch "b:80" 1]) None.

Definition ex_ch_less : rr_peers := mk_rr_peers 1 1 true false (s2b "u") [ex_ch "a:80" 0].

Lemma ex_ring_length : length <$> init_chash sort_points (primary ex_ch_us) = Some 320%nat.
Proof. vm_compute. reflexivity. Qed.

(** Both servers get keys; with the second one down its keys go to the first. *)
Example ex_ch_requests :
  (pts ← init_chash sort_points (primary ex_ch_us);
   mapM (fun k => '(_, hp, _) ← (hp ← init_chash_peer pts ex_ch_us (s2b k); get_chash_peer 100 ex_check_down pts hp ex_ch_us);
                  pt ← chash_home pts (s2b k); Some (pt_server pt, current (hp_rrp hp))) ["/a"; "/d"]%string)
  = Some [(s2b "b:80", Some 0%nat); (s2b "a:80", Some 0%nat)].
Proof. vm_compute. reflexivity. Qed.

Lemma chash_ring_next_witness :
  exists pts q, init_chash sort_points (primary ex_ch_us) = Some pts /\ ring_of (rr_list (primary ex_ch_us)) pts
    /\ chash_home pts (s2b "/a") = Some q /\ is_next (raw_points (rr_list (primary ex_ch_us))) (ngx_crc32_long (s2b "/a")) q.
Proof.
  apply (chash_ring_next sort_points (primary ex_ch_us) (ex_ch "a:80" 0)).
  - left.
  - reflexivity.
Defined.

Lemma point_hash_inj l a b : NoDup (pt_hash <$> l) -> a ∈ l -> b ∈ l -> pt_hash a = pt_hash b -> a = b.
Proof.
  intros Hnd [i Ha]%list_elem_of_lookup [j Hb]%list_elem_of_lookup E.
  assert (i = j); [|congruence]. eapply (NoDup_lookup (pt_hash <$> l)); [done| |]; rewrite list_lookup_fmap.
  - by rewrite Ha.
  - rewrite Hb. cbn. by f_equal.
Qed.

Lemma ex_points_distinct : NoDup (pt_hash <$> raw_points (rr_list (primary ex_ch_us))).
Proof. refine (bool_decide_unpack (NoDup (pt_hash <$> raw_points (rr_list (primary ex_ch_us)))) _). vm_compute. reflexivity. Qed.

Lemma chash_consistent_witness :
  exists pts pts' q q', init_chash sort_points (primary ex_ch_us) = Some pts /\ init_chash sort_points ex_ch_less = Some pts'
    /\ chash_home pts (s2b "/d") = Some q /\ chash_home pts' (s2b "/d") = Some q' /\ (pt_server q <> s2b "b:80" -> q' = q).
Proof.
  destruct (chash_consistent sort_points (primary ex_ch_us) ex_ch_less (s2b "b:80") (s2b "/d") (ex_ch "a:80" 0))
    as (pts & pts' & q & q' & E & E' & Eq & Eq' & [Hin _] & H).
  - reflexivity.
  - left.
  - reflexivity.
  - exists pts, pts', q, q'. split; [exact E|]. split; [exact E'|]. split; [exact Eq|]. split; [exact Eq'|].
    intros Hs. apply (H Hs). intros r Hr Eh. f_equal. exact (point_hash_inj _ r q ex_points_distinct Hr Hin Eh).
Defined.

Lemma ex_ring : exists pts, ring_of (rr_list (primary ex_ch_us)) pts /\ Z.of_nat (length pts) + 21 < 2 ^ 32.
Proof.
  destruct (init_chash_spec sort_points (primary ex_ch_us) (ex_ch "a:80" 0)) as (pts & E & Hr); [left|reflexivity|].
  exists pts. split; [exact Hr|]. pose proof ex_ring_length as H. rewrite E in H. injection H as ->. reflexivity.
Qed.

Lemma chash_request_walks_witness :
  exists pts i hp rc hp' us', find_chash_point pts (ngx_crc32_long (s2b "/a")) = Some i
    /\ init_chash_peer pts ex_ch_us (s2b "/a") = Some hp
    /\ get_chash_peer 100 ex_check_down pts hp ex_ch_us = Some (rc, hp', us')
    /\ walks 100 ex_check_down (primary ex_ch_us) pts i rc (current (hp_rrp hp')).
Proof.
  destruct ex_ring as (pts & Hr & Hlen). exists pts. apply (chash_request_walks 100 ex_check_down ex_ch_us pts (s2b "/a")).
  - exact Hr.
  - exact Hlen.
  - repeat constructor; discriminate.
  - discriminate.
  - reflexivity.
  - reflexivity.
Defined.
