(* ===== verification/RandomPeer.v ===== *)
(** * The [random] balancer

    [src/http/modules/ngx_http_upstream_random_module.c] and its copy in
    [src/stream], [random] and [random two least_conn].  The numbers
    [ngx_random] returns are a parameter: [rnd k] is the number of draw
    [k] of a call.  Both routines unlock what they lock on every path, so
    locks are left out.

    Neither routine asks the health checker; only the round robin they fall
    back on does ([random_ignores_health]). *)

From S2P Require Import Prelude NgxString StatusLine CheckTypes CheckProto CheckCore CheckSafety CheckWorker.
From S2P Require Import Inet FastCgiRequest CheckConf AddPeer RoundRobin LeastConn Crc32 HashPeer.

(** ** The ranges *)

(** [update_random]: [ranges[i].range]; [ranges[i].peer] is server [i]. *)
Fixpoint random_ranges (total_weight : Z) (l : list rr_peer) : list Z :=
  match l with
  | [] => []
  | p :: l => total_weight :: random_ranges (u64 (total_weight + weight p)) l
  end.

Definition update_random (us : rr_upstream) : list Z := random_ranges 0 (rr_list (primary us)).

(** The bisection of [peek_random_peer]. *)
Fixpoint peek_loop (fuel : nat) (ranges : list Z) (x : Z) (i j : nat) : option nat :=
  match fuel with
  | O => None
  | S fuel =>
    if (j - i <=? 1)%nat then Some i
    else
      let k := ((i + j) / 2)%nat in
      r ← ranges !! k;
      if x <? r then peek_loop fuel ranges x i k else peek_loop fuel ranges x k j
  end.

(** [peek_random_peer] with the number drawn; the fuel is the number of
    servers and one more. *)
Definition peek_random_peer (ranges : list Z) (ps : rr_peers) (r : Z) : option nat :=
  if total_weight ps =? 0 then None
  else peek_loop (S (Z.to_nat (number ps))) ranges (r mod total_weight ps) 0 (Z.to_nat (number ps)).

(** ** A request *)

(** [ngx_http_upstream_random_peer_data_t] *)
Record random_data := mk_random { rp_rrp : rr_data; rp_tries : Z }.

Section Random.
Context (now : Z) (check_down : Z -> bool) (rnd : nat -> Z) (ranges : list Z).

(** The tests that skip a server: those of the round robin without the health
    checker. *)
Definition passed_over (t : list Z) (i : nat) (p : rr_peer) : bool :=
  is_tried t i
  || negb (rr_down p =? 0)
  || (negb (max_fails p =? 0) && (max_fails p <=? fails p) && (now - rr_checked p <=? fail_timeout p))
  || (negb (max_conns p =? 0) && (max_conns p <=? conns p)).

(** [for ( ;; )] of [get_random_peer]: the chosen server and [rp->tries]. *)
Fixpoint random_loop (fuel k : nat) (t : list Z) (ps : rr_peers) (tries : Z) : option (option nat * Z) :=
  match fuel with
  | O => None
  | S fuel =>
    i ← peek_random_peer ranges ps (rnd k);
    p ← rr_list ps !! i;
    if passed_over t i p then
      if 20 <? tries + 1 then Some (None, tries + 1) else random_loop fuel (S k) t ps (tries + 1)
    else Some (Some i, tries)
  end.

(** [for ( ;; )] of [get_random2_peer]; [prev] is the position of the first
    server. *)
Fixpoint random2_loop (fuel k : nat) (t : list Z) (ps : rr_peers) (prev : option nat) (tries : Z)
    : option (option nat * Z) :=
  match fuel with
  | O => None
  | S fuel =>
    let next prev :=
      if 20 <? tries + 1 then Some (None, tries + 1) else random2_loop fuel (S k) t ps prev (tries + 1) in
    i ← peek_random_peer ranges ps (rnd k);
    p ← rr_list ps !! i;
    if bool_decide (prev = Some i) || passed_over t i p then next prev
    else match prev with
         | Some j => q ← rr_list ps !! j; Some (Some (if load_of q p <? load_of p q then j else i), tries)
         | None => next (Some i)
         end
  end.

(** What both routines do around the loop. *)
Definition random_get (loop : list Z -> rr_peers -> Z -> option (option nat * Z)) (rp : random_data) (us : rr_upstream)
    : option (ngx_rc * random_data * rr_upstream) :=
  let fallback tries :=
    '(rc, rrp, us) ← get_round_robin_peer now check_down (rp_rrp rp) us; Some (rc, mk_random rrp tries, us) in
  ps ← group_of (rp_rrp rp) us;
  if (20 <? rp_tries rp) || single ps then fallback (rp_tries rp)
  else
    '(r, tries) ← loop (tried (rp_rrp rp)) ps (rp_tries rp);
    match r with
    | None => fallback tries
    | Some i =>
      let us := set_group (rp_rrp rp) us (ps <| rr_list := alter (use_peer now) i (rr_list ps) |>) in
      let rrp := (rp_rrp rp) <| current := Some i |> <| tried := set_tried (tried (rp_rrp rp)) i |> in
      Some (NGX_OK, mk_random rrp tries, us)
    end.

Definition get_random_peer : random_data -> rr_upstream -> option (ngx_rc * random_data * rr_upstream) :=
  random_get (random_loop 21 0).

Definition get_random2_peer : random_data -> rr_upstream -> option (ngx_rc * random_data * rr_upstream) :=
  random_get (fun t ps => random2_loop 21 0 t ps None).

End Random.

(** [init_random_peer] *)
Definition init_random_peer (us : rr_upstream) : random_data := mk_random (init_round_robin_peer us) 0.

Definition ngx_http_upstream_update_random := update_random.
Definition ngx_stream_upstream_update_random := update_random.
Definition ngx_http_upstream_peek_random_peer := peek_random_peer.
Definition ngx_stream_upstream_peek_random_peer := peek_random_peer.
Definition ngx_http_upstream_get_random_peer := get_random_peer.
Definition ngx_stream_upstream_get_random_peer := get_random_peer.
Definition ngx_http_upstream_get_random2_peer := get_random2_peer.
Definition ngx_stream_upstream_get_random2_peer := get_random2_peer.
Definition ngx_http_upstream_init_random_peer := init_random_peer.
Definition ngx_stream_upstream_init_random_peer := init_random_peer.

(** ** Shares *)

Lemma random_ranges_lookup l a k :
  Forall (fun p => 0 <= weight p) l -> 0 <= a -> a + wsum l < 2 ^ 64 -> (k < length l)%nat ->
  random_ranges a l !! k = Some (a + wsum (take k l)).
Proof.
  intros H. revert a k; induction H as [|p l Hp H IH]; intros a k Ha Hs Hk; [cbn in Hk; lia|].
  cbn [wsum foldr] in Hs. fold (wsum l) in Hs. pose proof (wsum_nonneg l H). cbn [random_ranges].
  destruct k as [|k]; [cbn; f_equal; lia|]. cbn [lookup list_lookup take wsum foldr] in *. fold (wsum (take k l)).
  rewrite u64_small by (unfold in_u64; lia). cbn [length] in Hk.
  change (random_ranges (a + weight p) l !! k = Some (a + (weight p + wsum (take k l)))). rewrite IH by lia. f_equal. lia.
Qed.

(** The groups the balancer is set up for: the fields agree with the list and
    the weights fit their type. *)
Definition random_ok (ps : rr_peers) : Prop :=
  weights_ok ps /\ number ps = Z.of_nat (length (rr_list ps)) /\ total_weight ps < 2 ^ 64.

Lemma peek_loop_spec l x fuel i j :
  Forall (fun p => 0 <= weight p) l -> wsum l < 2 ^ 64 -> 0 <= x < wsum l ->
  (i < j <= length l)%nat -> (j - i <= fuel)%nat -> wsum (take i l) <= x < wsum (take j l) ->
  peek_loop fuel (random_ranges 0 l) x i j = by_weight x 0 l.
Proof.
  intros Hl Hs Hx. revert i j; induction fuel as [|fuel IH]; intros i j Hij Hf Hinv; [lia|]. cbn [peek_loop].
  destruct (Nat.leb_spec (j - i) 1) as [Hd|Hd].
  - replace j with (S i) in Hinv by lia. symmetry. apply (by_weight_spec l x 0 i Hl); [lia|]. split; [lia|done].
  - set (k := ((i + j) / 2)%nat). assert (Hk : (i < k < j)%nat).
    { unfold k. split; [apply Nat.lt_le_trans with (S i); [lia|apply Nat.div_le_lower_bound; lia]|apply Nat.Div0.div_lt_upper_bound; lia]. }
    rewrite (random_ranges_lookup l 0 k Hl) by lia. cbn [mbind option_bind]. rewrite Z.add_0_l.
    destruct (Z.ltb_spec x (wsum (take k l))); apply IH; lia.
Qed.

(** The bisection and the walk over the weights agree. *)
Lemma peek_by_weight us r :
  random_ok (primary us) ->
  peek_random_peer (update_random us) (primary us) r = by_weight (r mod total_weight (primary us)) 0 (rr_list (primary us)).
Proof.
  intros ((Hl & Ht & Hpos) & Hn & Hb). unfold peek_random_peer, update_random. destruct (Z.eqb_spec (total_weight (primary us)) 0); [lia|].
  rewrite Hn, Nat2Z.id. pose proof (Z.mod_pos_bound r _ Hpos) as Hr. destruct (rr_list (primary us)) as [|p l] eqn:El; [cbn in Ht; lia|].
  apply peek_loop_spec; [done|lia|lia|cbn [length]; lia|lia|]. rewrite firstn_all. change (wsum (take 0 (p :: l))) with 0. lia.
Qed.

Lemma numbers_of_length ps i p : weights_ok ps -> rr_list ps !! i = Some p -> Z.of_nat (length (numbers_of ps i)) = weight p.
Proof.
  intros Hw Hi. rewrite (numbers_of_range ps i p Hw Hi), length_seqZ. destruct Hw as (Hl & _).
  pose proof (Forall_lookup_1 _ _ _ _ Hl Hi). cbn in *. lia.
Qed.

Lemma filter_iff_in {A} (P Q : A -> Prop) `{forall x, Decision (P x)} `{forall x, Decision (Q x)} (l : list A) :
  (forall x, x ∈ l -> P x <-> Q x) -> filter P l = filter Q l.
Proof.
  induction l as [|x l IH]; intros Hx; [done|]. rewrite !filter_cons, IH by (intros; apply Hx; by right).
  specialize (Hx x ltac:(left)). do 2 case_decide; naive_solver.
Qed.

(** the bisection of [peek_random_peer] gives every server exactly its
    weight: of the [total_weight] numbers a draw is reduced to, [weight] lead
    to the server; it always finds a server of the group. *)
Theorem random_shares us i p :
  random_ok (primary us) -> rr_list (primary us) !! i = Some p ->
  Z.of_nat (length (filter (fun x => peek_random_peer (update_random us) (primary us) x = Some i)
                      (seqZ 0 (total_weight (primary us))))) = weight p
  /\ forall r, exists j q, peek_random_peer (update_random us) (primary us) r = Some j /\ rr_list (primary us) !! j = Some q.
Proof.
  intros Hok Hi. pose proof Hok as (Hw & _). split.
  - rewrite <- (numbers_of_length (primary us) i p Hw Hi). unfold numbers_of. f_equal. f_equal.
    apply filter_iff_in. intros x Hx%elem_of_seqZ. rewrite (peek_by_weight us x Hok), Z.mod_small by lia. done.
  - intros r. rewrite (peek_by_weight us r Hok). destruct Hw as (Hl & Ht & Hpos). apply by_weight_found; [done|].
    rewrite <- Ht. by apply Z.mod_pos_bound.
Qed.

(** ** The chosen server *)

Lemma passed_over_spec now t i p :
  passed_over now t i p = false <-> available now (fun _ => false) t i p.
Proof.
  rewrite <- skipped_available. unfold passed_over, skipped. rewrite !orb_false_iff. tauto.
Qed.

(** A server that may be used, apart from what the health checker says. *)
Definition passive_usable (now : Z) (ps : rr_peers) : rr_peer -> Prop := usable now (fun _ => false) ps.

Section Chosen.
Context (now : Z) (rnd : nat -> Z) (us : rr_upstream) (Hok : random_ok (primary us)).

Abbreviation ps := (primary us).
Abbreviation t := (tried (init_round_robin_peer us)).
Abbreviation ranges := (update_random us).

(** The server of draw [k]. *)
Definition drawn (k i : nat) : Prop := peek_random_peer ranges ps (rnd k) = Some i.

Lemma drawn_found k : exists i p, drawn k i /\ rr_list ps !! i = Some p.
Proof.
  unfold drawn. rewrite (peek_by_weight us (rnd k) Hok). destruct Hok as ((Hl & Ht & Hpos) & _). apply by_weight_found; [done|].
  rewrite <- Ht. by apply Z.mod_pos_bound.
Qed.

Lemma random_loop_spec fuel k tries :
  (21 - Z.to_nat tries <= fuel)%nat -> 0 <= tries <= 20 ->
  exists r tries', random_loop now rnd ranges fuel k t ps tries = Some (r, tries')
    /\ forall i, r = Some i -> exists p, rr_list ps !! i = Some p /\ available now (fun _ => false) t i p.
Proof.
  revert k tries; induction fuel as [|fuel IH]; intros k tries Hf Ht; [lia|]. cbn [random_loop].
  destruct (drawn_found k) as (i & p & Ei & Hp). rewrite Ei. cbn [mbind option_bind]. rewrite Hp. cbn [mbind option_bind].
  destruct (passed_over now t i p) eqn:E.
  - destruct (Z.ltb_spec 20 (tries + 1)); [by eexists None, _|]. apply IH; lia.
  - eexists (Some i), _. split; [reflexivity|]. intros j [= <-]. exists p. split; [done|]. by apply passed_over_spec.
Qed.

(** The two servers the second routine compares, and its choice. *)
Definition chosen_of_two (i : nat) : Prop :=
  exists a b p q x, rr_list ps !! a = Some p /\ rr_list ps !! b = Some q /\ a <> b
    /\ available now (fun _ => false) t a p /\ available now (fun _ => false) t b q
    /\ (i = a \/ i = b) /\ rr_list ps !! i = Some x /\ load_of x p <= load_of p x /\ load_of x q <= load_of q x.

Lemma random2_loop_spec fuel k prev tries :
  (21 - Z.to_nat tries <= fuel)%nat -> 0 <= tries <= 20 ->
  (forall j, prev = Some j -> exists q, rr_list ps !! j = Some q /\ available now (fun _ => false) t j q) ->
  exists r tries', random2_loop now rnd ranges fuel k t ps prev tries = Some (r, tries')
    /\ forall i, r = Some i -> chosen_of_two i.
Proof.
  revert k prev tries; induction fuel as [|fuel IH]; intros k prev tries Hf Ht Hprev; [lia|]. cbn [random2_loop].
  destruct (drawn_found k) as (i & p & Ei & Hp). rewrite Ei. cbn [mbind option_bind]. rewrite Hp. cbn [mbind option_bind].
  assert (Hnext : forall prev', (forall j, prev' = Some j -> exists q, rr_list ps !! j = Some q /\ available now (fun _ => false) t j q) ->
            exists r tries', (if 20 <? tries + 1 then Some (None, tries + 1) else random2_loop now rnd ranges fuel (S k) t ps prev' (tries + 1))
              = Some (r, tries') /\ forall i, r = Some i -> chosen_of_two i).
  { intros prev' Hp'. destruct (Z.ltb_spec 20 (tries + 1)); [by eexists None, _|]. apply IH; [lia..|done]. }
  destruct (bool_decide (prev = Some i) || passed_over now t i p) eqn:E; [by apply Hnext|].
  rewrite orb_false_iff, bool_decide_eq_false, passed_over_spec in E. destruct E as [Hne Ha].
  destruct prev as [j|]; [|apply Hnext; intros ? [= <-]; by exists p].
  destruct (Hprev j eq_refl) as (q & Hq & Haq). rewrite Hq. cbn [mbind option_bind].
  eexists (Some (if load_of q p <? load_of p q then j else i)), _. split; [reflexivity|]. intros c [= <-].
  assert (Hij : i <> j) by congruence. exists i, j, p, q.
  destruct (Z.ltb_spec (load_of q p) (load_of p q)); [exists q|exists p]; split_and!; auto; lia.
Qed.

End Chosen.

(** ** Requests *)

Section Requests.
Context (now : Z) (check_down : Z -> bool) (rnd : nat -> Z) (us : rr_upstream).
Context (Hok : random_ok (primary us)) (Hg : group_wf (primary us)) (Hs : single (primary us) = false) (Hb : backup us = None).

(** What the round robin finds for a new request. *)
Definition rr_served (rc : ngx_rc) (cur : option nat) : Prop :=
  (rc = NGX_OK /\ exists i p, cur = Some i /\ rr_list (primary us) !! i = Some p /\ usable now check_down (primary us) p)
  \/ rc = NGX_BUSY /\ forall p, p ∈ rr_list (primary us) -> ~ usable now check_down (primary us) p.

Lemma random_get_spec (Q : nat -> Prop) loop :
  (exists r tries, loop (tried (init_round_robin_peer us)) (primary us) 0 = Some (r, tries) /\ forall i, r = Some i -> Q i) ->
  exists rc rp us', random_get now check_down loop (init_random_peer us) us = Some (rc, rp, us')
    /\ ((rc = NGX_OK /\ exists i, current (rp_rrp rp) = Some i /\ Q i) \/ rr_served rc (current (rp_rrp rp))).
Proof.
  intros (r & tries & E & HQ). unfold random_get. cbn [init_random_peer rp_rrp rp_tries].
  change (group_of (init_round_robin_peer us) us) with (Some (primary us)). cbn [mbind option_bind]. rewrite Hs. cbn [orb Z.ltb Z.compare].
  rewrite (bind_some _ _ _ E). cbn beta iota. destruct r as [i|].
  - eexists _, _, _. split; [reflexivity|]. left. split; [done|]. exists i. by split; [|apply HQ].
  - destruct (fallback_spec now check_down us Hg Hb) as (rc & rrp & us' & E' & H). rewrite (bind_some _ _ _ E').
    eexists _, _, _. split; [reflexivity|]. by right.
Qed.

(** [random]: the request returns, with a server that may be used but for the
    health checker, or with the answer of the round robin. *)
Lemma random_request_served :
  exists rc rp us', get_random_peer now check_down rnd (update_random us) (init_random_peer us) us = Some (rc, rp, us')
    /\ ((rc = NGX_OK /\ exists i, current (rp_rrp rp) = Some i
           /\ exists p, rr_list (primary us) !! i = Some p /\ passive_usable now (primary us) p)
        \/ rr_served rc (current (rp_rrp rp))).
Proof.
  apply (random_get_spec (fun i => exists p, rr_list (primary us) !! i = Some p /\ passive_usable now (primary us) p)).
  destruct (random_loop_spec now rnd us Hok 21 0 0) as (r & tries & E & H); [cbn; lia|lia|]. exists r, tries. split; [done|].
  intros i (p & Hp & Ha)%H. exists p. split; [done|]. unfold passive_usable. by apply (fresh_usable now (fun _ => false) us i p Hs).
Qed.

Lemma random_two_served :
  loads_ok (rr_list (primary us)) ->
  exists rc rp us', get_random2_peer now check_down rnd (update_random us) (init_random_peer us) us = Some (rc, rp, us')
    /\ ((rc = NGX_OK /\ exists i, current (rp_rrp rp) = Some i
           /\ exists a b p q x, rr_list (primary us) !! a = Some p /\ rr_list (primary us) !! b = Some q /\ a <> b
                /\ passive_usable now (primary us) p /\ passive_usable now (primary us) q
                /\ (i = a \/ i = b) /\ rr_list (primary us) !! i = Some x /\ le_load x p /\ le_load x q)
        \/ rr_served rc (current (rp_rrp rp))).
Proof.
  intros Hl. apply (random_get_spec (fun i => exists a b p q x, rr_list (primary us) !! a = Some p /\ rr_list (primary us) !! b = Some q /\ a <> b
                /\ passive_usable now (primary us) p /\ passive_usable now (primary us) q
                /\ (i = a \/ i = b) /\ rr_list (primary us) !! i = Some x /\ le_load x p /\ le_load x q)).
  destruct (random2_loop_spec now rnd us Hok 21 0 None 0) as (r & tries & E & H); [cbn; lia|lia|done|]. exists r, tries. split; [done|].
  intros i (a & b & p & q & x & Hp & Hq & Hab & Hap & Haq & Hi & Hx & H1 & H2)%H. exists a, b, p, q, x.
  assert (Hin : p ∈ rr_list (primary us) /\ q ∈ rr_list (primary us) /\ x ∈ rr_list (primary us)) by (split_and!; by eapply list_elem_of_lookup_2).
  destruct Hin as (Ip & Iq & Ix). rewrite !(load_of_small (rr_list (primary us))) in H1, H2 by done. unfold passive_usable, le_load.
  split_and!; try done; [by apply (fresh_usable now (fun _ => false) us a p Hs)|by apply (fresh_usable now (fun _ => false) us b q Hs)].
Qed.

(** [random two]: the request returns; the server it gets is one of two
    different servers that were drawn and may be used (but for the health
    checker), and has no more connections for its weight than the other one;
    when 21 draws give no two such servers the round robin serves it. *)
Theorem random_two_least :
  loads_ok (rr_list (primary us)) ->
  exists rc rp us', get_random2_peer now check_down rnd (update_random us) (init_random_peer us) us = Some (rc, rp, us')
    /\ ((rc = NGX_OK /\ exists i, current (rp_rrp rp) = Some i
           /\ exists a b p q x, rr_list (primary us) !! a = Some p /\ rr_list (primary us) !! b = Some q /\ a <> b
                /\ passive_usable now (primary us) p /\ passive_usable now (primary us) q
                /\ (i = a \/ i = b) /\ rr_list (primary us) !! i = Some x /\ le_load x p /\ le_load x q)
        \/ rr_served rc (current (rp_rrp rp))).
Proof. apply random_two_served. Qed.

(** [random] does not ask the health checker.  A request whose first draw
    leads to a server that is up for the passive checks is sent to that server
    whatever the health checker says of it; in the witness it is down. *)
Theorem random_ignores_health i p :
  peek_random_peer (update_random us) (primary us) (rnd 0) = Some i -> rr_list (primary us) !! i = Some p ->
  passive_usable now (primary us) p ->
  exists rp us', get_random_peer now check_down rnd (update_random us) (init_random_peer us) us = Some (NGX_OK, rp, us')
    /\ current (rp_rrp rp) = Some i.
Proof using Hs.
  intros Ei Hp Hu. unfold get_random_peer, random_get. cbn [init_random_peer rp_rrp rp_tries].
  change (group_of (init_round_robin_peer us) us) with (Some (primary us)). cbn [mbind option_bind]. rewrite Hs. cbn [orb Z.ltb Z.compare].
  assert (E : random_loop now rnd (update_random us) 21 0 (tried (init_round_robin_peer us)) (primary us) 0 = Some (Some i, 0)).
  { cbn [random_loop]. rewrite Ei. cbn [mbind option_bind]. rewrite Hp. cbn [mbind option_bind].
    apply (fresh_usable now (fun _ => false) us i p Hs), passed_over_spec in Hu. by rewrite Hu. }
  rewrite (bind_some _ _ _ E). eexists _, _. by split.
Qed.

End Requests.

(** ** Examples *)

(** The three servers of weights 3, 1 and 2 with the second one down; draws
    that count upwards. *)
Definition ex_draws (k : nat) : Z := Z.of_nat k.

Example ex_peeks :
  (fun x => peek_random_peer (update_random ex_rr_us) (primary ex_rr_us) x) <$> [0; 1; 2; 3; 4; 5; 6]
  = [Some 0; Some 0; Some 0; Some 1; Some 2; Some 2; Some 0]%nat.
Proof. vm_compute. reflexivity. Qed.

Lemma ex_random_ok : random_ok (primary ex_rr_us).
Proof. split; [exact ex_weights_ok|split; reflexivity]. Qed.

Lemma random_shares_witness :
  Z.of_nat (length (filter (fun x => peek_random_peer (update_random ex_rr_us) (primary ex_rr_us) x = Some 2%nat) (seqZ 0 6))) = 2
  /\ forall r, exists j q, peek_random_peer (update_random ex_rr_us) (primary ex_rr_us) r = Some j /\ rr_list (primary ex_rr_us) !! j = Some q.
Proof.
  apply (random_shares ex_rr_us 2%nat (ex_rr 2 2)).
  - exact ex_random_ok.
  - reflexivity.
Defined.

Lemma ex_random_loads_ok : loads_ok (rr_list (primary ex_rr_us)).
Proof.
  intros p q Hp Hq. change (rr_list (primary ex_rr_us)) with [ex_rr 3 0; ex_rr 1 1; ex_rr 2 2] in *.
  rewrite !elem_of_cons, elem_of_nil in Hp. destruct Hp as [->|[->|[->|[]]]]; cbn; lia.
Qed.

Lemma random_two_least_witness :
  exists rc rp us', get_random2_peer 100 ex_check_down ex_draws (update_random ex_rr_us) (init_random_peer ex_rr_us) ex_rr_us = Some (rc, rp, us')
    /\ ((rc = NGX_OK /\ exists i, current (rp_rrp rp) = Some i
           /\ exists a b p q x, rr_list (primary ex_rr_us) !! a = Some p /\ rr_list (primary ex_rr_us) !! b = Some q /\ a <> b
                /\ passive_usable 100 (primary ex_rr_us) p /\ passive_usable 100 (primary ex_rr_us) q
                /\ (i = a \/ i = b) /\ rr_list (primary ex_rr_us) !! i = Some x /\ le_load x p /\ le_load x q)
        \/ rr_served 100 ex_check_down ex_rr_us rc (current (rp_rrp rp))).
Proof.
  apply (random_two_least 100 ex_check_down ex_draws ex_rr_us).
  - exact ex_random_ok.
  - discriminate.
  - reflexivity.
  - reflexivity.
  - exact ex_random_loads_ok.
Defined.

Lemma random_ignores_health_witness :
  ex_check_down (check_index (ex_rr 1 1)) = true
  /\ exists rp us', get_random_peer 100 ex_check_down (fun k => 3) (update_random ex_rr_us) (init_random_peer ex_rr_us) ex_rr_us
      = Some (NGX_OK, rp, us') /\ current (rp_rrp rp) = Some 1%nat.
Proof.
  split; [reflexivity|]. apply (random_ignores_health 100 ex_check_down (fun k => 3) ex_rr_us eq_refl 1%nat (ex_rr 1 1)).
  - vm_compute. reflexivity.
  - reflexivity.
  - split_and!; [reflexivity|reflexivity|right; right; left; reflexivity|left; reflexivity].
Defined.
