(* ===== verification/ParseTime.v ===== *)
(** * Durations in the configuration

    [ngx_parse_time] of [src/core/ngx_parse.c], which reads [fail_timeout] of
    a server.  Products and sums are taken at the width of [ngx_int_t]; the
    theorem shows that the tests before them rule out an overflow. *)

From S2P Require Import Prelude NgxString.

(** The steps, from the largest unit to the smallest. *)
Definition st_start : Z := 0.
Definition st_year : Z := 1.
Definition st_month : Z := 2.
Definition st_week : Z := 3.
Definition st_day : Z := 4.
Definition st_hour : Z := 5.
Definition st_min : Z := 6.
Definition st_sec : Z := 7.
Definition st_msec : Z := 8.
Definition st_last : Z := 9.

(** The [switch]: [step], [max], [scale] and the rest of the line. *)
Definition time_unit (is_sec : bool) (step : Z) (c : Z) (p : bytes) : option (Z * Z * Z * bytes) :=
  let unit (bad : bool) st scale p := if bad then None else Some (st, Z.quot NGX_MAX_INT_T_VALUE scale, scale, p) in
  if c =? ch "y" then unit (st_start <? step) st_year (60 * 60 * 24 * 365) p
  else if c =? ch "M" then unit (st_month <=? step) st_month (60 * 60 * 24 * 30) p
  else if c =? ch "w" then unit (st_week <=? step) st_week (60 * 60 * 24 * 7) p
  else if c =? ch "d" then unit (st_day <=? step) st_day (60 * 60 * 24) p
  else if c =? ch "h" then unit (st_hour <=? step) st_hour (60 * 60) p
  else if c =? ch "m" then
    match p with
    | s :: p' => if s =? ch "s" then unit (is_sec || (st_msec <=? step)) st_msec 1 p' else unit (st_min <=? step) st_min 60 p
    | [] => unit (st_min <=? step) st_min 60 p
    end
  else if c =? ch "s" then unit (st_sec <=? step) st_sec 1 p
  else if c =? ch " " then unit (st_sec <=? step) st_last 1 p
  else None.

(** [while (p < last && *p == ' ')] *)
Fixpoint skip_spaces (p : bytes) : bytes :=
  match p with
  | c :: p' => if c =? ch " " then skip_spaces p' else p
  | [] => []
  end.

(** What the loop ends with; [TRest] for want of fuel. *)
Inductive time_res : Set := TError | TDone (value total : Z) (valid : bool) | TRest.

(** Every round consumes a character. *)
Fixpoint time_loop (fuel : nat) (is_sec : bool) (p : bytes) (step value total : Z) (valid : bool) : time_res :=
  match p with
  | [] => TDone value total valid
  | c :: p' =>
    match fuel with
    | O => TRest
    | S fuel =>
      if (ch "0" <=? c) && (c <=? ch "9") then
        let cutoff := Z.quot NGX_MAX_INT_T_VALUE 10 in
        let cutlim := Z.rem NGX_MAX_INT_T_VALUE 10 in
        if (cutoff <=? value) && ((cutoff <? value) || (cutlim <? c - ch "0")) then TError
        else time_loop fuel is_sec p' step (i64 (value * 10 + (c - ch "0"))) total true
      else
        match time_unit is_sec step c p' with
        | None => TError
        | Some (step, max, scale, p) =>
          let '(scale, max) := if negb (step =? st_msec) && negb is_sec then (scale * 1000, Z.quot max 1000) else (scale, max) in
          if max <? value then TError
          else
            let value := i64 (value * scale) in
            if i64 (NGX_MAX_INT_T_VALUE - value) <? total then TError
            else time_loop fuel is_sec (skip_spaces p) step 0 (i64 (total + value)) valid
        end
    end
  end.

(** [ngx_parse_time]; [None] stands for [NGX_ERROR]. *)
Definition ngx_parse_time (line : bytes) (is_sec : bool) : option Z :=
  match time_loop (length line) is_sec line (if is_sec then st_start else st_month) 0 0 false with
  | TDone value total valid =>
    if negb valid then None
    else if negb is_sec && (Z.quot NGX_MAX_INT_T_VALUE 1000 <? value) then None
    else
      let value := if is_sec then value else i64 (value * 1000) in
      if i64 (NGX_MAX_INT_T_VALUE - value) <? total then None else Some (i64 (total + value))
  | _ => None
  end.

Example time_examples :
  ngx_parse_time (s2b "10") true = Some 10 /\ ngx_parse_time (s2b "1h 30m") true = Some 5400
  /\ ngx_parse_time (s2b "1h 30m") false = Some 5400000 /\ ngx_parse_time (s2b "250ms") false = Some 250
  /\ ngx_parse_time (s2b "250ms") true = None /\ ngx_parse_time (s2b "1m 1h") true = None /\ ngx_parse_time (s2b "") true = None
  /\ ngx_parse_time (s2b "9223372036854775808") true = None /\ ngx_parse_time (s2b "1y 2M 3w 4d 5h 6m 7s") true = Some 38898367.
Proof. vm_compute. split_and!; reflexivity. Qed.

(** ** Durations as they are written *)

Inductive tunit : Set := Uyear | Umonth | Uweek | Uday | Uhour | Umin | Usec | Umsec.

Definition ustep (u : tunit) : Z :=
  match u with
  | Uyear => st_year | Umonth => st_month | Uweek => st_week | Uday => st_day
  | Uhour => st_hour | Umin => st_min | Usec => st_sec | Umsec => st_msec
  end.

Definition utext (u : tunit) : bytes :=
  s2b (match u with
       | Uyear => "y" | Umonth => "M" | Uweek => "w" | Uday => "d" | Uhour => "h" | Umin => "m" | Usec => "s" | Umsec => "ms"
       end).

Definition useconds (u : tunit) : Z :=
  match u with
  | Uyear => 365 * 86400 | Umonth => 30 * 86400 | Uweek => 7 * 86400 | Uday => 86400
  | Uhour => 3600 | Umin => 60 | Usec => 1 | Umsec => 1
  end.

(** What a unit is worth in the unit of the answer. *)
Definition uscale (is_sec : bool) (u : tunit) : Z :=
  match u with Umsec => 1 | _ => if is_sec then useconds u else 1000 * useconds u end.

(** A number with its unit and the spaces after it. *)
Record item := mk_item { it_digits : bytes; it_unit : tunit; it_spaces : nat }.

Definition item_text (x : item) : bytes := it_digits x ++ utext (it_unit x) ++ replicate (it_spaces x) (ch " ").

Definition item_value (is_sec : bool) (x : item) : Z := dec_value (it_digits x) * uscale is_sec (it_unit x).

(** Units from the largest to the smallest, from [step] on; milliseconds only
    where the answer is in milliseconds. *)
Fixpoint items_ok (is_sec : bool) (step : Z) (l : list item) : Prop :=
  match l with
  | [] => True
  | x :: l => it_digits x <> [] /\ Forall is_digit (it_digits x) /\ step < ustep (it_unit x)
              /\ (is_sec = true -> it_unit x <> Umsec) /\ items_ok is_sec (ustep (it_unit x)) l
  end.

Definition items_value (is_sec : bool) (l : list item) : Z := foldr (fun x s => item_value is_sec x + s) 0 l.

Lemma dec_value_nonneg ds : Forall is_digit ds -> 0 <= dec_value ds.
Proof. intros H. unfold dec_value. by apply dec_from_ge. Qed.

Lemma uscale_pos is_sec u : 0 < uscale is_sec u.
Proof. destruct is_sec, u; cbn; lia. Qed.

Lemma items_value_nonneg is_sec step l : items_ok is_sec step l -> 0 <= items_value is_sec l.
Proof.
  unfold items_value. revert step; induction l as [|x l IH]; intros step; cbn; [lia|]. intros (_ & Hd & _ & _ & H).
  apply Z.add_nonneg_nonneg; [|by eapply IH]. unfold item_value. pose proof (uscale_pos is_sec (it_unit x)).
  apply Z.mul_nonneg_nonneg; [by apply dec_value_nonneg|lia].
Qed.

Lemma digit_range c : is_digit c -> (ch "0" <=? c) && (c <=? ch "9") = true.
Proof. intros [H1 H2]. apply andb_true_iff. rewrite !Z.leb_le. done. Qed.

(** Reading digits. *)
Lemma time_loop_digits ds fuel is_sec p step value total valid :
  Forall is_digit ds -> 0 <= value -> dec_from value ds <= NGX_MAX_INT_T_VALUE ->
  time_loop (length ds + fuel) is_sec (ds ++ p) step value total valid
  = time_loop fuel is_sec p step (dec_from value ds) total (if bool_decide (ds = []) then valid else true).
Proof.
  intros Hd. revert value valid; induction Hd as [|c ds Hc Hd IH]; intros value valid Hv Hm; [done|].
  rewrite bool_decide_eq_false_2 by done. cbn [length Nat.add app time_loop]. rewrite (digit_range c Hc).
  change (dec_from value (c :: ds)) with (dec_from (value * 10 + (c - 48)) ds) in *.
  pose proof (dec_from_ge (value * 10 + (c - 48)) ds) as Hge. destruct Hc as [Hc1 Hc2].
  change (ch "0") with 48 in *. change (ch "9") with 57 in *. specialize (Hge ltac:(lia) Hd).
  destruct (_ && _) eqn:E.
  { exfalso. rewrite andb_true_iff, orb_true_iff, Z.leb_le, !Z.ltb_lt in E. unfold NGX_MAX_INT_T_VALUE in *.
    change (Z.quot 9223372036854775807 10) with 922337203685477580 in E. change (Z.rem 9223372036854775807 10) with 7 in E. lia. }
  rewrite i64_small by (unfold NGX_MAX_INT_T_VALUE in *; lia). rewrite IH by (lia || done). by case_bool_decide.
Qed.

Lemma skip_spaces_replicate k q : match q with c :: _ => c <> ch " " | [] => True end -> skip_spaces (replicate k (ch " ") ++ q) = q.
Proof.
  intros H. induction k as [|k IH]; cbn [replicate app skip_spaces]; [|by rewrite Z.eqb_refl].
  destruct q as [|c q]; [done|]. cbn [skip_spaces]. by destruct (Z.eqb_spec c (ch " ")).
Qed.

(** The text after a unit starts with neither an [s] nor a space. *)
Definition next_ok (q : bytes) : Prop := match q with c :: _ => c <> ch " " /\ c <> ch "s" | [] => True end.

Lemma time_unit_of u is_sec step q k :
  step < ustep u -> (is_sec = true -> u <> Umsec) -> next_ok q ->
  exists c p, utext u ++ replicate k (ch " ") ++ q = c :: p /\ (ch "0" <=? c) && (c <=? ch "9") = false
    /\ time_unit is_sec step c p = Some (ustep u, Z.quot NGX_MAX_INT_T_VALUE (useconds u), useconds u, replicate k (ch " ") ++ q).
Proof.
  intros Hs Hm Hq.
  destruct u; cbn [ustep] in Hs; unfold st_year, st_month, st_week, st_day, st_hour, st_min, st_sec, st_msec in Hs;
    [exists (ch "y"), (replicate k (ch " ") ++ q)|exists (ch "M"), (replicate k (ch " ") ++ q)|exists (ch "w"), (replicate k (ch " ") ++ q)
    |exists (ch "d"), (replicate k (ch " ") ++ q)|exists (ch "h"), (replicate k (ch " ") ++ q)|exists (ch "m"), (replicate k (ch " ") ++ q)
    |exists (ch "s"), (replicate k (ch " ") ++ q)|exists (ch "m"), (ch "s" :: replicate k (ch " ") ++ q)];
    (split; [reflexivity|]); (split; [reflexivity|]).
  - change (time_unit is_sec step (ch "y") ?p) with (if st_start <? step then None else Some (st_year, Z.quot NGX_MAX_INT_T_VALUE (60 * 60 * 24 * 365), 60 * 60 * 24 * 365, p)).
    unfold st_start. destruct (Z.ltb_spec 0 step); [lia|reflexivity].
  - change (time_unit is_sec step (ch "M") ?p) with (if st_month <=? step then None else Some (st_month, Z.quot NGX_MAX_INT_T_VALUE (60 * 60 * 24 * 30), 60 * 60 * 24 * 30, p)).
    unfold st_month. destruct (Z.leb_spec 2 step); [lia|reflexivity].
  - change (time_unit is_sec step (ch "w") ?p) with (if st_week <=? step then None else Some (st_week, Z.quot NGX_MAX_INT_T_VALUE (60 * 60 * 24 * 7), 60 * 60 * 24 * 7, p)).
    unfold st_week. destruct (Z.leb_spec 3 step); [lia|reflexivity].
  - change (time_unit is_sec step (ch "d") ?p) with (if st_day <=? step then None else Some (st_day, Z.quot NGX_MAX_INT_T_VALUE (60 * 60 * 24), 60 * 60 * 24, p)).
    unfold st_day. destruct (Z.leb_spec 4 step); [lia|reflexivity].
  - change (time_unit is_sec step (ch "h") ?p) with (if st_hour <=? step then None else Some (st_hour, Z.quot NGX_MAX_INT_T_VALUE (60 * 60), 60 * 60, p)).
    unfold st_hour. destruct (Z.leb_spec 5 step); [lia|reflexivity].
  - set (r := replicate k (ch " ") ++ q). assert (Hr : match r with c :: _ => c <> ch "s" | [] => True end).
    { subst r. destruct k; [destruct q; [done|by destruct Hq]|done]. }
    change (time_unit is_sec step (ch "m") r) with
      (match r with
       | s :: p' => if s =? ch "s" then (if is_sec || (st_msec <=? step) then None else Some (st_msec, Z.quot NGX_MAX_INT_T_VALUE 1, 1, p'))
                    else if st_min <=? step then None else Some (st_min, Z.quot NGX_MAX_INT_T_VALUE 60, 60, r)
       | [] => if st_min <=? step then None else Some (st_min, Z.quot NGX_MAX_INT_T_VALUE 60, 60, r)
       end).
    unfold st_min. destruct r as [|s p']; [|destruct (Z.eqb_spec s (ch "s")); [done|]]; (destruct (Z.leb_spec 6 step); [lia|reflexivity]).
  - change (time_unit is_sec step (ch "s") ?p) with (if st_sec <=? step then None else Some (st_sec, Z.quot NGX_MAX_INT_T_VALUE 1, 1, p)).
    unfold st_sec. destruct (Z.leb_spec 7 step); [lia|reflexivity].
  - change (time_unit is_sec step (ch "m") (ch "s" :: ?p)) with (if is_sec || (st_msec <=? step) then None else Some (st_msec, Z.quot NGX_MAX_INT_T_VALUE 1, 1, p)).
    destruct is_sec; [by destruct Hm|]. unfold st_msec. cbn [orb]. destruct (Z.leb_spec 8 step); [lia|reflexivity].
Qed.

Lemma time_loop_unit u fuel is_sec step q k value total valid :
  step < ustep u -> (is_sec = true -> u <> Umsec) -> next_ok q ->
  0 <= value -> 0 <= total -> total + value * uscale is_sec u <= NGX_MAX_INT_T_VALUE ->
  time_loop (S fuel) is_sec (utext u ++ replicate k (ch " ") ++ q) step value total valid
  = time_loop fuel is_sec q (ustep u) 0 (total + value * uscale is_sec u) valid.
Proof.
  intros Hs Hm Hq Hv Ht Hb. destruct (time_unit_of u is_sec step q k Hs Hm Hq) as (c & p & -> & Hd & E).
  cbn [time_loop]. rewrite Hd, E. set (sm := if _ : bool then _ else _).
  assert (Hsm : fst sm = uscale is_sec u /\ (snd sm <? value) = false).
  { pose proof (uscale_pos is_sec u). unfold NGX_MAX_INT_T_VALUE in *. subst sm.
    assert (Hle : forall s, 0 < s -> value * s <= 9223372036854775807 -> (Z.quot 9223372036854775807 s <? value) = false).
    { intros s Hs0 Hle. apply Z.ltb_ge. rewrite Z.quot_div_nonneg by lia. apply Z.div_le_lower_bound; lia. }
    assert (Hle2 : forall s, 0 < s -> value * (1000 * s) <= 9223372036854775807 -> (Z.quot (Z.quot 9223372036854775807 s) 1000 <? value) = false).
    { intros s Hs0 Hle2. rewrite Z.quot_quot by lia. apply Hle; lia. }
    destruct is_sec; [rewrite andb_false_r; split; [destruct u; done || by destruct Hm|]|].
    - cbn [snd]. apply Hle; destruct u; cbn [useconds uscale] in *; lia.
    - destruct u; cbn [negb andb fst snd]; (split; [reflexivity|]); first [apply Hle2|apply Hle]; cbn [useconds uscale] in *; lia. }
  destruct sm as [scale max]. cbn [fst snd] in Hsm. destruct Hsm as [-> ->].
  pose proof (uscale_pos is_sec u). unfold NGX_MAX_INT_T_VALUE in *.
  rewrite (i64_small (value * uscale is_sec u)) by nia. rewrite (i64_small (9223372036854775807 - _)) by nia.
  destruct (Z.ltb_spec (9223372036854775807 - value * uscale is_sec u) total); [lia|].
  rewrite i64_small by nia. rewrite skip_spaces_replicate; [done|]. destruct q; [done|by destruct Hq].
Qed.

Lemma next_ok_digit ds q : next_ok q -> Forall is_digit ds -> next_ok (ds ++ q).
Proof.
  intros Hq Hd. destruct Hd as [|c ds [H1 H2] Hd]; [done|]. cbn. change (ch "0") with 48 in *. change (ch "9") with 57 in *.
  change (ch " ") with 32. change (ch "s") with 115. lia.
Qed.

(** The value of a number without a unit. *)
Definition plain (is_sec : bool) : Z := if is_sec then 1 else 1000.

Definition time_text (l : list item) (tail : bytes) : bytes := flat_map item_text l ++ tail.

Lemma next_ok_text is_sec step l tail : items_ok is_sec step l -> Forall is_digit tail -> next_ok (time_text l tail).
Proof.
  intros Hl Ht. unfold time_text. destruct l as [|x l]; cbn [flat_map app]; [rewrite <- (app_nil_r tail); by apply next_ok_digit|].
  destruct Hl as (Hne & Hd & _). unfold item_text. rewrite <- !app_assoc.
  destruct Hd as [|c ds [H1 H2] Hd]; [done|]. cbn. change (ch "0") with 48 in *. change (ch "9") with 57 in *.
  change (ch " ") with 32. change (ch "s") with 115. lia.
Qed.

Lemma time_loop_tail tail fuel is_sec step total valid :
  Forall is_digit tail -> (length tail <= fuel)%nat -> dec_value tail <= NGX_MAX_INT_T_VALUE ->
  time_loop fuel is_sec tail step 0 total valid = TDone (dec_value tail) total (match tail with [] => valid | _ => true end).
Proof.
  intros Hd Hf Hm. pose proof (time_loop_digits tail (fuel - length tail) is_sec [] step 0 total valid Hd ltac:(lia) Hm) as H.
  rewrite app_nil_r in H. replace (length tail + (fuel - length tail))%nat with fuel in H by lia. rewrite H.
  destruct (fuel - length tail)%nat; cbn [time_loop]; by destruct tail.
Qed.

Lemma time_loop_items is_sec l tail fuel step total valid :
  items_ok is_sec step l -> Forall is_digit tail -> 0 <= total ->
  total + items_value is_sec l + dec_value tail * plain is_sec <= NGX_MAX_INT_T_VALUE ->
  (length (time_text l tail) <= fuel)%nat ->
  time_loop fuel is_sec (time_text l tail) step 0 total valid
  = TDone (dec_value tail) (total + items_value is_sec l) (valid || negb (bool_decide (l = [] /\ tail = []))).
Proof.
  intros Hl Ht. pose proof (dec_value_nonneg _ Ht) as Htn. revert fuel step total valid Hl.
  induction l as [|x l IH]; intros fuel step total valid Hl Htot Hmax Hf.
  - unfold time_text, items_value in *. cbn [flat_map app foldr] in *. rewrite time_loop_tail; [|done|done|].
    + rewrite Z.add_0_r. f_equal. destruct tail; [rewrite bool_decide_eq_true_2 by done|rewrite bool_decide_eq_false_2 by naive_solver]; by destruct valid.
    + unfold plain in *. destruct is_sec; lia.
  - pose proof (next_ok_text is_sec _ l tail (proj2 (proj2 (proj2 (proj2 Hl)))) Ht) as Hq.
    destruct Hl as (Hne & Hd & Hs & Hm & Hl). pose proof (dec_value_nonneg _ Hd) as Hdn. pose proof (items_value_nonneg _ _ _ Hl) as Hln.
    assert (Ev : items_value is_sec (x :: l) = dec_value (it_digits x) * uscale is_sec (it_unit x) + items_value is_sec l) by reflexivity.
    rewrite Ev in *. pose proof (uscale_pos is_sec (it_unit x)) as Hu. assert (Hpl : 0 < plain is_sec) by (by destruct is_sec).
    assert (Et : time_text (x :: l) tail = it_digits x ++ (utext (it_unit x) ++ replicate (it_spaces x) (ch " ") ++ time_text l tail)).
    { unfold time_text, item_text. cbn [flat_map]. by rewrite <- !app_assoc. }
    rewrite Et in *. rewrite !length_app in Hf. assert (Hu1 : (1 <= length (utext (it_unit x)))%nat) by (destruct (it_unit x); cbn; lia).
    replace fuel with (length (it_digits x) + S (fuel - length (it_digits x) - 1))%nat by lia.
    rewrite time_loop_digits; [|done|lia|unfold dec_value in *; nia]. fold (dec_value (it_digits x)).
    rewrite (bool_decide_eq_false_2 (it_digits x = [])) by done.
    rewrite time_loop_unit; [|done|done|done|lia|lia|nia].
    rewrite IH; [|done|nia|lia|lia]. rewrite (bool_decide_eq_false_2 (x :: l = [] /\ tail = [])) by naive_solver.
    rewrite orb_true_r. cbn [orb]. f_equal. lia.
Qed.

Lemma parse_time_items is_sec l tail :
  items_ok is_sec (if is_sec then st_start else st_month) l -> Forall is_digit tail -> (l <> [] \/ tail <> []) ->
  items_value is_sec l + dec_value tail * plain is_sec <= NGX_MAX_INT_T_VALUE ->
  ngx_parse_time (time_text l tail) is_sec = Some (items_value is_sec l + dec_value tail * plain is_sec).
Proof.
  intros Hl Ht Hne Hb. pose proof (dec_value_nonneg _ Ht) as Htn. pose proof (items_value_nonneg _ _ _ Hl) as Hln.
  unfold ngx_parse_time. rewrite time_loop_items; [|done|done|lia|lia|lia]. rewrite bool_decide_eq_false_2 by naive_solver. cbn [orb negb].
  unfold NGX_MAX_INT_T_VALUE, plain in *. rewrite Z.add_0_l. destruct is_sec; cbn [negb andb].
  - rewrite (i64_small (_ - _)) by lia. destruct (Z.ltb_spec (9223372036854775807 - dec_value tail) (items_value true l)); [lia|].
    rewrite i64_small by lia. f_equal. lia.
  - change (Z.quot 9223372036854775807 1000) with 9223372036854775. destruct (Z.ltb_spec 9223372036854775 (dec_value tail)); [lia|].
    rewrite (i64_small (dec_value tail * 1000)) by lia. rewrite (i64_small (_ - _)) by lia.
    destruct (Z.ltb_spec (9223372036854775807 - dec_value tail * 1000) (items_value false l)); [lia|]. by rewrite i64_small by lia.
Qed.

(** [ngx_parse_time] reads durations as they are written: any sequence of
    numbers with units from the largest to the smallest, with spaces between
    them, and a number without a unit at the end give their sum, as long as it
    fits an [ngx_int_t]. *)
Theorem parse_time_reads is_sec l tail :
  items_ok is_sec (if is_sec then st_start else st_month) l -> Forall is_digit tail -> (l <> [] \/ tail <> []) ->
  items_value is_sec l + dec_value tail * plain is_sec <= NGX_MAX_INT_T_VALUE ->
  ngx_parse_time (time_text l tail) is_sec = Some (items_value is_sec l + dec_value tail * plain is_sec).
Proof. apply parse_time_items. Qed.

Lemma parse_time_reads_witness :
  ngx_parse_time (s2b "1h 30m  5") true = Some (items_value true [mk_item (s2b "1") Uhour 1; mk_item (s2b "30") Umin 2] + dec_value (s2b "5") * 1).
Proof.
  apply (parse_time_reads true [mk_item (s2b "1") Uhour 1; mk_item (s2b "30") Umin 2] (s2b "5")).
  - cbn. split_and!; try discriminate; try reflexivity; try exact I; repeat constructor; discriminate.
  - repeat constructor; discriminate.
  - left. discriminate.
  - vm_compute. discriminate.
Defined.

(** ** Bounds *)

Lemma skip_spaces_length p : (length (skip_spaces p) <= length p)%nat.
Proof. induction p as [|c p IH]; cbn; [lia|]. destruct (_ =? _); cbn; lia. Qed.

Lemma time_unit_spec is_sec step c p st max scale p' :
  time_unit is_sec step c p = Some (st, max, scale, p') ->
  0 < scale /\ max = Z.quot NGX_MAX_INT_T_VALUE scale /\ (length p' <= length p)%nat.
Proof.
  unfold time_unit. intros H.
  repeat match type of H with
         | (if ?b then _ else _) = _ => destruct b
         | match ?q with [] => _ | _ :: _ => _ end = _ => destruct q
         end; try discriminate H; injection H as <- <- <- <-; cbn [length]; (split; [reflexivity|split; [reflexivity|lia]]).
Qed.

Lemma time_loop_bounds fuel is_sec p step value total valid :
  0 <= value <= NGX_MAX_INT_T_VALUE -> 0 <= total <= NGX_MAX_INT_T_VALUE -> (length p <= fuel)%nat ->
  match time_loop fuel is_sec p step value total valid with
  | TDone v t _ => 0 <= v <= NGX_MAX_INT_T_VALUE /\ 0 <= t <= NGX_MAX_INT_T_VALUE
  | TError => True
  | TRest => False
  end.
Proof.
  revert p step value total valid; induction fuel as [|fuel IH]; intros [|c p] step value total valid Hv Ht Hf; cbn [time_loop length] in *; try done; [lia|].
  destruct ((ch "0" <=? c) && (c <=? ch "9")) eqn:Ed.
  - rewrite andb_true_iff, !Z.leb_le in Ed. change (ch "0") with 48 in *. change (ch "9") with 57 in *.
    unfold NGX_MAX_INT_T_VALUE in *. change (Z.quot 9223372036854775807 10) with 922337203685477580. change (Z.rem 9223372036854775807 10) with 7.
    destruct ((922337203685477580 <=? value) && ((922337203685477580 <? value) || (7 <? c - 48))) eqn:E; [done|].
    rewrite andb_false_iff, orb_false_iff, Z.leb_gt, !Z.ltb_ge in E. apply IH; [|done|lia]. rewrite i64_small; lia.
  - destruct (time_unit is_sec step c p) as [[[[st max] scale] p']|] eqn:E; [|done].
    destruct (time_unit_spec _ _ _ _ _ _ _ _ E) as (Hs & -> & Hp). pose proof (skip_spaces_length p').
    assert (Hsc : forall s, 0 < s -> (Z.quot NGX_MAX_INT_T_VALUE s <? value) = false -> 0 <= value * s <= NGX_MAX_INT_T_VALUE).
    { intros s Hs0 Hq%Z.ltb_ge. unfold NGX_MAX_INT_T_VALUE in *. rewrite Z.quot_div_nonneg in Hq by lia.
      pose proof (Z.mul_div_le 9223372036854775807 s Hs0). nia. }
    assert (Hgo : forall s mx, 0 <= value * s <= NGX_MAX_INT_T_VALUE \/ (mx <? value) = true ->
      match (if mx <? value then TError else if i64 (NGX_MAX_INT_T_VALUE - i64 (value * s)) <? total then TError
             else time_loop fuel is_sec (skip_spaces p') st 0 (i64 (total + i64 (value * s))) valid) with
      | TDone v t _ => 0 <= v <= NGX_MAX_INT_T_VALUE /\ 0 <= t <= NGX_MAX_INT_T_VALUE | TError => True | TRest => False end).
    { intros s mx [Hb| ->]; [|done]. destruct (mx <? value); [done|]. unfold NGX_MAX_INT_T_VALUE in *.
      rewrite (i64_small (value * s)) by lia. rewrite (i64_small (_ - _)) by lia.
      destruct (Z.ltb_spec (9223372036854775807 - value * s) total); [done|]. rewrite i64_small by lia. apply IH; lia. }
    destruct (negb (st =? st_msec) && negb is_sec); apply Hgo.
    + destruct (Z.quot (Z.quot NGX_MAX_INT_T_VALUE scale) 1000 <? value) eqn:Eq; [by right|left].
      rewrite Z.quot_quot in Eq by lia. apply Hsc; [lia|exact Eq].
    + destruct (Z.quot NGX_MAX_INT_T_VALUE scale <? value) eqn:Eq; [by right|left]. by apply Hsc.
Qed.

(** Whatever the line, the answer is an error or a duration that fits. *)
Lemma parse_time_bounds line is_sec v : ngx_parse_time line is_sec = Some v -> 0 <= v <= NGX_MAX_INT_T_VALUE.
Proof.
  unfold ngx_parse_time. pose proof (time_loop_bounds (length line) is_sec line (if is_sec then st_start else st_month) 0 0 false) as H.
  unfold NGX_MAX_INT_T_VALUE in *. specialize (H ltac:(lia) ltac:(lia) ltac:(lia)).
  destruct (time_loop _ _ _ _ _ _ _) as [|value total valid|]; [done| |done]. destruct H as [Hv Ht].
  destruct valid; [|done]. cbn [negb]. change (Z.quot 9223372036854775807 1000) with 9223372036854775.
  destruct is_sec; cbn [negb andb].
  - rewrite (i64_small (_ - _)) by lia. destruct (Z.ltb_spec (9223372036854775807 - value) total); [done|].
    intros [= <-]. rewrite i64_small; lia.
  - destruct (Z.ltb_spec 9223372036854775 value); [done|]. rewrite (i64_small (value * 1000)) by lia. rewrite (i64_small (_ - _)) by lia.
    destruct (Z.ltb_spec (9223372036854775807 - value * 1000) total); [done|]. intros [= <-]. rewrite i64_small; lia.
Qed.
