(* ===== verification/InetParse.v ===== *)
(** * Addresses read from text

    [ngx_inet_addr] and [ngx_inet6_addr] of [src/core/ngx_inet.c], which read
    the addresses of [server] directives.  The theorems: they read back what
    [ngx_sock_ntop] and [ngx_inet6_ntop] of the same file print. *)

From S2P Require Import Prelude NgxString Inet.

(** ** IPv4 *)

Definition INADDR_NONE : Z := 0xffffffff.

(** [htonl] on a little-endian machine, and [ntohl], which is the same. *)
Definition htonl (x : Z) : Z :=
  Z.land x 0xff * 2 ^ 24 + Z.land (Z.shiftr x 8) 0xff * 2 ^ 16 + Z.land (Z.shiftr x 16) 0xff * 2 ^ 8 + Z.land (Z.shiftr x 24) 0xff.

(** The loop: [addr], [octet] and [n]; [None] for a return of [INADDR_NONE]. *)
Fixpoint inet_addr_loop (text : bytes) (addr octet n : Z) : option (Z * Z * Z) :=
  match text with
  | [] => Some (addr, octet, n)
  | c :: text =>
    if (ch "0" <=? c) && (c <=? ch "9") then
      let octet := octet * 10 + (c - ch "0") in
      if 255 <? octet then None else inet_addr_loop text addr octet n
    else if c =? ch "." then inet_addr_loop text (u32 (Z.shiftl addr 8 + octet)) 0 (n + 1)
    else None
  end.

Definition ngx_inet_addr (text : bytes) : Z :=
  match inet_addr_loop text 0 0 0 with
  | Some (addr, octet, n) => if n =? 3 then htonl (u32 (Z.shiftl addr 8 + octet)) else INADDR_NONE
  | None => INADDR_NONE
  end.

(** ** IPv6 *)

(** The variables of [ngx_inet6_addr]: the bytes written to [addr], the offset
    of [zero], the text after [digit] (of [len4 - 1] bytes), [nibbles], [word]
    and [n]. *)
Record inet6_st := mk_inet6 {
  a_out : bytes; a_zero : option nat; a_digit : option bytes; a_nibbles : Z; a_word : Z; a_n : Z
}.

Inductive inet6_res : Set := IErr | IEnd (s : inet6_st).

(** [*addr++ = (u_char) (word >> 8); *addr++ = (u_char) (word & 0xff);] *)
Definition put_word (out : bytes) (word : Z) : bytes := out ++ [Z.land (Z.shiftr word 8) 0xff; Z.land word 0xff].

(** The loop over the text; it ends at the end of the text or by [break]. *)
Fixpoint inet6_loop (p : bytes) (s : inet6_st) : inet6_res :=
  match p with
  | [] => IEnd s
  | c :: p =>
    if c =? ch ":" then
      if negb (a_nibbles s =? 0) then
        let out := put_word (a_out s) (a_word s) in
        let n := a_n s - 1 in
        if negb (n =? 0) then inet6_loop p (mk_inet6 out (a_zero s) (Some p) 0 0 n) else IErr
      else match a_zero s with
           | None => inet6_loop p (mk_inet6 (a_out s) (Some (length (a_out s))) (Some p) (a_nibbles s) (a_word s) (a_n s))
           | Some _ => IErr
           end
    else if (c =? ch ".") && negb (a_nibbles s =? 0) then
      match a_digit s with
      | Some digit =>
        if a_n s <? 2 then IErr
        else
          let word := ngx_inet_addr digit in
          if word =? INADDR_NONE then IErr
          else
            let word := htonl word in
            let out := a_out s ++ [Z.land (Z.shiftr word 24) 0xff; Z.land (Z.shiftr word 16) 0xff] in
            IEnd (mk_inet6 out (a_zero s) (Some digit) (a_nibbles s) word (a_n s - 1))
      | None => IErr
      end
    else
      let nibbles := a_nibbles s + 1 in
      if 4 <? nibbles then IErr
      else
        let next word := inet6_loop p (mk_inet6 (a_out s) (a_zero s) (a_digit s) nibbles word (a_n s)) in
        if (ch "0" <=? c) && (c <=? ch "9") then next (a_word s * 16 + (c - ch "0"))
        else
          let c := Z.lor c 0x20 in
          if (ch "a" <=? c) && (c <=? ch "f") then next (a_word s * 16 + (c - ch "a") + 10) else IErr
  end.

(** After the loop: the last group, and the bytes after [zero] moved to the
    end. *)
Definition inet6_end (s : inet6_st) : option bytes :=
  if (a_nibbles s =? 0) && bool_decide (a_zero s = None) then None
  else
    let out := put_word (a_out s) (a_word s) in
    let n := a_n s - 1 in
    if negb (n =? 0) then
      match a_zero s with
      | Some z => Some (take z out ++ replicate (Z.to_nat (n * 2)) 0 ++ drop z out)
      | None => None
      end
    else match a_zero s with None => Some out | Some _ => None end.

(** [ngx_inet6_addr]: the 16 bytes of [addr]; [None] for [NGX_ERROR]. *)
Definition ngx_inet6_addr (p : bytes) : option bytes :=
  match p with
  | [] => None
  | c :: p' =>
    match inet6_loop (if c =? ch ":" then p' else p) (mk_inet6 [] None None 0 0 8) with
    | IErr => None
    | IEnd s => inet6_end s
    end
  end.

Example inet_addr_examples :
  ngx_inet_addr (s2b "127.0.0.1") = 0x0100007f /\ ngx_inet_addr (s2b "1.2.3") = INADDR_NONE /\ ngx_inet_addr (s2b "256.0.0.1") = INADDR_NONE
  /\ ngx_inet_addr (s2b "localhost") = INADDR_NONE /\ ngx_inet_addr (s2b "1..2.3") = 0x03020001.
Proof. vm_compute. split_and!; reflexivity. Qed.

Example inet6_addr_examples :
  ngx_inet6_addr (s2b "2001:db8::1") = Some (v6 [0x2001; 0xdb8; 0; 0; 0; 0; 0; 1])
  /\ ngx_inet6_addr (s2b "::") = Some (v6 [0; 0; 0; 0; 0; 0; 0; 0]) /\ ngx_inet6_addr (s2b "1:2:3:4:5:6:7:8") = Some (v6 [1; 2; 3; 4; 5; 6; 7; 8])
  /\ ngx_inet6_addr (s2b "::ffff:192.168.1.1") = Some (v6 [0; 0; 0; 0; 0; 0xffff; 0xc0a8; 0x101])
  /\ ngx_inet6_addr (s2b "1::2::3") = None /\ ngx_inet6_addr (s2b "1:2:3:4:5:6:7:8:9") = None /\ ngx_inet6_addr (s2b "12345::") = None.
Proof. vm_compute. split_and!; reflexivity. Qed.

(** ** IPv4: what is printed is read *)

(** The four bytes of an [in_addr_t] in memory. *)
Definition s_addr_bytes (w : Z) : bytes :=
  [Z.land w 0xff; Z.land (Z.shiftr w 8) 0xff; Z.land (Z.shiftr w 16) 0xff; Z.land (Z.shiftr w 24) 0xff].

(** The number of four bytes, the first one the most significant. *)
Definition be4 (a b c d : Z) : Z := ((a * 256 + b) * 256 + c) * 256 + d.

Lemma be4_range a b c d : is_byte a -> is_byte b -> is_byte c -> is_byte d -> 0 <= be4 a b c d < 2 ^ 32.
Proof. unfold is_byte, be4. lia. Qed.

Lemma be4_bytes a b c d :
  is_byte a -> is_byte b -> is_byte c -> is_byte d ->
  Z.land (be4 a b c d) 0xff = d /\ Z.land (Z.shiftr (be4 a b c d) 8) 0xff = c
  /\ Z.land (Z.shiftr (be4 a b c d) 16) 0xff = b /\ Z.land (Z.shiftr (be4 a b c d) 24) 0xff = a.
Proof.
  unfold is_byte. intros Ha Hb Hc Hd. rewrite !land_ff, !Z.shiftr_div_pow2 by lia.
  assert (E1 : be4 a b c d / 256 = (a * 256 + b) * 256 + c) by (unfold be4; dlia).
  assert (E2 : be4 a b c d / 256 / 256 = a * 256 + b) by (rewrite E1; dlia).
  assert (E3 : be4 a b c d / 256 / 256 / 256 = a) by (rewrite E2; dlia).
  change (2 ^ 8) with 256. change (2 ^ 16) with (256 * 256). change (2 ^ 24) with (256 * 256 * 256). rewrite <- !Z.div_div by lia.
  rewrite E3, E2, E1. unfold be4. split_and!; dlia.
Qed.

Lemma htonl_be4 a b c d : is_byte a -> is_byte b -> is_byte c -> is_byte d -> htonl (be4 a b c d) = be4 d c b a.
Proof. intros Ha Hb Hc Hd. unfold htonl. destruct (be4_bytes a b c d Ha Hb Hc Hd) as (-> & -> & -> & ->). unfold be4. lia. Qed.

Lemma inet_addr_digits ds rest addr octet n :
  Forall is_digit ds -> 0 <= octet -> dec_from octet ds <= 255 ->
  inet_addr_loop (ds ++ rest) addr octet n = inet_addr_loop rest addr (dec_from octet ds) n.
Proof.
  intros Hd. revert octet; induction Hd as [|c ds [H1 H2] Hd IH]; intros octet Ho Hm; [done|]. cbn [app inet_addr_loop].
  rewrite (proj2 (Z.leb_le _ _) H1), (proj2 (Z.leb_le _ _) H2). cbn [andb].
  change (dec_from octet (c :: ds)) with (dec_from (octet * 10 + (c - 48)) ds) in *.
  change (ch "0") with 48 in *. change (ch "9") with 57 in *. pose proof (dec_from_ge (octet * 10 + (c - 48)) ds ltac:(lia) Hd).
  destruct (Z.ltb_spec 255 (octet * 10 + (c - 48))); [lia|]. apply IH; lia.
Qed.

Lemma inet_addr_byte x rest addr n :
  is_byte x -> inet_addr_loop (num_text x 0 ++ rest) addr 0 n = inet_addr_loop rest addr x n.
Proof.
  unfold is_byte. intros Hx. destruct (num_text_dec x) as (ds & -> & _ & Hd & Hv); [unfold in_u64; lia|].
  unfold dec_value in Hv. rewrite inet_addr_digits by (done || lia). by rewrite Hv.
Qed.

Lemma inet_addr_dot rest addr octet n :
  inet_addr_loop (ch "." :: rest) addr octet n = inet_addr_loop rest (u32 (Z.shiftl addr 8 + octet)) 0 (n + 1).
Proof. done. Qed.

(** Four bytes printed with dots. *)
Lemma inet_addr_dotted a b c d :
  is_byte a -> is_byte b -> is_byte c -> is_byte d -> ngx_inet_addr (dotted_text a b c d) = be4 d c b a.
Proof.
  intros Ha Hb Hc Hd. unfold ngx_inet_addr, dotted_text.
  rewrite inet_addr_byte by done. cbn [app]. rewrite inet_addr_dot, inet_addr_byte by done. rewrite inet_addr_dot, inet_addr_byte by done.
  rewrite inet_addr_dot. rewrite <- (app_nil_r (num_text d 0)), inet_addr_byte by done. cbn [inet_addr_loop Z.add Z.eqb Pos.add Pos.succ Pos.eqb].
  rewrite <- (htonl_be4 a b c d) by done. f_equal. unfold be4, is_byte in *.
  assert (Hu : forall x y, 0 <= x < 2 ^ 24 -> 0 <= y < 256 -> u32 (Z.shiftl x 8 + y) = x * 256 + y).
  { intros x y Hx Hy. unfold u32. rewrite Z.shiftl_mul_pow2, Z.mod_small by lia. lia. }
  rewrite (Hu 0 a), (Hu (0 * 256 + a) b), (Hu ((0 * 256 + a) * 256 + b) c), (Hu (((0 * 256 + a) * 256 + b) * 256 + c) d) by lia. lia.
Qed.

(** ** IPv6: the text of a group *)

Definition nibble (h : Z) : Prop := 0 <= h < 16.

Definition nib_from (w : Z) (hs : list Z) : Z := foldl (fun w h => w * 16 + h) w hs.

Lemma num_loop_hex fuel x p :
  0 <= x < 16 ^ Z.of_nat fuel -> fuel <> 0%nat ->
  exists hs, num_loop fuel 16 (hex_digit false) x p = (hex_digit false <$> hs) ++ p
    /\ hs <> [] /\ Forall nibble hs /\ nib_from 0 hs = x.
Proof.
  revert x p; induction fuel as [|fuel IH]; intros x p Hx Hf; [done|]. cbn [num_loop].
  assert (Hd : nibble (x mod 16)) by (apply Z.mod_pos_bound; lia).
  destruct (Z.eqb_spec (x / 16) 0) as [E|E].
  - exists [x mod 16]. split_and!; [done|done|by constructor|]. cbn. pose proof (Z.div_mod x 16). lia.
  - destruct fuel as [|fuel]; [cbn in Hx; pose proof (Z.div_small x 16); lia|].
    rewrite Nat2Z.inj_succ, Z.pow_succ_r in Hx by lia.
    destruct (IH (x / 16) (hex_digit false (x mod 16) :: p)) as (hs & -> & Hne & Hhs & Hv);
      [split; [apply Z.div_pos; lia|apply Z.div_lt_upper_bound; lia]|done|].
    exists (hs ++ [x mod 16]). rewrite fmap_app, <- app_assoc. split_and!; [done| |by apply Forall_app; split; [|constructor]|].
    { by destruct hs. }
    unfold nib_from in *. rewrite foldl_app, Hv. cbn. pose proof (Z.div_mod x 16). lia.
Qed.

Definition group_ok (g : Z) : Prop := 0 <= g < 65536.

Lemma num_text_hex g :
  group_ok g -> exists hs, num_text g 1 = hex_digit false <$> hs /\ hs <> [] /\ (length hs <= 4)%nat /\ Forall nibble hs /\ nib_from 0 hs = g.
Proof.
  intros Hg. destruct (num_loop_hex 20 g []) as (hs & E & Hne & Hh & Hv); [unfold group_ok in Hg; cbn; lia|done|].
  rewrite app_nil_r in E. exists hs. split_and!; try done.
  pose proof (hex_short 4 g ltac:(exact Hg) ltac:(lia)) as Hl.
  change (num_text g 1) with (num_loop 20 16 (hex_digit false) g []) in Hl. rewrite E, length_fmap in Hl. exact Hl.
Qed.

(** One digit. *)
Lemma inet6_loop_nibble h p out zero digit nib word n :
  nibble h -> 0 <= nib < 4 ->
  inet6_loop (hex_digit false h :: p) (mk_inet6 out zero digit nib word n)
  = inet6_loop p (mk_inet6 out zero digit (nib + 1) (word * 16 + h) n).
Proof.
  intros Hh Hn. cbn [inet6_loop a_out a_zero a_digit a_nibbles a_word a_n].
  assert (Hc : (hex_digit false h =? ch ":") = false /\ (hex_digit false h =? ch ".") = false
    /\ if (ch "0" <=? hex_digit false h) && (hex_digit false h <=? ch "9") then hex_digit false h - ch "0" = h
       else (ch "a" <=? Z.lor (hex_digit false h) 32) && (Z.lor (hex_digit false h) 32 <=? ch "f") = true
            /\ Z.lor (hex_digit false h) 32 - ch "a" + 10 = h).
  { assert (H : h ∈ seqZ 0 16) by (apply elem_of_seqZ; unfold nibble in Hh; lia). clear Hh. revert h H.
    apply Forall_forall. change (seqZ 0 16) with [0; 1; 2; 3; 4; 5; 6; 7; 8; 9; 10; 11; 12; 13; 14; 15]. repeat constructor. }
  destruct Hc as (-> & -> & Hc). cbn [andb]. destruct (Z.ltb_spec 4 (nib + 1)); [lia|].
  destruct ((ch "0" <=? hex_digit false h) && (hex_digit false h <=? ch "9")); [by rewrite Hc|].
  destruct Hc as [-> Hc]. do 2 f_equal. lia.
Qed.

Lemma inet6_loop_nibbles hs p out zero digit nib word n :
  Forall nibble hs -> 0 <= nib -> nib + Z.of_nat (length hs) <= 4 ->
  inet6_loop ((hex_digit false <$> hs) ++ p) (mk_inet6 out zero digit nib word n)
  = inet6_loop p (mk_inet6 out zero digit (nib + Z.of_nat (length hs)) (nib_from word hs) n).
Proof.
  intros Hh. revert nib word; induction Hh as [|h hs Hh Hhs IH]; intros nib word Hn Hl.
  - cbn. by rewrite Z.add_0_r.
  - cbn [fmap list_fmap app length] in *. rewrite inet6_loop_nibble by (done || lia). change (list_fmap Z Z (hex_digit false) hs) with (hex_digit false <$> hs).
    rewrite IH by lia. f_equal. f_equal; lia.
Qed.

(** A group is read into [word]. *)
Lemma inet6_loop_group g p out zero digit n :
  group_ok g -> exists k, 1 <= k /\ inet6_loop (num_text g 1 ++ p) (mk_inet6 out zero digit 0 0 n)
    = inet6_loop p (mk_inet6 out zero digit k g n).
Proof.
  intros Hg. destruct (num_text_hex g Hg) as (hs & -> & Hne & Hl & Hh & Hv). exists (Z.of_nat (length hs)).
  split; [destruct hs; [done|cbn; lia]|]. rewrite inet6_loop_nibbles by (done || lia). by rewrite Hv.
Qed.

(** ** Sequences of groups *)

Definition colons (gs : list Z) : bytes := flat_map (fun g => num_text g 1 ++ [ch ":"]) gs.

Fixpoint joined (gs : list Z) : bytes :=
  match gs with
  | [] => []
  | g :: gs' => num_text g 1 ++ match gs' with [] => [] | _ => ch ":" :: joined gs' end
  end.

Lemma group_bytes g : group_ok g -> Z.land (Z.shiftr g 8) 0xff = g / 256 /\ Z.land g 0xff = g mod 256.
Proof.
  unfold group_ok. intros Hg. rewrite !land_ff, Z.shiftr_div_pow2 by lia. change (2 ^ 8) with 256. split; [|done]. dlia.
Qed.

Lemma put_word_group out g : group_ok g -> put_word out g = out ++ v6 [g].
Proof. intros Hg. unfold put_word. destruct (group_bytes g Hg) as [-> ->]. done. Qed.

Lemma v6_cons g gs : v6 (g :: gs) = v6 [g] ++ v6 gs.
Proof. done. Qed.

Lemma v6_app a b : v6 (a ++ b) = v6 a ++ v6 b.
Proof. unfold v6. by rewrite flat_map_app. Qed.

Lemma length_v6 gs : length (v6 gs) = (2 * length gs)%nat.
Proof. induction gs as [|g gs IH]; [done|]. cbn [v6 flat_map app length] in *. fold (v6 gs) in *. lia. Qed.

Lemma inet6_loop_colons gs p out zero digit n :
  Forall group_ok gs -> Z.of_nat (length gs) < n ->
  inet6_loop (colons gs ++ p) (mk_inet6 out zero digit 0 0 n)
  = inet6_loop p (mk_inet6 (out ++ v6 gs) zero (match gs with [] => digit | _ => Some p end) 0 0 (n - Z.of_nat (length gs))).
Proof.
  intros Hg. revert out digit n; induction Hg as [|g gs Hg Hgs IH]; intros out digit n Hn.
  { cbn. by rewrite app_nil_r, Z.sub_0_r. }
  cbn [colons flat_map length] in *. fold (colons gs). rewrite <- !app_assoc.
  destruct (inet6_loop_group g ([ch ":"] ++ colons gs ++ p) out zero digit n Hg) as (k & Hk & ->).
  cbn [app inet6_loop a_out a_zero a_digit a_nibbles a_word a_n Z.eqb]. rewrite Z.eqb_refl.
  destruct (Z.eqb_spec k 0); [lia|]. destruct (Z.eqb_spec (n - 1) 0); [lia|]. cbn [negb].
  rewrite IH by lia. rewrite put_word_group by done. rewrite <- app_assoc, <- v6_cons.
  destruct gs; f_equal; f_equal; cbn [length]; lia.
Qed.

(** What is left to do after all groups are written. *)
Definition moved (out : bytes) (zero : option nat) (n : Z) : option bytes :=
  if negb (n =? 0) then
    match zero with Some z => Some (take z out ++ replicate (Z.to_nat (n * 2)) 0 ++ drop z out) | None => None end
  else match zero with None => Some out | Some _ => None end.

Definition inet6_finish (r : inet6_res) : option bytes := match r with IErr => None | IEnd s => inet6_end s end.

Lemma inet6_finish_end out zero digit k word n :
  k <> 0 \/ zero <> None ->
  inet6_finish (inet6_loop [] (mk_inet6 out zero digit k word n)) = moved (put_word out word) zero (n - 1).
Proof.
  intros H. cbn [inet6_loop inet6_finish]. unfold inet6_end, moved. cbn [a_out a_zero a_nibbles a_word a_n].
  destruct (Z.eqb_spec k 0); cbn [andb]; [|done]. rewrite bool_decide_eq_false_2 by naive_solver. done.
Qed.

Lemma inet6_finish_joined gs out zero digit n :
  Forall group_ok gs -> gs <> [] -> Z.of_nat (length gs) <= n ->
  inet6_finish (inet6_loop (joined gs) (mk_inet6 out zero digit 0 0 n)) = moved (out ++ v6 gs) zero (n - Z.of_nat (length gs)).
Proof.
  intros Hg Hne Hn. assert (E : exists gs0 g, gs = gs0 ++ [g] /\ joined gs = colons gs0 ++ num_text g 1).
  { clear Hg Hn. induction gs as [|g gs IH]; [done|]. destruct gs as [|g' gs].
    - exists [], g. split; [done|]. cbn. by rewrite app_nil_r.
    - destruct (IH ltac:(done)) as (gs0 & g0 & E & Ej). exists (g :: gs0), g0. split; [by rewrite E|].
      change (joined (g :: g' :: gs)) with (num_text g 1 ++ ch ":" :: joined (g' :: gs)). rewrite Ej.
      cbn [colons flat_map]. fold (colons gs0). by rewrite <- !app_assoc. }
  destruct E as (gs0 & g & -> & ->). apply Forall_app in Hg as [Hg0 Hg]. apply Forall_cons in Hg as [Hg _].
  rewrite length_app in *. cbn [length] in *. rewrite inet6_loop_colons by (done || lia).
  rewrite <- (app_nil_r (num_text g 1)).
  destruct (inet6_loop_group g [] (out ++ v6 gs0) zero (match gs0 with [] => digit | _ => Some (num_text g 1 ++ []) end)
              (n - Z.of_nat (length gs0)) Hg) as (k & Hk & ->).
  rewrite inet6_finish_end by lia. rewrite put_word_group, v6_app, app_assoc by done. f_equal. lia.
Qed.

(** The forms of the text. *)
Lemma joined_head gs : Forall group_ok gs -> gs <> [] -> exists c p, joined gs = c :: p /\ (c =? ch ":") = false.
Proof.
  intros Hg Hne. destruct Hg as [|g gs Hg Hgs]; [done|]. destruct (num_text_hex g Hg) as (hs & E & Hne' & _ & Hh & _).
  cbn [joined]. rewrite E. destruct Hh as [|h hs Hh _]; [done|]. cbn [fmap list_fmap app]. eexists _, _. split; [reflexivity|].
  assert (H : h ∈ seqZ 0 16) by (apply elem_of_seqZ; unfold nibble in Hh; lia). clear -H. revert h H.
  apply Forall_forall. change (seqZ 0 16) with [0; 1; 2; 3; 4; 5; 6; 7; 8; 9; 10; 11; 12; 13; 14; 15]. repeat constructor.
Qed.

Lemma colons_head gs q : Forall group_ok gs -> gs <> [] -> exists c p, colons gs ++ q = c :: p /\ (c =? ch ":") = false.
Proof.
  intros Hg Hne. destruct Hg as [|g gs Hg Hgs]; [done|]. destruct (joined_head [g]) as (c & p & E & Hc); [by constructor|done|].
  cbn [joined] in E. rewrite app_nil_r in E. cbn [colons flat_map]. rewrite E. cbn [app]. eexists _, _. by split.
Qed.

(** All eight groups. *)
Lemma inet6_addr_full gs : Forall group_ok gs -> length gs = 8%nat -> ngx_inet6_addr (joined gs) = Some (v6 gs).
Proof.
  intros Hg Hl. destruct (joined_head gs Hg) as (c & p & E & Hc); [by intros ->|]. unfold ngx_inet6_addr. rewrite E, Hc.
  rewrite <- E. fold (inet6_finish (inet6_loop (joined gs) (mk_inet6 [] None None 0 0 8))).
  rewrite inet6_finish_joined by (done || (rewrite Hl; lia) || by intros ->). by rewrite Hl.
Qed.

(** The text starts like [colons a], or with a colon that is skipped. *)
Definition run_text (a : list Z) (q : bytes) : bytes := (match a with [] => [ch ":"] | _ => colons a end) ++ ch ":" :: q.

Lemma inet6_addr_start a q :
  Forall group_ok a ->
  ngx_inet6_addr (run_text a q) = inet6_finish (inet6_loop (colons a ++ ch ":" :: q) (mk_inet6 [] None None 0 0 8)).
Proof.
  intros Ha. unfold run_text. destruct a as [|g a]; [done|].
  destruct (colons_head (g :: a) (ch ":" :: q) Ha) as (c & p & E & Hc); [done|]. rewrite E. unfold ngx_inet6_addr. by rewrite Hc.
Qed.

(** The double colon. *)
Lemma inet6_loop_run a q :
  Forall group_ok a -> (length a < 8)%nat ->
  inet6_loop (colons a ++ ch ":" :: q) (mk_inet6 [] None None 0 0 8)
  = inet6_loop q (mk_inet6 (v6 a) (Some (length (v6 a))) (Some q) 0 0 (8 - Z.of_nat (length a))).
Proof.
  intros Ha Hl. rewrite inet6_loop_colons by (done || lia). cbn [app inet6_loop a_out a_zero a_nibbles a_word a_n].
  rewrite Z.eqb_refl. done.
Qed.

Lemma moved_run a b n :
  n = 8 - Z.of_nat (length a) - Z.of_nat (length b) -> n <> 0 ->
  moved (v6 a ++ v6 b) (Some (length (v6 a))) n = Some (v6 a ++ replicate (16 - 2 * length a - 2 * length b) 0 ++ v6 b).
Proof.
  intros Hn Hz. unfold moved. destruct (Z.eqb_spec n 0); [done|]. cbn [negb]. rewrite take_app_length, drop_app_length.
  do 4 f_equal. lia.
Qed.

(** A run of at least two zero groups. *)
Lemma inet6_addr_run a b :
  Forall group_ok a -> Forall group_ok b -> (length a + length b <= 6)%nat ->
  ngx_inet6_addr (run_text a (joined b)) = Some (v6 a ++ replicate (16 - 2 * length a - 2 * length b) 0 ++ v6 b).
Proof.
  intros Ha Hb Hl. rewrite inet6_addr_start, inet6_loop_run by (done || lia). destruct b as [|g b].
  - cbn [joined length]. rewrite inet6_finish_end by (right; done). change (put_word (v6 a) 0) with (v6 a ++ v6 [0]).
    rewrite (moved_run a [0]) by (cbn [length]; lia). do 2 f_equal. cbn [length]. change (v6 [0]) with (replicate 2 0). change (v6 []) with (@nil Z).
    rewrite app_nil_r, <- replicate_add. f_equal. lia.
  - rewrite inet6_finish_joined by (done || cbn [length] in *; lia). by rewrite (moved_run a (g :: b)) by (cbn [length] in *; lia).
Qed.

(** Decimal digits are read as a group before the first dot shows what they
    are. *)
Lemma inet6_loop_digits ds p out zero digit nib word n :
  Forall is_digit ds -> 0 <= nib -> nib + Z.of_nat (length ds) <= 4 ->
  exists word', inet6_loop (ds ++ p) (mk_inet6 out zero digit nib word n)
    = inet6_loop p (mk_inet6 out zero digit (nib + Z.of_nat (length ds)) word' n).
Proof.
  intros Hd. revert nib word; induction Hd as [|c ds [H1 H2] Hd IH]; intros nib word Hn Hl.
  { exists word. cbn. by rewrite Z.add_0_r. }
  cbn [app length] in *. destruct (IH (nib + 1) (word * 16 + (c - ch "0")) ltac:(lia) ltac:(lia)) as (word' & E).
  exists word'. replace (nib + Z.of_nat (S (length ds))) with (nib + 1 + Z.of_nat (length ds)) by lia. rewrite <- E.
  cbn [inet6_loop a_out a_zero a_digit a_nibbles a_word a_n]. change (ch "0") with 48 in *. change (ch "9") with 57 in *.
  change (ch ":") with 58. change (ch ".") with 46. destruct (Z.eqb_spec c 58); [lia|]. destruct (Z.eqb_spec c 46); [lia|]. cbn [andb].
  destruct (Z.ltb_spec 4 (nib + 1)); [lia|]. destruct (Z.leb_spec 48 c); [|lia]. destruct (Z.leb_spec c 57); [|lia]. done.
Qed.

(** Groups and a dotted IPv4 address after a double colon. *)
Lemma inet6_addr_mapped b w x y z :
  Forall group_ok b -> (length b <= 1)%nat -> is_byte w -> is_byte x -> is_byte y -> is_byte z -> be4 z y x w <> INADDR_NONE ->
  ngx_inet6_addr (run_text [] (colons b ++ dotted_text w x y z))
  = Some (replicate (12 - 2 * length b) 0 ++ v6 b ++ [w; x; y; z]).
Proof.
  intros Hb Hl Hw Hx Hy Hz Hne. rewrite inet6_addr_start, inet6_loop_run by (done || cbn; lia).
  rewrite inet6_loop_colons by (done || cbn; lia). cbn [length v6 flat_map app].
  set (digit := match b with [] => _ | _ => _ end).
  assert (Ed : digit = Some (dotted_text w x y z)) by (by destruct b). clearbody digit. subst digit.
  destruct (num_text_dec w) as (ds & Ews & Hdne & Hd & _); [unfold in_u64, is_byte in *; lia|].
  pose proof (dec_byte w Hw) as Hlw. rewrite Ews in Hlw.
  assert (Edot : dotted_text w x y z = ds ++ ch "." :: num_text x 0 ++ [ch "."] ++ num_text y 0 ++ [ch "."] ++ num_text z 0)
    by (unfold dotted_text; by rewrite Ews).
  rewrite Edot at 1. set (out := v6 b). set (n := 8 - 0 - Z.of_nat (length b)).
  destruct (inet6_loop_digits ds (ch "." :: num_text x 0 ++ [ch "."] ++ num_text y 0 ++ [ch "."] ++ num_text z 0)
    out (Some 0%nat) (Some (dotted_text w x y z)) 0 0 n Hd) as (word & E); [lia|lia|].
  assert (Hk : 0 + Z.of_nat (length ds) <> 0) by (destruct ds; [done|cbn; lia]).
  transitivity (inet6_finish (inet6_loop (ch "." :: num_text x 0 ++ [ch "."] ++ num_text y 0 ++ [ch "."] ++ num_text z 0)
    (mk_inet6 out (Some 0%nat) (Some (dotted_text w x y z)) (0 + Z.of_nat (length ds)) word n))); [by rewrite <- E|].
  cbn [inet6_loop a_out a_zero a_digit a_nibbles a_word a_n]. change (ch "." =? ch ":") with false. rewrite Z.eqb_refl.
  destruct (Z.eqb_spec (0 + Z.of_nat (length ds)) 0); [lia|]. cbn [negb andb]. destruct (Z.ltb_spec n 2); [lia|].
  rewrite inet_addr_dotted by done. destruct (Z.eqb_spec (be4 z y x w) INADDR_NONE); [done|]. rewrite htonl_be4 by done.
  destruct (be4_bytes w x y z Hw Hx Hy Hz) as (E0 & E1 & E2 & E3). rewrite E2, E3. cbn [inet6_finish]. unfold inet6_end, put_word.
  cbn [a_out a_zero a_nibbles a_word a_n]. rewrite bool_decide_eq_false_2, andb_false_r by done. rewrite E0, E1.
  destruct (Z.eqb_spec (n - 1 - 1) 0); [lia|]. cbn [negb]. rewrite take_0, drop_0. subst n out. rewrite <- app_assoc. cbn [app].
  do 3 f_equal. lia.
Qed.

(** ** IPv6: what is printed *)

(** The longest run depends on which groups are zero only. *)
Definition run_stepb (s : zero_run) (ib : Z * bool) : zero_run :=
  if negb (snd ib) then let s := run_close s in mk_run (z_zero s) (z_last s) (z_max s) 0
  else mk_run (z_zero s) (if z_n s =? 0 then fst ib else z_last s) (z_max s) (z_n s + 1).

Definition longest_runb (bs : list bool) : zero_run :=
  run_close (foldl run_stepb (mk_run (u64 (-1)) (u64 (-1)) 1 0) (zip [0; 2; 4; 6; 8; 10; 12; 14] bs)).

Definition zero_at (p : bytes) (i : nat) : bool := (byte_at p i =? 0) && (byte_at p (i + 1) =? 0).

Lemma longest_run_bools p : longest_run p = longest_runb (zero_at p <$> [0; 2; 4; 6; 8; 10; 12; 14]%nat).
Proof.
  assert (H : forall s i, run_step p s i = run_stepb s (Z.of_nat i, zero_at p i)).
  { intros s i. unfold run_step, run_stepb, zero_at. cbn [fst snd]. by rewrite negb_andb. }
  unfold longest_run, longest_runb. cbn [foldl]. rewrite !H. reflexivity.
Qed.

(** The run at position [z] of [m] groups. *)
Definition is_run (bs : list bool) (z m : nat) : bool := (2 <=? m)%nat && (z + m <=? 8)%nat && forallb (fun k => nth k bs false) (seq z m).

Definition run_found (bs : list bool) : bool :=
  let r := longest_runb bs in
  (z_zero r =? u64 (-1))
  || existsb (fun z => existsb (fun m => (z_zero r =? Z.of_nat (2 * z)) && (z_max r =? Z.of_nat m) && is_run bs z m) (seq 2 7)) (seq 0 8).

Fixpoint all_bools (n : nat) : list (list bool) :=
  match n with O => [[]] | S n => flat_map (fun bs => [true :: bs; false :: bs]) (all_bools n) end.

Lemma all_bools_in bs : In bs (all_bools (length bs)).
Proof. induction bs as [|b bs IH]; [by left|]. cbn. apply in_flat_map. exists bs. split; [done|]. destruct b; cbn; auto. Qed.

Lemma runs_found : forallb run_found (all_bools 8) = true.
Proof. vm_compute. reflexivity. Qed.

Lemma longest_run_spec p :
  z_zero (longest_run p) = u64 (-1)
  \/ exists z m, z_zero (longest_run p) = Z.of_nat (2 * z) /\ z_max (longest_run p) = Z.of_nat m /\ (2 <= m)%nat /\ (z + m <= 8)%nat
     /\ forall k, (z <= k < z + m)%nat -> zero_at p (2 * k) = true.
Proof.
  rewrite longest_run_bools. set (bs := zero_at p <$> _). pose proof runs_found as H. rewrite forallb_forall in H.
  specialize (H bs (all_bools_in bs)). unfold run_found in H. apply orb_true_iff in H as [H|H]; [left; by apply Z.eqb_eq|right].
  apply existsb_exists in H as (z & _ & H). apply existsb_exists in H as (m & _ & H). apply andb_true_iff in H as [H Hr].
  apply andb_true_iff in H as [Hz Hm]. unfold is_run in Hr. rewrite !andb_true_iff, !Nat.leb_le, forallb_forall in Hr. destruct Hr as [[H2 H8] Hr].
  exists z, m. split_and!; [by apply Z.eqb_eq|by apply Z.eqb_eq|done|done|]. intros k Hk.
  specialize (Hr k). rewrite in_seq in Hr. specialize (Hr Hk). subst bs.
  do 8 (destruct k as [|k]; [exact Hr|]). lia.
Qed.

(** The groups of an address. *)
Definition grp (p : bytes) (k : nat) : Z := byte_at p (2 * k) * 256 + byte_at p (2 * k + 1).

Definition grps (p : bytes) (k m : nat) : list Z := grp p <$> seq k m.

Lemma grp_ok p k : Forall is_byte p -> group_ok (grp p k).
Proof.
  intros Hb. pose proof (byte_at_ok p (2 * k) Hb). pose proof (byte_at_ok p (2 * k + 1) Hb). unfold is_byte, group_ok, grp in *. lia.
Qed.

Lemma grps_ok p k m : Forall is_byte p -> Forall group_ok (grps p k m).
Proof. intros Hb. apply Forall_fmap, Forall_forall. intros i _. by apply grp_ok. Qed.

Lemma v6_grps p : Forall is_byte p -> (16 <= length p)%nat -> v6 (grps p 0 8) = take 16 p.
Proof.
  intros Hb Hl. assert (H : forall k, [grp p k / 256; grp p k mod 256] = [byte_at p (2 * k); byte_at p (2 * k + 1)]).
  { intros k. pose proof (byte_at_ok p (2 * k) Hb). pose proof (byte_at_ok p (2 * k + 1) Hb). unfold is_byte, grp in *. f_equal; [dlia|f_equal; dlia]. }
  unfold grps. cbn [seq fmap list_fmap v6 flat_map]. rewrite !H. do 16 (destruct p as [|? p]; [cbn in Hl; lia|]). done.
Qed.

Lemma grps_app p k m n : grps p k (m + n) = grps p k m ++ grps p (k + m) n.
Proof. unfold grps. by rewrite seq_app, fmap_app. Qed.

Lemma v6_grps_zero p k m : (forall i, (k <= i < k + m)%nat -> zero_at p (2 * i) = true) -> v6 (grps p k m) = replicate (2 * m) 0.
Proof.
  revert k; induction m as [|m IH]; intros k H; [done|]. unfold grps. cbn [seq fmap list_fmap]. fold (grps p (S k) m).
  change (list_fmap nat Z (grp p) (seq (S k) m)) with (grps p (S k) m). rewrite v6_cons, IH by (intros i Hi; apply H; lia).
  specialize (H k ltac:(lia)). unfold zero_at in H. apply andb_true_iff in H as [H1%Z.eqb_eq H2%Z.eqb_eq].
  unfold grp. rewrite H1, H2. replace (2 * S m)%nat with (S (S (2 * m))) by lia. done.
Qed.

Section Print.
Context (p : bytes) (Hb : Forall is_byte p).

(** One group of the output loop. *)
Lemma ntop_loop_group fuel zero max n k :
  Z.of_nat (2 * k) < n -> Z.of_nat (2 * k) <> zero ->
  ntop_loop (S fuel) p zero max n (Z.of_nat (2 * k))
  = rest ← ntop_loop fuel p zero max n (Z.of_nat (2 * S k)); Some (num_text (grp p k) 1 ++ (if (k <? 7)%nat then [ch ":"] else []) ++ rest).
Proof using Hb.
  intros Hn Hz. cbn [ntop_loop]. destruct (Z.ltb_spec (Z.of_nat (2 * k)) n); [|lia]. destruct (Z.eqb_spec (Z.of_nat (2 * k)) zero); [done|].
  rewrite Nat2Z.id. fold (grp p k). pose proof (grp_ok p k Hb) as Hg. rewrite sprintf_xd_text by exact Hg. cbn [mbind option_bind].
  replace (Z.of_nat (2 * k) + 2) with (Z.of_nat (2 * S k)) by lia. destruct (ntop_loop fuel p zero max n (Z.of_nat (2 * S k))); [|done].
  cbn [mbind option_bind]. destruct (Z.ltb_spec (Z.of_nat (2 * k)) 14), (Nat.ltb_spec k 7); done || lia.
Qed.

(** The groups from [k] on, when no run follows. *)
Lemma ntop_loop_joined fuel zero max k m :
  (k + m = 8)%nat -> (m <= fuel)%nat -> (forall j, (k <= j < 8)%nat -> Z.of_nat (2 * j) <> zero) ->
  ntop_loop fuel p zero max 16 (Z.of_nat (2 * k)) = Some (joined (grps p k m)).
Proof using Hb.
  revert fuel k; induction m as [|m IH]; intros fuel k Hk Hf Hz.
  { destruct fuel; [done|]. cbn [ntop_loop]. destruct (Z.ltb_spec (Z.of_nat (2 * k)) 16); [lia|done]. }
  destruct fuel as [|fuel]; [lia|]. rewrite ntop_loop_group; [|lia|apply Hz; lia]. rewrite IH; [|lia|lia|intros j Hj; apply Hz; lia].
  cbn [mbind option_bind]. f_equal. unfold grps. cbn [seq fmap list_fmap joined]. f_equal.
  destruct m as [|m]; cbn [seq fmap list_fmap]; [destruct (Nat.ltb_spec k 7); [lia|done]|destruct (Nat.ltb_spec k 7); [done|lia]].
Qed.

(** The groups from [k] up to the run at [z]. *)
Lemma ntop_loop_colons fuel max z k m :
  (k + m = z)%nat -> (m < fuel)%nat -> (z <= 6)%nat ->
  ntop_loop fuel p (Z.of_nat (2 * z)) max 16 (Z.of_nat (2 * k))
  = (fun t => colons (grps p k m) ++ ch ":" :: t) <$> ntop_loop (fuel - m - 1) p (Z.of_nat (2 * z)) max 16 (Z.of_nat (2 * z) + (max - 1) * 2 + 2).
Proof using Hb.
  revert fuel k; induction m as [|m IH]; intros fuel k Hk Hf Hz.
  { destruct fuel as [|fuel]; [lia|]. replace k with z by lia. rewrite ntop_loop_zero by lia. by rewrite Nat.sub_0_r, Nat.sub_1_r. }
  destruct fuel as [|fuel]; [lia|]. rewrite ntop_loop_group; [|lia|lia]. rewrite IH by lia.
  replace (S fuel - S m - 1)%nat with (fuel - m - 1)%nat by lia.
  destruct (ntop_loop (fuel - m - 1) p (Z.of_nat (2 * z)) max 16 _); [|done]. cbn [fmap option_fmap option_map mbind option_bind]. f_equal.
  destruct (Nat.ltb_spec k 7); [|lia]. unfold grps. cbn [seq fmap list_fmap colons flat_map]. fold (colons (list_fmap nat Z (grp p) (seq (S k) m))).
  by rewrite <- !app_assoc.
Qed.

(** The text of an address with a run of [m] zero groups at [z]. *)
Lemma inet6_text_run z m :
  (2 <= m)%nat -> (z + m <= 8)%nat ->
  ntop_loop 8 p (Z.of_nat (2 * z)) (Z.of_nat m) 16 0 = Some (colons (grps p 0 z) ++ ch ":" :: joined (grps p (z + m) (8 - z - m))).
Proof using Hb.
  intros Hm Hz. pose proof (ntop_loop_colons 8 (Z.of_nat m) z 0 z ltac:(lia) ltac:(lia) ltac:(lia)) as E. change (Z.of_nat (2 * 0)) with 0 in E. rewrite E.
  replace (Z.of_nat (2 * z) + (Z.of_nat m - 1) * 2 + 2) with (Z.of_nat (2 * (z + m))) by lia.
  rewrite (ntop_loop_joined _ _ _ (z + m) (8 - z - m)) by lia. done.
Qed.

End Print.

(** The address a run is left out of. *)
Lemma v6_around p z m :
  Forall is_byte p -> (16 <= length p)%nat -> (z + m <= 8)%nat -> (forall k, (z <= k < z + m)%nat -> zero_at p (2 * k) = true) ->
  v6 (grps p 0 z) ++ replicate (16 - 2 * z - 2 * (8 - z - m)) 0 ++ v6 (grps p (z + m) (8 - z - m)) = take 16 p.
Proof.
  intros Hb Hl Hz Hzero. transitivity (v6 (grps p 0 8)); [|by apply v6_grps].
  assert (E : grps p 0 8 = grps p 0 z ++ grps p z m ++ grps p (z + m) (8 - z - m)).
  { transitivity (grps p 0 (z + (m + (8 - z - m)))); [f_equal; lia|]. by rewrite !grps_app. }
  rewrite E, !v6_app, (v6_grps_zero p z m) by done. do 3 f_equal. lia.
Qed.

Lemma length_grps p k m : length (grps p k m) = m.
Proof. unfold grps. by rewrite length_fmap, length_seq. Qed.

(** The characters of an address. *)
Definition addr_char (c : Z) : Prop := ch "0" <= c <= ch "9" \/ c = ch "." \/ c = ch ":" \/ ch "a" <= c <= ch "f".

Lemma hex_chars g : group_ok g -> Forall addr_char (num_text g 1).
Proof.
  intros Hg. destruct (num_text_hex g Hg) as (hs & -> & _ & _ & Hh & _). apply Forall_fmap. eapply Forall_impl; [exact Hh|].
  intros h Hn. unfold nibble, addr_char, hex_digit, compose in *. destruct (Z.ltb_spec h 10);
    change (ch "0") with 48; change (ch "9") with 57; change (ch "a") with 97; change (ch "f") with 102; lia.
Qed.

Lemma addr_char_colon : Forall addr_char [ch ":"].
Proof. apply Forall_singleton. right. right. by left. Qed.

Lemma colons_chars gs : Forall group_ok gs -> Forall addr_char (colons gs).
Proof.
  induction 1 as [|g gs Hg Hgs IH]; [constructor|]. cbn [colons flat_map]. rewrite !Forall_app.
  split; [|exact IH]. split; [by apply hex_chars|apply addr_char_colon].
Qed.

Lemma joined_chars gs : Forall group_ok gs -> Forall addr_char (joined gs).
Proof.
  induction 1 as [|g gs Hg Hgs IH]; [constructor|]. cbn [joined]. apply Forall_app. split; [by apply hex_chars|].
  destruct gs; [constructor|]. constructor; [right; right; by left|exact IH].
Qed.

Definition dot_char (c : Z) : Prop := is_digit c \/ c = ch ".".

Lemma dec_chars x : 0 <= x < 2 ^ 64 -> Forall is_digit (num_text x 0).
Proof. intros Hx. destruct (num_text_dec x) as (ds & -> & _ & Hd & _); [exact Hx|done]. Qed.

Lemma dotted_chars a b c d : is_byte a -> is_byte b -> is_byte c -> is_byte d -> Forall dot_char (dotted_text a b c d).
Proof.
  intros Ha Hb Hc Hd. assert (H : forall x, is_byte x -> Forall dot_char (num_text x 0)).
  { intros x Hx. eapply Forall_impl; [apply dec_chars; unfold is_byte in Hx; lia|]. intros y Hy. by left. }
  assert (Hdot : Forall dot_char [ch "."]) by (repeat constructor).
  unfold dotted_text. rewrite !Forall_app. auto 10.
Qed.

Lemma run_chars a q : Forall group_ok a -> Forall addr_char q -> Forall addr_char (run_text a q).
Proof.
  intros Ha Hq. unfold run_text. apply Forall_app. split; [|constructor; [right; right; by left|exact Hq]].
  destruct a; [apply addr_char_colon|by apply colons_chars].
Qed.

(** An address printed with an IPv4 tail. *)
Lemma inet6_text_dotted p m :
  Forall is_byte p -> (16 <= length p)%nat -> (5 <= m <= 7)%nat ->
  (forall k, (0 <= k < m)%nat -> zero_at p (2 * k) = true) -> drop 12 (take 16 p) <> [255; 255; 255; 255] ->
  exists g d, ntop_loop 8 p 0 (Z.of_nat m) 12 0 = Some g /\ ngx_sprintf (s2b "%ud.%ud.%ud.%ud") (dotted p 12) = Some d
    /\ ngx_inet6_addr (ch ":" :: g ++ d) = Some (take 16 p) /\ Forall addr_char (ch ":" :: g ++ d).
Proof.
  intros Hb Hl Hm Hz H255. set (b := if (m =? 5)%nat then grps p 5 1 else []).
  exists (ch ":" :: colons b), (dotted_text (byte_at p 12) (byte_at p 13) (byte_at p 14) (byte_at p 15)).
  split; [|split; [by apply (sprintf_dotted_text p 12)|]].
  - rewrite ntop_loop_zero by lia. replace (0 + (Z.of_nat m - 1) * 2 + 2) with (Z.of_nat (2 * m)) by lia. subst b.
    destruct (Nat.eqb_spec m 5) as [->|Hne].
    + rewrite ntop_loop_group by (done || lia). change (ntop_loop 6 p 0 (Z.of_nat 5) 12 (Z.of_nat (2 * 6))) with (Some (@nil Z)).
      cbn [mbind option_bind fmap option_fmap option_map]. unfold grps, colons. cbn [seq fmap list_fmap flat_map Nat.ltb Nat.leb].
      by rewrite !app_nil_r.
    + cbn [ntop_loop]. destruct (Z.ltb_spec (Z.of_nat (2 * m)) 12); [lia|done].
  - assert (Hbl : (length b <= 1)%nat) by (subst b; destruct (_ =? _)%nat; cbn; lia).
    assert (Hbg : Forall group_ok b) by (subst b; destruct (_ =? _)%nat; [by apply grps_ok|constructor]).
    change (ch ":" :: (ch ":" :: colons b) ++ ?d) with (run_text [] (colons b ++ d)). split.
    2: { apply run_chars; [constructor|]. apply Forall_app. split; [by apply colons_chars|].
         eapply Forall_impl; [apply dotted_chars; by apply byte_at_ok|]. intros c [Hc|Hc]; [by left|by right; left]. }
    rewrite inet6_addr_mapped; [|done|done|by apply byte_at_ok..|].
    + f_equal. transitivity (v6 (grps p 0 8)); [|by apply v6_grps]. subst b.
      assert (E : v6 (grps p 6 2) = [byte_at p 12; byte_at p 13; byte_at p 14; byte_at p 15]).
      { transitivity (drop 12 (v6 (grps p 0 8))); [done|]. rewrite v6_grps by done. do 16 (destruct p as [|? p]; [cbn in Hl; lia|]). done. }
      destruct (Nat.eqb_spec m 5) as [->|Hne].
      * change (grps p 0 8) with (grps p 0 5 ++ grps p 5 1 ++ grps p 6 2). rewrite !v6_app, E, (v6_grps_zero p 0 5) by (intros; apply Hz; lia). done.
      * change (grps p 0 8) with (grps p 0 6 ++ grps p 6 2). rewrite v6_app, E, (v6_grps_zero p 0 6) by (intros; apply Hz; lia). done.
    + intros E. apply H255. pose proof (byte_at_ok p 12 Hb). pose proof (byte_at_ok p 13 Hb). pose proof (byte_at_ok p 14 Hb). pose proof (byte_at_ok p 15 Hb).
      unfold be4, INADDR_NONE, is_byte in *. assert (H4 : byte_at p 12 = 255 /\ byte_at p 13 = 255 /\ byte_at p 14 = 255 /\ byte_at p 15 = 255) by lia.
      destruct H4 as (E12 & E13 & E14 & E15). do 16 (destruct p as [|? p]; [cbn in Hl; lia|]). unfold byte_at in *. cbn [nth] in *. cbn [take drop]. rewrite take_0. congruence.
Qed.

(** [::255.255.255.255] and [::ffff:255.255.255.255] are printed with an IPv4
    tail that [ngx_inet_addr] takes for an error, all other addresses can be
    read. *)
Definition readable6 (addr : bytes) : Prop :=
  addr <> v6 [0; 0; 0; 0; 0; 0; 0xffff; 0xffff] /\ addr <> v6 [0; 0; 0; 0; 0; 0xffff; 0xffff; 0xffff].

Lemma readable6_tail p m :
  (16 <= length p)%nat -> (forall k, (0 <= k < m)%nat -> zero_at p (2 * k) = true) -> readable6 (take 16 p) ->
  m = 5%nat /\ byte_at p 10 = 255 /\ byte_at p 11 = 255 \/ (6 <= m <= 7)%nat ->
  drop 12 (take 16 p) <> [255; 255; 255; 255].
Proof.
  intros Hl Hz [H1 H2] Hm. assert (Hz2 : forall k, (k < m)%nat -> byte_at p (2 * k) = 0 /\ byte_at p (2 * k + 1) = 0).
  { intros k Hk. specialize (Hz k ltac:(lia)). unfold zero_at in Hz. apply andb_true_iff in Hz as [?%Z.eqb_eq ?%Z.eqb_eq]. by split. }
  clear Hz. do 16 (destruct p as [|? p]; [cbn in Hl; lia|]). pose proof (Hz2 0%nat ltac:(lia)) as E0. pose proof (Hz2 1%nat ltac:(lia)) as E1. pose proof (Hz2 2%nat ltac:(lia)) as E2.
  pose proof (Hz2 3%nat ltac:(lia)) as E3. pose proof (Hz2 4%nat ltac:(lia)) as E4. unfold byte_at in *. cbn in *. rewrite take_0 in *.
  intros [= -> -> -> ->]. destruct E0, E1, E2, E3, E4. subst. destruct Hm as [(-> & -> & ->)|Hm]; [by apply H2|].
  destruct (Hz2 5%nat ltac:(lia)). cbn in *. subst. by apply H1.
Qed.

(** The bytes behind the address do not matter. *)
Lemma inet6_ntop_reads p len :
  Forall is_byte p -> (16 <= length p)%nat -> (45 <= len)%nat -> readable6 (take 16 p) ->
  exists t, ngx_inet6_ntop p len = Some t /\ ngx_inet6_addr t = Some (take 16 p) /\ Forall addr_char t.
Proof.
  intros Hb Hl Hlen H255. unfold ngx_inet6_ntop. destruct (Nat.ltb_spec len NGX_INET6_ADDRSTRLEN); [unfold NGX_INET6_ADDRSTRLEN in *; lia|]. unfold inet6_text. cbv zeta.
  destruct (longest_run_spec p) as [Hz|(z & m & Hz & Hm & H2 & H8 & Hzero)].
  - rewrite Hz. change (u64 (-1) =? 0) with false. cbn [andb]. pose proof (ntop_loop_joined p Hb 8 (u64 (-1)) (z_max (longest_run p)) 0 8) as E.
    change (Z.of_nat (2 * 0)) with 0 in E. rewrite E; [|lia|lia|intros j Hj; change (u64 (-1)) with 18446744073709551615; lia].
    change (16 =? 12) with false. cbn [mbind option_bind app]. eexists. split; [reflexivity|]. rewrite app_nil_r.
    rewrite inet6_addr_full by (by apply grps_ok || done). rewrite v6_grps by done. split; [done|]. by apply joined_chars, grps_ok.
  - rewrite Hz, Hm. set (mapped := (Z.of_nat (2 * z) =? 0) && _). destruct mapped eqn:Em; subst mapped.
    + apply andb_true_iff in Em as [Ez%Z.eqb_eq Em]. assert (z = 0%nat) as -> by lia. change (Z.of_nat (2 * 0)) with 0.
      destruct (inet6_text_dotted p m) as (g & d & Eg & Ed & E); [done|done|lia|intros k Hk; apply Hzero; lia| |].
      { apply (readable6_tail p m Hl); [intros k Hk; apply Hzero; lia|done|lia]. }
      rewrite (bind_some _ _ _ Eg). change (12 =? 12) with true. rewrite (bind_some _ _ _ Ed). eexists. split; [reflexivity|]. exact E.
    + rewrite (bind_some _ _ _ (inet6_text_run p Hb z m H2 H8)). change (16 =? 12) with false. cbn [mbind option_bind].
      eexists. split; [reflexivity|]. rewrite app_nil_r.
      assert (Et : (if Z.of_nat (2 * z) =? 0 then [ch ":"] else []) ++ colons (grps p 0 z) ++ ch ":" :: joined (grps p (z + m) (8 - z - m))
                   = run_text (grps p 0 z) (joined (grps p (z + m) (8 - z - m)))).
      { unfold run_text. destruct z as [|z]; [done|]. destruct (Z.eqb_spec (Z.of_nat (2 * S z)) 0); [lia|done]. }
      rewrite Et, inet6_addr_run; [|by apply grps_ok|by apply grps_ok|rewrite !length_grps; lia]. rewrite !length_grps. rewrite v6_around by done.
      split; [done|]. apply run_chars; [by apply grps_ok|]. by apply joined_chars, grps_ok.
Qed.

(** IPv6 addresses as text.  [ngx_inet6_addr] reads what [ngx_inet6_ntop]
    prints: for every address, with its longest run of zeros left out or with
    an IPv4 tail, the text gives back the 16 bytes (unless it is
    [::255.255.255.255] or [::ffff:255.255.255.255], whose tail the reader takes
    for an error). *)
Theorem inet6_text_roundtrip p :
  Forall is_byte p -> length p = 16%nat -> readable6 p ->
  exists t, ngx_inet6_ntop p NGX_INET6_ADDRSTRLEN = Some t /\ ngx_inet6_addr t = Some p.
Proof.
  intros Hb Hl H255. destruct (inet6_ntop_reads p NGX_INET6_ADDRSTRLEN Hb) as (t & Et & E & _); [lia|done|by rewrite take_ge by lia|].
  exists t. split; [done|]. by rewrite E, take_ge by lia.
Qed.

Lemma inet6_text_roundtrip_witness :
  exists t, ngx_inet6_ntop (v6 [0x2001; 0xdb8; 0; 0; 0; 0; 0; 1]) NGX_INET6_ADDRSTRLEN = Some t
    /\ ngx_inet6_addr t = Some (v6 [0x2001; 0xdb8; 0; 0; 0; 0; 0; 1]).
Proof.
  apply (inet6_text_roundtrip (v6 [0x2001; 0xdb8; 0; 0; 0; 0; 0; 1])).
  - repeat (apply Forall_cons_2; [split; [discriminate|reflexivity]|]). apply Forall_nil_2.
  - reflexivity.
  - split; discriminate.
Defined.
