(* ===== verification/Url.v ===== *)
(** * Addresses of the configuration

    [ngx_parse_url] of [src/core/ngx_inet.c] and what it calls: the addresses
    of [server] directives and of listening sockets.  The answer of
    [getaddrinfo] is a parameter.  Allocations succeed; where one fails the
    configuration is refused.

    The theorem: the text [ngx_sock_ntop] prints for an address is parsed back
    to that address. *)

From S2P Require Import Prelude NgxString StatusLine CheckTypes CheckProto CheckCore CheckSafety CheckWorker.
From S2P Require Import Inet FastCgiRequest CheckConf AddPeer InetParse.

(** [ngx_url_t]; [sockaddr] holds the first [socklen] bytes of the union, and
    [err] is [NULL] at the start. *)
Record ngx_url_t := mk_url {
  u_url : bytes; u_host : bytes; u_port_text : bytes; u_uri : bytes;
  u_port : Z; u_default_port : Z; u_last_port : Z; u_family : Z;
  u_listen : bool; u_uri_part : bool; u_no_resolve : bool;
  u_no_port : bool; u_wildcard : bool;
  u_socklen : Z; u_sockaddr : bytes;
  u_addrs : list ngx_addr_t;
  u_err : option string
}.

#[export] Instance eta_url : Eta ngx_url_t := fun r =>
  mk_url (u_url r) (u_host r) (u_port_text r) (u_uri r) (u_port r) (u_default_port r) (u_last_port r) (u_family r)
    (u_listen r) (u_uri_part r) (u_no_resolve r) (u_no_port r) (u_wildcard r) (u_socklen r) (u_sockaddr r) (u_addrs r) (u_err r).

(** [ngx_memzero(&u, sizeof(ngx_url_t)); u.url = ..] *)
Definition url_of (text : bytes) : ngx_url_t :=
  mk_url text [] [] [] 0 0 0 0 false false false false false 0 [] [] None.

Definition SIZEOF_SOCKADDR_IN : Z := 16.
Definition SIZEOF_SOCKADDR_IN6 : Z := 28.
Definition SIZEOF_SUN_PATH : Z := 108.

(** ** Socket addresses *)

Definition htons_bytes (p : Z) : bytes := [u16 p / 256; u16 p mod 256].

(** [struct sockaddr_in] and [struct sockaddr_in6] with the rest zero. *)
Definition sin (port : Z) (addr : bytes) : bytes := [AF_INET; 0] ++ htons_bytes port ++ addr ++ replicate 8 0.
Definition sin6 (port : Z) (addr : bytes) : bytes := [AF_INET6; 0] ++ htons_bytes port ++ replicate 4 0 ++ addr ++ replicate 4 0.

(** [struct sockaddr_un] with the path as [ngx_cpystrn] copies it: up to a NUL
    and at most [len - 1] bytes. *)
Definition sun (path : bytes) : bytes :=
  let path := take (ngx_strnlen path (length path)) path in
  [AF_UNIX; 0] ++ path ++ replicate (Z.to_nat SIZEOF_SUN_PATH - length path) 0.

Definition ngx_inet_set_port (sa : bytes) (port : Z) : bytes :=
  if sa_family sa =? AF_UNIX then sa else set_port sa port.

(** [INADDR_ANY], and [IN6_IS_ADDR_UNSPECIFIED] *)
Definition ngx_inet_wildcard (sa : bytes) : bool :=
  if sa_family sa =? AF_INET then bool_decide (take 4 (drop 4 sa) = replicate 4 0)
  else if sa_family sa =? AF_INET6 then bool_decide (take 16 (drop 8 sa) = replicate 16 0)
  else false.

(** The addresses of one [sockaddr]: one for each port of the range. *)
Fixpoint add_addr_loop (k : nat) (sockaddr : bytes) (socklen port : Z) : option (list ngx_addr_t) :=
  match k with
  | O => Some []
  | S k =>
    let sa := ngx_inet_set_port sockaddr port in
    let len := if sa_family sa =? AF_INET6 then (NGX_INET6_ADDRSTRLEN + 8)%nat else (NGX_INET_ADDRSTRLEN + 6)%nat in
    name ← ngx_sock_ntop sa socklen len true;
    rest ← add_addr_loop k sockaddr socklen (port + 1);
    Some (mk_addr sa socklen name :: rest)
  end.

Definition ngx_inet_add_addr (u : ngx_url_t) (sockaddr : bytes) (socklen : Z) : option (ngx_rc * ngx_url_t) :=
  let nports := if u_last_port u =? 0 then 1 else u_last_port u - u_port u + 1 in
  l ← add_addr_loop (Z.to_nat nports) sockaddr socklen (u_port u);
  Some (NGX_OK, u <| u_addrs := u_addrs u ++ l |>).

(** [u->err = ..; return NGX_ERROR;] *)
Definition url_error (u : ngx_url_t) (e : string) : option (ngx_rc * ngx_url_t) := Some (NGX_ERROR, u <| u_err := Some e |>).

Section Resolve.
(** The answer of [getaddrinfo]: family, address and length of each entry;
    [None] when it fails. *)
Context (getaddrinfo : bytes -> option (list (Z * bytes * Z))).

Fixpoint add_addrs (u : ngx_url_t) (l : list (bytes * Z)) : option (ngx_rc * ngx_url_t) :=
  match l with
  | [] => Some (NGX_OK, u)
  | (sa, len) :: l => '(_, u) ← ngx_inet_add_addr u sa len; add_addrs u l
  end.

Definition ngx_inet_resolve_host (u : ngx_url_t) : option (ngx_rc * ngx_url_t) :=
  match getaddrinfo (u_host u) with
  | None => url_error u "host not found"
  | Some res =>
    let res := omap (fun '(f, sa, len) => if (f =? AF_INET) || (f =? AF_INET6) then Some (sa, len) else None) res in
    if (length res =? 0)%nat then url_error u "host not found" else add_addrs u res
  end.

(** ** Ports *)

Definition bad_port (n : Z) : bool := (n <? 1) || (65535 <? n).

(** The text after the colon: [u->port] and [u->last_port], or the error. *)
Definition parse_port (listen : bool) (text : bytes) (last_port : Z) : string + Z * Z :=
  let number text last_port :=
    let n := ngx_atoi text (blen text) in
    if bad_port n then inl "invalid port"
    else if negb (last_port =? 0) && (last_port <? n) then inl "invalid port range"
    else inr (n, last_port) in
  match (if listen : bool then ngx_strlchr text (ch "-") else None) with
  | Some d =>
    let n := ngx_atoi (drop (d + 1) text) (blen (drop (d + 1) text)) in
    if bad_port n then inl "invalid port" else number (take d text) n
  | None => number text last_port
  end%string.

(** ** The forms of an address *)

Definition ngx_parse_unix_domain_url (u : ngx_url_t) : option (ngx_rc * ngx_url_t) :=
  let path := drop 5 (u_url u) in
  let '(path, u) :=
    match (if u_uri_part u then ngx_strlchr path (ch ":") else None) with
    | Some i => (take i path, u <| u_uri := drop (i + 1) path |>)
    | None => (path, u)
    end in
  if blen path =? 0 then url_error u "no path in the unix domain socket"
  else
    let u := u <| u_host := path |> in
    if SIZEOF_SUN_PATH <? blen path + 1 then url_error u "too long path in the unix domain socket"
    else
      let saun := sun path in
      let u := u <| u_socklen := SIZEOF_SUN_PATH + 2 |> <| u_sockaddr := saun |> <| u_family := AF_UNIX |> in
      Some (NGX_OK, u <| u_addrs := [mk_addr saun (SIZEOF_SUN_PATH + 2) (take (length path + 5) (u_url u))] |>).

(** A number alone, for [listen]; [None] goes on at [no_port]. *)
Definition listen_port_only (u : ngx_url_t) : option (option (ngx_rc * ngx_url_t)) :=
  let text := u_url u in
  let dash := ngx_strlchr text (ch "-") in
  let m := match dash with Some d => ngx_atoi (drop (d + 1) text) (blen (drop (d + 1) text)) | None => 0 end in
  if bool_decide (is_Some dash) && (m =? rc_val NGX_ERROR) then None
  else
    let range_error := bool_decide (is_Some dash) && bad_port m in
    let last_port := if bool_decide (is_Some dash) && negb (bad_port m) then m else u_last_port u in
    let first := match dash with Some d => take d text | None => text end in
    let n := ngx_atoi first (blen first) in
    if n =? rc_val NGX_ERROR then None
    else Some
      (if range_error || bad_port n then url_error u "invalid port"
       else if negb (last_port =? 0) && (last_port <? n) then url_error (u <| u_last_port := last_port |>) "invalid port range"
       else
         let sa := sin n (replicate 4 0) in
         let u := u <| u_last_port := last_port |> <| u_port := n |> <| u_port_text := text |> <| u_wildcard := true |> <| u_sockaddr := sa |> in
         ngx_inet_add_addr u sa (u_socklen u)).

(** The host of an IPv4 address or a name, with the port set. *)
Definition parse_inet_host (u : ngx_url_t) (host : bytes) : option (ngx_rc * ngx_url_t) :=
  if blen host =? 0 then url_error u "no host"
  else
    let u := u <| u_host := host |> in
    if u_listen u && bool_decide (host = s2b "*") then
      let sa := sin (u_port u) (replicate 4 0) in
      ngx_inet_add_addr (u <| u_sockaddr := sa |> <| u_wildcard := true |>) sa (u_socklen u)
    else
      let addr := ngx_inet_addr host in
      let sa := sin (u_port u) (s_addr_bytes addr) in
      let u := u <| u_sockaddr := sa |> in
      if negb (addr =? INADDR_NONE) then ngx_inet_add_addr (if addr =? 0 then u <| u_wildcard := true |> else u) sa (u_socklen u)
      else if u_no_resolve u then Some (NGX_OK, u)
      else
        '(rc, u) ← ngx_inet_resolve_host u;
        if bool_decide (rc = NGX_OK) then
          a ← hd_error (u_addrs u);
          Some (NGX_OK, u <| u_family := sa_family (sockaddr a) |> <| u_socklen := socklen a |> <| u_sockaddr := sockaddr a |>
                          <| u_wildcard := ngx_inet_wildcard (sockaddr a) |>)
        else Some (NGX_ERROR, u).

Definition ngx_parse_inet_url (u : ngx_url_t) : option (ngx_rc * ngx_url_t) :=
  let u := u <| u_socklen := SIZEOF_SOCKADDR_IN |> <| u_sockaddr := [AF_INET; 0] |> <| u_family := AF_INET |> in
  let url := u_url u in
  let port := ngx_strlchr url (ch ":") in
  let uri := ngx_strlchr url (ch "/") in
  let uri := match ngx_strlchr url (ch "?"), uri with
             | Some a, Some x => Some (if (a <? x)%nat then a else x)
             | Some a, None => Some a
             | None, uri => uri
             end in
  if bool_decide (is_Some uri) && (u_listen u || negb (u_uri_part u)) then url_error u "invalid host"
  else
    let '(u, last, port) :=
      match uri with
      | Some x => (u <| u_uri := drop x url |>, x, match port with Some p => if (x <? p)%nat then None else Some p | None => None end)
      | None => (u, length url, port)
      end in
    let no_port :=
      let u := u <| u_err := None |> <| u_no_port := true |> <| u_port := u_default_port u |> <| u_last_port := 0 |> in
      parse_inet_host u (take last url) in
    match port with
    | Some p =>
      let text := take (last - (p + 1)) (drop (p + 1) url) in
      match parse_port (u_listen u) text (u_last_port u) with
      | inl e => url_error u e
      | inr (n, last_port) =>
        parse_inet_host (u <| u_last_port := last_port |> <| u_port := n |> <| u_port_text := text |>) (take p url)
      end
    | None =>
      if bool_decide (uri = None) && u_listen u then
        match listen_port_only u with Some r => r | None => no_port end
      else no_port
    end.

(** The address in brackets, with the port set. *)
Definition parse_inet6_host (u : ngx_url_t) (host : bytes) : option (ngx_rc * ngx_url_t) :=
  if blen host =? 0 then url_error u "no host"
  else
    let u := u <| u_host := [ch "["] ++ host ++ [ch "]"] |> in
    match ngx_inet6_addr host with
    | None => url_error u "invalid IPv6 address"
    | Some addr =>
      let sa := sin6 (u_port u) addr in
      let u := u <| u_sockaddr := sa |> <| u_wildcard := u_wildcard u || bool_decide (addr = replicate 16 0) |> <| u_family := AF_INET6 |> in
      ngx_inet_add_addr u sa (u_socklen u)
    end.

Definition ngx_parse_inet6_url (u : ngx_url_t) : option (ngx_rc * ngx_url_t) :=
  let u := u <| u_socklen := SIZEOF_SOCKADDR_IN6 |> <| u_sockaddr := [AF_INET6; 0] |> in
  let rest := drop 1 (u_url u) in
  match ngx_strlchr rest (ch "]") with
  | None => url_error u "invalid host"
  | Some p =>
    let host := take p rest in
    let after := drop (p + 1) rest in
    let uri := ngx_strlchr after (ch "/") in
    if bool_decide (is_Some uri) && (u_listen u || negb (u_uri_part u)) then url_error u "invalid host"
    else
      let '(u, after) := match uri with Some x => (u <| u_uri := drop x after |>, take x after) | None => (u, after) end in
      match after with
      | [] => parse_inet6_host (u <| u_no_port := true |> <| u_port := u_default_port u |>) host
      | c :: text =>
        if negb (c =? ch ":") then url_error u "invalid host"
        else
          match parse_port (u_listen u) text (u_last_port u) with
          | inl e => url_error u e
          | inr (n, last_port) => parse_inet6_host (u <| u_last_port := last_port |> <| u_port := n |> <| u_port_text := text |>) host
          end
      end
  end.

Definition ngx_parse_url (u : ngx_url_t) : option (ngx_rc * ngx_url_t) :=
  if (5 <=? blen (u_url u)) && (ngx_strncasecmp (u_url u) (s2b "unix:") 5 =? 0) then ngx_parse_unix_domain_url u
  else if bool_decide (hd_error (u_url u) = Some (ch "[")) then ngx_parse_inet6_url u
  else ngx_parse_inet_url u.

End Resolve.

(** ** What [ngx_sock_ntop] prints is read back *)

Lemma strlchr_none l c : c ∉ l -> ngx_strlchr l c = None.
Proof.
  induction l as [|x l IH]; [done|]. rewrite not_elem_of_cons. intros [Hx Hl]. cbn [ngx_strlchr].
  destruct (Z.eqb_spec x c); [congruence|]. by rewrite IH.
Qed.

Lemma not_in_text P (l : bytes) c : Forall P l -> ~ P c -> c ∉ l.
Proof. intros H Hc Hin. rewrite Forall_forall in H. by apply Hc, H. Qed.

Lemma atoi_num n : 0 <= n <= NGX_MAX_INT_T_VALUE -> ngx_atoi (num_text n 0) (blen (num_text n 0)) = n.
Proof.
  intros Hn. destruct (num_text_dec n) as (ds & -> & Hne & Hd & Hv); [unfold in_u64, NGX_MAX_INT_T_VALUE in *; lia|].
  rewrite ngx_atoi_spec, bool_decide_eq_true_2; [done|]. split_and!; [done|done|lia].
Qed.

Lemma parse_port_num n : 1 <= n <= 65535 -> parse_port false (num_text n 0) 0 = inr (n, 0).
Proof.
  intros Hn. unfold parse_port. rewrite atoi_num by (unfold NGX_MAX_INT_T_VALUE; lia). unfold bad_port.
  destruct (Z.ltb_spec n 1); [lia|]. destruct (Z.ltb_spec 65535 n); [lia|]. done.
Qed.

(** The first byte decides the form of the address. *)
Lemma not_unix c l : to_low c <> ch "u" -> (5 <=? blen (c :: l)) && (ngx_strncasecmp (c :: l) (s2b "unix:") 5 =? 0) = false.
Proof.
  intros Hc. destruct (5 <=? blen (c :: l)); [|done]. cbn [andb].
  change (ngx_strncasecmp (c :: l) (s2b "unix:") 5) with
    (if to_low c =? ch "u" then (if to_low c =? 0 then 0 else ngx_strncasecmp l (tl (s2b "unix:")) 4) else to_low c - ch "u").
  destruct (Z.eqb_spec (to_low c) (ch "u")); [done|]. apply Z.eqb_neq. lia.
Qed.

(** ** Both kinds of addresses *)

Lemma u16_small p : 0 <= p < 65536 -> u16 p = p.
Proof. intros H. unfold u16. by rewrite Z.mod_small. Qed.

Lemma htons_ok p : 0 <= p < 65536 -> Forall is_byte (htons_bytes p) /\ sa_port ([0; 0] ++ htons_bytes p) = p.
Proof.
  intros Hp. unfold htons_bytes, sa_port, byte_at. rewrite u16_small by done. cbn [app nth].
  split; [repeat constructor; unfold is_byte; dlia|dlia].
Qed.

Lemma set_port_same f0 f1 p l : set_port ([f0; f1] ++ htons_bytes p ++ l) p = [f0; f1] ++ htons_bytes p ++ l.
Proof. unfold set_port, htons_bytes. cbn [app take drop]. done. Qed.

(** Lists of constants and known bytes. *)
Ltac all_bytes := repeat (apply Forall_cons_2; [assumption || (unfold is_byte, AF_INET, AF_INET6; lia)|]); apply Forall_nil_2.

(** One address without a range of ports. *)
Lemma add_addr_one u sa sl name :
  u_last_port u = 0 -> sa_family sa <> AF_UNIX -> set_port sa (u_port u) = sa ->
  ngx_sock_ntop sa sl (if sa_family sa =? AF_INET6 then 53%nat else 21%nat) true = Some name ->
  ngx_inet_add_addr u sa sl = Some (NGX_OK, u <| u_addrs := u_addrs u ++ [mk_addr sa sl name] |>).
Proof.
  intros Hl Hf Hp Hn. unfold ngx_inet_add_addr. rewrite Hl. change (Z.to_nat (if 0 =? 0 then 1 else 0 - u_port u + 1)) with 1%nat.
  cbn [add_addr_loop]. unfold ngx_inet_set_port. destruct (Z.eqb_spec (sa_family sa) AF_UNIX); [done|]. rewrite Hp.
  change (NGX_INET6_ADDRSTRLEN + 8)%nat with 53%nat. change (NGX_INET_ADDRSTRLEN + 6)%nat with 21%nat. by rewrite Hn.
Qed.

(** The text is parsed to this address alone. *)
Definition parses_to (gai : bytes -> option (list (Z * bytes * Z))) (text : bytes) (default_port : Z) (a : ngx_addr_t) : Prop :=
  exists u, ngx_parse_url gai ((url_of text) <| u_default_port := default_port |>) = Some (NGX_OK, u)
    /\ u_addrs u = [a] /\ u_url u = text /\ u_no_port u = false.

Lemma dotted_head a b c d : is_byte a -> exists x l, dotted_text a b c d = x :: l /\ is_digit x.
Proof.
  unfold is_byte. intros Ha. destruct (num_text_dec a) as (ds & E & Hne & Hd & _); [unfold in_u64; lia|]. unfold dotted_text. rewrite E.
  destruct Hd as [|x ds Hx _]; [done|]. by eexists _, _.
Qed.

Lemma to_low_digit x : is_digit x -> to_low x <> ch "u" /\ x <> ch "[".
Proof.
  intros [H1 H2]. change (ch "0") with 48 in *. change (ch "9") with 57 in *. unfold to_low. change (ch "A") with 65. change (ch "u") with 117. change (ch "[") with 91.
  destruct (Z.leb_spec 65 x); [lia|]. cbn [andb]. lia.
Qed.

Lemma sock_ntop_sin p a b c d :
  0 <= p < 65536 -> is_byte a -> is_byte b -> is_byte c -> is_byte d ->
  ngx_sock_ntop (sin p [a; b; c; d]) SIZEOF_SOCKADDR_IN 21 true = Some (dotted_text a b c d ++ ch ":" :: num_text p 0).
Proof.
  intros Hp Ha Hb Hc Hd. destruct (htons_ok p Hp) as [Hpb Hpp]. rewrite sock_ntop_inet; [|reflexivity| |cbn; lia].
  - change (sa_port (sin p [a; b; c; d])) with (sa_port ([0; 0] ++ htons_bytes p)). rewrite Hpp. reflexivity.
  - unfold sin. rewrite !Forall_app. split_and!; [all_bytes|exact Hpb|all_bytes|all_bytes].
Qed.

(** The host part. *)
Lemma parse_inet_host_dotted gai u a b c d name :
  is_byte a -> is_byte b -> is_byte c -> is_byte d -> be4 d c b a <> INADDR_NONE ->
  u_listen u = false -> u_last_port u = 0 -> u_addrs u = [] -> u_socklen u = SIZEOF_SOCKADDR_IN ->
  ngx_sock_ntop (sin (u_port u) [a; b; c; d]) SIZEOF_SOCKADDR_IN 21 true = Some name ->
  exists v, parse_inet_host gai u (dotted_text a b c d) = Some (NGX_OK, v)
    /\ u_addrs v = [mk_addr (sin (u_port u) [a; b; c; d]) SIZEOF_SOCKADDR_IN name] /\ u_url v = u_url u /\ u_no_port v = u_no_port u.
Proof.
  intros Ha Hb Hc Hd Hne Hli Hlp Had Hsl Hn. destruct (dotted_head a b c d Ha) as (x & l & Ex & Hx).
  unfold parse_inet_host. destruct (Z.eqb_spec (blen (dotted_text a b c d)) 0) as [E|_]; [rewrite Ex in E; unfold blen in E; cbn in E; lia|].
  change (u_listen (u <| u_host := dotted_text a b c d |>)) with (u_listen u). rewrite Hli. cbn [andb]. rewrite inet_addr_dotted by done.
  destruct (Z.eqb_spec (be4 d c b a) INADDR_NONE); [done|]. cbn [negb].
  assert (Es : s_addr_bytes (be4 d c b a) = [a; b; c; d]).
  { unfold s_addr_bytes. by destruct (be4_bytes d c b a Hd Hc Hb Ha) as (-> & -> & -> & ->). }
  rewrite Es. change (u_port (u <| u_host := dotted_text a b c d |>)) with (u_port u).
  set (sa := sin (u_port u) [a; b; c; d]) in *.
  assert (Hset : set_port sa (u_port u) = sa) by apply (set_port_same 2 0 (u_port u) ([a; b; c; d] ++ replicate 8 0)).
  set (w := if be4 d c b a =? 0 then _ else _).
  assert (Hw : u_last_port w = 0 /\ u_port w = u_port u /\ u_addrs w = [] /\ u_url w = u_url u /\ u_no_port w = u_no_port u /\ u_socklen w = u_socklen u).
  { subst w. destruct (_ =? 0); cbn; split_and!; (assumption || reflexivity). }
  destruct Hw as (W1 & W2 & W3 & W4 & W5 & W6).
  change (u_socklen (u <| u_host := dotted_text a b c d |> <| u_sockaddr := sa |>)) with (u_socklen u). rewrite Hsl.
  rewrite (add_addr_one w sa SIZEOF_SOCKADDR_IN name); [|done|discriminate|by rewrite W2|exact Hn].
  eexists. split; [reflexivity|]. cbn. rewrite W3, W4, W5. done.
Qed.

(** Characters a text does not have. *)
Lemma inet_text_free p a b c d x :
  is_byte a -> is_byte b -> is_byte c -> is_byte d -> 0 <= p < 2 ^ 64 -> x < 46 \/ 57 < x \/ x = 47 ->
  (x ∉ dotted_text a b c d) /\ (x ∉ num_text p 0).
Proof.
  intros Ha Hb Hc Hd Hp Hx. split.
  - apply (not_in_text _ _ _ (dotted_chars a b c d Ha Hb Hc Hd)). intros [[H1 H2]|H]; change (ch "0") with 48 in *; change (ch "9") with 57 in *; change (ch ".") with 46 in *; lia.
  - apply (not_in_text _ _ _ (dec_chars p Hp)). intros [H1 H2]; change (ch "0") with 48 in *; change (ch "9") with 57 in *; lia.
Qed.

Lemma text_free (h : bytes) y (t : bytes) x : (x ∉ h) /\ (x ∉ t) -> x <> y -> x ∉ h ++ y :: t.
Proof. intros [H1 H2] Hy. rewrite elem_of_app, elem_of_cons. naive_solver. Qed.

(** The text of a host and a port. *)
Lemma parse_inet_url_split gai u host p :
  u_url u = host ++ ch ":" :: num_text p 0 -> 1 <= p <= 65535 -> u_listen u = false -> u_last_port u = 0 ->
  ch ":" ∉ host -> ch "/" ∉ host ++ ch ":" :: num_text p 0 -> ch "?" ∉ host ++ ch ":" :: num_text p 0 ->
  ngx_parse_inet_url gai u
  = parse_inet_host gai (u <| u_socklen := SIZEOF_SOCKADDR_IN |> <| u_sockaddr := [AF_INET; 0] |> <| u_family := AF_INET |>
                           <| u_last_port := 0 |> <| u_port := p |> <| u_port_text := num_text p 0 |>) host.
Proof.
  intros Eu Hp Hli Hlp Hcol Hsl Hask. unfold ngx_parse_inet_url.
  set (w := u <| u_socklen := SIZEOF_SOCKADDR_IN |> <| u_sockaddr := [AF_INET; 0] |> <| u_family := AF_INET |>).
  assert (Hw : u_url w = host ++ ch ":" :: num_text p 0 /\ u_listen w = false /\ u_last_port w = 0) by (split_and!; assumption).
  clearbody w. clear Eu Hli Hlp u. destruct Hw as (Eu & Hli & Hlp). rewrite Eu.
  rewrite (ngx_strlchr_app host (ch ":") (num_text p 0) Hcol), (strlchr_none _ _ Hsl), (strlchr_none _ _ Hask).
  rewrite bool_decide_eq_false_2 by (by intros [? ?]). cbn [andb].
  assert (Etxt : take (length (host ++ ch ":" :: num_text p 0) - (length host + 1)) (drop (length host + 1) (host ++ ch ":" :: num_text p 0)) = num_text p 0).
  { rewrite drop_app_ge by lia. replace (length host + 1 - length host)%nat with 1%nat by lia. cbn [drop]. apply take_ge. rewrite length_app. cbn [length]. lia. }
  rewrite Etxt, Hli, Hlp, parse_port_num, take_app_length by lia. reflexivity.
Qed.

Lemma parse_inet_text gai p a b c d dp :
  1 <= p <= 65535 -> is_byte a -> is_byte b -> is_byte c -> is_byte d -> be4 d c b a <> INADDR_NONE ->
  let text := dotted_text a b c d ++ ch ":" :: num_text p 0 in
  ngx_sock_ntop (sin p [a; b; c; d]) SIZEOF_SOCKADDR_IN 21 true = Some text
  /\ parses_to gai text dp (mk_addr (sin p [a; b; c; d]) SIZEOF_SOCKADDR_IN text).
Proof.
  intros Hp Ha Hb Hc Hd Hne text. pose proof (sock_ntop_sin p a b c d ltac:(lia) Ha Hb Hc Hd) as Hntop. split; [exact Hntop|].
  destruct (dotted_head a b c d Ha) as (x & l & Ex & Hx). destruct (to_low_digit x Hx) as [Hlow Hbr].
  assert (Et : text = x :: l ++ ch ":" :: num_text p 0) by (subst text; by rewrite Ex).
  assert (H1 : (5 <=? blen text) && (ngx_strncasecmp text (s2b "unix:") 5 =? 0) = false) by (rewrite Et; by apply not_unix).
  assert (H2 : hd_error text <> Some (ch "[")) by (rewrite Et; cbn; congruence).
  unfold parses_to, ngx_parse_url. set (u := (url_of text) <| u_default_port := dp |>). change (u_url u) with text.
  rewrite H1, bool_decide_eq_false_2 by done.
  assert (Hfree : forall y, y < 46 \/ 57 < y \/ y = 47 -> (y ∉ dotted_text a b c d) /\ (y ∉ num_text p 0)) by (intros; apply inet_text_free; (assumption || lia)).
  rewrite (parse_inet_url_split gai u (dotted_text a b c d) p eq_refl Hp eq_refl eq_refl).
  - match goal with |- context [parse_inet_host gai ?w _] =>
      destruct (parse_inet_host_dotted gai w a b c d text Ha Hb Hc Hd Hne eq_refl eq_refl eq_refl eq_refl Hntop) as (v & E & Hv) end.
    exists v. split; [exact E|exact Hv].
  - apply (Hfree (ch ":")). right. left. reflexivity.
  - apply text_free; [apply Hfree; right; right; reflexivity|discriminate].
  - apply text_free; [apply Hfree; right; left; reflexivity|discriminate].
Qed.

Lemma sprintf_port p : 0 <= p < 65536 -> ngx_sprintf (s2b "]:%d") [AInt p] = Some (ch "]" :: ch ":" :: num_text p 0).
Proof.
  intros Hp. pose proof (dec_short 5 p ltac:(cbn; lia) ltac:(lia)). unfold ngx_sprintf, ngx_vslprintf.
  change (s2b "]:%d") with (ch "]" :: ch ":" :: num_conv FD). change (length (ch "]" :: ch ":" :: num_conv FD)) with 4%nat.
  rewrite vsl_lit by (done || lia). rewrite vsl_lit by (done || lia). rewrite vsl_num1 by (cbn [num_hex]; lia). done.
Qed.

Lemma sock_ntop_sin6 p addr :
  0 <= p < 65536 -> Forall is_byte addr -> length addr = 16%nat -> readable6 addr ->
  exists t, ngx_sock_ntop (sin6 p addr) SIZEOF_SOCKADDR_IN6 53 true = Some (ch "[" :: t ++ ch "]" :: ch ":" :: num_text p 0)
    /\ ngx_inet6_addr t = Some addr /\ Forall addr_char t.
Proof.
  intros Hp Hb Hl H255. destruct (htons_ok p Hp) as [_ Hpp].
  destruct (inet6_ntop_reads (addr ++ replicate 4 0) 53) as (t & Et & E & Hc).
  - apply Forall_app. split; [exact Hb|all_bytes].
  - rewrite length_app. lia.
  - lia.
  - by rewrite take_app_le, take_ge by lia.
  - exists t. rewrite take_app_le, take_ge in E by lia. split; [|done]. unfold ngx_sock_ntop.
    change (sa_family (sin6 p addr)) with AF_INET6. change (AF_INET6 =? AF_INET) with false. rewrite Z.eqb_refl.
    change (drop 8 (sin6 p addr)) with (addr ++ replicate 4 0). rewrite (bind_some _ _ _ Et).
    change (sa_port (sin6 p addr)) with (sa_port ([0; 0] ++ htons_bytes p)). rewrite Hpp, (bind_some _ _ _ (sprintf_port p Hp)). done.
Qed.

(** The text in brackets. *)
Lemma parse_inet6_url_split u t p addr name :
  u_url u = ch "[" :: t ++ ch "]" :: ch ":" :: num_text p 0 -> 1 <= p <= 65535 ->
  u_listen u = false -> u_last_port u = 0 -> u_addrs u = [] -> ch "]" ∉ t -> t <> [] -> ngx_inet6_addr t = Some addr ->
  ngx_sock_ntop (sin6 p addr) SIZEOF_SOCKADDR_IN6 53 true = Some name ->
  exists v, ngx_parse_inet6_url u = Some (NGX_OK, v)
    /\ u_addrs v = [mk_addr (sin6 p addr) SIZEOF_SOCKADDR_IN6 name] /\ u_url v = u_url u /\ u_no_port v = u_no_port u.
Proof.
  intros Eu Hp Hli Hlp Had Ht Hne Ea Hn. unfold ngx_parse_inet6_url.
  set (w := u <| u_socklen := SIZEOF_SOCKADDR_IN6 |> <| u_sockaddr := [AF_INET6; 0] |>).
  assert (Hw : u_url w = u_url u /\ u_listen w = false /\ u_last_port w = 0 /\ u_addrs w = [] /\ u_no_port w = u_no_port u
               /\ u_socklen w = SIZEOF_SOCKADDR_IN6) by (split_and!; (assumption || reflexivity)).
  clearbody w. destruct Hw as (W1 & W2 & W3 & W4 & W5 & W6). rewrite W1, Eu. change (drop 1 (ch "[" :: ?l)) with l.
  rewrite (ngx_strlchr_app t (ch "]") (ch ":" :: num_text p 0) Ht), take_app_length.
  assert (Eafter : drop (length t + 1) (t ++ ch "]" :: ch ":" :: num_text p 0) = ch ":" :: num_text p 0).
  { rewrite drop_app_ge by lia. by replace (length t + 1 - length t)%nat with 1%nat by lia. }
  rewrite Eafter. rewrite (strlchr_none (ch ":" :: num_text p 0) (ch "/")).
  2: { rewrite elem_of_cons. intros [?|H]; [done|]. eapply (not_in_text is_digit) in H; [done|apply dec_chars; lia|].
       intros [H1 H2]. change (ch "0") with 48 in *. change (ch "/") with 47 in *. lia. }
  rewrite bool_decide_eq_false_2 by (by intros [? ?]). cbn [andb]. rewrite Z.eqb_refl. cbn [negb]. rewrite W2, W3, parse_port_num by lia. unfold parse_inet6_host.
  destruct (Z.eqb_spec (blen t) 0) as [E|_]; [unfold blen in E; destruct t; [done|cbn in E; lia]|]. rewrite Ea.
  match goal with |- context [ngx_inet_add_addr ?x ?sa ?l] => change l with (u_socklen w); change sa with (sin6 p addr) end.
  rewrite W6. match goal with |- context [ngx_inet_add_addr ?x _ _] => set (y := x) end.
  assert (Hy : u_last_port y = 0 /\ u_port y = p /\ u_addrs y = [] /\ u_url y = u_url u /\ u_no_port y = u_no_port u) by (subst y; cbn; by split_and!).
  clearbody y. destruct Hy as (Y1 & Y2 & Y3 & Y4 & Y5).
  rewrite (add_addr_one y (sin6 p addr) SIZEOF_SOCKADDR_IN6 name); [|done|discriminate| |exact Hn].
  - eexists. split; [reflexivity|]. cbn. rewrite Y3, Y4, Y5, Eu. done.
  - rewrite Y2. apply (set_port_same 10 0 p (replicate 4 0 ++ addr ++ replicate 4 0)).
Qed.

(** The socket addresses with port [p]. *)
Inductive conf_sockaddr (p : Z) : bytes -> Prop :=
  | conf_sin a b c d : is_byte a -> is_byte b -> is_byte c -> is_byte d -> conf_sockaddr p (sin p [a; b; c; d])
  | conf_sin6 addr : Forall is_byte addr -> length addr = 16%nat -> conf_sockaddr p (sin6 p addr).

(** 255.255.255.255 as IPv4 address, compatible and mapped: [ngx_inet_addr]
    uses this value for errors. *)
Definition broadcast (p : Z) : list bytes :=
  [sin p [255; 255; 255; 255]; sin6 p (v6 [0; 0; 0; 0; 0; 0; 0xffff; 0xffff]); sin6 p (v6 [0; 0; 0; 0; 0; 0xffff; 0xffff; 0xffff])].

Lemma inet6_addr_nonempty t addr : ngx_inet6_addr t = Some addr -> t <> [].
Proof. by intros H ->. Qed.

Lemma parse_inet6_text gai p addr dp :
  1 <= p <= 65535 -> Forall is_byte addr -> length addr = 16%nat -> readable6 addr ->
  exists text, ngx_sock_ntop (sin6 p addr) SIZEOF_SOCKADDR_IN6 53 true = Some text
    /\ parses_to gai text dp (mk_addr (sin6 p addr) SIZEOF_SOCKADDR_IN6 text).
Proof.
  intros Hp Hb Hl H255. destruct (sock_ntop_sin6 p addr ltac:(lia) Hb Hl H255) as (t & Hn & Ea & Hc). eexists. split; [exact Hn|].
  set (text := ch "[" :: t ++ ch "]" :: ch ":" :: num_text p 0) in *. unfold parses_to, ngx_parse_url. set (u := (url_of text) <| u_default_port := dp |>).
  change (u_url u) with text.
  assert (H1 : (5 <=? blen text) && (ngx_strncasecmp text (s2b "unix:") 5 =? 0) = false) by (by apply not_unix).
  rewrite H1, bool_decide_eq_true_2 by reflexivity.
  destruct (parse_inet6_url_split u t p addr text eq_refl Hp eq_refl eq_refl eq_refl) as (v & E & Hv); [|by eapply inet6_addr_nonempty|exact Ea|exact Hn|].
  - apply (not_in_text _ _ _ Hc). unfold addr_char. change (ch "]") with 93. change (ch "0") with 48. change (ch "9") with 57. change (ch ".") with 46.
    change (ch ":") with 58. change (ch "a") with 97. change (ch "f") with 102. lia.
  - exists v. split; [exact E|exact Hv].
Qed.

Lemma not_broadcast4 p a b c d :
  is_byte a -> is_byte b -> is_byte c -> is_byte d -> sin p [a; b; c; d] ∉ broadcast p -> be4 d c b a <> INADDR_NONE.
Proof.
  intros Ha Hb Hc Hd Hn E. apply Hn. unfold be4, INADDR_NONE, is_byte in *.
  assert (a = 255 /\ b = 255 /\ c = 255 /\ d = 255) as (-> & -> & -> & ->) by lia. left.
Qed.

Lemma not_broadcast6 p addr : sin6 p addr ∉ broadcast p -> readable6 addr.
Proof. intros Hn. split; intros ->; apply Hn; unfold broadcast; set_solver. Qed.

Lemma address_text_parses gai dp p sa :
  1 <= p <= 65535 -> conf_sockaddr p sa -> sa ∉ broadcast p ->
  exists text, ngx_sock_ntop sa (blen sa) (if sa_family sa =? AF_INET6 then 53%nat else 21%nat) true = Some text
    /\ parses_to gai text dp (mk_addr sa (blen sa) text).
Proof.
  intros Hp [a b c d Ha Hb Hc Hd|addr Hb Hl] Hn.
  - eexists. apply (parse_inet_text gai p a b c d dp Hp Ha Hb Hc Hd). by eapply not_broadcast4.
  - assert (E : blen (sin6 p addr) = SIZEOF_SOCKADDR_IN6) by (unfold blen, sin6; rewrite !length_app, Hl; reflexivity). rewrite E.
    apply (parse_inet6_text gai p addr dp Hp Hb Hl). by eapply not_broadcast6.
Qed.

(** The three addresses are not read back: IPv6 is an error, and 255.255.255.255
    is looked up as the name of a host. *)
Lemma broadcast_not_read :
  Forall (fun sa => match ngx_sock_ntop sa (blen sa) (if sa_family sa =? AF_INET6 then 53%nat else 21%nat) true with
                    | Some text => (forall a, ~ parses_to (fun _ => None) text 80 a)
                    | None => False
                    end) (broadcast 8080).
Proof.
  repeat apply Forall_cons_2; [..|apply Forall_nil_2];
    match goal with |- match ?t with _ => _ end => let v := eval vm_compute in t in change t with v end;
    cbv beta iota; intros a (v & E & _); vm_compute in E; discriminate.
Qed.

(** C28: addresses as text.  Every IPv4 or IPv6 socket address with a port is
    printed by [ngx_sock_ntop] as a text that [ngx_parse_url] reads back to
    exactly that address, without asking the resolver, with three exceptions:
    255.255.255.255 as an IPv4, IPv4-compatible or IPv4-mapped address, which
    is not read back ([broadcast_not_read]). *)
Theorem address_text_roundtrip gai dp p sa :
  1 <= p <= 65535 -> conf_sockaddr p sa -> sa ∉ broadcast p ->
  exists text, ngx_sock_ntop sa (blen sa) (if sa_family sa =? AF_INET6 then 53%nat else 21%nat) true = Some text
    /\ parses_to gai text dp (mk_addr sa (blen sa) text).
Proof. apply address_text_parses. Qed.

Lemma address_text_roundtrip_witness :
  exists text, ngx_sock_ntop (sin6 8080 (v6 [0xfe80; 0; 0; 0; 0; 0; 0; 1])) 28 53 true = Some text
    /\ parses_to (fun _ => None) text 80 (mk_addr (sin6 8080 (v6 [0xfe80; 0; 0; 0; 0; 0; 0; 1])) 28 text).
Proof.
  apply (address_text_roundtrip (fun _ => None) 80 8080 (sin6 8080 (v6 [0xfe80; 0; 0; 0; 0; 0; 0; 1]))).
  - split; discriminate.
  - apply conf_sin6.
    + repeat (apply Forall_cons_2; [split; [discriminate|reflexivity]|]). apply Forall_nil_2.
    + reflexivity.
  - intros H. repeat (apply elem_of_cons in H as [H|H]; [discriminate|]). by apply elem_of_nil in H.
Defined.

(** ** What an accepted address has *)

Lemma option_bind_inv {A B} (m : option A) (f : A -> option B) y : m ≫= f = Some y -> exists x, m = Some x /\ f x = Some y.
Proof. destruct m as [x|]; [|done]. intros H. by exists x. Qed.

(** The configuration of the result is that of the request, the port is the
    default one where the text has none. *)
Record accepted (u v : ngx_url_t) : Prop := {
  acc_url : u_url v = u_url u;
  acc_port : u_no_port v = true -> u_port v = u_default_port u;
  acc_addrs : u_no_resolve u = false -> u_addrs v <> [];
  acc_host : nul_free (u_url u) -> nul_free (u_host v)
}.

Lemma add_addr_accepted u sa sl rc v :
  u_last_port u = 0 -> ngx_inet_add_addr u sa sl = Some (rc, v) ->
  exists a, v = u <| u_addrs := u_addrs u ++ [a] |>.
Proof.
  intros Hl. unfold ngx_inet_add_addr. rewrite Hl. change (Z.to_nat (if 0 =? 0 then 1 else 0 - u_port u + 1)) with 1%nat.
  intros (l & E & H)%option_bind_inv. cbn [add_addr_loop] in E. apply option_bind_inv in E as (name & _ & E). cbn in E.
  injection E as <-. injection H as _ <-. eexists. reflexivity.
Qed.

Lemma add_addrs_accepted l u rc v :
  u_last_port u = 0 -> add_addrs u l = Some (rc, v) ->
  exists new, v = u <| u_addrs := u_addrs u ++ new |> /\ length new = length l.
Proof.
  revert u; induction l as [|[sa len] l IH]; intros u Hl; cbn [add_addrs].
  - intros [= _ <-]. exists []. rewrite app_nil_r. by destruct u.
  - intros ([rc1 u1] & (a & ->)%add_addr_accepted & H)%option_bind_inv; [|done].
    apply IH in H as (new & -> & Hn); [|exact Hl]. exists (a :: new). cbn [length]. rewrite Hn. split; [|done].
    destruct u. cbn. by rewrite <- app_assoc.
Qed.

Section Accepted.
Context (gai : bytes -> option (list (Z * bytes * Z))).

(** The host part keeps the text and the port. *)
Lemma inet_host_accepted u host v :
  u_listen u = false -> u_last_port u = 0 -> parse_inet_host gai u host = Some (NGX_OK, v) ->
  u_url v = u_url u /\ u_no_port v = u_no_port u /\ u_port v = u_port u /\ u_host v = host /\ (u_no_resolve u = false -> u_addrs v <> []).
Proof.
  intros Hli Hlp. unfold parse_inet_host. destruct (blen host =? 0); [done|].
  set (w := u <| u_host := host |>).
  assert (Hw : u_listen w = false /\ u_last_port w = 0 /\ u_url w = u_url u /\ u_no_port w = u_no_port u /\ u_port w = u_port u
               /\ u_host w = host /\ u_no_resolve w = u_no_resolve u) by (by split_and!).
  clearbody w. destruct Hw as (W1 & W2 & <- & <- & <- & <- & <-). rewrite W1. cbn [andb]. clear Hli Hlp.
  set (sa := sin _ _). destruct (negb (ngx_inet_addr (u_host w) =? INADDR_NONE)).
  - intros (a & ->)%add_addr_accepted; [|by destruct (_ =? 0)].
    destruct (_ =? 0); cbn; split_and!; try done; intros _; by destruct (u_addrs w).
  - change (u_no_resolve (w <| u_sockaddr := sa |>)) with (u_no_resolve w). destruct (u_no_resolve w).
    + intros [= <-]. by split_and!.
    + intros ([rc x] & E & H)%option_bind_inv. destruct (bool_decide_reflect (rc = NGX_OK)) as [->|]; [|done].
      unfold ngx_inet_resolve_host in E. change (u_host (w <| u_sockaddr := sa |>)) with (u_host w) in E.
      destruct (gai (u_host w)) as [ans|]; [|done]. cbv zeta in E. set (res := omap _ _) in E. destruct (length res =? 0)%nat eqn:El; [done|].
      apply add_addrs_accepted in E as (new & -> & Hn); [|exact W2]. apply option_bind_inv in H as (a & _ & H). injection H as <-.
      cbn. split_and!; try done. intros _ Hnil. apply Nat.eqb_neq in El. apply (f_equal length) in Hnil. rewrite length_app in Hnil. cbn in Hnil. lia.
Qed.

Lemma parse_port_last text last r : parse_port false text last = inr r -> snd r = last.
Proof.
  unfold parse_port. destruct (bad_port _); [done|]. destruct (_ && _); [done|]. by intros [= <-].
Qed.

Lemma inet_url_accepted u v :
  u_listen u = false -> u_last_port u = 0 -> u_no_port u = false -> ngx_parse_inet_url gai u = Some (NGX_OK, v) -> accepted u v.
Proof.
  intros Hli Hlp Hnp. unfold ngx_parse_inet_url.
  set (w := u <| u_socklen := SIZEOF_SOCKADDR_IN |> <| u_sockaddr := [AF_INET; 0] |> <| u_family := AF_INET |>).
  assert (Hw : u_url w = u_url u /\ u_listen w = false /\ u_last_port w = 0 /\ u_no_port w = false /\ u_no_resolve w = u_no_resolve u
               /\ u_default_port w = u_default_port u) by (by split_and!).
  clearbody w. destruct Hw as (W1 & W2 & W3 & W4 & W5 & W6). rewrite W1, W2.
  destruct (bool_decide _ && _); [done|]. set (tr := match _ with Some x => _ | None => _ end).
  assert (Ht : u_url (fst (fst tr)) = u_url u /\ u_listen (fst (fst tr)) = false /\ u_last_port (fst (fst tr)) = 0 /\ u_no_port (fst (fst tr)) = false
               /\ u_no_resolve (fst (fst tr)) = u_no_resolve u /\ u_default_port (fst (fst tr)) = u_default_port u).
  { subst tr. destruct (match ngx_strlchr (u_url u) (ch "?") with Some _ => _ | None => _ end); by split_and!. }
  clearbody tr. destruct tr as [[x last] port]. cbn [fst] in Ht. clear W1 W2 W3 W4 W5 W6 w.
  destruct Ht as (W1 & W2 & W3 & W4 & W5 & W6). rewrite W2, W3, W6, andb_false_r. destruct port as [p|].
  - destruct (parse_port false _ 0) as [e|[n lp]] eqn:Ep; [done|]. apply parse_port_last in Ep. cbn [snd] in Ep. subst lp.
    intros (E1 & E2 & _ & E4 & E5)%inet_host_accepted; [|exact W2|reflexivity]. cbn in E1, E2, E5.
    split; [congruence|congruence|by rewrite <- W5|rewrite E4; apply Forall_take].
  - intros (E1 & E2 & E3 & E4 & E5)%inet_host_accepted; [|exact W2|reflexivity]. cbn in E1, E2, E3, E5.
    split; [congruence|done|by rewrite <- W5|rewrite E4; apply Forall_take].
Qed.

(** The part after the brackets. *)
Lemma inet6_url_accepted u v :
  u_listen u = false -> u_last_port u = 0 -> u_no_port u = false -> ngx_parse_inet6_url u = Some (NGX_OK, v) -> accepted u v.
Proof.
  intros Hli Hlp Hnp. unfold ngx_parse_inet6_url.
  set (w := u <| u_socklen := SIZEOF_SOCKADDR_IN6 |> <| u_sockaddr := [AF_INET6; 0] |>).
  assert (Hw : u_url w = u_url u /\ u_listen w = false /\ u_last_port w = 0 /\ u_no_port w = false /\ u_no_resolve w = u_no_resolve u
               /\ u_default_port w = u_default_port u) by (by split_and!).
  clearbody w. destruct Hw as (W1 & W2 & W3 & W4 & W5 & W6). rewrite W1, W2.
  destruct (ngx_strlchr (drop 1 (u_url u)) (ch "]")) as [p|]; [|done]. destruct (bool_decide _ && _); [done|].
  set (tr := match ngx_strlchr _ _ with Some x => _ | None => _ end).
  assert (Ht : u_url (fst tr) = u_url u /\ u_listen (fst tr) = false /\ u_last_port (fst tr) = 0 /\ u_no_port (fst tr) = false
               /\ u_no_resolve (fst tr) = u_no_resolve u /\ u_default_port (fst tr) = u_default_port u).
  { subst tr. destruct (ngx_strlchr _ _); by split_and!. }
  clearbody tr. destruct tr as [x after]. cbn [fst] in Ht. clear W1 W2 W3 W4 W5 W6 w. destruct Ht as (W1 & W2 & W3 & W4 & W5 & W6).
  set (host := take p (drop 1 (u_url u))). assert (Hhost : nul_free (u_url u) -> nul_free host) by (intros H; by apply Forall_take, Forall_drop).
  clearbody host.
  assert (Hgo : forall y, u_url y = u_url u -> u_last_port y = 0 -> (u_no_port y = true -> u_port y = u_default_port u) ->
            parse_inet6_host y host = Some (NGX_OK, v) -> accepted u v).
  { intros y Y1 Y2 Y3. unfold parse_inet6_host. destruct (blen host =? 0); [done|]. destruct (ngx_inet6_addr host); [|done].
    intros (a & ->)%add_addr_accepted; [|exact Y2]. split; [exact Y1|exact Y3| |].
    - intros _. cbn. by destruct (u_addrs y).
    - intros H%Hhost. change (nul_free ([ch "["] ++ host ++ [ch "]"])). unfold nul_free in *. rewrite !Forall_app.
      split_and!; [by repeat constructor|done|by repeat constructor]. }
  rewrite W2, W3, W6. destruct after as [|c text]; [apply Hgo; [exact W1|exact W3|reflexivity]|].
  destruct (negb (c =? ch ":")); [done|]. destruct (parse_port false text 0) as [e|[n lp]] eqn:Ep; [done|].
  apply parse_port_last in Ep. cbn [snd] in Ep. subst lp. apply Hgo; [exact W1|reflexivity|]. cbn. congruence.
Qed.

Lemma url_accepted u v :
  u_listen u = false -> u_last_port u = 0 -> u_no_port u = false -> ngx_parse_url gai u = Some (NGX_OK, v) -> accepted u v.
Proof.
  intros Hli Hlp Hnp. unfold ngx_parse_url. destruct (_ && _).
  - unfold ngx_parse_unix_domain_url. set (tr := match _ with Some i => _ | None => _ end).
    assert (Ht : u_url (snd tr) = u_url u /\ u_no_port (snd tr) = false /\ (nul_free (u_url u) -> nul_free (fst tr))).
    { subst tr. destruct (if u_uri_part u then _ else _); (split_and!; [done|done|]); intros H; cbn [fst]; [apply Forall_take|]; by apply Forall_drop. }
    clearbody tr. destruct tr as [path x]. cbn [fst snd] in Ht. destruct Ht as (W1 & W2 & W3).
    destruct (blen path =? 0); [done|]. destruct (_ <? _); [done|]. intros [= <-]. split; [exact W1| |done|exact W3]. cbn. congruence.
  - case_bool_decide; [by apply inet6_url_accepted|by apply inet_url_accepted].
Qed.

End Accepted.

Example url_examples :
  (fun r => (fst r, u_err (snd r))) <$> ngx_parse_url (fun _ => None) (url_of (s2b "backend:80")) = Some (NGX_ERROR, Some "host not found"%string)
  /\ (fun r => (fst r, u_port (snd r), addr_name <$> u_addrs (snd r))) <$> ngx_parse_url (fun _ => Some [(AF_INET, sin 0 [10; 0; 0; 7], 16)]) (url_of (s2b "backend:80"))
     = Some (NGX_OK, 80, [s2b "10.0.0.7:80"])
  /\ (fun r => (fst r, addr_name <$> u_addrs (snd r))) <$> ngx_parse_url (fun _ => None) (url_of (s2b "unix:/run/a.sock")) = Some (NGX_OK, [s2b "unix:/run/a.sock"])
  /\ (fun r => (fst r, u_err (snd r))) <$> ngx_parse_url (fun _ => None) (url_of (s2b "10.0.0.1:70000")) = Some (NGX_ERROR, Some "invalid port"%string)
  /\ (fun r => (fst r, addr_name <$> u_addrs (snd r))) <$> ngx_parse_url (fun _ => None) ((url_of (s2b "*:80-82")) <| u_listen := true |>)
     = Some (NGX_OK, [s2b "0.0.0.0:80"; s2b "0.0.0.0:81"; s2b "0.0.0.0:82"]).
Proof. vm_compute. split_and!; reflexivity. Qed.
