(* ===== verification/UpstreamTyped.v ===== *)
(** * What upstream blocks are turned into

    Theorems about [UpstreamConf]: a [server] directive reads its parameters
    as they are written, the servers of an accepted block have the values the
    balancers divide and index by, and no two blocks share a name. *)

From S2P Require Import Prelude NgxString StatusLine CheckTypes CheckProto CheckCore CheckSafety CheckWorker.
From S2P Require Import Inet FastCgiRequest CheckConf AddPeer RoundRobin RoundRobinInit LeastConn Crc32 HashPeer ConsistentHash RandomPeer.
From S2P Require Import HttpArgs ParseTime InetParse Url UpstreamConf.

(** ** The parameters of a server as they are written *)

Inductive sparam : Type :=
  | PWeight (n : Z) | PMaxConns (n : Z) | PMaxFails (n : Z) | PFailTimeout (l : list item) (tail : bytes) | PBackup | PDown.

Definition sparam_text (p : sparam) : bytes :=
  match p with
  | PWeight n => s2b "weight=" ++ num_text n 0
  | PMaxConns n => s2b "max_conns=" ++ num_text n 0
  | PMaxFails n => s2b "max_fails=" ++ num_text n 0
  | PFailTimeout l tail => s2b "fail_timeout=" ++ time_text l tail
  | PBackup => s2b "backup"
  | PDown => s2b "down"
  end.

Definition sparam_apply (a : server_args) (p : sparam) : server_args :=
  match p with
  | PWeight n => a <| s_weight := n |>
  | PMaxConns n => a <| s_max_conns := n |>
  | PMaxFails n => a <| s_max_fails := n |>
  | PFailTimeout l tail => a <| s_fail_timeout := items_value true l + dec_value tail |>
  | PBackup => a <| s_backup := true |>
  | PDown => a <| s_down := 1 |>
  end.

(** The balancer supports the parameter and the value fits. *)
Definition sparam_ok (flags : Z) (p : sparam) : Prop :=
  match p with
  | PWeight n => has_flag flags UPSTREAM_WEIGHT = true /\ 1 <= n <= NGX_MAX_INT_T_VALUE
  | PMaxConns n => has_flag flags UPSTREAM_MAX_CONNS = true /\ 0 <= n <= NGX_MAX_INT_T_VALUE
  | PMaxFails n => has_flag flags UPSTREAM_MAX_FAILS = true /\ 0 <= n <= NGX_MAX_INT_T_VALUE
  | PFailTimeout l tail =>
    has_flag flags UPSTREAM_FAIL_TIMEOUT = true /\ items_ok true st_start l /\ Forall is_digit tail /\ (l <> [] \/ tail <> [])
    /\ items_value true l + dec_value tail <= NGX_MAX_INT_T_VALUE
  | PBackup => has_flag flags UPSTREAM_BACKUP = true
  | PDown => has_flag flags UPSTREAM_DOWN = true
  end.

Lemma param_num_text (pre : bytes) n k :
  length pre = k -> 0 <= n <= NGX_MAX_INT_T_VALUE -> param_num (pre ++ num_text n 0) k = n.
Proof.
  intros <- Hn. unfold param_num. rewrite drop_app_length. unfold blen. rewrite length_app.
  replace (Z.of_nat (length pre + length (num_text n 0)) - Z.of_nat (length pre)) with (blen (num_text n 0)) by (unfold blen; lia).
  by apply atoi_num.
Qed.

Lemma server_arg_reads flags a p : sparam_ok flags p -> server_arg flags a (sparam_text p) = Some (sparam_apply a p).
Proof.
  intros H. unfold server_arg. destruct p as [n|n|n|l tail| |]; cbn [sparam_text sparam_apply sparam_ok] in *.
  - destruct H as [Hf Hn]. change (has_prefix (s2b "weight=" ++ num_text n 0) "weight=") with true. rewrite Hf, param_num_text by (done || lia).
    change (rc_val NGX_ERROR) with (-1). destruct (Z.eqb_spec n (-1)); [lia|]. destruct (Z.eqb_spec n 0); [lia|]. done.
  - destruct H as [Hf Hn]. change (has_prefix (s2b "max_conns=" ++ num_text n 0) "weight=") with false.
    change (has_prefix (s2b "max_conns=" ++ num_text n 0) "max_conns=") with true. rewrite Hf, param_num_text by (done || lia).
    change (rc_val NGX_ERROR) with (-1). destruct (Z.eqb_spec n (-1)); [lia|]. done.
  - destruct H as [Hf Hn]. change (has_prefix (s2b "max_fails=" ++ num_text n 0) "weight=") with false.
    change (has_prefix (s2b "max_fails=" ++ num_text n 0) "max_conns=") with false.
    change (has_prefix (s2b "max_fails=" ++ num_text n 0) "max_fails=") with true. rewrite Hf, param_num_text by (done || lia).
    change (rc_val NGX_ERROR) with (-1). destruct (Z.eqb_spec n (-1)); [lia|]. done.
  - destruct H as (Hf & Hl & Ht & Hne & Hb). set (v := s2b "fail_timeout=" ++ time_text l tail).
    change (has_prefix v "weight=") with false. change (has_prefix v "max_conns=") with false. change (has_prefix v "max_fails=") with false.
    change (has_prefix v "fail_timeout=") with true. rewrite Hf. change (drop 13 v) with (time_text l tail).
    rewrite parse_time_items; [|done|done|done|unfold plain; lia]. cbn [mbind option_bind plain]. by rewrite Z.mul_1_r.
  - by rewrite H.
  - by rewrite H.
Qed.

Lemma server_args_read flags ps a :
  Forall (sparam_ok flags) ps -> server_args_loop flags a (sparam_text <$> ps) = Some (fold_left sparam_apply ps a).
Proof.
  intros H. revert a; induction H as [|p ps Hp H IH]; intros a; [done|].
  cbn [fmap list_fmap server_args_loop fold_left]. rewrite (server_arg_reads _ _ _ Hp). cbn [mbind option_bind]. apply IH.
Qed.

(** The server a directive adds. *)
Definition server_of (text : bytes) (addrs : list ngx_addr_t) (a : server_args) : rr_server_conf :=
  mk_rr_server text addrs (s_weight a) (s_max_conns a) (s_max_fails a) (s_fail_timeout a) (s_down a) (s_backup a).

(** C27: the [server] directive reads what is written.  For every IPv4 or IPv6
    address with a port but the three forms of 255.255.255.255, printed as [ngx_sock_ntop] prints it, and every list
    of parameters that the balancer supports and whose values fit their
    types, in any order and repeated or not, the directive adds exactly the
    server with that one address, whose parameters are the last ones written
    and the defaults (weight 1, one failure in ten seconds) for the others. *)
Theorem server_directive_reads http gai uc svs port sa ps :
  uc_servers uc = Some svs -> 1 <= port <= 65535 -> conf_sockaddr port sa -> sa ∉ broadcast port -> Forall (sparam_ok (uc_flags uc)) ps ->
  exists text, ngx_sock_ntop sa (blen sa) (if sa_family sa =? AF_INET6 then 53%nat else 21%nat) true = Some text
    /\ upstream_server http gai text (sparam_text <$> ps) uc
       = Some (uc <| uc_servers := Some (svs ++ [server_of text [mk_addr sa (blen sa) text] (fold_left sparam_apply ps server_defaults)]) |>).
Proof.
  intros Hs Hp Hsa Hnb Hps. destruct (address_text_parses gai (if http then 80 else 0) port sa Hp Hsa Hnb) as (text & Et & u & Eu & Ea & En & Eno).
  exists text. split; [exact Et|]. unfold upstream_server. rewrite Hs. cbn [mbind option_bind].
  rewrite (server_args_read _ _ _ Hps). cbn [mbind option_bind]. rewrite (bind_some _ _ _ Eu). cbn beta iota.
  rewrite bool_decide_eq_true_2 by done. cbn [negb]. rewrite Eno, andb_false_r, Ea, En. done.
Qed.

Definition ex_uc : uscf_t := mk_uscf block_flags (s2b "backend") 0 true (Some []) None false [].

Definition ex_sparams : list sparam :=
  [PWeight 5; PFailTimeout [mk_item (s2b "1") Umin 1] (s2b "30"); PMaxFails 3; PBackup; PWeight 7].

Example ex_sparams_text :
  sparam_text <$> ex_sparams = [s2b "weight=5"; s2b "fail_timeout=1m 30"; s2b "max_fails=3"; s2b "backup"; s2b "weight=7"]
  /\ fold_left sparam_apply ex_sparams server_defaults = mk_sargs 7 0 3 90 true 0.
Proof. vm_compute. by split. Qed.

Lemma server_directive_reads_witness :
  exists text, ngx_sock_ntop (sin 8080 [10; 0; 0; 7]) 16 21 true = Some text
    /\ upstream_server true (fun _ => None) text (sparam_text <$> ex_sparams) ex_uc
       = Some (ex_uc <| uc_servers := Some ([] ++ [server_of text [mk_addr (sin 8080 [10; 0; 0; 7]) 16 text]
                                                    (fold_left sparam_apply ex_sparams server_defaults)]) |>).
Proof.
  apply (server_directive_reads true (fun _ => None) ex_uc [] 8080 (sin 8080 [10; 0; 0; 7]) ex_sparams).
  - reflexivity.
  - split; discriminate.
  - apply conf_sin; split; (discriminate || reflexivity).
  - intros H. repeat (apply elem_of_cons in H as [H|H]; [discriminate|]). by apply elem_of_nil in H.
  - repeat (apply Forall_cons_2); [| | | | |apply Forall_nil_2]; cbn [sparam_ok].
    + split; [reflexivity|split; discriminate].
    + split; [reflexivity|]. split; [|split; [repeat constructor; discriminate|split; [left; discriminate|vm_compute; discriminate]]].
      cbn. split_and!; try discriminate; try reflexivity; try exact I; repeat constructor; discriminate.
    + split; [reflexivity|split; discriminate].
    + reflexivity.
    + split; [reflexivity|split; discriminate].
Defined.

(** ** Typed servers *)

(** The values of a server that a directive added. *)
Record server_typed (sv : rr_server_conf) : Prop := {
  ty_weight : 1 <= sc_weight sv <= NGX_MAX_INT_T_VALUE;
  ty_max_conns : 0 <= sc_max_conns sv <= NGX_MAX_INT_T_VALUE;
  ty_max_fails : 0 <= sc_max_fails sv <= NGX_MAX_INT_T_VALUE;
  ty_fail_timeout : 0 <= sc_fail_timeout sv <= NGX_MAX_INT_T_VALUE;
  ty_down : sc_down sv = 0 \/ sc_down sv = 1;
  ty_addrs : sc_addrs sv <> []
}.

Definition args_typed (a : server_args) : Prop :=
  1 <= s_weight a <= NGX_MAX_INT_T_VALUE /\ 0 <= s_max_conns a <= NGX_MAX_INT_T_VALUE /\ 0 <= s_max_fails a <= NGX_MAX_INT_T_VALUE
  /\ 0 <= s_fail_timeout a <= NGX_MAX_INT_T_VALUE /\ (s_down a = 0 \/ s_down a = 1).

Lemma prefix_length v p n : ngx_strncmp v p n = 0 -> nul_free p -> length p = n -> (n <= length v)%nat.
Proof.
  revert v n; induction p as [|c p IH]; intros v n H Hp <-; cbn [length]; [lia|]. apply Forall_cons in Hp as [Hc Hp].
  destruct v as [|x v]; cbn [length ngx_strncmp hd tl] in *.
  - destruct (Z.eqb_spec 0 c); lia.
  - destruct (Z.eqb_spec x c); [|lia]. destruct (Z.eqb_spec x 0); [lia|]. specialize (IH v _ H Hp eq_refl). lia.
Qed.

Lemma param_num_range v p :
  has_prefix v p = true -> nul_free (s2b p) -> length (s2b p) = String.length p ->
  -1 <= param_num v (String.length p) <= NGX_MAX_INT_T_VALUE.
Proof.
  unfold has_prefix. intros H%Z.eqb_eq Hp Hl. pose proof (prefix_length v (s2b p) _ H Hp Hl) as Hlen.
  unfold param_num. replace (blen v - Z.of_nat (String.length p)) with (blen (drop (String.length p) v)) by (unfold blen; rewrite length_drop; lia).
  rewrite ngx_atoi_spec. case_bool_decide as E; [|unfold NGX_MAX_INT_T_VALUE; lia]. destruct E as (_ & Hd & ?).
  pose proof (dec_value_nonneg _ Hd). lia.
Qed.

Lemma server_arg_typed flags a v a' : server_arg flags a v = Some a' -> args_typed a -> args_typed a'.
Proof.
  intros H (H1 & H2 & H3 & H4 & H5). unfold server_arg in H. change (rc_val NGX_ERROR) with (-1) in H.
  destruct (has_prefix v "weight=") eqn:E1.
  { destruct (has_flag _ _); [|done]. pose proof (param_num_range v "weight=" E1 ltac:(by repeat constructor) eq_refl) as Hr.
    change (String.length "weight=") with 7%nat in Hr. cbv zeta in H. destruct (Z.eqb_spec (param_num v 7) (-1)); [done|].
    destruct (Z.eqb_spec (param_num v 7) 0); [done|]. injection H as <-. unfold args_typed. cbn. split_and!; lia || done. }
  destruct (has_prefix v "max_conns=") eqn:E2.
  { destruct (has_flag _ _); [|done]. pose proof (param_num_range v "max_conns=" E2 ltac:(by repeat constructor) eq_refl) as Hr.
    change (String.length "max_conns=") with 10%nat in Hr. cbv zeta in H. destruct (Z.eqb_spec (param_num v 10) (-1)); [done|].
    injection H as <-. unfold args_typed. cbn. split_and!; lia || done. }
  destruct (has_prefix v "max_fails=") eqn:E3.
  { destruct (has_flag _ _); [|done]. pose proof (param_num_range v "max_fails=" E3 ltac:(by repeat constructor) eq_refl) as Hr.
    change (String.length "max_fails=") with 10%nat in Hr. cbv zeta in H. destruct (Z.eqb_spec (param_num v 10) (-1)); [done|].
    injection H as <-. unfold args_typed. cbn. split_and!; lia || done. }
  destruct (has_prefix v "fail_timeout=") eqn:E4.
  { destruct (has_flag _ _); [|done]. destruct (ngx_parse_time (drop 13 v) true) as [t|] eqn:Et; [|done]. injection H as <-.
    apply parse_time_bounds in Et. unfold args_typed. cbn. split_and!; lia || done. }
  destruct (ngx_strcmp v (s2b "backup") =? 0).
  { destruct (has_flag _ _); [|done]. injection H as <-. unfold args_typed. cbn. by split_and!; try lia. }
  destruct (ngx_strcmp v (s2b "down") =? 0); [|done].
  destruct (has_flag _ _); [|done]. injection H as <-. unfold args_typed. cbn. split_and!; (lia || by right).
Qed.

Lemma server_arg_backup flags a v a' :
  server_arg flags a v = Some a' -> has_flag flags UPSTREAM_BACKUP = false -> s_backup a' = s_backup a.
Proof.
  intros H Hf. unfold server_arg in H. cbv zeta in H.
  repeat match type of H with
         | context [if has_flag _ UPSTREAM_BACKUP then _ else _] => rewrite Hf in H
         | (if ?b then _ else _) = _ => destruct b
         | (_ ← ?m; _) = _ => destruct m; cbn [mbind option_bind] in H
         end; try done; by injection H as <-.
Qed.

Lemma server_args_typed flags vs a a' : server_args_loop flags a vs = Some a' -> args_typed a -> args_typed a'.
Proof.
  revert a; induction vs as [|v vs IH]; intros a H Ha; cbn in H; [by injection H as <-|].
  apply option_bind_inv in H as (b & E & H). by eapply IH, server_arg_typed.
Qed.

Lemma server_args_backup flags vs a a' :
  server_args_loop flags a vs = Some a' -> has_flag flags UPSTREAM_BACKUP = false -> s_backup a' = s_backup a.
Proof.
  revert a; induction vs as [|v vs IH]; intros a H Hf; cbn in H; [by injection H as <-|].
  apply option_bind_inv in H as (b & E & H). rewrite (IH b H Hf). by eapply server_arg_backup.
Qed.

Section Typed.
Context (http : bool) (gai : bytes -> option (list (Z * bytes * Z))) (cok : bytes -> bool).

(** What a [server] directive does to its upstream. *)
Lemma upstream_server_spec name vs uc uc' :
  upstream_server http gai name vs uc = Some uc' ->
  exists svs sv, uc_servers uc = Some svs /\ uc' = uc <| uc_servers := Some (svs ++ [sv]) |> /\ server_typed sv /\ sc_name sv = name
    /\ (has_flag (uc_flags uc) UPSTREAM_BACKUP = false -> sc_backup sv = false).
Proof.
  unfold upstream_server. intros (svs & Es & H)%option_bind_inv. apply option_bind_inv in H as (a & Ea & H).
  apply option_bind_inv in H as ([rc u] & Eu & H). destruct (bool_decide_reflect (rc = NGX_OK)) as [->|]; [|done]. cbn [negb] in H.
  destruct (_ && _); [done|]. injection H as <-. apply url_accepted in Eu as [Hurl _ Haddrs _]; [|done..]. specialize (Haddrs eq_refl).
  pose proof (server_args_typed _ _ _ _ Ea) as (T1 & T2 & T3 & T4 & T5). { unfold args_typed, NGX_MAX_INT_T_VALUE. cbn. split_and!; lia || by left. }
  eexists svs, _. split; [done|]. split; [reflexivity|]. split; [by split|]. split; [exact Hurl|]. intros Hf. cbn.
  by rewrite (server_args_backup _ _ _ _ Ea Hf).
Qed.

(** A directive of the block keeps the name and the port, adds typed servers
    and leaves an upstream that may not be created again. *)
Definition directive_keeps (uc uc' : uscf_t) : Prop :=
  uc_host uc' = uc_host uc /\ uc_port uc' = uc_port uc /\ uc_no_port uc' = uc_no_port uc
  /\ (has_flag (uc_flags uc) UPSTREAM_CREATE = true -> has_flag (uc_flags uc') UPSTREAM_CREATE = true)
  /\ forall svs, uc_servers uc = Some svs -> Forall server_typed svs -> exists svs', uc_servers uc' = Some svs' /\ Forall server_typed svs'.

Lemma directive_keeps_refl uc : directive_keeps uc uc.
Proof. unfold directive_keeps. split_and!; try done. intros svs E H. by exists svs. Qed.

Lemma run_directive_keeps d uc uc' : run_up_directive http gai cok d uc = Some uc' -> directive_keeps uc uc'.
Proof.
  assert (Hm : forall uc1 uc2, uc_host uc2 = uc_host uc1 -> uc_port uc2 = uc_port uc1 -> uc_no_port uc2 = uc_no_port uc1 ->
            uc_servers uc2 = uc_servers uc1 -> has_flag (uc_flags uc2) UPSTREAM_CREATE = true -> directive_keeps uc1 uc2).
  { intros uc1 uc2 H1 H2 H3 H4 H5. unfold directive_keeps. rewrite H4. split_and!; try done. intros svs E H. by exists svs. }
  destruct d as [name vs| |key m| |vs]; cbn [run_up_directive].
  - intros (svs & sv & Es & -> & Hsv & _)%upstream_server_spec. unfold directive_keeps. cbn. split_and!; try done.
    intros svs0 E H. rewrite Es in E. injection E as <-. eexists. split; [done|]. apply Forall_app. split; [done|]. by apply Forall_singleton.
  - intros [= <-]. by apply Hm.
  - unfold upstream_hash. destruct (cok key); [|done]. destruct m as [c|]; [destruct (_ =? 0); [|done]|]; intros [= <-]; by apply Hm.
  - destruct http; [|done]. intros [= <-]. by apply Hm.
  - unfold upstream_random. destruct vs as [|two vs]; [intros [= <-]; by apply Hm|]. destruct (_ =? 0); [|done].
    destruct vs as [|m vs]; [intros [= <-]; by apply Hm|]. destruct (_ =? 0); [|done]. intros [= <-]; by apply Hm.
Qed.

Lemma directive_keeps_trans a b c : directive_keeps a b -> directive_keeps b c -> directive_keeps a c.
Proof.
  intros (H1 & H2 & H3 & H4 & H5) (K1 & K2 & K3 & K4 & K5). unfold directive_keeps. split_and!; [congruence..| |]; [auto|].
  intros svs E H. destruct (H5 svs E H) as (svs1 & E1 & H1'). by apply (K5 svs1).
Qed.

Lemma run_directives_keep ds uc uc' : run_up_directives http gai cok ds uc = Some uc' -> directive_keeps uc uc'.
Proof.
  revert uc; induction ds as [|d ds IH]; intros uc; cbn [run_up_directives].
  - intros [= <-]. apply directive_keeps_refl.
  - intros (uc1 & E & H)%option_bind_inv. eapply directive_keeps_trans; [by eapply run_directive_keeps|by apply IH].
Qed.

End Typed.

(** ** The upstreams of a configuration *)

(** Names are compared without regard to case. *)
Definition low (s : bytes) : bytes := to_low <$> s.

Definition created (c : uscf_t) : bool := has_flag (uc_flags c) UPSTREAM_CREATE.

Lemma same_name a b :
  nul_free b -> negb (blen a =? blen b) || negb (ngx_strncasecmp a b (length b) =? 0) = negb (bool_decide (low a = low b)).
Proof.
  intros Hb. rewrite <- negb_andb. f_equal. unfold low. destruct (Z.eqb_spec (blen a) (blen b)) as [E|E]; cbn [andb].
  - pose proof (strncasecmp_zero a b Hb) as H. unfold blen in E. rewrite take_ge in H by lia.
    case_bool_decide as Hd; [by apply Z.eqb_eq, H|]. apply Z.eqb_neq. by rewrite H.
  - rewrite bool_decide_eq_false_2; [done|]. intros Hd. apply E. unfold blen. apply (f_equal length) in Hd. rewrite !length_fmap in Hd. lia.
Qed.

Section Upstreams.
Context (http : bool) (gai : bytes -> option (list (Z * bytes * Z))) (cok : bytes -> bool).

(** An upstream with another name, or only with another port. *)
Definition passed_by (u : ngx_url_t) (create : bool) (c : uscf_t) : Prop :=
  low (uc_host c) <> low (u_host u)
  \/ (created c = true -> u_no_port u = true) /\ (create = true -> created c = false /\ uc_no_port c = true)
     /\ uc_port c <> u_port u /\ (http = true -> uc_port c <> 0 /\ u_port u <> 0).

Lemma find_upstream_spec u create n l :
  nul_free (u_host u) ->
  match find_upstream http u create n l with
  | FError => True
  | FNone => Forall (passed_by u create) l
  | FFound m => exists k c, m = (n + k)%nat /\ l !! k = Some c /\ low (uc_host c) = low (u_host u)
                  /\ (create = true -> created c = false /\ uc_no_port c = true) /\ Forall (passed_by u create) (take k l)
                  /\ (http = false -> uc_port c = u_port u)
  end.
Proof.
  intros Hu. revert n; induction l as [|c l IH]; intros n; cbn [find_upstream]; [by constructor|].
  rewrite same_name by done. fold (created c). specialize (IH (S n)).
  assert (Hnext : passed_by u create c ->
    match find_upstream http u create (S n) l with
    | FError => True
    | FNone => Forall (passed_by u create) (c :: l)
    | FFound m => exists k x, m = (n + k)%nat /\ (c :: l) !! k = Some x /\ low (uc_host x) = low (u_host u)
                  /\ (create = true -> created x = false /\ uc_no_port x = true) /\ Forall (passed_by u create) (take k (c :: l))
                  /\ (http = false -> uc_port x = u_port u)
    end).
  { intros Hp. destruct (find_upstream http u create (S n) l) as [|m|]; [done| |by constructor].
    destruct IH as (k & x & -> & Hk & Hn & Hc & Hb & Hpt). exists (S k), x. split_and!; [lia|done..| |done]. cbn [take]. by constructor. }
  case_bool_decide as Hd; cbn [negb]; [|by apply Hnext; left].
  destruct (create && created c) eqn:E1; [done|]. destruct (created c && negb (u_no_port u)) eqn:E2; [done|].
  destruct (create && negb (uc_no_port c)) eqn:E3; [done|].
  assert (Hc : create = true -> created c = false /\ uc_no_port c = true) by (intros ->; by destruct (created c), (uc_no_port c)).
  set (skip := if http then _ else _). destruct skip eqn:Es.
  - apply Hnext. right. split; [by destruct (created c), (u_no_port u)|]. split; [done|]. subst skip. destruct http.
    + rewrite !andb_true_iff, !negb_true_iff, !Z.eqb_neq in Es. naive_solver.
    + rewrite negb_true_iff, Z.eqb_neq in Es. by split.
  - exists O, c. rewrite Nat.add_0_r. split_and!; try done. intros ->. subst skip. cbn in Es. lia.
Qed.

(** What is kept of the list of upstreams: the upstream of a block is the first
    one of its name, has no port and has typed servers. *)
Definition conf_entry (l : list uscf_t) (i : nat) (c : uscf_t) : Prop :=
  nul_free (uc_host c) /\ (http = false -> uc_no_port c = true -> uc_port c = 0)
  /\ (created c = true ->
      uc_port c = 0 /\ (exists svs, uc_servers c = Some svs /\ svs <> [] /\ Forall server_typed svs)
      /\ forall k d, (k < i)%nat -> l !! k = Some d -> low (uc_host d) <> low (uc_host c))
  /\ (created c = false -> uc_init c = None).

Definition conf_inv (l : list uscf_t) : Prop := forall i c, l !! i = Some c -> conf_entry l i c.

(** The steps of reading a configuration: a block, or an address of
    [proxy_pass] with the default port of the protocol. *)
Inductive conf_step : list uscf_t -> list uscf_t -> Prop :=
  | step_block name ds l l' : nul_free name -> upstream_block http gai cok name ds l = Some l' -> conf_step l l'
  | step_pass text port uri l i l' :
      nul_free text -> (http = false -> port = 0) ->
      upstream_add http gai ((url_of text) <| u_no_resolve := true |> <| u_uri_part := uri |> <| u_default_port := port |>) 0 l = Some (i, l') ->
      conf_step l l'.

Lemma block_create : has_flag block_flags UPSTREAM_CREATE = true.
Proof. done. Qed.

(** Without a port in question only the name decides. *)
Lemma passed_by_name u c : u_port u = 0 -> (http = false -> uc_no_port c = true -> uc_port c = 0) -> passed_by u true c -> low (uc_host c) <> low (u_host u).
Proof.
  intros Hp Hc [H|(_ & H & Hne & Hh)]; [done|]. destruct http; [by destruct (Hh eq_refl)|]. destruct (H eq_refl) as [_ Hn]. by rewrite Hp, Hc in Hne.
Qed.

(** The entry the block is stored in. *)
Lemma add_block_spec name l i l' :
  nul_free name -> conf_inv l ->
  upstream_add http gai ((url_of []) <| u_host := name |> <| u_no_resolve := true |> <| u_no_port := true |>) block_flags l = Some (i, l') ->
  exists c, l' !! i = Some c /\ low (uc_host c) = low name /\ nul_free (uc_host c) /\ uc_port c = 0 /\ uc_init c = None /\ created c = true
    /\ (forall k d, (k < i)%nat -> l' !! k = Some d -> low (uc_host d) <> low name)
    /\ (forall j, j <> i -> l' !! j = l !! j).
Proof.
  intros Hn Hinv. unfold upstream_add. rewrite block_create. cbn [mbind option_bind]. set (u := _ <| u_no_port := true |>).
  pose proof (find_upstream_spec u true 0 l Hn) as H. destruct (find_upstream http u true 0 l) as [|m|]; [done| |].
  - destruct H as (k & c & -> & Hk & Hname & Hc & Hb & Hport). cbn [Nat.add] in *. intros [= <- <-]. destruct (Hc eq_refl) as [Hcr _].
    destruct (Hinv k c Hk) as (Hnul & Hsp & _ & Hinit). eexists. rewrite list_lookup_alter_eq, Hk. split; [reflexivity|]. split_and!.
    + by destruct http.
    + by destruct http.
    + destruct http; [done|]. cbn. by rewrite Hport.
    + destruct http; by apply Hinit.
    + by destruct http.
    + intros j d Hj. rewrite list_lookup_alter_ne by lia. intros Hd. destruct (Hinv j d Hd) as (_ & Hspd & _).
      apply (passed_by_name u d eq_refl Hspd). rewrite Forall_lookup in Hb. apply (Hb j). rewrite lookup_take_lt by lia. exact Hd.
    + intros j Hj. by rewrite list_lookup_alter_ne by lia.
  - intros [= <- <-]. eexists. split; [by apply list_lookup_middle|]. split_and!; try done.
    + intros j d Hj Hd. rewrite lookup_app_l in Hd by lia. destruct (Hinv j d Hd) as (_ & Hspd & _).
      apply (passed_by_name u d eq_refl Hspd). rewrite Forall_lookup in H. by apply (H j).
    + intros j Hj. destruct (decide (j < length l)%nat); [by rewrite lookup_app_l by lia|].
      rewrite lookup_ge_None_2 by (rewrite length_app; cbn [length]; lia). by rewrite lookup_ge_None_2 by lia.
Qed.

(** A list changed at one place keeps the invariant elsewhere. *)
Lemma conf_inv_change l l' i :
  conf_inv l -> (forall j, j <> i -> l' !! j = l !! j) ->
  (forall c c', l !! i = Some c -> l' !! i = Some c' -> low (uc_host c') = low (uc_host c)) ->
  (l !! i = None -> length l = i) ->
  (forall c', l' !! i = Some c' -> conf_entry l' i c') -> conf_inv l'.
Proof.
  intros Hinv Hsame Hname Hend Hi j c Hj. destruct (decide (j = i)) as [->|Hne]; [by apply Hi|].
  rewrite Hsame in Hj by done. destruct (Hinv j c Hj) as (H1 & H2 & H3 & H4). split_and!; try done.
  intros Hc. destruct (H3 Hc) as (K1 & K2 & K3). split_and!; try done. intros k d Hk Hd.
  destruct (decide (k = i)) as [->|Hki]; [|apply (K3 k d Hk); by rewrite <- Hsame].
  destruct (l !! i) as [d0|] eqn:E; [rewrite (Hname d0 d) by done; by apply (K3 i)|].
  specialize (Hend eq_refl). apply lookup_lt_Some in Hj. lia.
Qed.

(** A block is stored as it is written. *)
Lemma block_spec name ds l l' :
  nul_free name -> conf_inv l -> upstream_block http gai cok name ds l = Some l' ->
  exists i c c' svs, l' !! i = Some c' /\ run_up_directives http gai cok ds c = Some c' /\ uc_servers c = Some [] /\ uc_init c = None
    /\ low (uc_host c') = low name /\ uc_servers c' = Some svs /\ svs <> [] /\ created c' = true
    /\ (forall j, j <> i -> l' !! j = l !! j) /\ conf_inv l'.
Proof.
  intros Hn Hinv. unfold upstream_block. cbv zeta. intros ([i l1] & Ea & H)%option_bind_inv.
  destruct (add_block_spec name l i l1 Hn Hinv Ea) as (c & Hi & Hname & Hnul & Hport & Hinit & Hcr & Hfirst & Hsame).
  rewrite Hi in H. cbn [mbind option_bind] in H. apply option_bind_inv in H as (c' & Er & H).
  set (c0 := c <| uc_servers := Some [] |>) in Er. destruct (run_directives_keep http gai cok ds c0 c' Er) as (K1 & K2 & K3 & K4 & K5).
  destruct (K5 [] eq_refl) as (svs & Es & Hty); [by constructor|]. rewrite Es in H. destruct svs as [|sv svs]; [done|]. injection H as <-.
  assert (Hlt : (i < length l1)%nat) by by apply lookup_lt_Some in Hi.
  assert (Hsame' : forall j, j <> i -> <[i := c']> l1 !! j = l !! j) by (intros j Hj; rewrite list_lookup_insert_ne by lia; by apply Hsame).
  assert (Hhost : uc_host c' = uc_host c) by exact K1.
  exists i, c0, c', (sv :: svs). split_and!; try done.
  - by apply list_lookup_insert_eq.
  - by rewrite Hhost.
  - by apply K4.
  - apply (conf_inv_change l _ i Hinv Hsame').
    + intros d d' Hd. rewrite list_lookup_insert_eq by done. intros [= <-]. rewrite Hhost, Hname.
      unfold upstream_add in Ea. rewrite block_create in Ea. cbn [mbind option_bind] in Ea.
      match type of Ea with context [find_upstream _ ?u _ _ _] => pose proof (find_upstream_spec u true 0 l Hn) as Hf; destruct (find_upstream http u true 0 l) as [|m|] end;
        [done| |].
      * destruct Hf as (k & x & -> & Hk & Hx & _). injection Ea as <- <-. cbn [Nat.add] in *. by simplify_eq.
      * injection Ea as <- <-. by apply lookup_lt_Some, Nat.lt_irrefl in Hd.
    + intros Hd. unfold upstream_add in Ea. rewrite block_create in Ea. cbn [mbind option_bind] in Ea.
      destruct (find_upstream _ _ _ _ _) as [|m|]; [done| |by injection Ea as <- <-].
      injection Ea as <- <-. rewrite length_alter in Hlt. by apply lookup_ge_None_1 in Hd; lia.
    + rewrite list_lookup_insert_eq by done. intros d [= <-]. split_and!.
      * by rewrite Hhost.
      * intros _ _. by rewrite K2.
      * intros _. split_and!; [by rewrite K2|by eexists|]. intros k d Hk. rewrite list_lookup_insert_ne by lia. intros Hd. rewrite Hhost, Hname.
        by apply (Hfirst k).
      * intros Hf. specialize (K4 Hcr). unfold created in Hf. congruence.
Qed.

Lemma pass_spec u l i l' :
  nul_free (u_url u) -> u_listen u = false -> u_last_port u = 0 -> u_no_port u = false -> (http = false -> u_default_port u = 0) -> conf_inv l ->
  upstream_add http gai u 0 l = Some (i, l') -> conf_inv l'.
Proof.
  intros Hn Hli Hlp Hnp Hdp Hinv. unfold upstream_add. change (has_flag 0 UPSTREAM_CREATE) with false. cbn match.
  intros (v & Ev & H)%option_bind_inv. apply option_bind_inv in Ev as ([rc v1] & Eu & Ev).
  destruct (bool_decide_reflect (rc = NGX_OK)) as [->|]; [|done]. injection Ev as ->.
  destruct (url_accepted gai u v Hli Hlp Hnp Eu) as [_ Hport _ Hhost]. specialize (Hhost Hn).
  destruct (find_upstream http v false 0 l) as [|m|]; [done|by injection H as _ <-|]. injection H as _ <-.
  apply (conf_inv_change l _ (length l) Hinv).
  - intros j Hj. destruct (decide (j < length l)%nat); [by rewrite lookup_app_l by lia|].
    rewrite lookup_ge_None_2 by (rewrite length_app; cbn [length]; lia). by rewrite lookup_ge_None_2 by lia.
  - intros c c' Hc. by apply lookup_lt_Some, Nat.lt_irrefl in Hc.
  - done.
  - rewrite list_lookup_middle by done. intros c' [= <-]. split_and!; cbn; try done. intros ->. intros Hno. rewrite Hport by done. by apply Hdp.
Qed.

Lemma conf_step_inv l l' : conf_step l l' -> conf_inv l -> conf_inv l'.
Proof.
  intros [name ds l0 l1 Hn E|text port uri l0 i l1 Hn Hp E] Hinv.
  - by destruct (block_spec name ds l0 l1 Hn Hinv E) as (? & ? & ? & ? & _ & _ & _ & _ & _ & _ & _ & _ & _ & ?).
  - by eapply pass_spec; [| | | | | |exact E].
Qed.

Lemma conf_steps_inv l : rtc conf_step [] l -> conf_inv l.
Proof.
  enough (H : forall l0 l1, rtc conf_step l0 l1 -> conf_inv l0 -> conf_inv l1) by (intros H0; by apply (H [] l)).
  induction 1 as [|l0 l1 l2 Hs _ IH]; intros H; [done|]. by eapply IH, conf_step_inv.
Qed.

(** C5: the upstreams of a configuration are well typed.  After any sequence of
    accepted upstream blocks and addresses of [proxy_pass], in any order,
    every upstream with a block has at least one server, each of its servers
    has an address, a weight of at least 1 and parameters within their types,
    and the names of any two blocks differ, also without regard to case. *)
Theorem configured_upstreams_typed l i c :
  rtc conf_step [] l -> l !! i = Some c -> created c = true ->
  (exists svs, uc_servers c = Some svs /\ svs <> [] /\ Forall server_typed svs)
  /\ forall j d, l !! j = Some d -> created d = true -> low (uc_host d) = low (uc_host c) -> j = i.
Proof.
  intros Hl Hi Hc. pose proof (conf_steps_inv l Hl) as Hinv. destruct (Hinv i c Hi) as (_ & _ & H & _). destruct (H Hc) as (_ & Hs & Hf).
  split; [done|]. intros j d Hj Hd E. destruct (Hinv j d Hj) as (_ & _ & H' & _). destruct (H' Hd) as (_ & _ & Hf').
  destruct (lt_eq_lt_dec j i) as [[Hlt|]|Hlt]; [by destruct (Hf j d Hlt Hj)|done|by destruct (Hf' i c Hlt Hi)].
Qed.

(** A name that is no address: it has neither a port nor a path. *)
Record plain_name (name : bytes) : Prop := {
  pn_nul : nul_free name; pn_ne : name <> []; pn_colon : ch ":" ∉ name; pn_slash : ch "/" ∉ name; pn_ask : ch "?" ∉ name;
  pn_bracket : hd_error name <> Some (ch "["); pn_addr : ngx_inet_addr name = INADDR_NONE
}.

Lemma plain_name_parses name uri port :
  plain_name name ->
  exists v, ngx_parse_url gai ((url_of name) <| u_no_resolve := true |> <| u_uri_part := uri |> <| u_default_port := port |>) = Some (NGX_OK, v)
    /\ u_host v = name /\ u_no_port v = true /\ u_port v = port /\ u_addrs v = [].
Proof.
  intros [Hnul Hne Hcol Hsl Hask Hbr Ha]. set (u := _ <| u_default_port := port |>). unfold ngx_parse_url. change (u_url u) with name.
  destruct ((5 <=? blen name) && (ngx_strncasecmp name (s2b "unix:") 5 =? 0)) eqn:Eu.
  { exfalso. apply andb_true_iff in Eu as [H5 Eu]. apply Z.leb_le in H5. apply Z.eqb_eq in Eu. apply (strncasecmp_zero name (s2b "unix:")) in Eu; [|by repeat constructor].
    do 5 (destruct name as [|? name]; [unfold blen in H5; cbn in H5; lia|]). cbn in Eu. injection Eu as _ _ _ _ E. apply Hcol.
    do 4 (apply elem_of_cons; right). apply elem_of_cons. left. symmetry. by apply to_low_below. }
  rewrite bool_decide_eq_false_2 by done. unfold ngx_parse_inet_url.
  set (w := u <| u_socklen := SIZEOF_SOCKADDR_IN |> <| u_sockaddr := [AF_INET; 0] |> <| u_family := AF_INET |>).
  change (u_url w) with name. rewrite (strlchr_none _ _ Hcol), (strlchr_none _ _ Hsl), (strlchr_none _ _ Hask).
  rewrite bool_decide_eq_false_2 by (by intros [? ?]). cbn [andb]. change (u_listen w) with false. rewrite andb_false_r, firstn_all.
  unfold parse_inet_host. destruct (Z.eqb_spec (blen name) 0) as [E0|_]; [unfold blen in E0; destruct name; [done|cbn in E0; lia]|].
  match goal with |- context [u_listen ?x && _] => change (u_listen x) with false end. cbn [andb]. rewrite Ha, Z.eqb_refl. cbn [negb].
  eexists. split; [reflexivity|]. by split_and!.
Qed.

(** names lead to their blocks.  Once a block is read, every [proxy_pass] to
    its name, in any case and without a port, gets that upstream and adds
    none, whatever else is configured, also when other [proxy_pass] named it
    before the block. *)
Theorem upstream_found_by_name l i c name uri port :
  rtc conf_step [] l -> l !! i = Some c -> created c = true ->
  plain_name name -> low name = low (uc_host c) -> (http = false -> port = 0) ->
  upstream_add http gai ((url_of name) <| u_no_resolve := true |> <| u_uri_part := uri |> <| u_default_port := port |>) 0 l = Some (i, l).
Proof.
  intros Hl Hi Hc Hn Hname Hp. pose proof (conf_steps_inv l Hl) as Hinv. destruct (Hinv i c Hi) as (_ & _ & H & _). destruct (H Hc) as (Hport & _ & Hf).
  destruct (plain_name_parses name uri port Hn) as (v & Ev & V1 & V2 & V3 & V4). unfold upstream_add. change (has_flag 0 UPSTREAM_CREATE) with false. cbn match.
  rewrite Ev. cbn [mbind option_bind]. rewrite bool_decide_eq_true_2 by done. cbn [mbind option_bind].
  enough (find_upstream http v false 0 l = FFound i) as -> by done.
  assert (Hgo : forall l n k, (forall j d, (j < k)%nat -> l !! j = Some d -> low (uc_host d) <> low (uc_host c)) -> l !! k = Some c ->
            find_upstream http v false n l = FFound (n + k)); [|by apply (Hgo l O i)].
  clear - Hn Hname Hp Hc Hport V1 V2 V3. intros l. induction l as [|d l IH]; intros n k Hb Hk; [done|]. cbn [find_upstream].
  rewrite same_name by (rewrite V1; apply Hn). rewrite V1, V2, V3, andb_false_r, Hname. cbn [andb]. destruct k as [|k].
  - injection Hk as ->. rewrite bool_decide_eq_true_2 by done. cbn [negb]. rewrite Hport. destruct http; cbn [Z.eqb negb andb]; [by rewrite Nat.add_0_r|].
    rewrite Hp by done. by rewrite Nat.add_0_r.
  - rewrite bool_decide_eq_false_2 by (apply (Hb O d); [lia|done]). cbn [negb]. rewrite (IH (S n) k); [f_equal; lia| |done].
    intros j x Hj. apply (Hb (S j)). lia.
Qed.

End Upstreams.

(** ** Example *)

(** [proxy_pass http://backend] before the block, and a second block. *)
Definition ex_gai (host : bytes) : option (list (Z * bytes * Z)) :=
  if bool_decide (host = s2b "db") then Some [(AF_INET, sin 0 [10; 0; 0; 7], 16); (AF_INET, sin 0 [10; 0; 0; 8], 16)] else None.

Definition ex_block : list up_directive :=
  [DHash (s2b "$uri") None; DServer (s2b "10.0.0.1:81") [s2b "weight=2"]; DServer (s2b "db:82") [s2b "max_conns=9"]].

Definition ex_upstreams : option (list uscf_t) :=
  '(_, l) ← upstream_add true ex_gai ((url_of (s2b "backend")) <| u_no_resolve := true |> <| u_uri_part := true |> <| u_default_port := 80 |>) 0 [];
  l ← upstream_block true ex_gai (fun _ => true) (s2b "Backend") ex_block l;
  upstream_block true ex_gai (fun _ => true) (s2b "other") [DServer (s2b "10.0.0.2") []] l.

Definition ex_backend : uscf_t :=
  mk_uscf hash_flags (s2b "backend") 0 true
    (Some [mk_rr_server (s2b "10.0.0.1:81") [mk_addr (sin 81 [10; 0; 0; 1]) 16 (s2b "10.0.0.1:81")] 2 0 1 10 0 false;
           mk_rr_server (s2b "db:82") [mk_addr (sin 82 [10; 0; 0; 7]) 16 (s2b "10.0.0.7:82"); mk_addr (sin 82 [10; 0; 0; 8]) 16 (s2b "10.0.0.8:82")]
             1 9 1 10 0 false])
    (Some B_hash) false (s2b "$uri").

Definition ex_other : uscf_t :=
  mk_uscf block_flags (s2b "other") 0 true
    (Some [mk_rr_server (s2b "10.0.0.2") [mk_addr (sin 80 [10; 0; 0; 2]) 16 (s2b "10.0.0.2:80")] 1 0 1 10 0 false]) None false [].

Example ex_upstreams_read : ex_upstreams = Some [ex_backend; ex_other].
Proof. vm_compute. reflexivity. Qed.

(** Refused: a name that is taken, an unknown parameter, a backup server for a
    balancer without them, a weight of 0 and an empty block. *)
Example ex_blocks_refused :
  let block name ds := l ← ex_upstreams; upstream_block true ex_gai (fun _ => true) (s2b name) ds l in
  block "OTHER" [DServer (s2b "10.0.0.2") []] = None
  /\ block "new" [DServer (s2b "10.0.0.2") [s2b "wieght=2"]] = None
  /\ block "new" [DRandom []; DServer (s2b "10.0.0.2") [s2b "backup"]] = None
  /\ block "new" [DServer (s2b "10.0.0.2") [s2b "weight=0"]] = None
  /\ block "new" [DLeastConn] = None
  /\ is_Some (block "new" [DServer (s2b "10.0.0.2") [s2b "backup"]; DRandom []]).
Proof. vm_compute. split_and!; [reflexivity..|by eexists]. Qed.

Lemma ex_upstreams_steps : rtc (conf_step true ex_gai (fun _ => true)) [] [ex_backend; ex_other].
Proof.
  eapply rtc_l; [eapply (step_pass true ex_gai _ (s2b "backend") 80 true); [by repeat constructor|done|vm_compute; reflexivity]|].
  eapply rtc_l; [eapply (step_block true ex_gai _ (s2b "Backend") ex_block); [by repeat constructor|vm_compute; reflexivity]|].
  eapply rtc_l; [eapply (step_block true ex_gai _ (s2b "other") [DServer (s2b "10.0.0.2") []]); [by repeat constructor|vm_compute; reflexivity]|].
  apply rtc_refl.
Qed.

Lemma configured_upstreams_typed_witness :
  (exists svs, uc_servers ex_backend = Some svs /\ svs <> [] /\ Forall server_typed svs)
  /\ forall j d, [ex_backend; ex_other] !! j = Some d -> created d = true -> low (uc_host d) = low (uc_host ex_backend) -> j = O.
Proof.
  apply (configured_upstreams_typed true ex_gai (fun _ => true) [ex_backend; ex_other] 0 ex_backend ex_upstreams_steps); reflexivity.
Defined.

Lemma upstream_found_by_name_witness :
  upstream_add true ex_gai ((url_of (s2b "BackEnd")) <| u_no_resolve := true |> <| u_uri_part := true |> <| u_default_port := 443 |>) 0 [ex_backend; ex_other]
  = Some (O, [ex_backend; ex_other]).
Proof.
  apply (upstream_found_by_name true ex_gai (fun _ => true) [ex_backend; ex_other] 0 ex_backend (s2b "BackEnd") true 443 ex_upstreams_steps);
    [reflexivity|reflexivity| |reflexivity|discriminate].
  split; [by repeat constructor|discriminate| | | |discriminate|reflexivity]; apply (bool_decide_eq_true_1 (_ ∉ _)); vm_compute; reflexivity.
Defined.
