(* ===== verification/Traffic.v ===== *)
(** * From a configuration to its requests

    The balancer of an upstream block serves the requests: [peer.init],
    [peer.get] and [peer.free] of the balancer that the block names, on the
    servers that [init_upstream] made.  Requests and releases only change the
    counters of servers, so what the blocks promise holds in every state, and
    the theorem composes the block, its start and the balancers: every request
    is answered. *)

From S2P Require Import Prelude NgxString StatusLine CheckTypes CheckProto CheckCore CheckSafety CheckWorker.
From S2P Require Import Inet FastCgiRequest CheckConf AddPeer RoundRobin RoundRobinInit LeastConn Crc32 HashPeer ConsistentHash RandomPeer.
From S2P Require Import ParseTime InetParse Url UpstreamConf UpstreamTyped.

(** ** The functions of a request *)

(** [peer.data] *)
Inductive peer_data : Type :=
  | D_rr (rrp : rr_data) | D_hash (hp : hash_data) | D_ip_hash (iphp : ip_hash_data) | D_random (rp : random_data).

Definition data_rrp (d : peer_data) : rr_data :=
  match d with D_rr rrp => rrp | D_hash hp => hp_rrp hp | D_ip_hash iphp => iphp_rrp iphp | D_random rp => rp_rrp rp end.

(** [uscf->peer.init]; [key] is the value of the key and [client] the address
    of the client. *)
Definition peer_init (b : option balancer) (run : upstream_run) (us : rr_upstream) (key : bytes) (client : client_addr) : option peer_data :=
  match b with
  | None => Some (D_rr (init_round_robin_peer us))
  | Some B_least_conn => Some (D_rr (init_least_conn_peer us))
  | Some B_hash => Some (D_hash (init_hash_peer us key))
  | Some B_chash => pts ← ur_points run; D_hash <$> init_chash_peer pts us key
  | Some B_ip_hash => Some (D_ip_hash (init_ip_hash_peer us client))
  | Some B_random => Some (D_random (init_random_peer us))
  end.

Section Request.
Context (now : Z) (check_down : Z -> bool) (rnd : nat -> Z).

(** [pc->get]; the upstream has no zone, hence no locks. *)
Definition peer_get (b : option balancer) (two : bool) (run : upstream_run) (d : peer_data) (us : rr_upstream)
    : option (outcome (ngx_rc * peer_data * rr_upstream)) :=
  match b, d with
  | None, D_rr rrp => '(rc, rrp, us) ← get_round_robin_peer now check_down rrp us; Some (Returns (rc, D_rr rrp, us))
  | Some B_least_conn, D_rr rrp => '(rc, rrp, us) ← get_least_conn_peer now check_down rrp us; Some (Returns (rc, D_rr rrp, us))
  | Some B_hash, D_hash hp =>
    o ← get_hash_peer false now check_down hp us [];
    Some (match o with Returns (rc, hp, us, _) => Returns (rc, D_hash hp, us) | Spins p => Spins p end)
  | Some B_chash, D_hash hp =>
    pts ← ur_points run;
    '(rc, hp, us) ← get_chash_peer now check_down pts hp us; Some (Returns (rc, D_hash hp, us))
  | Some B_ip_hash, D_ip_hash iphp =>
    o ← get_ip_hash_peer false now check_down iphp us [];
    Some (match o with Returns (rc, iphp, us, _) => Returns (rc, D_ip_hash iphp, us) | Spins p => Spins p end)
  | Some B_random, D_random rp =>
    ranges ← ur_ranges run;
    '(rc, rp, us) ← (if two then get_random2_peer now check_down rnd ranges rp us else get_random_peer now check_down rnd ranges rp us);
    Some (Returns (rc, D_random rp, us))
  | _, _ => None
  end.

End Request.

(** ** What requests leave alone *)

(** The configuration of a server. *)
Record same_conf (p q : rr_peer) : Prop := {
  sf_addr : rr_addr q = rr_addr p; sf_server : rr_server q = rr_server p; sf_weight : weight q = weight p;
  sf_limits : max_conns q = max_conns p /\ max_fails q = max_fails p /\ fail_timeout q = fail_timeout p;
  sf_index : check_index q = check_index p; sf_down : rr_down q = rr_down p
}.

#[export] Instance same_conf_preorder : PreOrder same_conf.
Proof.
  split; [by split|]. intros p q r [] []. split; try congruence. naive_solver congruence.
Qed.

Definition kept : list rr_peer -> list rr_peer -> Prop := Forall2 same_conf.

#[export] Instance kept_preorder : PreOrder kept.
Proof. unfold kept. apply _. Qed.

Record group_kept (ps ps' : rr_peers) : Prop := {
  gk_number : number ps' = number ps; gk_total : total_weight ps' = total_weight ps; gk_single : single ps' = single ps;
  gk_list : kept (rr_list ps) (rr_list ps')
}.

Definition us_kept (us us' : rr_upstream) : Prop :=
  group_kept (primary us) (primary us') /\ option_Forall2 group_kept (backup us) (backup us').

#[export] Instance group_kept_preorder : PreOrder group_kept.
Proof.
  split; [by split|]. intros a b c [] []. split; [congruence..|]. by etransitivity.
Qed.

#[export] Instance us_kept_preorder : PreOrder us_kept.
Proof.
  split; [intros us; by split|]. intros a b c [H1 H2] [K1 K2]. split; by etransitivity.
Qed.

Lemma kept_alter f i l : (forall p, same_conf p (f p)) -> kept l (alter f i l).
Proof.
  intros Hf. revert i; induction l as [|p l IH]; intros i; [by constructor|]. destruct i as [|i]; (apply Forall2_cons; split); [apply Hf|reflexivity|reflexivity|apply IH].
Qed.

Lemma kept_insert i p q l : l !! i = Some p -> same_conf p q -> kept l (<[i := q]> l).
Proof.
  intros Hi Hq. pose proof (Forall2_insert same_conf l l p q i (reflexivity (R := kept) l) Hq) as H. by rewrite list_insert_id in H.
Qed.

Lemma kept_list ps l : kept (rr_list ps) l -> group_kept ps (ps <| rr_list := l |>).
Proof. by split. Qed.

Lemma kept_primary us ps : group_kept (primary us) ps -> us_kept us (us <| primary := ps |>).
Proof. intros H. split; [exact H|]. reflexivity. Qed.

Lemma kept_backup us bs bs' : backup us = Some bs -> group_kept bs bs' -> us_kept us (us <| backup := Some bs' |>).
Proof. intros E H. split; [reflexivity|]. rewrite E. by constructor. Qed.

(** One update of a server: every branch keeps its configuration. *)
Ltac same_conf :=
  intros; repeat match goal with |- context [if ?b then _ else _] => destruct b end; by split.

Section Kept.
Context (now : Z) (check_down : Z -> bool).

Lemma raise_kept p : same_conf p (raise_weight p).
Proof. unfold raise_weight. same_conf. Qed.

Lemma get_peer_loop_kept t i best total l : kept l (fst (fst (get_peer_loop now check_down t i best total l))).
Proof.
  revert i best total; induction l as [|p l IH]; intros i best total; cbn [get_peer_loop]; [by constructor|].
  destruct (skipped _ _ _ _ _); match goal with |- context [get_peer_loop _ _ _ ?a ?b ?c l] =>
    specialize (IH a b c); destruct (get_peer_loop now check_down t a b c l) as [[l' b'] t'] end; cbn in *;
    (apply Forall2_cons; split); [reflexivity|done|apply raise_kept|done].
Qed.

Lemma get_peer_kept t l r t' l' : get_peer now check_down t l = (r, t', l') -> kept l l'.
Proof.
  unfold get_peer. pose proof (get_peer_loop_kept t 0 None 0 l) as H. destruct (get_peer_loop _ _ _ _ _ _ _) as [[l1 [[i b]|]] total]; cbn in H.
  - intros [= _ _ <-]. etransitivity; [exact H|]. apply kept_alter. same_conf.
  - by intros [= _ _ <-].
Qed.

Lemma get_group_kept ps t r t' ps' : get_group now check_down ps t = Some (r, t', ps') -> group_kept ps ps'.
Proof.
  unfold get_group. intros ([[r1 t1] l1] & E & H)%option_bind_inv.
  assert (Hl : kept (rr_list ps) l1).
  { destruct (single ps); [|injection E as E; by eapply get_peer_kept]. apply option_bind_inv in E as (p & _ & E).
    destruct (_ || _); by injection E as _ _ <-. }
  destruct r1 as [i|]; injection H as _ _ <-; apply kept_list; [|done]. etransitivity; [exact Hl|]. apply kept_alter. same_conf.
Qed.

Lemma get_backup_kept rrp us rc rrp' us' : get_backup now check_down rrp us = Some (rc, rrp', us') -> us_kept us us'.
Proof.
  unfold get_backup. intros (bs & Eb & H)%option_bind_inv. apply option_bind_inv in H as ([[r t] bs'] & E & H).
  apply get_group_kept in E. destruct r; injection H as _ _ <-; by apply (kept_backup us bs).
Qed.

Lemma round_robin_kept rrp us rc rrp' us' : get_round_robin_peer now check_down rrp us = Some (rc, rrp', us') -> us_kept us us'.
Proof.
  unfold get_round_robin_peer. destruct (on_backup rrp); [apply get_backup_kept|]. intros ([[r t] ps] & E & H)%option_bind_inv.
  apply get_group_kept in E. cbv zeta in H. change (backup (us <| primary := ps |>)) with (backup us) in H.
  destruct r as [i|]; [injection H as _ _ <-; by apply kept_primary|].
  destruct (backup us); [|injection H as _ _ <-; by apply kept_primary].
  apply get_backup_kept in H. etransitivity; [|exact H]. by apply kept_primary.
Qed.

Lemma many_loop_kept t k i bi total l r total' l' :
  many_loop now check_down t k i bi total l = Some (r, total', l') -> kept l l'.
Proof.
  revert i bi total l; induction k as [|k IH]; intros i bi total l; cbn [many_loop]; [by intros [= _ _ <-]|].
  intros (p & Hp & H)%option_bind_inv. apply option_bind_inv in H as (b & _ & H). destruct (_ || _); [by eapply IH|].
  apply option_bind_inv in H as (b' & _ & H). etransitivity; [|by eapply IH]. eapply kept_insert; [exact Hp|apply raise_kept].
Qed.

Lemma least_group_kept ps t r t' ps' : least_group now check_down ps t = Some (r, t', ps') -> group_kept ps ps'.
Proof.
  unfold least_group. destruct (least_loop _ _ _ _ _ _ _) as [[[p q]|] many]; [|by intros [= _ _ <-]].
  intros ([[i total] l] & E & H)%option_bind_inv. injection H as _ _ <-. apply kept_list.
  etransitivity; [|apply kept_alter; unfold take_peer; same_conf].
  destruct many; [by eapply many_loop_kept|by injection E as _ _ <-].
Qed.

Lemma least_backup_kept rrp us rc rrp' us' : get_least_conn_backup now check_down rrp us = Some (rc, rrp', us') -> us_kept us us'.
Proof.
  unfold get_least_conn_backup. intros (bs & Eb & H)%option_bind_inv. destruct (single bs); [by apply round_robin_kept in H|].
  apply option_bind_inv in H as ([[r t] bs'] & E & H). apply least_group_kept in E. destruct r; injection H as _ _ <-; by apply (kept_backup us bs).
Qed.

Lemma least_conn_kept rrp us rc rrp' us' : get_least_conn_peer now check_down rrp us = Some (rc, rrp', us') -> us_kept us us'.
Proof.
  unfold get_least_conn_peer. destruct (on_backup rrp); [apply least_backup_kept|]. destruct (single _); [apply round_robin_kept|].
  intros ([[r t] ps] & E & H)%option_bind_inv. apply least_group_kept in E. cbv zeta in H.
  change (backup (us <| primary := ps |>)) with (backup us) in H.
  destruct r as [i|]; [injection H as _ _ <-; by apply kept_primary|].
  destruct (backup us); [|injection H as _ _ <-; by apply kept_primary].
  apply least_backup_kept in H. etransitivity; [|exact H]. by apply kept_primary.
Qed.

Lemma set_group_kept rrp us ps ps' : group_of rrp us = Some ps -> group_kept ps ps' -> us_kept us (set_group rrp us ps').
Proof.
  unfold group_of, set_group. destruct (on_backup rrp); [apply kept_backup|]. intros [= <-]. apply kept_primary.
Qed.

Lemma use_peer_kept i ps : group_kept ps (ps <| rr_list := alter (use_peer now) i (rr_list ps) |>).
Proof. apply kept_list, kept_alter. unfold use_peer. same_conf. Qed.

Lemma hash_kept shared hp us locks rc hp' us' locks' :
  get_hash_peer shared now check_down hp us locks = Some (Returns (rc, hp', us', locks')) -> us_kept us us'.
Proof.
  unfold get_hash_peer. intros (ps & Eg & H)%option_bind_inv. cbv zeta in H. destruct (_ || _).
  - apply option_bind_inv in H as ([[rc1 rrp] us1] & E & H). injection H as _ _ <- _. by apply round_robin_kept in E.
  - apply option_bind_inv in H as (o & _ & H). destruct o as [[[[[p|] tries] [h rehash]] lk]|]; [| |done].
    + injection H as _ _ <- _. eapply set_group_kept; [exact Eg|apply use_peer_kept].
    + apply option_bind_inv in H as ([[rc1 rrp] us1] & E & H). injection H as _ _ <- _. by apply round_robin_kept in E.
Qed.

Lemma ip_hash_kept shared iphp us locks rc iphp' us' locks' :
  get_ip_hash_peer shared now check_down iphp us locks = Some (Returns (rc, iphp', us', locks')) -> us_kept us us'.
Proof.
  unfold get_ip_hash_peer. intros (ps & Eg & H)%option_bind_inv. cbv zeta in H. destruct (_ || _).
  - apply option_bind_inv in H as ([[rc1 rrp] us1] & E & H). injection H as _ _ <- _. by apply round_robin_kept in E.
  - apply option_bind_inv in H as (o & _ & H). destruct o as [[[[[p|] tries] h] lk]|]; [| |done].
    + injection H as _ _ <- _. eapply set_group_kept; [exact Eg|apply use_peer_kept].
    + apply option_bind_inv in H as ([[rc1 rrp] us1] & E & H). injection H as _ _ <- _. by apply round_robin_kept in E.
Qed.

Lemma chash_loop_kept s t i best total l : kept l (fst (fst (chash_loop now check_down s t i best total l))).
Proof.
  revert i best total; induction l as [|p l IH]; intros i best total; cbn [chash_loop]; [by constructor|].
  destruct (_ || _); match goal with |- context [chash_loop _ _ _ _ ?a ?b ?c l] =>
    specialize (IH a b c); destruct (chash_loop now check_down s t a b c l) as [[l' b'] t'] end; cbn in *;
    (apply Forall2_cons; split); [reflexivity|done|apply raise_kept|done].
Qed.

Lemma ring_loop_kept pts fuel t hash tries l r hash' tries' l' :
  ring_loop now check_down pts fuel t hash tries l = Some (r, hash', tries', l') -> kept l l'.
Proof.
  revert hash tries l; induction fuel as [|fuel IH]; intros hash tries l; cbn [ring_loop]; [done|].
  intros (pt & _ & H)%option_bind_inv. pose proof (chash_loop_kept (pt_server pt) t 0 None 0 l) as Hk.
  destruct (chash_loop _ _ _ _ _ _ _ _) as [[l1 [[p b]|]] total]; cbn in Hk.
  - injection H as _ _ _ <-. etransitivity; [exact Hk|]. apply kept_alter. unfold found_peer. same_conf.
  - cbv zeta in H. destruct (20 <? tries + 1); [by injection H as _ _ _ <-|]. etransitivity; [exact Hk|]. by eapply IH.
Qed.

Lemma chash_kept pts hp us rc hp' us' : get_chash_peer now check_down pts hp us = Some (rc, hp', us') -> us_kept us us'.
Proof.
  unfold get_chash_peer. intros (ps & Eg & H)%option_bind_inv. cbv zeta in H. destruct (_ || _).
  - apply option_bind_inv in H as ([[rc1 rrp] us1] & E & H). injection H as _ _ <-. by apply round_robin_kept in E.
  - apply option_bind_inv in H as ([[[r hash] tries] l] & E & H). apply ring_loop_kept in E.
    assert (Hk : us_kept us (set_group (hp_rrp hp) us (ps <| rr_list := l |>))) by (eapply set_group_kept; [exact Eg|by apply kept_list]).
    destruct r as [p|]; [by injection H as _ _ <-|].
    apply option_bind_inv in H as ([[rc1 rrp] us1] & E' & H). injection H as _ _ <-. apply round_robin_kept in E'. by etransitivity.
Qed.

Lemma random_kept loop rp us rc rp' us' : random_get now check_down loop rp us = Some (rc, rp', us') -> us_kept us us'.
Proof.
  unfold random_get. intros (ps & Eg & H)%option_bind_inv. cbv zeta in H. destruct (_ || _).
  - apply option_bind_inv in H as ([[rc1 rrp] us1] & E & H). injection H as _ _ <-. by apply round_robin_kept in E.
  - apply option_bind_inv in H as ([[i|] tries] & _ & H).
    + injection H as _ _ <-. eapply set_group_kept; [exact Eg|apply use_peer_kept].
    + apply option_bind_inv in H as ([[rc1 rrp] us1] & E & H). injection H as _ _ <-. by apply round_robin_kept in E.
Qed.

Lemma get_kept rnd b two run d us rc d' us' : peer_get now check_down rnd b two run d us = Some (Returns (rc, d', us')) -> us_kept us us'.
Proof.
  unfold peer_get. destruct b as [[]|], d as [rrp|hp|iphp|rp]; try done.
  - intros ([[rc1 x] us1] & E & H)%option_bind_inv. injection H as _ _ <-. by apply least_conn_kept in E.
  - intros (o & E & H)%option_bind_inv. destruct o as [[[[rc1 x] us1] lk]|]; [|done]. injection H as _ _ <-. by apply hash_kept in E.
  - intros (pts & _ & H)%option_bind_inv. apply option_bind_inv in H as ([[rc1 x] us1] & E & H). injection H as _ _ <-. by apply chash_kept in E.
  - intros (o & E & H)%option_bind_inv. destruct o as [[[[rc1 x] us1] lk]|]; [|done]. injection H as _ _ <-. by apply ip_hash_kept in E.
  - intros (rs & _ & H)%option_bind_inv. apply option_bind_inv in H as ([[rc1 x] us1] & E & H). injection H as _ _ <-.
    destruct two; by apply random_kept in E.
  - intros ([[rc1 x] us1] & E & H)%option_bind_inv. injection H as _ _ <-. by apply round_robin_kept in E.
Qed.

Lemma free_peer_kept single failed p : same_conf p (free_peer now single failed p).
Proof.
  unfold free_peer. destruct single, failed; [by split..| |].
  - cbv zeta. match goal with |- context [negb (max_fails ?x =? 0)] => change (max_fails x) with (max_fails p) end.
    destruct (negb (max_fails p =? 0)); match goal with |- context [if ?b then _ else _] => destruct b end; by split.
  - destruct (accessed p <? rr_checked p); by split.
Qed.

Lemma free_kept failed tries rrp us tries' us' : free_round_robin_peer now failed tries rrp us = Some (tries', us') -> us_kept us us'.
Proof.
  unfold free_round_robin_peer. intros (i & _ & H)%option_bind_inv. cbv zeta in H.
  assert (Hf : forall ps, group_kept ps (ps <| rr_list := alter (free_peer now (single ps) failed) i (rr_list ps) |>)).
  { intros ps. apply kept_list, kept_alter. intros p. apply free_peer_kept. }
  destruct (on_backup rrp).
  - apply option_bind_inv in H as (bs & Eb & H). injection H as _ <-. by apply (kept_backup us bs).
  - injection H as _ <-. by apply kept_primary.
Qed.

End Kept.

(** ** Traffic *)

(** What happens to a running upstream: some request asks for a server, for
    the first time or again, at any time and with any answer of the health
    checker, or is done with one. *)
Inductive traffic (b : option balancer) (two : bool) (run : upstream_run) : rr_upstream -> rr_upstream -> Prop :=
  | traffic_get now check_down rnd d us rc d' us' :
      peer_get now check_down rnd b two run d us = Some (Returns (rc, d', us')) -> traffic b two run us us'
  | traffic_free now failed tries rrp us tries' us' :
      free_round_robin_peer now failed tries rrp us = Some (tries', us') -> traffic b two run us us'
  | traffic_notify connected tcp rrp us us' :
      ngx_stream_upstream_notify_round_robin_peer connected tcp rrp us = Some us' -> traffic b two run us us'.

Lemma notify_kept connected tcp rrp us us' : ngx_stream_upstream_notify_round_robin_peer connected tcp rrp us = Some us' -> us_kept us us'.
Proof.
  unfold ngx_stream_upstream_notify_round_robin_peer. destruct (_ && _); [|by intros [= <-]]. intros (i & _ & H)%option_bind_inv. cbv zeta in H.
  assert (Hf : forall ps, group_kept ps (ps <| rr_list := alter notify_peer i (rr_list ps) |>)).
  { intros ps. apply kept_list, kept_alter. unfold notify_peer. same_conf. }
  destruct (on_backup rrp).
  - apply option_bind_inv in H as (bs & Eb & H). injection H as <-. by apply (kept_backup us bs).
  - injection H as <-. by apply kept_primary.
Qed.

Lemma traffic_kept b two run us us' : rtc (traffic b two run) us us' -> us_kept us us'.
Proof.
  induction 1 as [us|us us1 us' Hs _ IH]; [reflexivity|]. etransitivity; [|exact IH].
  destruct Hs; [by eapply get_kept|by eapply free_kept|by eapply notify_kept].
Qed.

(** ** The block *)

Definition is_server (d : up_directive) : bool := match d with DServer _ _ => true | _ => false end.

(** The balancer is chosen before the servers. *)
Fixpoint method_first (ds : list up_directive) : bool :=
  match ds with
  | [] => true
  | d :: ds => if is_server d then forallb is_server ds else method_first ds
  end.

(** No NUL in the texts of a configuration. *)
Definition texts_ok (ds : list up_directive) : Prop :=
  Forall (fun d => match d with DServer name _ => nul_free name | _ => True end) ds.

Definition has_backups (b : option balancer) : bool := match b with None | Some B_least_conn => true | _ => false end.

Section Block.
Context (http : bool) (gai : bytes -> option (list (Z * bytes * Z))) (cok : bytes -> bool).

(** The flags are those of the balancer. *)
Definition flags_fit (uc : uscf_t) : Prop := forall b, uc_init uc = Some b -> has_flag (uc_flags uc) UPSTREAM_BACKUP = has_backups (Some b).

Lemma method_fits d uc uc' :
  is_server d = false -> run_up_directive http gai cok d uc = Some uc' -> flags_fit uc' /\ uc_servers uc' = uc_servers uc.
Proof.
  assert (H : forall uc b, uc_init uc = Some b -> has_flag (uc_flags uc) UPSTREAM_BACKUP = has_backups (Some b) -> flags_fit uc).
  { intros u b E1 E2 b' E. rewrite E1 in E. by injection E as <-. }
  destruct d as [name vs| |key m| |vs]; [done| | | |]; intros _; cbn [run_up_directive].
  - intros [= <-]. split; [|done]. by eapply H.
  - unfold upstream_hash. destruct (cok key); [|done]. destruct m as [c|]; [destruct (_ =? 0); [|done]|]; intros [= <-]; (split; [|done]); by eapply H.
  - destruct http; [|done]. intros [= <-]. split; [|done]. by eapply H.
  - unfold upstream_random. destruct vs as [|two vs]; [intros [= <-]; (split; [|done]); by eapply H|]. destruct (_ =? 0); [|done].
    destruct vs as [|m vs]; [intros [= <-]; (split; [|done]); by eapply H|]. destruct (_ =? 0); [|done]. intros [= <-]; (split; [|done]); by eapply H.
Qed.

Definition no_backup_servers (uc : uscf_t) : Prop :=
  exists svs, uc_servers uc = Some svs /\ (has_backups (uc_init uc) = false -> Forall (fun sv => sc_backup sv = false) svs).

Lemma servers_fit ds uc uc' :
  forallb is_server ds = true -> run_up_directives http gai cok ds uc = Some uc' -> flags_fit uc -> no_backup_servers uc -> no_backup_servers uc'.
Proof.
  revert uc; induction ds as [|d ds IH]; intros uc; cbn [forallb run_up_directives]; [by intros _ [= <-]|].
  destruct d as [name vs| | | |]; try done. cbn [is_server andb run_up_directive]. intros Hd (uc1 & E & H)%option_bind_inv Hf (svs & Es & Hs).
  apply upstream_server_spec in E as (svs0 & sv & Es0 & -> & _ & _ & Hb). rewrite Es in Es0. injection Es0 as <-.
  apply (IH _ Hd H); [exact Hf|]. eexists. split; [reflexivity|]. cbn. intros Hnb. apply Forall_app. split; [by apply Hs|].
  apply Forall_singleton, Hb.
  assert (Hnb' : has_backups (uc_init uc) = false) by exact Hnb. destruct (uc_init uc) as [b|] eqn:Ei; [|done]. by rewrite (Hf b Ei).
Qed.

Lemma directives_fit ds uc uc' :
  method_first ds = true -> run_up_directives http gai cok ds uc = Some uc' -> flags_fit uc -> uc_servers uc = Some [] -> no_backup_servers uc'.
Proof.
  revert uc; induction ds as [|d ds IH]; intros uc; cbn [method_first run_up_directives].
  - intros _ [= <-] _ E. exists []. by split.
  - intros Hm H Hf E. destruct (is_server d) eqn:Ed.
    + apply (servers_fit (d :: ds) uc uc'); [cbn; by rewrite Ed|exact H|done|]. exists []. by split.
    + apply option_bind_inv in H as (uc1 & E1 & H). destruct (method_fits d uc uc1 Ed E1) as [Hf1 Es1]. apply (IH uc1 Hm H Hf1). by rewrite Es1.
Qed.

Lemma directives_names ds uc uc' svs :
  texts_ok ds -> run_up_directives http gai cok ds uc = Some uc' -> uc_servers uc = Some svs -> Forall (fun sv => nul_free (sc_name sv)) svs ->
  exists svs', uc_servers uc' = Some svs' /\ Forall (fun sv => nul_free (sc_name sv)) svs'.
Proof.
  intros Ht. revert uc svs; induction Ht as [|d ds Hd _ IH]; intros uc svs; cbn [run_up_directives]; [intros [= <-]; by exists svs|].
  intros (uc1 & E & H)%option_bind_inv Es Hs. destruct (is_server d) eqn:Ed.
  - destruct d as [name vs| | | |]; try done. apply upstream_server_spec in E as (svs0 & sv & Es0 & -> & _ & Hn & _).
    rewrite Es in Es0. injection Es0 as <-. eapply IH; [exact H|reflexivity|]. apply Forall_app. split; [done|]. apply Forall_singleton. by rewrite Hn.
  - destruct (method_fits d uc uc1 Ed E) as [_ Es1]. eapply IH; [exact H|by rewrite Es1|done].
Qed.

End Block.

(** ** The start *)

Definition all_addrs_ok (cf : option ngx_upstream_check_srv_conf_t) (svs : list rr_server_conf) : Prop :=
  Forall (fun x => addr_ok cf (snd x)) (server_addrs false svs) /\ Forall (fun x => addr_ok cf (snd x)) (server_addrs true svs).

(** Weights a balancer can add up. *)
Definition weights_fit (b : option balancer) (svs : list rr_server_conf) : Prop :=
  match b with
  | Some B_chash => 160 * rr_weights (server_addrs false svs) + 21 < 2 ^ 32
  | Some B_random => rr_weights (server_addrs false svs) < 2 ^ 64
  | _ => True
  end.

Lemma server_addrs_in b svs x : x ∈ server_addrs b svs -> fst x ∈ svs /\ sc_backup (fst x) = b.
Proof.
  unfold server_addrs. rewrite list_elem_of_In, in_flat_map. intros (sv & Hsv%list_elem_of_In & Hx%list_elem_of_In).
  case_bool_decide as E; [|by apply not_elem_of_nil in Hx]. apply list_elem_of_fmap in Hx as (a & -> & _). done.
Qed.

Lemma rr_weights_wsum l rs : Forall2 rr_of l rs -> rr_weights l = wsum rs.
Proof. unfold wsum, rr_weights. induction 1 as [|x r l rs [_ _ _ Hw _ _] H IH]; [done|]. cbn [foldr]. by rewrite IH, Hw. Qed.

(** What the balancers rely on. *)
Record group_ready (ps : rr_peers) : Prop := {
  gr_wf : group_wf ps; gr_number : number ps = Z.of_nat (length (rr_list ps)); gr_total : total_weight ps = wsum (rr_list ps);
  gr_ne : rr_list ps <> []; gr_weights : Forall (fun p => 1 <= weight p) (rr_list ps)
}.

Lemma group_ready_of l ps :
  group_wf ps -> group_of_conf l ps -> Forall2 rr_of l (rr_list ps) -> l <> [] -> Forall (fun x => server_typed (fst x)) l -> group_ready ps.
Proof.
  intros Hw [Hn Ht] Hf Hne Hty. pose proof (Forall2_length _ _ _ Hf) as Hlen. split; [done| | | |].
  - rewrite Hn. unfold rr_count. by rewrite Hlen.
  - by rewrite Ht, (rr_weights_wsum _ _ Hf).
  - intros E. rewrite E in Hlen. by destruct l.
  - apply Forall_forall. intros p (i & Hi)%list_elem_of_lookup_1. destruct (Forall2_lookup_r _ _ _ _ _ Hf Hi) as (x & Hx & [_ _ _ Hwt _ _]).
    rewrite Hwt. eapply Forall_lookup_1 in Hx; [|exact Hty]. apply Hx.
Qed.

(** A started upstream: its servers, the ring and the ranges. *)
Record started (b : option balancer) (run : upstream_run) (us : rr_upstream) : Prop := {
  st_primary : group_ready (primary us);
  st_backup bs : backup us = Some bs -> group_ready bs;
  st_none : has_backups b = false -> backup us = None;
  st_ring : b = Some B_chash ->
    exists pts, ur_points run = Some pts /\ ring_of (rr_list (primary us)) pts /\ 160 * total_weight (primary us) + 21 < 2 ^ 32
      /\ Forall (fun p => nul_free (rr_server p)) (rr_list (primary us));
  st_ranges : b = Some B_random -> ur_ranges run = Some (update_random us) /\ total_weight (primary us) < 2 ^ 64
}.

Lemma start_spec qsort `{Hq : !QSortOk qsort} cf resolve c svs ps :
  uc_servers c = Some svs -> Forall server_typed svs -> Forall (fun sv => nul_free (sc_name sv)) svs ->
  (has_backups (uc_init c) = false -> Forall (fun sv => sc_backup sv = false) svs) ->
  all_addrs_ok cf svs -> server_addrs false svs <> [] -> weights_fit (uc_init c) svs ->
  exists run ps', init_upstream qsort cf resolve c ps = Some (NGX_OK, Some run, ps') /\ started (uc_init c) run (ur_us run).
Proof.
  intros Es Hty Hnm Hnb [Hal Hab] Hne Hfit. unfold init_upstream. rewrite Es.
  destruct (init_round_robin_spec cf (uc_host c) svs (uc_port c) resolve ps Hal Hab Hne) as (us & ps' & E & _ & Hg & Hgc & Hof & _ & Hbk).
  rewrite (bind_some _ _ _ E). cbn beta iota.
  assert (Htl : forall b, Forall (fun x => server_typed (fst x)) (server_addrs b svs)).
  { intros b. apply Forall_forall. intros x [Hx _]%server_addrs_in. rewrite Forall_forall in Hty. by apply Hty. }
  pose proof (group_ready_of _ _ Hg Hgc Hof Hne (Htl false)) as Hready.
  assert (Hbr : forall bs, backup us = Some bs -> group_ready bs).
  { intros bs Eb. rewrite Eb in Hbk. destruct Hbk as (Hof' & _ & Hg' & Hgc'). apply (group_ready_of (server_addrs true svs)); [done..| |apply Htl].
    intros E0. rewrite E0 in Hof', Hgc'. apply Forall2_nil_inv_l in Hof'. (* no backup group without servers *)
    unfold init_round_robin in E. rewrite E0 in E. destruct (rr_count (server_addrs false svs) =? 0); [done|].
    apply option_bind_inv in E as ([rs ps1] & _ & E). injection E as <- _. done. }
  assert (Hnone : has_backups (uc_init c) = false -> backup us = None).
  { intros H%Hnb. destruct (backup us) as [bs|] eqn:Eb; [|done]. exfalso. destruct (Hbr bs eq_refl) as [_ _ _ Hnn _].
    destruct Hbk as (Hof' & _). destruct (server_addrs true svs) as [|x l] eqn:E1; [by apply Forall2_nil_inv_l in Hof'|].
    destruct (server_addrs_in true svs x) as [Hx Hx1]; [rewrite E1; left|]. rewrite Forall_forall in H. by rewrite (H _ Hx) in Hx1. }
  assert (Hnul : Forall (fun p => nul_free (rr_server p)) (rr_list (primary us))).
  { apply Forall_forall. intros p (i & Hi)%list_elem_of_lookup_1. destruct (Forall2_lookup_r _ _ _ _ _ Hof Hi) as (x & Hx & [_ Hsv _ _ _ _]).
    rewrite Hsv. apply list_elem_of_lookup_2, server_addrs_in in Hx as [Hx _]. rewrite Forall_forall in Hnm. by apply Hnm. }
  destruct Hgc as [_ Htot].
  destruct (uc_init c) as [[]|] eqn:Eb; try (eexists _, _; split; [reflexivity|]; by split).
  - pose proof Hready as [_ _ _ Hnn Hw]. destruct (rr_list (primary us)) as [|p l] eqn:El; [done|]. rewrite <- El in *.
    destruct (init_chash_spec qsort (primary us) p) as (pts & Ep & Hr); [rewrite El; left|rewrite El in Hw; apply Forall_cons in Hw as [Hw _]; lia|].
    rewrite (bind_some _ _ _ Ep). eexists _, _. split; [reflexivity|]. split; try done. intros _. exists pts. cbn [ur_points ur_us].
    split_and!; try done. rewrite Htot. exact Hfit.
  - eexists _, _. split; [reflexivity|]. split; try done. intros _. cbn [ur_ranges ur_us]. split; [done|]. rewrite Htot. exact Hfit.
Qed.

(** ** Later states *)

Lemma kept_wsum l l' : kept l l' -> wsum l' = wsum l.
Proof. unfold wsum. induction 1 as [|p q l l' [_ _ Hw _ _ _] H IH]; [done|]. cbn [foldr]. by rewrite IH, Hw. Qed.

Lemma kept_Forall (P Q : rr_peer -> Prop) l l' : kept l l' -> (forall p q, same_conf p q -> P p -> Q q) -> Forall P l -> Forall Q l'.
Proof. intros Hk HPQ. induction Hk as [|p q l l' Hpq Hk IH]; intros H; [by constructor|]. apply Forall_cons in H as [Hp H]. constructor; [by eapply HPQ|by apply IH]. Qed.

Lemma kept_points l l' : kept l l' -> raw_points l' = raw_points l.
Proof.
  induction 1 as [|p q l l' [_ Hs Hw _ _ _] H IH]; [done|]. unfold raw_points in *. cbn [flat_map]. rewrite IH. f_equal.
  unfold peer_points. by rewrite Hs, Hw.
Qed.

Lemma kept_ranges a l l' : kept l l' -> random_ranges a l' = random_ranges a l.
Proof. intros H. revert a; induction H as [|p q l l' [_ _ Hw _ _ _] H IH]; intros a; [done|]. cbn [random_ranges]. by rewrite IH, Hw. Qed.

Lemma group_ready_kept ps ps' : group_kept ps ps' -> group_ready ps -> group_ready ps'.
Proof.
  intros [Kn Kt Ks Kl] [Hw Hn Ht Hne Hwt]. pose proof (Forall2_length _ _ _ Kl) as Hlen. split.
  - unfold group_wf in *. by rewrite Ks, <- Hlen.
  - by rewrite Kn, <- Hlen.
  - by rewrite Kt, Ht, (kept_wsum _ _ Kl).
  - intros E. rewrite E in Hlen. by destruct (rr_list ps).
  - eapply kept_Forall; [exact Kl| |exact Hwt]. intros p q [_ _ -> _ _ _]. done.
Qed.

Lemma started_kept b run us us' : us_kept us us' -> started b run us -> started b run us'.
Proof.
  intros [Kp Kb] [Hp Hb Hn Hr Hg]. pose proof Kp as [_ Kt _ Kl]. split.
  - by eapply group_ready_kept.
  - intros bs Ebs. rewrite Ebs in Kb. destruct (backup us) as [bs0|]; [|by inversion Kb]. inversion Kb as [? ? K|]; subst. by eapply group_ready_kept, Hb.
  - intros H%Hn. rewrite H in Kb. by inversion Kb.
  - intros H%Hr. destruct H as (pts & E & [R1 R2 R3 R4] & Hlen & Hnul). exists pts. rewrite Kt. split_and!; try done.
    + split; rewrite ?(kept_points _ _ Kl); done.
    + eapply kept_Forall; [exact Kl| |exact Hnul]. intros p q [_ -> _ _ _ _]. done.
  - intros H%Hg. destruct H as [E Hw]. rewrite Kt. split; [|done]. rewrite E. unfold update_random. by rewrite (kept_ranges _ _ _ Kl).
Qed.

(** ** Every request is answered *)

(** The points of the ring are at most 160 for each unit of weight. *)
Lemma ring_length l pts : Forall (fun p => 1 <= weight p) l -> ring_of l pts -> Z.of_nat (length pts) <= 160 * wsum l.
Proof.
  intros Hw [_ Hs Hp _].
  assert (Hnd : NoDup pts).
  { clear Hp. induction Hs as [|a pts Hs IH Ha]; constructor; [|done]. intros Hin. rewrite Forall_forall in Ha. specialize (Ha a Hin). unfold hash_lt in Ha. lia. }
  pose proof (submseteq_length _ _ (NoDup_submseteq _ _ Hnd Hp)) as Hle. enough (Z.of_nat (length (raw_points l)) = 160 * wsum l) by lia.
  clear - Hw. assert (Hn : forall n base prev s, length (server_points n base prev s) = n) by (induction n; intros; cbn [server_points length]; auto).
  unfold raw_points, wsum. induction Hw as [|p l Hp Hw IH]; [done|]. cbn [flat_map foldr]. rewrite length_app. unfold peer_points at 1. rewrite Hn. lia.
Qed.

(** A server the balancer takes for usable: [random] does not ask the health
    checker. *)
Definition view (b : option balancer) (check_down : Z -> bool) : Z -> bool :=
  match b with Some B_random => fun _ => false | _ => check_down end.

(** The answer to a request: a usable server, a backup server only when no
    other server is usable, and [NGX_BUSY] when none is. *)
Definition answered (b : option balancer) (now : Z) (check_down : Z -> bool) (us : rr_upstream) (rc : ngx_rc) (rrp : rr_data) : Prop :=
  (rc = NGX_OK
   /\ (exists ps i p, group_of rrp us = Some ps /\ current rrp = Some i /\ rr_list ps !! i = Some p
         /\ usable now (view b check_down) ps p)
   /\ (on_backup rrp = true -> forall p, p ∈ rr_list (primary us) -> ~ usable now check_down (primary us) p))
  \/ (rc = NGX_BUSY
      /\ (forall p, p ∈ rr_list (primary us) -> ~ usable now check_down (primary us) p)
      /\ forall bs p, backup us = Some bs -> p ∈ rr_list bs -> ~ usable now check_down bs p).

(** Products of connections and weights that fit, for the balancers that
    compare loads. *)
Definition loads_fit (b : option balancer) (two : bool) (us : rr_upstream) : Prop :=
  match b with
  | Some B_least_conn => loads_ok (rr_list (primary us)) /\ forall bs, backup us = Some bs -> loads_ok (rr_list bs)
  | Some B_random => two = true -> loads_ok (rr_list (primary us))
  | _ => True
  end.

Lemma usable_view b now cd ps p : usable now cd ps p -> usable now (view b cd) ps p.
Proof. unfold usable, view. destruct b as [[]|]; intros; naive_solver. Qed.

Section Answers.
Context (now : Z) (check_down : Z -> bool) (us : rr_upstream).

(** The answers of the round robin, also when another balancer falls back on it. *)
Lemma rr_answered b :
  group_ready (primary us) -> (forall bs, backup us = Some bs -> group_ready bs) ->
  exists rc rrp us', get_round_robin_peer now check_down (init_round_robin_peer us) us = Some (rc, rrp, us') /\ answered b now check_down us rc rrp.
Proof.
  intros Hp Hb. destruct (request_usable now check_down us (gr_wf _ Hp) (fun bs E => gr_wf _ (Hb bs E))) as (rc & rrp & us' & E & H).
  exists rc, rrp, us'. split; [done|]. destruct H as [(-> & On & i & p & Ec & Hi & Hu)|(Hn & [(-> & On & bs & i & p & Eb & Ec & Hi & Hu)|[-> H]])].
  - left. split; [done|]. split; [|by rewrite On]. exists (primary us), i, p. unfold group_of. rewrite On. split_and!; try done. by apply usable_view.
  - left. split; [done|]. split; [|done]. exists bs, i, p. unfold group_of. rewrite On. split_and!; try done. by apply usable_view.
  - right. by split_and!.
Qed.

(** Without backup servers a request stays with the others. *)
Lemma rr_stays rrp rc rrp' us' :
  backup us = None -> on_backup rrp = false -> get_round_robin_peer now check_down rrp us = Some (rc, rrp', us') -> on_backup rrp' = false.
Proof.
  intros Eb On. unfold get_round_robin_peer. rewrite On. intros ([[r t] ps] & _ & H)%option_bind_inv. cbv zeta in H.
  change (backup (us <| primary := ps |>)) with (backup us) in H. rewrite Eb in H. by destruct r; injection H as _ <- _.
Qed.

Lemma hash_stays hp rc hp' us' locks :
  backup us = None -> on_backup (hp_rrp hp) = false ->
  get_hash_peer false now check_down hp us [] = Some (Returns (rc, hp', us', locks)) -> on_backup (hp_rrp hp') = false.
Proof.
  intros Eb On. unfold get_hash_peer. intros (ps & _ & H)%option_bind_inv. cbv zeta in H. destruct (_ || _).
  - apply option_bind_inv in H as ([[rc1 rrp] us1] & E & H). injection H as _ <- _ _. by eapply rr_stays.
  - apply option_bind_inv in H as (o & _ & H). destruct o as [[[[[p|] tries] [h rehash]] lk]|]; [| |done].
    + by injection H as _ <- _ _.
    + apply option_bind_inv in H as ([[rc1 rrp] us1] & E & H). injection H as _ <- _ _. by eapply rr_stays.
Qed.

Lemma ip_hash_stays iphp rc iphp' us' locks :
  backup us = None -> on_backup (iphp_rrp iphp) = false ->
  get_ip_hash_peer false now check_down iphp us [] = Some (Returns (rc, iphp', us', locks)) -> on_backup (iphp_rrp iphp') = false.
Proof.
  intros Eb On. unfold get_ip_hash_peer. intros (ps & _ & H)%option_bind_inv. cbv zeta in H. destruct (_ || _).
  - apply option_bind_inv in H as ([[rc1 rrp] us1] & E & H). injection H as _ <- _ _. by eapply rr_stays.
  - apply option_bind_inv in H as (o & _ & H). destruct o as [[[[[p|] tries] h] lk]|]; [| |done].
    + by injection H as _ <- _ _.
    + apply option_bind_inv in H as ([[rc1 rrp] us1] & E & H). injection H as _ <- _ _. by eapply rr_stays.
Qed.

Lemma random_stays loop rp rc rp' us' :
  backup us = None -> on_backup (rp_rrp rp) = false -> random_get now check_down loop rp us = Some (rc, rp', us') -> on_backup (rp_rrp rp') = false.
Proof.
  intros Eb On. unfold random_get. intros (ps & _ & H)%option_bind_inv. cbv zeta in H. destruct (_ || _).
  - apply option_bind_inv in H as ([[rc1 rrp] us1] & E & H). injection H as _ <- _. by eapply rr_stays.
  - apply option_bind_inv in H as ([[i|] tries] & _ & H).
    + by injection H as _ <- _.
    + apply option_bind_inv in H as ([[rc1 rrp] us1] & E & H). injection H as _ <- _. by eapply rr_stays.
Qed.

(** Answers without backup servers. *)
Lemma alone_answered b rc rrp :
  backup us = None -> on_backup rrp = false ->
  (rc = NGX_OK /\ exists i p, current rrp = Some i /\ rr_list (primary us) !! i = Some p /\ usable now (view b check_down) (primary us) p)
  \/ (rc = NGX_BUSY /\ forall p, p ∈ rr_list (primary us) -> ~ usable now check_down (primary us) p) ->
  answered b now check_down us rc rrp.
Proof.
  intros Eb On [(-> & i & p & Ec & Hi & Hu)|[-> H]]; [left|right].
  - split; [done|]. split; [|by rewrite On]. exists (primary us), i, p. unfold group_of. by rewrite On.
  - split_and!; [done|done|]. by rewrite Eb.
Qed.

Lemma served_answered b home rc rrp :
  backup us = None -> on_backup rrp = false -> served now check_down (primary us) home rc (current rrp) -> answered b now check_down us rc rrp.
Proof.
  intros Eb On H. apply alone_answered; [done..|]. destruct H as [(-> & (i & p & Ec & Hi & Hu) & _)|[-> H]]; [left|by right].
  split; [done|]. exists i, p. split_and!; try done. by apply usable_view.
Qed.

Lemma rr_served_answered b rc rrp :
  backup us = None -> on_backup rrp = false -> rr_served now check_down us rc (current rrp) -> answered b now check_down us rc rrp.
Proof.
  intros Eb On H. apply alone_answered; [done..|]. destruct H as [(-> & i & p & Ec & Hi & Hu)|H]; [left|by right].
  split; [done|]. exists i, p. split_and!; try done. by apply usable_view.
Qed.

Lemma ready_weights_ok : group_ready (primary us) -> weights_ok (primary us).
Proof.
  intros [_ _ Ht Hne Hw]. split_and!; [|done|].
  - eapply Forall_impl; [exact Hw|]. cbn. intros. lia.
  - rewrite Ht. destruct Hw as [|p l Hp Hw]; [done|]. change (wsum (p :: l)) with (weight p + wsum l).
    enough (0 <= wsum l) by lia. apply wsum_nonneg. eapply Forall_impl; [exact Hw|]. cbn. intros. lia.
Qed.

(** A chosen server of the ring. *)
Lemma chash_answered pts key b hp :
  group_ready (primary us) -> backup us = None -> ring_of (rr_list (primary us)) pts -> 160 * total_weight (primary us) + 21 < 2 ^ 32 ->
  Forall (fun p => nul_free (rr_server p)) (rr_list (primary us)) -> init_chash_peer pts us key = Some hp ->
  exists rc hp' us', get_chash_peer now check_down pts hp us = Some (rc, hp', us') /\ answered b now check_down us rc (hp_rrp hp').
Proof.
  intros Hp Eb Hr Hlen Hn Eh. pose proof (ring_length _ _ (gr_weights _ Hp) Hr) as Hl. rewrite <- (gr_total _ Hp) in Hl.
  assert (On : on_backup (hp_rrp hp) = false) by (unfold init_chash_peer in Eh; apply option_bind_inv in Eh as (? & _ & Eh); by injection Eh as <-).
  destruct (single (primary us)) eqn:Hs.
  - destruct (rr_answered b Hp) as (rc & rrp & us' & E & H); [by rewrite Eb|].
    apply option_bind_inv in Eh as (i & _ & Eh). injection Eh as <-. unfold get_chash_peer. cbn [hp_rrp hp_tries hp_key hp_rehash hp_hash init_hash_peer].
    change (group_of (init_round_robin_peer us) us) with (Some (primary us)). cbn [mbind option_bind]. rewrite Hs. cbn [orb Z.ltb Z.compare].
    rewrite (bind_some _ _ _ E). eexists _, _, _. split; [reflexivity|]. exact H.
  - destruct (chash_walks now check_down us pts key Hr ltac:(lia) Hn (gr_wf _ Hp) Hs Eb) as (i & hp0 & rc & hp' & us' & _ & Eh0 & Eg & Hw).
    rewrite Eh in Eh0. injection Eh0 as <-. exists rc, hp', us'. split; [done|].
    assert (On' : on_backup (hp_rrp hp') = false).
    { unfold get_chash_peer in Eg. apply option_bind_inv in Eg as (ps & _ & Eg). cbv zeta in Eg. destruct (_ || _).
      - apply option_bind_inv in Eg as ([[rc1 rrp] us1] & E & Eg). injection Eg as _ <- _. by eapply rr_stays.
      - apply option_bind_inv in Eg as ([[[r hash] tries] l] & _ & Eg). destruct r as [p|]; [by injection Eg as _ <- _|].
        apply option_bind_inv in Eg as ([[rc1 rrp] us1] & E & Eg). injection Eg as _ <- _. revert E. unfold get_round_robin_peer.
        cbn [hp_rrp]. rewrite On. intros ([[r1 t1] ps1] & _ & E)%option_bind_inv. cbv zeta in E. unfold set_group in E. rewrite On in E.
        match type of E with context [backup ?x] => change (backup x) with (backup us) in E end. rewrite Eb in E. by destruct r1; injection E as _ <- _. }
    destruct Hw as [(m & pt & j & _ & _ & -> & Ec & (p & Hj & _ & Hu) & _)|[_ Hsv]]; [|by eapply served_answered].
    apply alone_answered; [done..|]. left. split; [done|]. exists j, p. split_and!; try done. by apply usable_view.
Qed.

(** A drawn server. *)
Lemma random_answered rnd two :
  group_ready (primary us) -> backup us = None -> total_weight (primary us) < 2 ^ 64 ->
  (two = true -> loads_ok (rr_list (primary us))) ->
  exists rc rp us',
    (if two then get_random2_peer now check_down rnd (update_random us) (init_random_peer us) us
     else get_random_peer now check_down rnd (update_random us) (init_random_peer us) us) = Some (rc, rp, us')
    /\ answered (Some B_random) now check_down us rc (rp_rrp rp).
Proof.
  intros Hp Eb Ht Hl. pose proof Hp as [Hg Hn _ _ _]. assert (Hok : random_ok (primary us)) by (split_and!; [by apply ready_weights_ok|done|done]).
  destruct (single (primary us)) eqn:Hs.
  - destruct (rr_answered (Some B_random) Hp) as (rc & rrp & us' & E & H); [by rewrite Eb|]. exists rc, (mk_random rrp 0), us'. split; [|exact H].
    unfold get_random2_peer, get_random_peer, random_get. cbn [init_random_peer rp_rrp rp_tries].
    change (group_of (init_round_robin_peer us) us) with (Some (primary us)). cbn [mbind option_bind]. rewrite Hs. cbn [orb Z.ltb Z.compare].
    rewrite (bind_some _ _ _ E). by destruct two.
  - destruct two.
    + destruct (random_two_served now check_down rnd us Hok Hg Hs Eb (Hl eq_refl)) as (rc & rp & us' & E & H). exists rc, rp, us'. split; [done|].
      assert (On : on_backup (rp_rrp rp) = false) by (eapply random_stays; [exact Eb| |exact E]; done). destruct H as [(-> & i & Ec & a & b & p & q & x & Ha & Hb & _ & Hpa & Hqb & Hi & _)|H];
        [|by apply rr_served_answered].
      apply alone_answered; [done..|]. left. split; [done|]. destruct Hi as [->| ->]; [by exists a, p|by exists b, q].
    + destruct (random_request_served now check_down rnd us Hok Hg Hs Eb) as (rc & rp & us' & E & H). exists rc, rp, us'. split; [done|].
      assert (On : on_backup (rp_rrp rp) = false) by (eapply random_stays; [exact Eb| |exact E]; done). destruct H as [(-> & i & Ec & p & Hi & Hu)|H]; [|by apply rr_served_answered].
      apply alone_answered; [done..|]. left. split; [done|]. by exists i, p.
Qed.

End Answers.

(** A request of any balancer in any state of a started upstream. *)
Lemma request_answered b two run us now check_down rnd key client :
  started b run us -> loads_fit b two us ->
  exists d rc d' us', peer_init b run us key client = Some d
    /\ peer_get now check_down rnd b two run d us = Some (Returns (rc, d', us')) /\ answered b now check_down us rc (data_rrp d').
Proof.
  intros [Hp Hb Hnb Hring Hran] Hl. unfold peer_init, peer_get. destruct b as [[]|].
  - destruct Hl as [Hl Hlb]. assert (Hbk : forall bs, backup us = Some bs -> group_wf bs /\ loads_ok (rr_list bs)) by (intros bs E; split; [apply (Hb bs E)|by apply Hlb]).
    destruct (least_conn_least now check_down us (gr_wf _ Hp) Hl Hbk) as (rc & rrp & us' & E & H).
    eexists _, rc, (D_rr rrp), us'. split; [reflexivity|]. cbn match. rewrite (bind_some _ _ _ E). split; [reflexivity|]. cbn [data_rrp].
    destruct H as [(-> & On & i & Ec & p & Hi & Hu & _)|(Hn & [(-> & On & bs & i & p & Eb & Ec & Hi & Hu & _)|[-> H]])].
    + left. split; [done|]. split; [|by rewrite On]. exists (primary us), i, p. unfold group_of. by rewrite On.
    + left. split; [done|]. split; [|done]. exists bs, i, p. unfold group_of. by rewrite On.
    + right. by split_and!.
  - destruct (hash_served false now check_down us key (gr_wf _ Hp) (ready_weights_ok us Hp) (Hnb eq_refl) (or_introl eq_refl)) as (rc & hp & us' & E & H).
    eexists _, rc, (D_hash hp), us'. split; [reflexivity|]. cbn match. rewrite (bind_some _ _ _ E). split; [reflexivity|]. cbn [data_rrp].
    eapply served_answered; [by apply Hnb| |exact H]. eapply hash_stays; [by apply Hnb| |exact E]. done.
  - destruct (Hring eq_refl) as (pts & Epts & Hr & Hlen & Hn). rewrite Epts. cbn [mbind option_bind].
    destruct (find_chash_point_next pts (ngx_crc32_long key) (ring_sorted _ _ Hr)) as (i & Ei & _ & _).
    assert (Eh : is_Some (init_chash_peer pts us key)) by (unfold init_chash_peer; rewrite Ei; by eexists). destruct Eh as [hp Eh].
    destruct (chash_answered now check_down us pts key (Some B_chash) hp Hp (Hnb eq_refl) Hr Hlen Hn Eh) as (rc & hp' & us' & E & H).
    exists (D_hash hp), rc, (D_hash hp'), us'. split; [by rewrite Eh|]. cbn match. rewrite (bind_some _ _ _ E). by split.
  - destruct (ip_hash_served false now check_down us client (gr_wf _ Hp) (ready_weights_ok us Hp) (Hnb eq_refl) (or_introl eq_refl)) as (rc & hp & us' & E & H).
    eexists _, rc, (D_ip_hash hp), us'. split; [reflexivity|]. cbn match. rewrite (bind_some _ _ _ E). split; [reflexivity|]. cbn [data_rrp].
    eapply served_answered; [by apply Hnb| |exact H]. eapply ip_hash_stays; [by apply Hnb| |exact E]. done.
  - destruct (Hran eq_refl) as [Er Ht]. rewrite Er. cbn [mbind option_bind].
    destruct (random_answered now check_down us rnd two Hp (Hnb eq_refl) Ht Hl) as (rc & rp & us' & E & H).
    eexists _, rc, (D_random rp), us'. split; [reflexivity|]. cbn match. rewrite (bind_some _ _ _ E). by split.
  - destruct (rr_answered now check_down us None Hp Hb) as (rc & rrp & us' & E & H).
    eexists _, rc, (D_rr rrp), us'. split; [reflexivity|]. cbn match. rewrite (bind_some _ _ _ E). split; [reflexivity|]. exact H.
Qed.

(** C4: from the configuration to the requests, for upstreams without a zone.
    After any configuration, a block that is accepted (its balancer named before
    its servers) starts: whatever the balancer, if some server is not a backup,
    the addresses can be checked ([all_addrs_ok]) and the sum of the weights
    fits its machine word ([weights_fit]), [init_upstream] makes the servers.
    From then on, after any requests, failures and releases, as long as
    connections times weight fit a word where a balancer compares them
    ([loads_fit]), every new request at any time, with any key, client address,
    random numbers and answers of the health checker, is answered: it gets a
    usable server (a backup server only if no other server is usable), or
    [NGX_BUSY] and then no server is usable.  A usable server is one the health
    checker holds for up, except under [random], which does not ask it. *)
Theorem configured_requests_served http gai cok qsort `{Hq : !QSortOk qsort} name ds l l' cf resolve ps :
  rtc (conf_step http gai cok) [] l -> nul_free name -> texts_ok ds -> method_first ds = true ->
  upstream_block http gai cok name ds l = Some l' ->
  exists i c svs, l' !! i = Some c /\ low (uc_host c) = low name /\ uc_servers c = Some svs
    /\ (all_addrs_ok cf svs -> server_addrs false svs <> [] -> weights_fit (uc_init c) svs ->
        exists run ps', init_upstream qsort cf resolve c ps = Some (NGX_OK, Some run, ps')
          /\ forall us, rtc (traffic (uc_init c) (uc_two c) run) (ur_us run) us -> loads_fit (uc_init c) (uc_two c) us ->
             forall now check_down rnd key client,
             exists d rc d' us', peer_init (uc_init c) run us key client = Some d
               /\ peer_get now check_down rnd (uc_init c) (uc_two c) run d us = Some (Returns (rc, d', us'))
               /\ answered (uc_init c) now check_down us rc (data_rrp d')).
Proof.
  intros Hl Hn Ht Hm Hblk. destruct (block_spec http gai cok name ds l l' Hn (conf_steps_inv _ _ _ _ Hl) Hblk)
    as (i & c0 & c & svs & Hi & Hrun & Es0 & Ei0 & Hname & Es & _ & Hcr & _ & Hinv).
  exists i, c, svs. split_and!; [done..|]. intros Haddr Hne Hfit.
  destruct (Hinv i c Hi) as (_ & _ & Hty & _). destruct (Hty Hcr) as (_ & (svs0 & Es1 & _ & Hty0) & _). rewrite Es in Es1. injection Es1 as <-.
  destruct (directives_fit http gai cok ds c0 c Hm Hrun) as (svs1 & Es2 & Hnb); [by intros b; rewrite Ei0|done|]. rewrite Es in Es2. injection Es2 as <-.
  destruct (directives_names http gai cok ds c0 c [] Ht Hrun Es0) as (svs2 & Es3 & Hnm); [by constructor|]. rewrite Es in Es3. injection Es3 as <-.
  destruct (start_spec qsort cf resolve c svs ps Es Hty0 Hnm Hnb Haddr Hne Hfit) as (run & ps' & E & Hst).
  exists run, ps'. split; [done|]. intros us Htr Hlf now cd rnd key client. apply request_answered; [|done].
  eapply started_kept; [by eapply traffic_kept|done].
Qed.

(** ** Example *)

(** The block of [ex_block], named by a [proxy_pass] before it. *)
Definition ex_before : list uscf_t := [mk_uscf 0 (s2b "backend") 80 true None None false []].

Lemma ex_before_steps : rtc (conf_step true ex_gai (fun _ => true)) [] ex_before.
Proof.
  eapply rtc_l; [eapply (step_pass true ex_gai _ (s2b "backend") 80 true); [by repeat constructor|done|vm_compute; reflexivity]|]. apply rtc_refl.
Qed.

Lemma configured_requests_served_witness :
  exists run ps', init_upstream sort_points (Some ex_conf) None ex_backend (mk_peers [] 0 [] None) = Some (NGX_OK, Some run, ps')
    /\ forall us, rtc (traffic (Some B_hash) false run) (ur_us run) us ->
       forall now check_down rnd key client,
       exists d rc d' us', peer_init (Some B_hash) run us key client = Some d
         /\ peer_get now check_down rnd (Some B_hash) false run d us = Some (Returns (rc, d', us'))
         /\ answered (Some B_hash) now check_down us rc (data_rrp d').
Proof.
  destruct (configured_requests_served true ex_gai (fun _ => true) sort_points (s2b "Backend") ex_block ex_before [ex_backend]
              (Some ex_conf) None (mk_peers [] 0 [] None) ex_before_steps) as (i & c & svs & Hi & _ & Es & H).
  - repeat (apply Forall_cons_2; [split; reflexivity|]). apply Forall_nil_2.
  - repeat (apply Forall_cons_2; [try exact I; repeat (apply Forall_cons_2; [split; reflexivity|]); apply Forall_nil_2|]). apply Forall_nil_2.
  - reflexivity.
  - vm_compute. reflexivity.
  - destruct i as [|i]; [|discriminate]. injection Hi as <-. injection Es as <-. destruct H as (run & ps' & E & Hreq).
    + split; repeat constructor; right; left; reflexivity.
    + discriminate.
    + exact I.
    + exists run, ps'. split; [exact E|]. intros us Htr. apply Hreq; [exact Htr|exact I].
Defined.
